(* ===== verification/_CoqProject ===== *)
-Q . S2P
Prelude.v
GoStrings.v
Regex.v
Sandbox.v
Dnsd.v
Netfw.v
Isolation.v
Store.v
Timestamps.v
Migrate.v
Sha256.v
Nftables.v
Enroll.v
Auth.v
Allowlist.v
Stream.v
Tunnel.v
GuestProto.v
GuestAgent.v
Skills.v
Manager.v
Conformance.v
Mvmnet.v
Microvm.v
Assets.v
CloudHypervisor.v
Firecracker.v
Docker.v
Spoke.v
Remote.v
RemoteManager.v
Registry.v
BoxApi.v
Boxes.v
Hooks.v
AuditLog.v
Ingress.v
Upstream.v
Pipes.v
Config.v
Providers.v
Watcher.v
Api.v
Terminal.v
Routes.v
Startup.v
CommandLine.v
OperatorCommands.v
Listeners.v
Backends.v
