(* ===== verification/Prelude.v ===== *)
(** * llmbox: a verification development

    llmbox runs sandboxed boxes for language-model agents.  A single hub (the
    control server, [internal/hub]) accepts API calls and browser sign-ins, keeps
    its state in SQLite, and drives one or more spokes ([internal/spoke]) over a
    WebSocket each ([internal/shared/cluster]); a spoke provisions the boxes on
    one of three backends (Docker, Firecracker, Cloud Hypervisor), talks to the
    agent inside a micro-VM ([internal/guest]) and confines the network of its
    boxes with its own DNS resolver and firewall.  This library
    is a shallow embedding of the decision-making code of both sides, in Rocq
    functions over explicit state, with the theorems that make it correct.

    ** Conventions

    - A Go function returning [(T, error)] is a function into [res E T], with one
      constructor of [E] per error site (or the error's text or HTTP status).
      A method on a mutable object takes and returns the object's record.
    - The body of a mutex-protected section is one atomic update.  Where the code
      releases a lock in the middle of an operation and another operation can
      come between, the operation is split there and a step relation gives the
      interleavings ([Netfw.Interleaving], [Enroll.reg_step], [Stream.closing],
      [Remote.corr_step], [Boxes.race_step]).  The backends, the guest agent and a
      spoke's connection have step relations of their own ([ch_step], [fc_step],
      [guest_step], [spoke_step]); the operations of several spokes on one Docker
      daemon are taken one at a time.
    - Code that acts on a store and may fail is in the monad [go S E A] ([let*]);
      [for_each], [go_ignore] and [go_cleanup] are its loops, its ignored errors
      and its error paths, [triple] what such code promises.
    - [time.Time] and [time.Duration] are integers counting nanoseconds; a clock
      reading and the bytes a random source delivers are arguments ([None]: the
      source fails).  Strings are byte strings; case mapping is the ASCII one.
      Where a product can leave 64 bits it wraps ([int64]).
    - A Go map or a table is a [gmap] (stdpp); ranging over a map, whose order Go
      leaves open, uses [map_to_list], and a theorem says so where the order does
      not matter, or takes the order as an argument where it does.
    - Interfaces are type classes with their laws ([Programmer], [ClusterStore],
      [Provisioner], [PolicyApplier], [BoxManager]); clients are proved against
      the laws, implementations are instances.  Programs and services outside the
      repository are classes too: [HostTools] (ip, iptables and the like),
      [DockerAPI], [Nft], [AssetHost] (registry and disk), [ConfigEnv], [Json]
      and [Wire] (encoding/json); their laws state documented behaviour, and
      simulations in the files obey them.

    ** Files

    - [Prelude]: results, durations, tactics, list lemmas.
    - [GoStrings], [Regex], [Sha256]: what the program uses of Go's [strings],
      [sort], [strconv], [regexp], [crypto/sha256], [encoding/hex].
    - [Sandbox] (shared/sandbox): the types crossing hub and spoke; the rule for
      box ids, equal to "is a DNS host name label".
    - [Dnsd] (spoke/dnsd): allowlist policy, domain patterns, the query handler.
      Shown: the pattern language; deny by default; a reply carries addresses
      only after every one of them was pinned; every question is audited once.
    - [Netfw] (spoke/netfw): the [Programmer] interface, the TTL-tracking
      [Pinner], the in-memory [RecordingProgrammer].  Shown: pin and sweep on
      every branch; two ways the book-keeping and the firewall part ways.
    - [Isolation] (spoke/isolation): the composition.  Shown: in every reachable
      state, firewall failures included, an address is open for a box only if an
      allowed lookup of that box resolved to it; releasing a box closes everything.
    - [Store] (hub/store): the SQLite tables and statements.  Shown: round trips,
      exact DNS audit counts, and that purging by timestamp text is inexact.
    - [Timestamps] (hub/store/sqlite.go): the order of the stored texts.  Shown:
      whole seconds of the years 1970 to 9999 order like their texts.
    - [Migrate] (hub/store/sqlite.go): the schema and its migration.  Shown:
      opening upgrades the files of earlier builds and loses no row.
    - [Enroll] (shared/cluster/tokens.go, hub.go, hub/token, hub/server.go): join
      tokens, enrollment, reconnection, the registry of live connections, and
      dropping a spoke.  Shown: enrollment implements its log (authentic, one
      time), tokens do enroll, drops revoke, the registry routes to the newest
      connection.
    - [Auth] (hub/apikey, hub/auth, hub/apiauth.go): API keys, OIDC sign-in, the
      API middleware.  Shown: who is served, key lifetime, the sign-in round trip.
    - [Allowlist] (hub/allowlist.go, dns_audit.go): groups, effective policies,
      pushes, bundles.  Shown: the policy pushed is the effective allowlist and
      decides exactly the resolver's answers on the spoke; domain cleaning;
      everything stored is enforceable; export and import round-trip.
    - [Stream] (shared/cluster/stream.go): the hub's end of a tunnel.  Shown: bytes
      arrive in order and in full; two races of closing and of deadlines.
    - [Tunnel] (shared/cluster: stream.go, remote.go, dispatch.go): both ends of
      the tunnels of a connection with the frames under way.  Shown: under every
      interleaving a tunnel is two byte pipes, and a clean end comes after all
      bytes unless a write to the box failed.
    - [Nftables] (spoke/netfw/nftables.go): the firewall programmer over nft.
      Shown: opening, closing and tearing down touch the box's own sets; the
      base rules cannot be installed, so the enforcer over it refuses every box.
    - [GuestProto], [GuestAgent] (internal/guest): the frames and terminal
      messages, the verbs, the connection loop and the host's client.  Shown:
      every process of a box runs as its user and without the agent's
      environment, but for one case; client calls have the effect of the verb;
      connections end; files arrive; initialisation is for good.
    - [Skills] (internal/guest/skills.go): installing the embedded files.  Shown:
      what is created belongs to the box user, and nothing else changes hands.
    - [Manager] (spoke/box): the box manager over a provisioner.  Shown: the cap,
      valid and unique ids under interleavings; creation and destruction.
    - [Conformance] (spoke/box/conformance): the in-process provisioner and the
      contract.  Shown: it keeps the laws of the interface; every provisioner
      that does, and is not failing, passes the contract.
    - [Mvmnet] (spoke/microvm/mvmnet): the address plan and TAP pool of micro-VMs.
      Shown: slots have disjoint addresses, names and MACs; provisioning is
      exact.
    - [Microvm]: what both micro-VM backends write in the same way.
    - [Assets] (spoke/firecracker/assets.go): downloading the guest images.
      Shown: whatever fails, only verified and wholly decoded images are put in
      place; downloads end, resume and recover from a bad partial file.
    - [CloudHypervisor], [Firecracker], [Docker] (spoke/cloudhypervisor,
      firecracker, docker): the three backends.  Shown: boxes have their own
      network, user and jail in every reachable state; metadata survives a
      restart of the spoke between operations; Docker boxes share no network and
      spokes keep apart; the manager's guarantees hold over them; where they do
      not.
    - [Spoke] (spoke/spoke.go, shared/cluster/spoke.go): flags, start-up, the
      credential file, the reconnect loop.  Shown: a spoke enrolls once and stays
      enrolled; back-off; what a lost connection costs.
    - [Remote] (shared/cluster/remote.go, boxports.go, dispatch.go): call
      correlation and dispatch.  Shown: responses reach their own call; a spoke
      never provisions from a malformed id.
    - [RemoteManager] (shared/cluster: remote.go, dispatch.go, proto.go): the verbs
      of a spoke's manager over the connection.  Shown: concurrent calls act as
      the same verbs called one after the other on the manager, each at most
      once, and return its results; a call on a live connection completes.
    - [Registry] (hub/server.go, proxy.go, boxports.go): sessions, resolving a box
      id, proxies, requests from spokes.  Shown: resolution is independent of map
      order (a live box first, then a reachable spoke); proxies are idempotent and tied to a box's
      generation; a spoke acts only on its own boxes.
    - [BoxApi] (spoke/boxapi, shared/cluster): the port API inside a box, end to
      end.  Shown: a box publishes, closes and sees only its own ports.
    - [Boxes] (hub/server.go, gc.go, hooks): creating, syncing, destroying and
      purging boxes.  Shown: the registry and its records agree and survive a
      restart (see [Startup]); ids are unique under concurrent creations; the hub converges on
      what a spoke reports; creation leaves no trace when it fails; destruction
      and purging remove exactly what they should; three races where they do not.
    - [Hooks] (hookproto, hub/hooks): one run of a hook and the files it returns.
      Shown: the hub and a hook of the package understand each other, and each
      hook gets its own state back; base64 files arrive byte by byte.
    - [AuditLog] (spoke/audit_forwarder.go, hub/dns_audit.go, hub/store): the DNS
      audit from the resolver to the administrator.  Shown: the rows listed count
      exactly the lookups forwarded, newest first; destruction keeps them.
    - [Ingress] (hub/proxy.go, http.go, config): proxy host names and the decision
      for a proxied request.  Shown: only administrators are let through;
      advertised URLs lead back to their proxy.
    - [Upstream] (spoke/dnsd, spoke/spoke.go): upstream address, forwarding, client
      address and start of the isolation.  Shown: accepted upstreams can be dialled,
      but for one form.
    - [Pipes] (guest/guest.go, hub/terminal.go, vsock.go of both micro-VM backends):
      the relay between two connections and the vsock handshake.  Shown: bytes
      arrive in order; the relay ends; the handshake loses no byte.
    - [Config] (hub/config): loading the configuration.  Shown: what loads is
      complete, and with a cookie domain one login spans the public host and the
      proxies.
    - [Providers] (hub/auth): building the authenticator, the Google and GitHub
      identity resolvers.  Shown: with it, only API keys and administrators vouched
      for by an enabled provider are served.
    - [Watcher] (hub/proxy_watcher.go): the script put into proxied pages.  Shown:
      its place, its length, and that no value breaks out of it; a page that is
      not UTF-8 breaks the splice.
    - [Api] (shared/api, hub/backend.go): the box-control API.  Shown: the client
      with a key, over the handler behind the gate, is the hub's backend.
    - [Terminal] (hub/terminal.go, http.go): the terminal's gate and the sign-in
      page.  Shown: who gets a shell where; the page redirects only to its own.
    - [Routes] (hub/http.go, admin.go, allowlist.go, dns_audit.go): the patterns of
      the hub, the mux's matching and the dispatch by host to the proxies.  Shown:
      which requests meet the API's gate, and which handlers do not.
    - [Startup] (hub/serve.go, server.go): starting the hub and its background pass.
      Shown: what is done in which order; no restart loses a box; what is served
      without providers or administrators.
    - [CommandLine] (spoke/spoke.go): the command tree, its flags and the operator
      commands.  Shown: the command the hub prints starts the spoke it is meant to.
    - [OperatorCommands] (hub/token/token.go, hub/apikey/cmd.go): the hub's
      [token] and [apikey] commands, what they print and list, and that the
      printed token enrolls and the listed id revokes exactly its token.
    - [Listeners] (guest/guest.go, guest/bridge.go, spoke/boxapi/server.go): the
      Unix sockets, who may connect to them, the accept loops and the bridge.
    - [Backends] (spoke/box/backend/backend.go, shared/boxconfig): the registry
      of backends and the pull credentials.

    ** Bounds

    [Stream.write_loop] has the length of the buffer as fuel: each round sends at
    least one byte, and [Write_spec] shows the loop ends by itself.  The loops of
    a guest connection have the number of bytes received, plus one: each round
    consumes a frame.  Waiting for a guest or a socket takes its timeout divided
    by its period, plus two rounds.  [Assets.download_loop] has seven rounds per
    missing byte: at most six in a row bring none.  Theorems say that this fuel is
    enough.  [Pipes.read_string] has two rounds per byte, shown to be enough.
    Decimal printing has 20 digits, enough for 64-bit numbers.
    [encodeTime] takes an instant in UTC with a four-digit year.  Rounding up
    nano-CPUs is exact below 2^52.  Paths are joined from clean elements.
    Correlation ids are 64-bit and wrap; the correlation theorem bounds the calls
    of one connection by 2^64 - 1.

    ** Not modelled

    Input and output: HTTP and WebSocket framing, the reverse proxy, JSON, YAML
    and zstd coding (parameters, with laws where they are used), the REST client
    of cloud-hypervisor, logging, the alignment of tables and the progress
    display, static pages, failures of the database engine (constraint violations
    are modelled), processes (their answers are arguments), the conversion of the
    fractional limits of a box, which is floating point.  The cobra library, the identity providers and their libraries, the
    upstream DNS server, the Docker daemon, the image registry and the host's
    network tools are interfaces with laws.  Of the conformance suite, the tests
    that run commands in a guest are left out; the stubs of package testutils are
    not part of the program. *)

From stdpp Require Export prelude gmap strings list sorting.
From Stdlib Require Export ZArith Lia.

(** ** Results of fallible Go functions

    A Go function returning [(T, error)] is a function into [res E T]: [Ok v]
    is [(v, nil)] and [Err e] is [(_, e)].  [E] is an enumeration of the error
    sites of the component (one constructor per [return ..., fmt.Errorf]). *)
Inductive res (E A : Type) : Type :=
| Ok (a : A)
| Err (e : E).
Arguments Ok {E A} a.
Arguments Err {E A} e.

#[export] Instance res_inhabited {E A} `{!Inhabited A} : Inhabited (res E A) :=
  populate (Ok inhabitant).

#[export] Instance res_eq_dec {E A} `{!EqDecision E, !EqDecision A} :
  EqDecision (res E A).
Proof. solve_decision. Defined.

(** The [if err != nil { return err }] idiom. *)
Definition res_bind {E A B} (m : res E A) (k : A -> res E B) : res E B :=
  match m with
  | Ok a => k a
  | Err e => Err e
  end.

Declare Scope go_scope.
Delimit Scope go_scope with go.
Notation "'let!' x ':=' m 'in' k" := (res_bind m (fun x => k))
  (at level 10, x pattern, m at level 100, k at level 200)
  : go_scope.

Definition is_ok {E A} (r : res E A) : bool :=
  match r with
  | Ok _ => true
  | Err _ => false
  end.

(** ** Stateful fallible code

    A Go function that acts on a store [S] (the host, the disk, a registry) and
    returns [(A, error)]. *)
Definition go (S E A : Type) : Type := S -> S * res E A.

Definition go_ret {S E A} (a : A) : go S E A := fun s => (s, Ok a).
Definition go_fail {S E A} (e : E) : go S E A := fun s => (s, Err e).

Definition go_bind {S E A B} (m : go S E A) (k : A -> go S E B) : go S E B :=
  fun s =>
    match m s with
    | (s', Ok a) => k a s'
    | (s', Err e) => (s', Err e)
    end.

Notation "'let*' x ':=' m 'in' k" := (go_bind m (fun x => k))
  (at level 10, x pattern, m at level 100, k at level 200)
  : go_scope.

(** [for _, x := range l { if err := f(x); err != nil { return err } }]. *)
Fixpoint for_each {S E A} (l : list A) (f : A -> go S E ()) : go S E () :=
  match l with
  | [] => go_ret ()
  | x :: l' => go_bind (f x) (fun _ => for_each l' f)
  end.

(** [_ = f()], or an error that is only logged. *)
Definition go_ignore {S E E' A} (m : go S E A) : go S E' () := fun s => ((m s).1, Ok ()).

(** [if err := m(); err != nil { cleanup(); return err }]. *)
Definition go_cleanup {S E A} (m : go S E A) (cleanup : S -> S) : go S E A :=
  fun s =>
    match m s with
    | (s', Ok a) => (s', Ok a)
    | (s', Err e) => (cleanup s', Err e)
    end.

(** What a computation promises: from [P], it ends in [Q] with its result. *)
Definition triple {S E A} (P : S -> Prop) (m : go S E A) (Q : res E A -> S -> Prop) : Prop :=
  forall s, P s -> Q (m s).2 (m s).1.

Lemma triple_bind {S E A B} (P : S -> Prop) (m : go S E A) (k : A -> go S E B) R Q :
  triple P m R ->
  (forall a, triple (R (Ok a)) (k a) Q) ->
  (forall e s, R (Err e) s -> Q (Err e) s) ->
  triple P (go_bind m k) Q.
Proof.
  intros Hm Hk He s Hs. specialize (Hm s Hs). unfold go_bind.
  destruct (m s) as [s' [a|e]]; simpl in *; [by apply Hk|by apply He].
Qed.

Lemma triple_weaken {S E A} (P P' : S -> Prop) (m : go S E A) Q Q' :
  triple P' m Q' -> (forall s, P s -> P' s) -> (forall r s, Q' r s -> Q r s) -> triple P m Q.
Proof. unfold triple. auto. Qed.

(** A loop keeps an invariant on the part of the list it has handled. *)
Lemma triple_for_each {S E A} (I : list A -> S -> Prop) (f : A -> go S E ()) (Qe : E -> S -> Prop) :
  forall l done,
  (forall d x, x ∈ l -> triple (I d) (f x) (fun r s => match r with Ok _ => I (d ++ [x]) s | Err e => Qe e s end)) ->
  triple (I done) (for_each l f) (fun r s => match r with Ok _ => I (done ++ l) s | Err e => Qe e s end).
Proof.
  induction l as [|x l IH]; intros d Hf; simpl.
  - intros s Hs. simpl. by rewrite app_nil_r.
  - eapply triple_bind; [apply Hf; set_solver| |done].
    intros []. simpl. replace (d ++ x :: l) with ((d ++ [x]) ++ l) by by rewrite <- app_assoc.
    apply IH. intros d' y Hy. apply Hf. set_solver.
Qed.

(** A loop that only logs errors goes through, and keeps what its body keeps. *)
Lemma for_each_ignore {S E E' A B} (I : S -> Prop) (f : A -> go S E B) (l : list A) :
  (forall x s, x ∈ l -> I s -> I (f x s).1) ->
  forall s, I s -> exists s', for_each l (fun x => go_ignore (E' := E') (f x)) s = (s', Ok ()) /\ I s'.
Proof.
  induction l as [|x l IH]; intros Hf s Hs; [by exists s|]. cbn [for_each]. unfold go_bind, go_ignore at 1.
  apply IH; [|apply Hf; [set_solver|done]]. intros y t Hy. apply Hf. set_solver.
Qed.

(** What a successful loop does to an observation of the store, step by step. *)
Lemma for_each_obs {S E A X} (obs : S -> X) (g : A -> X -> X) (f : A -> go S E ()) (l : list A) :
  (forall x s s', x ∈ l -> f x s = (s', Ok ()) -> obs s' = g x (obs s)) ->
  forall s s', for_each l f s = (s', Ok ()) -> obs s' = fold_left (fun v x => g x v) l (obs s).
Proof.
  induction l as [|x l IH]; intros Hf s s'; simpl; [by intros [= <-]|].
  unfold go_bind. destruct (f x s) as [s1 [[]|e]] eqn:Hx; [|done]. intros Hl.
  rewrite <- (Hf x s s1) by (set_solver || done). apply IH; [|done]. intros. apply Hf; [set_solver|done].
Qed.

(** ** Durations and instants

    [time.Duration] and [time.Time] are integers counting nanoseconds. *)
Definition Nanosecond : Z := 1.
Definition Millisecond : Z := 1000000 * Nanosecond.
Definition Second : Z := 1000 * Millisecond.
Definition Minute : Z := 60 * Second.
Definition Hour : Z := 60 * Minute.

(** Signed 64-bit arithmetic wraps around. *)
Definition int64 (z : Z) : Z := (z + 2 ^ 63) mod 2 ^ 64 - 2 ^ 63.

Lemma int64_id z : (- 2 ^ 63 <= z < 2 ^ 63)%Z -> int64 z = z.
Proof. intros Hz. unfold int64. rewrite Z.mod_small by lia. lia. Qed.

(** [t.After(u)]. *)
Definition After (t u : Z) : bool := Z.ltb u t.

(** ** Shared automation *)

Create HintDb llmbox discriminated.

(** Destruct the scrutinee of the first [match] or [if] of the goal. *)
Ltac step_match :=
  match goal with
  | |- context [match ?x with _ => _ end] =>
      lazymatch x with
      | context [match _ with _ => _ end] => fail
      | _ => destruct x eqn:?; simplify_eq/=
      end
  end.

(** The same in a hypothesis. *)
Ltac step_match_in H :=
  match type of H with
  | context [match ?x with _ => _ end] =>
      lazymatch x with
      | context [match _ with _ => _ end] => fail
      | _ => destruct x eqn:?; simplify_eq/=
      end
  end.

(** Turn boolean tests of hypotheses and goal into propositions. *)
Ltac bools :=
  repeat match goal with
  | H : _ && _ = true |- _ => apply andb_true_iff in H; destruct H
  | H : _ || _ = false |- _ => apply orb_false_iff in H; destruct H
  | H : negb _ = true |- _ => apply negb_true_iff in H
  | H : negb _ = false |- _ => apply negb_false_iff in H
  | H : (_ =? _)%Z = true |- _ => apply Z.eqb_eq in H
  | H : (_ =? _)%Z = false |- _ => apply Z.eqb_neq in H
  | H : (_ <? _)%Z = true |- _ => apply Z.ltb_lt in H
  | H : (_ <? _)%Z = false |- _ => apply Z.ltb_ge in H
  | H : (_ <=? _)%Z = true |- _ => apply Z.leb_le in H
  | H : (_ <=? _)%Z = false |- _ => apply Z.leb_gt in H
  | H : (_ =? _)%string = true |- _ => apply String.eqb_eq in H
  | H : (_ =? _)%string = false |- _ => apply String.eqb_neq in H
  | H : bool_decide _ = true |- _ => apply bool_decide_eq_true in H
  | H : bool_decide _ = false |- _ => apply bool_decide_eq_false in H
  end.

(** ** Generic lemmas on lists *)

(** The first element of a list satisfying a boolean test: a Go [for range]
    loop that returns from its body. *)
Fixpoint first_match {A} (f : A -> bool) (l : list A) : option A :=
  match l with
  | [] => None
  | x :: l' => if f x then Some x else first_match f l'
  end.

Lemma first_match_Some {A} (f : A -> bool) l x :
  first_match f l = Some x <->
  exists l1 l2, l = l1 ++ x :: l2 /\ f x = true /\ Forall (fun y => f y = false) l1.
Proof.
  induction l as [|y l IH]; simpl.
  - split; [done|]. by intros (l1 & l2 & Hl & _); destruct l1.
  - destruct (f y) eqn:Hy.
    + split.
      * intros [= ->]. exists [], l. repeat split; auto.
      * intros (l1 & l2 & Hl & Hx & Hall). destruct l1 as [|z l1]; simplify_eq/=; [done|].
        inversion Hall; congruence.
    + rewrite IH. split.
      * intros (l1 & l2 & -> & Hx & Hall). exists (y :: l1), l2. repeat split; auto.
      * intros (l1 & l2 & Hl & Hx & Hall). destruct l1 as [|z l1']; simplify_eq/=; [congruence|].
        inversion Hall; subst. eauto.
Qed.

Lemma first_match_None {A} (f : A -> bool) l :
  first_match f l = None <-> Forall (fun y => f y = false) l.
Proof.
  induction l as [|y l IH]; simpl; [by split|].
  rewrite Forall_cons, <- IH. destruct (f y); naive_solver.
Qed.

Lemma first_match_elem {A} (f : A -> bool) l x :
  first_match f l = Some x -> x ∈ l /\ f x = true.
Proof.
  rewrite first_match_Some. intros (l1 & l2 & -> & Hx & _). split; [set_solver|done].
Qed.

(** Keep the first occurrence of each element: the Go idiom of a [seen] map
    guarding an [append]. *)
Fixpoint dedup_acc {A} `{EqDecision A} (seen l : list A) : list A :=
  match l with
  | [] => []
  | x :: l' => if decide (x ∈ seen) then dedup_acc seen l' else x :: dedup_acc (x :: seen) l'
  end.

Definition dedup {A} `{EqDecision A} (l : list A) : list A := dedup_acc [] l.

Lemma elem_of_dedup_acc {A} `{EqDecision A} (seen l : list A) x :
  x ∈ dedup_acc seen l <-> x ∈ l /\ x ∉ seen.
Proof.
  revert seen. induction l as [|y l IH]; intros seen; simpl; [set_solver|].
  case_decide as Hy; rewrite ?elem_of_cons, ?IH; [set_solver|].
  destruct (decide (x = y)); set_solver.
Qed.

Lemma elem_of_dedup {A} `{EqDecision A} (l : list A) x : x ∈ dedup l <-> x ∈ l.
Proof. unfold dedup. rewrite elem_of_dedup_acc. set_solver. Qed.

Lemma NoDup_dedup_acc {A} `{EqDecision A} (seen l : list A) : NoDup (dedup_acc seen l).
Proof.
  revert seen. induction l as [|y l IH]; intros seen; simpl; [constructor|].
  case_decide; [done|]. constructor; [|done].
  rewrite elem_of_dedup_acc. set_solver.
Qed.

Lemma NoDup_dedup {A} `{EqDecision A} (l : list A) : NoDup (dedup l).
Proof. apply NoDup_dedup_acc. Qed.

#[export] Hint Resolve NoDup_dedup : llmbox.

(** Sublists keep what holds of every element, and filters respect them. *)
Lemma Forall_sublist {A} (P : A -> Prop) l1 l2 : sublist l1 l2 -> Forall P l2 -> Forall P l1.
Proof. induction 1; inversion 1; auto. Qed.

Lemma filter_sublist {A} (P : A -> Prop) `{!forall x, Decision (P x)} l1 l2 :
  sublist l1 l2 -> sublist (filter P l1) (filter P l2).
Proof.
  induction 1 as [|x l1 l2 Hs IH|x l1 l2 Hs IH]; [constructor| |]; rewrite ?filter_cons;
    repeat case_decide; try done; by constructor.
Qed.

Lemma filter_id {A} (P : A -> Prop) `{!forall x, Decision (P x)} (l : list A) :
  (forall x, x ∈ l -> P x) -> filter P l = l.
Proof.
  induction l as [|x l IH]; intros Hp; [done|].
  rewrite filter_cons_True by (apply Hp; set_solver). f_equal. apply IH. set_solver.
Qed.

Lemma filter_ext_elem {A} (P Q : A -> Prop) `{!forall x, Decision (P x), !forall x, Decision (Q x)} (l : list A) :
  (forall x, x ∈ l -> P x <-> Q x) -> filter P l = filter Q l.
Proof.
  induction l as [|x l IH]; intros Hpq; [done|].
  assert (Hx : P x <-> Q x) by (apply Hpq; set_solver).
  rewrite !filter_cons, IH by set_solver. repeat case_decide; naive_solver.
Qed.

Lemma filter_none {A} (P : A -> Prop) `{!forall x, Decision (P x)} (l : list A) :
  (forall x, x ∈ l -> ~ P x) -> filter P l = [].
Proof.
  induction l as [|x l IH]; intros Hp; [done|].
  rewrite filter_cons_False by (apply Hp; set_solver). apply IH. set_solver.
Qed.
