(* ===== verification/GoStrings.v ===== *)
(** * Go string functions

    The functions of Go's [strings], [sort] and [strconv] packages the program
    calls, on [string] read as a sequence of bytes.  Case mapping is the ASCII
    one: on a string with bytes above 127 Go applies the Unicode tables, which
    are not modelled (every such byte is left as it is); the identifiers, DNS
    names and header values the program folds are ASCII. *)

From S2P Require Import Prelude.

From Stdlib Require Export Ascii.

Local Open Scope string_scope.

(** ** Bytes *)

Definition byte_range (lo hi : ascii) (c : ascii) : bool :=
  (N.leb (N_of_ascii lo) (N_of_ascii c) && N.leb (N_of_ascii c) (N_of_ascii hi))%N.

Definition is_lower (c : ascii) : bool := byte_range "a" "z" c.
Definition is_upper (c : ascii) : bool := byte_range "A" "Z" c.
Definition is_digit (c : ascii) : bool := byte_range "0" "9" c.

Definition lower_byte (c : ascii) : ascii :=
  if is_upper c then ascii_of_N (N_of_ascii c + 32) else c.

(** Bytes [unicode.IsSpace] accepts in the ASCII range. *)
Definition is_space (c : ascii) : bool :=
  bool_decide (N_of_ascii c = 32%N) || byte_range "009" "013" c.

(** ** strings package *)

Fixpoint string_map (f : ascii -> ascii) (s : string) : string :=
  match s with
  | "" => ""
  | String c s' => String (f c) (string_map f s')
  end.

Fixpoint string_forallb (f : ascii -> bool) (s : string) : bool :=
  match s with
  | "" => true
  | String c s' => f c && string_forallb f s'
  end.

Definition ToLower (s : string) : string := string_map lower_byte s.

(** [strings.EqualFold]: equality up to (ASCII) case. *)
Definition EqualFold (s t : string) : bool := String.eqb (ToLower s) (ToLower t).

(** [strings.HasPrefix(s, p)]. *)
Fixpoint HasPrefix (s p : string) : bool :=
  match p, s with
  | "", _ => true
  | String c p', String d s' => Ascii.eqb c d && HasPrefix s' p'
  | String _ _, "" => false
  end.

(** [strings.HasSuffix(s, p)]. *)
Fixpoint HasSuffix (s p : string) : bool :=
  String.eqb s p ||
  match s with
  | "" => false
  | String _ s' => HasSuffix s' p
  end.

(** [strings.TrimSuffix(s, p)]. *)
Fixpoint TrimSuffix (s p : string) : string :=
  if String.eqb s p then "" else
  match s with
  | "" => ""
  | String c s' => String c (TrimSuffix s' p)
  end.

(** [strings.CutPrefix(s, p)]: the rest of [s] when it starts with [p]. *)
Fixpoint CutPrefix (s p : string) : option string :=
  match p, s with
  | "", _ => Some s
  | String c p', String d s' => if Ascii.eqb c d then CutPrefix s' p' else None
  | String _ _, "" => None
  end.

(** Drop the leading bytes satisfying [f]. *)
Fixpoint drop_while (f : ascii -> bool) (s : string) : string :=
  match s with
  | "" => ""
  | String c s' => if f c then drop_while f s' else s
  end.

(** Drop the trailing bytes satisfying [f]. *)
Fixpoint drop_end_while (f : ascii -> bool) (s : string) : string :=
  match s with
  | "" => ""
  | String c s' =>
      match drop_end_while f s' with
      | "" => if f c then "" else String c ""
      | t => String c t
      end
  end.

Definition TrimSpace (s : string) : string := drop_end_while is_space (drop_while is_space s).

(** [strings.Trim(s, cutset)] for a one-byte cutset. *)
Definition TrimByte (c : ascii) (s : string) : string :=
  drop_end_while (Ascii.eqb c) (drop_while (Ascii.eqb c) s).

(** [strings.ContainsRune] / [strings.Contains] of a one-byte string. *)
Fixpoint ContainsByte (s : string) (c : ascii) : bool :=
  match s with
  | "" => false
  | String d s' => Ascii.eqb c d || ContainsByte s' c
  end.

(** [strings.Contains(s, t)]. *)
Fixpoint Contains (s t : string) : bool :=
  HasPrefix s t ||
  match s with
  | "" => false
  | String _ s' => Contains s' t
  end.

(** [strings.Join]. *)
Fixpoint Join (l : list string) (sep : string) : string :=
  match l with
  | [] => ""
  | [x] => x
  | x :: l' => x ++ sep ++ Join l' sep
  end.

(** ** sort.Strings *)

Definition sort_strings (l : list string) : list string := merge_sort String.le l.

(** [strings.Split] on a one-byte separator, with the piece read so far. *)
Fixpoint split_acc (c : ascii) (s acc : string) : list string :=
  match s with
  | "" => [acc]
  | String d s' => if Ascii.eqb d c then acc :: split_acc c s' "" else split_acc c s' (acc ++ String d "")
  end.

Definition Split (s : string) (c : ascii) : list string := split_acc c s "".

Fixpoint atoi_digits (s : string) (acc : Z) : option Z :=
  match s with
  | "" => Some acc
  | String c s' => if is_digit c then atoi_digits s' (10 * acc + (Z.of_N (N_of_ascii c) - 48))%Z else None
  end.

(** [strconv.Atoi] on 64-bit integers. *)
Definition Atoi (s : string) : option Z :=
  let '(neg, ds) := match s with
                    | String c s' => if Ascii.eqb c "-" then (true, s') else if Ascii.eqb c "+" then (false, s') else (false, s)
                    | "" => (false, s)
                    end in
  if String.eqb ds "" then None
  else match atoi_digits ds 0 with
  | None => None
  | Some n => let v := (if neg : bool then - n else n)%Z in if (- 2 ^ 63 <=? v)%Z && (v <? 2 ^ 63)%Z then Some v else None
  end.

(** [strings.IndexByte]; [None] is -1. *)
Fixpoint IndexByte (s : string) (c : ascii) : option nat :=
  match s with
  | "" => None
  | String d s' => if Ascii.eqb d c then Some 0%nat else S <$> IndexByte s' c
  end.

(** [strings.Fields]: the maximal runs of non-space bytes. *)
Fixpoint fields_acc (s acc : string) : list string :=
  match s with
  | "" => if String.eqb acc "" then [] else [acc]
  | String d s' =>
      if is_space d then (if String.eqb acc "" then fields_acc s' "" else acc :: fields_acc s' "")
      else fields_acc s' (acc ++ String d "")
  end.

Definition Fields (s : string) : list string := fields_acc s "".

(** ** strconv: decimal integers *)

Definition digit_byte (d : Z) : ascii := ascii_of_N (Z.to_N (48 + d)).

(** Decimal digits of a non-negative integer, most significant first; [fuel]
    bounds the number of digits. *)
Fixpoint digits_of (fuel : nat) (n : Z) (acc : string) : string :=
  match fuel with
  | O => acc
  | S fuel' =>
      let acc' := String (digit_byte (n mod 10)) acc in
      if Z.ltb n 10 then acc' else digits_of fuel' (n / 10) acc'
  end.

(** [strconv.Itoa] / the [%d] verb on a 64-bit integer: 20 digits are enough
    for every magnitude below [2^64]. *)
Definition Itoa (n : Z) : string :=
  if Z.ltb n 0 then String "-" (digits_of 20 (- n) "") else digits_of 20 n "".

(** ** Lemmas *)

Lemma sapp_nil_l (t : string) : "" ++ t = t.
Proof. reflexivity. Qed.

Lemma sapp_cons c (s t : string) : String c s ++ t = String c (s ++ t).
Proof. reflexivity. Qed.

(** [simpl] does not unfold [String.append]; these equations do. *)
Ltac ssimpl := simpl in *; rewrite ?sapp_cons, ?sapp_nil_l in *.

Lemma ToLower_cons c s : ToLower (String c s) = String (lower_byte c) (ToLower s).
Proof. reflexivity. Qed.

Lemma ToLower_app s t : ToLower (s ++ t) = ToLower s ++ ToLower t.
Proof.
  induction s as [|c s IH]; [done|]. by rewrite sapp_cons, !ToLower_cons, IH, sapp_cons.
Qed.

Lemma sapp_nil_r s : s ++ "" = s.
Proof. induction s as [|c s IH]; [done|]. by rewrite sapp_cons, IH. Qed.

Lemma sapp_assoc (s t u : string) : (s ++ t) ++ u = s ++ (t ++ u).
Proof. induction s as [|c s IH]; [done|]. by rewrite !sapp_cons, IH. Qed.

Lemma slength_app (s t : string) :
  String.length (s ++ t) = (String.length s + String.length t)%nat.
Proof. induction s as [|c s IH]; [done|]. rewrite sapp_cons. simpl. lia. Qed.

Lemma sapp_inj_l (s t u : string) : s ++ t = s ++ u -> t = u.
Proof. induction s as [|c s IH]; [done|]. rewrite !sapp_cons. intros [= H]. auto. Qed.

Lemma sapp_inj_r (s t u : string) : s ++ u = t ++ u -> s = t.
Proof.
  revert t. induction s as [|c s IH]; intros [|d t]; ssimpl; try done.
  - intros Heq%(f_equal String.length). simpl in Heq. rewrite slength_app in Heq. lia.
  - intros Heq%(f_equal String.length). simpl in Heq. rewrite slength_app in Heq. lia.
  - intros [= -> H]. f_equal. auto.
Qed.

Lemma HasSuffix_spec s p : HasSuffix s p = true <-> exists q, s = q ++ p.
Proof.
  revert p. induction s as [|c s IH]; intros p; cbn [HasSuffix];
    rewrite orb_true_iff, String.eqb_eq.
  - split.
    + intros [<-|?]; [|done]. by exists "".
    + intros [[|d q] Hq]; [by left|done].
  - rewrite IH. split.
    + intros [<-|[q ->]]; [by exists ""|by exists (String c q)].
    + intros [[|d q] Hq]; [by left|]. right. exists q. by injection Hq.
Qed.

Lemma HasPrefix_spec s p : HasPrefix s p = true <-> exists q, s = p ++ q.
Proof.
  revert s. induction p as [|c p IH]; intros s; simpl.
  - destruct s; split; eauto.
  - destruct s as [|d s]; simpl.
    + split; [done|]. by intros [q Hq].
    + rewrite andb_true_iff, Ascii.eqb_eq, IH. split.
      * intros [-> [q ->]]. by exists q.
      * intros [q Hq]. injection Hq as -> ->. eauto.
Qed.

Lemma CutPrefix_spec s p q : CutPrefix s p = Some q <-> s = p ++ q.
Proof.
  revert s. induction p as [|c p IH]; intros s; cbn [CutPrefix].
  - rewrite sapp_nil_l. destruct s; naive_solver.
  - destruct s as [|d s]; [done|]. rewrite sapp_cons. cbn [CutPrefix].
    destruct (Ascii.eqb_spec c d) as [->|Hne].
    + rewrite IH. naive_solver.
    + split; [done|]. intros [= ??]; congruence.
Qed.

Lemma CutPrefix_None s p : CutPrefix s p = None <-> HasPrefix s p = false.
Proof.
  revert s. induction p as [|c p IH]; intros s; [by destruct s|].
  destruct s as [|d s]; [done|]. cbn [CutPrefix HasPrefix].
  destruct (Ascii.eqb c d); simpl; [apply IH|done].
Qed.

Lemma TrimSuffix_suffix s p : TrimSuffix (s ++ p) p = s.
Proof.
  induction s as [|c s IH].
  - rewrite sapp_nil_l. destruct p; simpl; [done|]. by rewrite Ascii.eqb_refl, String.eqb_refl.
  - rewrite sapp_cons. cbn [TrimSuffix].
    destruct (String.eqb_spec (String c (s ++ p)) p) as [Heq|]; [|by rewrite IH].
    apply (f_equal String.length) in Heq. simpl in Heq. rewrite slength_app in Heq. lia.
Qed.

Lemma TrimSuffix_other s p : HasSuffix s p = false -> TrimSuffix s p = s.
Proof.
  induction s as [|c s IH]; cbn [HasSuffix TrimSuffix];
    rewrite orb_false_iff; intros [-> H]; [done|]. by rewrite IH.
Qed.

Lemma sort_strings_Permutation l : sort_strings l ≡ₚ l.
Proof. apply merge_sort_Permutation. Qed.

Lemma sort_strings_sorted l : Sorted String.le (sort_strings l).
Proof. apply (Sorted_merge_sort _). Qed.

Lemma elem_of_sort_strings l x : x ∈ sort_strings l <-> x ∈ l.
Proof. by rewrite sort_strings_Permutation. Qed.

Lemma NoDup_sort_strings l : NoDup l -> NoDup (sort_strings l).
Proof. by rewrite sort_strings_Permutation. Qed.

(** Sorting is canonical: two permutations of one list sort alike. *)
Lemma sort_strings_perm_eq l1 l2 : l1 ≡ₚ l2 -> sort_strings l1 = sort_strings l2.
Proof.
  intros Hp. apply (Sorted_unique String.le); try apply sort_strings_sorted.
  by rewrite !sort_strings_Permutation.
Qed.

#[export] Hint Resolve sort_strings_sorted NoDup_sort_strings : llmbox.

Lemma EqualFold_refl s : EqualFold s s = true.
Proof. apply String.eqb_refl. Qed.

Lemma EqualFold_spec s t : EqualFold s t = true <-> ToLower s = ToLower t.
Proof. apply String.eqb_eq. Qed.

Lemma EqualFold_sym s t : EqualFold s t = EqualFold t s.
Proof. apply String.eqb_sym. Qed.

Lemma EqualFold_trans s t u :
  EqualFold s t = true -> EqualFold t u = true -> EqualFold s u = true.
Proof. rewrite !EqualFold_spec. congruence. Qed.

(** A string that is already lower case is a fixed point of [ToLower]. *)
Lemma lower_byte_lower c : is_upper c = false -> lower_byte c = c.
Proof. unfold lower_byte. by intros ->. Qed.

Lemma is_upper_lower_byte c : is_upper (lower_byte c) = false.
Proof. by destruct c as [[] [] [] [] [] [] [] []]. Qed.

Lemma lower_byte_idem c : lower_byte (lower_byte c) = lower_byte c.
Proof. apply lower_byte_lower, is_upper_lower_byte. Qed.

Lemma ToLower_idem s : ToLower (ToLower s) = ToLower s.
Proof. induction s as [|c s IH]; [done|]. by rewrite !ToLower_cons, lower_byte_idem, IH. Qed.

Lemma split_acc_app c s t acc :
  split_acc c (s ++ String c t) acc = (split_acc c s acc ++ split_acc c t "")%list.
Proof.
  revert acc. induction s as [|d s IH]; intros acc; ssimpl.
  - by rewrite Ascii.eqb_refl.
  - destruct (Ascii.eqb d c); by rewrite IH.
Qed.

Lemma Split_app c s t : Split (s ++ String c t) c = (Split s c ++ Split t c)%list.
Proof. apply split_acc_app. Qed.

Lemma split_acc_plain c s acc : ContainsByte s c = false -> split_acc c s acc = [(acc ++ s)%string].
Proof.
  revert acc. induction s as [|d s IH]; intros acc; ssimpl; [by rewrite sapp_nil_r|].
  rewrite orb_false_iff. intros [Hd Hs]. rewrite Ascii.eqb_sym, Hd, IH by done. by rewrite sapp_assoc.
Qed.

Lemma Split_plain c s : ContainsByte s c = false -> Split s c = [s].
Proof. apply split_acc_plain. Qed.

Lemma IndexByte_app c s t : ContainsByte s c = false ->
  IndexByte (s ++ String c t) c = Some (String.length s).
Proof.
  induction s as [|d s IH]; ssimpl; [by rewrite Ascii.eqb_refl|].
  rewrite orb_false_iff. intros [Hd Hs]. rewrite Ascii.eqb_sym, Hd, IH by done. done.
Qed.

Lemma ContainsByte_app s t c : ContainsByte (s ++ t) c = ContainsByte s c || ContainsByte t c.
Proof. induction s as [|d s IH]; ssimpl; [done|]. by rewrite IH, orb_assoc. Qed.

Lemma substring_mid s t u : String.substring (String.length s) (String.length t) (s ++ (t ++ u)) = t.
Proof.
  induction s as [|c s IH]; ssimpl; [|done].
  induction t as [|c t IH]; ssimpl; [by destruct u|]. by rewrite IH.
Qed.

(** Joining and splitting with a separator that occurs in no piece. *)
Lemma Split_Join c l : l <> [] -> Forall (fun s => ContainsByte s c = false) l ->
  Split (Join l (String c "")) c = l.
Proof.
  induction l as [|s [|s' l] IH]; [done| |]; intros _ Hall; inversion Hall as [|? ? Hs Hr]; subst.
  - simpl. by apply Split_plain.
  - change (Join (s :: s' :: l) (String c "")) with (s ++ String c "" ++ Join (s' :: l) (String c "")).
    rewrite sapp_cons, sapp_nil_l, Split_app, Split_plain, IH by done. done.
Qed.

Lemma ContainsByte_Join l sep c :
  Forall (fun s => ContainsByte s c = false) l -> ContainsByte sep c = false -> ContainsByte (Join l sep) c = false.
Proof.
  intros Hall Hsep. induction Hall as [|s l Hs Hl IH]; [done|]. destruct l as [|s' l]; [done|].
  change (Join (s :: s' :: l) sep) with (s ++ sep ++ Join (s' :: l) sep).
  by rewrite !ContainsByte_app, Hs, Hsep, IH.
Qed.
