(* ===== verification/Regex.v ===== *)
(** * Regular expressions

    The fragment of Go's [regexp] syntax the program's patterns use, anchored at
    both ends ([^...$], no multi-line flag), with an executable matcher by
    Brzozowski derivatives and its correctness against the language semantics.
    Used for the box-id pattern (Sandbox.v) and the domain pattern
    (Allowlist.v). *)

From S2P Require Import Prelude GoStrings.

Inductive re : Type :=
| Void
| Eps
| Chr (f : ascii -> bool)
| Cat (r1 r2 : re)
| Alt (r1 r2 : re)
| Star (r : re).

(** [r?], [r+], [r{0,n}] and [r{2,}]. *)
Definition Opt (r : re) : re := Alt Eps r.
Definition Plus (r : re) : re := Cat r (Star r).
Fixpoint Upto (n : nat) (r : re) : re :=
  match n with
  | O => Eps
  | S n' => Alt Eps (Cat r (Upto n' r))
  end.
Definition AtLeast2 (r : re) : re := Cat r (Cat r (Star r)).

Inductive matches : re -> string -> Prop :=
| m_eps : matches Eps ""
| m_chr f c : f c = true -> matches (Chr f) (String c "")
| m_cat r1 r2 s1 s2 : matches r1 s1 -> matches r2 s2 -> matches (Cat r1 r2) (s1 +:+ s2)
| m_altl r1 r2 s : matches r1 s -> matches (Alt r1 r2) s
| m_altr r1 r2 s : matches r2 s -> matches (Alt r1 r2) s
| m_star0 r : matches (Star r) ""
| m_star r s1 s2 : matches r s1 -> matches (Star r) s2 -> matches (Star r) (s1 +:+ s2).

#[export] Hint Constructors matches : llmbox.

(** ** The matcher *)

Fixpoint nullable (r : re) : bool :=
  match r with
  | Void | Chr _ => false
  | Eps | Star _ => true
  | Cat r1 r2 => nullable r1 && nullable r2
  | Alt r1 r2 => nullable r1 || nullable r2
  end.

(** Smart constructors keep the derivatives small. *)
Definition mk_cat (r1 r2 : re) : re :=
  match r1 with
  | Void => Void
  | Eps => r2
  | _ => Cat r1 r2
  end.

Definition mk_alt (r1 r2 : re) : re :=
  match r1, r2 with
  | Void, _ => r2
  | _, Void => r1
  | _, _ => Alt r1 r2
  end.

Fixpoint deriv (c : ascii) (r : re) : re :=
  match r with
  | Void | Eps => Void
  | Chr f => if f c then Eps else Void
  | Cat r1 r2 =>
      if nullable r1 then mk_alt (mk_cat (deriv c r1) r2) (deriv c r2)
      else mk_cat (deriv c r1) r2
  | Alt r1 r2 => mk_alt (deriv c r1) (deriv c r2)
  | Star r1 => mk_cat (deriv c r1) (Star r1)
  end.

Fixpoint re_match (r : re) (s : string) : bool :=
  match s with
  | "" => nullable r
  | String c s' => re_match (deriv c r) s'
  end.

(** ** Correctness of the matcher *)

Lemma matches_void s : matches Void s <-> False.
Proof. split; [|done]. by inversion 1. Qed.

Lemma matches_eps s : matches Eps s <-> s = "".
Proof. split; [by inversion 1|]. intros ->. constructor. Qed.

Lemma matches_chr f s : matches (Chr f) s <-> exists c, s = String c "" /\ f c = true.
Proof. split; [inversion 1; eauto|]. intros (c & -> & Hc). by constructor. Qed.

Lemma matches_cat r1 r2 s :
  matches (Cat r1 r2) s <-> exists s1 s2, s = s1 +:+ s2 /\ matches r1 s1 /\ matches r2 s2.
Proof. split; [inversion 1; subst; eauto|]. intros (s1 & s2 & -> & H1 & H2). by constructor. Qed.

Lemma matches_alt r1 r2 s : matches (Alt r1 r2) s <-> matches r1 s \/ matches r2 s.
Proof. split; [inversion 1; eauto|]. intros [H|H]; eauto with llmbox. Qed.

Lemma matches_mk_cat r1 r2 s : matches (mk_cat r1 r2) s <-> matches (Cat r1 r2) s.
Proof.
  rewrite matches_cat. destruct r1; simpl; try by rewrite matches_cat.
  - rewrite matches_void. split; [done|]. intros (s1 & s2 & _ & H & _). by inversion H.
  - split.
    + intros H. exists "", s. eauto with llmbox.
    + intros (s1 & s2 & -> & H1%matches_eps & H2). by subst.
Qed.

Lemma matches_mk_alt r1 r2 s : matches (mk_alt r1 r2) s <-> matches r1 s \/ matches r2 s.
Proof.
  destruct r1, r2; simpl; rewrite ?matches_alt, ?matches_void; tauto.
Qed.

Lemma nullable_spec r : nullable r = true <-> matches r "".
Proof.
  induction r as [| |f|r1 IH1 r2 IH2|r1 IH1 r2 IH2|r IH]; simpl.
  - by rewrite matches_void.
  - split; [constructor|done].
  - rewrite matches_chr. naive_solver.
  - rewrite andb_true_iff, IH1, IH2, matches_cat. split.
    + intros [H1 H2]. exists "", "". auto.
    + intros (s1 & s2 & Heq & H1 & H2). destruct s1, s2; done.
  - by rewrite orb_true_iff, IH1, IH2, matches_alt.
  - split; [constructor|done].
Qed.

(** A non-empty word of a star splits into a non-empty first iteration and the
    remaining ones. *)
Lemma matches_star_cons r c s :
  matches (Star r) (String c s) <->
  exists s1 s2, s = s1 +:+ s2 /\ matches r (String c s1) /\ matches (Star r) s2.
Proof.
  split.
  - intros H. remember (Star r) as sr eqn:Hr. remember (String c s) as w eqn:Hw.
    revert c s Hw. induction H as [| | | | | |r' s1 s2 H1 _ H2 IH]; intros c' s' Hw;
      try done; simplify_eq.
    destruct s1 as [|d s1]; [by apply IH|].
    rewrite sapp_cons in Hw. simplify_eq. eauto.
  - intros (s1 & s2 & -> & H1 & H2). rewrite <- sapp_cons. by constructor.
Qed.

Lemma deriv_spec c r s : matches (deriv c r) s <-> matches r (String c s).
Proof.
  revert s. induction r as [| |f|r1 IH1 r2 IH2|r1 IH1 r2 IH2|r IH]; intros s; simpl.
  - by rewrite !matches_void.
  - rewrite matches_void, matches_eps. done.
  - rewrite matches_chr. destruct (f c) eqn:Hf.
    + rewrite matches_eps. naive_solver.
    + rewrite matches_void. split; [done|]. intros (d & ? & ?); simplify_eq. congruence.
  - assert (Hcons : (exists s1 s2, s = s1 +:+ s2 /\ matches (deriv c r1) s1 /\ matches r2 s2)
      <-> exists s1 s2, String c s = String c s1 +:+ s2 /\ matches r1 (String c s1) /\ matches r2 s2).
    { setoid_rewrite IH1. setoid_rewrite sapp_cons. naive_solver. }
    rewrite (matches_cat r1 r2). destruct (nullable r1) eqn:Hn.
    + rewrite matches_mk_alt, matches_mk_cat, matches_cat, Hcons, IH2. split.
      * intros [H|H]; [naive_solver|]. exists "", (String c s).
        apply nullable_spec in Hn. auto.
      * intros ([|d s1] & s2 & Heq & H1 & H2).
        -- rewrite sapp_nil_l in Heq. subst. by right.
        -- left. rewrite sapp_cons in Heq. simplify_eq. eauto.
    + rewrite matches_mk_cat, matches_cat, Hcons. split; [naive_solver|].
      intros ([|d s1] & s2 & Heq & H1 & H2).
      * apply nullable_spec in H1. congruence.
      * rewrite sapp_cons in Heq. simplify_eq. eauto.
  - by rewrite matches_mk_alt, IH1, IH2, matches_alt.
  - rewrite matches_mk_cat, matches_cat, matches_star_cons. by setoid_rewrite IH.
Qed.

Lemma re_match_spec r s : re_match r s = true <-> matches r s.
Proof.
  revert r. induction s as [|c s IH]; intros r; simpl; [apply nullable_spec|].
  by rewrite IH, deriv_spec.
Qed.

(** ** Derived forms over character classes *)

Lemma matches_star_chr f s : matches (Star (Chr f)) s <-> string_forallb f s = true.
Proof.
  induction s as [|c s IH]; simpl; [split; [done|constructor]|].
  rewrite matches_star_cons, andb_true_iff, <- IH. setoid_rewrite matches_chr. split.
  - intros (s1 & s2 & -> & (d & Heq & Hd) & H2). by simplify_eq.
  - intros [Hc H]. exists "", s. naive_solver.
Qed.

Lemma matches_upto_chr n f s :
  matches (Upto n (Chr f)) s <-> (String.length s <= n)%nat /\ string_forallb f s = true.
Proof.
  revert s. induction n as [|n IH]; intros s; simpl.
  - rewrite matches_eps. destruct s; simpl; [by split|]. split; [done|lia].
  - rewrite matches_alt, matches_eps, matches_cat. setoid_rewrite matches_chr.
    setoid_rewrite IH. destruct s as [|c s]; simpl.
    + split; [split; [lia|done]|by left].
    + rewrite andb_true_iff. split.
      * intros [?|(s1 & s2 & Heq & (d & -> & Hd) & Hlen & Hs)]; [done|].
        rewrite sapp_cons, sapp_nil_l in Heq. simplify_eq. split; [lia|done].
      * intros (Hlen & Hc & Hs). right. exists (String c ""), s.
        split; [done|]. split; [eauto|]. split; [lia|done].
Qed.
