(* ===== verification/Sandbox.v ===== *)
(** * Backend-neutral box types (internal/shared/sandbox)

    The data that crosses the hub/spoke boundary and the box-id validation
    rule.  Go [int]/[int64] fields are [Z]; a [\[\]byte] is a [string] of bytes. *)

From S2P Require Import Prelude GoStrings Regex.

Definition StateUnreachable : string := "unreachable".
Definition StateTerminated : string := "terminated".
Definition StatePaused : string := "paused".
Definition PhaseBroken : string := "broken".

Record Box := MkBox {
  box_InstanceID : string;
  box_Name : string;
  box_BoxID : string;
  box_Description : string;
  box_Spoke : string;
  box_Image : string;
  box_State : string;
  box_Status : string;
  box_Phase : string;
  box_LastError : string;
  box_Created : Z;
  box_LastSeen : Z;
}.

Record PublishPort := MkPublishPort {
  pp_Port : Z;
  pp_Description : string;
}.

Record CreateResult := MkCreateResult {
  cr_InstanceID : string;
  cr_InitScriptFailed : bool;
  cr_InitScriptOutput : string;
  cr_PublishPorts : list PublishPort;
}.

Record ExecResult := MkExecResult {
  er_Stdout : string;
  er_Stderr : string;
  er_ExitCode : Z;
}.

Record InjectFile := MkInjectFile {
  if_Path : string;
  if_Content : string;
  if_Mode : Z;
  if_UID : Z;
  if_GID : Z;
}.

Record CreateOptions := MkCreateOptions {
  co_BoxID : string;
  co_Description : string;
  co_SpokeName : string;
  co_Files : list InjectFile;
  co_DiskBytes : Z;
}.

Record Limits := MkLimits {
  lim_MemoryBytes : Z;
  lim_NanoCPUs : Z;
  lim_PidsLimit : Z;
  lim_MaxBoxes : Z;
  lim_DiskBytes : Z;
  lim_MaxDiskBytes : Z;
}.

Record DomainRule := MkDomainRule {
  dr_Pattern : string;
  dr_TTLSeconds : Z;
}.

Record NetworkPolicy := MkNetworkPolicy {
  np_Enabled : bool;
  np_Rules : list DomainRule;
}.

#[export] Instance PublishPort_eq_dec : EqDecision PublishPort.
Proof. solve_decision. Defined.
#[export] Instance CreateResult_eq_dec : EqDecision CreateResult.
Proof. solve_decision. Defined.
#[export] Instance ExecResult_eq_dec : EqDecision ExecResult.
Proof. solve_decision. Defined.
#[export] Instance InjectFile_eq_dec : EqDecision InjectFile.
Proof. solve_decision. Defined.
#[export] Instance CreateOptions_eq_dec : EqDecision CreateOptions.
Proof. solve_decision. Defined.
#[export] Instance DomainRule_eq_dec : EqDecision DomainRule.
Proof. solve_decision. Defined.
#[export] Instance NetworkPolicy_eq_dec : EqDecision NetworkPolicy.
Proof. solve_decision. Defined.
#[export] Instance Box_eq_dec : EqDecision Box.
Proof. solve_decision. Defined.

(** ** Box ids *)

(** [\[a-z0-9\]] and [\[a-z0-9-\]]. *)
Definition alnum (c : ascii) : bool := is_lower c || is_digit c.
Definition alnum_hyphen (c : ascii) : bool := alnum c || Ascii.eqb c "-".

(** [^\[a-z0-9\](\[a-z0-9-\]{0,61}\[a-z0-9\])?$] *)
Definition boxIDRe : re :=
  Cat (Chr alnum) (Opt (Cat (Upto 61 (Chr alnum_hyphen)) (Chr alnum))).

Definition ValidBoxID (id : string) : bool := re_match boxIDRe id.

(** The declarative reading of the rule: a single DNS hostname label. *)
Definition hostname_label (id : string) : Prop :=
  (1 <= String.length id <= 63)%nat /\
  string_forallb alnum_hyphen id = true /\
  HasPrefix id "-" = false /\ HasSuffix id "-" = false.

Lemma string_forallb_app f s t :
  string_forallb f (s +:+ t) = string_forallb f s && string_forallb f t.
Proof.
  induction s as [|c s IH]; [done|]. rewrite sapp_cons. simpl. by rewrite IH, andb_assoc.
Qed.

Lemma string_snoc_cases s : s = "" \/ exists t c, s = t +:+ String c "".
Proof.
  induction s as [|c s IH]; [by left|right]. destruct IH as [->|(t & d & ->)].
  - by exists "", c.
  - by exists (String c t), d.
Qed.

Lemma HasSuffix_snoc t c d : HasSuffix (t +:+ String c "") (String d "") = Ascii.eqb c d.
Proof.
  apply Bool.eq_true_iff_eq. rewrite HasSuffix_spec, Ascii.eqb_eq. split.
  - intros [q Hq]. assert (Hl : String.length t = String.length q).
    { apply (f_equal String.length) in Hq. rewrite !slength_app in Hq. simpl in Hq. lia. }
    revert q Hq Hl. induction t as [|a t IH]; intros [|b q] Hq Hl; try done.
    + by injection Hq.
    + rewrite !sapp_cons in Hq. simplify_eq. eauto.
  - intros ->. by exists t.
Qed.

Lemma HasPrefix_one c s d : HasPrefix (String c s) (String d "") = Ascii.eqb c d.
Proof.
  cbn [HasPrefix]. replace (HasPrefix s "") with true by (by destruct s).
  by rewrite andb_true_r, Ascii.eqb_sym.
Qed.

Lemma string_forallb_cons f c s : string_forallb f (String c s) = f c && string_forallb f s.
Proof. reflexivity. Qed.

Lemma alnum_not_hyphen c : alnum_hyphen c = true -> Ascii.eqb c "-" = negb (alnum c).
Proof. by destruct c as [[] [] [] [] [] [] [] []]. Qed.

Lemma alnum_hyphen_alnum c : alnum c = true -> alnum_hyphen c = true.
Proof. unfold alnum_hyphen. by intros ->. Qed.

(** The regular expression and the declarative rule agree. *)
Lemma boxIDRe_hostname_label id : ValidBoxID id = true <-> hostname_label id.
Proof.
  unfold ValidBoxID, boxIDRe, Opt. rewrite re_match_spec, matches_cat.
  setoid_rewrite matches_chr. setoid_rewrite matches_alt. setoid_rewrite matches_eps.
  setoid_rewrite matches_cat. setoid_rewrite matches_upto_chr. setoid_rewrite matches_chr.
  unfold hostname_label. split.
  - intros (s1 & s2 & -> & (c & -> & Hc) & Hrest). rewrite sapp_cons, sapp_nil_l, HasPrefix_one.
    pose proof (alnum_hyphen_alnum c Hc) as Hch.
    rewrite string_forallb_cons, Hch, (alnum_not_hyphen c Hch), Hc.
    destruct Hrest as [->|(m & l & -> & (Hlen & Hm) & d & -> & Hd)].
    + change (String c "") with ("" +:+ String c "").
      rewrite HasSuffix_snoc, (alnum_not_hyphen c Hch), Hc. simpl. repeat split; lia.
    + rewrite <- sapp_cons, HasSuffix_snoc, string_forallb_app, string_forallb_cons, Hm.
      pose proof (alnum_hyphen_alnum d Hd) as Hdh.
      rewrite Hdh, (alnum_not_hyphen d Hdh), Hd, slength_app. simpl. repeat split; lia.
  - intros (Hlen & Hall & Hpre & Hsuf). destruct id as [|c s]; [simpl in Hlen; lia|].
    rewrite string_forallb_cons in Hall. apply andb_true_iff in Hall as [Hc Hs].
    rewrite HasPrefix_one, alnum_not_hyphen in Hpre by done. bools.
    exists (String c ""), s. split; [done|]. split; [eauto|].
    destruct (string_snoc_cases s) as [->|(t & d & ->)]; [by left|right].
    rewrite string_forallb_app, string_forallb_cons in Hs. bools.
    rewrite <- sapp_cons, HasSuffix_snoc, alnum_not_hyphen in Hsuf by done. bools.
    cbn [String.length] in Hlen. rewrite slength_app in Hlen. cbn [String.length] in Hlen.
    exists t, (String d ""). split; [done|]. split; [split; [lia|done]|]. eauto.
Qed.
