(* ===== verification/Dnsd.v ===== *)
(** * The enforcing DNS resolver (internal/spoke/dnsd)

    The per-box allowlist ([StaticPolicy], [matchDomain]), the source-address
    map ([MapBoxes]) and the query handler ([Server.Handle]) with its injected
    collaborators.  Mutex-protected sections are atomic updates of an explicit
    state. *)

From S2P Require Import Prelude GoStrings.

Local Open Scope Z_scope.

(** ** IP addresses (net/netip)

    [Addr] is the zero address, an IPv4 address or an IPv6 address, as an
    unsigned integer of 32 or 128 bits.  Zones do not occur in DNS answers. *)
Inductive Addr : Type :=
| AddrZero
| Addr4 (a : Z)
| Addr6 (a : Z).

#[export] Instance Addr_eq_dec : EqDecision Addr.
Proof. solve_decision. Defined.

#[export] Instance Addr_countable : Countable Addr.
Proof.
  refine (inj_countable'
    (fun a => match a with AddrZero => inl () | Addr4 z => inr (inl z) | Addr6 z => inr (inr z) end)
    (fun x => match x with inl _ => AddrZero | inr (inl z) => Addr4 z | inr (inr z) => Addr6 z end) _).
  by intros [].
Defined.

(** Big-endian value of a byte slice. *)
Definition bytes_val (b : list Z) : Z := fold_left (fun acc x => acc * 256 + x) b 0.

(** [netip.AddrFromSlice]: 4 or 16 bytes, anything else is refused. *)
Definition AddrFromSlice (ip : list Z) : option Addr :=
  match length ip with
  | 4%nat => Some (Addr4 (bytes_val ip))
  | 16%nat => Some (Addr6 (bytes_val ip))
  | _ => None
  end.

(** [Addr.Unmap]: an IPv4-mapped IPv6 address (::ffff:a.b.c.d) becomes IPv4. *)
Definition Unmap (a : Addr) : Addr :=
  match a with
  | Addr6 z => if Z.eqb (Z.shiftr z 32) 0xffff then Addr4 (Z.land z 0xffffffff) else a
  | _ => a
  end.

Definition Is6 (a : Addr) : bool :=
  match a with
  | Addr6 _ => true
  | _ => false
  end.

(** ** Allowlist policy *)

Record Rule := MkRule { rule_Pattern : string; rule_TTL : Z }.

#[export] Instance Rule_eq_dec : EqDecision Rule.
Proof. solve_decision. Defined.

(** The rules per box; a box without an entry is fully denied. *)
Record StaticPolicy := MkStaticPolicy { sp_rules : gmap string (list Rule) }.

Definition NewStaticPolicy : StaticPolicy := MkStaticPolicy ∅.

Definition StaticPolicy_Set (boxID : string) (rules : list Rule) (p : StaticPolicy) : StaticPolicy :=
  match rules with
  | [] => MkStaticPolicy (delete boxID (sp_rules p))
  | _ => MkStaticPolicy (<[boxID := rules]> (sp_rules p))
  end.

Definition StaticPolicy_Remove (boxID : string) (p : StaticPolicy) : StaticPolicy :=
  MkStaticPolicy (delete boxID (sp_rules p)).

Definition normalizeName (qname : string) : string := TrimSuffix (ToLower qname) ".".

Definition matchDomain (pattern name : string) : bool :=
  let pattern := normalizeName pattern in
  match CutPrefix pattern "*." with
  | Some suffix => HasSuffix name ("." +:+ suffix)
  | None => String.eqb name pattern
  end.

Definition StaticPolicy_Allowed (p : StaticPolicy) (boxID qname : string) : option Z :=
  let name := normalizeName qname in
  match first_match (fun r => matchDomain (rule_Pattern r) name) (default [] (sp_rules p !! boxID)) with
  | Some r => Some (rule_TTL r)
  | None => None
  end.

(** ** Source address to box *)

Record MapBoxes := MkMapBoxes { mb_m : gmap Addr string }.

Definition NewMapBoxes : MapBoxes := MkMapBoxes ∅.
Definition MapBoxes_Set (ip : Addr) (boxID : string) (b : MapBoxes) : MapBoxes :=
  MkMapBoxes (<[ip := boxID]> (mb_m b)).
Definition MapBoxes_Remove (ip : Addr) (b : MapBoxes) : MapBoxes :=
  MkMapBoxes (delete ip (mb_m b)).
Definition MapBoxes_Box (b : MapBoxes) (clientIP : Addr) : option string := mb_m b !! clientIP.

(** ** DNS messages (the fields of miekg/dns messages the handler reads) *)

Inductive RR : Type :=
| RR_A (ip : list Z)
| RR_AAAA (ip : list Z)
| RR_Other.

#[export] Instance RR_eq_dec : EqDecision RR.
Proof. solve_decision. Defined.

Record Question := MkQuestion { q_Name : string; q_Qtype : Z }.

Record Msg := MkMsg {
  msg_Id : Z;
  msg_Rcode : Z;
  msg_Question : list Question;
  msg_Answer : list RR;
}.

Definition RcodeFormatError : Z := 1.
Definition RcodeServerFailure : Z := 2.
Definition RcodeNameError : Z := 3.
Definition RcodeRefused : Z := 5.

(** [dns.Msg.SetRcode] belongs to the DNS library; what the handler relies on
    is that it builds an empty reply with the query's id and the given code. *)
Class DNSLib := {
  SetRcode : Msg -> Z -> Msg;
  SetRcode_rcode r c : msg_Rcode (SetRcode r c) = c;
  SetRcode_answer r c : msg_Answer (SetRcode r c) = [];
  SetRcode_id r c : msg_Id (SetRcode r c) = msg_Id r;
}.

(** A concrete instance, used to run the model. *)
Definition plain_SetRcode (r : Msg) (c : Z) : Msg :=
  MkMsg (msg_Id r) c (take 1 (msg_Question r)) [].
Definition plain_DNSLib : DNSLib.
Proof. by refine {| SetRcode := plain_SetRcode |}. Defined.

(** ** Audit events *)

Inductive Verdict := VerdictAllowed | VerdictBlocked | VerdictError | VerdictRefused.

#[export] Instance Verdict_eq_dec : EqDecision Verdict.
Proof. solve_decision. Defined.

Record Event := MkEvent {
  ev_BoxID : string;
  ev_QName : string;
  ev_QType : Z;
  ev_Verdict : Verdict;
  ev_IPs : list Addr;
  ev_Time : Z;
}.

#[export] Instance Event_eq_dec : EqDecision Event.
Proof. solve_decision. Defined.

(** ** The server *)

(** The loop of [answerIPs]; [seen] is its map, [out] the result so far. *)
Fixpoint answerIPs_loop (rrs : list RR) (out : list Addr) : list Addr :=
  let add ip :=
    match AddrFromSlice ip with
    | None => out
    | Some a => let a := Unmap a in if decide (a ∈ out) then out else out ++ [a]
    end in
  match rrs with
  | [] => out
  | RR_A ip :: rrs' => answerIPs_loop rrs' (add ip)
  | RR_AAAA ip :: rrs' => answerIPs_loop rrs' (add ip)
  | RR_Other :: rrs' => answerIPs_loop rrs' out
  end.

Definition answerIPs (m : Msg) : list Addr := answerIPs_loop (msg_Answer m) [].

(** The injected collaborators, over a shared state [S]: the box map, the
    policy, the upstream resolver ([None] is an error or a nil reply), the
    firewall pinner ([None] is a nil pinner; the boolean is success) and the
    clock. *)
Record Server (S : Type) := MkServer {
  srv_boxes : S -> Addr -> option string;
  srv_policy : S -> string -> string -> option Z;
  srv_resolver : S -> Msg -> option Msg;
  srv_pinner : option (S -> string -> Addr -> Z -> S * bool);
  srv_now : S -> Z;
}.
Arguments srv_boxes {S}.
Arguments srv_policy {S}.
Arguments srv_resolver {S}.
Arguments srv_pinner {S}.
Arguments srv_now {S}.

Section Server.
Context `{DNSLib} {S : Type}.

Definition reply (r : Msg) (rcode : Z) : Msg := SetRcode r rcode.

(** [record] stamps the event and hands it to the audit sink; the sink is the
    log of events, newest last. *)
Definition record (srv : Server S) (s : S) (log : list Event) (ev : Z -> Event) : list Event :=
  log ++ [ev (srv_now srv s)].

(** The pin loop: it stops at the first address that cannot be pinned. *)
Fixpoint pin_all (pin : S -> string -> Addr -> Z -> S * bool) (boxID : string) (ttl : Z)
    (ips : list Addr) (s : S) : S * bool :=
  match ips with
  | [] => (s, true)
  | ip :: ips' =>
      match pin s boxID ip ttl with
      | (s', true) => pin_all pin boxID ttl ips' s'
      | (s', false) => (s', false)
      end
  end.

Definition pin_answers (srv : Server S) (boxID : string) (ttl : Z) (ips : list Addr) (s : S) : S * bool :=
  match srv_pinner srv with
  | Some pin => pin_all pin boxID ttl ips s
  | None => (s, true)
  end.

Definition set_id (m : Msg) (id : Z) : Msg :=
  MkMsg id (msg_Rcode m) (msg_Question m) (msg_Answer m).

Definition Handle (srv : Server S) (s : S) (log : list Event) (clientIP : Addr) (r : Msg)
    : S * list Event * Msg :=
  match msg_Question r with
  | [] => (s, log, reply r RcodeFormatError)
  | q :: _ =>
      let qname := q_Name q in
      match srv_boxes srv s clientIP with
      | None =>
          (s, record srv s log (MkEvent "" qname (q_Qtype q) VerdictRefused []), reply r RcodeRefused)
      | Some boxID =>
          match srv_policy srv s boxID qname with
          | None =>
              (s, record srv s log (MkEvent boxID qname (q_Qtype q) VerdictBlocked []),
               reply r RcodeNameError)
          | Some ttl =>
              match srv_resolver srv s r with
              | None =>
                  (s, record srv s log (MkEvent boxID qname (q_Qtype q) VerdictError []),
                   reply r RcodeServerFailure)
              | Some resp =>
                  let ips := answerIPs resp in
                  match pin_answers srv boxID ttl ips s with
                  | (s', false) =>
                      (s', record srv s' log (MkEvent boxID qname (q_Qtype q) VerdictError []),
                       reply r RcodeServerFailure)
                  | (s', true) =>
                      (s', record srv s' log (MkEvent boxID qname (q_Qtype q) VerdictAllowed ips),
                       set_id resp (msg_Id r))
                  end
              end
          end
      end
  end.
End Server.

(** ** Lemmas: domain matching *)

Lemma TrimSuffix_app s t p :
  (String.length p <= String.length t)%nat -> TrimSuffix (s +:+ t) p = s +:+ TrimSuffix t p.
Proof.
  intros Hlen. induction s as [|c s IH]; [done|]. rewrite !sapp_cons, <- IH.
  cbn [TrimSuffix]. destruct (String.eqb_spec (String c (s +:+ t)) p) as [Heq|]; [|done].
  apply (f_equal String.length) in Heq. simpl in Heq. rewrite slength_app in Heq. lia.
Qed.

Lemma slength_ToLower s : String.length (ToLower s) = String.length s.
Proof. induction s as [|c s IH]; [done|]. rewrite ToLower_cons. simpl. by f_equal. Qed.

Lemma normalizeName_wildcard d :
  d <> "" -> normalizeName ("*." +:+ d) = "*." +:+ normalizeName d.
Proof.
  intros Hd. unfold normalizeName. rewrite ToLower_app.
  change (ToLower "*.") with "*.". apply TrimSuffix_app.
  rewrite slength_ToLower. destruct d; [done|]. simpl. lia.
Qed.

Lemma matchDomain_wildcard d n :
  d <> "" ->
  matchDomain ("*." +:+ d) n = true <-> exists pre, n = pre +:+ "." +:+ normalizeName d.
Proof.
  intros Hd. unfold matchDomain. rewrite normalizeName_wildcard by done.
  rewrite (proj2 (CutPrefix_spec ("*." +:+ normalizeName d) "*." (normalizeName d)) eq_refl).
  apply HasSuffix_spec.
Qed.

Lemma matchDomain_wildcard_apex d :
  d <> "" -> matchDomain ("*." +:+ d) (normalizeName d) = false.
Proof.
  intros Hd. apply not_true_is_false. rewrite matchDomain_wildcard by done.
  intros [pre Heq]. apply (f_equal String.length) in Heq.
  rewrite !slength_app in Heq. simpl in Heq. lia.
Qed.

Lemma matchDomain_exact p n :
  HasPrefix (normalizeName p) "*." = false ->
  matchDomain p n = true <-> n = normalizeName p.
Proof.
  intros Hp. apply CutPrefix_None in Hp. unfold matchDomain. rewrite Hp.
  apply String.eqb_eq.
Qed.

(** ** Lemmas: the policy map *)

Lemma Allowed_Set p b rules q :
  StaticPolicy_Allowed (StaticPolicy_Set b rules p) b q =
  rule_TTL <$> first_match (fun r => matchDomain (rule_Pattern r) (normalizeName q)) rules.
Proof.
  unfold StaticPolicy_Allowed, StaticPolicy_Set. destruct rules as [|r rules]; simpl.
  - by rewrite lookup_delete_eq.
  - rewrite lookup_insert_eq. simpl. repeat step_match; done.
Qed.

Lemma Allowed_Set_ne p b b' rules q :
  b <> b' ->
  StaticPolicy_Allowed (StaticPolicy_Set b rules p) b' q = StaticPolicy_Allowed p b' q.
Proof.
  intros Hne. unfold StaticPolicy_Allowed, StaticPolicy_Set. destruct rules as [|r rules]; simpl.
  - by rewrite lookup_delete_ne.
  - by rewrite lookup_insert_ne.
Qed.

Lemma Allowed_Remove p b b' q :
  StaticPolicy_Allowed (StaticPolicy_Remove b p) b' q =
  if decide (b = b') then None else StaticPolicy_Allowed p b' q.
Proof.
  unfold StaticPolicy_Allowed, StaticPolicy_Remove; simpl. case_decide; subst.
  - by rewrite lookup_delete_eq.
  - by rewrite lookup_delete_ne.
Qed.

Lemma Allowed_Some p b q ttl :
  StaticPolicy_Allowed p b q = Some ttl ->
  exists r, r ∈ default [] (sp_rules p !! b) /\ rule_TTL r = ttl /\
    matchDomain (rule_Pattern r) (normalizeName q) = true.
Proof.
  unfold StaticPolicy_Allowed. destruct (first_match _ _) as [r|] eqn:Hm; [|done].
  intros [= <-]. apply first_match_elem in Hm as [??]. eauto.
Qed.

(** ** Lemmas: answers *)

Lemma answerIPs_loop_mono rrs out a : a ∈ out -> a ∈ answerIPs_loop rrs out.
Proof.
  revert out. induction rrs as [|rr rrs IH]; intros out Ha; simpl; [done|].
  destruct rr; apply IH; auto; destruct (AddrFromSlice ip); try case_decide; set_solver.
Qed.

(** Every address record of the answer section is in [answerIPs]. *)
Lemma answerIPs_complete m ip a :
  (RR_A ip ∈ msg_Answer m \/ RR_AAAA ip ∈ msg_Answer m) -> AddrFromSlice ip = Some a ->
  Unmap a ∈ answerIPs m.
Proof.
  unfold answerIPs. generalize (@nil Addr) as out.
  induction (msg_Answer m) as [|rr rrs IH]; intros out Hin Hip; [set_solver|].
  assert (Hadd : forall rr', rr' = RR_A ip \/ rr' = RR_AAAA ip ->
    Unmap a ∈ answerIPs_loop (rr' :: rrs) out).
  { intros rr' [->| ->]; simpl; rewrite Hip; apply answerIPs_loop_mono;
      case_decide; set_solver. }
  destruct (decide (rr = RR_A ip \/ rr = RR_AAAA ip)) as [Hrr|Hrr]; [auto|].
  simpl; destruct rr; apply IH; set_solver.
Qed.

(** The addresses an answer section carries: those of its A and AAAA records that
    are well formed, 4-in-6 ones unmapped. *)
Definition resolves_to (m : Msg) (a : Addr) : Prop :=
  exists raw x, (RR_A raw ∈ msg_Answer m \/ RR_AAAA raw ∈ msg_Answer m) /\ AddrFromSlice raw = Some x /\ a = Unmap x.

Lemma answerIPs_loop_sound rrs out a : a ∈ answerIPs_loop rrs out ->
  a ∈ out \/ exists raw x, (RR_A raw ∈ rrs \/ RR_AAAA raw ∈ rrs) /\ AddrFromSlice raw = Some x /\ a = Unmap x.
Proof.
  revert out. induction rrs as [|rr rrs IH]; intros out; simpl; [by left|].
  destruct rr as [raw|raw|]; intros [Ha|(raw' & x & Hin & Hx)]%IH; try (right; exists raw', x; set_solver); [..|by left].
  all: destruct (AddrFromSlice raw) as [y|] eqn:Hy; [|by left]; case_decide; [by left|];
    apply elem_of_app in Ha as [Ha|Ha%list_elem_of_singleton]; [by left|right; exists raw, y; set_solver].
Qed.

Lemma elem_of_answerIPs m a : a ∈ answerIPs m <-> resolves_to m a.
Proof.
  split.
  - by intros [Ha%elem_of_nil|Ha]%answerIPs_loop_sound.
  - intros (raw & x & Hin & Hx & ->). by eapply answerIPs_complete.
Qed.

Lemma NoDup_answerIPs_loop rrs out : NoDup out -> NoDup (answerIPs_loop rrs out).
Proof.
  revert out. induction rrs as [|rr rrs IH]; intros out Hout; simpl; [done|].
  destruct rr; apply IH; auto; destruct (AddrFromSlice ip); auto; case_decide; auto;
    apply NoDup_app; (split; [done|]); (split; [set_solver|apply NoDup_singleton]).
Qed.

(** ** Theorems: domain matching and the policy *)

(** [matchDomain] implements the documented pattern language.  A wildcard
    pattern ["*.d"] matches exactly the names that end in ["." ++ d] (case and
    root dot of the pattern are normalised), never the bare apex [d]; any other
    pattern matches only itself. *)
Theorem matchDomain_spec : forall d p n,
  d <> "" -> HasPrefix (normalizeName p) "*." = false ->
  (matchDomain ("*." +:+ d) n = true <-> exists pre, n = pre +:+ "." +:+ normalizeName d) /\
  matchDomain ("*." +:+ d) (normalizeName d) = false /\
  (matchDomain p n = true <-> n = normalizeName p).
Proof.
  intros d p n Hd Hp. split; [by apply matchDomain_wildcard|].
  split; [by apply matchDomain_wildcard_apex|by apply matchDomain_exact].
Qed.

Lemma matchDomain_spec_witness :
  matchDomain "*.GitHub.com." "api.github.com" = true /\
  matchDomain "*.github.com" "github.com" = false /\
  matchDomain "github.com" "notgithub.com" = false.
Proof.
  destruct (matchDomain_spec "GitHub.com." "github.com" "api.github.com") as (H1 & H2 & H3);
    [done|reflexivity|].
  split; [apply H1; by exists "api"|]. split; reflexivity.
Defined.

(** [StaticPolicy.Set] replaces one box's rules and nothing else: afterwards
    that box's names are decided by the first matching rule (an empty rule list
    denies everything), every other box is decided as before, and removing the
    box denies every name. *)
Theorem StaticPolicy_Set_spec : forall p b b' rules q,
  StaticPolicy_Allowed (StaticPolicy_Set b rules p) b q =
    rule_TTL <$> first_match (fun r => matchDomain (rule_Pattern r) (normalizeName q)) rules /\
  (b' = b \/ StaticPolicy_Allowed (StaticPolicy_Set b rules p) b' q = StaticPolicy_Allowed p b' q) /\
  StaticPolicy_Allowed (StaticPolicy_Set b [] p) b q = None /\
  StaticPolicy_Allowed (StaticPolicy_Remove b p) b q = None.
Proof.
  intros p b b' rules q. split; [apply Allowed_Set|]. split.
  - destruct (decide (b = b')); [by left|right; by apply Allowed_Set_ne].
  - split; [apply Allowed_Set|]. rewrite Allowed_Remove. by case_decide.
Qed.

(** ** Theorems: the query handler *)

Section ServerTheorems.
Context `{DNSLib} {S : Type}.
Implicit Types (srv : Server S) (s : S).

(** C39: deny by default.  A query from an unknown source, or for a name the
    box's policy does not allow, is answered with an empty REFUSED or NXDOMAIN
    reply carrying the query's id, leaves the firewall and every other piece of
    state untouched, and is audited with exactly one refused or blocked event
    that names no address. *)
Theorem Handle_denies srv s log ip r q qs :
  msg_Question r = q :: qs ->
  (forall b, srv_boxes srv s ip = Some b -> srv_policy srv s b (q_Name q) = None) ->
  let '(s', log', m) := Handle srv s log ip r in
  s' = s /\ msg_Answer m = [] /\ msg_Id m = msg_Id r /\
  match srv_boxes srv s ip with
  | None =>
      msg_Rcode m = RcodeRefused /\
      log' = log ++ [MkEvent "" (q_Name q) (q_Qtype q) VerdictRefused [] (srv_now srv s)]
  | Some b =>
      msg_Rcode m = RcodeNameError /\
      log' = log ++ [MkEvent b (q_Name q) (q_Qtype q) VerdictBlocked [] (srv_now srv s)]
  end.
Proof.
  intros Hq Hden. unfold Handle, reply. rewrite Hq.
  destruct (srv_boxes srv s ip) as [b|] eqn:Hb;
    [rewrite (Hden b eq_refl)|];
    rewrite SetRcode_rcode, SetRcode_answer, SetRcode_id; auto.
Qed.

(** Every address of a list was accepted by the firewall, one after the other. *)
Inductive pinned_each (pin : S -> string -> Addr -> Z -> S * bool) (b : string) (ttl : Z) :
    list Addr -> S -> S -> Prop :=
| pe_nil s : pinned_each pin b ttl [] s s
| pe_cons ip ips s s1 s2 :
    pin s b ip ttl = (s1, true) -> pinned_each pin b ttl ips s1 s2 -> pinned_each pin b ttl (ip :: ips) s s2.

Lemma pin_all_pinned pin b ttl ips s s' : pin_all pin b ttl ips s = (s', true) -> pinned_each pin b ttl ips s s'.
Proof.
  revert s. induction ips as [|ip ips IH]; intros s; simpl; [intros [= <-]; constructor|].
  destruct (pin s b ip ttl) as [s1 []] eqn:Hp; [|done]. intros Hs. by econstructor; eauto.
Qed.

(** C5: an answer never leaks.  If the reply carries any answer record, then the
    source is a known box, its policy allows the first question with some TTL,
    the records are the upstream's, the transaction id is the client's, and on a
    server with a pinner (the isolation enforcer's always has one) the addresses
    of the answer, exactly these and each once, were accepted by the firewall for
    that box and TTL before replying; the audit event names exactly these
    addresses. *)
Theorem Handle_answer_pinned srv s log ip r s' log' m :
  Handle srv s log ip r = (s', log', m) ->
  msg_Answer m <> [] ->
  exists q qs b ttl resp ips,
    msg_Question r = q :: qs /\
    srv_boxes srv s ip = Some b /\
    srv_policy srv s b (q_Name q) = Some ttl /\
    srv_resolver srv s r = Some resp /\
    msg_Answer m = msg_Answer resp /\ msg_Id m = msg_Id r /\
    match srv_pinner srv with Some pin => pinned_each pin b ttl ips s s' | None => s' = s end /\
    NoDup ips /\ (forall a, a ∈ ips <-> resolves_to m a) /\
    log' = log ++ [MkEvent b (q_Name q) (q_Qtype q) VerdictAllowed ips (srv_now srv s')].
Proof.
  unfold Handle, reply. intros Hh Hans.
  repeat (step_match_in Hh; try (by rewrite SetRcode_answer in Hans)).
  match goal with Hr : srv_resolver _ _ _ = Some ?resp, Hp : pin_answers srv ?b ?ttl _ s = _ |- _ =>
    exists q, l, b, ttl, resp, (answerIPs resp); unfold pin_answers in Hp end.
  split_and!; try done.
  - destruct (srv_pinner srv); [by apply pin_all_pinned|congruence].
  - apply NoDup_answerIPs_loop, NoDup_nil_2.
  - intros a. by rewrite elem_of_answerIPs.
Qed.

(** every query that has a question is audited by exactly one event, which
    carries the query's name and type; a query without a question is answered
    FORMERR and not audited. *)
Theorem Handle_audits srv s log ip r :
  let '(s', log', m) := Handle srv s log ip r in
  match msg_Question r with
  | [] => s' = s /\ log' = log /\ msg_Rcode m = RcodeFormatError
  | q :: _ =>
      exists ev, log' = log ++ [ev] /\ ev_QName ev = q_Name q /\ ev_QType ev = q_Qtype q /\
        ev_Time ev = srv_now srv s' /\
        (ev_Verdict ev <> VerdictAllowed -> ev_IPs ev = [] /\ msg_Answer m = [])
  end.
Proof.
  unfold Handle, reply, record. destruct (msg_Question r) as [|q qs]; simpl.
  - by rewrite SetRcode_rcode.
  - repeat step_match; eexists; (split; [reflexivity|]); simpl;
      rewrite ?SetRcode_answer; naive_solver.
Qed.

End ServerTheorems.

(** ** A concrete server: one box, one rule, a pinner that logs *)

Definition demo_policy : StaticPolicy :=
  StaticPolicy_Set "box-a" [MkRule "*.github.com" 30] NewStaticPolicy.

Definition demo_answer : Msg := MkMsg 7 0 [] [RR_Other; RR_A [140; 82; 112; 3]].

Definition demo_server : Server (list (string * Addr * Z)) :=
  MkServer _
    (fun _ ip => MapBoxes_Box (MapBoxes_Set (Addr4 2886729730) "box-a" NewMapBoxes) ip)
    (fun _ b q => StaticPolicy_Allowed demo_policy b q)
    (fun _ _ => Some demo_answer)
    (Some (fun s b ip ttl => ((b, ip, ttl) :: s, true)))
    (fun _ => 1000).

Definition demo_query (name : string) : Msg := MkMsg 42 0 [MkQuestion name 1] [].

Lemma Handle_denies_witness :
  Handle (H := plain_DNSLib) demo_server [] [] (Addr4 2886729730) (demo_query "github.com.") =
    ([], [MkEvent "box-a" "github.com." 1 VerdictBlocked [] 1000], reply (H := plain_DNSLib) (demo_query "github.com.") RcodeNameError).
Proof.
  pose proof (Handle_denies (H := plain_DNSLib) demo_server [] [] (Addr4 2886729730)
    (demo_query "github.com.") (MkQuestion "github.com." 1) [] eq_refl) as Hd.
  assert (Hpol : forall b, srv_boxes demo_server [] (Addr4 2886729730) = Some b ->
    srv_policy demo_server [] b "github.com." = None).
  { intros b [= <-]. reflexivity. }
  specialize (Hd Hpol). vm_compute in Hd. destruct Hd as (_ & _ & _ & _ & _). reflexivity.
Defined.

Lemma Handle_answer_pinned_witness :
  exists s' log' m,
    Handle (H := plain_DNSLib) demo_server [] [] (Addr4 2886729730) (demo_query "API.github.com.")
      = (s', log', m) /\
    s' = [("box-a", Addr4 2354212867, 30)] /\ msg_Answer m = msg_Answer demo_answer.
Proof.
  destruct (Handle (H := plain_DNSLib) demo_server [] [] (Addr4 2886729730) (demo_query "API.github.com."))
    as [[s' log'] m] eqn:Hh.
  exists s', log', m. split; [reflexivity|].
  assert (Hne : msg_Answer m <> []) by (injection Hh as <- <- <-; discriminate).
  destruct (Handle_answer_pinned (H := plain_DNSLib) demo_server [] [] _ _ s' log' m Hh Hne)
    as (q & qs & b & ttl & resp & ips & Hq & Hb & Hp & Hr & Ha & _ & _ & _ & _ & Hlog).
  injection Hr as <-. split; [|exact Ha]. vm_compute in Hh. by injection Hh as <- _ _.
Defined.
