(* ===== verification/Netfw.v ===== *)
(** * The egress firewall (internal/spoke/netfw)

    The [Programmer] interface with the behaviour its clients rely on, the
    TTL-tracking [Pinner] written against the interface, and the in-memory
    [RecordingProgrammer] that implements it. *)

From S2P Require Import Prelude GoStrings Dnsd.

Local Open Scope Z_scope.

(** A source prefix: address and prefix length. *)
Record Prefix := MkPrefix { pfx_Addr : Addr; pfx_Bits : Z }.

Record BoxSpec := MkBoxSpec { bs_Source : Prefix; bs_DNS : Addr }.

#[export] Instance Prefix_eq_dec : EqDecision Prefix.
Proof. solve_decision. Defined.
#[export] Instance BoxSpec_eq_dec : EqDecision BoxSpec.
Proof. solve_decision. Defined.

(** ** The Programmer interface

    [F] is the firewall state; an operation returns the new state and whether
    it succeeded.  [opened] is the observation: is the address in the box's
    allow set? *)
Class Programmer (F : Type) := {
  Baseline : string -> BoxSpec -> F -> F * bool;
  Allow : string -> Addr -> F -> F * bool;
  Revoke : string -> Addr -> F -> F * bool;
  Teardown : string -> F -> F * bool;
  opened : F -> string -> Addr -> bool;
}.

(** What the interface's comments promise: [Allow] opens one address, [Revoke]
    closes one, [Teardown] closes a box, [Baseline] opens nothing, and an
    operation that fails opens nothing and touches no other address. *)
Class ProgrammerLaws (F : Type) `{Programmer F} := {
  Allow_ok b ip f f' : Allow b ip f = (f', true) ->
    forall b' ip', opened f' b' ip' = true <-> (b', ip') = (b, ip) \/ opened f b' ip' = true;
  Allow_err b ip f f' : Allow b ip f = (f', false) ->
    forall b' ip', opened f' b' ip' = true -> opened f b' ip' = true;
  Revoke_ok b ip f f' : Revoke b ip f = (f', true) ->
    forall b' ip', opened f' b' ip' = true <-> (b', ip') <> (b, ip) /\ opened f b' ip' = true;
  Revoke_err b ip f f' : Revoke b ip f = (f', false) ->
    (opened f' b ip = true -> opened f b ip = true) /\
    forall b' ip', (b', ip') <> (b, ip) -> opened f' b' ip' = opened f b' ip';
  Teardown_ok b f f' : Teardown b f = (f', true) ->
    forall b' ip', opened f' b' ip' = true <-> b' <> b /\ opened f b' ip' = true;
  Teardown_err b f f' : Teardown b f = (f', false) ->
    forall b' ip', opened f' b' ip' = true -> opened f b' ip' = true;
  Baseline_mono b spec f f' ok : Baseline b spec f = (f', ok) ->
    forall b' ip', opened f' b' ip' = true -> opened f b' ip' = true;
}.

(** ** The Pinner *)

Abbreviation pinKey := (string * Addr)%type.

Record Pinner (F : Type) := MkPinner {
  pn_prog : F;
  pn_pins : gmap pinKey Z;
}.
Arguments MkPinner {F}.
Arguments pn_prog {F}.
Arguments pn_pins {F}.

(** The order [Sweep] sorts expired keys by: box, then [netip.Addr.Less]
    (bit length, then value). *)
Definition addr_rank (a : Addr) : Z * Z :=
  match a with
  | AddrZero => (0, 0)
  | Addr4 z => (32, z)
  | Addr6 z => (128, z)
  end.

Definition addr_le (a b : Addr) : bool :=
  let '(la, va) := addr_rank a in
  let '(lb, vb) := addr_rank b in
  Z.ltb la lb || (Z.eqb la lb && Z.leb va vb).

Definition pinKey_le (k1 k2 : pinKey) : Prop :=
  if decide (k1.1 = k2.1) then addr_le k1.2 k2.2 = true else String.le k1.1 k2.1.

#[export] Instance pinKey_le_dec : RelDecision pinKey_le.
Proof. intros k1 k2. unfold pinKey_le. case_decide; apply _. Defined.

Section Pinner.
Context `{Programmer F}.
Implicit Types (p : Pinner F).

Definition NewPinner (prog : F) : Pinner F := MkPinner prog ∅.

Definition Pin (now : Z) (p : Pinner F) (boxID : string) (ip : Addr) (ttl : Z) : Pinner F * bool :=
  let key := (boxID, ip) in
  let deadline := now + ttl in
  let exists_ := bool_decide (is_Some (pn_pins p !! key)) in
  let pins := <[key := deadline]> (pn_pins p) in
  if exists_ then (MkPinner (pn_prog p) pins, true)
  else
    match Allow boxID ip (pn_prog p) with
    | (f, true) => (MkPinner f pins, true)
    | (f, false) => (MkPinner f (delete key pins), false)
    end.

(** [!deadline.After(now)]. *)
Definition expired (now : Z) (deadline : Z) : bool := negb (After deadline now).

(** Revoke each key in turn; the boolean is "no revoke failed". *)
Fixpoint revoke_all (ks : list pinKey) (f : F) : F * bool :=
  match ks with
  | [] => (f, true)
  | k :: ks' =>
      let '(f1, ok1) := Revoke k.1 k.2 f in
      let '(f2, ok2) := revoke_all ks' f1 in
      (f2, ok1 && ok2)
  end.

Definition expired_pins (now : Z) (p : Pinner F) : gmap pinKey Z :=
  filter (fun kv => expired now kv.2 = true) (pn_pins p).

Definition live_pins (now : Z) (p : Pinner F) : gmap pinKey Z :=
  filter (fun kv => expired now kv.2 = false) (pn_pins p).

Definition Sweep (now : Z) (p : Pinner F) : Pinner F * bool :=
  let exp := (map_to_list (expired_pins now p)).*1 in
  let pins := fold_left (fun m k => delete k m) exp (pn_pins p) in
  let '(f, ok) := revoke_all (merge_sort pinKey_le exp) (pn_prog p) in
  (MkPinner f pins, ok).

Definition Forget (boxID : string) (p : Pinner F) : Pinner F :=
  MkPinner (pn_prog p) (filter (fun kv => kv.1.1 <> boxID) (pn_pins p)).
End Pinner.

(** ** RecordingProgrammer *)

Record boxState := MkBoxState { st_spec : BoxSpec; st_allow : gset Addr }.

Record RecordingProgrammer := MkRecording { rp_boxes : gmap string boxState }.

(** The zero [BoxSpec] of a box first seen through [Allow]. *)
Definition zeroSpec : BoxSpec := MkBoxSpec (MkPrefix AddrZero 0) AddrZero.

Definition NewRecordingProgrammer : RecordingProgrammer := MkRecording ∅.

Definition Recording_Baseline (boxID : string) (spec : BoxSpec) (r : RecordingProgrammer) :
    RecordingProgrammer * bool :=
  (MkRecording (<[boxID := MkBoxState spec ∅]> (rp_boxes r)), true).

Definition Recording_Allow (boxID : string) (ip : Addr) (r : RecordingProgrammer) :
    RecordingProgrammer * bool :=
  let b := default (MkBoxState zeroSpec ∅) (rp_boxes r !! boxID) in
  (MkRecording (<[boxID := MkBoxState (st_spec b) ({[ip]} ∪ st_allow b)]> (rp_boxes r)), true).

Definition Recording_Revoke (boxID : string) (ip : Addr) (r : RecordingProgrammer) :
    RecordingProgrammer * bool :=
  match rp_boxes r !! boxID with
  | Some b => (MkRecording (<[boxID := MkBoxState (st_spec b) (st_allow b ∖ {[ip]})]> (rp_boxes r)), true)
  | None => (r, true)
  end.

Definition Recording_Teardown (boxID : string) (r : RecordingProgrammer) :
    RecordingProgrammer * bool :=
  (MkRecording (delete boxID (rp_boxes r)), true).

Definition Recording_Allowed (r : RecordingProgrammer) (boxID : string) (ip : Addr) : bool :=
  match rp_boxes r !! boxID with
  | Some b => bool_decide (ip ∈ st_allow b)
  | None => false
  end.

#[export] Instance Recording_Programmer : Programmer RecordingProgrammer := {
  Baseline := Recording_Baseline;
  Allow := Recording_Allow;
  Revoke := Recording_Revoke;
  Teardown := Recording_Teardown;
  opened := Recording_Allowed;
}.

(** ** The recording implementation discharges the interface *)

Lemma Recording_Allowed_insert r b st b' ip :
  Recording_Allowed (MkRecording (<[b := st]> (rp_boxes r))) b' ip =
  if decide (b = b') then bool_decide (ip ∈ st_allow st) else Recording_Allowed r b' ip.
Proof. unfold Recording_Allowed; simpl. rewrite lookup_insert. by case_decide. Qed.

#[export] Instance Recording_Laws : ProgrammerLaws RecordingProgrammer.
Proof.
  split; simpl; unfold Recording_Allow, Recording_Revoke, Recording_Teardown, Recording_Baseline.
  - intros b ip f f' [= <-] b' ip'. rewrite Recording_Allowed_insert. simpl. case_decide; subst.
    + rewrite bool_decide_eq_true. unfold Recording_Allowed.
      destruct (rp_boxes f !! b') as [st|]; simpl; rewrite ?bool_decide_eq_true; set_solver.
    + naive_solver.
  - done.
  - intros b ip f f' Hr b' ip'. destruct (rp_boxes f !! b) as [st|] eqn:Hb; simplify_eq.
    + rewrite Recording_Allowed_insert. simpl. case_decide; subst; [|naive_solver].
      unfold Recording_Allowed. rewrite Hb, !bool_decide_eq_true. set_solver.
    + split; [|naive_solver]. intros Ho. split; [|done]. intros [= -> ->].
      unfold Recording_Allowed in Ho. by rewrite Hb in Ho.
  - intros b ip f f'. by destruct (rp_boxes f !! b).
  - intros b f f' [= <-] b' ip'. unfold Recording_Allowed; simpl. rewrite lookup_delete.
    case_decide; naive_solver.
  - done.
  - intros b spec f f' ok [= <- <-] b' ip'. rewrite Recording_Allowed_insert. simpl.
    case_decide; [|done]. rewrite bool_decide_eq_true. set_solver.
Qed.

(** ** Lemmas on the pinner, against the interface *)

Definition is_open `{Programmer F} (f : F) (k : pinKey) : bool := opened f k.1 k.2.

Lemma lookup_delete_all (ks : list pinKey) (m : gmap pinKey Z) k :
  fold_left (fun m k => delete k m) ks m !! k = if decide (k ∈ ks) then None else m !! k.
Proof.
  revert m. induction ks as [|k' ks IH]; intros m; cbn [fold_left].
  { rewrite decide_False by set_solver. done. }
  rewrite IH, lookup_delete. repeat case_decide; set_solver.
Qed.

Section PinnerLemmas.
Context `{Programmer F, !ProgrammerLaws F}.
Implicit Types (p : Pinner F) (f : F).

Lemma revoke_all_spec ks f f' ok :
  revoke_all ks f = (f', ok) ->
  (forall k, k ∉ ks -> is_open f' k = is_open f k) /\
  (forall k, is_open f' k = true -> is_open f k = true) /\
  (ok = true -> forall k, k ∈ ks -> is_open f' k = false).
Proof.
  revert f f' ok. induction ks as [|[b ip] ks IH]; intros f f' ok Hr; simpl in Hr.
  { simplify_eq. set_solver. }
  destruct (Revoke b ip f) as [f1 ok1] eqn:Hrev.
  destruct (revoke_all ks f1) as [f2 ok2] eqn:Hrest. simplify_eq.
  destruct (IH _ _ _ Hrest) as (Hout & Hmono & Hin). clear IH Hrest.
  assert (H1 : (forall k, k <> (b, ip) -> is_open f1 k = is_open f k) /\
    (is_open f1 (b, ip) = true -> is_open f (b, ip) = true) /\
    (ok1 = true -> is_open f1 (b, ip) = false)).
  { unfold is_open; simpl. destruct ok1.
    - pose proof (Revoke_ok _ _ _ _ Hrev) as Hok. split_and!.
      + intros [b' ip'] Hne. apply Bool.eq_true_iff_eq. simpl. rewrite Hok. naive_solver.
      + rewrite Hok. naive_solver.
      + intros _. apply not_true_is_false. rewrite Hok. naive_solver.
    - destruct (Revoke_err _ _ _ _ Hrev) as [He1 He2]. split_and!; [|done|done].
      intros [b' ip'] Hne. by apply He2. }
  destruct H1 as (Hne & Hm1 & Hok1). split_and!.
  - intros k Hk. rewrite Hout, Hne by set_solver. done.
  - intros k Hk. apply Hmono in Hk. destruct (decide (k = (b, ip))) as [->|]; [auto|].
    by rewrite <- Hne.
  - intros Hok k Hk. bools. destruct (decide (k ∈ ks)); [auto|].
    assert (k = (b, ip)) as -> by set_solver. rewrite Hout by done. auto.
Qed.

Lemma elem_of_expired now p k :
  k ∈ (map_to_list (expired_pins now p)).*1 <->
  exists d, pn_pins p !! k = Some d /\ expired now d = true.
Proof.
  rewrite list_elem_of_fmap. split.
  - intros ([k' d] & -> & Hin%elem_of_map_to_list). unfold expired_pins in Hin.
    apply map_lookup_filter_Some in Hin as [??]. eauto.
  - intros (d & Hk & Hd). exists (k, d). split; [done|]. apply elem_of_map_to_list.
    unfold expired_pins. by apply map_lookup_filter_Some.
Qed.

Lemma Sweep_pins now p p' ok : Sweep now p = (p', ok) -> pn_pins p' = live_pins now p.
Proof.
  unfold Sweep. destruct (revoke_all _ _) as [f ok1]. intros [= <- <-]. simpl.
  apply map_eq. intros k. rewrite lookup_delete_all.
  apply option_eq. intros d. unfold live_pins. rewrite map_lookup_filter_Some. simpl.
  case_decide as Hk; rewrite elem_of_expired in Hk.
  - destruct Hk as (d' & Hk & Hd). rewrite Hk.
    split; [done|]. intros [[= ->] Hf]. congruence.
  - split; [|by intros [? _]]. intros Hd. split; [done|].
    destruct (expired now d) eqn:He; [|done]. exfalso; eauto.
Qed.

Lemma Sweep_open now p p' ok :
  Sweep now p = (p', ok) ->
  (forall k, is_open (pn_prog p') k = true -> is_open (pn_prog p) k = true) /\
  (forall k, (forall d, pn_pins p !! k = Some d -> expired now d = false) ->
     is_open (pn_prog p') k = is_open (pn_prog p) k) /\
  (ok = true -> forall k d, pn_pins p !! k = Some d -> expired now d = true ->
     is_open (pn_prog p') k = false).
Proof.
  unfold Sweep. destruct (revoke_all _ _) as [f ok1] eqn:Hr. intros [= <- <-]. simpl.
  destruct (revoke_all_spec _ _ _ _ Hr) as (Hout & Hmono & Hin). split_and!; [done| |].
  - intros k Hk. apply Hout. rewrite merge_sort_Permutation, elem_of_expired.
    intros (d & Hd & He). rewrite (Hk d Hd) in He. done.
  - intros Hok k d Hk Hd. apply Hin; [done|]. rewrite merge_sort_Permutation, elem_of_expired. eauto.
Qed.

Lemma Pin_refresh now p b ip ttl d :
  pn_pins p !! (b, ip) = Some d ->
  Pin now p b ip ttl = (MkPinner (pn_prog p) (<[(b, ip) := now + ttl]> (pn_pins p)), true).
Proof. intros Hd. unfold Pin. rewrite bool_decide_eq_true_2 by eauto. done. Qed.

Lemma Pin_new now p b ip ttl p' ok :
  pn_pins p !! (b, ip) = None -> Pin now p b ip ttl = (p', ok) ->
  exists f, Allow b ip (pn_prog p) = (f, ok) /\ pn_prog p' = f /\
    pn_pins p' = if ok then <[(b, ip) := now + ttl]> (pn_pins p) else pn_pins p.
Proof.
  intros Hd. unfold Pin. rewrite bool_decide_eq_false_2 by (rewrite Hd; by intros [? [=]]).
  destruct (Allow b ip (pn_prog p)) as [f []] eqn:Ha; intros [= <- <-]; eexists; eauto.
  simpl. by rewrite delete_insert_id.
Qed.

Lemma Pin_open now p b ip ttl p' ok :
  Pin now p b ip ttl = (p', ok) ->
  forall k, is_open (pn_prog p') k = true ->
    is_open (pn_prog p) k = true \/ (ok = true /\ k = (b, ip)).
Proof.
  intros Hp [b' ip'] Hk. destruct (pn_pins p !! (b, ip)) as [d|] eqn:Hd.
  - erewrite Pin_refresh in Hp by done. simplify_eq. auto.
  - destruct (Pin_new _ _ _ _ _ _ _ Hd Hp) as (f & Ha & <- & _). unfold is_open in *; simpl in *.
    destruct ok.
    + apply (Allow_ok _ _ _ _ Ha) in Hk. naive_solver.
    + apply (Allow_err _ _ _ _ Ha) in Hk. naive_solver.
Qed.

(** The deny-by-default bookkeeping invariant: every open address is tracked by
    a pin, so the sweeper will close it. *)
Definition tracked (p : Pinner F) : Prop :=
  forall k, is_open (pn_prog p) k = true -> is_Some (pn_pins p !! k).

Lemma Pin_tracked now p b ip ttl p' ok : tracked p -> Pin now p b ip ttl = (p', ok) -> tracked p'.
Proof.
  intros Ht Hp k Hk.
  assert (Hins : forall d', is_Some (<[(b, ip) := d']> (pn_pins p) !! k) \/ k <> (b, ip)).
  { intros d'. destruct (decide (k = (b, ip))) as [->|]; [left; by rewrite lookup_insert_eq|by right]. }
  destruct (pn_pins p !! (b, ip)) as [d|] eqn:Hd.
  - erewrite Pin_refresh in Hp by done. simplify_eq/=.
    destruct (Hins (now + ttl)) as [?|Hne]; [done|]. rewrite lookup_insert_ne by done. by apply Ht.
  - pose proof (Pin_open _ _ _ _ _ _ _ Hp k Hk) as Hor.
    destruct (Pin_new _ _ _ _ _ _ _ Hd Hp) as (f & Ha & _ & ->).
    destruct Hor as [Hk'|[-> ->]].
    + specialize (Ht k Hk'). destruct ok; [|done].
      destruct (Hins (now + ttl)) as [?|Hne]; [done|]. by rewrite lookup_insert_ne.
    + by rewrite lookup_insert_eq.
Qed.

Lemma Sweep_tracked now p p' : tracked p -> Sweep now p = (p', true) -> tracked p'.
Proof.
  intros Ht Hs k Hk. rewrite (Sweep_pins _ _ _ _ Hs).
  destruct (Sweep_open _ _ _ _ Hs) as (Hmono & _ & Hclosed).
  destruct (Ht k (Hmono k Hk)) as [d Hd]. exists d. unfold live_pins.
  apply map_lookup_filter_Some. split; [done|]. simpl.
  destruct (expired now d) eqn:He; [|done]. specialize (Hclosed eq_refl k d Hd He). congruence.
Qed.

Lemma Forget_Teardown_tracked p b f :
  tracked p -> Teardown b (pn_prog p) = (f, true) ->
  tracked (MkPinner f (pn_pins (Forget b p))).
Proof.
  intros Ht Hd [b' ip'] Hk. unfold is_open in Hk; simpl in Hk.
  apply (Teardown_ok _ _ _ Hd) in Hk as [Hne Hk].
  destruct (Ht (b', ip') Hk) as [d Hk']. exists d. simpl. by apply map_lookup_filter_Some.
Qed.
End PinnerLemmas.

#[export] Hint Resolve Pin_tracked Sweep_tracked Forget_Teardown_tracked : llmbox.

(** ** Theorems *)

Section PinnerTheorems.
Context `{Programmer F, !ProgrammerLaws F}.
Implicit Types (p : Pinner F).

(** [Pin] on every branch.  A pin that is already tracked only has its
    deadline moved to [now + ttl], the firewall is not touched; a new pin opens
    exactly its address and records the deadline; when the firewall refuses, the
    bookkeeping is rolled back to what it was and nothing is opened. *)
Theorem Pin_spec : forall now p b ip ttl,
  let '(p', ok) := Pin now p b ip ttl in
  match pn_pins p !! (b, ip) with
  | Some _ =>
      ok = true /\ pn_prog p' = pn_prog p /\
      pn_pins p' = <[(b, ip) := now + ttl]> (pn_pins p)
  | None =>
      (ok = true -> pn_pins p' = <[(b, ip) := now + ttl]> (pn_pins p) /\
         forall k, is_open (pn_prog p') k = true <-> k = (b, ip) \/ is_open (pn_prog p) k = true) /\
      (ok = false -> pn_pins p' = pn_pins p /\
         forall k, is_open (pn_prog p') k = true -> is_open (pn_prog p) k = true)
  end.
Proof.
  intros now p b ip ttl. destruct (Pin now p b ip ttl) as [p' ok] eqn:Hp.
  destruct (pn_pins p !! (b, ip)) as [d|] eqn:Hd.
  - erewrite Pin_refresh in Hp by done. by simplify_eq.
  - destruct (Pin_new _ _ _ _ _ _ _ Hd Hp) as (f & Ha & Hf & ->).
    split; intros ->; (split; [done|]); intros [b' ip']; unfold is_open; simpl; rewrite Hf.
    + rewrite (Allow_ok _ _ _ _ Ha). naive_solver.
    + by apply (Allow_err _ _ _ _ Ha).
Qed.

(** [Sweep] drops exactly the pins whose deadline has passed, whatever the
    firewall answers; it never opens anything, leaves every live pin's address
    as it was, and when it reports no error every expired pin's address is
    closed. *)
Theorem Sweep_spec : forall now p,
  let '(p', ok) := Sweep now p in
  pn_pins p' = live_pins now p /\
  (forall k, is_open (pn_prog p') k = true -> is_open (pn_prog p) k = true) /\
  (forall k d, pn_pins p !! k = Some d -> expired now d = false ->
     pn_pins p' !! k = Some d /\ is_open (pn_prog p') k = is_open (pn_prog p) k) /\
  (ok = true -> forall k d, pn_pins p !! k = Some d -> expired now d = true ->
     pn_pins p' !! k = None /\ is_open (pn_prog p') k = false).
Proof.
  intros now p. destruct (Sweep now p) as [p' ok] eqn:Hs.
  pose proof (Sweep_pins _ _ _ _ Hs) as Hpins.
  destruct (Sweep_open _ _ _ _ Hs) as (Hmono & Hlive & Hclosed).
  split_and!; [done|done| |].
  - intros k d Hk Hd. split.
    + rewrite Hpins. unfold live_pins. by apply map_lookup_filter_Some.
    + apply Hlive. intros d' Hd'. simplify_eq. done.
  - intros Hok k d Hk Hd. split; [|eauto]. rewrite Hpins. unfold live_pins.
    apply map_lookup_filter_None. right. intros d' Hd' He. simplify_eq/=. congruence.
Qed.

(** an address that is open but no longer tracked is never closed again by
    the sweeper: every later sweep leaves it open and untracked.  (A revoke that
    fails during a sweep produces such an address: its pin is dropped before
    the firewall is asked, see [Sweep_strands_failed_revoke].) *)
Theorem Sweep_never_closes_untracked : forall p k nows,
  is_open (pn_prog p) k = true -> pn_pins p !! k = None ->
  let p' := fold_left (fun p now => fst (Sweep now p)) nows p in
  is_open (pn_prog p') k = true /\ pn_pins p' !! k = None.
Proof.
  intros p k nows. revert p. induction nows as [|now nows IH]; intros p Ho Hn; simpl; [done|].
  destruct (Sweep now p) as [p1 ok] eqn:Hs. simpl. apply IH.
  - destruct (Sweep_open _ _ _ _ Hs) as (_ & Hlive & _). rewrite Hlive; [done|]. congruence.
  - rewrite (Sweep_pins _ _ _ _ Hs). unfold live_pins. apply map_lookup_filter_None. by left.
Qed.

End PinnerTheorems.

(** A firewall whose revokes fail while the flag is down: the recording
    programmer with a fault switch. *)
Record FlakyProgrammer := MkFlaky { fl_rec : RecordingProgrammer; fl_broken : bool }.

Definition flaky_lift (broken : bool) (x : RecordingProgrammer * bool) : FlakyProgrammer * bool :=
  (MkFlaky (fst x) broken, snd x).

Definition flaky_Programmer : Programmer FlakyProgrammer := {|
  Baseline b spec f := flaky_lift (fl_broken f) (Recording_Baseline b spec (fl_rec f));
  Allow b ip f := flaky_lift (fl_broken f) (Recording_Allow b ip (fl_rec f));
  Revoke b ip f :=
    if fl_broken f then (f, false) else flaky_lift false (Recording_Revoke b ip (fl_rec f));
  Teardown b f := flaky_lift (fl_broken f) (Recording_Teardown b (fl_rec f));
  opened f := Recording_Allowed (fl_rec f);
|}.

Definition flaky_Laws : ProgrammerLaws FlakyProgrammer (H := flaky_Programmer).
Proof.
  split; simpl.
  - intros b ip f f' [= <-] b' ip'. exact (Allow_ok b ip (fl_rec f) _ eq_refl b' ip').
  - done.
  - intros b ip f f' Hr b' ip'. destruct (fl_broken f); [done|]. unfold flaky_lift in Hr.
    destruct (Recording_Revoke b ip (fl_rec f)) as [r ok] eqn:Hrec. injection Hr as <- ->.
    exact (Revoke_ok b ip (fl_rec f) r Hrec b' ip').
  - intros b ip f f' Hr. destruct (fl_broken f); [by simplify_eq|].
    unfold flaky_lift, Recording_Revoke in Hr. by destruct (rp_boxes (fl_rec f) !! b).
  - intros b f f' [= <-] b' ip'. exact (Teardown_ok b (fl_rec f) _ eq_refl b' ip').
  - done.
  - intros b spec f f' ok [= <- <-] b' ip'.
    exact (Baseline_mono b spec (fl_rec f) _ true eq_refl b' ip').
Defined.

(** A pinned address whose revoke failed once: open, and no longer tracked. *)
Definition stranded_pinner : Pinner FlakyProgrammer :=
  let p0 := NewPinner (MkFlaky NewRecordingProgrammer false) in
  let p1 := fst (Pin (H := flaky_Programmer) 0 p0 "box-a" (Addr4 1) 30) in
  let p2 := MkPinner (MkFlaky (fl_rec (pn_prog p1)) true) (pn_pins p1) in
  let p3 := fst (Sweep (H := flaky_Programmer) 31 p2) in
  MkPinner (MkFlaky (fl_rec (pn_prog p3)) false) (pn_pins p3).

(** The firewall has recovered, yet the address stays open at every later sweep. *)
Lemma Sweep_never_closes_untracked_witness :
  is_open (H := flaky_Programmer)
    (pn_prog (fold_left (fun p now => fst (Sweep (H := flaky_Programmer) now p)) [36; 41; 46] stranded_pinner))
    ("box-a", Addr4 1) = true.
Proof.
  apply (Sweep_never_closes_untracked (H := flaky_Programmer) (ProgrammerLaws0 := flaky_Laws)
    stranded_pinner ("box-a", Addr4 1) [36; 41; 46]); vm_compute; reflexivity.
Defined.

(** A pin on the recording firewall, and its expiry. *)
Lemma Pin_spec_witness :
  let p := fst (Pin 0 (NewPinner NewRecordingProgrammer) "box-a" (Addr4 1) 30) in
  pn_pins p = {[("box-a", Addr4 1) := 30]} /\ is_open (pn_prog p) ("box-a", Addr4 1) = true.
Proof.
  intros p. pose proof (Pin_spec 0 (NewPinner NewRecordingProgrammer) "box-a" (Addr4 1) 30) as H.
  assert (Hp : Pin 0 (NewPinner NewRecordingProgrammer) "box-a" (Addr4 1) 30 = (p, true)) by reflexivity.
  rewrite Hp in H. destruct H as [H _]. destruct (H eq_refl) as [H1 H2].
  split; [exact H1|]. apply H2. by left.
Defined.

Lemma Sweep_spec_witness :
  let p := fst (Pin 0 (NewPinner NewRecordingProgrammer) "box-a" (Addr4 1) 30) in
  is_open (pn_prog (fst (Sweep 31 p))) ("box-a", Addr4 1) = false /\
  is_open (pn_prog (fst (Sweep 29 p))) ("box-a", Addr4 1) = true.
Proof.
  intros p. split; [|reflexivity]. pose proof (Sweep_spec 31 p) as H.
  assert (Hs : Sweep 31 p = (fst (Sweep 31 p), true)) by reflexivity.
  rewrite Hs in H. destruct H as (_ & _ & _ & H).
  exact (proj2 (H eq_refl ("box-a", Addr4 1) 30 eq_refl eq_refl)).
Defined.

(** The sweep itself: the failed revoke is reported, the pin is gone, the
    address is still open. *)
Lemma Sweep_strands_failed_revoke :
  exists (p : Pinner FlakyProgrammer) now,
    let '(p', ok) := Sweep (H := flaky_Programmer) now p in
    ok = false /\ is_open (H := flaky_Programmer) (pn_prog p') ("box-a", Addr4 1) = true /\
    pn_pins p' !! ("box-a", Addr4 1) = None.
Proof.
  exists (MkPinner (MkFlaky (fst (Recording_Allow "box-a" (Addr4 1) NewRecordingProgrammer)) true)
    {[("box-a", Addr4 1) := 30]}), 31.
  by vm_compute.
Qed.

(** ** Interleavings of Pin and Sweep

    [Pin] and [Sweep] take the mutex only for the bookkeeping and call the
    firewall after releasing it, so the firewall calls of concurrent
    goroutines interleave.  A state is the pin map, the open set and the calls
    that are still to be made. *)
Module Interleaving.

Inductive call := CAllow (k : pinKey) | CRevoke (k : pinKey).

Record cstate := MkC {
  c_pins : gmap pinKey Z;
  c_open : gset pinKey;
  c_todo : list call;
}.

Definition init : cstate := MkC ∅ ∅ [].

Inductive step : cstate -> cstate -> Prop :=
| step_pin_new k d s :
    c_pins s !! k = None ->
    step s (MkC (<[k := d]> (c_pins s)) (c_open s) (c_todo s ++ [CAllow k]))
| step_pin_refresh k d d' s :
    c_pins s !! k = Some d' ->
    step s (MkC (<[k := d]> (c_pins s)) (c_open s) (c_todo s))
| step_sweep now s :
    step s (MkC (filter (fun kv => expired now kv.2 = false) (c_pins s)) (c_open s)
      (c_todo s ++ (CRevoke <$> (map_to_list (filter (fun kv => expired now kv.2 = true) (c_pins s))).*1)))
| step_allow k l1 l2 s :
    c_todo s = l1 ++ CAllow k :: l2 ->
    step s (MkC (c_pins s) ({[k]} ∪ c_open s) (l1 ++ l2))
| step_revoke k l1 l2 s :
    c_todo s = l1 ++ CRevoke k :: l2 ->
    step s (MkC (c_pins s) (c_open s ∖ {[k]}) (l1 ++ l2)).

(** a lookup that lands between a sweep's bookkeeping and its firewall call
    is lost: a reachable state has no call outstanding and a pin that is live at
    time 31 (its deadline is 61), yet the address is closed; refreshing the pin
    does not reopen it. *)
Theorem sweep_races_pin :
  exists s, rtc step init s /\ c_todo s = [] /\
    c_pins s !! ("box-a", Addr4 1) = Some 61 /\ expired 31 61 = false /\
    ("box-a", Addr4 1) ∉ c_open s /\
    forall d, exists s', step s s' /\ c_pins s' !! ("box-a", Addr4 1) = Some d /\
      ("box-a", Addr4 1) ∉ c_open s' /\ c_todo s' = [].
Proof.
  set (k := ("box-a", Addr4 1)).
  exists (MkC (<[k := 61]> ∅) (({[k]} ∪ ({[k]} ∪ ∅)) ∖ {[k]}) []).
  split_and!; [|reflexivity|reflexivity|reflexivity|set_solver|].
  - eapply rtc_l; [by apply (step_pin_new k 30)|].
    eapply rtc_l; [by apply (step_allow k [] [])|].
    eapply rtc_l; [by apply (step_sweep 31)|].
    eapply rtc_l; [by apply (step_pin_new k 61)|].
    eapply rtc_l; [by apply (step_allow k [CRevoke k] [])|].
    eapply rtc_l; [by apply (step_revoke k [] [])|].
    apply reflexive_eq. by f_equal.
  - intros d. eexists. split; [by eapply (step_pin_refresh k d 61)|]. simpl.
    rewrite lookup_insert_eq. set_solver.
Qed.
End Interleaving.
