(* ===== verification/Isolation.v ===== *)
(** * The isolation enforcer (internal/spoke/isolation)

    The composition root of network isolation: resolver, policy, source map and
    firewall pinner over one shared state, with the per-box operations the spoke
    calls, and the step relation of the running enforcer. *)

From S2P Require Import Prelude GoStrings Sandbox Dnsd Netfw.

Local Open Scope Z_scope.

Record Enforcer (F : Type) := MkEnforcer {
  en_policy : StaticPolicy;
  en_boxes : MapBoxes;
  en_pinner : Pinner F;
  en_guestIPs : gmap string Addr;
}.
Arguments MkEnforcer {F}.
Arguments en_policy {F}.
Arguments en_boxes {F}.
Arguments en_pinner {F}.
Arguments en_guestIPs {F}.

(** The firewall of an enforcer: [e.prog] and the pinner share it. *)
Definition en_prog {F} (e : Enforcer F) : F := pn_prog (en_pinner e).

Definition with_pinner {F} (e : Enforcer F) (p : Pinner F) : Enforcer F :=
  MkEnforcer (en_policy e) (en_boxes e) p (en_guestIPs e).

Definition with_policy {F} (e : Enforcer F) (p : StaticPolicy) : Enforcer F :=
  MkEnforcer p (en_boxes e) (en_pinner e) (en_guestIPs e).

Section Enforcer.
Context `{Programmer F}.
Implicit Types (e : Enforcer F).

Definition New (prog : F) : Enforcer F :=
  MkEnforcer NewStaticPolicy NewMapBoxes (NewPinner prog) ∅.

Definition rulesFromPolicy (policy : NetworkPolicy) : list Rule :=
  if np_Enabled policy
  then (fun r => MkRule (dr_Pattern r) (int64 (dr_TTLSeconds r * Second))) <$> np_Rules policy
  else [].

Definition SetNetworkPolicy (boxID : string) (policy : NetworkPolicy) (e : Enforcer F) : Enforcer F :=
  with_policy e (StaticPolicy_Set boxID (rulesFromPolicy policy) (en_policy e)).

Definition Configure (boxID : string) (spec : BoxSpec) (guestIP : Addr) (rules : list Rule)
    (e : Enforcer F) : Enforcer F * bool :=
  let '(f, ok) := Baseline boxID spec (en_prog e) in
  let p := MkPinner f (pn_pins (en_pinner e)) in
  if ok then
    (MkEnforcer (StaticPolicy_Set boxID rules (en_policy e))
       (MapBoxes_Set guestIP boxID (en_boxes e)) p (<[boxID := guestIP]> (en_guestIPs e)), true)
  else (with_pinner e p, false).

Definition Release (boxID : string) (e : Enforcer F) : Enforcer F * bool :=
  let policy := StaticPolicy_Remove boxID (en_policy e) in
  let boxes :=
    match en_guestIPs e !! boxID with
    | Some guestIP => MapBoxes_Remove guestIP (en_boxes e)
    | None => en_boxes e
    end in
  let p := Forget boxID (en_pinner e) in
  let '(f, ok) := Teardown boxID (pn_prog p) in
  (MkEnforcer policy boxes (MkPinner f (pn_pins p)) (delete boxID (en_guestIPs e)), ok).

(** The DNS server the enforcer builds over its own parts, with the upstream's
    reply to the query at hand as a parameter. *)
Definition server (now : Z) (upstream : Msg -> option Msg) : Server (Enforcer F) :=
  MkServer _
    (fun e ip => MapBoxes_Box (en_boxes e) ip)
    (fun e b q => StaticPolicy_Allowed (en_policy e) b q)
    (fun _ r => upstream r)
    (Some (fun e b ip ttl =>
      let '(p, ok) := Pin now (en_pinner e) b ip ttl in (with_pinner e p, ok)))
    (fun _ => now).

(** One sweep of the background loop ([Pinner.Run]). *)
Definition sweep (now : Z) (e : Enforcer F) : Enforcer F * bool :=
  let '(p, ok) := Sweep now (en_pinner e) in (with_pinner e p, ok).
End Enforcer.

(** ** The running enforcer: operations in any order, at any time *)

Section Steps.
Context `{DNSLib} `{Programmer F}.

Inductive step : Enforcer F * list Event -> Enforcer F * list Event -> Prop :=
| st_configure b spec ip rules e log :
    step (e, log) (fst (Configure b spec ip rules e), log)
| st_policy b policy e log :
    step (e, log) (SetNetworkPolicy b policy e, log)
| st_release b e log :
    step (e, log) (fst (Release b e), log)
| st_sweep now e log :
    step (e, log) (fst (sweep now e), log)
| st_query now upstream ip r e log :
    step (e, log) (fst (Handle (server now upstream) e log ip r)).

Definition reachable (prog : F) : Enforcer F * list Event -> Prop := rtc step (New prog, []).
End Steps.

(** A firewall whose operations always succeed. *)
Class Reliable (F : Type) `{Programmer F} := {
  Allow_reliable b ip f : snd (Allow b ip f) = true;
  Revoke_reliable b ip f : snd (Revoke b ip f) = true;
  Teardown_reliable b f : snd (Teardown b f) = true;
}.

#[export] Instance Recording_Reliable : Reliable RecordingProgrammer.
Proof.
  split; simpl; [done| |done]. intros b ip f. unfold Recording_Revoke.
  by destruct (rp_boxes f !! b).
Qed.

(** ** Lemmas *)

(** An allowed lookup recorded for the box that returned the address. *)
Definition audited (log : list Event) (k : pinKey) : Prop :=
  exists ev, ev ∈ log /\ ev_BoxID ev = k.1 /\ ev_Verdict ev = VerdictAllowed /\ k.2 ∈ ev_IPs ev.

Lemma audited_app log l k : audited log k -> audited (log ++ l) k.
Proof. intros (ev & Hin & ?). exists ev. set_solver. Qed.

(** The invariant of the running enforcer over a reliable firewall. *)
Definition enforced `{Programmer F} (st : Enforcer F * list Event) : Prop :=
  tracked (en_pinner st.1) /\ forall k, is_open (en_prog st.1) k = true -> audited st.2 k.

Section Invariant.
Context `{DNSLib} `{Programmer F, !ProgrammerLaws F}.
Implicit Types (e : Enforcer F).

(** The pin loop opens only addresses of the answer and keeps the rest of the
    enforcer's state. *)
Lemma pin_all_spec now b ttl ips e e' ok upstream :
  pin_answers (server now upstream) b ttl ips e = (e', ok) ->
  tracked (en_pinner e) ->
  tracked (en_pinner e') /\
  (en_policy e' = en_policy e /\ en_boxes e' = en_boxes e /\ en_guestIPs e' = en_guestIPs e) /\
  (forall k, is_open (en_prog e') k = true -> is_open (en_prog e) k = true \/ (k.1 = b /\ k.2 ∈ ips)) /\
  (ok = true -> forall ip, ip ∈ ips -> pn_pins (en_pinner e') !! (b, ip) = Some (now + ttl)) /\
  (forall k, k ∉ ((fun ip => (b, ip)) <$> ips) -> pn_pins (en_pinner e') !! k = pn_pins (en_pinner e) !! k).
Proof.
  unfold pin_answers; simpl. revert e. induction ips as [|ip ips IH]; intros e; simpl.
  { intros [= <- <-] Ht. split_and!; auto. set_solver. }
  destruct (Pin now (en_pinner e) b ip ttl) as [p okp] eqn:Hp. intros Hall Ht.
  pose proof (Pin_tracked _ _ _ _ _ _ _ Ht Hp) as Htp.
  pose proof (Pin_open _ _ _ _ _ _ _ Hp) as Hop.
  assert (Hpins : forall k, k <> (b, ip) -> pn_pins p !! k = pn_pins (en_pinner e) !! k).
  { intros k Hk. destruct (pn_pins (en_pinner e) !! (b, ip)) as [d|] eqn:Hd.
    - erewrite Pin_refresh in Hp by done. simplify_eq/=. by rewrite lookup_insert_ne.
    - destruct (Pin_new _ _ _ _ _ _ _ Hd Hp) as (f & _ & _ & ->).
      destruct okp; [by rewrite lookup_insert_ne|done]. }
  assert (Hpin : okp = true -> pn_pins p !! (b, ip) = Some (now + ttl)).
  { intros ->. destruct (pn_pins (en_pinner e) !! (b, ip)) as [d|] eqn:Hd.
    - erewrite Pin_refresh in Hp by done. simplify_eq/=. apply lookup_insert_eq.
    - destruct (Pin_new _ _ _ _ _ _ _ Hd Hp) as (f & _ & _ & ->). apply lookup_insert_eq. }
  destruct okp.
  - destruct (IH (with_pinner e p) Hall Htp) as (Ht' & Hrest & Ho' & Hok' & Hne').
    split_and!; [done|naive_solver|naive_solver|naive_solver| | |].
    + intros k Hk. destruct (Ho' k Hk) as [Hk'|[??]]; [|set_solver].
      destruct (Hop k Hk') as [?|[_ ->]]; [by left|]. right. set_solver.
    + intros -> ip' Hip'. destruct (decide (ip' ∈ ips)); [auto|].
      assert (ip' = ip) as -> by set_solver. rewrite Hne' by set_solver. auto.
    + intros k Hk. rewrite Hne' by set_solver. apply Hpins. set_solver.
  - simplify_eq. split_and!; [done|done|done|done| |done|].
    + intros k Hk. left. destruct (Hop k Hk) as [?|[? _]]; done.
    + intros k Hk. apply Hpins. set_solver.
Qed.
End Invariant.

(** ** Where open addresses come from *)

Section Provenance.
Context `{DNSLib} `{Programmer F, !ProgrammerLaws F}.
Implicit Types (e : Enforcer F) (st : Enforcer F * list Event).

(** On a run from [prog] that reaches [st], a query of the box was allowed and
    resolved to the address. *)
Definition looked_up (prog : F) st (k : pinKey) : Prop :=
  exists e0 log0 now upstream src r resp name ttl,
    reachable prog (e0, log0) /\
    rtc step (fst (Handle (server now upstream) e0 log0 src r)) st /\
    MapBoxes_Box (en_boxes e0) src = Some k.1 /\
    q_Name <$> head (msg_Question r) = Some name /\
    StaticPolicy_Allowed (en_policy e0) k.1 name = Some ttl /\
    upstream r = Some resp /\ resolves_to resp k.2.

Lemma looked_up_step prog st st' k : step st st' -> looked_up prog st k -> looked_up prog st' k.
Proof.
  intros Hst (e0 & log0 & now & up & src & r & resp & name & ttl & Hr & Hs & Hrest).
  exists e0, log0, now, up, src, r, resp, name, ttl. split; [done|]. split; [by eapply rtc_r|done].
Qed.

(** The pin loop opens nothing but addresses it was given. *)
Lemma pin_answers_open now upstream b ttl ips e e' ok :
  pin_answers (server now upstream) b ttl ips e = (e', ok) ->
  forall k, is_open (en_prog e') k = true -> is_open (en_prog e) k = true \/ (k.1 = b /\ k.2 ∈ ips).
Proof.
  unfold pin_answers; simpl. revert e. induction ips as [|ip ips IH]; intros e; simpl; [intros [= <- _]; by left|].
  destruct (Pin now (en_pinner e) b ip ttl) as [p okp] eqn:Hp. pose proof (Pin_open _ _ _ _ _ _ _ Hp) as Hop. destruct okp.
  - intros Hall k Hk. destruct (IH _ Hall k Hk) as [Hk'|[??]]; [|set_solver].
    destruct (Hop k Hk') as [?|[_ ->]]; [by left|set_solver].
  - intros [= <- _] k Hk. left. by destruct (Hop k Hk) as [?|[? _]].
Qed.

Lemma Handle_open now upstream src r e log k :
  is_open (en_prog (fst (Handle (server now upstream) e log src r)).1) k = true ->
  is_open (en_prog e) k = true \/
  exists resp name ttl, MapBoxes_Box (en_boxes e) src = Some k.1 /\ q_Name <$> head (msg_Question r) = Some name /\
    StaticPolicy_Allowed (en_policy e) k.1 name = Some ttl /\ upstream r = Some resp /\ resolves_to resp k.2.
Proof.
  unfold Handle. destruct (msg_Question r) as [|q qs]; [by left|].
  destruct (srv_boxes _ e src) as [b|] eqn:Hb; [|by left].
  destruct (srv_policy _ e b (q_Name q)) as [ttl|] eqn:Hp; [|by left].
  destruct (srv_resolver _ e r) as [resp|] eqn:Hr; [|by left].
  destruct (pin_answers _ b ttl (answerIPs resp) e) as [e' ok] eqn:Hpin. intros Hk.
  assert (Hk' : is_open (en_prog e') k = true) by by destruct ok.
  destruct (pin_answers_open _ _ _ _ _ _ _ _ Hpin k Hk') as [?|[Hkb Hin]]; [by left|right].
  exists resp, (q_Name q), ttl. rewrite Hkb. split_and!; try done. by apply elem_of_answerIPs.
Qed.

Lemma step_open st st' k : step st st' -> is_open (en_prog st'.1) k = true ->
  is_open (en_prog st.1) k = true \/
  exists now upstream src r, st' = fst (Handle (server now upstream) st.1 st.2 src r).
Proof.
  destruct k as [b' ip']. unfold is_open; simpl. destruct 1 as [b spec ip rules e log|b policy e log|b e log|now e log|now up ip r e log]; simpl; [..|by eauto 10].
  - unfold Configure. destruct (Baseline b spec (en_prog e)) as [f ok] eqn:Hb. intros Hk. left.
    eapply (Baseline_mono _ _ _ _ _ Hb). by destruct ok.
  - by left.
  - unfold Release. simpl. destruct (Teardown b (pn_prog (en_pinner e))) as [f ok] eqn:Hd. intros Hk. left. destruct ok.
    + by apply (Teardown_ok _ _ _ Hd) in Hk as [_ Hk].
    + by apply (Teardown_err _ _ _ Hd).
  - unfold sweep. destruct (Sweep now (en_pinner e)) as [p ok] eqn:Hs. intros Hk. left.
    by apply (proj1 (Sweep_open _ _ _ _ Hs) (b', ip')).
Qed.

Lemma opened_by_lookup (prog : F) :
  (forall b ip, opened prog b ip = false) -> forall st, reachable prog st ->
  forall k, is_open (en_prog st.1) k = true -> looked_up prog st k.
Proof.
  intros Hinit st Hreach.
  apply (rtc_ind_r (R := step) (fun st => forall k, is_open (en_prog st.1) k = true -> looked_up prog st k) (New prog, [])); [| |exact Hreach].
  { intros [b ip] Hk. unfold is_open in Hk. simpl in Hk. by rewrite Hinit in Hk. }
  clear st Hreach. intros st st' Hr Hst IH k Hk. destruct (step_open _ _ _ Hst Hk) as [Hk'|(now & up & src & r & ->)]; [by eapply looked_up_step, IH|].
  destruct st as [e log]. destruct (Handle_open _ _ _ _ _ _ _ Hk) as [Hk'|(resp & name & ttl & Hrest)]; [by eapply looked_up_step, IH|].
  exists e, log, now, up, src, r, resp, name, ttl. split; [done|]. split; [apply rtc_refl|done].
Qed.
End Provenance.

Section ReliableInvariant.
Context `{DNSLib} `{Programmer F, !ProgrammerLaws F, !Reliable F}.
Implicit Types (e : Enforcer F).

Lemma Pin_reliable now p b ip ttl : snd (Pin now p b ip ttl) = true.
Proof.
  unfold Pin. case_bool_decide; [done|].
  pose proof (Allow_reliable b ip (pn_prog p)) as Ha. by destruct (Allow _ _ _) as [f []].
Qed.

Lemma pin_answers_reliable now upstream b ttl ips e :
  snd (pin_answers (server now upstream) b ttl ips e) = true.
Proof.
  unfold pin_answers; simpl. revert e. induction ips as [|ip ips IH]; intros e; simpl; [done|].
  pose proof (Pin_reliable now (en_pinner e) b ip ttl) as Hr.
  destruct (Pin _ _ _ _ _) as [p ok]; simpl in Hr; subst. apply IH.
Qed.

Lemma revoke_all_reliable ks (f : F) : snd (revoke_all ks f) = true.
Proof.
  revert f. induction ks as [|k ks IH]; intros f; simpl; [done|].
  pose proof (Revoke_reliable k.1 k.2 f) as Hr. destruct (Revoke _ _ _) as [f1 ok1].
  specialize (IH f1). destruct (revoke_all ks f1) as [f2 ok2]. simpl in *. by subst.
Qed.

Lemma Sweep_reliable now (p : Pinner F) : snd (Sweep now p) = true.
Proof.
  unfold Sweep. pose proof (revoke_all_reliable
    (merge_sort pinKey_le (map_to_list (expired_pins now p)).*1) (pn_prog p)) as Hr.
  by destruct (revoke_all _ _).
Qed.

Lemma Configure_enforced b spec ip rules e log :
  enforced (e, log) -> enforced (fst (Configure b spec ip rules e), log).
Proof.
  intros [Ht Ha]. unfold Configure. destruct (Baseline b spec (en_prog e)) as [f ok] eqn:Hb.
  pose proof (Baseline_mono _ _ _ _ _ Hb) as Hm.
  assert (Hmono : forall k, is_open f k = true -> is_open (en_prog e) k = true).
  { intros [b' ip']. unfold is_open; simpl. apply Hm. }
  destruct ok; (split; [intros k Hk; apply Ht, Hmono, Hk|intros k Hk; apply Ha, Hmono, Hk]).
Qed.

Lemma Release_enforced b e log : enforced (e, log) -> enforced (fst (Release b e), log).
Proof.
  intros [Ht Ha]. unfold Release. simpl. destruct (Teardown b (pn_prog (en_pinner e))) as [f ok] eqn:Hd.
  pose proof (Teardown_reliable b (pn_prog (en_pinner e))) as Hr. rewrite Hd in Hr. simpl in Hr; subst.
  split.
  - simpl. exact (Forget_Teardown_tracked _ _ _ Ht Hd).
  - intros [b' ip'] Hk. unfold is_open in Hk; simpl in Hk.
    apply (Teardown_ok _ _ _ Hd) in Hk as [_ Hk]. by apply (Ha (b', ip')).
Qed.

Lemma sweep_enforced now e log : enforced (e, log) -> enforced (fst (sweep now e), log).
Proof.
  intros [Ht Ha]. unfold sweep. pose proof (Sweep_reliable now (en_pinner e)) as Hr.
  destruct (Sweep now (en_pinner e)) as [p ok] eqn:Hs. simpl in *; subst. split.
  - exact (Sweep_tracked _ _ _ Ht Hs).
  - intros k Hk. apply Ha. by apply (Sweep_open _ _ _ _ Hs).
Qed.

Lemma Handle_enforced now upstream ip r e log :
  enforced (e, log) -> enforced (fst (Handle (server now upstream) e log ip r)).
Proof.
  intros [Ht Ha]. unfold Handle, record. simpl in Ht, Ha.
  assert (Hlog : forall l, enforced (e, log ++ l)).
  { intros l. split; [done|]. intros k Hk. apply audited_app. by apply Ha. }
  destruct (msg_Question r) as [|q qs]; [by split|].
  destruct (srv_boxes _ e ip) as [b|]; [|apply Hlog].
  destruct (srv_policy _ e b (q_Name q)) as [ttl|]; [|apply Hlog].
  destruct (srv_resolver _ e r) as [resp|]; [|apply Hlog].
  pose proof (pin_answers_reliable now upstream b ttl (answerIPs resp) e) as Hrel.
  destruct (pin_answers _ b ttl (answerIPs resp) e) as [e' ok] eqn:Hp. simpl in Hrel; subst.
  destruct (pin_all_spec _ _ _ _ _ _ _ _ Hp Ht) as (Ht' & _ & Ho & _).
  split; [exact Ht'|]. intros k Hk. simpl in Hk. destruct (Ho k Hk) as [Hk'|[Hb Hip]].
  - apply audited_app. by apply Ha.
  - eexists. split; [apply elem_of_app; right; by left|]. simpl. auto.
Qed.

Lemma step_enforced st st' : step st st' -> enforced st -> enforced st'.
Proof.
  destruct 1; intros He.
  - by apply Configure_enforced.
  - destruct He. by split.
  - by apply Release_enforced.
  - by apply sweep_enforced.
  - by apply Handle_enforced.
Qed.
End ReliableInvariant.

(** ** Theorems *)

Section Theorems.
Context `{DNSLib} `{Programmer F, !ProgrammerLaws F}.
Implicit Types (e : Enforcer F).

(** C1: deny by default, end to end.  Starting from a firewall with nothing open
    and for every sequence of box starts, policy pushes, releases, sweeps and
    DNS queries, firewall calls that fail included, an address is open for a box
    only if earlier on this run that very box looked up a name its policy allowed
    at that moment and the upstream's answer held the address.  On a firewall
    whose allow, revoke and teardown calls never fail ([Reliable]), there is also
    an audit event that says so, and the address is tracked by a pin, so that the
    sweeper will close it; without that both can be missing. *)
Theorem open_only_after_allowed_lookup (prog : F) e log b ip :
  (forall b ip, opened prog b ip = false) ->
  reachable prog (e, log) ->
  opened (en_prog e) b ip = true ->
  (exists e0 log0 now upstream src r resp name ttl,
     reachable prog (e0, log0) /\
     rtc step (fst (Handle (server now upstream) e0 log0 src r)) (e, log) /\
     MapBoxes_Box (en_boxes e0) src = Some b /\
     q_Name <$> head (msg_Question r) = Some name /\
     StaticPolicy_Allowed (en_policy e0) b name = Some ttl /\
     upstream r = Some resp /\ resolves_to resp ip) /\
  (Reliable F ->
     is_Some (pn_pins (en_pinner e) !! (b, ip)) /\
     exists ev, ev ∈ log /\ ev_BoxID ev = b /\ ev_Verdict ev = VerdictAllowed /\ ip ∈ ev_IPs ev).
Proof.
  intros Hinit Hreach Hopen. split; [exact (opened_by_lookup prog Hinit (e, log) Hreach (b, ip) Hopen)|]. intros Hrel.
  assert (He : enforced (e, log)).
  { eapply (rtc_ind_r enforced); [|intros; by eapply step_enforced|exact Hreach].
    split; intros [b' ip'] Hk; unfold is_open in Hk; simpl in Hk; by rewrite Hinit in Hk. }
  destruct He as [Ht Ha]. split; [exact (Ht (b, ip) Hopen)|exact (Ha (b, ip) Hopen)].
Qed.

(** releasing a box closes everything it had.  After a successful [Release]
    no address is open or pinned for the box, every name is denied to it, its
    last configured guest address is no longer mapped to a box; the addresses
    open for other boxes and their policies are unchanged. *)
Theorem Release_spec b e e' :
  Release b e = (e', true) ->
  (forall ip, opened (en_prog e') b ip = false /\ pn_pins (en_pinner e') !! (b, ip) = None) /\
  (forall q, StaticPolicy_Allowed (en_policy e') b q = None) /\
  (forall ip, en_guestIPs e !! b = Some ip -> MapBoxes_Box (en_boxes e') ip = None) /\
  (forall b' ip q, b' <> b ->
     opened (en_prog e') b' ip = opened (en_prog e) b' ip /\
     pn_pins (en_pinner e') !! (b', ip) = pn_pins (en_pinner e) !! (b', ip) /\
     StaticPolicy_Allowed (en_policy e') b' q = StaticPolicy_Allowed (en_policy e) b' q).
Proof.
  unfold Release. simpl. destruct (Teardown b (pn_prog (en_pinner e))) as [f ok] eqn:Hd.
  intros [= <- ->]. pose proof (Teardown_ok _ _ _ Hd) as Htd. unfold en_prog; simpl.
  split_and!.
  - intros ip. split.
    + apply not_true_is_false. rewrite Htd. by intros [? _].
    + apply map_lookup_filter_None. right. intros d _ Hne. by apply Hne.
  - intros q. rewrite Allowed_Remove. by case_decide.
  - intros ip ->. unfold MapBoxes_Box; simpl. apply lookup_delete_eq.
  - intros b' ip q Hne. split_and!.
    + apply Bool.eq_true_iff_eq. rewrite Htd. naive_solver.
    + apply option_eq. intros d. rewrite map_lookup_filter_Some. naive_solver.
    + rewrite Allowed_Remove. by rewrite decide_False by congruence.
Qed.

(** a policy push takes effect at once and only for its box.  After
    [SetNetworkPolicy] a name is allowed to the box exactly when the policy is
    enabled and one of its patterns matches, with the TTL of the first such rule
    in nanoseconds as an int64; other boxes, the source map, the pins and the firewall are
    untouched. *)
Theorem SetNetworkPolicy_spec b policy e b' q :
  let e' := SetNetworkPolicy b policy e in
  StaticPolicy_Allowed (en_policy e') b q =
    (if np_Enabled policy then
       (fun r => int64 (dr_TTLSeconds r * Second)) <$>
         first_match (fun r => matchDomain (dr_Pattern r) (normalizeName q)) (np_Rules policy)
     else None) /\
  (b' = b \/ StaticPolicy_Allowed (en_policy e') b' q = StaticPolicy_Allowed (en_policy e) b' q) /\
  en_pinner e' = en_pinner e /\ en_boxes e' = en_boxes e /\ en_guestIPs e' = en_guestIPs e.
Proof.
  simpl. rewrite Allowed_Set. unfold rulesFromPolicy. split_and!; try done.
  - destruct (np_Enabled policy); [|done].
    induction (np_Rules policy) as [|r rs IH]; simpl; [done|]. by destruct (matchDomain _ _).
  - destruct (decide (b = b')); [by left|right; by apply Allowed_Set_ne].
Qed.
End Theorems.

(** ** A concrete run *)

Definition demo_spec : BoxSpec := MkBoxSpec (MkPrefix (Addr4 2886729728) 30) (Addr4 2886729729).
Definition demo_guest : Addr := Addr4 2886729730.
Definition demo_policy_push : NetworkPolicy :=
  MkNetworkPolicy true [MkDomainRule "*.github.com" 30; MkDomainRule "pypi.org" 60].

Definition demo_e0 : Enforcer RecordingProgrammer := New NewRecordingProgrammer.
Definition demo_e1 : Enforcer RecordingProgrammer :=
  fst (Configure "box-a" demo_spec demo_guest [] demo_e0).
Definition demo_e2 : Enforcer RecordingProgrammer :=
  SetNetworkPolicy "box-a" demo_policy_push demo_e1.
Definition demo_run : Enforcer RecordingProgrammer * list Event :=
  fst (Handle (H := plain_DNSLib) (server 1000 (fun _ => Some demo_answer)) demo_e2 [] demo_guest
         (demo_query "api.github.com.")).

Lemma demo_reachable : reachable (H := plain_DNSLib) NewRecordingProgrammer demo_run.
Proof.
  eapply rtc_l; [exact (st_configure (H := plain_DNSLib) "box-a" demo_spec demo_guest [] demo_e0 [])|].
  eapply rtc_l; [exact (st_policy (H := plain_DNSLib) "box-a" demo_policy_push demo_e1 [])|].
  eapply rtc_l; [exact (st_query (H := plain_DNSLib) 1000 (fun _ => Some demo_answer) demo_guest
    (demo_query "api.github.com.") demo_e2 [])|].
  apply rtc_refl.
Qed.

Lemma open_only_after_allowed_lookup_witness :
  opened (en_prog demo_run.1) "box-a" (Addr4 2354212867) = true /\
  exists ev, ev ∈ demo_run.2 /\ ev_BoxID ev = "box-a" /\ ev_Verdict ev = VerdictAllowed /\
    Addr4 2354212867 ∈ ev_IPs ev.
Proof.
  assert (Ho : opened (en_prog demo_run.1) "box-a" (Addr4 2354212867) = true) by (vm_compute; reflexivity).
  split; [exact Ho|].
  destruct (open_only_after_allowed_lookup (H := plain_DNSLib) NewRecordingProgrammer
    demo_run.1 demo_run.2 "box-a" (Addr4 2354212867)) as [_ Hrel].
  - intros b ip. reflexivity.
  - exact demo_reachable.
  - exact Ho.
  - exact (proj2 (Hrel _)).
Defined.

Lemma Release_spec_witness :
  opened (en_prog (fst (Release "box-a" demo_run.1))) "box-a" (Addr4 2354212867) = false.
Proof.
  assert (Hr : Release "box-a" demo_run.1 = (fst (Release "box-a" demo_run.1), true))
    by (vm_compute; reflexivity).
  apply (Release_spec "box-a" demo_run.1 _ Hr).
Defined.

(** ** Behaviours worth knowing *)

(** A firewall that can hold one address per box: a second [Allow] fails. *)
Definition capped_Programmer : Programmer RecordingProgrammer := {|
  Baseline := Recording_Baseline;
  Allow b ip r :=
    match rp_boxes r !! b with
    | Some st => if decide (st_allow st = ∅) then Recording_Allow b ip r else (r, false)
    | None => Recording_Allow b ip r
    end;
  Revoke := Recording_Revoke;
  Teardown := Recording_Teardown;
  opened := Recording_Allowed;
|}.

Definition two_addresses : Msg := MkMsg 7 0 [] [RR_A [10; 0; 0; 1]; RR_A [10; 0; 0; 2]].

(** a lookup whose second address cannot be opened is answered SERVFAIL and
    audited as an error without addresses, yet its first address stays open and
    pinned in the firewall. *)
Theorem pin_failure_leaves_first_open :
  let e := SetNetworkPolicy "box-a" demo_policy_push
    (fst (Configure (H := capped_Programmer) "box-a" demo_spec demo_guest [] (New NewRecordingProgrammer))) in
  let '(e', log, m) := Handle (H := plain_DNSLib)
    (server (H := capped_Programmer) 1000 (fun _ => Some two_addresses)) e [] demo_guest
    (demo_query "pypi.org.") in
  msg_Rcode m = RcodeServerFailure /\ msg_Answer m = [] /\
  log = [MkEvent "box-a" "pypi.org." 1 VerdictError [] 1000] /\
  opened (Programmer := capped_Programmer) (en_prog e') "box-a" (Addr4 167772161) = true /\
  pn_pins (en_pinner e') !! ("box-a", Addr4 167772161) = Some (1000 + 60 * Second).
Proof. by vm_compute. Qed.

(** configuring a box a second time over the recording programmer, whose
    [Baseline] resets the allow set, leaves the pins in place: the next allowed
    lookup is answered and audited as allowed while its address stays closed. *)
Theorem reconfigure_closes_pinned :
  let e := fst (Configure "box-a" demo_spec demo_guest
    (rulesFromPolicy demo_policy_push) demo_run.1) in
  let '(e', log, m) := Handle (H := plain_DNSLib) (server 2000 (fun _ => Some demo_answer)) e [] demo_guest
    (demo_query "api.github.com.") in
  msg_Answer m = msg_Answer demo_answer /\
  (ev_Verdict <$> log) = [VerdictAllowed] /\ (ev_IPs <$> log) = [[Addr4 2354212867]] /\
  opened (en_prog e') "box-a" (Addr4 2354212867) = false.
Proof. by vm_compute. Qed.
