(* ===== verification/Store.v ===== *)
(** * The hub's SQLite store (internal/hub/store)

    Each table is a finite map from its primary key to its row (a set of key
    pairs for the two link tables); each store method is the statement it
    executes.  [INSERT ... ON CONFLICT DO UPDATE] is map insertion,
    [DELETE ... RETURNING] is lookup and delete in one step.  A row lists in no
    particular order unless the query has an [ORDER BY]; [map_to_list] stands
    for that order.  Failures of the database engine (I/O errors) are not
    modelled; a constraint violation is. *)

From S2P Require Import Prelude GoStrings.

Local Open Scope Z_scope.

(** ** Timestamps

    [encodeTime] renders an instant (UTC) as RFC 3339 with nanoseconds, trailing
    zeros of the fraction removed. *)

(** Decimal with at least [w] digits. *)
Fixpoint pad_digits (w : nat) (n : Z) (acc : string) : string :=
  match w with
  | O => acc
  | S w' => pad_digits w' (n / 10) (String (digit_byte (n mod 10)) acc)
  end.

(** Proleptic Gregorian date of a day count from 1970-01-01. *)
Definition civil_from_days (z0 : Z) : Z * Z * Z :=
  let z := z0 + 719468 in
  let era := z / 146097 in
  let doe := z - era * 146097 in
  let yoe := (doe - doe / 1460 + doe / 36524 - doe / 146096) / 365 in
  let doy := doe - (365 * yoe + yoe / 4 - yoe / 100) in
  let mp := (5 * doy + 2) / 153 in
  let d := doy - (153 * mp + 2) / 5 + 1 in
  let m := if mp <? 10 then mp + 3 else mp - 9 in
  let y := yoe + era * 400 + (if m <=? 2 then 1 else 0) in
  (y, m, d).

Definition nanos_fraction (ns : Z) : string :=
  if Z.eqb ns 0 then ""
  else String "." (drop_end_while (Ascii.eqb "0") (pad_digits 9 ns "")).

Definition encodeTime (t : Z) : string :=
  let secs := t / Second in
  let '(y, m, d) := civil_from_days (secs / 86400) in
  let r := secs mod 86400 in
  pad_digits 4 y "" +:+ "-" +:+ pad_digits 2 m "" +:+ "-" +:+ pad_digits 2 d "" +:+ "T" +:+
  pad_digits 2 (r / 3600) "" +:+ ":" +:+ pad_digits 2 (r / 60 mod 60) "" +:+ ":" +:+
  pad_digits 2 (r mod 60) "" +:+ nanos_fraction (t mod Second) +:+ "Z".

Example encodeTime_epoch : encodeTime 0 = "1970-01-01T00:00:00Z".
Proof. reflexivity. Qed.
Example encodeTime_frac :
  encodeTime (1709210096 * Second + 120000000) = "2024-02-29T12:34:56.12Z".
Proof. reflexivity. Qed.

(** ** Box registry *)

Inductive Lifecycle := LifecycleRunning | LifecycleTerminated.

#[export] Instance Lifecycle_eq_dec : EqDecision Lifecycle.
Proof. solve_decision. Defined.

(** [store.Box]; the zero [ObservedAt] (never observed) is [None], and so is a
    nil hook state. *)
Record BoxRow := MkBoxRow {
  br_Token : string;
  br_InstanceID : string;
  br_BoxID : string;
  br_Spoke : string;
  br_Description : string;
  br_Status : string;
  br_LastError : string;
  br_HookState : option (gmap string string);
  br_Lifecycle : Lifecycle;
  br_CreatedAt : Z;
  br_ObservedName : string;
  br_ObservedImage : string;
  br_ObservedState : string;
  br_ObservedAt : option Z;
}.

Abbreviation BoxTable := (gmap string BoxRow).

Definition PutBox (b : BoxRow) (t : BoxTable) : BoxTable := <[br_Token b := b]> t.
Definition DeleteBox (token : string) (t : BoxTable) : BoxTable := delete token t.
Definition ListBoxes (t : BoxTable) : list BoxRow := (map_to_list t).*2.

(** ** Sign-in state *)

Record IdentitySession := MkIdentitySession {
  is_Email : string;
  is_Provider : string;
  is_CSRFToken : string;
  is_ExpiresAt : Z;
  is_CanAdmin : bool;
}.

Record OIDCFlow := MkOIDCFlow {
  of_Provider : string;
  of_ReturnTo : string;
  of_Nonce : string;
  of_PKCEVerifier : string;
  of_ExpiresAt : Z;
}.

Record IdentityDB := MkIdentityDB {
  id_sessions : gmap string IdentitySession;
  id_flows : gmap string OIDCFlow;
}.

Definition PutOIDCFlow (state : string) (f : OIDCFlow) (db : IdentityDB) : IdentityDB :=
  MkIdentityDB (id_sessions db) (<[state := f]> (id_flows db)).
Definition TakeOIDCFlow (state : string) (db : IdentityDB) : IdentityDB * option OIDCFlow :=
  (MkIdentityDB (id_sessions db) (delete state (id_flows db)), id_flows db !! state).
Definition PutIdentitySession (id : string) (s : IdentitySession) (db : IdentityDB) : IdentityDB :=
  MkIdentityDB (<[id := s]> (id_sessions db)) (id_flows db).
Definition GetIdentitySession (id : string) (db : IdentityDB) : option IdentitySession :=
  id_sessions db !! id.
Definition DeleteIdentitySession (id : string) (db : IdentityDB) : IdentityDB :=
  MkIdentityDB (delete id (id_sessions db)) (id_flows db).

(** [DELETE ... WHERE expires_at < ?] compares the stored texts. *)
Definition PurgeExpiredIdentities (now : Z) (db : IdentityDB) : IdentityDB :=
  let cutoff := encodeTime now in
  MkIdentityDB
    (filter (fun kv => String.ltb (encodeTime (is_ExpiresAt kv.2)) cutoff = false) (id_sessions db))
    (filter (fun kv => String.ltb (encodeTime (of_ExpiresAt kv.2)) cutoff = false) (id_flows db)).

(** ** Proxies, settings, API keys *)

Record ProxyRecord := MkProxyRecord {
  pr_Slug : string;
  pr_BoxID : string;
  pr_InstanceID : string;
  pr_Port : Z;
  pr_Spoke : string;
  pr_CreatedAt : Z;
  pr_Owner : string;
  pr_Description : string;
}.

#[export] Instance ProxyRecord_eq_dec : EqDecision ProxyRecord.
Proof. solve_decision. Defined.

Definition SaveProxy (rec : ProxyRecord) (t : gmap string ProxyRecord) : gmap string ProxyRecord :=
  <[pr_Slug rec := rec]> t.
Definition GetProxy (slug : string) (t : gmap string ProxyRecord) : option ProxyRecord := t !! slug.
Definition ListProxies (t : gmap string ProxyRecord) : list ProxyRecord := (map_to_list t).*2.
Definition DeleteProxy (slug : string) (t : gmap string ProxyRecord) : gmap string ProxyRecord :=
  delete slug t.

Definition PutSetting (key value : string) (t : gmap string string) : gmap string string :=
  <[key := value]> t.
Definition GetSetting (key : string) (t : gmap string string) : option string := t !! key.

Record APIKeyRecord := MkAPIKeyRecord {
  ak_Name : string;
  ak_CreatedAt : Z;
  ak_ExpiresAt : Z;
}.

Definition PutAPIKey (hash : string) (rec : APIKeyRecord) (t : gmap string APIKeyRecord) :
    gmap string APIKeyRecord := <[hash := rec]> t.
Definition GetAPIKey (hash : string) (t : gmap string APIKeyRecord) : option APIKeyRecord := t !! hash.
Definition ListAPIKeys (t : gmap string APIKeyRecord) : list (string * APIKeyRecord) := map_to_list t.
Definition DeleteAPIKey (hash : string) (t : gmap string APIKeyRecord) : gmap string APIKeyRecord :=
  delete hash t.

(** ** Network allowlist *)

Record AllowlistGroup := MkGroup {
  ag_ID : string;
  ag_Name : string;
  ag_Description : string;
  ag_TTLSeconds : Z;
  ag_IsGlobal : bool;
  ag_Domains : list string;
  ag_CreatedAt : Z;
  ag_UpdatedAt : Z;
}.

#[export] Instance AllowlistGroup_eq_dec : EqDecision AllowlistGroup.
Proof. solve_decision. Defined.

(** A row of [allowlist_groups]: the group without its domains. *)
Record GroupRow := MkGroupRow {
  gr_name : string;
  gr_description : string;
  gr_ttl_seconds : Z;
  gr_is_global : bool;
  gr_created_at : Z;
  gr_updated_at : Z;
}.

Record AllowlistDB := MkAllowlistDB {
  al_groups : gmap string GroupRow;
  al_domains : gset (string * string);
  al_box_groups : gset (string * string);
}.

Definition emptyAllowlistDB : AllowlistDB := MkAllowlistDB ∅ ∅ ∅.

(** Is the name taken by a row with another id?  ([name TEXT NOT NULL UNIQUE]) *)
Definition name_taken (id name : string) (db : AllowlistDB) : bool :=
  bool_decide (Exists (fun kv => kv.1 <> id /\ gr_name kv.2 = name) (map_to_list (al_groups db))).

(** The transaction: upsert the row (keeping [created_at] of an existing one),
    clear the group's domains, insert the new set; a violated UNIQUE constraint
    rolls everything back. *)
Definition SaveAllowlistGroup (g : AllowlistGroup) (db : AllowlistDB) : option AllowlistDB :=
  if name_taken (ag_ID g) (ag_Name g) db then None
  else
    let created :=
      match al_groups db !! ag_ID g with
      | Some row => gr_created_at row
      | None => ag_CreatedAt g
      end in
    let row := MkGroupRow (ag_Name g) (ag_Description g) (ag_TTLSeconds g) (ag_IsGlobal g)
      created (ag_UpdatedAt g) in
    Some (MkAllowlistDB (<[ag_ID g := row]> (al_groups db))
      (filter (fun kd => kd.1 <> ag_ID g) (al_domains db) ∪ list_to_set ((fun d => (ag_ID g, d)) <$> ag_Domains g))
      (al_box_groups db)).

Definition domainsFor (id : string) (db : AllowlistDB) : list string :=
  sort_strings ((elements (filter (fun kd => kd.1 = id) (al_domains db))).*2).

Definition scanAllowlistGroup (id : string) (row : GroupRow) (domains : list string) : AllowlistGroup :=
  MkGroup id (gr_name row) (gr_description row) (gr_ttl_seconds row) (gr_is_global row)
    domains (gr_created_at row) (gr_updated_at row).

Definition GetAllowlistGroup (id : string) (db : AllowlistDB) : option AllowlistGroup :=
  match al_groups db !! id with
  | Some row => Some (scanAllowlistGroup id row (domainsFor id db))
  | None => None
  end.

(** [ORDER BY name]. *)
Definition row_le (a b : string * GroupRow) : Prop := String.le (gr_name a.2) (gr_name b.2).

Definition ListAllowlistGroups (db : AllowlistDB) : list AllowlistGroup :=
  (fun kv => scanAllowlistGroup kv.1 kv.2 (domainsFor kv.1 db)) <$>
    merge_sort row_le (map_to_list (al_groups db)).

Definition DeleteAllowlistGroup (id : string) (db : AllowlistDB) : AllowlistDB :=
  MkAllowlistDB (delete id (al_groups db))
    (filter (fun kd => kd.1 <> id) (al_domains db))
    (filter (fun bg => bg.2 <> id) (al_box_groups db)).

Definition SetBoxGroups (boxID : string) (groupIDs : list string) (db : AllowlistDB) : AllowlistDB :=
  MkAllowlistDB (al_groups db) (al_domains db)
    (filter (fun bg => bg.1 <> boxID) (al_box_groups db) ∪ list_to_set ((fun g => (boxID, g)) <$> groupIDs)).

Definition GetBoxGroups (boxID : string) (db : AllowlistDB) : list string :=
  sort_strings ((elements (filter (fun bg => bg.1 = boxID) (al_box_groups db))).*2).

(** How many boxes assign each group: what [ListBoxGroups] is read for. *)
Definition ListBoxGroups (db : AllowlistDB) : list (string * string) := elements (al_box_groups db).

(** ** DNS audit *)

Record AuditRow := MkAuditRow { au_hits : Z; au_first_seen : Z; au_last_seen : Z }.

Abbreviation AuditTable := (gmap (string * string * string) AuditRow).

Definition RecordDNSLookup (boxID domain verdict : string) (at_ : Z) (t : AuditTable) : AuditTable :=
  let key := (boxID, domain, verdict) in
  match t !! key with
  | Some row => <[key := MkAuditRow (au_hits row + 1) (au_first_seen row) at_]> t
  | None => <[key := MkAuditRow 1 at_ at_]> t
  end.

Definition DeleteDNSAuditForBox (boxID : string) (t : AuditTable) : AuditTable :=
  filter (fun kv => kv.1.1.1 <> boxID) t.

(** ** Lemmas *)

(** Two duplicate-free lists with the same elements sort alike. *)
Lemma sort_strings_ext l1 l2 :
  NoDup l1 -> NoDup l2 -> (forall x, x ∈ l1 <-> x ∈ l2) -> sort_strings l1 = sort_strings l2.
Proof. intros. apply sort_strings_perm_eq. by apply NoDup_Permutation. Qed.

(** The second components of the pairs of a set with first component [a]. *)
Definition column (a : string) (s : gset (string * string)) : list string :=
  (elements (filter (fun kd => kd.1 = a) s)).*2.

Lemma elem_of_column a s x : x ∈ column a s <-> (a, x) ∈ s.
Proof.
  unfold column. rewrite list_elem_of_fmap. split.
  - intros ([a' x'] & -> & Hin%elem_of_elements). apply elem_of_filter in Hin as [? ?].
    simpl in *. by subst.
  - intros Hin. exists (a, x). split; [done|]. apply elem_of_elements. by apply elem_of_filter.
Qed.

Lemma NoDup_column a s : NoDup (column a s).
Proof.
  unfold column. apply NoDup_fmap_2_strong; [|apply NoDup_elements].
  intros [a1 x1] [a2 x2] H1%elem_of_elements H2%elem_of_elements Heq.
  apply elem_of_filter in H1 as [? _]. apply elem_of_filter in H2 as [? _]. simpl in *. congruence.
Qed.

Lemma domainsFor_column id db : domainsFor id db = sort_strings (column id (al_domains db)).
Proof. reflexivity. Qed.

Lemma GetBoxGroups_column b db : GetBoxGroups b db = sort_strings (column b (al_box_groups db)).
Proof. reflexivity. Qed.

(** Replacing one key's pairs: the column of the key is the new list, the other
    columns are unchanged. *)
Lemma column_replace a b l s :
  sort_strings (column b (filter (fun kd => kd.1 <> a) s ∪ list_to_set ((fun d => (a, d)) <$> l))) =
  if decide (a = b) then sort_strings (dedup l) else sort_strings (column b s).
Proof.
  case_decide as Hab; apply sort_strings_ext; auto using NoDup_column, NoDup_dedup; intros x;
    rewrite ?elem_of_column, ?elem_of_dedup, elem_of_union, elem_of_filter,
      elem_of_list_to_set, list_elem_of_fmap; naive_solver.
Qed.

Lemma name_taken_spec id name db :
  name_taken id name db = true <->
  exists id' row, id' <> id /\ al_groups db !! id' = Some row /\ gr_name row = name.
Proof.
  unfold name_taken. rewrite bool_decide_eq_true, Exists_exists. split.
  - intros ([id' row] & Hin%elem_of_map_to_list & Hne & Hn). eauto.
  - intros (id' & row & Hne & Hin & Hn). exists (id', row).
    split; [by apply elem_of_map_to_list|done].
Qed.

(** The UNIQUE constraint as an invariant of the table. *)
Definition names_unique (db : AllowlistDB) : Prop :=
  forall id1 id2 r1 r2, al_groups db !! id1 = Some r1 -> al_groups db !! id2 = Some r2 ->
    gr_name r1 = gr_name r2 -> id1 = id2.

Lemma SaveAllowlistGroup_unique g db db' :
  names_unique db -> SaveAllowlistGroup g db = Some db' -> names_unique db'.
Proof.
  intros Hu. unfold SaveAllowlistGroup. destruct (name_taken _ _ _) eqn:Ht; [done|].
  intros [= <-] id1 id2 r1 r2 H1 H2 Hn. simpl in *.
  assert (Hfree : forall id row, id <> ag_ID g -> al_groups db !! id = Some row -> gr_name row <> ag_Name g).
  { intros id row Hne Hin Heq. apply not_true_iff_false in Ht. apply Ht.
    apply name_taken_spec. eauto. }
  rewrite lookup_insert in H1, H2.
  destruct (decide (ag_ID g = id1)), (decide (ag_ID g = id2)); simplify_eq/=; [done| | |eauto];
    exfalso; eapply Hfree; eauto.
Qed.

Lemma elem_of_ListAllowlistGroups g db :
  g ∈ ListAllowlistGroups db <-> GetAllowlistGroup (ag_ID g) db = Some g.
Proof.
  unfold ListAllowlistGroups, GetAllowlistGroup. rewrite list_elem_of_fmap. split.
  - intros ([id row] & -> & Hin). rewrite merge_sort_Permutation, elem_of_map_to_list in Hin.
    simpl. by rewrite Hin.
  - destruct (al_groups db !! ag_ID g) as [row|] eqn:Hrow; [|done]. intros Hg%Some_inj.
    exists (ag_ID g, row). split; [symmetry; exact Hg|].
    by rewrite merge_sort_Permutation, elem_of_map_to_list.
Qed.

(** ** Theorems *)

(** The group as it reads back: domains sorted and deduplicated, creation time
    of the row that was there before. *)
Definition stored_form (g : AllowlistGroup) (old : option GroupRow) : AllowlistGroup :=
  MkGroup (ag_ID g) (ag_Name g) (ag_Description g) (ag_TTLSeconds g) (ag_IsGlobal g)
    (sort_strings (dedup (ag_Domains g)))
    (match old with Some row => gr_created_at row | None => ag_CreatedAt g end)
    (ag_UpdatedAt g).

Lemma SaveAllowlistGroup_lookup g db db' id :
  SaveAllowlistGroup g db = Some db' ->
  GetAllowlistGroup id db' =
  if decide (id = ag_ID g) then Some (stored_form g (al_groups db !! ag_ID g)) else GetAllowlistGroup id db.
Proof.
  unfold SaveAllowlistGroup. destruct (name_taken _ _ _); [done|]. intros [= <-].
  unfold GetAllowlistGroup. rewrite !domainsFor_column. simpl.
  case_decide as Hid; [subst id|].
  - rewrite lookup_insert_eq, column_replace, decide_True by done. done.
  - by rewrite lookup_insert_ne, column_replace, decide_False by done.
Qed.

Lemma SaveAllowlistGroup_refused g db :
  SaveAllowlistGroup g db = None <->
  exists id row, id <> ag_ID g /\ al_groups db !! id = Some row /\ gr_name row = ag_Name g.
Proof.
  unfold SaveAllowlistGroup. rewrite <- name_taken_spec. by destruct (name_taken _ _ _).
Qed.

(** saving a group round-trips.  It is refused exactly when another group
    already has the name; otherwise the group reads back with its domain set
    replaced wholesale (sorted, without duplicates) and its original creation
    time, every other group and every box assignment is unchanged, and group
    names stay unique. *)
Theorem SaveAllowlistGroup_roundtrip : forall g db,
  match SaveAllowlistGroup g db with
  | None => exists id row, id <> ag_ID g /\ al_groups db !! id = Some row /\ gr_name row = ag_Name g
  | Some db' =>
      GetAllowlistGroup (ag_ID g) db' = Some (stored_form g (al_groups db !! ag_ID g)) /\
      (forall id, id = ag_ID g \/ GetAllowlistGroup id db' = GetAllowlistGroup id db) /\
      (forall b, GetBoxGroups b db' = GetBoxGroups b db) /\
      (names_unique db -> names_unique db')
  end.
Proof.
  intros g db. destruct (SaveAllowlistGroup g db) as [db'|] eqn:Hs; [|by apply SaveAllowlistGroup_refused].
  split_and!.
  - by rewrite (SaveAllowlistGroup_lookup _ _ _ _ Hs), decide_True.
  - intros id. rewrite (SaveAllowlistGroup_lookup _ _ _ _ Hs). case_decide; auto.
  - intros b. unfold SaveAllowlistGroup in Hs. by destruct (name_taken _ _ _); simplify_eq.
  - eauto using SaveAllowlistGroup_unique.
Qed.

(** deleting a group removes it, its domains and every assignment of it, and
    nothing else: other groups keep their rows and domains, and every box keeps
    its other groups. *)
Theorem DeleteAllowlistGroup_spec : forall id db,
  let db' := DeleteAllowlistGroup id db in
  GetAllowlistGroup id db' = None /\ domainsFor id db' = [] /\
  (forall b, id ∉ GetBoxGroups b db') /\
  (forall id', id' = id \/ GetAllowlistGroup id' db' = GetAllowlistGroup id' db) /\
  (forall b id', id' <> id -> id' ∈ GetBoxGroups b db' <-> id' ∈ GetBoxGroups b db).
Proof.
  intros id db db'. assert (Hcol : forall id', id' <> id ->
    sort_strings (column id' (al_domains db')) = sort_strings (column id' (al_domains db))).
  { intros id' Hne. apply sort_strings_ext; auto using NoDup_column. intros x.
    rewrite !elem_of_column. simpl. rewrite elem_of_filter. naive_solver. }
  split_and!.
  - unfold GetAllowlistGroup; simpl. by rewrite lookup_delete_eq.
  - rewrite domainsFor_column, <- (sort_strings_perm_eq []); [done|]. symmetry.
    apply Permutation_nil_r, elem_of_nil_inv. intros x. rewrite elem_of_column. simpl.
    rewrite elem_of_filter. naive_solver.
  - intros b. rewrite GetBoxGroups_column, elem_of_sort_strings, elem_of_column. simpl.
    rewrite elem_of_filter. naive_solver.
  - intros id'. destruct (decide (id' = id)); [by left|right].
    unfold GetAllowlistGroup. rewrite !domainsFor_column, (Hcol id') by done. simpl.
    by rewrite lookup_delete_ne by done.
  - intros b id' Hne. rewrite !GetBoxGroups_column, !elem_of_sort_strings, !elem_of_column. simpl.
    rewrite elem_of_filter. naive_solver.
Qed.

(** [SetBoxGroups] replaces one box's assignment: it reads back sorted and
    without duplicates, other boxes and all groups are unchanged. *)
Theorem SetBoxGroups_roundtrip : forall b ids db,
  let db' := SetBoxGroups b ids db in
  GetBoxGroups b db' = sort_strings (dedup ids) /\
  (forall b', b' = b \/ GetBoxGroups b' db' = GetBoxGroups b' db) /\
  ListAllowlistGroups db' = ListAllowlistGroups db.
Proof.
  intros b ids db db'. split_and!; [| |done].
  - rewrite GetBoxGroups_column. simpl. by rewrite column_replace, decide_True.
  - intros b'. destruct (decide (b' = b)); [by left|right].
    rewrite !GetBoxGroups_column. simpl. by rewrite column_replace, decide_False.
Qed.

(** the purge of expired sign-in state compares timestamps as text, and the
    texts do not order like the instants within a second: a session that is
    still valid for half a second is deleted. *)
Theorem Purge_drops_live_session :
  exists (db : IdentityDB) now s,
    GetIdentitySession "cookie" db = Some s /\ After now (is_ExpiresAt s) = false /\
    now < is_ExpiresAt s /\
    GetIdentitySession "cookie" (PurgeExpiredIdentities now db) = None.
Proof.
  set (s := MkIdentitySession "admin@example.com" "google" "csrf" (1000 * Second + 500000000) true).
  exists (MkIdentityDB {["cookie" := s]} ∅), (1000 * Second), s.
  split_and!; [done|done|done|by vm_compute].
Qed.

(** ** The audit counts lookups *)

(** A lookup as the hub stores it: box, domain, verdict and instant. *)
Definition audit_key (e : string * string * string * Z) : string * string * string := e.1.

Definition record_lookups (l : list (string * string * string * Z)) (t : AuditTable) : AuditTable :=
  foldl (fun t e => RecordDNSLookup e.1.1.1 e.1.1.2 e.1.2 e.2 t) t l.

(** The row a list of lookups of one key amounts to. *)
Definition audit_summary (times : list Z) : option AuditRow :=
  match head times, last times with
  | Some first, Some last => Some (MkAuditRow (Z.of_nat (length times)) first last)
  | _, _ => None
  end.

Definition times_of (k : string * string * string) (l : list (string * string * string * Z)) : list Z :=
  (filter (fun e => audit_key e = k) l).*2.

Lemma audit_summary_snoc l t :
  audit_summary (l ++ [t]) =
  Some match audit_summary l with
       | Some row => MkAuditRow (au_hits row + 1) (au_first_seen row) t
       | None => MkAuditRow 1 t t
       end.
Proof.
  unfold audit_summary. rewrite last_snoc. destruct l as [|x l]; [done|].
  simpl. rewrite length_app. simpl.
  destruct (last (x :: l)) eqn:Hl; [|by apply last_None in Hl]. simpl. do 2 f_equal. lia.
Qed.

(** the DNS audit is exact: after any sequence of recorded lookups, the row
    of a (box, domain, verdict) counts precisely the lookups of that key, with
    the instants of the first and of the last one, and a key never looked up
    has no row. *)
Theorem RecordDNSLookup_counts : forall l k,
  record_lookups l ∅ !! k = audit_summary (times_of k l).
Proof.
  intros l k. induction l as [|[[[b d] v] t] l IH] using rev_ind; [done|].
  unfold record_lookups, times_of in *. rewrite foldl_snoc, filter_app, fmap_app. simpl.
  set (tab := foldl _ ∅ l) in *. unfold RecordDNSLookup.
  destruct (decide ((b, d, v) = k)) as [<-|Hne].
  - rewrite filter_cons_True, filter_nil by done. simpl. rewrite audit_summary_snoc, <- IH.
    destruct (tab !! (b, d, v)); by rewrite lookup_insert_eq.
  - rewrite filter_cons_False, filter_nil, app_nil_r by done. rewrite <- IH.
    destruct (tab !! (b, d, v)); by rewrite lookup_insert_ne.
Qed.
