(* ===== verification/Timestamps.v ===== *)
(** * The order of stored timestamps (internal/hub/store/sqlite.go)

    The store compares RFC 3339 texts.  The texts of whole seconds of the years
    1970 to 9999 order like the instants. *)

From S2P Require Import Prelude GoStrings Store.

Local Open Scope Z_scope.

(** ** Comparing texts of fixed width *)

Definition then_cmp (c d : comparison) : comparison := match c with Eq => d | _ => c end.

Lemma compare_app a a' b b' : String.length a = String.length a' ->
  String.compare (a +:+ b) (a' +:+ b') = then_cmp (String.compare a a') (String.compare b b').
Proof.
  revert a'. induction a as [|c a IH]; intros [|c' a'] Hl; simplify_eq/=; [done|].
  change (String c a +:+ b) with (String c (a +:+ b)). change (String c' a' +:+ b') with (String c' (a' +:+ b')). cbn.
  rewrite IH by done. by destruct (Ascii.compare c c').
Qed.

Lemma pad_digits_app w : forall n acc, pad_digits w n acc = pad_digits w n "" +:+ acc.
Proof.
  induction w as [|w IH]; intros n acc; cbn [pad_digits]; [done|].
  rewrite IH, (IH _ (String _ "")). by rewrite sapp_assoc.
Qed.

Lemma pad_digits_length w : forall n, String.length (pad_digits w n "") = w.
Proof. induction w as [|w IH]; intros n; cbn [pad_digits]; [done|]. rewrite pad_digits_app, slength_app, IH. cbn. lia. Qed.

Lemma digit_compare d d' : 0 <= d < 10 -> 0 <= d' < 10 ->
  String.compare (String (digit_byte d) "") (String (digit_byte d') "") = (d ?= d').
Proof.
  intros Hd Hd'.
  assert (Hall : forallb (fun d => forallb (fun d' =>
    bool_decide (String.compare (String (digit_byte d) "") (String (digit_byte d') "") = (d ?= d'))) (seqZ 0 10)) (seqZ 0 10) = true) by (by vm_compute).
  rewrite forallb_forall in Hall. specialize (Hall d). rewrite <- list_elem_of_In, elem_of_seqZ in Hall. specialize (Hall ltac:(lia)).
  rewrite forallb_forall in Hall. specialize (Hall d'). rewrite <- list_elem_of_In, elem_of_seqZ in Hall. specialize (Hall ltac:(lia)).
  by apply bool_decide_eq_true in Hall.
Qed.

(** A number compares like its quotient, then like its remainder. *)
Lemma compare_div_mod b n n' : 0 < b -> (n ?= n') = then_cmp (n / b ?= n' / b) (n mod b ?= n' mod b).
Proof.
  intros Hb. pose proof (Z.div_mod n b). pose proof (Z.div_mod n' b). pose proof (Z.mod_pos_bound n b Hb). pose proof (Z.mod_pos_bound n' b Hb).
  destruct (Z.compare_spec (n / b) (n' / b)) as [He|Hl|Hg]; cbn [then_cmp].
  - destruct (Z.compare_spec (n mod b) (n' mod b)); destruct (Z.compare_spec n n'); try done; nia.
  - apply Z.compare_lt_iff. nia.
  - apply Z.compare_gt_iff. nia.
Qed.

Lemma pad_compare w : forall n n', 0 <= n < 10 ^ Z.of_nat w -> 0 <= n' < 10 ^ Z.of_nat w ->
  String.compare (pad_digits w n "") (pad_digits w n' "") = (n ?= n').
Proof.
  induction w as [|w IH]; intros n n' Hn Hn'.
  - change (10 ^ Z.of_nat 0) with 1 in *. by replace n with 0 by lia; replace n' with 0 by lia.
  - rewrite Nat2Z.inj_succ, Z.pow_succ_r in * by lia. cbn [pad_digits]. rewrite (pad_digits_app w (n / 10)), (pad_digits_app w (n' / 10)).
    rewrite compare_app by (by rewrite !pad_digits_length). rewrite (compare_div_mod 10 n n') by lia.
    rewrite IH, digit_compare; [done|..]; try (apply Z.mod_pos_bound; lia);
      (split; [apply Z.div_pos; lia|apply Z.div_lt_upper_bound; lia]).
Qed.

(** ** Dates *)

(** Year, month and day as one number. *)
Definition date_number (z : Z) : Z := let '(y, m, d) := civil_from_days z in y * 10000 + m * 100 + d.

(** The days of a 400-year era (from a first of March) before a year, and the last
    day of that year. *)
Definition year_start (y : Z) : Z := 365 * y + y / 4 - y / 100.
Definition year_end (y : Z) : Z := if y =? 399 then 146096 else year_start (y + 1) - 1.
Definition era_days (doe : Z) : Z := doe - doe / 1460 + doe / 36524 - doe / 146096.

Lemma era_days_step x : 0 <= x < 146096 -> era_days x <= era_days (x + 1).
Proof. intros Hx. unfold era_days. destruct (decide (x = 146095)) as [->|]; [by vm_compute|]. Z.to_euclidean_division_equations. lia. Qed.

Lemma era_days_monotone x y : 0 <= x <= y -> y <= 146096 -> era_days x <= era_days y.
Proof.
  intros Hx Hy. replace y with (x + Z.of_nat (Z.to_nat (y - x))) by lia.
  assert (Hn : x + Z.of_nat (Z.to_nat (y - x)) <= 146096) by lia. revert Hn.
  induction (Z.to_nat (y - x)) as [|n IH]; intros Hn; [by rewrite Z.add_0_r|].
  etrans; [apply IH; lia|]. replace (x + Z.of_nat (S n)) with (x + Z.of_nat n + 1) by lia. apply era_days_step. lia.
Qed.

(** Every day of an era is in a year, which the division finds. *)
Lemma era_years : forall y, 0 <= y < 400 ->
  0 <= year_start y <= year_end y /\ year_end y <= 146096 /\ year_end y - year_start y <= 365 /\
  era_days (year_start y) / 365 = y /\ era_days (year_end y) / 365 = y.
Proof.
  intros y Hy.
  assert (Hall : forallb (fun y => (0 <=? year_start y) && (year_start y <=? year_end y) && (year_end y <=? 146096) &&
    (year_end y - year_start y <=? 365) && (era_days (year_start y) / 365 =? y) && (era_days (year_end y) / 365 =? y)) (seqZ 0 400) = true)
    by (by vm_compute).
  rewrite forallb_forall in Hall. specialize (Hall y). rewrite <- list_elem_of_In, elem_of_seqZ in Hall.
  specialize (Hall ltac:(lia)). rewrite !andb_true_iff, !Z.leb_le, !Z.eqb_eq in Hall. tauto.
Qed.

Lemma era_year_exists n doe : (n <= 400)%nat -> 0 <= doe -> (n = 400%nat /\ doe <= 146096 \/ doe < year_start (Z.of_nat n)) ->
  exists y, 0 <= y < 400 /\ year_start y <= doe <= year_end y.
Proof.
  induction n as [|n IH]; intros Hn Hd Hb; [change (year_start (Z.of_nat 0)) with 0 in Hb; lia|].
  destruct (decide (doe < year_start (Z.of_nat n))) as [Hl|Hl]; [apply IH; lia|].
  exists (Z.of_nat n). split; [lia|]. split; [lia|]. unfold year_end. destruct (Z.eqb_spec (Z.of_nat n) 399) as [He|He].
  - destruct Hb as [[_ ?]|Hb]; [lia|]. rewrite Nat2Z.inj_succ, He in Hb. change (year_start (Z.succ 399)) with 146096 in Hb. lia.
  - destruct Hb as [[? _]|Hb]; [lia|]. replace (Z.of_nat (S n)) with (Z.of_nat n + 1) in Hb by lia. lia.
Qed.

Lemma yoe_spec doe : 0 <= doe < 146097 ->
  let yoe := era_days doe / 365 in
  0 <= yoe < 400 /\ year_start yoe <= doe <= year_end yoe.
Proof.
  intros Hd. destruct (era_year_exists 400 doe) as (y & Hy & Hb); [lia|lia|left; lia|].
  destruct (era_years y Hy) as (H1 & H2 & H3 & H4 & H5).
  assert (era_days doe / 365 = y) as ->; [|done]. apply Z.le_antisymm.
  - rewrite <- H5. apply Z.div_le_mono; [lia|]. apply era_days_monotone; lia.
  - rewrite <- H4. apply Z.div_le_mono; [lia|]. apply era_days_monotone; lia.
Qed.

(** Month and day within a year that starts in March. *)
Definition day_number (doy : Z) : Z :=
  let mp := (5 * doy + 2) / 153 in
  let m := if mp <? 10 then mp + 3 else mp - 9 in
  (if m <=? 2 then 10000 else 0) + m * 100 + (doy - (153 * mp + 2) / 5 + 1).
Definition month_of (doy : Z) : Z := let mp := (5 * doy + 2) / 153 in if mp <? 10 then mp + 3 else mp - 9.
Definition day_of (doy : Z) : Z := doy - (153 * ((5 * doy + 2) / 153) + 2) / 5 + 1.

Lemma day_number_table doy : 0 <= doy <= 365 ->
  301 <= day_number doy < 10301 /\ 0 < month_of doy < 100 /\ 0 < day_of doy < 100 /\ (doy < 365 -> day_number doy < day_number (doy + 1)).
Proof.
  intros Hd.
  assert (Hall : forallb (fun d => (301 <=? day_number d) && (day_number d <? 10301) && (0 <? month_of d) && (month_of d <? 100) &&
    (0 <? day_of d) && (day_of d <? 100) && ((d =? 365) || (day_number d <? day_number (d + 1)))) (seqZ 0 366) = true) by (by vm_compute).
  rewrite forallb_forall in Hall. specialize (Hall doy). rewrite <- list_elem_of_In, elem_of_seqZ in Hall.
  specialize (Hall ltac:(lia)). rewrite !andb_true_iff, orb_true_iff, !Z.leb_le, !Z.ltb_lt, Z.eqb_eq in Hall. lia.
Qed.

Lemma day_number_monotone x y : 0 <= x < y -> y <= 365 -> day_number x < day_number y.
Proof.
  intros Hx Hy. replace y with (x + 1 + Z.of_nat (Z.to_nat (y - x - 1))) by lia.
  assert (Hn : x + 1 + Z.of_nat (Z.to_nat (y - x - 1)) <= 365) by lia. revert Hn.
  induction (Z.to_nat (y - x - 1)) as [|n IH]; intros Hn.
  - replace (x + 1 + Z.of_nat 0) with (x + 1) by lia. apply day_number_table; lia.
  - etrans; [apply IH; lia|]. replace (x + 1 + Z.of_nat (S n)) with (x + 1 + Z.of_nat n + 1) by lia. apply day_number_table; lia.
Qed.

(** A date in years from March and days: the two grow together. *)
Lemma date_parts z : exists Y doy, 0 <= doy <= 365 /\ date_number z = Y * 10000 + day_number doy /\
  civil_from_days z = (Y + (if month_of doy <=? 2 then 1 else 0), month_of doy, day_of doy) /\
  exists era yoe, Y = yoe + era * 400 /\ 0 <= yoe < 400 /\ z + 719468 = era * 146097 + year_start yoe + doy /\ year_start yoe + doy <= year_end yoe.
Proof.
  unfold date_number, civil_from_days. set (era := (z + 719468) / 146097). set (doe := z + 719468 - era * 146097).
  assert (Hdoe : 0 <= doe < 146097).
  { unfold doe, era. pose proof (Z.mod_pos_bound (z + 719468) 146097). pose proof (Z.div_mod (z + 719468) 146097). lia. }
  cbv zeta. fold (era_days doe). destruct (yoe_spec doe Hdoe) as [Hy Hb]. cbv zeta in *. set (yoe := era_days doe / 365) in *.
  fold (year_start yoe). set (doy := doe - year_start yoe). fold (month_of doy) (day_of doy).
  destruct (era_years yoe Hy) as (H1 & H2 & H3 & _).
  exists (yoe + era * 400), doy. split; [unfold doy; lia|]. split.
  - unfold day_number. fold (month_of doy) (day_of doy). destruct (month_of doy <=? 2); lia.
  - split; [reflexivity|]. exists era, yoe. split_and!; try lia; unfold doy, doe; lia.
Qed.

Lemma date_monotone z z' : z < z' -> date_number z < date_number z'.
Proof.
  intros Hlt. destruct (date_parts z) as (Y & doy & Hd & -> & _ & era & yoe & HY & Hyoe & Hz & He).
  destruct (date_parts z') as (Y' & doy' & Hd' & -> & _ & era' & yoe' & HY' & Hyoe' & Hz' & He').
  destruct (era_years yoe Hyoe) as (E1 & E2 & E3 & _). destruct (era_years yoe' Hyoe') as (E1' & E2' & E3' & _).
  pose proof (day_number_table doy Hd) as (D1 & _). pose proof (day_number_table doy' Hd') as (D1' & _).
  assert (Hera : era <= era') by nia.
  destruct (Z.lt_trichotomy Y Y') as [Hl|[He0|Hg]]; [lia| |].
  - assert (era = era' /\ yoe = yoe') as [-> ->] by lia. rewrite He0. apply Z.add_lt_mono_l. apply day_number_monotone; lia.
  - exfalso. assert (era = era') as -> by lia. assert (Hyy : yoe' < yoe) by lia.
    assert (year_end yoe' < year_start yoe); [|lia].
    unfold year_end. rewrite (proj2 (Z.eqb_neq yoe' 399)) by lia.
    assert (year_start (yoe' + 1) <= year_start yoe); [|lia]. unfold year_start. Z.to_euclidean_division_equations. lia.
Qed.

Lemma date_compare z z' : (date_number z ?= date_number z') = (z ?= z').
Proof.
  destruct (Z.compare_spec z z') as [->|Hl|Hg]; [apply Z.compare_refl| |].
  - apply Z.compare_lt_iff. by apply date_monotone.
  - apply Z.compare_gt_iff. by apply date_monotone.
Qed.

(** ** Whole seconds *)

Lemma then_assoc a b c : then_cmp (then_cmp a b) c = then_cmp a (then_cmp b c).
Proof. by destruct a. Qed.

Lemma compare_same s : String.compare s s = Eq.
Proof. pose proof (String.compare_antisym s s) as Ha. by destruct (String.compare s s). Qed.

(** A field of fixed width with a separator. *)
Lemma field_compare w n n' sep rest rest' : 0 <= n < 10 ^ Z.of_nat w -> 0 <= n' < 10 ^ Z.of_nat w ->
  String.compare (pad_digits w n "" +:+ sep +:+ rest) (pad_digits w n' "" +:+ sep +:+ rest') = then_cmp (n ?= n') (String.compare rest rest').
Proof.
  intros Hn Hn'. rewrite compare_app by (by rewrite !pad_digits_length). rewrite pad_compare by done. f_equal.
  rewrite compare_app by done. by rewrite compare_same.
Qed.

Definition max_seconds : Z := 253402300800.

Lemma year_range z : 0 <= z < 2932897 ->
  let '(y, m, d) := civil_from_days z in 0 <= y < 10000 /\ 0 < m < 100 /\ 0 < d < 100.
Proof.
  intros Hz. destruct (date_parts z) as (Y & doy & Hd & Hn & Hc & _). rewrite Hc.
  destruct (day_number_table doy Hd) as (_ & Hm & Hdd & _).
  assert (Hlo : 19700101 <= date_number z).
  { destruct (decide (z = 0)) as [->|]; [by vm_compute|]. change 19700101 with (date_number 0). pose proof (date_monotone 0 z). lia. }
  assert (Hhi : date_number z <= 99991231).
  { destruct (decide (z = 2932896)) as [->|]; [by vm_compute|]. change 99991231 with (date_number 2932896). pose proof (date_monotone z 2932896). lia. }
  unfold date_number in Hlo, Hhi. rewrite Hc in Hlo, Hhi. lia.
Qed.

Lemma date_fields y m d y' m' d' : 0 <= m < 100 -> 0 <= d < 100 -> 0 <= m' < 100 -> 0 <= d' < 100 ->
  (y * 10000 + m * 100 + d ?= y' * 10000 + m' * 100 + d') = then_cmp (y ?= y') (then_cmp (m ?= m') (d ?= d')).
Proof.
  intros Hm Hd Hm' Hd'. destruct (Z.compare_spec y y'), (Z.compare_spec m m'), (Z.compare_spec d d'); cbn [then_cmp];
    subst; try apply Z.compare_refl; try (apply Z.compare_lt_iff; lia); apply Z.compare_gt_iff; lia.
Qed.

(** Whole seconds from 1970 to 9999 order like their texts. *)
Lemma encodeTime_compare k k' : 0 <= k < max_seconds -> 0 <= k' < max_seconds ->
  String.compare (encodeTime (k * Second)) (encodeTime (k' * Second)) = (k ?= k').
Proof.
  unfold max_seconds. intros Hk Hk'. unfold encodeTime. rewrite !Z.div_mul, !Z.mod_mul by done.
  change (nanos_fraction 0) with "". assert (Hz : 0 <= k / 86400 < 2932897 /\ 0 <= k' / 86400 < 2932897).
  { split; (split; [apply Z.div_pos; lia|apply Z.div_lt_upper_bound; lia]). }
  destruct Hz as [Hz Hz']. pose proof (year_range _ Hz) as Hr. pose proof (year_range _ Hz') as Hr'.
  pose proof (date_compare (k / 86400) (k' / 86400)) as Hc. unfold date_number in Hc.
  destruct (civil_from_days (k / 86400)) as [[y m] d], (civil_from_days (k' / 86400)) as [[y' m'] d'].
  assert (H24 : forall r, 0 <= r < 86400 -> 0 <= r / 3600 < 100 /\ 0 <= r / 60 mod 60 < 100 /\ 0 <= r mod 60 < 100).
  { intros r Hrr. Z.to_euclidean_division_equations. lia. }
  pose proof (Z.mod_pos_bound k 86400 ltac:(lia)) as Hm. pose proof (Z.mod_pos_bound k' 86400 ltac:(lia)) as Hm'.
  destruct (H24 _ Hm) as (A1 & A2 & A3), (H24 _ Hm') as (B1 & B2 & B3).
  rewrite !field_compare by (change (10 ^ Z.of_nat 4) with 10000; change (10 ^ Z.of_nat 2) with 100; lia).
  rewrite compare_same.
  rewrite (compare_div_mod 86400 k k'), <- Hc, date_fields by lia.
  rewrite (compare_div_mod 60 (k mod 86400)), (compare_div_mod 60 (k mod 86400 / 60)) by lia. rewrite !Z.div_div by lia.
  rewrite !then_assoc. change (60 * 60) with 3600. do 5 f_equal. by destruct ((k mod 86400) mod 60 ?= (k' mod 86400) mod 60).
Qed.

Lemma encodeTime_le k k' : 0 <= k < max_seconds -> 0 <= k' < max_seconds ->
  String.le (encodeTime (k * Second)) (encodeTime (k' * Second)) <-> k <= k'.
Proof.
  intros Hk Hk'. unfold String.le, String.leb. rewrite encodeTime_compare by done.
  destruct (Z.compare_spec k k'); cbn; split; try done; lia.
Qed.
