(* ===== verification/Migrate.v ===== *)
(** * Opening the hub's database (internal/hub/store/sqlite.go)

    The schema as [openSQLite] creates it, and the migration of a file an earlier
    build left: columns are probed, added and dropped.  A table is its columns and
    its rows; the engine's own failures are not modelled, the refusals of
    [ALTER TABLE] are. *)

From S2P Require Import Prelude.

(** ** Tables *)

Record table := MkTable { tb_cols : gset string; tb_rows : list (gmap string string) }.
Abbreviation database := (gmap string table).

(** [schema]: the tables with their columns. *)
Definition schema : list (string * list string) :=
  [("boxes", ["token"; "instance_id"; "box_id"; "spoke"; "description"; "status"; "last_error"; "hook_state";
              "lifecycle"; "created_at"; "observed_name"; "observed_image"; "observed_state"; "observed_at"]);
   ("identity_sessions", ["session_id"; "email"; "provider"; "csrf_token"; "expires_at"; "can_admin"]);
   ("oidc_flows", ["state"; "provider"; "return_to"; "nonce"; "pkce_verifier"; "expires_at"]);
   ("spoke_join_tokens", ["secret_hash"; "name"; "backend"; "expires_at"]);
   ("spokes", ["name"; "secret_hash"; "enrolled_at"]);
   ("proxies", ["slug"; "box_id"; "instance_id"; "port"; "spoke"; "owner"; "description"; "created_at"]);
   ("settings", ["key"; "value"]);
   ("api_keys", ["secret_hash"; "name"; "created_at"; "expires_at"]);
   ("allowlist_groups", ["id"; "name"; "description"; "ttl_seconds"; "is_global"; "created_at"; "updated_at"]);
   ("allowlist_group_domains", ["group_id"; "domain"]);
   ("allowlist_box_groups", ["box_id"; "group_id"]);
   ("dns_audit", ["box_id"; "domain"; "verdict"; "hits"; "first_seen"; "last_seen"])].

(** [CREATE TABLE IF NOT EXISTS], for each. *)
Definition create_table (db : database) (t : string * list string) : database :=
  match db !! t.1 with
  | Some _ => db
  | None => <[t.1 := MkTable (list_to_set t.2) []]> db
  end.
Definition exec_schema (db : database) : database := foldl create_table db schema.

(** [SELECT COUNT( * ) FROM pragma_table_info(table) WHERE name = col]. *)
Definition has_column (t col : string) (db : database) : bool :=
  match db !! t with Some tb => bool_decide (col ∈ tb_cols tb) | None => false end.

(** [ALTER TABLE t ADD COLUMN col TEXT NOT NULL DEFAULT def]. *)
Definition add_column (t col def : string) (db : database) : option database :=
  match db !! t with
  | None => None
  | Some tb =>
      if decide (col ∈ tb_cols tb) then None
      else Some (<[t := MkTable ({[col]} ∪ tb_cols tb) (insert col def <$> tb_rows tb)]> db)
  end.

(** [ALTER TABLE t DROP COLUMN col]; the last column cannot be dropped. *)
Definition drop_column (t col : string) (db : database) : option database :=
  match db !! t with
  | None => None
  | Some tb =>
      if decide (col ∈ tb_cols tb /\ tb_cols tb ∖ {[col]} ≢ ∅)
      then Some (<[t := MkTable (tb_cols tb ∖ {[col]}) (delete col <$> tb_rows tb)]> db)
      else None
  end.

(** ** Migration *)

Fixpoint dropColumns (t : string) (cols : list string) (db : database) : option database :=
  match cols with
  | [] => Some db
  | col :: cols' =>
      if has_column t col db
      then match drop_column t col db with Some db' => dropColumns t cols' db' | None => None end
      else dropColumns t cols' db
  end.

Definition migrate (db : database) : option database :=
  match (if has_column "spoke_join_tokens" "backend" db then Some db else add_column "spoke_join_tokens" "backend" "" db) with
  | None => None
  | Some db1 =>
      match dropColumns "boxes" ["owner"; "authorize_url"; "session_url"] db1 with
      | None => None
      | Some db2 =>
          match dropColumns "identity_sessions" ["can_activate"] db2 with
          | None => None
          | Some db3 => dropColumns "oidc_flows" ["return_token"] db3
          end
      end
  end.

(** What [os.Chmod] answers for the file and its two sidecars. *)
Inductive chmod := ChmodOk | ChmodNotExist | ChmodFails.

Inductive open_error := ErrMigrating | ErrRestricting.

(** The loop over the suffixes: a file that does not exist is skipped. *)
Definition restricted (modes : chmod * chmod * chmod) : bool :=
  let '(a, b, c) := modes in forallb (fun m => match m with ChmodFails => false | _ => true end) [a; b; c].

Definition openSQLite (modes : chmod * chmod * chmod) (db : database) : database * option open_error :=
  let db1 := exec_schema db in
  match migrate db1 with
  | None => (db1, Some ErrMigrating)
  | Some db2 =>
      (db2, if restricted modes then None else Some ErrRestricting)
  end.

(** ** Lemmas *)

(** The columns a build before the current one had and lacked. *)
Definition obsolete (t : string) : list string :=
  if String.eqb t "boxes" then ["owner"; "authorize_url"; "session_url"]
  else if String.eqb t "identity_sessions" then ["can_activate"]
  else if String.eqb t "oidc_flows" then ["return_token"] else [].
Definition added (t : string) : list string := if String.eqb t "spoke_join_tokens" then ["backend"] else [].

(** Every row has the columns of its table. *)
Definition rows_fit (tb : table) : Prop := Forall (fun r => dom r = tb_cols tb) (tb_rows tb).

(** Rows without some columns. *)
Definition without (cols : list string) (r : gmap string string) : gmap string string := filter (fun cv => cv.1 ∉ cols) r.

Lemma without_delete col cols r : without cols (delete col r) = without (col :: cols) r.
Proof.
  apply map_eq. intros k. apply option_eq. intros v. unfold without.
  rewrite !map_lookup_filter_Some, lookup_delete_Some. cbn. rewrite not_elem_of_cons. naive_solver.
Qed.
Lemma without_absent col cols r : col ∉ dom r -> without (col :: cols) r = without cols r.
Proof. intros Hc. by rewrite <- without_delete, delete_id by (by apply not_elem_of_dom). Qed.
Lemma without_nil r : without [] r = r.
Proof. apply map_filter_id. intros k v _. cbn. apply not_elem_of_nil. Qed.

Lemma dropColumns_spec t cols : forall db tb,
  db !! t = Some tb -> tb_cols tb ∖ list_to_set cols <> ∅ -> rows_fit tb ->
  dropColumns t cols db = Some (<[t := MkTable (tb_cols tb ∖ list_to_set cols) (without cols <$> tb_rows tb)]> db).
Proof.
  induction cols as [|col cols IH]; intros db tb Hl Hne Hfit; simpl in *.
  - f_equal. rewrite insert_id; [done|]. rewrite Hl. destruct tb as [cs rs]. simpl. f_equal. f_equal; [set_solver|].
    rewrite <- (list_fmap_id rs) at 1. apply list_fmap_ext. intros ? r _. by rewrite without_nil.
  - unfold has_column. rewrite Hl. case_bool_decide as Hc.
    + unfold drop_column. rewrite Hl, decide_True by (split; [done|set_solver]).
      rewrite (IH _ (MkTable (tb_cols tb ∖ {[col]}) (delete col <$> tb_rows tb))).
      * rewrite insert_insert_eq. do 2 f_equal. simpl. f_equal; [set_solver|]. rewrite <- list_fmap_compose.
        apply list_fmap_ext. intros ? r _. apply without_delete.
      * apply lookup_insert_eq.
      * simpl. set_solver.
      * unfold rows_fit in *. simpl. rewrite Forall_fmap. eapply Forall_impl; [exact Hfit|]. intros r Hr. cbn.
        by rewrite dom_delete_L, Hr.
    + rewrite (IH _ tb); [|done|set_solver|done]. do 3 f_equal; [set_solver|].
      apply list_fmap_ext. intros i r Hr. symmetry. apply without_absent.
      unfold rows_fit in Hfit. rewrite Forall_lookup in Hfit. by rewrite (Hfit _ _ Hr).
Qed.

Lemma exec_schema_lookup l : forall db t, NoDup l.*1 ->
  foldl create_table db l !! t =
  match db !! t with
  | Some tb => Some tb
  | None => (fun cols => MkTable (list_to_set cols) []) <$> (list_to_map l : gmap string (list string)) !! t
  end.
Proof.
  induction l as [|[t0 c0] l IH]; intros db t Hnd; simpl; [rewrite lookup_empty; by destruct (db !! t)|].
  apply NoDup_cons in Hnd as [Hnin Hnd]. rewrite IH by done. unfold create_table. simpl.
  destruct (db !! t0) as [tb0|] eqn:H0.
  - destruct (db !! t) eqn:Ht; [done|]. rewrite lookup_insert_ne by congruence. done.
  - destruct (decide (t = t0)) as [->|Hne].
    + by rewrite !lookup_insert_eq, H0.
    + rewrite !lookup_insert_ne by done. done.
Qed.

Lemma schema_names : NoDup schema.*1.
Proof. by apply (bool_decide_unpack _). Qed.

Lemma lookup_exec_schema db t :
  exec_schema db !! t =
  match db !! t with
  | Some tb => Some tb
  | None => (fun cols => MkTable (list_to_set cols) []) <$> (list_to_map schema : gmap string (list string)) !! t
  end.
Proof. apply exec_schema_lookup, schema_names. Qed.

(** What the migration makes of a table. *)
Definition with_added (t : string) (tb : table) : table :=
  if String.eqb t "spoke_join_tokens" && negb (bool_decide ("backend" ∈ tb_cols tb))
  then MkTable ({["backend"]} ∪ tb_cols tb) (insert "backend" "" <$> tb_rows tb) else tb.
Definition dropped (cols : list string) (tb : table) : table :=
  MkTable (tb_cols tb ∖ list_to_set cols) (without cols <$> tb_rows tb).
Definition upgraded (t : string) (tb : table) : table := dropped (obsolete t) (with_added t tb).

Lemma dropped_nil tb : dropped [] tb = tb.
Proof.
  destruct tb as [cs rs]. unfold dropped. simpl. f_equal; [set_solver|].
  rewrite <- (list_fmap_id rs) at 2. apply list_fmap_ext. intros ? r _. by rewrite without_nil.
Qed.

Lemma drop_step t cols db tb :
  db !! t = Some tb -> tb_cols tb ∖ list_to_set cols <> ∅ -> rows_fit tb ->
  exists db', dropColumns t cols db = Some db' /\
    forall t', db' !! t' = if String.eqb t' t then dropped cols <$> db !! t' else db !! t'.
Proof.
  intros Hl Hne Hfit. eexists. split; [by apply dropColumns_spec|]. intros t'.
  destruct (String.eqb_spec t' t) as [->|]; [by rewrite lookup_insert_eq, Hl|by rewrite lookup_insert_ne].
Qed.

Lemma add_step db tb : db !! "spoke_join_tokens" = Some tb ->
  exists db', (if has_column "spoke_join_tokens" "backend" db then Some db else add_column "spoke_join_tokens" "backend" "" db) = Some db' /\
    forall t, db' !! t = with_added t <$> db !! t.
Proof.
  intros Hl. unfold has_column, add_column. rewrite Hl.
  assert (Hother : forall t, t <> "spoke_join_tokens" -> with_added t <$> db !! t = db !! t).
  { intros t Ht. apply String.eqb_neq in Ht. unfold with_added. rewrite Ht. cbn. by destruct (db !! t). }
  case_bool_decide as Hb; [|rewrite decide_False by done]; eexists; (split; [done|]); intros t;
    destruct (decide (t = "spoke_join_tokens")) as [->|Hne].
  - rewrite Hl. cbn. unfold with_added. by rewrite bool_decide_true.
  - by rewrite Hother.
  - rewrite lookup_insert_eq, Hl. cbn. unfold with_added. by rewrite bool_decide_false.
  - rewrite lookup_insert_ne by done. by rewrite Hother.
Qed.

(** A file left by this or an earlier build: its tables have the columns of the
    schema up to the changes since, and its rows fit. *)
Definition earlier_build (db : database) : Prop :=
  forall t cols tb, (t, cols) ∈ schema -> db !! t = Some tb ->
    (tb_cols tb ∪ list_to_set (added t)) ∖ list_to_set (obsolete t) = list_to_set (C := gset string) cols /\ rows_fit tb.

Lemma in_schema t cols : (t, cols) ∈ schema -> (list_to_map schema : gmap string (list string)) !! t = Some cols.
Proof. intros Hin. apply elem_of_list_to_map_1; [apply schema_names|done]. Qed.

Ltac in_list := repeat first [apply list_elem_of_here|apply list_elem_of_further].

Lemma migrate_spec db :
  (forall t cols, (t, cols) ∈ schema -> is_Some (db !! t)) -> earlier_build db ->
  exists db', migrate db = Some db' /\ forall t, db' !! t = upgraded t <$> db !! t.
Proof.
  intros Hall Hold.
  assert (Hget : forall t cols, (t, cols) ∈ schema -> cols <> [] -> added t = [] -> exists tb, db !! t = Some tb /\ rows_fit tb /\ tb_cols tb ∖ list_to_set (obsolete t) <> ∅).
  { intros t cols Hin Hne Ha. destruct (Hall _ _ Hin) as [tb Htb]. exists tb.
    destruct (Hold _ _ _ Hin Htb) as [Hc Hf]. rewrite Ha in Hc.
    split_and!; try done.
    destruct cols as [|c cols]; [done|]. set_solver. }
  destruct (Hall "spoke_join_tokens" _ ltac:(in_list)) as [tk Htk].
  destruct (add_step db tk Htk) as (db1 & H1 & Hl1).
  destruct (Hget "boxes" _ ltac:(in_list) ltac:(done) eq_refl) as (tb & Htb & Hfit & Hne).
  destruct (drop_step "boxes" ["owner"; "authorize_url"; "session_url"] db1 tb) as (db2 & H2 & Hl2);
    [by rewrite Hl1, Htb|done..|].
  destruct (Hget "identity_sessions" _ ltac:(in_list) ltac:(done) eq_refl) as (ti & Hti & Hfi & Hni).
  destruct (drop_step "identity_sessions" ["can_activate"] db2 ti) as (db3 & H3 & Hl3);
    [by rewrite Hl2; cbn; rewrite Hl1, Hti|done..|].
  destruct (Hget "oidc_flows" _ ltac:(in_list) ltac:(done) eq_refl) as (tf & Htf & Hff & Hnf).
  destruct (drop_step "oidc_flows" ["return_token"] db3 tf) as (db4 & H4 & Hl4);
    [by rewrite Hl3; cbn; rewrite Hl2; cbn; rewrite Hl1, Htf|done..|].
  exists db4. unfold migrate. rewrite H1, H2, H3. split; [done|].
  intros t. rewrite Hl4, Hl3, Hl2, Hl1. unfold upgraded, obsolete.
  destruct (db !! t) as [tb0|]; cbn; [|by repeat case_match].
  destruct (String.eqb_spec t "boxes") as [->|]; [done|].
  destruct (String.eqb_spec t "identity_sessions") as [->|]; [done|].
  destruct (String.eqb_spec t "oidc_flows") as [->|]; [done|]. by rewrite dropped_nil.
Qed.

(** A row of the upgraded table against the row it comes from. *)
Definition row_kept (cols0 : gset string) (cols : list string) (r0 r : gmap string string) : Prop :=
  forall c, c ∈ cols -> r !! c = if decide (c ∈ cols0) then r0 !! c else Some "".

Lemma upgraded_spec t cols tb :
  (tb_cols tb ∪ list_to_set (added t)) ∖ list_to_set (obsolete t) = list_to_set (C := gset string) cols -> rows_fit tb ->
  tb_cols (upgraded t tb) = list_to_set cols /\ rows_fit (upgraded t tb) /\
  Forall2 (row_kept (tb_cols tb) cols) (tb_rows tb) (tb_rows (upgraded t tb)).
Proof.
  intros Hc Hfit.
  assert (Hd : forall tb1 P, rows_fit tb1 -> Forall2 P (tb_rows tb) (tb_rows tb1) ->
    (forall r0 r, P r0 r -> dom r0 = tb_cols tb -> dom r = tb_cols tb1 -> row_kept (tb_cols tb) cols r0 (without (obsolete t) r)) ->
    rows_fit (dropped (obsolete t) tb1) /\ Forall2 (row_kept (tb_cols tb) cols) (tb_rows tb) (tb_rows (dropped (obsolete t) tb1))).
  { intros tb1 P Hf1 Hall Hk. split.
    - unfold rows_fit, dropped in *. simpl. rewrite Forall_fmap. eapply Forall_impl; [exact Hf1|]. intros r Hr. cbn.
      unfold without. apply set_eq. intros c. rewrite elem_of_dom, elem_of_difference, <- Hr, elem_of_dom, elem_of_list_to_set.
      unfold is_Some. setoid_rewrite map_lookup_filter_Some. cbn. naive_solver.
    - simpl. rewrite Forall2_fmap_r. apply Forall2_same_length_lookup. split; [by eapply Forall2_length|].
      intros i r0 r H0 H1. rewrite Forall2_lookup in Hall. specialize (Hall i). rewrite H0, H1 in Hall. inversion_clear Hall as [? ? HP|].
      unfold rows_fit in *. rewrite Forall_lookup in Hfit, Hf1. eauto. }
  assert (Hwo : forall c r, c ∈ cols -> without (obsolete t) r !! c = r !! c).
  { intros c r Hin. unfold without. destruct (r !! c) as [v|] eqn:Hr.
    - apply map_lookup_filter_Some. split; [done|]. cbn. assert (c ∈ list_to_set (C := gset string) cols) by set_solver. set_solver.
    - apply map_lookup_filter_None. by left. }
  unfold upgraded, with_added, added in *.
  destruct (String.eqb t "spoke_join_tokens" && negb (bool_decide ("backend" ∈ tb_cols tb))) eqn:Hb; simpl.
  - apply andb_true_iff in Hb as [Ht Hnb]. rewrite Ht in Hc. apply negb_true_iff, bool_decide_eq_false in Hnb.
    split; [set_solver|]. apply Hd with (P := fun r0 r => r = <["backend" := ""]> r0).
    + unfold rows_fit in *. simpl. rewrite Forall_fmap. eapply Forall_impl; [exact Hfit|]. intros r Hr. cbn.
      by rewrite dom_insert_L, Hr.
    + simpl. rewrite Forall2_fmap_r. by apply Forall_Forall2_diag, Forall_true.
    + intros r0 r -> Hr0 _ c Hin. rewrite Hwo by done. destruct (decide (c = "backend")) as [->|Hne].
      * by rewrite lookup_insert_eq, decide_False.
      * rewrite lookup_insert_ne by done. rewrite decide_True; [done|].
        assert (c ∈ list_to_set (C := gset string) cols) by set_solver. set_solver.
  - assert (Hc0 : tb_cols tb ∖ list_to_set (obsolete t) = list_to_set (C := gset string) cols).
    { destruct (String.eqb t "spoke_join_tokens"); [|set_solver]. simpl in Hb.
      apply negb_false_iff, bool_decide_eq_true in Hb. set_solver. }
    split; [done|]. apply Hd with (P := eq); [done|by apply Forall_Forall2_diag, Forall_true|].
    intros r0 r -> Hr _ c Hin. rewrite Hwo by done. rewrite decide_True; [done|].
    assert (c ∈ list_to_set (C := gset string) cols) by set_solver. set_solver.
Qed.

Lemma exec_schema_earlier db : earlier_build db -> earlier_build (exec_schema db).
Proof.
  intros Hold t cols tb Hin Htb. rewrite lookup_exec_schema in Htb.
  destruct (db !! t) as [tb0|] eqn:H0; [simplify_eq; by eapply Hold|].
  rewrite (in_schema _ _ Hin) in Htb.
  change (Some (MkTable (list_to_set cols) []) = Some tb) in Htb. injection Htb as <-. cbn [tb_cols tb_rows]. split; [|constructor].
  assert (Hok : forallb (fun tc => bool_decide ((list_to_set tc.2 ∪ list_to_set (added tc.1)) ∖ list_to_set (obsolete tc.1) =
      list_to_set (C := gset string) tc.2)) schema = true) by (by vm_compute).
  rewrite forallb_forall in Hok. specialize (Hok (t, cols)). apply (bool_decide_eq_true _), Hok. by apply list_elem_of_In.
Qed.

Lemma exec_schema_all db t cols : (t, cols) ∈ schema -> is_Some (exec_schema db !! t).
Proof.
  intros Hin. rewrite lookup_exec_schema.
  destruct (db !! t); [done|]. by rewrite (in_schema _ _ Hin).
Qed.

Lemma exec_schema_id db : (forall t cols, (t, cols) ∈ schema -> is_Some (db !! t)) -> exec_schema db = db.
Proof.
  intros Hall. apply map_eq. intros t. rewrite lookup_exec_schema.
  destruct (db !! t) eqn:Ht; [done|]. destruct (list_to_map schema !! t) as [cols|] eqn:Hs; [|done].
  apply elem_of_list_to_map_2, Hall in Hs. rewrite Ht in Hs. by destruct Hs.
Qed.

(** A table with the columns of the schema is left as it is. *)
Lemma upgraded_id t cols tb : (t, cols) ∈ schema -> tb_cols tb = list_to_set cols -> rows_fit tb -> upgraded t tb = tb.
Proof.
  intros Hin Hc Hfit.
  assert (Hok : forallb (fun tc => negb (existsb (fun o => existsb (String.eqb o) tc.2) (obsolete tc.1)) &&
      (negb (String.eqb tc.1 "spoke_join_tokens") || existsb (String.eqb "backend") tc.2)) schema = true) by (by vm_compute).
  rewrite forallb_forall in Hok. specialize (Hok (t, cols) (proj1 (list_elem_of_In _ _) Hin)). cbn [fst snd] in Hok.
  apply andb_true_iff in Hok as [Ho Hb]. apply negb_true_iff in Ho.
  assert (Hno : forall o, o ∈ obsolete t -> o ∉ tb_cols tb).
  { intros o Hob Hoc. rewrite Hc in Hoc. apply elem_of_list_to_set in Hoc. apply not_true_iff_false in Ho. apply Ho.
    apply existsb_exists. exists o. split; [by apply list_elem_of_In|]. apply existsb_exists. exists o.
    split; [by apply list_elem_of_In|apply String.eqb_refl]. }
  unfold upgraded, with_added. destruct (String.eqb t "spoke_join_tokens" && _) eqn:Hx.
  { exfalso. apply andb_true_iff in Hx as [H1 H2]. rewrite H1 in Hb. cbn [negb orb] in Hb. apply existsb_exists in Hb as (b & Hb1 & Hb2).
    apply String.eqb_eq in Hb2 as <-. apply negb_true_iff, bool_decide_eq_false in H2. apply H2. rewrite Hc.
    apply elem_of_list_to_set. by apply list_elem_of_In. }
  destruct tb as [cs rs]. unfold dropped. simpl in *. f_equal; [set_solver|].
  rewrite <- (list_fmap_id rs) at 2. apply list_fmap_ext. intros i r Hr. unfold without. apply map_filter_id.
  intros c v Hcv Hin'. unfold rows_fit in Hfit. rewrite Forall_lookup in Hfit. specialize (Hfit _ _ Hr). simpl in Hfit.
  apply (Hno c Hin'). rewrite <- Hfit. by apply elem_of_dom_2 in Hcv.
Qed.

Lemma upgraded_outside t tb : t ∉ schema.*1 -> upgraded t tb = tb.
Proof.
  intros Ht.
  assert (Hn : t <> "boxes" /\ t <> "identity_sessions" /\ t <> "oidc_flows" /\ t <> "spoke_join_tokens").
  { split_and!; intros ->; apply Ht; vm_compute; in_list. }
  destruct Hn as (N1 & N2 & N3 & N4). apply String.eqb_neq in N1, N2, N3, N4.
  unfold upgraded, with_added, obsolete. rewrite N1, N2, N3, N4. cbn. apply dropped_nil.
Qed.

(** C36: opening the database upgrades what earlier builds left and loses nothing
    of it.  For a file whose tables have the columns of the schema up to the
    changes the migration knows (missing tables included), opening succeeds when
    no permission change fails; every table of the schema then has exactly its
    columns, every row of before is there with its values (an added column is
    empty), tables outside the schema are untouched, and opening again changes
    nothing. *)
Theorem open_upgrades_the_database : forall db modes,
  earlier_build db -> restricted modes = true ->
  exists db', openSQLite modes db = (db', None) /\
    (forall t cols, (t, cols) ∈ schema -> exists tb, db' !! t = Some tb /\ tb_cols tb = list_to_set cols /\
       match db !! t with
       | None => tb_rows tb = []
       | Some tb0 => Forall2 (row_kept (tb_cols tb0) cols) (tb_rows tb0) (tb_rows tb)
       end) /\
    (forall t, t ∉ schema.*1 -> db' !! t = db !! t) /\
    openSQLite modes db' = (db', None).
Proof.
  intros db modes Hold Hm. pose proof (exec_schema_earlier _ Hold) as Hold1.
  destruct (migrate_spec (exec_schema db) (exec_schema_all db) Hold1) as (db' & Hmig & Hl).
  assert (Htab : forall t cols, (t, cols) ∈ schema -> exists tb1, exec_schema db !! t = Some tb1 /\ db' !! t = Some (upgraded t tb1) /\
    tb_cols (upgraded t tb1) = list_to_set cols /\ rows_fit (upgraded t tb1) /\
    Forall2 (row_kept (tb_cols tb1) cols) (tb_rows tb1) (tb_rows (upgraded t tb1))).
  { intros t cols Hin. destruct (exec_schema_all db _ _ Hin) as [tb1 H1]. exists tb1. rewrite Hl, H1. cbn.
    destruct (Hold1 _ _ _ Hin H1) as [Hc Hf]. destruct (upgraded_spec _ _ _ Hc Hf) as (? & ? & ?). done. }
  assert (Hall' : forall t cols, (t, cols) ∈ schema -> is_Some (db' !! t)).
  { intros t cols Hin. destruct (Htab _ _ Hin) as (? & _ & -> & _). done. }
  exists db'. unfold openSQLite. rewrite Hmig, Hm. split_and!; [done| | |].
  - intros t cols Hin. destruct (Htab _ _ Hin) as (tb1 & H1 & H2 & Hc & _ & Hr). exists (upgraded t tb1). split_and!; try done.
    rewrite lookup_exec_schema in H1.
    destruct (db !! t) as [tb0|]; [by injection H1 as ->|]. rewrite (in_schema _ _ Hin) in H1.
    change (Some (MkTable (list_to_set cols) []) = Some tb1) in H1. injection H1 as <-. by apply Forall2_nil_inv_l in Hr.
  - intros t Ht. rewrite Hl. rewrite lookup_exec_schema.
    assert (Hno : (list_to_map schema : gmap string (list string)) !! t = None) by (by apply not_elem_of_list_to_map_1).
    rewrite Hno. destruct (db !! t) as [tb|]; [|done]. cbn. f_equal.
    by apply upgraded_outside.
  - rewrite exec_schema_id by done.
    assert (Hold' : earlier_build db').
    { intros t cols tb Hin Htb. destruct (Htab _ _ Hin) as (tb1 & H1 & H2 & Hc & Hf & _). rewrite H2 in Htb. simplify_eq.
      split; [|done]. rewrite Hc.
      assert (Hn : earlier_build (exec_schema ∅)) by (apply exec_schema_earlier; intros ? ? ? _; by rewrite lookup_empty).
      specialize (Hn t cols (MkTable (list_to_set cols) []) Hin). apply Hn. rewrite lookup_exec_schema. by rewrite lookup_empty, (in_schema _ _ Hin). }
    destruct (migrate_spec db' Hall' Hold') as (db2 & Hmig2 & Hl2). rewrite Hmig2. f_equal. apply map_eq. intros t. rewrite Hl2.
    destruct (db' !! t) as [tb|] eqn:Ht; [|done]. cbn. f_equal.
    destruct ((list_to_map schema : gmap string (list string)) !! t) as [cols|] eqn:Hs.
    + apply elem_of_list_to_map_2 in Hs. destruct (Htab _ _ Hs) as (tb1 & H1 & H2 & Hc & Hf & _). rewrite H2 in Ht. simplify_eq.
      by eapply upgraded_id.
    + apply upgraded_outside. by apply not_elem_of_list_to_map_2 in Hs.
Qed.

(** A file of the build before backends were recorded. *)
Definition old_file : database :=
  {["spoke_join_tokens" := MkTable {["secret_hash"; "name"; "expires_at"]}
      [list_to_map [("secret_hash", "h1"); ("name", "edge"); ("expires_at", "2030-01-01T00:00:00Z")]]]}.

Lemma open_upgrades_the_database_witness :
  let '(db, err) := openSQLite (ChmodOk, ChmodOk, ChmodNotExist) old_file in
  err = None /\ openSQLite (ChmodOk, ChmodOk, ChmodNotExist) db = (db, None) /\
  (fun tb => map_to_list <$> tb_rows tb) <$> db !! "spoke_join_tokens" =
    Some [map_to_list (list_to_map (M := gmap string string)
      [("backend", ""); ("secret_hash", "h1"); ("name", "edge"); ("expires_at", "2030-01-01T00:00:00Z")])].
Proof.
  destruct (open_upgrades_the_database old_file (ChmodOk, ChmodOk, ChmodNotExist)) as (db' & Ho & _ & _ & Hi).
  - intros t cols tb Hin Htb. unfold old_file in Htb. apply lookup_singleton_Some in Htb as [<- <-].
    assert (Hc : Some cols = Some ["secret_hash"; "name"; "backend"; "expires_at"]).
    { rewrite <- (in_schema _ _ Hin). by vm_compute. }
    injection Hc as ->. split; [by apply (bool_decide_unpack _); vm_compute|].
    apply Forall_singleton. by apply (bool_decide_unpack _); vm_compute.
  - reflexivity.
  - assert (Hr : (openSQLite (ChmodOk, ChmodOk, ChmodNotExist) old_file).1 = db') by (by rewrite Ho).
    rewrite Ho. split_and!; [done|exact Hi|]. rewrite <- Hr. by vm_compute.
Defined.

(** A permission change that fails (on a file system without modes, say) fails the
    opening. *)
Theorem failed_chmod_is_fatal : forall db a b c,
  ChmodFails ∈ [a; b; c] -> (openSQLite (a, b, c) db).2 <> None.
Proof.
  intros db a b c Hin. unfold openSQLite. destruct (migrate (exec_schema db)); [|done]. cbn [snd].
  assert (Hr : restricted (a, b, c) = false); [|by rewrite Hr].
  unfold restricted. destruct a, b, c; try done; exfalso; repeat (apply elem_of_cons in Hin as [Hin|Hin]; [done|]); by apply not_elem_of_nil in Hin.
Qed.
