(* ===== verification/Sha256.v ===== *)
(** * SHA-256 and hexadecimal encoding

    Go's [crypto/sha256] and [encoding/hex], which the program uses to store its
    bearer secrets only hashed.  Bytes and 32-bit words are integers; the
    functions are executable, so a stored hash can be computed on a concrete
    secret. *)

From S2P Require Import Prelude GoStrings.

Local Open Scope Z_scope.

(** ** Bytes of a string *)

Fixpoint bytes_of (s : string) : list Z :=
  match s with
  | "" => []
  | String c s' => Z.of_N (N_of_ascii c) :: bytes_of s'
  end.

(** ** hex.EncodeToString *)

Definition hex_digit (d : Z) : ascii :=
  if d <? 10 then ascii_of_N (Z.to_N (48 + d)) else ascii_of_N (Z.to_N (87 + d)).

Fixpoint hex_encode (l : list Z) : string :=
  match l with
  | [] => ""
  | b :: l' => String (hex_digit (b / 16)) (String (hex_digit (b mod 16)) (hex_encode l'))
  end.

(** ** 32-bit words *)

Definition w32 (x : Z) : Z := Z.land x 4294967295.
Definition rotr (n x : Z) : Z := Z.lor (Z.shiftr x n) (w32 (Z.shiftl x (32 - n))).

Definition Sigma0 (x : Z) : Z := Z.lxor (rotr 2 x) (Z.lxor (rotr 13 x) (rotr 22 x)).
Definition Sigma1 (x : Z) : Z := Z.lxor (rotr 6 x) (Z.lxor (rotr 11 x) (rotr 25 x)).
Definition sigma0 (x : Z) : Z := Z.lxor (rotr 7 x) (Z.lxor (rotr 18 x) (Z.shiftr x 3)).
Definition sigma1 (x : Z) : Z := Z.lxor (rotr 17 x) (Z.lxor (rotr 19 x) (Z.shiftr x 10)).
Definition Ch (x y z : Z) : Z := Z.lxor (Z.land x y) (Z.land (Z.lxor x 4294967295) z).
Definition Maj (x y z : Z) : Z := Z.lxor (Z.land x y) (Z.lxor (Z.land x z) (Z.land y z)).

(** The constants are the first 32 fractional bits of roots of small primes; they
    are computed from that description. *)
Definition is_prime (n : nat) : bool :=
  Nat.ltb 1 n && List.forallb (fun d => negb (Nat.eqb (Nat.modulo n d) 0)) (seq 2 (n - 2)).

Definition primes : list nat := Eval vm_compute in List.filter is_prime (seq 2 310).

(** The largest [r < 2^bits] above [r0] (in steps of the remaining bits) with
    [r^3 <= n]. *)
Fixpoint cube_root_from (bits : nat) (n r0 : Z) : Z :=
  match bits with
  | O => r0
  | S bits' =>
      let r := r0 + 2 ^ Z.of_nat bits' in
      cube_root_from bits' n (if r * r * r <=? n then r else r0)
  end.

(** 32 fractional bits: the root of the prime shifted left, whole part dropped. *)
Definition cube_root_bits (p : nat) : Z := w32 (cube_root_from 36 (Z.shiftl (Z.of_nat p) 96) 0).
Definition square_root_bits (p : nat) : Z := w32 (Z.sqrt (Z.shiftl (Z.of_nat p) 64)).

Definition K256 : list Z := Eval vm_compute in cube_root_bits <$> take 64 primes.

(** ** Padding and message schedule *)

Fixpoint be_bytes (n : nat) (x : Z) (acc : list Z) : list Z :=
  match n with
  | O => acc
  | S n' => be_bytes n' (x / 256) (x mod 256 :: acc)
  end.

Definition pad_message (m : list Z) : list Z :=
  let len := Z.of_nat (length m) in
  let zeros := (55 - len) mod 64 in
  m ++ 128 :: repeat 0 (Z.to_nat zeros) ++ be_bytes 8 (8 * len) [].

Fixpoint words_of (l : list Z) : list Z :=
  match l with
  | a :: b :: c :: d :: l' => (((a * 256 + b) * 256 + c) * 256 + d) :: words_of l'
  | _ => []
  end.

(** Extend the schedule (most recent word first) by [n] words. *)
Fixpoint schedule (n : nat) (ws : list Z) : list Z :=
  match n with
  | O => ws
  | S n' =>
      let at_ i := nth i ws 0 in
      schedule n' (w32 (sigma1 (at_ 1%nat) + at_ 6%nat + sigma0 (at_ 14%nat) + at_ 15%nat) :: ws)
  end.

(** ** Compression *)

Record State := MkState { sa : Z; sb : Z; sc : Z; sd : Z; se : Z; sf : Z; sg : Z; sh : Z }.

Definition H256 : State :=
  Eval vm_compute in
    (let h i := square_root_bits (nth i primes 0) in
     MkState (h 0) (h 1) (h 2) (h 3) (h 4) (h 5) (h 6) (h 7))%nat.

Definition round (st : State) (kw : Z * Z) : State :=
  let t1 := sh st + Sigma1 (se st) + Ch (se st) (sf st) (sg st) + kw.1 + kw.2 in
  let t2 := Sigma0 (sa st) + Maj (sa st) (sb st) (sc st) in
  MkState (w32 (t1 + t2)) (sa st) (sb st) (sc st) (w32 (sd st + t1)) (se st) (sf st) (sg st).

Definition compress (st : State) (block : list Z) : State :=
  let ws := rev (schedule 48 (rev block)) in
  let st' := fold_left round (zip K256 ws) st in
  MkState (w32 (sa st + sa st')) (w32 (sb st + sb st')) (w32 (sc st + sc st')) (w32 (sd st + sd st'))
    (w32 (se st + se st')) (w32 (sf st + sf st')) (w32 (sg st + sg st')) (w32 (sh st + sh st')).

(** Fold [compress] over blocks of 16 words; [n] is the number of blocks. *)
Fixpoint compress_all (n : nat) (st : State) (ws : list Z) : State :=
  match n with
  | O => st
  | S n' => compress_all n' (compress st (take 16 ws)) (drop 16 ws)
  end.

Definition Sum256 (m : list Z) : list Z :=
  let ws := words_of (pad_message m) in
  let st := compress_all (Nat.div (length ws) 16) H256 ws in
  flat_map (fun x => be_bytes 4 x []) [sa st; sb st; sc st; sd st; se st; sf st; sg st; sh st].

(** The hex SHA-256 of a string. *)
Definition sha256_hex (s : string) : string := hex_encode (Sum256 (bytes_of s)).

(** The FIPS 180-4 test vectors. *)
Example sha256_empty :
  sha256_hex "" = "e3b0c44298fc1c149afbf4c8996fb92427ae41e4649b934ca495991b7852b855".
Proof. vm_compute. reflexivity. Qed.
Example sha256_abc :
  sha256_hex "abc" = "ba7816bf8f01cfea414140de5dae2223b00361a396177a9cb410ff61f20015ad".
Proof. vm_compute. reflexivity. Qed.
Example sha256_two_blocks :
  sha256_hex "abcdbcdecdefdefgefghfghighijhijkijkljklmklmnlmnomnopnopq" =
  "248d6a61d20638b8e5c026930c3e6039a33ce45964ff2167f6ecedd419db06c1".
Proof. vm_compute. reflexivity. Qed.

(** ** Lemmas *)

Lemma length_hex_encode l : String.length (hex_encode l) = (2 * length l)%nat.
Proof. induction l as [|b l IH]; [done|]. cbn [hex_encode String.length length]. lia. Qed.

Lemma hex_digit_inj a b : 0 <= a < 16 -> 0 <= b < 16 -> hex_digit a = hex_digit b -> a = b.
Proof.
  intros Ha Hb.
  assert (Hall : Forall (fun a => Forall (fun b => hex_digit a = hex_digit b -> a = b) (seqZ 0 16)) (seqZ 0 16)).
  { vm_compute. repeat constructor; intros; congruence. }
  rewrite Forall_forall in Hall. intros Heq.
  specialize (Hall a). rewrite Forall_forall in Hall. apply Hall; [..|done];
    apply elem_of_seqZ; lia.
Qed.

(** Encoding bytes loses nothing. *)
Lemma hex_encode_inj l1 l2 :
  Forall (fun b => 0 <= b < 256) l1 -> Forall (fun b => 0 <= b < 256) l2 ->
  hex_encode l1 = hex_encode l2 -> l1 = l2.
Proof.
  revert l2. induction l1 as [|a l1 IH]; intros [|b l2] H1 H2; cbn [hex_encode]; try done.
  intros [= Hq Hr Heq]. inversion_clear H1. inversion_clear H2.
  f_equal; [|by apply IH].
  apply hex_digit_inj in Hq; [|split; [apply Z.div_pos; lia|apply Z.div_lt_upper_bound; lia]..].
  apply hex_digit_inj in Hr; [|apply Z.mod_pos_bound; lia..].
  rewrite (Z.div_mod a 16), (Z.div_mod b 16) by lia. congruence.
Qed.

#[global] Opaque Sum256.
