(* ===== verification/Nftables.v ===== *)
(** * The nftables programmer (internal/spoke/netfw/nftables.go)

    The firewall programmer that runs the [nft] program: per box a chain and two
    sets of allowed addresses, opened and closed an element at a time.  [nft] is
    the class [Nft], with its documented behaviour on the commands used as
    [NftLaws]; [SimNft] is a rule set that obeys them. *)

From S2P Require Import Prelude GoStrings Dnsd Netfw Isolation Sha256.

Local Open Scope Z_scope.

(** ** Addresses as text ([netip.Addr.String], [netip.Prefix.String]) *)

(** The byte at position [i], counting from the most significant of [n]. *)
Definition byte_at (n i a : Z) : Z := (a / 2 ^ (8 * (n - 1 - i))) mod 256.

Definition string4 (a : Z) : string :=
  Itoa (byte_at 4 0 a) +:+ "." +:+ Itoa (byte_at 4 1 a) +:+ "." +:+ Itoa (byte_at 4 2 a) +:+ "." +:+ Itoa (byte_at 4 3 a).

(** A 16-bit group in hexadecimal without leading zeros. *)
Definition hex_group (g : Z) : string :=
  let ds := [g / 4096; (g / 256) mod 16; (g / 16) mod 16; g mod 16] in
  let fix strip (l : list Z) : string :=
    match l with
    | [] => ""
    | [d] => String (hex_digit d) ""
    | d :: l' => if d =? 0 then strip l' else (fix show (l : list Z) : string :=
        match l with [] => "" | d :: l' => String (hex_digit d) (show l') end) l
    end in
  strip ds.

Definition groups (a : Z) : list Z := (fun i => (a / 2 ^ (16 * (7 - i))) mod 65536) <$> [0; 1; 2; 3; 4; 5; 6; 7].

Fixpoint zeros_from (l : list Z) : nat :=
  match l with
  | g :: l' => if g =? 0 then S (zeros_from l') else O
  | [] => O
  end.

(** The first longest run of at least two zero groups: its start and length. *)
Fixpoint zero_run (gs : list Z) (i : nat) (best : nat * nat) : nat * nat :=
  match gs with
  | [] => best
  | _ :: gs' =>
      let l := zeros_from gs in
      zero_run gs' (S i) (if (2 <=? l)%nat && (best.2 <? l)%nat then (i, l) else best)
  end.

Definition string6 (a : Z) : string :=
  let gs := groups a in
  let '(z, l) := zero_run gs 0 (0, 0)%nat in
  let show := fun gs => Join (hex_group <$> gs) ":" in
  if Nat.eqb l 0 then show gs else show (take z gs) +:+ "::" +:+ show (drop (z + l) gs).

(** An IPv4-mapped address keeps its dotted form. *)
Definition addr_String (ip : Addr) : string :=
  match ip with
  | AddrZero => "invalid IP"
  | Addr4 a => string4 a
  | Addr6 a => if a / 2 ^ 32 =? 65535 then "::ffff:" +:+ string4 (a mod 2 ^ 32) else string6 a
  end.

Definition valid_prefix (p : Prefix) : bool :=
  match pfx_Addr p with
  | AddrZero => false
  | Addr4 _ => (0 <=? pfx_Bits p) && (pfx_Bits p <=? 32)
  | Addr6 _ => (0 <=? pfx_Bits p) && (pfx_Bits p <=? 128)
  end.

Definition prefix_String (p : Prefix) : string :=
  if valid_prefix p then addr_String (pfx_Addr p) +:+ "/" +:+ Itoa (pfx_Bits p) else "invalid Prefix".

Definition Is6 (ip : Addr) : bool := match ip with Addr6 _ => true | _ => false end.

Example addresses_as_text :
  (addr_String (Addr4 3232235777), addr_String (Addr6 1), addr_String (Addr6 (2 ^ 125 + 1)),
   addr_String (Addr6 (65535 * 2 ^ 32 + 16909060)), prefix_String (MkPrefix (Addr4 167772162) 32)) =
  ("192.168.1.1", "::1", "2000::1", "::ffff:1.2.3.4", "10.0.0.2/32").
Proof. vm_compute. reflexivity. Qed.

(** ** The programmer *)

Definition tableName : string := "llmbox_isolation".

(** [Runner]: the [nft] invocation with its arguments; the error is its text. *)
Class Nft (N : Type) := { nft : list string -> N -> N * option string }.

Record NFTables (N : Type) := MkNFTables { nf_run : N; nf_tableEnsured : bool }.
Arguments MkNFTables {N}.
Arguments nf_run {N}.
Arguments nf_tableEnsured {N}.

Definition NewNFTables {N} (run : N) : NFTables N := MkNFTables run false.

Definition boxHash (boxID : string) : string := String.substring 0 12 (hex_encode (Sum256 (bytes_of boxID))).
Definition chainName (boxID : string) : string := "box_" +:+ boxHash boxID.
Definition set4Name (boxID : string) : string := "a4_" +:+ boxHash boxID.
Definition set6Name (boxID : string) : string := "a6_" +:+ boxHash boxID.

Definition isNotFound (err : string) : bool := Contains err "No such file or directory".

(** The commands of [Baseline], in order. *)
Definition baseline_commands (boxID : string) (spec : BoxSpec) : list (list string) :=
  let chain := chainName boxID in
  let s4 := set4Name boxID in
  let s6 := set6Name boxID in
  let src := prefix_String (bs_Source spec) in
  let dns := addr_String (bs_DNS spec) in
  [["add"; "set"; "inet"; tableName; s4; "{ type ipv4_addr; flags interval; }"];
   ["add"; "set"; "inet"; tableName; s6; "{ type ipv6_addr; flags interval; }"];
   ["add"; "chain"; "inet"; tableName; chain; "{ type filter hook forward priority 0; policy accept; }"];
   ["add"; "rule"; "inet"; tableName; chain; "ip"; "saddr"; src; "udp"; "dport"; "53"; "ip"; "daddr"; dns; "accept"];
   ["add"; "rule"; "inet"; tableName; chain; "ip"; "saddr"; src; "tcp"; "dport"; "53"; "ip"; "daddr"; dns; "accept"];
   ["add"; "rule"; "inet"; tableName; chain; "ip"; "saddr"; src; "ip"; "daddr"; "@" +:+ s4; "accept"];
   ["add"; "rule"; "inet"; tableName; chain; "ip6"; "saddr"; src; "ip6"; "daddr"; "@" +:+ s6; "accept"];
   ["add"; "rule"; "inet"; tableName; chain; "ip"; "saddr"; src; "drop"]].

Definition teardown_commands (boxID : string) : list (list string) :=
  [["delete"; "chain"; "inet"; tableName; chainName boxID];
   ["delete"; "set"; "inet"; tableName; set4Name boxID];
   ["delete"; "set"; "inet"; tableName; set6Name boxID]].

Section Programmer.
Context {N : Type} `{Nft N}.
Implicit Types (n : NFTables N).

(** One invocation; the state of the programmer is the rule set. *)
Definition run (args : list string) n : NFTables N * option string :=
  let '(r, e) := nft args (nf_run n) in (MkNFTables r (nf_tableEnsured n), e).

Definition ensureTable n : NFTables N * option string :=
  if nf_tableEnsured n then (n, None)
  else
    match run ["add"; "table"; "inet"; tableName] n with
    | (n', Some e) => (n', Some e)
    | (n', None) => (MkNFTables (nf_run n') true, None)
    end.

(** The loops over commands: stop at the first error that is not [benign]. *)
Fixpoint run_all (benign : string -> bool) (cmds : list (list string)) n : NFTables N * option string :=
  match cmds with
  | [] => (n, None)
  | c :: cmds' =>
      match run c n with
      | (n', Some e) => if benign e then run_all benign cmds' n' else (n', Some e)
      | (n', None) => run_all benign cmds' n'
      end
  end.

Definition NFT_Baseline (boxID : string) (spec : BoxSpec) n : NFTables N * option string :=
  match ensureTable n with
  | (n', Some e) => (n', Some e)
  | (n', None) => run_all (fun _ => false) (baseline_commands boxID spec) n'
  end.

Definition set_for (boxID : string) (ip : Addr) : string := if Is6 ip then set6Name boxID else set4Name boxID.

Definition NFT_Allow (boxID : string) (ip : Addr) n : NFTables N * option string :=
  run ["add"; "element"; "inet"; tableName; set_for boxID ip; "{ " +:+ addr_String ip +:+ " }"] n.

Definition NFT_Revoke (boxID : string) (ip : Addr) n : NFTables N * option string :=
  run ["delete"; "element"; "inet"; tableName; set_for boxID ip; "{ " +:+ addr_String ip +:+ " }"] n.

Definition NFT_Teardown (boxID : string) n : NFTables N * option string :=
  run_all isNotFound (teardown_commands boxID) n.
End Programmer.

(** ** What [nft] does with these commands *)

(** An address of a rule must be of the family it is matched against: [ip] takes
    no IPv6 address and [ip6] only IPv6 addresses; a set is given by [@name]. *)
Definition operand_ok (family x : string) : bool :=
  HasPrefix x "@" ||
  (if String.eqb family "ip6" then ContainsByte x ":" else negb (ContainsByte x ":")).

Fixpoint families_ok (args : list string) : bool :=
  match args with
  | [] => true
  | f :: args' =>
      match args' with
      | k :: x :: _ =>
          (if (String.eqb f "ip" || String.eqb f "ip6") && (String.eqb k "saddr" || String.eqb k "daddr")
           then operand_ok f x else true) && families_ok args'
      | _ => true
      end
  end.

(** [set_elems]: the texts in a set; [chain_rules]: the rules of the chains, in order.  A
    command that fails changes nothing. *)
Class NftLaws (N : Type) `{Nft N} := {
  set_elems : N -> string -> gset string;
  chain_rules : N -> list (list string);
  Nft_err args n n' e : nft args n = (n', Some e) -> set_elems n' = set_elems n /\ chain_rules n' = chain_rules n;
  Nft_rule args n n' : nft ("add" :: "rule" :: args) n = (n', None) ->
    families_ok args = true /\ set_elems n' = set_elems n /\ chain_rules n' = chain_rules n ++ [args];
  Nft_create kind args n n' : kind ∈ ["table"; "set"; "chain"] -> nft ("add" :: kind :: args) n = (n', None) ->
    set_elems n' = set_elems n /\ chain_rules n' = chain_rules n;
  Nft_element t s x n n' : nft ["add"; "element"; "inet"; t; s; "{ " +:+ x +:+ " }"] n = (n', None) ->
    (forall s', set_elems n' s' = if decide (s' = s) then {[x]} ∪ set_elems n s' else set_elems n s') /\ chain_rules n' = chain_rules n;
  Nft_unelement t s x n n' : nft ["delete"; "element"; "inet"; t; s; "{ " +:+ x +:+ " }"] n = (n', None) ->
    (forall s', set_elems n' s' = if decide (s' = s) then set_elems n s' ∖ {[x]} else set_elems n s') /\ chain_rules n' = chain_rules n;
  Nft_unset t s n n' : nft ["delete"; "set"; "inet"; t; s] n = (n', None) ->
    (forall s', set_elems n' s' = if decide (s' = s) then ∅ else set_elems n s') /\ chain_rules n' = chain_rules n;
  Nft_unset_gone t s n n' e : nft ["delete"; "set"; "inet"; t; s] n = (n', Some e) -> isNotFound e = true -> set_elems n s = ∅;
  Nft_unchain t c n n' : nft ["delete"; "chain"; "inet"; t; c] n = (n', None) -> set_elems n' = set_elems n;
}.

(** No address starts with the sign of a set. *)
Lemma HasPrefix_at s t : s <> "" -> HasPrefix (s +:+ t) "@" = HasPrefix s "@".
Proof. destruct s as [|c s]; [done|]. intros _. rewrite sapp_cons. cbn [HasPrefix]. by destruct (s +:+ t), s. Qed.

Lemma Itoa_byte b : 0 <= b < 256 -> Itoa b <> "" /\ HasPrefix (Itoa b) "@" = false.
Proof.
  intros Hb. assert (Hall : forallb (fun b => negb (String.eqb (Itoa b) "") && negb (HasPrefix (Itoa b) "@")) (seqZ 0 256) = true)
    by (vm_compute; reflexivity).
  rewrite forallb_forall in Hall. specialize (Hall b). rewrite <- list_elem_of_In, elem_of_seqZ in Hall.
  specialize (Hall ltac:(lia)). by bools.
Qed.

Lemma hex_group_plain g : 0 <= g < 65536 -> hex_group g <> "" /\ HasPrefix (hex_group g) "@" = false.
Proof.
  intros Hg. assert (Hd : forall d, 0 <= d < 16 -> Ascii.eqb "@" (hex_digit d) = false).
  { intros d Hd. assert (Hall : forallb (fun d => negb (Ascii.eqb "@" (hex_digit d))) (seqZ 0 16) = true) by (vm_compute; reflexivity).
    rewrite forallb_forall in Hall. specialize (Hall d). rewrite <- list_elem_of_In, elem_of_seqZ in Hall.
    specialize (Hall ltac:(lia)). by bools. }
  assert (H1 : 0 <= g / 4096 < 16) by (split; [apply Z.div_pos; lia|apply Z.div_lt_upper_bound; lia]).
  pose proof (Z.mod_pos_bound (g / 256) 16 ltac:(lia)). pose proof (Z.mod_pos_bound (g / 16) 16 ltac:(lia)).
  pose proof (Z.mod_pos_bound g 16 ltac:(lia)).
  unfold hex_group. repeat match goal with |- context [if ?b then _ else _] => destruct b end;
    (split; [discriminate|]); cbn [HasPrefix]; rewrite Hd by done; reflexivity.
Qed.

Lemma string4_plain a : string4 a <> "" /\ HasPrefix (string4 a) "@" = false.
Proof.
  destruct (Itoa_byte (byte_at 4 0 a)) as [Hn Hp]; [apply Z.mod_pos_bound; lia|]. unfold string4. split.
  - by destruct (Itoa (byte_at 4 0 a)).
  - by rewrite HasPrefix_at.
Qed.

Lemma groups_plain a gs : (exists z, gs = take z (groups a)) \/ gs = groups a -> gs <> [] ->
  Join (hex_group <$> gs) ":" <> "" /\ HasPrefix (Join (hex_group <$> gs) ":") "@" = false.
Proof.
  intros Hgs Hne. assert (Hall : Forall (fun g => 0 <= g < 65536) (groups a)).
  { apply Forall_fmap, Forall_forall. intros i _. apply Z.mod_pos_bound. lia. }
  assert (Hall' : Forall (fun g => 0 <= g < 65536) gs) by (destruct Hgs as [[z ->]| ->]; [by apply Forall_take|done]).
  destruct gs as [|g gs]; [done|]. inversion Hall'; subst. destruct (hex_group_plain g) as [Hn Hp]; [done|].
  destruct gs as [|g' gs]; [done|]. change (hex_group <$> g :: g' :: gs) with (hex_group g :: (hex_group <$> g' :: gs)).
  change (Join (hex_group g :: (hex_group <$> g' :: gs)) ":") with (hex_group g +:+ ":" +:+ Join (hex_group <$> g' :: gs) ":").
  split; [by destruct (hex_group g)|]. by rewrite HasPrefix_at.
Qed.

Lemma addr_String_plain ip : addr_String ip <> "" /\ HasPrefix (addr_String ip) "@" = false.
Proof.
  destruct ip as [|a|a]; [done|apply string4_plain|]. cbn [addr_String]. destruct (_ =? 65535); [done|].
  unfold string6. destruct (zero_run _ _ _) as [z l]. destruct (Nat.eqb l 0); [apply (groups_plain a); [by right|done]|].
  destruct (decide (take z (groups a) = [])) as [->|Hne]; [done|].
  destruct (groups_plain a (take z (groups a))) as [Hn Hp]; [eauto|done|].
  split; [by destruct (Join _ _)|]. by rewrite HasPrefix_at.
Qed.

Lemma prefix_String_plain p : HasPrefix (prefix_String p) "@" = false.
Proof.
  unfold prefix_String. destruct (valid_prefix p); [|done]. destruct (addr_String_plain (pfx_Addr p)). by rewrite HasPrefix_at.
Qed.

Section Behaviour.
Context {N : Type} `{NftLaws N}.
Implicit Types (n : NFTables N).

(** A command [nft] refuses whatever the rule set. *)
Definition refused (c : list string) : Prop := forall n, (run c n).2 <> None.

Lemma refused_rule args : families_ok args = false -> refused ("add" :: "rule" :: args).
Proof.
  intros Hf n. unfold run. destruct (nft _ _) as [r [e|]] eqn:Hr; [done|]. apply Nft_rule in Hr as [Hok _]. congruence.
Qed.

(** The creating commands add at most their own rule. *)
Definition creating (c : list string) : Prop :=
  exists kind args, c = "add" :: kind :: args /\ kind ∈ ["table"; "set"; "chain"; "rule"].

Lemma run_creating c n n' r :
  creating c -> run c n = (n', r) ->
  set_elems (nf_run n') = set_elems (nf_run n) /\ nf_tableEnsured n' = nf_tableEnsured n /\
  forall x, x ∈ chain_rules (nf_run n') -> x ∈ chain_rules (nf_run n) \/ c = "add" :: "rule" :: x.
Proof.
  intros (kind & args & -> & Hk). unfold run. destruct (nft _ _) as [s e] eqn:Hn. intros [= <- <-]. cbn [nf_run nf_tableEnsured].
  destruct e as [e|]; [apply Nft_err in Hn as [-> ->]; auto|].
  destruct (decide (kind = "rule")) as [->|Hne].
  - apply Nft_rule in Hn as (_ & -> & ->). split; [done|]. split; [done|]. set_solver.
  - apply Nft_create in Hn as [-> ->]; [auto|set_solver].
Qed.

(** A refused command ends the list, and only the commands before it took effect. *)
Lemma run_all_refused pre c post n :
  Forall creating pre -> refused c ->
  exists e n', run_all (fun _ => false) (pre ++ c :: post) n = (n', Some e) /\
    set_elems (nf_run n') = set_elems (nf_run n) /\
    forall x, x ∈ chain_rules (nf_run n') -> x ∈ chain_rules (nf_run n) \/ ("add" :: "rule" :: x) ∈ pre.
Proof.
  intros Hpre Hc. revert n. induction Hpre as [|d pre Hd Hpre IH]; intros n; cbn [app run_all].
  - destruct (run c n) as [n' e] eqn:Hr. pose proof (Hc n) as Href. rewrite Hr in Href. destruct e as [e|]; [|done].
    exists e, n'. split; [done|]. unfold run in Hr. destruct (nft c _) as [s o] eqn:Hn. injection Hr as <- ->.
    destruct (Nft_err _ _ _ _ Hn) as [He Hru]. cbn [nf_run]. rewrite He, Hru. auto.
  - destruct (run d n) as [n1 [e|]] eqn:Hr; pose proof (run_creating _ _ _ _ Hd Hr) as (He & _ & Hx).
    + exists e, n1. split; [done|]. split; [done|]. intros x Hin. destruct (Hx x Hin) as [|<-]; [auto|right; set_solver].
    + destruct (IH n1) as (e & n' & -> & He' & Hx'). exists e, n'. split; [done|]. split; [congruence|].
      intros x Hin. destruct (Hx' x Hin) as [Hin'|]; [|right; set_solver].
      destruct (Hx x Hin') as [|<-]; [auto|right; set_solver].
Qed.

Ltac creating_all := repeat constructor; eexists _, _; (split; [reflexivity|set_solver]).

Lemma operand_family p :
  operand_ok "ip" (prefix_String p) = negb (ContainsByte (prefix_String p) ":") /\
  operand_ok "ip6" (prefix_String p) = ContainsByte (prefix_String p) ":".
Proof. unfold operand_ok. by rewrite prefix_String_plain. Qed.

(** The commands reach one that is refused before the rule that drops. *)
Lemma baseline_split boxID spec :
  exists pre c post, baseline_commands boxID spec = pre ++ c :: post /\ Forall creating pre /\ refused c /\
    forall x, ("add" :: "rule" :: x) ∈ pre -> last x <> Some "drop".
Proof.
  destruct (operand_family (bs_Source spec)) as [H4 H6]. set (cmds := baseline_commands boxID spec).
  destruct (ContainsByte (prefix_String (bs_Source spec)) ":") eqn:Hc.
  - exists (take 3 cmds), (nth 3 cmds []), (drop 4 cmds). split; [done|]. split; [creating_all|]. split.
    + apply refused_rule. cbn -[operand_ok prefix_String addr_String chainName]. rewrite H4. by rewrite andb_false_r.
    + cbn. set_solver.
  - exists (take 6 cmds), (nth 6 cmds []), (drop 7 cmds). split; [done|]. split; [creating_all|]. split.
    + apply refused_rule. cbn -[operand_ok prefix_String addr_String chainName]. rewrite H6. by rewrite andb_false_r.
    + intros x Hx. cbn in Hx. rewrite !elem_of_cons in Hx.
      destruct Hx as [Hx|[Hx|[Hx|[Hx|[Hx|[Hx|Hx]]]]]]; try discriminate; try (injection Hx as ->; discriminate).
      by apply not_elem_of_nil in Hx.
Qed.

Lemma baseline_commands_stop boxID spec n :
  exists e n', run_all (fun _ => false) (baseline_commands boxID spec) n = (n', Some e) /\
    set_elems (nf_run n') = set_elems (nf_run n) /\
    forall x, x ∈ chain_rules (nf_run n') -> last x = Some "drop" -> x ∈ chain_rules (nf_run n).
Proof.
  destruct (baseline_split boxID spec) as (pre & c & post & -> & Hpre & Hc & Hnd).
  destruct (run_all_refused pre c post n Hpre Hc) as (e & n' & -> & He & Hx). exists e, n'. split; [done|]. split; [done|].
  intros x Hin Hl. destruct (Hx x Hin) as [|Hp]; [done|]. by destruct (Hnd x Hp).
Qed.

Lemma NFT_Baseline_fails boxID spec n :
  exists e n', NFT_Baseline boxID spec n = (n', Some e) /\ set_elems (nf_run n') = set_elems (nf_run n) /\
    forall x, x ∈ chain_rules (nf_run n') -> last x = Some "drop" -> x ∈ chain_rules (nf_run n).
Proof.
  unfold NFT_Baseline, ensureTable. destruct (nf_tableEnsured n); [apply baseline_commands_stop|].
  destruct (run _ n) as [n1 r] eqn:Hr. apply run_creating in Hr as (He & _ & Hx); [|eexists _, _; split; [done|set_solver]].
  assert (Hold : forall x, x ∈ chain_rules (nf_run n1) -> x ∈ chain_rules (nf_run n)) by (intros x Hin; by destruct (Hx x Hin)).
  destruct r as [e|]; [exists e, n1; eauto|].
  destruct (baseline_commands_stop boxID spec (MkNFTables (nf_run n1) true)) as (e & n' & -> & He' & Hx').
  exists e, n'. split; [done|]. split; [by rewrite He', <- He|]. intros x Hin Hl. apply Hold. by apply Hx'.
Qed.

(** *** Opening, closing and removing *)

Lemma NFT_Allow_spec boxID ip n n' e :
  NFT_Allow boxID ip n = (n', e) ->
  forall s, set_elems (nf_run n') s =
    if decide (e = None /\ s = set_for boxID ip) then {[addr_String ip]} ∪ set_elems (nf_run n) s else set_elems (nf_run n) s.
Proof.
  unfold NFT_Allow, run. destruct (nft _ _) as [r o] eqn:Hn. intros [= <- <-] s. cbn [nf_run]. destruct o as [e|].
  - apply Nft_err in Hn as [-> _]. rewrite decide_False by (by intros [? _]). done.
  - apply Nft_element in Hn as [-> _]. repeat case_decide; naive_solver.
Qed.

Lemma NFT_Revoke_spec boxID ip n n' e :
  NFT_Revoke boxID ip n = (n', e) ->
  forall s, set_elems (nf_run n') s =
    if decide (e = None /\ s = set_for boxID ip) then set_elems (nf_run n) s ∖ {[addr_String ip]} else set_elems (nf_run n) s.
Proof.
  unfold NFT_Revoke, run. destruct (nft _ _) as [r o] eqn:Hn. intros [= <- <-] s. cbn [nf_run]. destruct o as [e|].
  - apply Nft_err in Hn as [-> _]. rewrite decide_False by (by intros [? _]). done.
  - apply Nft_unelement in Hn as [-> _]. repeat case_decide; naive_solver.
Qed.

(** A set whose removal succeeded, or that was already gone, is empty. *)
Lemma unset_spec t s n n' e :
  run ["delete"; "set"; "inet"; t; s] n = (n', e) ->
  (forall s', s' <> s -> set_elems (nf_run n') s' = set_elems (nf_run n) s') /\
  ((forall x, e = Some x -> isNotFound x = true) -> set_elems (nf_run n') s = ∅).
Proof.
  unfold run. destruct (nft _ _) as [r o] eqn:Hn. intros [= <- <-]. cbn [nf_run]. destruct o as [x|].
  - destruct (Nft_err _ _ _ _ Hn) as [-> _]. split; [done|]. intros Hx. eapply Nft_unset_gone; [exact Hn|by apply Hx].
  - apply Nft_unset in Hn as [He _]. split; [intros s' Hne; rewrite He; by rewrite decide_False|].
    intros _. rewrite He. by rewrite decide_True.
Qed.

Lemma run_all_cons benign c cs n n' :
  run_all benign (c :: cs) n = (n', None) ->
  exists n1 e, run c n = (n1, e) /\ (forall x, e = Some x -> benign x = true) /\ run_all benign cs n1 = (n', None).
Proof.
  cbn [run_all]. destruct (run c n) as [n1 [e|]]; [destruct (benign e) eqn:Hb; [|done]|]; intros Ht.
  - exists n1, (Some e). split; [done|]. split; [|done]. by intros x [= <-].
  - by exists n1, None.
Qed.

(** [Teardown] empties the box's two sets and no other, and succeeds when every
    object was removed or already gone. *)
Lemma NFT_Teardown_spec boxID n n' :
  NFT_Teardown boxID n = (n', None) ->
  set_elems (nf_run n') (set4Name boxID) = ∅ /\ set_elems (nf_run n') (set6Name boxID) = ∅ /\
  forall s, s <> set4Name boxID -> s <> set6Name boxID -> set_elems (nf_run n') s = set_elems (nf_run n) s.
Proof.
  intros Ht.
  assert (H46 : set4Name boxID <> set6Name boxID) by (unfold set4Name, set6Name; rewrite !sapp_cons; discriminate).
  apply run_all_cons in Ht as (n1 & e1 & H1 & _ & Ht). apply run_all_cons in Ht as (n2 & e2 & H2 & Hx2 & Ht).
  apply run_all_cons in Ht as (n3 & e3 & H3 & Hx3 & Ht). injection Ht as <-.
  destruct (unset_spec _ _ _ _ _ H2) as [Ho2 He2]. destruct (unset_spec _ _ _ _ _ H3) as [Ho3 He3].
  assert (Hc : set_elems (nf_run n1) = set_elems (nf_run n)).
  { unfold run in H1. destruct (nft _ _) as [r o] eqn:Hn. injection H1 as <- <-. cbn [nf_run].
    destruct o; [by apply Nft_err in Hn as [-> _]|by apply Nft_unchain in Hn]. }
  split; [rewrite Ho3 by done; auto|]. split; [auto|]. intros s Hs4 Hs6. by rewrite Ho3, Ho2, Hc.
Qed.
End Behaviour.

(** ** The interface the isolation enforcer uses *)

Section AsProgrammer.
Context {N : Type} `{NftLaws N}.

Definition succeeded {A B} (r : A * option B) : A * bool := (r.1, match r.2 with None => true | Some _ => false end).

(** An address is open to a box when the set of its family holds it. *)
#[export] Instance NFTProgrammer : Programmer (NFTables N) := {|
  Baseline b spec n := succeeded (NFT_Baseline b spec n);
  Allow b ip n := succeeded (NFT_Allow b ip n);
  Revoke b ip n := succeeded (NFT_Revoke b ip n);
  Teardown b n := succeeded (NFT_Teardown b n);
  opened n b ip := bool_decide (addr_String ip ∈ set_elems (nf_run n) (set_for b ip));
|}.

(** The enforcer over [nft] refuses every box: it opens nothing to it, records no
    policy and no address for it, and its drop rule is not installed. *)
Lemma nft_enforcer_configures_nothing boxID spec guestIP rules (e : Enforcer (NFTables N)) :
  exists e', Configure boxID spec guestIP rules e = (e', false) /\
    en_policy e' = en_policy e /\ en_boxes e' = en_boxes e /\ en_guestIPs e' = en_guestIPs e /\
    (forall b ip, opened (en_prog e') b ip = opened (en_prog e) b ip) /\
    forall r, r ∈ chain_rules (nf_run (en_prog e')) -> last r = Some "drop" -> r ∈ chain_rules (nf_run (en_prog e)).
Proof.
  unfold Configure. cbn [Baseline NFTProgrammer]. unfold succeeded.
  destruct (NFT_Baseline_fails boxID spec (en_prog e)) as (x & n' & -> & He & Hr). cbn [fst snd].
  eexists. split; [reflexivity|]. repeat (split; [done|]). split; [|done].
  intros b ip. cbn. by rewrite He.
Qed.
End AsProgrammer.

(** ** A rule set that obeys the laws *)

Record SimRules := MkSimRules {
  sr_names : gset string;
  sr_sets : gmap string (gset string);
  sr_rules : list (list string);
}.

Definition unbrace (x : string) : string := String.substring 2 (String.length x - 4) x.

Lemma unbrace_braces x : unbrace ("{ " +:+ x +:+ " }") = x.
Proof.
  unfold unbrace. rewrite !slength_app. replace (_ - 4)%nat with (String.length x) by (cbn; lia).
  apply (substring_mid "{ " x " }").
Qed.

Definition sim_elems (n : SimRules) (s : string) : gset string := default ∅ (sr_sets n !! s).

Definition set_elems_to (s : string) (es : gset string) (n : SimRules) : SimRules :=
  MkSimRules (sr_names n) (<[s := es]> (sr_sets n)) (sr_rules n).

Definition not_found : string := "Error: No such file or directory".

Definition sim_add (kind : string) (args : list string) (n : SimRules) : SimRules * option string :=
  if String.eqb kind "rule" then
    if families_ok args then (MkSimRules (sr_names n) (sr_sets n) (sr_rules n ++ [args]), None)
    else (n, Some "Error: Could not resolve hostname")
  else if String.eqb kind "element" then
    match args with
    | [_; _; s; x] =>
        if decide (s ∈ sr_names n) then (set_elems_to s ({[unbrace x]} ∪ sim_elems n s) n, None) else (n, Some not_found)
    | _ => (n, Some "syntax error")
    end
  else if String.eqb kind "set" then (MkSimRules ({[nth 2 args ""]} ∪ sr_names n) (sr_sets n) (sr_rules n), None)
  else (n, None).

Definition sim_delete (kind : string) (args : list string) (n : SimRules) : SimRules * option string :=
  match args with
  | [_; _; s; x] =>
      if decide (s ∈ sr_names n) then (set_elems_to s (sim_elems n s ∖ {[unbrace x]}) n, None) else (n, Some not_found)
  | [_; _; s] =>
      if String.eqb kind "set" then
        if decide (s ∈ sr_names n \/ is_Some (sr_sets n !! s))
        then (MkSimRules (sr_names n ∖ {[s]}) (delete s (sr_sets n)) (sr_rules n), None) else (n, Some not_found)
      else (MkSimRules (sr_names n) (sr_sets n) (filter (fun r => nth 2 r "" <> s) (sr_rules n)), None)
  | _ => (n, Some "syntax error")
  end.

Definition sim_nft (args : list string) (n : SimRules) : SimRules * option string :=
  match args with
  | verb :: kind :: args' => if String.eqb verb "add" then sim_add kind args' n else sim_delete kind args' n
  | _ => (n, Some "syntax error")
  end.

#[export] Instance SimNft : Nft SimRules := {| nft := sim_nft |}.

Lemma sim_elems_to s es n s' : sim_elems (set_elems_to s es n) s' = if decide (s' = s) then es else sim_elems n s'.
Proof.
  unfold sim_elems, set_elems_to. cbn [sr_sets]. case_decide as Hd; [subst; by rewrite lookup_insert_eq|by rewrite lookup_insert_ne].
Qed.

Lemma sim_err args n n' e : sim_nft args n = (n', Some e) -> n' = n.
Proof.
  unfold sim_nft, sim_add, sim_delete. intros Hn.
  repeat match type of Hn with context [match ?x with _ => _ end] => destruct x end; by injection Hn.
Qed.

#[export] Program Instance SimNftLaws : NftLaws SimRules := {| set_elems := sim_elems; chain_rules := sr_rules |}.
Next Obligation. intros args n n' e Hn. by apply sim_err in Hn as ->. Qed.
Next Obligation. intros args n n'. cbn. unfold sim_add. cbn. destruct (families_ok args); [|done]. by intros [= <-]. Qed.
Next Obligation.
  intros kind args n n' Hk. rewrite !elem_of_cons, elem_of_nil in Hk. cbn. unfold sim_add.
  destruct Hk as [->|[->|[->|[]]]]; cbn; by intros [= <-].
Qed.
Next Obligation.
  intros t s x n n'. cbn -[unbrace]. unfold sim_add. cbn -[unbrace String.append]. case_decide; [|done]. intros [= <-].
  split; [|done]. intros s'. rewrite sim_elems_to, unbrace_braces. case_decide; by subst.
Qed.
Next Obligation.
  intros t s x n n'. cbn -[unbrace]. unfold sim_delete. cbn -[unbrace String.append]. case_decide; [|done]. intros [= <-].
  split; [|done]. intros s'. rewrite sim_elems_to, unbrace_braces. case_decide; by subst.
Qed.
Next Obligation.
  intros t s n n'. cbn. case_decide; [|done]. intros [= <-]. split; [|done]. intros s'. unfold sim_elems. cbn [sr_sets].
  case_decide; [subst; by rewrite lookup_delete_eq|by rewrite lookup_delete_ne].
Qed.
Next Obligation.
  intros t s n n' e. cbn. case_decide as Hd; [done|]. intros [= _ _] _. unfold sim_elems.
  destruct (sr_sets n !! s) eqn:Hs; [|done]. destruct Hd. right. eauto.
Qed.
Next Obligation. intros t c n n'. cbn. by intros [= <-]. Qed.

Definition empty_rules : SimRules := MkSimRules ∅ ∅ [].

Definition sim_enforcer : Enforcer (NFTables SimRules) := MkEnforcer NewStaticPolicy NewMapBoxes (NewPinner (NewNFTables empty_rules)) ∅.

(** An IPv4 box: the rules before the one that is refused stay behind, the drop rule does not exist. *)
Example drop_rule_never_installed :
  exists e', Configure "box-1" (MkBoxSpec (MkPrefix (Addr4 167772162) 32) (Addr4 167772161)) (Addr4 167772162) [] sim_enforcer = (e', false) /\
    length (sr_rules (nf_run (en_prog e'))) = 3%nat /\ en_policy e' = en_policy sim_enforcer.
Proof.
  destruct (nft_enforcer_configures_nothing "box-1" (MkBoxSpec (MkPrefix (Addr4 167772162) 32) (Addr4 167772161)) (Addr4 167772162) [] sim_enforcer)
    as (e' & He & Hp & _). exists e'. split; [exact He|]. split; [|exact Hp].
  assert (Hr : (Configure "box-1" (MkBoxSpec (MkPrefix (Addr4 167772162) 32) (Addr4 167772161)) (Addr4 167772162) [] sim_enforcer).1 = e') by (by rewrite He).
  rewrite <- Hr. vm_compute. reflexivity.
Qed.

(** Addresses opened by [Allow] go to the set of their family and are closed by [Revoke] and [Teardown]. *)
Example families_and_teardown :
  let n0 := NewNFTables empty_rules in
  let n1 := (run_all (fun _ => false) (take 2 (baseline_commands "box-1" (MkBoxSpec (MkPrefix (Addr4 167772162) 32) (Addr4 167772161)))) n0).1 in
  let n2 := (NFT_Allow "box-1" (Addr6 1) (NFT_Allow "box-1" (Addr4 16909060) n1).1).1 in
  let n3 := (NFT_Revoke "box-1" (Addr4 16909060) n2).1 in
  let n4 := NFT_Teardown "box-1" n3 in
  (sim_elems (nf_run n2) (set4Name "box-1"), sim_elems (nf_run n2) (set6Name "box-1")) = ({["1.2.3.4"]}, {["::1"]}) /\
  opened n3 "box-1" (Addr4 16909060) = false /\ opened n3 "box-1" (Addr6 1) = true /\ n4.2 = None /\ opened n4.1 "box-1" (Addr6 1) = false /\
  (NFT_Teardown "box-1" n4.1).2 = None.
Proof. vm_compute. repeat split; reflexivity. Qed.
