(* ===== verification/Enroll.v ===== *)
(** * Spoke enrollment (internal/shared/cluster/tokens.go)

    One-time join tokens and the bearer credentials minted from them.  The
    cluster store is an interface ([ClusterStore] with its [ClusterStoreLaws]);
    the enrollment code is written and verified against it, and the SQLite
    tables are an instance.  Also here: the hub operations on tokens and spokes
    (internal/hub/server.go) and the [token revoke] command. *)

From S2P Require Import Prelude GoStrings Sha256.

Local Open Scope Z_scope.
Local Open Scope go_scope.

(** ** Records *)

Record JoinTokenRecord := MkJoinToken { jt_Name : string; jt_Backend : string; jt_ExpiresAt : Z }.

Record JoinTokenInfo := MkJoinTokenInfo {
  ji_ID : string; ji_Name : string; ji_Backend : string; ji_ExpiresAt : Z }.

Record SpokeRecord := MkSpoke { sp_Name : string; sp_CredentialHash : string; sp_EnrolledAt : Z }.

Record enrollReq := MkEnrollReq { er_JoinToken : string; er_Name : string; er_Credential : string }.

#[export] Instance JoinTokenRecord_eq_dec : EqDecision JoinTokenRecord.
Proof. solve_decision. Defined.
#[export] Instance SpokeRecord_eq_dec : EqDecision SpokeRecord.
Proof. solve_decision. Defined.

(** ** The store interface

    [None] is a store error, which leaves the store as it was. *)
Class ClusterStore (S : Type) := {
  PutJoinToken : string -> JoinTokenRecord -> S -> option S;
  TakeJoinToken : string -> S -> option (S * option JoinTokenRecord);
  ListJoinTokens : S -> option (list JoinTokenInfo);
  DeleteJoinToken : string -> S -> option S;
  PutSpoke : string -> SpokeRecord -> S -> option S;
  GetSpoke : string -> S -> option (option SpokeRecord);
  ListSpokes : S -> option (list SpokeRecord);
  DeleteSpoke : string -> S -> option S;
}.

Definition info_of (kv : string * JoinTokenRecord) : JoinTokenInfo :=
  MkJoinTokenInfo kv.1 (jt_Name kv.2) (jt_Backend kv.2) (jt_ExpiresAt kv.2).

(** What the doc comments of [Store] promise, over two abstract maps. *)
Class ClusterStoreLaws (S : Type) `{ClusterStore S} := {
  tokens : S -> gmap string JoinTokenRecord;
  spokes : S -> gmap string SpokeRecord;
  PutJoinToken_ok : forall h rec s s', PutJoinToken h rec s = Some s' ->
    tokens s' = <[h := rec]> (tokens s) /\ spokes s' = spokes s;
  TakeJoinToken_ok : forall h s s' r, TakeJoinToken h s = Some (s', r) ->
    r = tokens s !! h /\ tokens s' = delete h (tokens s) /\ spokes s' = spokes s;
  ListJoinTokens_ok : forall s l, ListJoinTokens s = Some l ->
    l ≡ₚ info_of <$> map_to_list (tokens s);
  DeleteJoinToken_ok : forall h s s', DeleteJoinToken h s = Some s' ->
    tokens s' = delete h (tokens s) /\ spokes s' = spokes s;
  PutSpoke_ok : forall n rec s s', sp_Name rec = n -> PutSpoke n rec s = Some s' ->
    spokes s' = <[n := rec]> (spokes s) /\ tokens s' = tokens s;
  GetSpoke_ok : forall n s r, GetSpoke n s = Some r -> r = spokes s !! n;
  ListSpokes_ok : forall s l, ListSpokes s = Some l ->
    forall rec, rec ∈ l <-> spokes s !! sp_Name rec = Some rec;
  DeleteSpoke_ok : forall n s s', DeleteSpoke n s = Some s' ->
    spokes s' = delete n (spokes s) /\ tokens s' = tokens s;
}.

(** *** The SQLite instance (internal/hub/store/sqlite.go) *)

(** A row of [spokes] does not repeat the key. *)
Record ClusterDB := MkClusterDB {
  cdb_tokens : gmap string JoinTokenRecord;
  cdb_spokes : gmap string (string * Z);
}.

Definition SQLite_PutJoinToken (h : string) (rec : JoinTokenRecord) (db : ClusterDB) : option ClusterDB :=
  Some (MkClusterDB (<[h := rec]> (cdb_tokens db)) (cdb_spokes db)).
Definition SQLite_TakeJoinToken (h : string) (db : ClusterDB) : option (ClusterDB * option JoinTokenRecord) :=
  Some (MkClusterDB (delete h (cdb_tokens db)) (cdb_spokes db), cdb_tokens db !! h).
Definition SQLite_ListJoinTokens (db : ClusterDB) : option (list JoinTokenInfo) :=
  Some (info_of <$> map_to_list (cdb_tokens db)).
Definition SQLite_DeleteJoinToken (h : string) (db : ClusterDB) : option ClusterDB :=
  Some (MkClusterDB (delete h (cdb_tokens db)) (cdb_spokes db)).
Definition SQLite_PutSpoke (name : string) (rec : SpokeRecord) (db : ClusterDB) : option ClusterDB :=
  Some (MkClusterDB (cdb_tokens db)
    (<[name := (sp_CredentialHash rec, sp_EnrolledAt rec)]> (cdb_spokes db))).
Definition SQLite_row_spoke (name : string) (row : string * Z) : SpokeRecord := MkSpoke name row.1 row.2.
Definition SQLite_GetSpoke (name : string) (db : ClusterDB) : option (option SpokeRecord) :=
  Some (SQLite_row_spoke name <$> cdb_spokes db !! name).
Definition SQLite_ListSpokes (db : ClusterDB) : option (list SpokeRecord) :=
  Some ((fun kv => SQLite_row_spoke kv.1 kv.2) <$> map_to_list (cdb_spokes db)).
Definition SQLite_DeleteSpoke (name : string) (db : ClusterDB) : option ClusterDB :=
  Some (MkClusterDB (cdb_tokens db) (delete name (cdb_spokes db))).

#[export] Instance SQLite_ClusterStore : ClusterStore ClusterDB := {
  PutJoinToken := SQLite_PutJoinToken;
  TakeJoinToken := SQLite_TakeJoinToken;
  ListJoinTokens := SQLite_ListJoinTokens;
  DeleteJoinToken := SQLite_DeleteJoinToken;
  PutSpoke := SQLite_PutSpoke;
  GetSpoke := SQLite_GetSpoke;
  ListSpokes := SQLite_ListSpokes;
  DeleteSpoke := SQLite_DeleteSpoke;
}.

#[export] Instance SQLite_ClusterStoreLaws : ClusterStoreLaws ClusterDB.
Proof.
  refine {| tokens := cdb_tokens;
            spokes := fun db => map_imap (fun n row => Some (SQLite_row_spoke n row)) (cdb_spokes db) |}.
  - by intros h rec s s' [= <-].
  - by intros h s s' r [= <- <-].
  - by intros s l [= <-].
  - by intros h s s' [= <-].
  - intros n rec s s' Hn [= <-]. split; [|done]. apply map_eq. intros i. simpl.
    rewrite map_lookup_imap, !lookup_insert. case_decide as Hi; simpl.
    + subst. by destruct rec.
    + by rewrite map_lookup_imap.
  - intros n s r [= <-]. rewrite map_lookup_imap. by destruct (cdb_spokes s !! n).
  - intros s l [= <-] rec. rewrite list_elem_of_fmap, map_lookup_imap. split.
    + intros ([n row] & -> & Hin%elem_of_map_to_list). simpl. by rewrite Hin.
    + destruct (cdb_spokes s !! sp_Name rec) as [row|] eqn:Hrow; [|done]. simpl.
      intros Heq%Some_inj. exists (sp_Name rec, row). split; [done|].
      by apply elem_of_map_to_list.
  - intros n s s' [= <-]. split; [|done]. apply map_eq. intros i. simpl.
    rewrite map_lookup_imap, !lookup_delete. case_decide; [done|].
    by rewrite map_lookup_imap.
Defined.

(** ** Secrets *)

Definition secretBytes : nat := 32.

(** [newSecret]: [rnd] is what the system random source returns, [None] when it
    fails. *)
Definition newSecret (rnd : option (list Z)) : option string := hex_encode <$> rnd.

Definition hashSecret (secret : string) : string := sha256_hex secret.

Definition sameHash (secret hash : string) : bool := String.eqb (hashSecret secret) hash.

Inductive EnrollError :=
| ErrName           (* spoke name is required *)
| ErrTTL            (* join token ttl must be positive *)
| ErrRandom         (* generating a secret failed *)
| ErrStore          (* a store call failed *)
| ErrTokenUnknown   (* join token unknown or already used *)
| ErrTokenExpired   (* join token expired *)
| ErrMissing        (* reconnect missing name or credential *)
| ErrSpokeUnknown   (* reconnect for unknown spoke *)
| ErrCredential     (* credential mismatch *)
| ErrTokenID        (* token id is required *)
| ErrNoToken        (* no join token matches *)
| ErrAmbiguous      (* id prefix is ambiguous *)
| ErrNotEnrolled.   (* spoke is not enrolled *)

#[export] Instance EnrollError_eq_dec : EqDecision EnrollError.
Proof. solve_decision. Defined.

Section Enrollment.
Context {S : Type} `{ClusterStore S}.

(** A store call whose error ends the operation with the store unchanged. *)
Definition or_store_err {A B} (m : option A) (s : S) (k : A -> S * res EnrollError B) :
    S * res EnrollError B :=
  match m with
  | Some a => k a
  | None => (s, Err ErrStore)
  end.

Definition CreateJoinToken (rnd : option (list Z)) (name backend : string) (ttl now : Z) (s : S) :
    S * res EnrollError string :=
  if String.eqb name "" then (s, Err ErrName)
  else if ttl <=? 0 then (s, Err ErrTTL)
  else
    match newSecret rnd with
    | None => (s, Err ErrRandom)
    | Some secret =>
        let rec := MkJoinToken name backend (now + ttl) in
        or_store_err (PutJoinToken (hashSecret secret) rec s) s (fun s' => (s', Ok secret))
    end.

Definition enrollWithJoinToken (rnd : option (list Z)) (token : string) (now : Z) (s : S) :
    S * res EnrollError (string * string) :=
  or_store_err (TakeJoinToken (hashSecret token) s) s (fun '(s1, found) =>
  match found with
  | None => (s1, Err ErrTokenUnknown)
  | Some rec =>
      if After now (jt_ExpiresAt rec) then (s1, Err ErrTokenExpired)
      else
        match newSecret rnd with
        | None => (s1, Err ErrRandom)
        | Some credential =>
            let spoke := MkSpoke (jt_Name rec) (hashSecret credential) now in
            or_store_err (PutSpoke (jt_Name rec) spoke s1) s1 (fun s2 =>
            (s2, Ok (jt_Name rec, credential)))
        end
  end).

Definition reconnect (req : enrollReq) (s : S) : option EnrollError :=
  if String.eqb (er_Name req) "" || String.eqb (er_Credential req) "" then Some ErrMissing
  else
    match GetSpoke (er_Name req) s with
    | None => Some ErrStore
    | Some None => Some ErrSpokeUnknown
    | Some (Some rec) =>
        if sameHash (er_Credential req) (sp_CredentialHash rec) then None else Some ErrCredential
    end.

Definition authenticateEnroll (rnd : option (list Z)) (req : enrollReq) (now : Z) (s : S) :
    S * res EnrollError (string * string) :=
  if negb (String.eqb (er_JoinToken req) "") then
    enrollWithJoinToken rnd (er_JoinToken req) now s
  else
    match reconnect req s with
    | Some e => (s, Err e)
    | None => (s, Ok (er_Name req, ""))
    end.

(** *** Operations of the hub on tokens and spokes (hub/server.go) *)

Definition createSpoke (rnd : option (list Z)) (name backend : string) (ttl now : Z) (s : S) :
    S * res EnrollError string :=
  if String.eqb name "" then (s, Err ErrName) else CreateJoinToken rnd name backend ttl now s.

Definition revokeJoinToken (id : string) (s : S) : S * res EnrollError () :=
  if String.eqb id "" then (s, Err ErrTokenID)
  else or_store_err (DeleteJoinToken id s) s (fun s' => (s', Ok ())).

Definition defaultAdminTokenTTL : Z := Hour.

Definition regenerateJoinToken (rnd : option (list Z)) (id : string) (now : Z) (s : S) :
    S * res EnrollError (string * string * string) :=
  if String.eqb id "" then (s, Err ErrTokenID)
  else or_store_err (ListJoinTokens s) s (fun toks =>
    match first_match (fun t => String.eqb (ji_ID t) id) toks with
    | None => (s, Err ErrNoToken)
    | Some t =>
        or_store_err (DeleteJoinToken id s) s (fun s1 =>
        match CreateJoinToken rnd (ji_Name t) (ji_Backend t) defaultAdminTokenTTL now s1 with
        | (s2, Err e) => (s2, Err e)
        | (s2, Ok tok) => (s2, Ok (ji_Name t, ji_Backend t, tok))
        end)
    end).

(** The best-effort loop of [dropSpoke]: a failing delete is logged and skipped. *)
Fixpoint delete_tokens_of (name : string) (toks : list JoinTokenInfo) (s : S) : S :=
  match toks with
  | [] => s
  | t :: toks' =>
      let s' :=
        if String.eqb (ji_Name t) name then
          match DeleteJoinToken (ji_ID t) s with Some s1 => s1 | None => s end
        else s in
      delete_tokens_of name toks' s'
  end.

(** The store part of [dropSpoke]. *)
Definition drop_enrollment (name : string) (s : S) : S * res EnrollError () :=
  if String.eqb name "" then (s, Err ErrName)
  else or_store_err (DeleteSpoke name s) s (fun s1 =>
    match ListJoinTokens s1 with
    | Some toks => (delete_tokens_of name toks s1, Ok ())
    | None => (s1, Ok ())
    end).

(** *** The [token revoke] command (hub/token/token.go) *)

Fixpoint delete_all (toks : list JoinTokenInfo) (s : S) : S * res EnrollError () :=
  match toks with
  | [] => (s, Ok ())
  | t :: toks' => or_store_err (DeleteJoinToken (ji_ID t) s) s (delete_all toks')
  end.

Definition revoke_matches (idPrefix name : string) (t : JoinTokenInfo) : bool :=
  (negb (String.eqb idPrefix "") && HasPrefix (ji_ID t) idPrefix)
  || (negb (String.eqb name "") && String.eqb (ji_Name t) name).

Definition revokeJoinTokens (idPrefix name : string) (s : S) : S * res EnrollError () :=
  or_store_err (ListJoinTokens s) s (fun toks =>
    let matched := List.filter (revoke_matches idPrefix name) toks in
    match matched with
    | [] => (s, Err ErrNoToken)
    | _ =>
        if negb (String.eqb idPrefix "") && (1 <? Z.of_nat (length matched))
        then (s, Err ErrAmbiguous)
        else delete_all matched s
    end).

End Enrollment.

(** ** The enrollment log: an abstract specification

    What the hub has authorised so far, newest event first.  A token hash is
    live from its minting until it is used or revoked; a credential hash is
    live from the enrollment that minted it until the next enrollment under the
    name or the drop of the spoke. *)
Inductive event :=
| Minted (hash name : string) (expires : Z)
| Revoked (hash : string)
| Enrolled (hash name credhash : string) (at_ : Z)
| Reconnected (name credhash : string)
| Dropped (name : string).

Fixpoint live_token (h : string) (log : list event) : option (string * Z) :=
  match log with
  | [] => None
  | Minted h' n e :: log' => if decide (h' = h) then Some (n, e) else live_token h log'
  | Revoked h' :: log' => if decide (h' = h) then None else live_token h log'
  | Enrolled h' _ _ _ :: log' => if decide (h' = h) then None else live_token h log'
  | _ :: log' => live_token h log'
  end.

Fixpoint live_credential (n : string) (log : list event) : option string :=
  match log with
  | [] => None
  | Enrolled _ n' c _ :: log' => if decide (n' = n) then Some c else live_credential n log'
  | Dropped n' :: log' => if decide (n' = n) then None else live_credential n log'
  | _ :: log' => live_credential n log'
  end.

(** The events the specification allows after [log]: an enrollment uses a live,
    unexpired token of the same spoke name; a reconnection shows a secret with
    the live credential's hash. *)
Definition allowed (e : event) (log : list event) : Prop :=
  match e with
  | Enrolled h n _ t => exists expires, live_token h log = Some (n, expires) /\ t <= expires
  | Reconnected n c => live_credential n log = Some c
  | _ => True
  end.

Fixpoint valid_log (log : list event) : Prop :=
  match log with
  | [] => True
  | e :: log' => allowed e log' /\ valid_log log'
  end.

(** *** Operations and the events they cause *)

Inductive op :=
| OpCreate (rnd : option (list Z)) (name backend : string) (ttl now : Z)
| OpAuth (rnd : option (list Z)) (req : enrollReq) (now : Z)
| OpRevoke (id : string)
| OpRegenerate (rnd : option (list Z)) (id : string) (now : Z)
| OpDrop (name : string).

Section Run.
Context {S : Type} `{ClusterStore S}.

Definition exec (o : op) (s : S) : S * list event :=
  match o with
  | OpCreate rnd name backend ttl now =>
      match createSpoke rnd name backend ttl now s with
      | (s', Ok tok) => (s', [Minted (hashSecret tok) name (now + ttl)])
      | (s', Err _) => (s', [])
      end
  | OpAuth rnd req now =>
      match authenticateEnroll rnd req now s with
      | (s', Ok (name, cred)) =>
          if negb (String.eqb (er_JoinToken req) "")
          then (s', [Enrolled (hashSecret (er_JoinToken req)) name (hashSecret cred) now])
          else (s', [Reconnected name (hashSecret (er_Credential req))])
      | (s', Err _) => (s', [])
      end
  | OpRevoke id =>
      match revokeJoinToken id s with
      | (s', Ok _) => (s', [Revoked id])
      | (s', Err _) => (s', [])
      end
  | OpRegenerate rnd id now =>
      match regenerateJoinToken rnd id now s with
      | (s', Ok (name, _, tok)) =>
          (s', [Minted (hashSecret tok) name (now + defaultAdminTokenTTL); Revoked id])
      | (s', Err _) => (s', [])
      end
  | OpDrop name =>
      match drop_enrollment name s with
      | (s', Ok _) => (s', [Dropped name])
      | (s', Err _) => (s', [])
      end
  end.

Fixpoint run (ops : list op) (s : S) (log : list event) : S * list event :=
  match ops with
  | [] => (s, log)
  | o :: ops' => let '(s', evs) := exec o s in run ops' s' (evs ++ log)
  end.

Context `{!ClusterStoreLaws S}.

(** The store never grants more than the log. *)
Definition refines (s : S) (log : list event) : Prop :=
  (forall h rec, tokens s !! h = Some rec -> live_token h log = Some (jt_Name rec, jt_ExpiresAt rec)) /\
  (forall n rec, spokes s !! n = Some rec -> live_credential n log = Some (sp_CredentialHash rec)).

(** *** Lemmas on the operations, from the laws of the store *)

Lemma CreateJoinToken_ok rnd name backend ttl now s s' tok :
  CreateJoinToken rnd name backend ttl now s = (s', Ok tok) ->
  name <> "" /\ 0 < ttl /\ newSecret rnd = Some tok /\
  tokens s' = <[hashSecret tok := MkJoinToken name backend (now + ttl)]> (tokens s) /\
  spokes s' = spokes s.
Proof.
  unfold CreateJoinToken, or_store_err. intros Hc.
  repeat step_match_in Hc. bools.
  edestruct PutJoinToken_ok as [-> ->]; [eassumption|]. done.
Qed.

Lemma CreateJoinToken_err rnd name backend ttl now s s' e :
  CreateJoinToken rnd name backend ttl now s = (s', Err e) -> s' = s.
Proof. unfold CreateJoinToken, or_store_err. intros Hc. by repeat step_match_in Hc. Qed.

Lemma createSpoke_CreateJoinToken rnd name backend ttl now s :
  createSpoke rnd name backend ttl now s = CreateJoinToken rnd name backend ttl now s.
Proof. unfold createSpoke, CreateJoinToken. by destruct (String.eqb name ""). Qed.

Lemma enrollWithJoinToken_ok rnd token now s s' name cred :
  enrollWithJoinToken rnd token now s = (s', Ok (name, cred)) ->
  newSecret rnd = Some cred /\
  exists rec, tokens s !! hashSecret token = Some rec /\ jt_Name rec = name /\ now <= jt_ExpiresAt rec /\
    tokens s' = delete (hashSecret token) (tokens s) /\
    spokes s' = <[name := MkSpoke name (hashSecret cred) now]> (spokes s).
Proof.
  unfold enrollWithJoinToken, or_store_err. intros He.
  repeat step_match_in He.
  edestruct TakeJoinToken_ok as (Hrec & Ht & Hs); [eassumption|].
  edestruct PutSpoke_ok as (Hs' & Ht'); [|eassumption|]; [done|].
  split; [done|]. eexists. split_and!; [by symmetry|done| | |].
  - unfold After in *. bools. lia.
  - congruence.
  - by rewrite Hs', Hs.
Qed.

(** A failed enrollment changes no spoke and at most consumes the token. *)
Lemma enrollWithJoinToken_err rnd token now s s' e :
  enrollWithJoinToken rnd token now s = (s', Err e) ->
  spokes s' = spokes s /\ (s' = s \/ tokens s' = delete (hashSecret token) (tokens s)).
Proof.
  unfold enrollWithJoinToken, or_store_err. intros He.
  destruct (TakeJoinToken (hashSecret token) s) as [[s1 found]|] eqn:Htake; [|by simplify_eq; auto].
  edestruct TakeJoinToken_ok as (Hrec & Ht & Hs); [eassumption|].
  repeat step_match_in He; simplify_eq; auto.
Qed.

Lemma reconnect_ok req s :
  reconnect req s = None ->
  exists rec, spokes s !! er_Name req = Some rec /\ sp_CredentialHash rec = hashSecret (er_Credential req).
Proof.
  unfold reconnect, sameHash. intros Hr. repeat step_match_in Hr. bools.
  eexists. split; [|done]. symmetry. by eapply GetSpoke_ok.
Qed.

Lemma revokeJoinToken_ok id s s' :
  revokeJoinToken id s = (s', Ok ()) -> tokens s' = delete id (tokens s) /\ spokes s' = spokes s.
Proof.
  unfold revokeJoinToken, or_store_err. intros Hr. repeat step_match_in Hr.
  by eapply DeleteJoinToken_ok.
Qed.

Lemma revokeJoinToken_err id s s' e : revokeJoinToken id s = (s', Err e) -> s' = s.
Proof. unfold revokeJoinToken, or_store_err. intros Hr. by repeat step_match_in Hr. Qed.

Lemma elem_of_info_list (m : gmap string JoinTokenRecord) i :
  i ∈ info_of <$> map_to_list m <->
  m !! ji_ID i = Some (MkJoinToken (ji_Name i) (ji_Backend i) (ji_ExpiresAt i)).
Proof.
  rewrite list_elem_of_fmap. split.
  - intros ([h [? ? ?]] & -> & Hin%elem_of_map_to_list). done.
  - intros Hin. exists (ji_ID i, MkJoinToken (ji_Name i) (ji_Backend i) (ji_ExpiresAt i)).
    split; [by destruct i|by apply elem_of_map_to_list].
Qed.

Lemma elem_of_ListJoinTokens s l i :
  ListJoinTokens s = Some l ->
  i ∈ l <-> tokens s !! ji_ID i = Some (MkJoinToken (ji_Name i) (ji_Backend i) (ji_ExpiresAt i)).
Proof. intros Hl. rewrite (ListJoinTokens_ok s l Hl). apply elem_of_info_list. Qed.

Lemma regenerateJoinToken_ok rnd id now s s' name backend tok :
  regenerateJoinToken rnd id now s = (s', Ok (name, backend, tok)) ->
  exists old, tokens s !! id = Some old /\ jt_Name old = name /\ jt_Backend old = backend /\
    newSecret rnd = Some tok /\
    tokens s' = <[hashSecret tok := MkJoinToken name backend (now + defaultAdminTokenTTL)]>
                  (delete id (tokens s)) /\
    spokes s' = spokes s.
Proof.
  unfold regenerateJoinToken, or_store_err. intros Hr.
  destruct (String.eqb id ""); [done|].
  destruct (ListJoinTokens s) as [toks|] eqn:Hl; [|done].
  destruct (first_match _ toks) as [t|] eqn:Hf; [|done].
  apply first_match_elem in Hf as [Hin Hid]. bools. subst id.
  apply (elem_of_ListJoinTokens s toks t Hl) in Hin.
  destruct (DeleteJoinToken (ji_ID t) s) as [s1|] eqn:Hd; [|done].
  destruct (CreateJoinToken _ _ _ _ _ s1) as [s2 [tok'|e]] eqn:Hc; simplify_eq.
  apply CreateJoinToken_ok in Hc as (_ & _ & Hsec & Ht & Hs).
  apply DeleteJoinToken_ok in Hd as [Ht1 Hs1].
  eexists. split_and!; [exact Hin|done|done|done| |congruence].
  by rewrite Ht, Ht1.
Qed.

(** A failed regeneration at most deletes the old token. *)
Lemma regenerateJoinToken_err rnd id now s s' e :
  regenerateJoinToken rnd id now s = (s', Err e) ->
  spokes s' = spokes s /\ (s' = s \/ tokens s' = delete id (tokens s)).
Proof.
  unfold regenerateJoinToken, or_store_err. intros Hr.
  destruct (String.eqb id ""); [by simplify_eq; auto|].
  destruct (ListJoinTokens s) as [toks|] eqn:Hl; [|by simplify_eq; auto].
  destruct (first_match _ toks) as [t|] eqn:Hf; [|by simplify_eq; auto].
  destruct (DeleteJoinToken id s) as [s1|] eqn:Hd; [|by simplify_eq; auto].
  apply DeleteJoinToken_ok in Hd as [Ht1 Hs1].
  destruct (CreateJoinToken _ _ _ _ _ s1) as [s2 [tok'|e']] eqn:Hc; simplify_eq.
  apply CreateJoinToken_err in Hc. subst. auto.
Qed.

Lemma delete_tokens_of_sub name toks s :
  tokens (delete_tokens_of name toks s) ⊆ tokens s /\ spokes (delete_tokens_of name toks s) = spokes s.
Proof.
  revert s. induction toks as [|t toks IH]; intros s; simpl; [done|].
  destruct (String.eqb (ji_Name t) name); [|apply IH].
  destruct (DeleteJoinToken (ji_ID t) s) as [s1|] eqn:Hd; [|apply IH].
  apply DeleteJoinToken_ok in Hd as [Ht1 Hs1]. destruct (IH s1) as [Hsub ->].
  split; [|done]. rewrite Ht1 in Hsub. etrans; [exact Hsub|apply delete_subseteq].
Qed.

Lemma drop_enrollment_ok name s s' :
  drop_enrollment name s = (s', Ok ()) ->
  tokens s' ⊆ tokens s /\ spokes s' = delete name (spokes s).
Proof.
  unfold drop_enrollment, or_store_err. intros Hd.
  destruct (String.eqb name ""); [done|].
  destruct (DeleteSpoke name s) as [s1|] eqn:Hs; [|done].
  apply DeleteSpoke_ok in Hs as [Hs1 Ht1].
  destruct (ListJoinTokens s1) as [toks|]; simplify_eq.
  - destruct (delete_tokens_of_sub name toks s1) as [Hsub ->]. by rewrite <- Ht1.
  - by rewrite Hs1, Ht1.
Qed.

Lemma drop_enrollment_err name s s' e : drop_enrollment name s = (s', Err e) -> s' = s.
Proof. unfold drop_enrollment, or_store_err. intros Hd. by repeat step_match_in Hd. Qed.

(** *** Simulation *)

(** Losing tokens keeps a store within the log. *)
Lemma refines_weaken s s' log :
  refines s log -> tokens s' ⊆ tokens s -> spokes s' = spokes s -> refines s' log.
Proof.
  intros [Ht Hs] Hsub Heq. split.
  - intros h rec Hin. apply Ht. by eapply lookup_weaken.
  - rewrite Heq. exact Hs.
Qed.

Lemma refines_lost s s' log h :
  refines s log -> spokes s' = spokes s /\ (s' = s \/ tokens s' = delete h (tokens s)) -> refines s' log.
Proof.
  intros Hr [Hs [->|Ht]]; [done|]. eapply refines_weaken; [done| |done].
  rewrite Ht. apply delete_subseteq.
Qed.

Lemma refines_mint s s' log h rec :
  refines s log -> tokens s' = <[h := rec]> (tokens s) -> spokes s' = spokes s ->
  refines s' (Minted h (jt_Name rec) (jt_ExpiresAt rec) :: log).
Proof.
  intros [Ht Hs] Heq Hsp. split; simpl; [|by rewrite Hsp].
  intros h' rec'. rewrite Heq, lookup_insert. case_decide; [by intros [= <-]|apply Ht].
Qed.

Lemma refines_revoke s s' log h :
  refines s log -> tokens s' = delete h (tokens s) -> spokes s' = spokes s ->
  refines s' (Revoked h :: log).
Proof.
  intros [Ht Hs] Heq Hsp. split; simpl; [|by rewrite Hsp].
  intros h' rec'. rewrite Heq, lookup_delete. case_decide; [done|apply Ht].
Qed.

Lemma refines_enroll s s' log h name cred now :
  refines s log -> tokens s' = delete h (tokens s) ->
  spokes s' = <[name := MkSpoke name cred now]> (spokes s) ->
  refines s' (Enrolled h name cred now :: log).
Proof.
  intros [Ht Hs] Heq Hsp. split; simpl.
  - intros h' rec'. rewrite Heq, lookup_delete. case_decide; [done|apply Ht].
  - intros n' rec'. rewrite Hsp, lookup_insert. case_decide; [by intros [= <-]|apply Hs].
Qed.

Lemma refines_drop s s' log name :
  refines s log -> tokens s' ⊆ tokens s -> spokes s' = delete name (spokes s) ->
  refines s' (Dropped name :: log).
Proof.
  intros [Ht Hs] Hsub Hsp. split; simpl.
  - intros h rec Hin. apply Ht. by eapply lookup_weaken.
  - intros n' rec'. rewrite Hsp, lookup_delete. case_decide; [done|apply Hs].
Qed.

Lemma exec_refines o s log :
  refines s log -> valid_log log ->
  let '(s', evs) := exec o s in refines s' (evs ++ log) /\ valid_log (evs ++ log).
Proof.
  intros Hr Hv. destruct o as [rnd name backend ttl now|rnd req now|id|rnd id now|name]; cbn [exec].
  - rewrite createSpoke_CreateJoinToken.
    destruct (CreateJoinToken _ _ _ _ _ s) as [s' [tok|e]] eqn:Hc.
    + apply CreateJoinToken_ok in Hc as (_ & _ & _ & Ht & Hs). simpl. split; [|done].
      by eapply refines_mint in Ht.
    + by apply CreateJoinToken_err in Hc as ->.
  - unfold authenticateEnroll. destruct (String.eqb (er_JoinToken req) "") eqn:Hj; cbn [negb].
    + destruct (reconnect req s) as [e|] eqn:Hc; [done|].
      apply reconnect_ok in Hc as (rec & Hin & Hh). simpl. split_and!; [|by rewrite <- Hh; apply Hr|done].
      destruct Hr as [Ht Hs]. by split.
    + destruct (enrollWithJoinToken _ _ _ s) as [s' [[name cred]|e]] eqn:Hc.
      * apply enrollWithJoinToken_ok in Hc as (_ & rec & Hin & <- & Hexp & Ht & Hs). simpl.
        split_and!; [by eapply refines_enroll| |done].
        exists (jt_ExpiresAt rec). split; [by apply Hr|done].
      * apply enrollWithJoinToken_err in Hc. split; [by eapply refines_lost|done].
  - destruct (revokeJoinToken id s) as [s' [[]|e]] eqn:Hc.
    + apply revokeJoinToken_ok in Hc as [Ht Hs]. simpl. split; [by eapply refines_revoke|done].
    + by apply revokeJoinToken_err in Hc as ->.
  - destruct (regenerateJoinToken rnd id now s) as [s' [[[name backend] tok]|e]] eqn:Hc.
    + apply regenerateJoinToken_ok in Hc as (old & _ & _ & _ & _ & Ht & Hs). simpl. split; [|done].
      destruct Hr as [Hrt Hrs]. split; simpl; [|by rewrite Hs].
      intros h rec. rewrite Ht, lookup_insert. case_decide; [by intros [= <-]|].
      rewrite lookup_delete. case_decide; [done|apply Hrt].
    + apply regenerateJoinToken_err in Hc. split; [by eapply refines_lost|done].
  - destruct (drop_enrollment name s) as [s' [[]|e]] eqn:Hc.
    + apply drop_enrollment_ok in Hc as [Ht Hs]. simpl. split; [by eapply refines_drop|done].
    + by apply drop_enrollment_err in Hc as ->.
Qed.

Lemma run_refines ops s log :
  refines s log -> valid_log log ->
  refines (run ops s log).1 (run ops s log).2 /\ valid_log (run ops s log).2.
Proof.
  revert s log. induction ops as [|o ops IH]; intros s log Hr Hv; [done|]. cbn [run].
  pose proof (exec_refines o s log Hr Hv) as Hx. destruct (exec o s) as [s' evs].
  destruct Hx. by apply IH.
Qed.

(** *** What keeps a token alive *)

Definition mints (rnd : option (list Z)) (h : string) : bool :=
  match newSecret rnd with
  | Some tok => String.eqb (hashSecret tok) h
  | None => false
  end.

(** The operation neither presents, revokes, replaces nor re-mints the token of
    hash [h], and does not drop its spoke [name]. *)
Definition spares (h name : string) (o : op) : bool :=
  match o with
  | OpCreate rnd _ _ _ _ => negb (mints rnd h)
  | OpAuth _ req _ => negb (String.eqb (hashSecret (er_JoinToken req)) h)
  | OpRevoke id => negb (String.eqb id h)
  | OpRegenerate rnd id _ => negb (String.eqb id h) && negb (mints rnd h)
  | OpDrop n => negb (String.eqb n name)
  end.

Lemma mints_false rnd h tok : mints rnd h = false -> newSecret rnd = Some tok -> hashSecret tok <> h.
Proof. unfold mints. intros Hm Hs. rewrite Hs in Hm. by bools. Qed.

Lemma delete_tokens_of_keeps name toks s h rec :
  Forall (fun t => ji_ID t = h -> ji_Name t <> name) toks ->
  tokens s !! h = Some rec -> tokens (delete_tokens_of name toks s) !! h = Some rec.
Proof.
  intros Hall. revert s. induction Hall as [|t toks Ht Hall IH]; intros s Hin; [done|]. simpl.
  apply IH. destruct (String.eqb (ji_Name t) name) eqn:Hn; [|done].
  destruct (DeleteJoinToken (ji_ID t) s) as [s1|] eqn:Hd; [|done].
  apply DeleteJoinToken_ok in Hd as [-> _]. bools. rewrite lookup_delete_ne; naive_solver.
Qed.

Lemma drop_enrollment_keeps name n s h rec :
  tokens s !! h = Some rec -> jt_Name rec = name -> n <> name ->
  tokens (drop_enrollment n s).1 !! h = Some rec.
Proof.
  intros Hin Hname Hn. unfold drop_enrollment, or_store_err.
  destruct (String.eqb n ""); [done|].
  destruct (DeleteSpoke n s) as [s1|] eqn:Hd; [|done].
  apply DeleteSpoke_ok in Hd as [_ Ht]. rewrite <- Ht in Hin.
  destruct (ListJoinTokens s1) as [toks|] eqn:Hl; [|done]. simpl.
  apply delete_tokens_of_keeps; [|done]. apply Forall_forall. intros t Ht' <-.
  apply (elem_of_ListJoinTokens s1 toks t Hl) in Ht'. naive_solver.
Qed.

Lemma exec_spares h name rec o s :
  spares h name o = true -> tokens s !! h = Some rec -> jt_Name rec = name ->
  tokens (exec o s).1 !! h = Some rec.
Proof.
  intros Hsp Hin Hname.
  assert (Hlost : forall s' h', h' <> h ->
    spokes s' = spokes s /\ (s' = s \/ tokens s' = delete h' (tokens s)) -> tokens s' !! h = Some rec).
  { intros s' h' Hne [_ [->|Ht]]; [done|]. by rewrite Ht, lookup_delete_ne. }
  destruct o as [rnd n backend ttl now|rnd req now|id|rnd id now|n]; cbn [spares exec] in *; bools.
  - rewrite createSpoke_CreateJoinToken.
    destruct (CreateJoinToken _ _ _ _ _ s) as [s' [tok|e]] eqn:Hc; simpl.
    + apply CreateJoinToken_ok in Hc as (_ & _ & Hsec & -> & _).
      rewrite lookup_insert_ne; [done|]. by eapply mints_false.
    + by apply CreateJoinToken_err in Hc as ->.
  - unfold authenticateEnroll. destruct (String.eqb (er_JoinToken req) ""); cbn [negb].
    + by destruct (reconnect req s).
    + destruct (enrollWithJoinToken _ _ _ s) as [s' [[n cred]|e]] eqn:Hc; simpl.
      * apply enrollWithJoinToken_ok in Hc as (_ & ? & _ & _ & _ & -> & _).
        by rewrite lookup_delete_ne.
      * apply enrollWithJoinToken_err in Hc. eauto.
  - destruct (revokeJoinToken id s) as [s' [[]|e]] eqn:Hc; simpl.
    + apply revokeJoinToken_ok in Hc as [-> _]. by rewrite lookup_delete_ne.
    + by apply revokeJoinToken_err in Hc as ->.
  - destruct (regenerateJoinToken rnd id now s) as [s' [[[n backend] tok]|e]] eqn:Hc; simpl.
    + apply regenerateJoinToken_ok in Hc as (? & _ & _ & _ & Hsec & -> & _).
      rewrite lookup_insert_ne by (by eapply mints_false). by rewrite lookup_delete_ne.
    + apply regenerateJoinToken_err in Hc. eauto.
  - pose proof (drop_enrollment_keeps name n s h rec Hin Hname Hsp) as Hk.
    by destruct (drop_enrollment n s) as [s' [[]|e]].
Qed.

Lemma run_spares h name rec ops s log :
  Forall (fun o => spares h name o = true) ops -> tokens s !! h = Some rec -> jt_Name rec = name ->
  tokens (run ops s log).1 !! h = Some rec.
Proof.
  intros Hall. revert s log. induction Hall as [|o ops Ho Hall IH]; intros s log Hin Hname; [done|].
  cbn [run]. pose proof (exec_spares h name rec o s Ho Hin Hname) as Hx.
  destruct (exec o s) as [s' evs]. by apply IH.
Qed.

End Run.

(** ** Theorems *)

Lemma live_token_minted h log n e :
  live_token h log = Some (n, e) -> Minted h n e ∈ log.
Proof.
  induction log as [|ev log IH]; [done|]. simpl.
  destruct ev; repeat case_decide; simplify_eq/=; set_solver.
Qed.

(** Between two uses of a token hash there is a minting. *)
Lemma live_token_after_use h l2 n c t l3 n' e :
  live_token h (l2 ++ Enrolled h n c t :: l3) = Some (n', e) -> Minted h n' e ∈ l2.
Proof.
  induction l2 as [|ev l2 IH]; simpl; [by rewrite decide_True|].
  destruct ev; repeat case_decide; intros; simplify_eq/=; set_solver.
Qed.

Lemma valid_log_app l1 l2 : valid_log (l1 ++ l2) -> valid_log l2.
Proof. induction l1 as [|e l1 IH]; [done|]. simpl. naive_solver. Qed.

(** C3: enrollment implements the enrollment log, on every store that keeps the
    interface's laws and under any sequence of operations, failing ones
    included: a spoke only ever enrolls with a token that was minted for that
    name, is unexpired, and was neither used nor revoked since; and a reconnect
    is only accepted with a secret whose hash is that of the credential minted
    by the spoke's last enrollment, with no drop since. *)
Theorem enrollment_authentic : forall {S} `{CL : ClusterStoreLaws S} (s0 : S) (ops : list op),
  tokens s0 = ∅ -> spokes s0 = ∅ ->
  refines (run ops s0 []).1 (run ops s0 []).2 /\ valid_log (run ops s0 []).2.
Proof.
  intros S CS CL s0 ops Ht Hs. apply run_refines; [|done].
  split; [rewrite Ht|rewrite Hs]; intros ? ? Hin; by rewrite lookup_empty in Hin.
Qed.

Definition emptyClusterDB : ClusterDB := MkClusterDB ∅ ∅.

(** A token is minted, used, used again (refused), and the spoke reconnects. *)
Definition demo_ops : list op :=
  let tok := hex_encode (seqZ 1 32) in
  let cred := hex_encode (seqZ 100 32) in
  [ OpCreate (Some (seqZ 1 32)) "edge" "docker" Hour 0;
    OpAuth (Some (seqZ 100 32)) (MkEnrollReq tok "" "") Minute;
    OpAuth (Some (seqZ 50 32)) (MkEnrollReq tok "" "") Minute;
    OpAuth None (MkEnrollReq "" "edge" cred) Minute;
    OpAuth None (MkEnrollReq "" "edge" tok) Minute ].

Lemma enrollment_authentic_witness :
  length (run demo_ops emptyClusterDB []).2 = 3%nat /\ valid_log (run demo_ops emptyClusterDB []).2.
Proof.
  split; [vm_compute; reflexivity|].
  exact (proj2 (enrollment_authentic emptyClusterDB demo_ops eq_refl eq_refl)).
Defined.

(** a join token works once: in any run, two enrollments with the same token
    hash have a minting of that hash between them. *)
Theorem join_token_one_time : forall {S} `{CL : ClusterStoreLaws S} (s0 : S) ops h l1 n c t l2 n' c' t' l3,
  tokens s0 = ∅ -> spokes s0 = ∅ ->
  (run ops s0 []).2 = l1 ++ Enrolled h n c t :: l2 ++ Enrolled h n' c' t' :: l3 ->
  exists expires, Minted h n expires ∈ l2 /\ t <= expires.
Proof.
  intros S CS CL s0 ops h l1 n c t l2 n' c' t' l3 Ht Hs Hlog.
  assert (Hv : valid_log (run ops s0 []).2).
  { apply run_refines; [|done].
    split; [rewrite Ht|rewrite Hs]; intros ? ? Hin; by rewrite lookup_empty in Hin. }
  rewrite Hlog in Hv. apply valid_log_app in Hv as [(e & Hlive & Hle) _].
  apply live_token_after_use in Hlive. eauto.
Qed.

(** The random source repeats itself: the same token is minted twice. *)
Definition demo_twice : list op :=
  let tok := hex_encode (seqZ 1 32) in
  [ OpCreate (Some (seqZ 1 32)) "edge" "docker" Hour 0;
    OpAuth (Some (seqZ 100 32)) (MkEnrollReq tok "" "") Minute;
    OpCreate (Some (seqZ 1 32)) "edge" "docker" Hour Minute;
    OpAuth (Some (seqZ 50 32)) (MkEnrollReq tok "" "") (2 * Minute) ].

Lemma join_token_one_time_witness :
  let h := hashSecret (hex_encode (seqZ 1 32)) in
  exists expires, Minted h "edge" expires ∈ [Minted h "edge" (Minute + Hour)] /\ 2 * Minute <= expires.
Proof.
  eapply (join_token_one_time emptyClusterDB demo_twice _
    [] "edge" (hashSecret (hex_encode (seqZ 50 32))) (2 * Minute) _
    "edge" (hashSecret (hex_encode (seqZ 100 32))) Minute
    [Minted (hashSecret (hex_encode (seqZ 1 32))) "edge" Hour]);
    [reflexivity|reflexivity|vm_compute; reflexivity].
Defined.

(** a minted token does enroll its spoke.  On the SQLite store, after a token
    is created for [name], whatever operations come between as long as they
    spare it, presenting the token before its expiry enrolls [name] with a fresh
    credential, and that credential is then accepted on reconnect while every
    secret with another hash is refused. *)
Theorem create_enroll_reconnect : forall (db : ClusterDB) b1 b2 name backend ttl now later ops,
  let tok := hex_encode b1 in
  let cred := hex_encode b2 in
  name <> "" -> 0 < ttl -> tok <> "" -> cred <> "" -> later <= now + ttl ->
  Forall (fun o => spares (hashSecret tok) name o = true) ops ->
  exists db1, CreateJoinToken (Some b1) name backend ttl now db = (db1, Ok tok) /\
  let db2 := (run ops db1 []).1 in
  exists db3, authenticateEnroll (Some b2) (MkEnrollReq tok "" "") later db2 = (db3, Ok (name, cred)) /\
    authenticateEnroll None (MkEnrollReq "" name cred) later db3 = (db3, Ok (name, "")) /\
    (forall bad, hashSecret bad <> hashSecret cred -> bad <> "" ->
       authenticateEnroll None (MkEnrollReq "" name bad) later db3 = (db3, Err ErrCredential)).
Proof.
  intros db b1 b2 name backend ttl now later ops tok cred Hname Httl Htok Hcred Hlater Hops.
  apply String.eqb_neq in Hname, Htok, Hcred.
  eexists. split.
  { unfold CreateJoinToken. rewrite Hname, (proj2 (Z.leb_gt _ _) Httl). reflexivity. }
  intros db2.
  assert (Hin : cdb_tokens db2 !! hashSecret tok = Some (MkJoinToken name backend (now + ttl))).
  { change (cdb_tokens db2) with (tokens db2). unfold db2. apply (run_spares _ name); [done| |done].
    simpl. by rewrite lookup_insert_eq. }
  eexists. split_and!.
  - unfold authenticateEnroll, enrollWithJoinToken. cbn [er_JoinToken]. rewrite Htok. simpl.
    rewrite Hin. simpl. unfold After. rewrite (proj2 (Z.ltb_ge _ _) Hlater). reflexivity.
  - unfold authenticateEnroll, reconnect. simpl. rewrite Hname, Hcred. simpl.
    rewrite lookup_insert_eq. simpl. unfold sameHash. by rewrite String.eqb_refl.
  - intros bad Hbad Hne. apply String.eqb_neq in Hbad, Hne.
    unfold authenticateEnroll, reconnect. simpl. rewrite Hname, Hne. simpl.
    rewrite lookup_insert_eq. simpl. unfold sameHash. fold cred. by rewrite Hbad.
Qed.

Lemma create_enroll_reconnect_witness :
  let tok := hex_encode (seqZ 1 32) in
  let cred := hex_encode (seqZ 100 32) in
  exists db1, CreateJoinToken (Some (seqZ 1 32)) "edge" "docker" Hour 0 emptyClusterDB = (db1, Ok tok) /\
  let db2 := (run [OpDrop "other"; OpCreate (Some (seqZ 7 32)) "other" "" Hour 0] db1 []).1 in
  exists db3, authenticateEnroll (Some (seqZ 100 32)) (MkEnrollReq tok "" "") Minute db2 = (db3, Ok ("edge", cred)) /\
    authenticateEnroll None (MkEnrollReq "" "edge" cred) Minute db3 = (db3, Ok ("edge", "")) /\
    (forall bad, hashSecret bad <> hashSecret cred -> bad <> "" ->
       authenticateEnroll None (MkEnrollReq "" "edge" bad) Minute db3 = (db3, Err ErrCredential)).
Proof.
  apply (create_enroll_reconnect emptyClusterDB (seqZ 1 32) (seqZ 100 32) "edge" "docker" Hour 0 Minute
    [OpDrop "other"; OpCreate (Some (seqZ 7 32)) "other" "" Hour 0]).
  - done.
  - done.
  - by vm_compute.
  - by vm_compute.
  - by vm_compute.
  - repeat constructor; vm_compute; reflexivity.
Defined.

(** ** Connected spokes and the hub server (cluster/hub.go, hub/server.go)

    A live connection ([*remoteSpoke]) is named by a number; [hub_closed] are
    the connections whose [Close] has been called. *)
Record Hub := MkHub { hub_spokes : gmap string nat; hub_closed : gset nat }.

Definition NewHub : Hub := MkHub ∅ ∅.

Definition Spoke (name : string) (h : Hub) : option nat := hub_spokes h !! name.

Definition register (name : string) (rs : nat) (h : Hub) : Hub :=
  match hub_spokes h !! name with
  | Some old => MkHub (<[name := rs]> (hub_spokes h)) ({[old]} ∪ hub_closed h)
  | None => MkHub (<[name := rs]> (hub_spokes h)) (hub_closed h)
  end.

Definition Disconnect (name : string) (h : Hub) : Hub :=
  match hub_spokes h !! name with
  | Some rs => MkHub (hub_spokes h) ({[rs]} ∪ hub_closed h)
  | None => h
  end.

Definition unregister (name : string) (rs : nat) (h : Hub) : Hub :=
  if decide (hub_spokes h !! name = Some rs)
  then MkHub (delete name (hub_spokes h)) (hub_closed h)
  else h.

(** The part of the hub server these operations touch: the cluster store, the
    settings table and the cluster hub ([None] is a nil hub). *)
Record HubServer (S : Type) := MkHubServer {
  hs_store : S;
  hs_settings : gmap string string;
  hs_hub : option Hub;
}.
Arguments MkHubServer {S}.
Arguments hs_store {S}.
Arguments hs_settings {S}.
Arguments hs_hub {S}.

Definition defaultSpokeSettingKey : string := "default_spoke".

Section Server.
Context {S : Type} `{ClusterStore S}.

Definition DefaultSpoke (srv : HubServer S) : string :=
  default "" (hs_settings srv !! defaultSpokeSettingKey).

Definition SetDefaultSpoke (name : string) (srv : HubServer S) : HubServer S :=
  MkHubServer (hs_store srv) (<[defaultSpokeSettingKey := name]> (hs_settings srv)) (hs_hub srv).

Definition dropSpoke (name : string) (srv : HubServer S) : HubServer S * res EnrollError () :=
  match drop_enrollment name (hs_store srv) with
  | (s', Err e) => (MkHubServer s' (hs_settings srv) (hs_hub srv), Err e)
  | (s', Ok _) =>
      let srv1 := MkHubServer s' (hs_settings srv) (Disconnect name <$> hs_hub srv) in
      (if String.eqb (DefaultSpoke srv1) name then SetDefaultSpoke "" srv1 else srv1, Ok ())
  end.

Definition chooseDefaultSpoke (name : string) (srv : HubServer S) : HubServer S * res EnrollError () :=
  if String.eqb name "" then (srv, Err ErrName)
  else
    match ListSpokes (hs_store srv) with
    | None => (srv, Err ErrStore)
    | Some enrolled =>
        match first_match (fun rec => String.eqb (sp_Name rec) name) enrolled with
        | Some _ => (SetDefaultSpoke name srv, Ok ())
        | None => (srv, Err ErrNotEnrolled)
        end
    end.

Definition resolveStoredSpoke (name : string) (srv : HubServer S) : string :=
  if negb (String.eqb name "") then name else DefaultSpoke srv.

End Server.

Lemma delete_tokens_of_SQLite name toks (db : ClusterDB) h rec :
  cdb_tokens (delete_tokens_of name toks db) !! h = Some rec <->
  cdb_tokens db !! h = Some rec /\ Forall (fun t => ji_ID t = h -> ji_Name t <> name) toks.
Proof.
  revert db. induction toks as [|t toks IH]; intros db; simpl; [naive_solver|].
  rewrite IH, Forall_cons. destruct (String.eqb (ji_Name t) name) eqn:Hn; bools; simpl.
  - rewrite lookup_delete_Some. naive_solver.
  - naive_solver.
Qed.

Lemma drop_enrollment_SQLite name (db : ClusterDB) :
  name <> "" ->
  exists db', drop_enrollment name db = (db', Ok ()) /\
    cdb_spokes db' = delete name (cdb_spokes db) /\
    (forall h rec, cdb_tokens db' !! h = Some rec <-> cdb_tokens db !! h = Some rec /\ jt_Name rec <> name).
Proof.
  intros Hn. apply String.eqb_neq in Hn. unfold drop_enrollment. rewrite Hn.
  eexists. split; [reflexivity|]. split.
  - set (toks := _ <$> _). set (db1 := MkClusterDB _ _).
    change (delete name (cdb_spokes db)) with (cdb_spokes db1). clearbody toks. generalize db1.
    induction toks as [|t toks IH]; intros db2; [done|]. simpl. rewrite IH.
    by destruct (String.eqb (ji_Name t) name).
  - intros h rec. rewrite delete_tokens_of_SQLite. simpl. split.
    + intros [Hin Hall]. split; [done|]. rewrite Forall_forall in Hall.
      apply (Hall (info_of (h, rec))); [|done]. apply elem_of_info_list. by destruct rec.
    + intros [Hin Hne]. split; [done|]. apply Forall_forall. intros t Ht <-.
      apply elem_of_info_list in Ht. naive_solver.
Qed.

(** dropping a spoke revokes it completely: its enrollment record and every
    join token minted for its name are gone, its live connection is closed, it
    is no longer the default spoke, and the other spokes, their tokens, their
    connections and another default are untouched. *)
Theorem dropSpoke_spec : forall name (srv : HubServer ClusterDB),
  name <> "" ->
  exists srv', dropSpoke name srv = (srv', Ok ()) /\
    cdb_spokes (hs_store srv') = delete name (cdb_spokes (hs_store srv)) /\
    (forall h rec, cdb_tokens (hs_store srv') !! h = Some rec <->
                   cdb_tokens (hs_store srv) !! h = Some rec /\ jt_Name rec <> name) /\
    hs_hub srv' = Disconnect name <$> hs_hub srv /\
    DefaultSpoke srv' = (if String.eqb (DefaultSpoke srv) name then "" else DefaultSpoke srv).
Proof.
  intros name srv Hn.
  destruct (drop_enrollment_SQLite name (hs_store srv) Hn) as (db' & Hd & Hs & Ht).
  unfold dropSpoke. rewrite Hd. eexists. split; [reflexivity|].
  unfold DefaultSpoke. cbn [hs_settings].
  destruct (String.eqb (default "" (hs_settings srv !! defaultSpokeSettingKey)) name) eqn:Hdef;
    unfold SetDefaultSpoke; cbn [hs_store hs_hub hs_settings]; rewrite ?lookup_insert_eq;
    split_and!; auto.
Qed.

Lemma dropSpoke_spec_witness :
  let db := MkClusterDB {["h" := MkJoinToken "edge" "" 0]} {["edge" := ("c", 0)]} in
  let srv := MkHubServer db {[defaultSpokeSettingKey := "edge"]} (Some (MkHub {["edge" := 1%nat]} ∅)) in
  exists srv', dropSpoke "edge" srv = (srv', Ok ()) /\
    cdb_spokes (hs_store srv') = delete "edge" (cdb_spokes (hs_store srv)) /\
    (forall h rec, cdb_tokens (hs_store srv') !! h = Some rec <->
                   cdb_tokens (hs_store srv) !! h = Some rec /\ jt_Name rec <> "edge") /\
    hs_hub srv' = Disconnect "edge" <$> hs_hub srv /\
    DefaultSpoke srv' = (if String.eqb (DefaultSpoke srv) "edge" then "" else DefaultSpoke srv).
Proof. intros db srv. apply (dropSpoke_spec "edge" srv). done. Defined.

(** a drop can miss a connection in the middle of its handshake: when it runs
    after the handshake consumed the join token and before the connection is
    registered, it finds no connection to close, and the dropped spoke ends up
    registered on an open connection although its enrollment is deleted. *)
Theorem drop_races_connect :
  let tok := hex_encode (seqZ 1 32) in
  exists (srv : HubServer ClusterDB) db1 srv2,
    hs_hub srv = Some NewHub /\
    authenticateEnroll (Some (seqZ 2 32)) (MkEnrollReq tok "" "") Minute (hs_store srv) =
      (db1, Ok ("edge", hex_encode (seqZ 2 32))) /\
    dropSpoke "edge" (MkHubServer db1 (hs_settings srv) (hs_hub srv)) = (srv2, Ok ()) /\
    cdb_spokes (hs_store srv2) !! "edge" = None /\
    exists hub3, register "edge" 1 <$> hs_hub srv2 = Some hub3 /\
      Spoke "edge" hub3 = Some 1%nat /\ 1%nat ∉ hub_closed hub3.
Proof.
  intros tok.
  exists (MkHubServer (MkClusterDB {[hashSecret tok := MkJoinToken "edge" "" Hour]} ∅) ∅ (Some NewHub)).
  do 2 eexists. split_and!; [done|vm_compute; reflexivity|vm_compute; reflexivity|by vm_compute|].
  eexists. split_and!; [vm_compute; reflexivity|by vm_compute|].
  apply not_elem_of_empty.
Qed.

(** ** The connection registry under concurrent handlers

    Each [ConnectHandler] goroutine registers its connection after the
    handshake and unregisters it when the connection is done: any time after,
    since the peer may drop it, and certainly once it is closed. *)
Record RegState := MkRegState {
  rg_hub : Hub;
  rg_running : gmap nat string;   (* registered connections not yet torn down *)
  rg_next : nat;                  (* next connection, ids are never reused *)
}.

Definition reg_init : RegState := MkRegState NewHub ∅ 0.

Inductive reg_step : RegState -> RegState -> Prop :=
| RegConnect st name :
    reg_step st (MkRegState (register name (rg_next st) (rg_hub st))
      (<[rg_next st := name]> (rg_running st)) (S (rg_next st)))
| RegDisconnect st name :
    reg_step st (MkRegState (Disconnect name (rg_hub st)) (rg_running st) (rg_next st))
| RegTeardown st rs name :
    rg_running st !! rs = Some name ->
    reg_step st (MkRegState (unregister name rs (rg_hub st)) (delete rs (rg_running st)) (rg_next st)).

(** Routed connections run; running connections are routed or closed; a routed
    connection is the newest of its name. *)
Record reg_inv (st : RegState) : Prop := {
  ri_routed : forall n rs, Spoke n (rg_hub st) = Some rs -> rg_running st !! rs = Some n;
  ri_running : forall n rs, rg_running st !! rs = Some n ->
    Spoke n (rg_hub st) = Some rs \/ rs ∈ hub_closed (rg_hub st);
  ri_newest : forall n rs rs', Spoke n (rg_hub st) = Some rs -> rg_running st !! rs' = Some n -> (rs' <= rs)%nat;
  ri_fresh : forall n rs, rg_running st !! rs = Some n -> (rs < rg_next st)%nat;
}.

Lemma Spoke_register n name rs h :
  Spoke n (register name rs h) = if decide (name = n) then Some rs else Spoke n h.
Proof. unfold Spoke, register. destruct (hub_spokes h !! name); simpl; by rewrite lookup_insert. Qed.

Lemma closed_register name rs h x :
  x ∈ hub_closed (register name rs h) <-> x ∈ hub_closed h \/ Spoke name h = Some x.
Proof. unfold Spoke, register. destruct (hub_spokes h !! name); simpl; set_solver. Qed.

Lemma Spoke_Disconnect n name h : Spoke n (Disconnect name h) = Spoke n h.
Proof. unfold Spoke, Disconnect. by destruct (hub_spokes h !! name). Qed.

Lemma closed_Disconnect name h : hub_closed h ⊆ hub_closed (Disconnect name h).
Proof. unfold Disconnect. destruct (hub_spokes h !! name); simpl; set_solver. Qed.

Lemma Spoke_unregister n name rs h :
  Spoke n (unregister name rs h) =
  if decide (name = n /\ Spoke n h = Some rs) then None else Spoke n h.
Proof.
  unfold Spoke, unregister. repeat case_decide; simpl; rewrite ?lookup_delete; repeat case_decide; naive_solver.
Qed.

Lemma closed_unregister name rs h : hub_closed (unregister name rs h) = hub_closed h.
Proof. unfold unregister. by case_decide. Qed.

Lemma reg_init_inv : reg_inv reg_init.
Proof. by constructor. Qed.

Lemma reg_step_inv st st' : reg_step st st' -> reg_inv st -> reg_inv st'.
Proof.
  intros Hs [Hr Hrun Hnew Hfr].
  destruct Hs as [st name|st name|st rs0 name Hrs0]; constructor; simpl; intros n rs.
  - rewrite Spoke_register, lookup_insert. intros H. repeat case_decide; simplify_eq; try done.
    + apply Hr, Hfr in H. lia.
    + by apply Hr.
  - rewrite Spoke_register, lookup_insert, closed_register. intros H.
    repeat case_decide; simplify_eq; auto; apply Hrun in H; naive_solver.
  - intros rs'. rewrite Spoke_register, lookup_insert. intros H1 H2.
    repeat case_decide; simplify_eq; try lia.
    + apply Hfr in H2. lia.
    + eauto.
  - rewrite lookup_insert. case_decide; [lia|]. intros Hx%Hfr. lia.
  - rewrite Spoke_Disconnect. apply Hr.
  - rewrite Spoke_Disconnect. intros [?|?]%Hrun; [by left|right].
    by apply closed_Disconnect.
  - rewrite Spoke_Disconnect. apply Hnew.
  - apply Hfr.
  - rewrite Spoke_unregister, lookup_delete. intros H. case_decide as Hc; [done|].
    specialize (Hr _ _ H). case_decide; [|done]. simplify_eq. naive_solver.
  - rewrite Spoke_unregister, lookup_delete, closed_unregister. case_decide as Hx; [done|].
    intros [?|?]%Hrun; [left|by right]. case_decide; naive_solver.
  - intros rs'. rewrite Spoke_unregister, lookup_delete. intros H1 H2.
    repeat case_decide; try done. eauto.
  - rewrite lookup_delete. case_decide; [done|]. apply Hfr.
Qed.

(** in every interleaving of connects, forced disconnects and teardowns, the
    registry routes a name to a running connection, the newest one under that
    name, and a running connection that is no longer routed has been closed: a
    reconnect supersedes the stale link and the stale link's teardown never
    evicts it. *)
Theorem registry_routes_newest : forall st,
  rtc reg_step reg_init st -> reg_inv st.
Proof.
  intros st Hst. assert (Hi := reg_init_inv). induction Hst; eauto using reg_step_inv.
Qed.

Lemma registry_routes_newest_witness :
  let st := MkRegState (MkHub {["edge" := 1%nat]} {[0%nat]}) {[0%nat := "edge"; 1%nat := "edge"]} 2 in
  rtc reg_step reg_init st /\ reg_inv st.
Proof.
  assert (Hst : rtc reg_step reg_init
    (MkRegState (MkHub {["edge" := 1%nat]} {[0%nat]}) {[0%nat := "edge"; 1%nat := "edge"]} 2)).
  { eapply rtc_l; [apply (RegConnect _ "edge")|]. eapply rtc_l; [apply (RegConnect _ "edge")|].
    replace (MkRegState _ _ _) with
      (MkRegState (MkHub {["edge" := 1%nat]} {[0%nat]}) {[0%nat := "edge"; 1%nat := "edge"]} 2);
      [apply rtc_refl|vm_compute; reflexivity]. }
  split; [exact Hst|]. apply registry_routes_newest. exact Hst.
Defined.
