(* ===== verification/Auth.v ===== *)
(** * Authentication of the hub's callers

    API keys (internal/hub/apikey), OIDC sign-in (internal/hub/auth) and the
    middleware that admits a request on either (internal/hub/apiauth.go).  The
    sign-in providers (the OAuth code exchange, ID-token verification, GitHub's
    API) and [url.Parse] are parameters: the theorems hold for every provider
    and every parser.  The clock reading and the random bytes a handler draws
    are arguments; [None] is a failing random source. *)

From S2P Require Import Prelude GoStrings Sha256 Store.

Local Open Scope Z_scope.

(** ** API keys *)

Definition secretPrefix : string := "lbx_".

Definition HashSecret (secret : string) : string := sha256_hex secret.

Inductive APIKeyError := ErrKeyName | ErrKeyTTL | ErrKeyRandom | ErrNoKey | ErrKeyAmbiguous.

Abbreviation KeyTable := (gmap string APIKeyRecord).

Definition Create (rnd : option (list Z)) (name : string) (ttl now : Z) (st : KeyTable) :
    KeyTable * res APIKeyError string :=
  if String.eqb name "" then (st, Err ErrKeyName)
  else if ttl <=? 0 then (st, Err ErrKeyTTL)
  else
    match rnd with
    | None => (st, Err ErrKeyRandom)
    | Some b =>
        let secret := secretPrefix +:+ hex_encode b in
        let rec := MkAPIKeyRecord name now (now + ttl) in
        (PutAPIKey (HashSecret secret) rec st, Ok secret)
    end.

Definition Authenticate (secret : string) (now : Z) (st : KeyTable) : option APIKeyRecord :=
  if String.eqb secret "" then None
  else
    match GetAPIKey (HashSecret secret) st with
    | Some rec => if After now (ak_ExpiresAt rec) then None else Some rec
    | None => None
    end.

(** The [apikey delete] command. *)
Definition key_matches (idPrefix name : string) (k : string * APIKeyRecord) : bool :=
  (negb (String.eqb idPrefix "") && HasPrefix k.1 idPrefix)
  || (negb (String.eqb name "") && String.eqb (ak_Name k.2) name).

Definition deleteAPIKeys (idPrefix name : string) (st : KeyTable) : KeyTable * res APIKeyError () :=
  let matched := List.filter (key_matches idPrefix name) (ListAPIKeys st) in
  match matched with
  | [] => (st, Err ErrNoKey)
  | _ =>
      if negb (String.eqb idPrefix "") && (1 <? Z.of_nat (length matched))
      then (st, Err ErrKeyAmbiguous)
      else (foldl (fun st k => DeleteAPIKey k.1 st) st matched, Ok ())
  end.

(** ** base64.RawURLEncoding *)

Definition base64url_digit (d : Z) : ascii :=
  if d <? 26 then ascii_of_N (Z.to_N (65 + d))
  else if d <? 52 then ascii_of_N (Z.to_N (71 + d))
  else if d <? 62 then ascii_of_N (Z.to_N (d - 4))
  else if d =? 62 then "-"%char else "_"%char.

Fixpoint base64url (l : list Z) : string :=
  match l with
  | a :: b :: c :: l' =>
      String (base64url_digit (a / 4)) (String (base64url_digit (a mod 4 * 16 + b / 16))
      (String (base64url_digit (b mod 16 * 4 + c / 64)) (String (base64url_digit (c mod 64)) (base64url l'))))
  | [a; b] =>
      String (base64url_digit (a / 4)) (String (base64url_digit (a mod 4 * 16 + b / 16))
      (String (base64url_digit (b mod 16 * 4)) ""))
  | [a] => String (base64url_digit (a / 4)) (String (base64url_digit (a mod 4 * 16)) "")
  | [] => ""
  end.

Example base64url_rfc : base64url (bytes_of "foobar") = "Zm9vYmFy" /\ base64url [251; 255] = "-_8".
Proof. split; reflexivity. Qed.

Definition randToken (rnd : option (list Z)) : option string := base64url <$> rnd.

(** ** The authenticator *)

Record idClaims := MkClaims { cl_Email : string; cl_EmailVerified : bool; cl_HostedDomain : string }.

Record Authenticator := MkAuthenticator {
  au_providers : gset string;
  au_sessionTTL : Z;
  au_adminEmails : gset string;
  au_cookieDomain : string;
}.

Definition flowTTL : Z := 10 * Minute.

(** [lowerSet]. *)
Definition lowerSet (items : list string) : gset string :=
  list_to_set (List.filter (fun it => negb (String.eqb it "")) ((fun it => TrimSpace (ToLower it)) <$> items)).

Definition AdminEnabled (a : option Authenticator) : bool :=
  match a with
  | Some a => bool_decide (au_adminEmails a <> ∅)
  | None => false
  end.

Definition isAdmin (a : Authenticator) (email : string) : bool :=
  if String.eqb email "" then false else bool_decide (ToLower (TrimSpace email) ∈ au_adminEmails a).

(** What [url.Parse] and [Hostname] report of a URL. *)
Record URL := MkURL { u_Scheme : string; u_Host : string; u_Hostname : string }.

(** An HTTP response: status, redirect target and login cookie set. *)
Record Response := MkResponse { rp_status : Z; rp_location : string; rp_cookie : option string }.
Definition failed (status : Z) : Response := MkResponse status "" None.

Section Handlers.
Context {Token : Type}.
Variable url_Parse : string -> option URL.
Variable Exchange : string -> string -> string -> option Token.
Variable resolve : string -> Token -> string -> option idClaims.
Variable AuthCodeURL : string -> string -> string -> string -> string.

Definition safeReturnPath (p : string) : string :=
  if String.eqb p "" || negb (HasPrefix p "/") || HasPrefix p "//" || HasPrefix p "/\" then ""
  else if ContainsByte p "\" then ""
  else
    match url_Parse p with
    | None => ""
    | Some u => if negb (String.eqb (u_Scheme u) "") || negb (String.eqb (u_Host u) "") then "" else p
    end.

Definition SafeReturnURL (a : Authenticator) (to : string) : string :=
  let p := safeReturnPath to in
  if negb (String.eqb p "") then p
  else if String.eqb (au_cookieDomain a) "" then ""
  else
    match url_Parse to with
    | None => ""
    | Some u =>
        if (negb (String.eqb (u_Scheme u) "https") && negb (String.eqb (u_Scheme u) "http"))
           || String.eqb (u_Host u) "" then ""
        else
          let host := ToLower (u_Hostname u) in
          let cd := ToLower (au_cookieDomain a) in
          if String.eqb host cd || HasSuffix host ("." +:+ cd) then to else ""
    end.

(** [HandleLogin]: returns the redirect to the provider and stores the flow. *)
Definition HandleLogin (a : Authenticator) (provider ret : string) (rndState rndNonce : option (list Z))
    (verifier : string) (now : Z) (db : IdentityDB) : IdentityDB * Response :=
  if negb (bool_decide (provider ∈ au_providers a)) then (db, failed 404)
  else
    let returnTo := SafeReturnURL a ret in
    if String.eqb returnTo "" then (db, failed 400)
    else
      match randToken rndState, randToken rndNonce with
      | Some state, Some nonce =>
          let flow := MkOIDCFlow provider returnTo nonce verifier (now + flowTTL) in
          (PutOIDCFlow (sha256_hex state) flow db,
           MkResponse 302 (AuthCodeURL provider state nonce verifier) None)
      | _, _ => (db, failed 500)
      end.

(** [HandleCallback]; [err], [state] and [code] are the query parameters, [now]
    and [now'] the two clock readings. *)
Definition HandleCallback (a : Authenticator) (provider err state code : string)
    (rndID rndCSRF : option (list Z)) (now now' : Z) (db : IdentityDB) : IdentityDB * Response :=
  if negb (bool_decide (provider ∈ au_providers a)) then (db, failed 404)
  else if negb (String.eqb err "") then (db, failed 400)
  else
    let '(db1, taken) := TakeOIDCFlow (sha256_hex state) db in
    match taken with
    | None => (db1, failed 400)
    | Some flow =>
        if negb (String.eqb (of_Provider flow) provider) || After now (of_ExpiresAt flow)
        then (db1, failed 400)
        else
          match Exchange provider code (of_PKCEVerifier flow) with
          | None => (db1, failed 502)
          | Some tok =>
              match resolve provider tok (of_Nonce flow) with
              | None => (db1, failed 502)
              | Some claims =>
                  let admin := cl_EmailVerified claims && isAdmin a (cl_Email claims) in
                  if negb admin then (db1, failed 403)
                  else
                    match randToken rndID, randToken rndCSRF with
                    | Some id, Some csrf =>
                        let sess := MkIdentitySession (cl_Email claims) provider csrf
                          (now' + au_sessionTTL a) admin in
                        (PutIdentitySession (sha256_hex id) sess db1,
                         MkResponse 302 (of_ReturnTo flow) (Some id))
                    | _, _ => (db1, failed 500)
                    end
              end
          end
    end.

(** [CurrentLogin]: [cookie] is the login cookie's value, if sent. *)
Definition CurrentLogin (cookie : option string) (now : Z) (db : IdentityDB) : option IdentitySession :=
  match cookie with
  | None => None
  | Some v =>
      match GetIdentitySession (sha256_hex v) db with
      | None => None
      | Some ls => if After now (is_ExpiresAt ls) then None else Some ls
      end
  end.

Definition Logout (cookie : option string) (db : IdentityDB) : IdentityDB :=
  match cookie with
  | None => db
  | Some v => DeleteIdentitySession (sha256_hex v) db
  end.

End Handlers.

(** GitHub's resolver picks the account's primary address. *)
Record githubEmail := MkGithubEmail { ge_Email : string; ge_Primary : bool; ge_Verified : bool }.

Definition github_claims (emails : list githubEmail) : option idClaims :=
  match first_match ge_Primary emails with
  | Some e => Some (MkClaims (ge_Email e) (ge_Verified e) "")
  | None => None
  end.

(** ** The API middleware *)

(** The parts of a request the middleware reads. *)
Record Request := MkRequest { rq_Authorization : string; rq_CSRF : string; rq_Cookie : option string }.

Definition bearerToken (r : Request) : option string :=
  let h := rq_Authorization r in
  let prefix := "Bearer " in
  if Nat.ltb (String.length h) (String.length prefix)
     || negb (EqualFold (String.substring 0 (String.length prefix) h) prefix)
  then None
  else Some (TrimSpace (String.substring (String.length prefix) (String.length h - String.length prefix) h)).

(** [requireAPIAuth]: the principal the request is served as, or the status it
    is refused with.  [None] for [a] is a hub without sign-in providers. *)
Definition requireAPIAuth (a : option Authenticator) (keys : KeyTable) (db : IdentityDB) (now : Z)
    (r : Request) : res Z string :=
  match bearerToken r with
  | Some key =>
      match Authenticate key now keys with
      | Some rec => Ok ("apikey:" +:+ ak_Name rec)
      | None => Err 401
      end
  | None =>
      match a with
      | None => Err 401
      | Some _ =>
          match CurrentLogin (rq_Cookie r) now db with
          | None => Err 401
          | Some ls =>
              if negb (is_CanAdmin ls) then Err 403
              else if negb (String.eqb (rq_CSRF r) (is_CSRFToken ls)) then Err 403
              else Ok (is_Email ls)
          end
      end
  end.

(** [handleMe]: email, admin flag and CSRF token. *)
Definition handleMe (a : option Authenticator) (db : IdentityDB) (now : Z) (r : Request) :
    res Z (string * bool * string) :=
  match a with
  | None => Err 401
  | Some _ =>
      match CurrentLogin (rq_Cookie r) now db with
      | None => Err 401
      | Some ls => Ok (is_Email ls, is_CanAdmin ls, is_CSRFToken ls)
      end
  end.

Definition handleLogout (a : option Authenticator) (now : Z) (r : Request) (db : IdentityDB) :
    IdentityDB * res Z () :=
  match a with
  | None => (db, Err 401)
  | Some _ =>
      match CurrentLogin (rq_Cookie r) now db with
      | None => (db, Err 401)
      | Some ls =>
          if negb (String.eqb (rq_CSRF r) (is_CSRFToken ls)) then (db, Err 403)
          else (Logout (rq_Cookie r) db, Ok ())
      end
  end.

(** ** API keys: theorems *)

Lemma Authenticate_spec secret now st rec :
  Authenticate secret now st = Some rec <->
  secret <> "" /\ st !! HashSecret secret = Some rec /\ now <= ak_ExpiresAt rec.
Proof.
  unfold Authenticate, GetAPIKey, After. destruct (String.eqb secret "") eqn:He; bools.
  - naive_solver.
  - destruct (st !! HashSecret secret) as [rec'|]; [|naive_solver].
    destruct (ak_ExpiresAt rec' <? now) eqn:Hx; bools.
    + split; [done|]. intros (_ & [= ->] & ?). lia.
    + split; [|naive_solver]. by intros [= ->].
Qed.

(** an API key authenticates from its creation until it expires and not
    after, under the name it was created with; creating it changes nothing for
    any secret with another hash.  A creation fails, leaving the store
    unchanged, exactly for an empty name, a non-positive lifetime or a failing
    random source. *)
Theorem APIKey_lifetime : forall rnd name ttl now st,
  match Create rnd name ttl now st with
  | (st', Err _) => st' = st /\ (name = "" \/ ttl <= 0 \/ rnd = None)
  | (st', Ok secret) =>
      (forall later, Authenticate secret later st' =
         if later <=? now + ttl then Some (MkAPIKeyRecord name now (now + ttl)) else None) /\
      (forall other later, HashSecret other = HashSecret secret \/
         Authenticate other later st' = Authenticate other later st)
  end.
Proof.
  intros rnd name ttl now st. unfold Create. destruct (String.eqb name "") eqn:Hn; bools; [auto|].
  destruct (ttl <=? 0) eqn:Ht; bools; [auto|]. destruct rnd as [b|]; [|auto].
  set (secret := secretPrefix +:+ hex_encode b). split.
  - intros later. unfold Authenticate, GetAPIKey, PutAPIKey. rewrite lookup_insert_eq.
    replace (String.eqb secret "") with false by done. simpl. unfold After.
    destruct (later <=? now + ttl) eqn:Hl; bools.
    + by rewrite (proj2 (Z.ltb_ge _ _) Hl).
    + by rewrite (proj2 (Z.ltb_lt _ _) Hl).
  - intros other later. destruct (decide (HashSecret other = HashSecret secret)); [by left|right].
    unfold Authenticate, GetAPIKey, PutAPIKey. by rewrite lookup_insert_ne.
Qed.

Lemma foldl_DeleteAPIKey (l : list (string * APIKeyRecord)) st h :
  foldl (fun st k => DeleteAPIKey k.1 st) st l !! h =
  if decide (h ∈ l.*1) then None else st !! h.
Proof.
  revert st. induction l as [|k l IH]; intros st; [done|]. simpl. rewrite IH. unfold DeleteAPIKey.
  repeat case_decide; rewrite ?lookup_delete; repeat case_decide; set_solver.
Qed.

(** [apikey delete] removes exactly the selected keys; with an id prefix it
    removes exactly one key or none. *)
Theorem deleteAPIKeys_spec : forall idPrefix name st,
  match deleteAPIKeys idPrefix name st with
  | (st', Err _) => st' = st
  | (st', Ok _) =>
      (forall h, st' !! h = match st !! h with
         | Some rec => if key_matches idPrefix name (h, rec) then None else Some rec
         | None => None
         end) /\
      (exists h rec, st !! h = Some rec /\ key_matches idPrefix name (h, rec) = true) /\
      (idPrefix <> "" -> forall h1 h2 r1 r2, st !! h1 = Some r1 -> st !! h2 = Some r2 ->
         key_matches idPrefix name (h1, r1) = true -> key_matches idPrefix name (h2, r2) = true -> h1 = h2)
  end.
Proof.
  intros idPrefix name st. unfold deleteAPIKeys, ListAPIKeys.
  assert (Hin : forall h rec, (h, rec) ∈ List.filter (key_matches idPrefix name) (map_to_list st) <->
    st !! h = Some rec /\ key_matches idPrefix name (h, rec) = true).
  { intros h rec. rewrite list_elem_of_In, filter_In, <- list_elem_of_In. by rewrite elem_of_map_to_list. }
  destruct (List.filter _ _) as [|k l] eqn:Hf; [done|].
  destruct (_ && _) eqn:Hamb; [done|]. split_and!.
  - intros h. rewrite foldl_DeleteAPIKey. case_decide as Hh.
    + apply list_elem_of_fmap in Hh as ([h' rec] & -> & Hk). apply Hin in Hk as [Hl Hk]. simpl. by rewrite Hl, Hk.
    + destruct (st !! h) as [rec|] eqn:Hrec; [|done].
      destruct (key_matches idPrefix name (h, rec)) eqn:Hk; [|done].
      exfalso. apply Hh. apply list_elem_of_fmap. exists (h, rec). split; [done|]. by apply Hin.
  - destruct k as [h rec]. exists h, rec. apply Hin. set_solver.
  - intros Hne h1 h2 r1 r2 H1 H2 M1 M2. apply String.eqb_neq in Hne. rewrite Hne in Hamb. simpl in Hamb.
    apply Z.ltb_ge in Hamb. destruct l; [|simpl in Hamb; lia].
    assert ((h1, r1) ∈ [k] /\ (h2, r2) ∈ [k]) as [A B] by (split; apply Hin; done). set_solver.
Qed.

(** ** Sign-in: theorems *)

Section SignIn.
Context {Token : Type}.
Variable url_Parse : string -> option URL.
Variable Exchange : string -> string -> string -> option Token.
Variable resolve : string -> Token -> string -> option idClaims.
Variable AuthCodeURL : string -> string -> string -> string -> string.
Variable a : Authenticator.

(** Some provider vouches for the address as verified. *)
Definition attested (email : string) : Prop :=
  exists provider code verifier nonce tok claims,
    Exchange provider code verifier = Some tok /\ resolve provider tok nonce = Some claims /\
    cl_EmailVerified claims = true /\ cl_Email claims = email.

Definition session_ok (s : IdentitySession) : Prop :=
  is_CanAdmin s = true /\ isAdmin a (is_Email s) = true /\ attested (is_Email s).

Definition sessions_ok (db : IdentityDB) : Prop :=
  forall k s, id_sessions db !! k = Some s -> session_ok s.

(** Everything the hub does to the sign-in tables. *)
Inductive auth_step (db : IdentityDB) : IdentityDB -> Prop :=
| StepLogin provider ret r1 r2 verifier now :
    auth_step db (HandleLogin url_Parse AuthCodeURL a provider ret r1 r2 verifier now db).1
| StepCallback provider err state code r1 r2 now now' :
    auth_step db (HandleCallback Exchange resolve a provider err state code r1 r2 now now' db).1
| StepLogout now r : auth_step db (handleLogout (Some a) now r db).1
| StepPurge now : auth_step db (PurgeExpiredIdentities now db).

Lemma HandleLogin_sessions provider ret r1 r2 verifier now db :
  id_sessions (HandleLogin url_Parse AuthCodeURL a provider ret r1 r2 verifier now db).1 = id_sessions db.
Proof. unfold HandleLogin. by repeat step_match. Qed.

(** A callback either leaves the sessions alone or adds one, for an attested
    administrator. *)
Lemma HandleCallback_sessions provider err state code r1 r2 now now' db :
  let db' := (HandleCallback Exchange resolve a provider err state code r1 r2 now now' db).1 in
  id_sessions db' = id_sessions db \/
  exists k s, id_sessions db' = <[k := s]> (id_sessions db) /\ session_ok s.
Proof.
  unfold HandleCallback. cbn [TakeOIDCFlow].
  destruct (negb (bool_decide _)); [by left|]. destruct (negb (String.eqb err "")); [by left|].
  destruct (id_flows db !! sha256_hex state) as [flow|]; [|by left].
  destruct (_ || After now _); [by left|].
  destruct (Exchange _ _ _) as [tok|] eqn:He; [|by left].
  destruct (resolve _ _ _) as [claims|] eqn:Hr; [|by left].
  destruct (cl_EmailVerified claims && isAdmin a (cl_Email claims)) eqn:Hadm; [|by left]. bools.
  destruct (randToken r1), (randToken r2); try by left. right.
  do 2 eexists. split; [reflexivity|]. split_and!; [done|done|].
  do 6 eexists. split_and!; [exact He|exact Hr|done|done].
Qed.

Lemma auth_step_ok db db' : auth_step db db' -> sessions_ok db -> sessions_ok db'.
Proof.
  intros Hs Hok. destruct Hs as [| |now r|now].
  - unfold sessions_ok. by rewrite HandleLogin_sessions.
  - destruct (HandleCallback_sessions provider err state code r1 r2 now now' db)
      as [Heq|(k & s & Heq & Hs)]; unfold sessions_ok; rewrite Heq; [done|].
    intros k' s'. rewrite lookup_insert. case_decide; [by intros [= <-]|apply Hok].
  - unfold handleLogout, Logout. destruct (CurrentLogin _ _ _) as [ls|]; [|done].
    destruct (negb _); [done|]. destruct (rq_Cookie r) as [v|]; [|done].
    unfold sessions_ok, DeleteIdentitySession. cbn [fst id_sessions].
    intros k s'. rewrite lookup_delete_Some. intros [_ ?]. by eapply Hok.
  - intros k s. simpl. rewrite map_lookup_filter_Some. intros [? _]. by eapply Hok.
Qed.

Lemma reachable_sessions_ok db : rtc auth_step (MkIdentityDB ∅ ∅) db -> sessions_ok db.
Proof.
  assert (Hi : sessions_ok (MkIdentityDB ∅ ∅)) by done.
  revert Hi. generalize (MkIdentityDB ∅ ∅). intros db0 Hi Hst.
  induction Hst; eauto using auth_step_ok.
Qed.

End SignIn.

(** The API serves only authenticated callers.  In every state the sign-in
    handlers can reach, a request is served either as an API key that is stored
    and unexpired, or as the owner of an unexpired login session that echoed the
    session's CSRF token; and then the session's address is on the admin list
    and some provider attested it as verified. *)
Theorem requireAPIAuth_sound :
  forall {Token} url_Parse Exchange (resolve : string -> Token -> string -> option idClaims) AuthCodeURL
         a keys db now r principal,
  rtc (auth_step url_Parse Exchange resolve AuthCodeURL a) (MkIdentityDB ∅ ∅) db ->
  requireAPIAuth (Some a) keys db now r = Ok principal ->
  (exists key rec, bearerToken r = Some key /\ keys !! HashSecret key = Some rec /\
     now <= ak_ExpiresAt rec /\ principal = "apikey:" +:+ ak_Name rec) \/
  (exists cookie s, bearerToken r = None /\ rq_Cookie r = Some cookie /\
     id_sessions db !! sha256_hex cookie = Some s /\ now <= is_ExpiresAt s /\
     rq_CSRF r = is_CSRFToken s /\ principal = is_Email s /\
     isAdmin a principal = true /\ attested Exchange resolve principal).
Proof.
  intros Token url_Parse Exchange resolve AuthCodeURL a keys db now r principal Hreach Hserved.
  apply reachable_sessions_ok in Hreach. unfold requireAPIAuth in Hserved.
  destruct (bearerToken r) as [key|] eqn:Hb.
  - left. destruct (Authenticate key now keys) as [rec|] eqn:Ha; [|done]. simplify_eq.
    apply Authenticate_spec in Ha as (_ & Hin & Hle). eauto 6.
  - right. unfold CurrentLogin, GetIdentitySession, After in Hserved.
    destruct (rq_Cookie r) as [cookie|]; [|done].
    destruct (id_sessions db !! sha256_hex cookie) as [s|] eqn:Hs; [|done].
    destruct (is_ExpiresAt s <? now) eqn:Hx; [done|].
    destruct (is_CanAdmin s); [|done]. destruct (String.eqb (rq_CSRF r) _) eqn:Hc; [|done].
    simplify_eq/=. bools. destruct (Hreach _ _ Hs) as (_ & Hadm & Hatt).
    exists cookie, s. split_and!; auto.
Qed.

(** A concrete provider for the examples: codes are addresses, the token is the
    address, every address is verified. *)
Module Demo.

Definition parse (s : string) : option URL := Some (MkURL "" "" "").
Definition exchange (provider code verifier : string) : option string := Some code.
Definition identify (provider : string) (tok nonce : string) : option idClaims :=
  Some (MkClaims tok true "").
Definition code_url (provider state nonce verifier : string) : string := "https://idp/" +:+ state.
Definition auth : Authenticator :=
  MkAuthenticator {["google"]} (24 * Hour) (lowerSet ["Admin@Example.com "]) "".

Definition db0 : IdentityDB := MkIdentityDB ∅ ∅.
Definition state : string := base64url (seqZ 1 32).
Definition id : string := base64url (seqZ 3 32).
Definition csrf : string := base64url (seqZ 4 32).
Definition db1 : IdentityDB :=
  (HandleLogin parse code_url auth "google" "/admin" (Some (seqZ 1 32)) (Some (seqZ 2 32)) "pkce" 0 db0).1.
Definition db2 : IdentityDB :=
  (HandleCallback exchange identify auth "google" "" state "admin@example.com"
     (Some (seqZ 3 32)) (Some (seqZ 4 32)) Minute Minute db1).1.

Lemma db2_reachable : rtc (auth_step parse exchange identify code_url auth) db0 db2.
Proof.
  eapply rtc_l; [|eapply rtc_l; [|apply rtc_refl]]; [apply StepLogin|apply StepCallback].
Qed.

End Demo.

Lemma requireAPIAuth_sound_witness :
  let r := MkRequest "" Demo.csrf (Some Demo.id) in
  (exists key rec, bearerToken r = Some key /\ (∅ : KeyTable) !! HashSecret key = Some rec /\
     Hour <= ak_ExpiresAt rec /\ "admin@example.com" = "apikey:" +:+ ak_Name rec) \/
  (exists cookie s, bearerToken r = None /\ rq_Cookie r = Some cookie /\
     id_sessions Demo.db2 !! sha256_hex cookie = Some s /\ Hour <= is_ExpiresAt s /\
     rq_CSRF r = is_CSRFToken s /\ "admin@example.com" = is_Email s /\
     isAdmin Demo.auth "admin@example.com" = true /\
     attested Demo.exchange Demo.identify "admin@example.com").
Proof.
  intros r.
  apply (requireAPIAuth_sound Demo.parse Demo.exchange Demo.identify Demo.code_url Demo.auth
    ∅ Demo.db2 Hour r "admin@example.com"); [apply Demo.db2_reachable|vm_compute; reflexivity].
Defined.

Lemma TakeOIDCFlow_gone state db : id_flows (TakeOIDCFlow state db).1 !! state = None.
Proof. simpl. by rewrite lookup_delete_eq. Qed.

(** C40: signing in works and works once.  After a login started with a provider,
    presenting its state within ten minutes, with a code the provider vouches
    for as a verified administrator's, redirects to the requested place with a
    session cookie; that cookie is the caller's login until the session's
    lifetime is over, and logging out with its CSRF token ends it.  Presenting
    the same state again is refused. *)
Theorem sign_in_roundtrip :
  forall {Token} url_Parse Exchange (resolve : string -> Token -> string -> option idClaims) AuthCodeURL
         a provider ret bs bn verifier now db code bi bc now2 now2' tok claims,
  let state := base64url bs in
  let id := base64url bi in
  let sess := MkIdentitySession (cl_Email claims) provider (base64url bc) (now2' + au_sessionTTL a) true in
  provider ∈ au_providers a -> SafeReturnURL url_Parse a ret <> "" -> now2 <= now + flowTTL ->
  Exchange provider code verifier = Some tok -> resolve provider tok (base64url bn) = Some claims ->
  cl_EmailVerified claims = true -> isAdmin a (cl_Email claims) = true ->
  let db1 := (HandleLogin url_Parse AuthCodeURL a provider ret (Some bs) (Some bn) verifier now db).1 in
  let callback rid rcsrf := HandleCallback Exchange resolve a provider "" state code rid rcsrf now2 now2' in
  exists db2, callback (Some bi) (Some bc) db1 = (db2, MkResponse 302 (SafeReturnURL url_Parse a ret) (Some id)) /\
    (forall later, CurrentLogin (Some id) later db2 =
       if later <=? now2' + au_sessionTTL a then Some sess else None) /\
    (forall later auth keys, later <= now2' + au_sessionTTL a ->
       requireAPIAuth (Some a) keys db2 later (MkRequest "" (base64url bc) (Some id)) = Ok (cl_Email claims) /\
       exists db3, handleLogout (Some a) later (MkRequest auth (base64url bc) (Some id)) db2 = (db3, Ok ()) /\
         forall t, CurrentLogin (Some id) t db3 = None) /\
    (forall rid rcsrf, (callback rid rcsrf db2).2 = failed 400).
Proof.
  intros Token url_Parse Exchange resolve AuthCodeURL a provider ret bs bn verifier now db code bi bc
    now2 now2' tok claims state id sess Hp Hret Hnow He Hr Hv Hadm db1 callback.
  apply String.eqb_neq in Hret.
  assert (Hdb1 : db1 = PutOIDCFlow (sha256_hex state)
    (MkOIDCFlow provider (SafeReturnURL url_Parse a ret) (base64url bn) verifier (now + flowTTL)) db).
  { unfold db1, HandleLogin. rewrite bool_decide_true by done. simpl. by rewrite Hret. }
  set (db2 := MkIdentityDB (<[sha256_hex id := sess]> (id_sessions db)) (delete (sha256_hex state) (id_flows db1))).
  assert (Hcur : forall later, CurrentLogin (Some id) later db2 =
       if later <=? now2' + au_sessionTTL a then Some sess else None).
  { intros later. unfold CurrentLogin, GetIdentitySession, After, db2. cbn [id_sessions].
    rewrite lookup_insert_eq. cbn [is_ExpiresAt sess].
    destruct (later <=? now2' + au_sessionTTL a) eqn:Hl; bools.
    - by rewrite (proj2 (Z.ltb_ge _ _) Hl).
    - by rewrite (proj2 (Z.ltb_lt _ _) Hl). }
  exists db2. split_and!; [|exact Hcur| |].
  - unfold callback, HandleCallback. rewrite bool_decide_true by done. rewrite Hdb1. cbn.
    rewrite lookup_insert_eq. cbn. rewrite String.eqb_refl. unfold After. cbn [of_ExpiresAt].
    rewrite (proj2 (Z.ltb_ge _ _) Hnow). cbn [negb orb]. rewrite He, Hr, Hv, Hadm. cbn.
    unfold db2. by rewrite Hdb1.
  - intros later auth keys Hl. unfold requireAPIAuth, handleLogout. cbn [bearerToken rq_Cookie].
    rewrite Hcur, (proj2 (Z.leb_le _ _) Hl). cbn [is_CSRFToken rq_CSRF sess is_CanAdmin negb].
    rewrite String.eqb_refl. split; [done|]. eexists. split; [done|]. intros t.
    unfold CurrentLogin, GetIdentitySession. simpl. by rewrite lookup_delete_eq.
  - intros rid rcsrf. unfold callback, HandleCallback. rewrite bool_decide_true by done. cbn.
    by rewrite lookup_delete_eq.
Qed.

Lemma sign_in_roundtrip_witness :
  let callback rid rcsrf := HandleCallback Demo.exchange Demo.identify Demo.auth "google" "" Demo.state
    "admin@example.com" rid rcsrf Minute Minute in
  exists db2, callback (Some (seqZ 3 32)) (Some (seqZ 4 32)) Demo.db1 =
      (db2, MkResponse 302 (SafeReturnURL Demo.parse Demo.auth "/admin") (Some Demo.id)).
Proof.
  edestruct (sign_in_roundtrip Demo.parse Demo.exchange Demo.identify Demo.code_url Demo.auth
    "google" "/admin" (seqZ 1 32) (seqZ 2 32) "pkce" 0 Demo.db0 "admin@example.com"
    (seqZ 3 32) (seqZ 4 32) Minute Minute "admin@example.com" (MkClaims "admin@example.com" true ""))
    as (db2 & H & _).
  - vm_compute. reflexivity.
  - vm_compute. discriminate.
  - vm_compute. discriminate.
  - reflexivity.
  - reflexivity.
  - reflexivity.
  - vm_compute. reflexivity.
  - exists db2. exact H.
Defined.
