(* ===== verification/Allowlist.v ===== *)
(** * The network allowlist of the hub (internal/hub/allowlist.go, dns_audit.go)

    Groups of egress domains, their assignment to boxes, the effective policy of
    a box and its push to the spoke that runs the box.  A handler is a function
    from the decoded request and the server state to the new state and the
    response; the JSON coding of requests and responses is not modelled. *)

From S2P Require Import Prelude GoStrings Regex Sandbox Dnsd Netfw Isolation Store Enroll.

Local Open Scope Z_scope.

Definition defaultAllowlistTTLSeconds : Z := 30.

(** ** Domains *)

(** [^(\*\.)?([a-z0-9]([a-z0-9-]*[a-z0-9])?\.)+[a-z]{2,}$] *)
Definition dot : re := Chr (Ascii.eqb ".").
Definition domain_label : re :=
  Cat (Chr alnum) (Opt (Cat (Star (Chr alnum_hyphen)) (Chr alnum))).
Definition domainPattern : re :=
  Cat (Opt (Cat (Chr (Ascii.eqb "*")) dot))
      (Cat (Plus (Cat domain_label dot)) (AtLeast2 (Chr is_lower))).

(** The loop of [normalizeDomains]; the [seen] map holds the elements of [out].
    The error is the offending entry. *)
Fixpoint normalize_loop (l out : list string) : res string (list string) :=
  match l with
  | [] => Ok (sort_strings out)
  | raw :: l' =>
      let d := ToLower (TrimSpace raw) in
      if String.eqb d "" then normalize_loop l' out
      else if negb (re_match domainPattern d) then Err raw
      else if decide (d ∈ out) then normalize_loop l' out
      else normalize_loop l' (out ++ [d])
  end.

Definition normalizeDomains (l : list string) : res string (list string) := normalize_loop l [].

(** [slugRe.ReplaceAllString(s, "-")]: each run of other bytes becomes a hyphen;
    [in_run] says whether the previous byte was one of them. *)
Fixpoint collapse (in_run : bool) (s : string) : string :=
  match s with
  | "" => ""
  | String c s' =>
      if alnum c then String c (collapse false s')
      else if in_run then collapse true s' else String "-" (collapse true s')
  end.

Definition slugify (name : string) : string := TrimByte "-" (collapse false (ToLower name)).

Example slugify_name : slugify "  Package -- Registries (EU)! " = "package-registries-eu".
Proof. reflexivity. Qed.

Definition unionSorted (a b : list string) : list string := sort_strings (dedup (a ++ b)).

(** ** The effective allowlist of a box *)

(** The groups that reach a box with the given assignment. *)
Definition reaches (assigned : list string) (g : AllowlistGroup) : bool :=
  ag_IsGlobal g || bool_decide (ag_ID g ∈ assigned).

Definition effectiveAllowlist (groups : list AllowlistGroup) (assigned : list string) :
    list string * list string :=
  let gs := List.filter (reaches assigned) groups in
  (sort_strings (elements (list_to_set (gs ≫= ag_Domains) : gset string)),
   sort_strings (ag_Name <$> gs)).

Definition effective_ttl (g : AllowlistGroup) : Z :=
  if ag_TTLSeconds g <=? 0 then defaultAllowlistTTLSeconds else ag_TTLSeconds g.

(** One group's contribution to the rules so far ([seen] is their patterns). *)
Definition add_group (rules : list DomainRule) (g : AllowlistGroup) : list DomainRule :=
  foldl (fun rules d =>
    if decide (d ∈ dr_Pattern <$> rules) then rules
    else rules ++ [MkDomainRule d (effective_ttl g)]) rules (ag_Domains g).

Definition policy_of (groups : list AllowlistGroup) (assigned : list string) : NetworkPolicy :=
  MkNetworkPolicy true (foldl add_group [] (List.filter (reaches assigned) groups)).

Definition boxNetworkPolicy (boxID : string) (db : AllowlistDB) : NetworkPolicy :=
  policy_of (ListAllowlistGroups db) (GetBoxGroups boxID db).

Definition groupBoxCounts (db : AllowlistDB) (gid : string) : Z :=
  Z.of_nat (length (List.filter (fun bg => String.eqb bg.2 gid) (ListBoxGroups db))).

(** ** The server state the handlers touch

    The allowlist tables, the box registry, the settings, the connected spokes,
    and the [SetNetworkPolicy] calls made to spokes so far (connection, box,
    policy), newest last. *)
Record AllowServer := MkAllowServer {
  as_db : AllowlistDB;
  as_boxes : BoxTable;
  as_settings : gmap string string;
  as_hub : option Hub;
  as_calls : list (nat * string * NetworkPolicy);
}.

Definition with_db (db : AllowlistDB) (s : AllowServer) : AllowServer :=
  MkAllowServer db (as_boxes s) (as_settings s) (as_hub s) (as_calls s).

(** [s.spoke]: the connection of the named (or default) spoke. *)
Definition spoke (name : string) (s : AllowServer) : option nat :=
  let name' := if String.eqb name "" then default "" (as_settings s !! defaultSpokeSettingKey) else name in
  if String.eqb name' "" then None
  else match as_hub s with Some h => Spoke name' h | None => None end.

Definition pushBoxPolicyTo (boxID spokeName : string) (s : AllowServer) : AllowServer :=
  let policy := boxNetworkPolicy boxID (as_db s) in
  match spoke spokeName s with
  | None => s
  | Some bm => MkAllowServer (as_db s) (as_boxes s) (as_settings s) (as_hub s)
                 (as_calls s ++ [(bm, boxID, policy)])
  end.

Definition pushBoxPolicy (boxID : string) (s : AllowServer) : AllowServer :=
  match first_match (fun b => String.eqb (br_BoxID b) boxID) (ListBoxes (as_boxes s)) with
  | Some b => pushBoxPolicyTo boxID (br_Spoke b) s
  | None => s
  end.

Definition pushAllPolicies (s : AllowServer) : AllowServer :=
  foldl (fun s b => if String.eqb (br_BoxID b) "" then s else pushBoxPolicyTo (br_BoxID b) (br_Spoke b) s)
    s (ListBoxes (as_boxes s)).

(** ** Handlers

    An error carries the HTTP status. *)

Record SaveReq := MkSaveReq {
  sr_ID : string; sr_Name : string; sr_Description : string; sr_TTLSeconds : Z;
  sr_IsGlobal : bool; sr_Domains : list string }.

(** [SaveAllowlistGroup], then the push and the response. *)
Definition save_and_push (g : AllowlistGroup) (s : AllowServer) : AllowServer * res Z (AllowlistGroup * Z) :=
  match SaveAllowlistGroup g (as_db s) with
  | None => (s, Err 500)
  | Some db' =>
      let s' := pushAllPolicies (with_db db' s) in
      (s', Ok (g, groupBoxCounts (as_db s') (ag_ID g)))
  end.

Definition handleSaveAllowlistGroup (req : SaveReq) (now : Z) (s : AllowServer) :
    AllowServer * res Z (AllowlistGroup * Z) :=
  let name := TrimSpace (sr_Name req) in
  if String.eqb name "" then (s, Err 400)
  else
    match normalizeDomains (sr_Domains req) with
    | Err _ => (s, Err 400)
    | Ok domains =>
        let ttl := if sr_TTLSeconds req <=? 0 then defaultAllowlistTTLSeconds else sr_TTLSeconds req in
        let group id created := MkGroup id name (TrimSpace (sr_Description req)) ttl (sr_IsGlobal req)
          domains created now in
        if String.eqb (sr_ID req) "" then
          let id := slugify name in
          if String.eqb id "" then (s, Err 400)
          else
            match GetAllowlistGroup id (as_db s) with
            | Some _ => (s, Err 409)
            | None => save_and_push (group id now) s
            end
        else
          match GetAllowlistGroup (sr_ID req) (as_db s) with
          | None => (s, Err 404)
          | Some existing => save_and_push (group (sr_ID req) (ag_CreatedAt existing)) s
          end
    end.

Definition handleDeleteAllowlistGroup (id : string) (s : AllowServer) : AllowServer * res Z () :=
  if String.eqb id "" then (s, Err 400)
  else (pushAllPolicies (with_db (DeleteAllowlistGroup id (as_db s)) s), Ok ()).

(** Assigned group ids, contributing group names, effective domains. *)
Definition handleGetBoxAllowlist (boxID : string) (s : AllowServer) :
    res Z (list string * list string * list string) :=
  if String.eqb boxID "" then Err 400
  else
    let assigned := GetBoxGroups boxID (as_db s) in
    let '(domains, names) := effectiveAllowlist (ListAllowlistGroups (as_db s)) assigned in
    Ok (assigned, names, domains).

Definition handleSetBoxGroups (boxID : string) (groupIDs : list string) (s : AllowServer) :
    AllowServer * res Z () :=
  if String.eqb boxID "" then (s, Err 400)
  else
    match first_match (fun id => negb (bool_decide (is_Some (GetAllowlistGroup id (as_db s))))) groupIDs with
    | Some _ => (s, Err 400)
    | None => (pushBoxPolicy boxID (with_db (SetBoxGroups boxID groupIDs (as_db s)) s), Ok ())
    end.

Record BundleItem := MkItem {
  bi_Name : string; bi_Description : string; bi_Domains : list string;
  bi_TTLSeconds : Z; bi_IsGlobal : bool }.

Record Bundle := MkBundle { bd_Version : Z; bd_Groups : list BundleItem }.

Definition allowlistBundleVersion : Z := 1.

Definition item_of (g : AllowlistGroup) : BundleItem :=
  MkItem (ag_Name g) (ag_Description g) (ag_Domains g) (ag_TTLSeconds g) (ag_IsGlobal g).

Definition handleExportAllowlistGroups (ids : list string) (s : AllowServer) : Bundle :=
  let wanted g := match ids with [] => true | _ => bool_decide (ag_ID g ∈ ids) end in
  MkBundle allowlistBundleVersion (item_of <$> List.filter wanted (ListAllowlistGroups (as_db s))).

(** One iteration of the import loop. *)
Definition import_item (mode : string) (now : Z) (item : BundleItem) (db : AllowlistDB) :
    res Z AllowlistDB :=
  let name := TrimSpace (bi_Name item) in
  if String.eqb name "" then Err 400
  else
    match normalizeDomains (bi_Domains item) with
    | Err _ => Err 400
    | Ok domains =>
        let ttl := if bi_TTLSeconds item <=? 0 then defaultAllowlistTTLSeconds else bi_TTLSeconds item in
        let id := slugify name in
        let g :=
          match GetAllowlistGroup id db with
          | Some existing =>
              if negb (String.eqb mode "replace") then
                MkGroup id name (ag_Description existing) (ag_TTLSeconds existing) (ag_IsGlobal existing)
                  (unionSorted (ag_Domains existing) domains) (ag_CreatedAt existing) now
              else
                MkGroup id name (TrimSpace (bi_Description item)) ttl (bi_IsGlobal item) domains
                  (ag_CreatedAt existing) now
          | None =>
              MkGroup id name (TrimSpace (bi_Description item)) ttl (bi_IsGlobal item) domains now now
          end in
        match SaveAllowlistGroup g db with
        | None => Err 500
        | Some db' => Ok db'
        end
    end.

(** The import loop: an error ends the request, keeping what was saved. *)
Fixpoint import_loop (mode : string) (now : Z) (items : list BundleItem) (db : AllowlistDB) :
    AllowlistDB * res Z () :=
  match items with
  | [] => (db, Ok ())
  | item :: items' =>
      match import_item mode now item db with
      | Err e => (db, Err e)
      | Ok db' => import_loop mode now items' db'
      end
  end.

Definition handleImportAllowlistGroups (bundle : Bundle) (mode : string) (now : Z) (s : AllowServer) :
    AllowServer * res Z Z :=
  if negb (bd_Version bundle =? allowlistBundleVersion) then (s, Err 400)
  else
    match import_loop mode now (bd_Groups bundle) (as_db s) with
    | (db', Err e) => (with_db db' s, Err e)
    | (db', Ok _) => (pushAllPolicies (with_db db' s), Ok (Z.of_nat (length (bd_Groups bundle))))
    end.

Definition handleAddDomainToGroup (domain groupID newGroupName : string) (now : Z) (s : AllowServer) :
    AllowServer * res Z (AllowlistGroup * Z) :=
  match normalizeDomains [domain] with
  | Err _ => (s, Err 400)
  | Ok [] => (s, Err 400)
  | Ok (d :: _) =>
      if negb (String.eqb groupID "") then
        match GetAllowlistGroup groupID (as_db s) with
        | None => (s, Err 404)
        | Some g =>
            save_and_push (MkGroup (ag_ID g) (ag_Name g) (ag_Description g) (ag_TTLSeconds g) (ag_IsGlobal g)
              (unionSorted (ag_Domains g) [d]) (ag_CreatedAt g) now) s
        end
      else if String.eqb newGroupName "" then (s, Err 400)
      else
        let id := slugify newGroupName in
        if String.eqb id "" then (s, Err 400)
        else
          match GetAllowlistGroup id (as_db s) with
          | Some _ => (s, Err 409)
          | None =>
              save_and_push (MkGroup id newGroupName "" defaultAllowlistTTLSeconds false [d] now now) s
          end
  end.

(** ** Lemmas: the computed policy *)

Lemma add_group_elem rules g r :
  r ∈ add_group rules g <->
  r ∈ rules \/ (dr_Pattern r ∉ dr_Pattern <$> rules /\ dr_Pattern r ∈ ag_Domains g /\
                dr_TTLSeconds r = effective_ttl g).
Proof.
  unfold add_group. revert rules. induction (ag_Domains g) as [|d ds IH]; intros rules; simpl; [set_solver|].
  rewrite IH. case_decide as Hd.
  - split; [set_solver|]. rewrite elem_of_cons. naive_solver.
  - rewrite fmap_app, !elem_of_app, !list_elem_of_singleton, elem_of_cons. simpl. split.
    + intros [[?| ->]|?]; [by left|right; auto|right; set_solver].
    + intros [?|(H1 & [H2|H2] & H3)]; [auto| |].
      * left; right. destruct r; simpl in *. congruence.
      * destruct (decide (dr_Pattern r = d)) as [Heq|Hne]; [|right; set_solver].
        left; right. destruct r; simpl in *. congruence.
Qed.

Lemma add_group_patterns rules g p :
  p ∈ dr_Pattern <$> add_group rules g <-> p ∈ dr_Pattern <$> rules \/ p ∈ ag_Domains g.
Proof.
  rewrite !list_elem_of_fmap. setoid_rewrite add_group_elem. split.
  - intros (r & -> & [?|(_ & ? & _)]); eauto.
  - intros [(r & -> & ?)|Hp]; [eauto|].
    destruct (decide (p ∈ dr_Pattern <$> rules)) as [(r & -> & ?)%list_elem_of_fmap|Hn]; [eauto|].
    exists (MkDomainRule p (effective_ttl g)). eauto.
Qed.

Lemma NoDup_add_group rules g : NoDup (dr_Pattern <$> rules) -> NoDup (dr_Pattern <$> add_group rules g).
Proof.
  unfold add_group. revert rules. induction (ag_Domains g) as [|d ds IH]; intros rules Hn; simpl; [done|].
  apply IH. case_decide; [done|]. rewrite fmap_app. apply NoDup_app. split_and!; [done| |apply NoDup_singleton].
  intros x Hx. simpl. rewrite list_elem_of_singleton. congruence.
Qed.

(** The rules of a list of groups on top of [rules]: a pattern not yet there has
    the TTL of the first group holding it. *)
Lemma foldl_add_group_elem gs rules r :
  r ∈ foldl add_group rules gs <->
  r ∈ rules \/ (dr_Pattern r ∉ dr_Pattern <$> rules /\
    exists g, first_match (fun g => bool_decide (dr_Pattern r ∈ ag_Domains g)) gs = Some g /\
              dr_TTLSeconds r = effective_ttl g).
Proof.
  revert rules. induction gs as [|g gs IH]; intros rules; simpl; [naive_solver|].
  rewrite IH, add_group_elem, add_group_patterns. case_bool_decide; naive_solver.
Qed.

Lemma NoDup_foldl_add_group gs rules :
  NoDup (dr_Pattern <$> rules) -> NoDup (dr_Pattern <$> foldl add_group rules gs).
Proof. revert rules. induction gs as [|g gs IH]; intros rules Hn; simpl; auto using NoDup_add_group. Qed.

Lemma elem_of_reaching groups assigned d :
  d ∈ List.filter (reaches assigned) groups ≫= ag_Domains <->
  exists g, g ∈ groups /\ (ag_IsGlobal g = true \/ ag_ID g ∈ assigned) /\ d ∈ ag_Domains g.
Proof.
  rewrite list_elem_of_bind. setoid_rewrite list_elem_of_In. setoid_rewrite filter_In.
  unfold reaches. setoid_rewrite orb_true_iff. setoid_rewrite bool_decide_eq_true.
  setoid_rewrite <- list_elem_of_In. naive_solver.
Qed.

Lemma policy_patterns groups assigned d :
  d ∈ dr_Pattern <$> np_Rules (policy_of groups assigned) <->
  d ∈ List.filter (reaches assigned) groups ≫= ag_Domains.
Proof.
  simpl. generalize (List.filter (reaches assigned) groups). intros gs.
  assert (Hgen : forall rules, d ∈ dr_Pattern <$> foldl add_group rules gs <->
    d ∈ dr_Pattern <$> rules \/ d ∈ gs ≫= ag_Domains).
  { induction gs as [|g gs IH]; intros rules; simpl; [set_solver|].
    rewrite IH, add_group_patterns. set_solver. }
  rewrite Hgen. set_solver.
Qed.

Lemma effective_domains groups assigned d :
  d ∈ (effectiveAllowlist groups assigned).1 <->
  d ∈ List.filter (reaches assigned) groups ≫= ag_Domains.
Proof. simpl. rewrite elem_of_sort_strings, elem_of_elements, elem_of_list_to_set. done. Qed.

(** ** Theorems: the policy of a box *)

(** the policy pushed for a box is exactly its effective allowlist: one rule
    per domain of a group that is global or assigned to the box (the domains the
    admin page shows), without duplicates, each with the positive TTL of the
    first such group in name order. *)
Theorem boxNetworkPolicy_spec : forall boxID db,
  let policy := boxNetworkPolicy boxID db in
  let groups := ListAllowlistGroups db in
  let assigned := GetBoxGroups boxID db in
  np_Enabled policy = true /\
  NoDup (dr_Pattern <$> np_Rules policy) /\
  sort_strings (dr_Pattern <$> np_Rules policy) = (effectiveAllowlist groups assigned).1 /\
  (forall d, d ∈ dr_Pattern <$> np_Rules policy <->
     exists g, g ∈ groups /\ (ag_IsGlobal g = true \/ ag_ID g ∈ assigned) /\ d ∈ ag_Domains g) /\
  (forall r, r ∈ np_Rules policy -> 0 < dr_TTLSeconds r /\
     exists g, first_match (fun g => bool_decide (dr_Pattern r ∈ ag_Domains g))
                 (List.filter (reaches assigned) groups) = Some g /\
               dr_TTLSeconds r = effective_ttl g).
Proof.
  intros boxID db policy groups assigned.
  assert (Hnd : NoDup (dr_Pattern <$> np_Rules policy)).
  { apply NoDup_foldl_add_group. constructor. }
  split_and!; [done|done| | |].
  - apply sort_strings_ext; [done|apply NoDup_elements|]. intros d.
    rewrite elem_of_elements, elem_of_list_to_set. apply policy_patterns.
  - intros d. unfold policy, boxNetworkPolicy. rewrite policy_patterns. apply elem_of_reaching.
  - intros r [?|(_ & g & Hf & Ht)]%foldl_add_group_elem; [set_solver|]. split; [|eauto].
    rewrite Ht. unfold effective_ttl, defaultAllowlistTTLSeconds.
    destruct (ag_TTLSeconds g <=? 0) eqn:Hle; bools; lia.
Qed.

Lemma first_match_is_Some {A} (f : A -> bool) l :
  is_Some (first_match f l) <-> exists x, x ∈ l /\ f x = true.
Proof.
  split.
  - intros [x Hx]. apply first_match_elem in Hx. eauto.
  - intros (x & Hin & Hf). destruct (first_match f l) eqn:Hm; [eauto|].
    apply first_match_None in Hm. rewrite Forall_forall in Hm. by rewrite (Hm x Hin) in Hf.
Qed.

(** C2: end to end, from the hub's tables to the spoke's resolver: once the
    computed policy of a box is applied by the spoke's enforcer, the resolver
    lets the box look a name up exactly when some domain of a global group, or
    of a group assigned to the box, matches the name; the lifetime of the pin it
    grants is that of such a group (30 seconds for one that sets none) as a
    64-bit count of nanoseconds, hence positive for every group whose lifetime
    is at most 9223372036 seconds, the most such a count holds. *)
Theorem hub_policy_decides_lookups : forall `{Programmer F} (e : Enforcer F) boxID db qname,
  let e' := SetNetworkPolicy boxID (boxNetworkPolicy boxID db) e in
  (is_Some (StaticPolicy_Allowed (en_policy e') boxID qname) <->
     exists g d, GetAllowlistGroup (ag_ID g) db = Some g /\
       (ag_IsGlobal g = true \/ ag_ID g ∈ GetBoxGroups boxID db) /\
       d ∈ ag_Domains g /\ matchDomain d (normalizeName qname) = true) /\
  (forall ttl, StaticPolicy_Allowed (en_policy e') boxID qname = Some ttl ->
     exists g, GetAllowlistGroup (ag_ID g) db = Some g /\ (ag_IsGlobal g = true \/ ag_ID g ∈ GetBoxGroups boxID db) /\
       (exists d, d ∈ ag_Domains g /\ matchDomain d (normalizeName qname) = true) /\
       ttl = int64 ((if ag_TTLSeconds g <=? 0 then 30 else ag_TTLSeconds g) * Second) /\
       (ag_TTLSeconds g <= 9223372036 -> 0 < ttl)).
Proof.
  intros F P e boxID db qname e'.
  unfold e', SetNetworkPolicy, with_policy. cbn [en_policy]. rewrite Allowed_Set.
  set (rules := rulesFromPolicy _).
  assert (Hrules : rules = (fun r => MkRule (dr_Pattern r) (int64 (dr_TTLSeconds r * Second))) <$>
    np_Rules (boxNetworkPolicy boxID db)) by done.
  split.
  - rewrite fmap_is_Some, first_match_is_Some, Hrules. split.
    + intros (r & Hr & Hm). apply list_elem_of_fmap in Hr as (dr & -> & Hdr).
      assert (Hd : dr_Pattern dr ∈ dr_Pattern <$> np_Rules (boxNetworkPolicy boxID db))
        by (apply list_elem_of_fmap; eauto).
      apply policy_patterns, elem_of_reaching in Hd as (g & Hg & Hreach & Hdom).
      exists g, (dr_Pattern dr). apply elem_of_ListAllowlistGroups in Hg. auto.
    + intros (g & d & Hg & Hreach & Hdom & Hm).
      assert (Hd : d ∈ dr_Pattern <$> np_Rules (boxNetworkPolicy boxID db)).
      { apply policy_patterns, elem_of_reaching. exists g.
        rewrite elem_of_ListAllowlistGroups. auto. }
      apply list_elem_of_fmap in Hd as (dr & -> & Hdr).
      exists (MkRule (dr_Pattern dr) (int64 (dr_TTLSeconds dr * Second))).
      split; [apply list_elem_of_fmap; eauto|done].
  - intros ttl Httl. apply fmap_Some in Httl as (r & Hf & ->).
    apply first_match_elem in Hf as [Hr Hm]. rewrite Hrules in Hr.
    apply list_elem_of_fmap in Hr as (dr & -> & Hdr). cbn [rule_TTL rule_Pattern] in *.
    apply foldl_add_group_elem in Hdr as [?|(_ & g & Hg & Ht)]; [set_solver|].
    apply first_match_elem in Hg as [Hin%list_elem_of_In Hd%bool_decide_eq_true].
    apply filter_In in Hin as [Hin%list_elem_of_In Hre]. unfold reaches in Hre. rewrite orb_true_iff, bool_decide_eq_true in Hre.
    exists g. rewrite elem_of_ListAllowlistGroups in Hin. split_and!; [done|done|by exists (dr_Pattern dr)|by rewrite Ht|].
    intros Hle. rewrite Ht. unfold effective_ttl, defaultAllowlistTTLSeconds.
    destruct (ag_TTLSeconds g <=? 0) eqn:H0; bools; rewrite int64_id; unfold Second, Millisecond, Nanosecond; lia.
Qed.

(** One second more wraps around: a box that resolves a name through such a group
    gets a pin that has expired when it is made. *)
Theorem huge_ttl_expires_at_once :
  let db := default emptyAllowlistDB (SaveAllowlistGroup (MkGroup "g" "g" "" 9223372037 true ["pypi.org"] 0 0) emptyAllowlistDB) in
  let e := SetNetworkPolicy "box-a" (boxNetworkPolicy "box-a" db) (Isolation.New NewRecordingProgrammer) in
  StaticPolicy_Allowed (en_policy e) "box-a" "pypi.org." = Some (-9223372036709551616).
Proof. vm_compute. reflexivity. Qed.

(** ** Domains are valid and enforceable *)

Definition clean (raw : string) : string := ToLower (TrimSpace raw).
Definition valid_domain (d : string) : bool := re_match domainPattern d.

Lemma normalize_loop_spec l out :
  NoDup out ->
  match normalize_loop l out with
  | Ok r => Sorted String.le r /\ NoDup r /\
      (forall raw, raw ∈ l -> clean raw = "" \/ valid_domain (clean raw) = true) /\
      (forall d, d ∈ r <-> d ∈ out \/ (d <> "" /\ exists raw, raw ∈ l /\ d = clean raw))
  | Err raw => raw ∈ l /\ clean raw <> "" /\ valid_domain (clean raw) = false
  end.
Proof.
  revert out. induction l as [|raw l IH]; intros out Hnd; cbn [normalize_loop].
  { split_and!; auto with llmbox; [set_solver|]. intros d. rewrite elem_of_sort_strings. set_solver. }
  fold (clean raw). destruct (String.eqb (clean raw) "") eqn:He; bools.
  { specialize (IH out Hnd). destruct (normalize_loop l out); [|set_solver].
    destruct IH as (? & ? & Hv & Hd). split_and!; [done|done|set_solver|].
    intros d. rewrite Hd. set_solver. }
  fold (valid_domain (clean raw)). destruct (valid_domain (clean raw)) eqn:Hval; cbn [negb]; [|set_solver].
  case_decide as Hin.
  - specialize (IH out Hnd). destruct (normalize_loop l out); [|set_solver].
    destruct IH as (? & ? & Hv & Hd). split_and!; [done|done|set_solver|].
    intros d. rewrite Hd. set_solver.
  - assert (Hnd' : NoDup (out ++ [clean raw])).
    { apply NoDup_app. split_and!; [done|set_solver|apply NoDup_singleton]. }
    specialize (IH _ Hnd'). destruct (normalize_loop l _); [|set_solver].
    destruct IH as (? & ? & Hv & Hd). split_and!; [done|done|set_solver|].
    intros d. rewrite Hd. set_solver.
Qed.

(** Every byte of a match satisfies [f] when every byte class of the expression
    does. *)
Fixpoint bytes_in (f : ascii -> bool) (r : re) : Prop :=
  match r with
  | Void | Eps => True
  | Chr g => forall c, g c = true -> f c = true
  | Cat r1 r2 | Alt r1 r2 => bytes_in f r1 /\ bytes_in f r2
  | Star r => bytes_in f r
  end.

Lemma matches_bytes_in f r s : matches r s -> bytes_in f r -> string_forallb f s = true.
Proof.
  induction 1; simpl; intros Hb; rewrite ?string_forallb_app, ?andb_true_iff; naive_solver.
Qed.

Lemma valid_domain_shape d :
  valid_domain d = true ->
  string_forallb (fun c => negb (is_upper c)) d = true /\ exists t c, d = t +:+ String c "" /\ is_lower c = true.
Proof.
  unfold valid_domain. rewrite re_match_spec. intros Hm. split.
  - apply (matches_bytes_in _ _ _ Hm).
    unfold domainPattern, domain_label, dot, Opt, Plus, AtLeast2. cbn [bytes_in].
    assert (Hno : forall c, alnum_hyphen c = true \/ c = "."%char \/ c = "*"%char -> negb (is_upper c) = true).
    { intros c [Hc|[->| ->]]; [|done..]. by destruct c as [[] [] [] [] [] [] [] []]. }
    split_and!; try exact I; intros c Hc; apply Hno;
      first [apply Ascii.eqb_eq in Hc; subst; by auto
            |by left
            |left; by apply alnum_hyphen_alnum
            |left; apply alnum_hyphen_alnum; unfold alnum; by rewrite Hc].
  - apply matches_cat in Hm as (s1 & s2 & -> & _ & Hm).
    apply matches_cat in Hm as (s3 & s4 & -> & _ & Hm). unfold AtLeast2 in Hm.
    apply matches_cat in Hm as (s5 & s6 & -> & _ & Hm).
    apply matches_cat in Hm as (s7 & s8 & -> & H7 & Hm).
    apply matches_chr in H7 as (c7 & -> & H7). apply matches_star_chr in Hm.
    destruct (string_snoc_cases s8) as [->|(t & c & ->)].
    + exists (s1 +:+ s3 +:+ s5), c7. by rewrite sapp_nil_r, !sapp_assoc.
    + exists (s1 +:+ s3 +:+ s5 +:+ String c7 "" +:+ t), c. rewrite !sapp_assoc. split; [done|].
      rewrite string_forallb_app in Hm. simpl in Hm. bools. done.
Qed.

Lemma ToLower_no_upper d : string_forallb (fun c => negb (is_upper c)) d = true -> ToLower d = d.
Proof.
  induction d as [|c d IH]; [done|]. rewrite ToLower_cons. simpl. intros Hd. bools.
  by rewrite lower_byte_lower, IH.
Qed.

Lemma valid_domain_normal d : valid_domain d = true -> normalizeName d = d.
Proof.
  intros (Hup & t & c & -> & Hc)%valid_domain_shape. unfold normalizeName.
  rewrite ToLower_no_upper by done. apply TrimSuffix_other.
  rewrite HasSuffix_snoc. apply Ascii.eqb_neq. by intros ->.
Qed.

(** A stored domain is enforced as written: a plain one admits its own name, a
    wildcard one every name under its suffix (and never the bare suffix). *)
Definition enforceable (d : string) : Prop :=
  normalizeName d = d /\
  match CutPrefix d "*." with
  | Some suffix => (forall sub, matchDomain d (sub +:+ "." +:+ suffix) = true) /\ matchDomain d suffix = false
  | None => forall name, matchDomain d name = true <-> name = d
  end.

Lemma HasSuffix_longer s c : HasSuffix s (String c s) = false.
Proof.
  apply not_true_iff_false. rewrite HasSuffix_spec. intros [q Hq].
  apply (f_equal String.length) in Hq. rewrite slength_app in Hq. simpl in Hq. lia.
Qed.

Lemma valid_domain_enforceable d : valid_domain d = true -> enforceable d.
Proof.
  intros Hn%valid_domain_normal. split; [done|]. unfold matchDomain. rewrite Hn.
  destruct (CutPrefix d "*.") as [suffix|].
  - split; [|apply HasSuffix_longer]. intros sub. apply HasSuffix_spec. by exists sub.
  - intros name. apply String.eqb_eq.
Qed.

(** cleaning a domain list accepts exactly the lists whose non-blank entries
    are valid hosts or wildcards, and returns their lower-cased, trimmed forms
    sorted and without duplicates; every domain it returns is enforceable by the
    spoke's resolver as written. *)
Theorem normalizeDomains_spec : forall l,
  match normalizeDomains l with
  | Ok r => Sorted String.le r /\ NoDup r /\
      (forall d, d ∈ r <-> d <> "" /\ exists raw, raw ∈ l /\ d = clean raw) /\
      (forall d, d ∈ r -> valid_domain d = true /\ enforceable d)
  | Err raw => raw ∈ l /\ clean raw <> "" /\ valid_domain (clean raw) = false
  end.
Proof.
  intros l. pose proof (normalize_loop_spec l [] (NoDup_nil_2)) as Hs.
  unfold normalizeDomains. destruct (normalize_loop l []) as [r|raw]; [|done].
  destruct Hs as (Hsort & Hnd & Hv & Hd).
  assert (Hd' : forall d, d ∈ r <-> d <> "" /\ exists raw, raw ∈ l /\ d = clean raw) by set_solver.
  split_and!; [done|done|done|].
  intros d (Hne & raw & Hraw & ->)%Hd'. destruct (Hv raw Hraw) as [?|Hval]; [done|].
  auto using valid_domain_enforceable.
Qed.

Lemma normalizeDomains_valid l r d : normalizeDomains l = Ok r -> d ∈ r -> valid_domain d = true.
Proof.
  intros Hl Hd. pose proof (normalize_loop_spec l [] (NoDup_nil_2)) as Hs.
  unfold normalizeDomains in Hl. rewrite Hl in Hs. destruct Hs as (_ & _ & Hv & Hin).
  apply Hin in Hd as [?|(Hne & raw & Hraw & ->)]; [set_solver|]. by destruct (Hv raw Hraw).
Qed.

(** ** The tables under the handlers *)

(** Every stored domain is valid, and group names are unique. *)
Definition allowlist_ok (db : AllowlistDB) : Prop :=
  (forall kd, kd ∈ al_domains db -> valid_domain kd.2 = true) /\ names_unique db.

Lemma SaveAllowlistGroup_ok g db db' :
  allowlist_ok db -> Forall (fun d => valid_domain d = true) (ag_Domains g) ->
  SaveAllowlistGroup g db = Some db' -> allowlist_ok db'.
Proof.
  intros [Hv Hu] Hg Hs. split; [|by eapply SaveAllowlistGroup_unique].
  unfold SaveAllowlistGroup in Hs. destruct (name_taken _ _ _); simplify_eq. simpl.
  intros kd. rewrite elem_of_union, elem_of_filter, elem_of_list_to_set, list_elem_of_fmap.
  intros [[_ ?]|(d & -> & Hd)]; [auto|]. rewrite Forall_forall in Hg. by apply Hg.
Qed.

Lemma GetAllowlistGroup_valid id db g :
  allowlist_ok db -> GetAllowlistGroup id db = Some g -> Forall (fun d => valid_domain d = true) (ag_Domains g).
Proof.
  intros [Hv _]. unfold GetAllowlistGroup. destruct (al_groups db !! id); [|done]. intros [= <-]. simpl.
  apply Forall_forall. intros d. rewrite domainsFor_column, elem_of_sort_strings, elem_of_column.
  intros Hd. by apply (Hv (id, d)).
Qed.

Lemma unionSorted_valid a b :
  Forall (fun d => valid_domain d = true) a -> Forall (fun d => valid_domain d = true) b ->
  Forall (fun d => valid_domain d = true) (unionSorted a b).
Proof.
  rewrite !Forall_forall. intros Ha Hb d. unfold unionSorted.
  rewrite elem_of_sort_strings, elem_of_dedup, elem_of_app. naive_solver.
Qed.

Lemma normalizeDomains_Forall l r :
  normalizeDomains l = Ok r -> Forall (fun d => valid_domain d = true) r.
Proof. intros Hl. apply Forall_forall. eauto using normalizeDomains_valid. Qed.

Lemma import_item_ok mode now item db db' :
  allowlist_ok db -> import_item mode now item db = Ok db' -> allowlist_ok db'.
Proof.
  intros Hok. unfold import_item. destruct (String.eqb _ ""); [done|].
  destruct (normalizeDomains _) as [ds|] eqn:Hds; [|done]. apply normalizeDomains_Forall in Hds.
  set (g := match GetAllowlistGroup _ db with Some _ => _ | None => _ end).
  assert (Hg : Forall (fun d => valid_domain d = true) (ag_Domains g)).
  { unfold g. destruct (GetAllowlistGroup _ db) as [ex|] eqn:Hex; [|done].
    apply GetAllowlistGroup_valid in Hex; [|done]. destruct (negb _); simpl; auto using unionSorted_valid. }
  destruct (SaveAllowlistGroup g db) as [db1|] eqn:Hs; [|done]. intros [= <-].
  eauto using SaveAllowlistGroup_ok.
Qed.

Lemma import_loop_ok mode now items db :
  allowlist_ok db -> allowlist_ok (import_loop mode now items db).1.
Proof.
  revert db. induction items as [|item items IH]; intros db Hok; simpl; [done|].
  destruct (import_item mode now item db) eqn:Hi; [|done]. eauto using import_item_ok.
Qed.

(** ** Pushes *)

(** The call pushing one box's policy, when its spoke is connected. *)
Definition push_of (s : AllowServer) (b : BoxRow) : option (nat * string * NetworkPolicy) :=
  if String.eqb (br_BoxID b) "" then None
  else (fun bm => (bm, br_BoxID b, boxNetworkPolicy (br_BoxID b) (as_db s))) <$> spoke (br_Spoke b) s.

(** Only the calls differ. *)
Definition same_but_calls (s s' : AllowServer) : Prop :=
  as_db s' = as_db s /\ as_boxes s' = as_boxes s /\ as_settings s' = as_settings s /\ as_hub s' = as_hub s.

Lemma spoke_same s s' name : same_but_calls s s' -> spoke name s' = spoke name s.
Proof. unfold spoke. by intros (_ & _ & -> & ->). Qed.

Lemma pushBoxPolicyTo_spec b s :
  br_BoxID b <> "" ->
  let s' := pushBoxPolicyTo (br_BoxID b) (br_Spoke b) s in
  same_but_calls s s' /\ as_calls s' = as_calls s ++ option_list (push_of s b).
Proof.
  intros Hne%String.eqb_neq. unfold pushBoxPolicyTo, push_of. rewrite Hne.
  destruct (spoke (br_Spoke b) s); simpl; split; try done. by rewrite app_nil_r.
Qed.

Lemma pushAllPolicies_spec s :
  let s' := pushAllPolicies s in
  same_but_calls s s' /\ as_calls s' = as_calls s ++ omap (push_of s) (ListBoxes (as_boxes s)).
Proof.
  unfold pushAllPolicies.
  assert (Hgen : forall l s0, same_but_calls s s0 ->
    let s' := foldl (fun s b => if String.eqb (br_BoxID b) "" then s
                                else pushBoxPolicyTo (br_BoxID b) (br_Spoke b) s) s0 l in
    same_but_calls s s' /\ as_calls s' = as_calls s0 ++ omap (push_of s) l).
  { induction l as [|b l IH]; intros s0 Hs; simpl; [by rewrite app_nil_r|].
    assert (Hpo : push_of s0 b = push_of s b).
    { unfold push_of. rewrite (spoke_same _ _ _ Hs). by destruct Hs as [-> _]. }
    destruct (String.eqb (br_BoxID b) "") eqn:He; bools.
    - unfold push_of at 1. rewrite He. simpl. by apply IH.
    - destruct (pushBoxPolicyTo_spec b s0 He) as [Hsame Hcalls].
      destruct (IH (pushBoxPolicyTo (br_BoxID b) (br_Spoke b) s0)) as [H1 H2].
      { destruct Hs as (? & ? & ? & ?), Hsame as (? & ? & ? & ?). repeat split; congruence. }
      split; [done|]. rewrite H2, Hcalls, Hpo. rewrite <- app_assoc. f_equal.
      by destruct (push_of s b). }
  apply Hgen. by repeat split.
Qed.

(** What a successful change of the tables to [db'] leaves: the new tables, and
    the new policy of every box pushed to every connected spoke. *)
Definition changed_and_pushed (db' : AllowlistDB) (s s' : AllowServer) : Prop :=
  same_but_calls (with_db db' s) s' /\
  as_calls s' = as_calls s ++ omap (push_of (with_db db' s)) (ListBoxes (as_boxes s)).

Lemma push_changed db' s : changed_and_pushed db' s (pushAllPolicies (with_db db' s)).
Proof. destruct (pushAllPolicies_spec (with_db db' s)) as [H1 H2]. by split. Qed.

(** changes to groups reach the spokes.  Saving a group, deleting one and
    adding a domain from the audit view either fail and change nothing, or store
    the change and push, for every box with a connected spoke, the policy
    computed from the new tables; the stored group is the one answered. *)
Theorem group_changes_are_pushed : forall s now,
  (forall req, match handleSaveAllowlistGroup req now s with
     | (s', Err _) => s' = s
     | (s', Ok (g, _)) => exists db', SaveAllowlistGroup g (as_db s) = Some db' /\ changed_and_pushed db' s s'
     end) /\
  (forall domain gid name, match handleAddDomainToGroup domain gid name now s with
     | (s', Err _) => s' = s
     | (s', Ok (g, _)) => exists db', SaveAllowlistGroup g (as_db s) = Some db' /\ changed_and_pushed db' s s'
     end) /\
  (forall id, match handleDeleteAllowlistGroup id s with
     | (s', Err _) => s' = s /\ id = ""
     | (s', Ok _) => changed_and_pushed (DeleteAllowlistGroup id (as_db s)) s s'
     end).
Proof.
  intros s now.
  assert (Hsave : forall g, match save_and_push g s with
     | (s', Err _) => s' = s
     | (s', Ok (g', _)) => exists db', SaveAllowlistGroup g' (as_db s) = Some db' /\ changed_and_pushed db' s s'
     end).
  { intros g. unfold save_and_push. destruct (SaveAllowlistGroup g (as_db s)) as [db'|] eqn:Hs; [|done].
    eauto using push_changed. }
  split_and!.
  - intros req. unfold handleSaveAllowlistGroup. destruct (String.eqb _ ""); [done|].
    destruct (normalizeDomains _); [|done].
    destruct (String.eqb (sr_ID req) ""); [destruct (String.eqb _ ""); [done|]|];
      destruct (GetAllowlistGroup _ _); try done; apply Hsave.
  - intros domain gid name. unfold handleAddDomainToGroup.
    destruct (normalizeDomains _) as [[|d ds]|]; try done.
    destruct (negb _); [destruct (GetAllowlistGroup _ _); [apply Hsave|done]|].
    destruct (String.eqb name ""); [done|]. destruct (String.eqb _ ""); [done|].
    destruct (GetAllowlistGroup _ _); [done|apply Hsave].
  - intros id. unfold handleDeleteAllowlistGroup. destruct (String.eqb id "") eqn:He; bools; [done|].
    apply push_changed.
Qed.

(** ** The running server *)

Inductive allow_step (s : AllowServer) : AllowServer -> Prop :=
| StepSave req now : allow_step s (handleSaveAllowlistGroup req now s).1
| StepDelete id : allow_step s (handleDeleteAllowlistGroup id s).1
| StepAssign boxID ids : allow_step s (handleSetBoxGroups boxID ids s).1
| StepImport bundle mode now : allow_step s (handleImportAllowlistGroups bundle mode now s).1
| StepAddDomain domain gid name now : allow_step s (handleAddDomainToGroup domain gid name now s).1
| StepOther boxes settings hub :   (* boxes come and go, spokes connect *)
    allow_step s (MkAllowServer (as_db s) boxes settings hub (as_calls s)).

Definition rules_ok (policy : NetworkPolicy) : Prop :=
  Forall (fun r => enforceable (dr_Pattern r) /\ 0 < dr_TTLSeconds r) (np_Rules policy).

Definition server_ok (s : AllowServer) : Prop :=
  allowlist_ok (as_db s) /\ Forall (fun c => rules_ok c.2) (as_calls s).

Lemma boxNetworkPolicy_ok boxID db : allowlist_ok db -> rules_ok (boxNetworkPolicy boxID db).
Proof.
  intros Hok. apply Forall_forall. intros r Hr. split.
  - apply valid_domain_enforceable.
    assert (Hp : dr_Pattern r ∈ dr_Pattern <$> np_Rules (boxNetworkPolicy boxID db))
      by (apply list_elem_of_fmap; eauto).
    apply policy_patterns, elem_of_reaching in Hp as (g & Hg & _ & Hd).
    apply elem_of_ListAllowlistGroups, GetAllowlistGroup_valid in Hg; [|done].
    rewrite Forall_forall in Hg. auto.
  - apply foldl_add_group_elem in Hr as [?|(_ & g & _ & ->)]; [set_solver|].
    unfold effective_ttl, defaultAllowlistTTLSeconds. destruct (ag_TTLSeconds g <=? 0) eqn:Hle; bools; lia.
Qed.

Lemma pushBoxPolicyTo_ok b name s : server_ok s -> server_ok (pushBoxPolicyTo b name s).
Proof.
  intros [Hdb Hc]. unfold pushBoxPolicyTo. destruct (spoke name s); [|done]. split; [done|]. simpl.
  apply Forall_app. split; [done|]. apply Forall_singleton. by apply boxNetworkPolicy_ok.
Qed.

Lemma pushAllPolicies_ok s : server_ok s -> server_ok (pushAllPolicies s).
Proof.
  unfold pushAllPolicies. generalize (ListBoxes (as_boxes s)). intros l. revert s.
  induction l as [|b l IH]; intros s Hs; simpl; [done|]. apply IH.
  destruct (String.eqb _ _); auto using pushBoxPolicyTo_ok.
Qed.

Lemma pushBoxPolicy_ok b s : server_ok s -> server_ok (pushBoxPolicy b s).
Proof. unfold pushBoxPolicy. destruct (first_match _ _); auto using pushBoxPolicyTo_ok. Qed.

Lemma with_db_ok db s : allowlist_ok db -> server_ok s -> server_ok (with_db db s).
Proof. by intros ? [_ ?]. Qed.

Lemma save_and_push_ok g s :
  server_ok s -> Forall (fun d => valid_domain d = true) (ag_Domains g) -> server_ok (save_and_push g s).1.
Proof.
  intros Hs Hg. unfold save_and_push. destruct (SaveAllowlistGroup g (as_db s)) eqn:Hsv; [|done]. simpl.
  apply pushAllPolicies_ok, with_db_ok; [|done]. destruct Hs. eauto using SaveAllowlistGroup_ok.
Qed.

Lemma DeleteAllowlistGroup_ok id db : allowlist_ok db -> allowlist_ok (DeleteAllowlistGroup id db).
Proof.
  intros [Hv Hu]. split; simpl.
  - intros kd. rewrite elem_of_filter. intros [_ ?]. auto.
  - intros id1 id2 r1 r2. simpl. rewrite !lookup_delete_Some. naive_solver.
Qed.

#[local] Hint Resolve save_and_push_ok pushAllPolicies_ok pushBoxPolicy_ok with_db_ok
  DeleteAllowlistGroup_ok : allow.

Lemma allow_step_ok s s' : allow_step s s' -> server_ok s -> server_ok s'.
Proof.
  intros Hst Hs. assert (Hdb : allowlist_ok (as_db s)) by apply Hs.
  destruct Hst as [req now|id|boxID ids|bundle mode now|domain gid name now|boxes settings hub].
  - unfold handleSaveAllowlistGroup. destruct (String.eqb _ ""); [done|].
    destruct (normalizeDomains _) eqn:Hn; [|done]. apply normalizeDomains_Forall in Hn.
    destruct (String.eqb (sr_ID req) ""); [destruct (String.eqb _ ""); [done|]|];
      destruct (GetAllowlistGroup _ _); auto with allow.
  - unfold handleDeleteAllowlistGroup. destruct (String.eqb _ ""); simpl; auto with allow.
  - unfold handleSetBoxGroups. destruct (String.eqb _ ""); [done|].
    destruct (first_match _ _); simpl; [done|]. auto with allow.
  - unfold handleImportAllowlistGroups. destruct (negb _); [done|].
    pose proof (import_loop_ok mode now (bd_Groups bundle) (as_db s) Hdb) as Hi.
    destruct (import_loop _ _ _ _) as [db' [[]|e]]; simpl in *; auto with allow.
  - unfold handleAddDomainToGroup. destruct (normalizeDomains _) as [[|d ds]|] eqn:Hn; try done.
    apply normalizeDomains_Forall, Forall_cons in Hn as [Hd _].
    destruct (negb _).
    + destruct (GetAllowlistGroup gid _) as [g|] eqn:Hg; [|done].
      apply GetAllowlistGroup_valid in Hg; [|done]. apply save_and_push_ok; [done|]. simpl.
      apply unionSorted_valid; [done|]. by constructor.
    + destruct (String.eqb name ""); [done|]. destruct (String.eqb _ ""); [done|].
      destruct (GetAllowlistGroup _ _); [done|]. apply save_and_push_ok; [done|]. by constructor.
  - done.
Qed.

(** C37: in every state the allowlist handlers can reach, group names are unique,
    every stored domain is a valid pattern, and every rule ever pushed to a
    spoke is enforceable as written with a positive TTL: no request can store or
    push a pattern the resolver would not enforce. *)
Theorem allowlist_always_enforceable : forall boxes settings hub s,
  rtc allow_step (MkAllowServer emptyAllowlistDB boxes settings hub []) s -> server_ok s.
Proof.
  intros boxes settings hub s Hst.
  assert (Hi : server_ok (MkAllowServer emptyAllowlistDB boxes settings hub [])).
  { split; [|constructor]. split; simpl; [set_solver|]. by intros id1 id2 r1 r2. }
  induction Hst; eauto using allow_step_ok.
Qed.

(** A hub with one box on a connected spoke. *)
Module Demo.

Definition box : BoxRow := MkBoxRow "tok" "inst" "web" "edge" "" "" "" None LifecycleRunning 0 "" "" "" None.
Definition srv : AllowServer :=
  MkAllowServer emptyAllowlistDB {["tok" := box]} ∅ (Some (MkHub {["edge" := 1%nat]} ∅)) [].
Definition req : SaveReq := MkSaveReq "" "Package Registries" "" 0 true ["*.NPMJS.org "; "pypi.org"].
Definition srv1 : AllowServer := (handleSaveAllowlistGroup req 0 srv).1.

Lemma srv1_groups : ListAllowlistGroups (as_db srv1) =
  [MkGroup "package-registries" "Package Registries" "" 30 true ["*.npmjs.org"; "pypi.org"] 0 0].
Proof. vm_compute. reflexivity. Qed.

End Demo.

Example demo_pushed :
  as_calls Demo.srv1 =
  [(1%nat, "web", MkNetworkPolicy true [MkDomainRule "*.npmjs.org" 30; MkDomainRule "pypi.org" 30])].
Proof. vm_compute. reflexivity. Qed.

Lemma allowlist_always_enforceable_witness : server_ok Demo.srv1 /\ as_calls Demo.srv1 <> [].
Proof.
  split; [|by vm_compute].
  apply (allowlist_always_enforceable {["tok" := Demo.box]} ∅ (Some (MkHub {["edge" := 1%nat]} ∅))).
  eapply rtc_l; [|apply rtc_refl]. exact (StepSave Demo.srv Demo.req 0).
Defined.

(** ** Export and import *)

(** A group a bundle carries faithfully: the fields are as the save handler
    leaves them. *)
Definition portable (g : AllowlistGroup) : Prop :=
  TrimSpace (ag_Name g) = ag_Name g /\ ag_Name g <> "" /\ TrimSpace (ag_Description g) = ag_Description g /\
  0 < ag_TTLSeconds g /\ normalizeDomains (ag_Domains g) = Ok (ag_Domains g).

(** The group as another hub stores it. *)
Definition reimported (now : Z) (g : AllowlistGroup) : AllowlistGroup :=
  MkGroup (slugify (ag_Name g)) (ag_Name g) (ag_Description g) (ag_TTLSeconds g) (ag_IsGlobal g)
    (ag_Domains g) now now.

Lemma sort_dedup_id l : Sorted String.le l -> NoDup l -> sort_strings (dedup l) = l.
Proof.
  intros Hs Hn. apply (Sorted_unique String.le); [apply sort_strings_sorted|done|].
  rewrite sort_strings_Permutation. apply NoDup_Permutation; auto with llmbox.
  intros x. apply elem_of_dedup.
Qed.

Lemma normalized_id l : normalizeDomains l = Ok l -> sort_strings (dedup l) = l.
Proof.
  intros Hl. pose proof (normalize_loop_spec l [] NoDup_nil_2) as Hs.
  unfold normalizeDomains in Hl. rewrite Hl in Hs. destruct Hs as (? & ? & _). by apply sort_dedup_id.
Qed.

(** Importing a portable group whose id and name are free stores it. *)
Lemma import_item_fresh mode now g db :
  portable g -> al_groups db !! slugify (ag_Name g) = None ->
  (forall id row, al_groups db !! id = Some row -> gr_name row <> ag_Name g) ->
  exists db', import_item mode now (item_of g) db = Ok db' /\
    al_groups db' = <[slugify (ag_Name g) := MkGroupRow (ag_Name g) (ag_Description g) (ag_TTLSeconds g)
                       (ag_IsGlobal g) now now]> (al_groups db) /\
    forall id, GetAllowlistGroup id db' =
      if decide (id = slugify (ag_Name g)) then Some (reimported now g) else GetAllowlistGroup id db.
Proof.
  intros (Hn & Hne & Hd & Httl & Hdom) Hfree Hname. unfold import_item. simpl.
  apply String.eqb_neq in Hne. rewrite Hn, Hd, Hne, Hdom, (proj2 (Z.leb_gt _ _) Httl).
  replace (GetAllowlistGroup _ db) with (@None AllowlistGroup); [|unfold GetAllowlistGroup; by rewrite Hfree].
  set (g' := MkGroup _ _ _ _ _ _ _ _).
  destruct (SaveAllowlistGroup g' db) as [db'|] eqn:Hs.
  - exists db'. split; [done|]. split.
    + unfold SaveAllowlistGroup in Hs. destruct (name_taken _ _ _); [done|]. injection Hs as <-. simpl.
      by rewrite Hfree.
    + intros id. rewrite (SaveAllowlistGroup_lookup _ _ _ id Hs). simpl. rewrite Hfree.
      unfold stored_form, reimported. simpl. by rewrite normalized_id.
  - apply SaveAllowlistGroup_refused in Hs as (id & row & _ & Hin & Hrow). by destruct (Hname id row Hin).
Qed.

Lemma import_loop_fresh mode now gs db :
  Forall portable gs -> NoDup (slugify ∘ ag_Name <$> gs) ->
  Forall (fun g => al_groups db !! slugify (ag_Name g) = None /\
    forall id row, al_groups db !! id = Some row -> gr_name row <> ag_Name g) gs ->
  exists db', import_loop mode now (item_of <$> gs) db = (db', Ok ()) /\
    forall id, GetAllowlistGroup id db' =
      match first_match (fun g => String.eqb (slugify (ag_Name g)) id) gs with
      | Some g => Some (reimported now g)
      | None => GetAllowlistGroup id db
      end.
Proof.
  intros Hp. revert db. induction Hp as [|g gs Hg Hp IH]; intros db Hnd Hfree; [by eauto|].
  rewrite fmap_cons in *. cbn [import_loop first_match].
  apply NoDup_cons in Hnd as [Hnew Hnd]. apply Forall_cons in Hfree as [[Hid Hname] Hfree].
  destruct (import_item_fresh mode now g db Hg Hid Hname) as (db1 & -> & Hrows & Hget).
  destruct (IH db1 Hnd) as (db' & -> & Hall).
  { rewrite Forall_forall in Hfree |- *. intros g' Hin. destruct (Hfree g' Hin) as [Hid' Hname'].
    assert (Hne : slugify (ag_Name g') <> slugify (ag_Name g)).
    { intros Heq. apply Hnew. simpl. rewrite <- Heq. apply list_elem_of_fmap. by exists g'. }
    split.
    - by rewrite Hrows, lookup_insert_ne.
    - intros id row. rewrite Hrows, lookup_insert. case_decide; [|by apply Hname'].
      intros [= <-]. simpl. congruence. }
  exists db'. split; [done|]. intros id. rewrite Hall, Hget.
  destruct (first_match _ gs) as [g'|] eqn:Hf, (String.eqb_spec (slugify (ag_Name g)) id) as [<-|Hne];
    rewrite ?decide_True, ?decide_False by done; try done.
  apply first_match_elem in Hf as [Hin Heq]. bools. exfalso. apply Hnew. simpl.
  rewrite <- Heq. apply list_elem_of_fmap. by exists g'.
Qed.

(** a bundle moves the allowlist to another hub: importing the export of all
    groups into an empty hub, in either mode, succeeds and stores exactly the
    exported groups, each with its name, description, TTL, scope and domains,
    under the slug of its name, provided the fields are in stored form and no
    two names share a slug. *)
Theorem export_import_roundtrip : forall s s2 mode now,
  Forall portable (ListAllowlistGroups (as_db s)) ->
  NoDup (slugify ∘ ag_Name <$> ListAllowlistGroups (as_db s)) ->
  as_db s2 = emptyAllowlistDB ->
  exists s3, handleImportAllowlistGroups (handleExportAllowlistGroups [] s) mode now s2 =
      (s3, Ok (Z.of_nat (length (ListAllowlistGroups (as_db s))))) /\
    forall g, g ∈ ListAllowlistGroups (as_db s3) <->
      exists g0, g0 ∈ ListAllowlistGroups (as_db s) /\ g = reimported now g0.
Proof.
  intros s s2 mode now Hp Hnd He. set (gs := ListAllowlistGroups (as_db s)) in *.
  assert (Hgs : bd_Groups (handleExportAllowlistGroups [] s) = item_of <$> gs).
  { simpl. fold gs. f_equal. clear. induction gs as [|g l IH]; [done|]. simpl. by rewrite IH. }
  destruct (import_loop_fresh mode now gs emptyAllowlistDB Hp Hnd) as (db' & Hl & Hget).
  { apply Forall_forall. intros g _. by split. }
  unfold handleImportAllowlistGroups. rewrite Hgs, He. cbn [bd_Version handleExportAllowlistGroups].
  change (negb (allowlistBundleVersion =? allowlistBundleVersion)) with false. cbn iota. rewrite Hl.
  eexists. split; [by rewrite length_fmap|].
  destruct (pushAllPolicies_spec (with_db db' s2)) as [(Hdb & _) _]. rewrite Hdb. cbn [with_db as_db].
  intros g. rewrite elem_of_ListAllowlistGroups, Hget. split.
  - destruct (first_match _ gs) as [g0|] eqn:Hf; [|done]. intros [= <-].
    apply first_match_elem in Hf as [Hin _]. eauto.
  - intros (g0 & Hin & ->). cbn [ag_ID reimported].
    destruct (first_match _ gs) as [g1|] eqn:Hf.
    + apply first_match_elem in Hf as [Hin1 Heq]. bools. do 2 f_equal.
      apply list_elem_of_lookup in Hin as [i Hi], Hin1 as [j Hj].
      assert (j = i) as ->; [|congruence].
      apply (NoDup_lookup _ _ _ _ Hnd (list_lookup_fmap_Some_2 _ _ _ _ Hj)).
      rewrite list_lookup_fmap, Hi. simpl. by rewrite Heq.
    + apply first_match_None in Hf. rewrite Forall_forall in Hf. specialize (Hf g0 Hin).
      by rewrite String.eqb_refl in Hf.
Qed.

Lemma export_import_roundtrip_witness :
  exists s3, handleImportAllowlistGroups (handleExportAllowlistGroups [] Demo.srv1) "" Hour Demo.srv = (s3, Ok 1) /\
    forall g, g ∈ ListAllowlistGroups (as_db s3) <->
      exists g0, g0 ∈ ListAllowlistGroups (as_db Demo.srv1) /\ g = reimported Hour g0.
Proof.
  apply (export_import_roundtrip Demo.srv1 Demo.srv "" Hour).
  - rewrite Demo.srv1_groups. constructor; [|constructor].
    split_and!; [vm_compute; reflexivity|discriminate|vm_compute; reflexivity|reflexivity|vm_compute; reflexivity].
  - rewrite Demo.srv1_groups. apply NoDup_singleton.
  - reflexivity.
Defined.

(** ** Two edge cases of the import *)

(** an import that fails midway keeps the groups before the failing one but
    skips the push: a global group is stored, and so shows in the box's
    effective allowlist, while the connected spoke is not told of it. *)
Theorem import_error_skips_push :
  let good := MkItem "extra" "" ["example.com"] 0 true in
  let bad := MkItem "broken" "" ["not a domain"] 0 true in
  exists s', handleImportAllowlistGroups (MkBundle 1 [good; bad]) "" Hour Demo.srv = (s', Err 400) /\
    as_calls s' = [] /\
    handleGetBoxAllowlist "web" s' = Ok ([], ["extra"], ["example.com"]).
Proof. eexists. split_and!; [vm_compute; reflexivity|reflexivity|vm_compute; reflexivity]. Qed.

Lemma save_refuses_empty_slug req now s :
  sr_ID req = "" -> slugify (TrimSpace (sr_Name req)) = "" -> (handleSaveAllowlistGroup req now s).1 = s.
Proof.
  intros Hid Hslug. unfold handleSaveAllowlistGroup. rewrite Hid, Hslug.
  destruct (String.eqb _ ""); [done|]. by destruct (normalizeDomains _).
Qed.

(** the import does not check the derived id as the save does: a group whose
    name has no letter or digit is stored under the empty id, where the delete
    handler refuses to remove it. *)
Theorem import_empty_id :
  exists s', handleImportAllowlistGroups (MkBundle 1 [MkItem "!!!" "" ["example.com"] 0 true]) "" Hour Demo.srv =
      (s', Ok 1) /\
    (exists g, GetAllowlistGroup "" (as_db s') = Some g /\ ag_Name g = "!!!") /\
    (handleDeleteAllowlistGroup "" s').2 = Err 400 /\
    (forall req now, TrimSpace (sr_Name req) = "!!!" -> sr_ID req = "" ->
       (handleSaveAllowlistGroup req now s').1 = s').
Proof.
  eexists. split_and!; [vm_compute; reflexivity|eexists; split; [vm_compute; reflexivity|done]|done|].
  intros req now Hn Hid. apply save_refuses_empty_slug; [done|]. by rewrite Hn.
Qed.
