(* ===== verification/Stream.v ===== *)
(** * Tunnels to a box's port (internal/shared/cluster/stream.go)

    The hub-side end of a tunnel ([clientStream]) and its deadlines; [Tunnel] has
    the spoke-side end, the registries and the frames between them.  A Go [select] with
    several ready cases picks one of them at random: the operations that select
    take the picked case as an argument and answer [None] when it is not ready
    (the goroutine does not take it).  Bytes are [ascii]; channels are queues
    with a closed flag. *)

From S2P Require Import Prelude.
From Stdlib Require Import Ascii.

Local Open Scope Z_scope.

Definition maxStreamChunk : nat := Z.to_nat (Z.shiftl 32 10).
Definition streamInboundBuffer : nat := 64.

Inductive StreamError := ErrClosed | ErrDeadlineExceeded | EOF | ErrRemote (msg : string) | ErrSend.

#[export] Instance StreamError_eq_dec : EqDecision StreamError.
Proof. solve_decision. Defined.

Abbreviation bytes := (list ascii).

(** ** The hub-side end *)

Record clientStream := MkStream {
  cs_id : Z;
  cs_dataCh : list bytes;           (* frames buffered in the channel *)
  cs_dataClosed : bool;             (* the channel has been closed *)
  cs_closed : bool;                 (* closed by a local Close *)
  cs_buf : bytes;                   (* rest of a frame not consumed by one Read *)
  cs_remoteErr : option StreamError;
  cs_rDeadline : bool;              (* the read deadline has passed *)
}.

Definition newClientStream (id : Z) : clientStream := MkStream id [] false false [] None false.

(** The cases of the selects. *)
Inductive selected := SelClosed | SelDeadline | SelData.

(** What a send into the data channel can do: a send on a closed channel
    panics. *)
Inductive outcome (A : Type) := Done (a : A) | Panic.
Arguments Done {A} a.
Arguments Panic {A}.

Definition with_data (s : clientStream) (q : list bytes) : clientStream :=
  MkStream (cs_id s) q (cs_dataClosed s) (cs_closed s) (cs_buf s) (cs_remoteErr s) (cs_rDeadline s).

Definition with_buf (s : clientStream) (q : list bytes) (b : bytes) : clientStream :=
  MkStream (cs_id s) q (cs_dataClosed s) (cs_closed s) b (cs_remoteErr s) (cs_rDeadline s).

Definition push (sel : selected) (b : bytes) (s : clientStream) : option (outcome clientStream) :=
  match sel with
  | SelData =>
      if cs_dataClosed s then Some Panic
      else if Nat.ltb (length (cs_dataCh s)) streamInboundBuffer
      then Some (Done (with_data s (cs_dataCh s ++ [b])))
      else None
  | SelClosed => if cs_closed s then Some (Done s) else None
  | SelDeadline => None
  end.

Definition closeRemote (err : option StreamError) (s : clientStream) : clientStream :=
  MkStream (cs_id s) (cs_dataCh s) true (cs_closed s) (cs_buf s) err (cs_rDeadline s).

Definition readEndErr (s : clientStream) : StreamError := default EOF (cs_remoteErr s).

(** [Read] into a buffer of [n] bytes. *)
Definition Read (sel : selected) (n : nat) (s : clientStream) : option (res StreamError bytes * clientStream) :=
  match cs_buf s with
  | _ :: _ => Some (Ok (take n (cs_buf s)), with_buf s (cs_dataCh s) (drop n (cs_buf s)))
  | [] =>
      match sel with
      | SelClosed => if cs_closed s then Some (Err ErrClosed, s) else None
      | SelDeadline => if cs_rDeadline s then Some (Err ErrDeadlineExceeded, s) else None
      | SelData =>
          match cs_dataCh s with
          | b :: q => Some (Ok (take n b), with_buf s q (drop n b))
          | [] => if cs_dataClosed s then Some (Err (readEndErr s), s) else None
          end
      end
  end.

(** What one iteration of [Write]'s loop meets: the select's ready case, or the
    default and the result of the transport's [Send]. *)
Inductive write_env := WClosed | WDeadline | WSendFails | WSends.

(** The loop of [Write]: [fuel] bounds the iterations, each of which sends at
    least one byte; the result is the count, the error and the data frames
    sent. *)
Fixpoint write_loop (fuel : nat) (env : nat -> write_env) (i : nat) (p : bytes) (total : nat) (frames : list bytes) :
    nat * option StreamError * list bytes :=
  match fuel, p with
  | O, _ | _, [] => (total, None, frames)
  | S fuel', _ =>
      match env i with
      | WClosed => (total, Some ErrClosed, frames)
      | WDeadline => (total, Some ErrDeadlineExceeded, frames)
      | WSendFails => (total, Some ErrSend, frames)
      | WSends =>
          let n := if Nat.ltb maxStreamChunk (length p) then maxStreamChunk else length p in
          write_loop fuel' env (S i) (drop n p) (total + n) (frames ++ [take n p])
      end
  end.

Definition Write (env : nat -> write_env) (p : bytes) : nat * option StreamError * list bytes :=
  write_loop (length p) env 0 p 0 [].

(** [Close]: the state part, in the two steps another goroutine can see; the
    close frame is sent and the stream unregistered only after them. *)
Definition close_signal (s : clientStream) : clientStream :=
  MkStream (cs_id s) (cs_dataCh s) (cs_dataClosed s) true (cs_buf s) (cs_remoteErr s) (cs_rDeadline s).
Definition close_data (s : clientStream) : clientStream :=
  MkStream (cs_id s) (cs_dataCh s) true (cs_closed s) (cs_buf s) (cs_remoteErr s) (cs_rDeadline s).

(** The close frame is sent and the stream unregistered by the first call only. *)
Definition Close (s : clientStream) : clientStream * bool :=
  if cs_closed s then (s, false) else (close_data (close_signal s), true).

Definition set_rDeadline (passed : bool) (s : clientStream) : clientStream :=
  MkStream (cs_id s) (cs_dataCh s) (cs_dataClosed s) (cs_closed s) (cs_buf s) (cs_remoteErr s) passed.

(** ** Lemmas *)

Lemma write_loop_spec fuel env i p total frames :
  (length p <= fuel)%nat ->
  let '(n, err, fs) := write_loop fuel env i p total frames in
  exists k sent, n = (total + k)%nat /\ fs = frames ++ sent /\ concat sent = take k p /\ (k <= length p)%nat /\
    Forall (fun f => 0 < length f <= maxStreamChunk)%nat sent /\
    (err = None -> k = length p) /\
    ((forall j, (i <= j)%nat -> env j = WSends) -> err = None).
Proof.
  revert i p total frames. induction fuel as [|fuel IH]; intros i p total frames Hf.
  { destruct p; [|simpl in Hf; lia]. cbn. exists 0%nat, []. rewrite app_nil_r. split_and!; try done; lia. }
  destruct p as [|c p'] eqn:Hp.
  { cbn. exists 0%nat, []. rewrite app_nil_r. split_and!; try done; lia. }
  rewrite <- Hp in *. assert (Hpos : (0 < length p)%nat) by (rewrite Hp; simpl; lia).
  replace (write_loop (S fuel) env i p total frames) with
    (match env i with
      | WClosed => (total, Some ErrClosed, frames)
      | WDeadline => (total, Some ErrDeadlineExceeded, frames)
      | WSendFails => (total, Some ErrSend, frames)
      | WSends =>
          let n := if Nat.ltb maxStreamChunk (length p) then maxStreamChunk else length p in
          write_loop fuel env (S i) (drop n p) (total + n) (frames ++ [take n p])
      end) by (by rewrite Hp).
  destruct (env i) eqn:He;
    [exists 0%nat, []; rewrite app_nil_r; split_and!; try done; try lia;
      intros Hall; specialize (Hall i (le_n i)); congruence..|].
  cbv zeta. set (n := if Nat.ltb _ _ then _ else _).
  assert (Hn : (0 < n <= maxStreamChunk)%nat /\ (n <= length p)%nat).
  { unfold n. destruct (Nat.ltb_spec maxStreamChunk (length p)); split; try lia.
    split; [|lia]. apply Nat.ltb_lt. vm_compute. reflexivity. }
  specialize (IH (S i) (drop n p) (total + n)%nat (frames ++ [take n p])).
  destruct (write_loop fuel env (S i) _ _ _) as [[n' err] fs].
  destruct IH as (k & sent & -> & -> & Hc & Hk & Hall & Herr & Hok); [rewrite length_drop; lia|].
  rewrite length_drop in *. exists (n + k)%nat, (take n p :: sent). split_and!.
  - lia.
  - by rewrite <- app_assoc.
  - simpl. rewrite Hc. rewrite take_take_drop. done.
  - lia.
  - constructor; [rewrite length_take; lia|done].
  - intros ->. specialize (Herr eq_refl). lia.
  - intros Hs. apply Hok. intros j Hj. apply Hs. lia.
Qed.

(** [Write] sends the bytes in order and in full.  Whatever it meets, the
    frames it sent hold exactly the first [n] bytes, each frame non-empty and at
    most 32 KiB, where [n] is the count it returns; it reports success only
    after all bytes, and it does when no close, deadline or send failure
    intervenes. *)
Theorem Write_spec : forall env p,
  let '(n, err, frames) := Write env p in
  concat frames = take n p /\ (n <= length p)%nat /\
  Forall (fun f => 0 < length f <= maxStreamChunk)%nat frames /\
  (err = None -> n = length p) /\
  ((forall j, env j = WSends) -> err = None).
Proof.
  intros env p. unfold Write. pose proof (write_loop_spec (length p) env 0 p 0 [] (le_n _)) as Hw.
  destruct (write_loop _ _ _ _ _ _) as [[n err] fs].
  destruct Hw as (k & sent & -> & -> & Hc & Hk & Hall & Herr & Hok). simpl. split_and!; auto.
Qed.

(** ** Reading is first in, first out

    The state of a run: the stream, the bytes received from the spoke and the
    bytes handed to the reader so far. *)
Inductive io_step : clientStream * bytes * bytes -> clientStream * bytes * bytes -> Prop :=
| io_push s s' b received delivered :
    push SelData b s = Some (Done s') ->
    io_step (s, received, delivered) (s', received ++ b, delivered)
| io_push_dropped s b received delivered :
    push SelClosed b s = Some (Done s) ->
    io_step (s, received, delivered) (s, received, delivered)
| io_read sel n s s' r received delivered :
    Read sel n s = Some (r, s') ->
    io_step (s, received, delivered)
      (s', received, delivered ++ match r with Ok bs => bs | Err _ => [] end)
| io_remote err s received delivered :
    io_step (s, received, delivered) (closeRemote err s, received, delivered)
| io_close s received delivered :
    io_step (s, received, delivered) ((Close s).1, received, delivered)
| io_deadline passed s received delivered :
    io_step (s, received, delivered) (set_rDeadline passed s, received, delivered).

(** Nothing received is lost, duplicated or reordered. *)
Definition fifo (st : clientStream * bytes * bytes) : Prop :=
  let '(s, received, delivered) := st in
  received = delivered ++ cs_buf s ++ concat (cs_dataCh s).

Lemma Read_fifo sel n s r s' :
  Read sel n s = Some (r, s') ->
  cs_buf s ++ concat (cs_dataCh s) =
  match r with Ok bs => bs | Err _ => [] end ++ cs_buf s' ++ concat (cs_dataCh s').
Proof.
  unfold Read. intros Hr. destruct (cs_buf s) as [|c b] eqn:Hb.
  - destruct sel.
    + destruct (cs_closed s); simplify_eq. by rewrite Hb.
    + destruct (cs_rDeadline s); simplify_eq. by rewrite Hb.
    + destruct (cs_dataCh s) as [|f q] eqn:Hq.
      * destruct (cs_dataClosed s); simplify_eq. by rewrite Hb, Hq.
      * simplify_eq/=. by rewrite app_assoc, take_drop.
  - injection Hr as <- <-. simpl. by rewrite app_assoc, take_drop.
Qed.

Lemma io_step_fifo st st' : io_step st st' -> fifo st -> fifo st'.
Proof.
  destruct 1 as [s s' b rcv del Hp| |sel n s s' r rcv del Hr|err s rcv del|s rcv del|p s rcv del];
    unfold fifo; intros ->; try done.
  - unfold push in Hp. repeat step_match_in Hp. simpl.
    rewrite concat_app. simpl. by rewrite app_nil_r, <- !app_assoc.
  - rewrite (Read_fifo _ _ _ _ _ Hr). by rewrite app_assoc.
  - unfold Close. by destruct (cs_closed s).
Qed.

Lemma io_run_fifo id st : rtc io_step (newClientStream id, [], []) st -> fifo st.
Proof.
  assert (Hi : fifo (newClientStream id, [], [])) by done. revert Hi.
  generalize (newClientStream id, @nil ascii, @nil ascii). intros st0 Hi Hst.
  induction Hst; eauto using io_step_fifo.
Qed.

(** The reader of a tunnel sees the spoke's bytes in order.  After any
    sequence of data frames, reads, remote end, local close and deadlines, the
    bytes handed out are a prefix of the bytes received; what a further read
    returns continues it; the end of the stream (clean or failed) is reported
    only when every received byte has been handed out; and a read that picks the
    data case returns at least one byte as long as some are outstanding (for a
    non-empty buffer and non-empty frames). *)
Theorem Read_in_order : forall id s received delivered,
  rtc io_step (newClientStream id, [], []) (s, received, delivered) ->
  (exists rest, received = delivered ++ rest) /\
  (forall sel n bs s', Read sel n s = Some (Ok bs, s') -> exists rest, received = delivered ++ bs ++ rest) /\
  (forall sel n e s', Read sel n s = Some (Err e, s') -> e <> ErrClosed -> e <> ErrDeadlineExceeded ->
     delivered = received) /\
  (forall n, (0 < n)%nat -> Forall (fun f => f <> []) (cs_dataCh s) -> delivered <> received ->
     exists bs s', Read SelData n s = Some (Ok bs, s') /\ bs <> []).
Proof.
  intros id s received delivered Hst. apply io_run_fifo in Hst. simpl in Hst. split_and!.
  - eauto.
  - intros sel n bs s' Hr. apply Read_fifo in Hr. rewrite Hst, Hr. eauto.
  - intros sel n e s' Hr H1 H2. unfold Read in Hr. destruct (cs_buf s); [|done].
    destruct sel; repeat step_match_in Hr; simplify_eq. by rewrite app_nil_r.
  - intros n Hn Hf Hne. unfold Read. destruct (cs_buf s) as [|c b] eqn:Hb.
    + destruct (cs_dataCh s) as [|f q]; [simpl in Hst; by rewrite app_nil_r in Hst|].
      do 2 eexists. split; [done|]. inversion_clear Hf. destruct f, n; try done; lia.
    + do 2 eexists. split; [done|]. destruct n; [lia|done].
Qed.

Lemma Read_in_order_witness :
  let b := ["h"; "i"]%char in
  let s := with_buf (newClientStream 7) [] ["i"%char] in
  (exists rest, b = ["h"%char] ++ rest) /\ exists bs s', Read SelData 1 s = Some (Ok bs, s') /\ bs <> [].
Proof.
  intros b s.
  destruct (Read_in_order 7 s b ["h"%char]) as (H1 & _ & _ & H4).
  - eapply rtc_l; [eapply (io_push (newClientStream 7) (with_data (newClientStream 7) [b]) b); reflexivity|].
    eapply rtc_l; [eapply (io_read SelData 1 (with_data (newClientStream 7) [b])); reflexivity|].
    apply rtc_refl.
  - split; [exact H1|]. apply H4; [lia|constructor|discriminate].
Defined.

(** ** A data frame racing a local close

    The hub's registry of tunnels; the read loop looks the frame's stream up and
    pushes. *)
Definition deliver (sel : selected) (id : Z) (b : bytes) (m : gmap Z clientStream) :
    option (outcome (gmap Z clientStream)) :=
  match m !! id with
  | None => Some (Done m)
  | Some s =>
      match push sel b s with
      | None => None
      | Some Panic => Some Panic
      | Some (Done s') => Some (Done (<[id := s']> m))
      end
  end.

(** The steps of [Close] on the registered stream, in program order; the close
    frame is sent between the second and the third. *)
Definition closing (step : nat) (id : Z) (m : gmap Z clientStream) : gmap Z clientStream :=
  match step with
  | 0%nat => alter close_signal id m
  | 1%nat => alter close_data id m
  | _ => delete id m
  end.

(** closing a tunnel while data is arriving can bring the hub down: between
    the moment [Close] closes the data channel and the moment it unregisters the
    stream (it sends a frame in between), a data frame for the stream finds both
    select cases ready, and the one that sends on the closed channel panics.
    Before the first step and after the last one there is no panic. *)
Theorem close_races_push : forall id b,
  let m0 := {[id := newClientStream id]} in
  let m2 := closing 1 id (closing 0 id m0) in
  deliver SelData id b m2 = Some Panic /\
  (exists m, deliver SelClosed id b m2 = Some (Done m)) /\
  (exists m, deliver SelData id b m0 = Some (Done m)) /\
  deliver SelData id b (closing 2 id m2) = Some (Done (closing 2 id m2)).
Proof.
  intros id b m0 m2.
  assert (Hm2 : m2 !! id = Some (close_data (close_signal (newClientStream id)))).
  { unfold m2, m0. simpl. by rewrite !lookup_alter_eq, lookup_singleton_eq. }
  unfold deliver. rewrite Hm2. split_and!.
  - done.
  - simpl. eauto.
  - unfold m0. rewrite lookup_singleton_eq. simpl. eauto.
  - simpl. by rewrite lookup_delete_eq.
Qed.

(** ** Deadlines

    A channel is a number; [dl_firing] are the timer callbacks that have started
    and have yet to close their channel.  Stopping a timer does not stop a
    callback that has started. *)
Record connDeadline := MkDeadline {
  dl_timer : option nat;
  dl_cancel : nat;
  dl_fired : gset nat;
  dl_firing : list nat;
  dl_next : nat;
}.

Definition newConnDeadline : connDeadline := MkDeadline None 0 ∅ [] 1.

Definition wait (d : connDeadline) : nat := dl_cancel d.

Definition isClosedChan (c : nat) (d : connDeadline) : bool := bool_decide (c ∈ dl_fired d).

(** [set]: [t] is [None] for the zero time, else the time until the deadline. *)
Definition set (t : option Z) (d : connDeadline) : outcome connDeadline :=
  let '(cancel, next) := if isClosedChan (dl_cancel d) d then (dl_next d, S (dl_next d)) else (dl_cancel d, dl_next d) in
  match t with
  | None => Done (MkDeadline None cancel (dl_fired d) (dl_firing d) next)
  | Some dur =>
      if 0 <? dur then Done (MkDeadline (Some cancel) cancel (dl_fired d) (dl_firing d) next)
      else if bool_decide (cancel ∈ dl_fired d) then Panic
      else Done (MkDeadline None cancel ({[cancel]} ∪ dl_fired d) (dl_firing d) next)
  end.

(** The runtime starts the callback of an expired timer. *)
Definition timer_fires (d : connDeadline) : connDeadline :=
  match dl_timer d with
  | Some c => MkDeadline None (dl_cancel d) (dl_fired d) (dl_firing d ++ [c]) (dl_next d)
  | None => d
  end.

(** The oldest started callback runs: [close(cancel)]. *)
Definition callback (d : connDeadline) : outcome connDeadline :=
  match dl_firing d with
  | [] => Done d
  | c :: cs =>
      if bool_decide (c ∈ dl_fired d) then Panic
      else Done (MkDeadline (dl_timer d) (dl_cancel d) ({[c]} ∪ dl_fired d) cs (dl_next d))
  end.

Definition out_bind {A B} (m : outcome A) (k : A -> outcome B) : outcome B :=
  match m with Done a => k a | Panic => Panic end.

(** Channels in use were made before [dl_next]. *)
Definition deadline_wf (d : connDeadline) : Prop :=
  (dl_cancel d < dl_next d)%nat /\ forall c, c ∈ dl_fired d -> (c < dl_next d)%nat.

Lemma set_never_panics t d : deadline_wf d -> exists d', set t d = Done d' /\ deadline_wf d'.
Proof.
  intros [Hc Hf]. unfold set, isClosedChan. case_bool_decide as Hin.
  - assert (Hnew : dl_next d ∉ dl_fired d) by (intros ?%Hf; lia).
    destruct t as [dur|]; [destruct (0 <? dur); [|rewrite bool_decide_false by done]|];
      eexists; (split; [done|]); split; simpl; try lia; intros c; rewrite ?elem_of_union, ?elem_of_singleton;
      intros; try (destruct_or!); subst; try lia; by apply Nat.lt_lt_succ_r, Hf.
  - destruct t as [dur|]; [destruct (0 <? dur); [|rewrite bool_decide_false by done]|];
      eexists; (split; [done|]); split; simpl; try done; intros c; rewrite ?elem_of_union, ?elem_of_singleton;
      intros; try (destruct_or!); subst; auto.
Qed.

(** Setting a deadline with no callback in flight does what it says: the channel
    to wait on is closed exactly for a deadline already past, and a timer on
    that very channel is armed exactly for a future one. *)
Theorem connDeadline_set_spec : forall t d,
  deadline_wf d -> dl_firing d = [] ->
  exists d', set t d = Done d' /\ dl_firing d' = [] /\
    isClosedChan (wait d') d' = match t with Some dur => negb (0 <? dur) | None => false end /\
    dl_timer d' = match t with Some dur => if 0 <? dur then Some (wait d') else None | None => None end.
Proof.
  intros t d [Hc Hf] Hfi. unfold set, isClosedChan, wait. case_bool_decide as Hin.
  - assert (Hnew : dl_next d ∉ dl_fired d) by (intros ?%Hf; lia).
    destruct t as [dur|]; [destruct (0 <? dur); [|rewrite bool_decide_false by done]|];
      eexists; (split; [done|]); simpl; split_and!; try done;
      first [apply bool_decide_eq_false; done|apply bool_decide_eq_true; set_solver].
  - destruct t as [dur|]; [destruct (0 <? dur); [|rewrite bool_decide_false by done]|];
      eexists; (split; [done|]); simpl; split_and!; try done;
      first [apply bool_decide_eq_false; done|apply bool_decide_eq_true; set_solver].
Qed.

(** resetting a deadline whose timer has just fired is unsafe, because [set]
    does not wait for the started callback: setting a past deadline then closes
    the channel a second time (a panic), and clearing the deadline leaves the
    stream with a passed one. *)
Theorem deadline_reset_races_timer :
  exists d1, set (Some Second) newConnDeadline = Done d1 /\
    let d2 := timer_fires d1 in
    out_bind (set (Some 0) d2) callback = Panic /\
    exists d3, out_bind (set None d2) callback = Done d3 /\ isClosedChan (wait d3) d3 = true.
Proof.
  eexists. split; [reflexivity|]. split; [by vm_compute|].
  eexists. split; [vm_compute; reflexivity|by vm_compute].
Qed.
