(* ===== verification/Tunnel.v ===== *)
(** * Tunnels end to end (internal/shared/cluster: stream.go, remote.go, dispatch.go)

    The two ends of the tunnels of one spoke connection: the hub's client streams
    with their registry, the spoke's server streams over connections to boxes,
    and the frames under way in both directions.  [step] is one action of one of
    the goroutines: opening, writing, reading and closing on the hub, the read
    loops of both sides, the pump of a box's bytes, the end of either side.
    The receipt of a frame, a registry update and a close of a connection are
    atomic (they hold a lock or have no reader in between); the pump's read and
    send, and the two halves of [clientStream.Close], are separate actions. *)

From S2P Require Import Prelude Stream.
From Stdlib Require Import Ascii.

Local Open Scope Z_scope.

(** [streamOpenReq]. *)
Record streamOpenReq := MkStreamOpenReq {
  so_BoxID : string; so_Port : Z; so_PTY : bool; so_PTYCmd : list string; so_PTYCols : Z; so_PTYRows : Z }.

(** The stream frames: [frameStreamOpen], [frameStreamData], [frameStreamClose]. *)
Inductive sframe :=
| FOpen (id : Z) (req : streamOpenReq)
| FData (id : Z) (data : bytes)
| FClose (id : Z) (err : string).

(** What a manager can open: [BoxPTYer] and [BoxDialer] are optional. *)
Record opener := MkOpener {
  op_OpenPTY : option (string -> list string -> Z -> Z -> res string ());
  op_DialBox : option (string -> Z -> res string ());
}.

Definition openStreamTarget (mgr : opener) (req : streamOpenReq) : res string () :=
  if so_PTY req then
    match op_OpenPTY mgr with
    | None => Err "this spoke does not support terminals"
    | Some open => open (so_BoxID req) (so_PTYCmd req) (so_PTYCols req) (so_PTYRows req)
    end
  else
    match op_DialBox mgr with
    | None => Err "this spoke does not support proxying"
    | Some dial => dial (so_BoxID req) (so_Port req)
    end.

(** The connection to a box: the bytes written to it, the bytes the pump read
    from it, the chunk the pump has read and has yet to send, and whether it was
    closed. *)
Record boxConn := MkConn { bc_in : bytes; bc_out : bytes; bc_chunk : option bytes; bc_closed : bool }.

(** One tunnel.  [tu_written] and [tu_read] are the bytes the hub's caller wrote
    to and read from its end; [tu_writeFailed] records that a write to the box
    failed. *)
Record tunnel := MkTunnel {
  tu_stream : clientStream;      (* the hub's end *)
  tu_registered : bool;          (* it is in [remoteSpoke.streams] *)
  tu_closing : bool;             (* a [Close] is between its two halves *)
  tu_conn : option boxConn;      (* the connection of the spoke's end *)
  tu_served : bool;              (* it is in [spokeStreams] *)
  tu_writeFailed : bool;
  tu_written : bytes;
  tu_read : bytes;
}.

(** The connection of one spoke: [tn_closed] is [remoteSpoke.closed],
    [tn_serving] whether the spoke's [serve] is running. *)
Record tunnels := MkTunnels {
  tn_next : Z;
  tn_closed : bool;
  tn_serving : bool;
  tn_tunnels : gmap Z tunnel;
  tn_down : list sframe;         (* hub to spoke *)
  tn_up : list sframe;           (* spoke to hub *)
}.

Definition no_tunnels : tunnels := MkTunnels 0 false true ∅ [] [].

(** ** The hub's side *)

Definition newTunnel (id : Z) : tunnel := MkTunnel (newClientStream id) true false None false false [] [].

Definition with_hub (s : clientStream) (registered closing : bool) (t : tunnel) : tunnel :=
  MkTunnel s registered closing (tu_conn t) (tu_served t) (tu_writeFailed t) (tu_written t) (tu_read t).
Definition with_stream (s : clientStream) (t : tunnel) : tunnel := with_hub s (tu_registered t) (tu_closing t) t.

Definition unregisterStream (t : tunnel) : tunnel := with_hub (tu_stream t) false (tu_closing t) t.

(** A chunk as [Write] and the pump cut them. *)
Definition chunk (b : bytes) : bool := Nat.ltb 0 (length b) && Nat.leb (length b) maxStreamChunk.

Definition hub_write (b : bytes) (t : tunnel) : tunnel :=
  MkTunnel (tu_stream t) (tu_registered t) (tu_closing t) (tu_conn t) (tu_served t) (tu_writeFailed t)
    (tu_written t ++ b) (tu_read t).

Definition hub_read (s : clientStream) (b : bytes) (t : tunnel) : tunnel :=
  MkTunnel s (tu_registered t) (tu_closing t) (tu_conn t) (tu_served t) (tu_writeFailed t)
    (tu_written t) (tu_read t ++ b).

(** A close frame from the spoke. *)
Definition remote_close (err : string) (t : tunnel) : tunnel :=
  if tu_registered t
  then unregisterStream (with_stream (closeRemote (if String.eqb err "" then None else Some (ErrRemote err)) (tu_stream t)) t)
  else t.

(** [shutdown]: every live tunnel fails with the cause. *)
Definition fail_tunnel (t : tunnel) : tunnel :=
  if tu_registered t then unregisterStream (with_stream (closeRemote (Some ErrSend) (tu_stream t)) t) else t.

(** The two halves of [Close]: the channels are closed; then the frame is sent
    and the stream unregistered. *)
Definition close_local (t : tunnel) : tunnel :=
  with_hub (Close (tu_stream t)).1 (tu_registered t) true t.
Definition close_done (t : tunnel) : tunnel := with_hub (tu_stream t) false false t.

(** ** The spoke's side *)

Definition with_conn (c : boxConn) (served failed : bool) (t : tunnel) : tunnel :=
  MkTunnel (tu_stream t) (tu_registered t) (tu_closing t) (Some c) served failed (tu_written t) (tu_read t).

(** [newServerStream], registered and started. *)
Definition newServerStream (t : tunnel) : tunnel := with_conn (MkConn [] [] None false) true (tu_writeFailed t) t.

(** [serverStream.teardown]: the connection is closed and the stream dropped
    from the registry. *)
Definition teardown (t : tunnel) : tunnel :=
  match tu_conn t with
  | Some c => with_conn (MkConn (bc_in c) (bc_out c) (bc_chunk c) true) false (tu_writeFailed t) t
  | None => t
  end.

(** [writeInbound] of a frame; [wrote] is the count of a failing write.  The flag
    says whether the hub is told. *)
Definition writeInbound (wrote : option nat) (b : bytes) (t : tunnel) : tunnel * bool :=
  match tu_conn t with
  | None => (t, false)
  | Some c =>
      let put_in bs := MkConn (bc_in c ++ bs) (bc_out c) (bc_chunk c) (bc_closed c) in
      match wrote with
      | None => (with_conn (put_in b) (tu_served t) (tu_writeFailed t) t, false)
      | Some k => (teardown (with_conn (put_in (take k b)) (tu_served t) true t), true)
      end
  end.

(** [pumpBoxToHub]: the read of a chunk from an open connection, *)
Definition pump_read (b : bytes) (t : tunnel) : option tunnel :=
  match tu_conn t with
  | Some (MkConn i o None false) => Some (with_conn (MkConn i (o ++ b) (Some b) false) (tu_served t) (tu_writeFailed t) t)
  | _ => None
  end.

(** the end of its send (the connection may have been closed meanwhile; after a
    failed send the transport is gone and the close frame does not go out either), *)
Definition pump_sent (t : tunnel) : option (tunnel * bytes) :=
  match tu_conn t with
  | Some (MkConn i o (Some b) cl) => Some (with_conn (MkConn i o None cl) (tu_served t) (tu_writeFailed t) t, b)
  | _ => None
  end.

(** and the end of the connection, which the hub is told. *)
Definition pump_ends (t : tunnel) : option tunnel :=
  match tu_conn t with
  | Some (MkConn _ _ None false) => Some (teardown t)
  | _ => None
  end.

(** ** Actions *)

(** One action of one goroutine.  A [Write] call sends its chunks one by one,
    each possibly after a [Close] that raced its check. *)
Inductive action :=
| ADial (idOrName : string) (port : Z) (sent : bool)
| APTY (idOrName : string) (cmd : list string) (cols rows : Z) (sent : bool)
| AWrite (id : Z) (b : bytes)
| ARead (id : Z) (sel : selected) (n : nat)
| ADeadline (id : Z) (passed : bool)
| AClose (id : Z)
| ACloseDone (id : Z) (sent : bool)
| AHubRecv (sel : selected)
| AHubDown
| ASpokeRecv (mgr : opener) (wrote : option nat)
| ABoxRead (id : Z) (b : bytes)
| ABoxSend (id : Z) (sent : bool)
| ABoxEnd (id : Z)
| ASpokeDown.

Definition put (id : Z) (t : tunnel) (st : tunnels) : tunnels :=
  MkTunnels (tn_next st) (tn_closed st) (tn_serving st) (<[id := t]> (tn_tunnels st)) (tn_down st) (tn_up st).
Definition send_down (sent : bool) (f : sframe) (st : tunnels) : tunnels :=
  MkTunnels (tn_next st) (tn_closed st) (tn_serving st) (tn_tunnels st)
    (tn_down st ++ if sent then [f] else []) (tn_up st).
Definition send_up (sent : bool) (f : sframe) (st : tunnels) : tunnels :=
  MkTunnels (tn_next st) (tn_closed st) (tn_serving st) (tn_tunnels st) (tn_down st)
    (tn_up st ++ if sent then [f] else []).
Definition set_down (q : list sframe) (st : tunnels) : tunnels :=
  MkTunnels (tn_next st) (tn_closed st) (tn_serving st) (tn_tunnels st) q (tn_up st).
Definition set_up (q : list sframe) (st : tunnels) : tunnels :=
  MkTunnels (tn_next st) (tn_closed st) (tn_serving st) (tn_tunnels st) (tn_down st) q.
Definition all_tunnels (f : tunnel -> tunnel) (closed serving : bool) (st : tunnels) : tunnels :=
  MkTunnels (tn_next st) closed serving (f <$> tn_tunnels st) (tn_down st) (tn_up st).

(** The hub's read loop on a stream frame; [None] is a push that blocks, or the
    panic of [Stream.close_races_push]. *)
Definition hub_recv (sel : selected) (f : sframe) (st : tunnels) : option tunnels :=
  match f with
  | FOpen _ _ => Some st
  | FData id b =>
      match tn_tunnels st !! id with
      | None => Some st
      | Some t =>
          if tu_registered t then
            match push sel b (tu_stream t) with
            | Some (Done s) => Some (put id (with_stream s t) st)
            | _ => None
            end
          else Some st
      end
  | FClose id err => Some (match tn_tunnels st !! id with Some t => put id (remote_close err t) st | None => st end)
  end.

Definition handleStreamOpen (mgr : opener) (id : Z) (req : streamOpenReq) (st : tunnels) : tunnels :=
  match openStreamTarget mgr req with
  | Err e => send_up true (FClose id e) st
  | Ok _ => match tn_tunnels st !! id with Some t => put id (newServerStream t) st | None => st end
  end.

(** [serve] on a stream frame. *)
Definition spoke_recv (mgr : opener) (wrote : option nat) (f : sframe) (st : tunnels) : tunnels :=
  match f with
  | FOpen id req => handleStreamOpen mgr id req st
  | FData id b =>
      match tn_tunnels st !! id with
      | Some t =>
          if tu_served t then
            let '(t', notify) := writeInbound wrote b t in send_up notify (FClose id "") (put id t' st)
          else st
      | None => st
      end
  | FClose id _ =>
      match tn_tunnels st !! id with
      | Some t => if tu_served t then put id (teardown t) st else st
      | None => st
      end
  end.

(** [openStream]: an open frame that cannot be sent leaves nothing registered. *)
Definition openStream (req : streamOpenReq) (sent : bool) (st : tunnels) : option tunnels :=
  if tn_closed st then None
  else
    let id := tn_next st + 1 in
    let st1 := MkTunnels id (tn_closed st) (tn_serving st) (tn_tunnels st) (tn_down st) (tn_up st) in
    Some (if sent then send_down true (FOpen id req) (put id (newTunnel id) st1) else st1).

(** The hub's two ways to open one. *)
Definition DialBox (idOrName : string) (port : Z) : bool -> tunnels -> option tunnels :=
  openStream (MkStreamOpenReq idOrName port false [] 0 0).
Definition OpenPTY (idOrName : string) (cmd : list string) (cols rows : Z) : bool -> tunnels -> option tunnels :=
  openStream (MkStreamOpenReq idOrName 0 true cmd cols rows).

(** An action on a tunnel the caller holds. *)
Definition on_tunnel (id : Z) (st : tunnels) (k : tunnel -> option tunnels) : option tunnels :=
  match tn_tunnels st !! id with Some t => k t | None => None end.

Definition step (a : action) (st : tunnels) : option tunnels :=
  match a with
  | ADial box port sent => DialBox box port sent st
  | APTY box cmd cols rows sent => OpenPTY box cmd cols rows sent st
  | AWrite id b =>
      on_tunnel id st (fun t => if chunk b then Some (send_down true (FData id b) (put id (hub_write b t) st)) else None)
  | ARead id sel n =>
      on_tunnel id st (fun t =>
        match Read sel n (tu_stream t) with
        | Some (r, s) => Some (put id (hub_read s (match r with Ok b => b | Err _ => [] end) t) st)
        | None => None
        end)
  | ADeadline id passed => on_tunnel id st (fun t => Some (put id (with_stream (set_rDeadline passed (tu_stream t)) t) st))
  | AClose id =>
      on_tunnel id st (fun t => Some (if (Close (tu_stream t)).2 then put id (close_local t) st else st))
  | ACloseDone id sent =>
      on_tunnel id st (fun t =>
        if tu_closing t then Some (send_down sent (FClose id "") (put id (close_done t) st)) else None)
  | AHubRecv sel =>
      match tn_up st with
      | f :: q => if tn_closed st then None else hub_recv sel f (set_up q st)
      | [] => None
      end
  | AHubDown => Some (if tn_closed st then st else all_tunnels fail_tunnel true (tn_serving st) st)
  | ASpokeRecv mgr wrote =>
      match tn_down st with
      | f :: q => if tn_serving st then Some (spoke_recv mgr wrote f (set_down q st)) else None
      | [] => None
      end
  | ABoxRead id b =>
      on_tunnel id st (fun t =>
        if chunk b then match pump_read b t with Some t' => Some (put id t' st) | None => None end else None)
  | ABoxSend id sent =>
      on_tunnel id st (fun t =>
        match pump_sent t with
        | Some (t', b) => Some (send_up sent (FData id b) (put id (if sent then t' else teardown t') st))
        | None => None
        end)
  | ABoxEnd id =>
      on_tunnel id st (fun t =>
        match pump_ends t with Some t' => Some (send_up true (FClose id "") (put id t' st)) | None => None end)
  | ASpokeDown => Some (all_tunnels teardown (tn_closed st) false st)
  end.

Fixpoint run (l : list action) (st : tunnels) : option tunnels :=
  match l with
  | [] => Some st
  | a :: l' => match step a st with Some st' => run l' st' | None => None end
  end.

(** ** The invariant *)

Definition fid (f : sframe) : Z := match f with FOpen id _ | FData id _ | FClose id _ => id end.
Definition f_data (f : sframe) : bytes := match f with FData _ b => b | _ => [] end.
Definition is_open (f : sframe) : bool := match f with FOpen _ _ => true | _ => false end.
Definition is_close (f : sframe) : bool := match f with FClose _ _ => true | _ => false end.

(** The frames of one tunnel, and the bytes they carry. *)
Definition frames_of (id : Z) (q : list sframe) : list sframe := filter (fun f => fid f = id) q.
Definition data_of (q : list sframe) : bytes := concat (f_data <$> q).
Definition opened (q : list sframe) : bool := existsb is_open q.
Definition ended (q : list sframe) : bool := existsb is_close q.

(** What reached the box, what the box said, what the pump holds, whether it is
    still running, and what reached the hub's end. *)
Definition box_in (t : tunnel) : bytes := match tu_conn t with Some c => bc_in c | None => [] end.
Definition box_out (t : tunnel) : bytes := match tu_conn t with Some c => bc_out c | None => [] end.
Definition held (t : tunnel) : bytes := match tu_conn t with Some c => default [] (bc_chunk c) | None => [] end.
Definition pumping (t : tunnel) : bool :=
  match tu_conn t with
  | Some c => negb (bc_closed c) || match bc_chunk c with Some _ => true | None => false end
  | None => false
  end.
Definition received (t : tunnel) : bytes := tu_read t ++ cs_buf (tu_stream t) ++ concat (cs_dataCh (tu_stream t)).

(** The hub's end still takes the spoke's frames. *)
Definition attached (t : tunnel) : bool := tu_registered t && negb (cs_closed (tu_stream t)).

(** The ends of a tunnel agree with the frames under way: [ds] are its frames to
    the spoke, [us] those to the hub. *)
Record good (t : tunnel) (ds us : list sframe) : Prop := MkGood {
  g_tail : opened (tail ds) = false;
  g_open : opened ds = true -> tu_conn t = None /\ data_of ds = tu_written t /\ us = [] /\ tu_writeFailed t = false;
  g_conn : tu_served t = match tu_conn t with Some c => negb (bc_closed c) | None => false end;
  g_served : tu_served t = true -> box_in t ++ data_of ds = tu_written t /\ tu_writeFailed t = false /\ opened ds = false;
  g_in : box_in t `prefix_of` tu_written t;
  g_closed : cs_closed (tu_stream t) = true -> cs_dataClosed (tu_stream t) = true;
  g_closing : tu_closing t = true -> cs_closed (tu_stream t) = true;
  g_err : cs_remoteErr (tu_stream t) <> Some EOF;
  g_attached : attached t = true -> cs_dataClosed (tu_stream t) = false;
  g_up : attached t = true -> received t ++ data_of us ++ held t `prefix_of` box_out t;
  g_out : received t `prefix_of` box_out t;
  g_eq : attached t = true -> tu_writeFailed t = false -> pumping t = true \/ ended us = true ->
    received t ++ data_of us ++ held t = box_out t;
  g_ended : ended us = true -> tu_writeFailed t = false ->
    pumping t = false /\ exists us0 id e, us = us0 ++ [FClose id e] /\ ended us0 = false;
  g_clean : cs_dataClosed (tu_stream t) = true -> cs_closed (tu_stream t) = false ->
    cs_remoteErr (tu_stream t) = None -> tu_writeFailed t = false ->
    received t = box_out t /\ pumping t = false /\ opened ds = false;
}.

Lemma data_of_app q1 q2 : data_of (q1 ++ q2) = data_of q1 ++ data_of q2.
Proof. unfold data_of. by rewrite fmap_app, concat_app. Qed.
Lemma opened_app q1 q2 : opened (q1 ++ q2) = opened q1 || opened q2.
Proof. apply existsb_app. Qed.
Lemma ended_app q1 q2 : ended (q1 ++ q2) = ended q1 || ended q2.
Proof. apply existsb_app. Qed.

Lemma opened_tail_app q f : opened (tail q) = false -> is_open f = false -> opened (tail (q ++ [f])) = false.
Proof. destruct q; simpl; intros H Hf; [done|]. rewrite opened_app, H. simpl. by rewrite Hf. Qed.

(** ** The hub's actions keep it *)

Lemma newTunnel_good id r : good (newTunnel id) [FOpen id r] [].
Proof. by constructor; simpl; try naive_solver; eexists. Qed.

Lemma hub_write_good id b t ds us : good t ds us -> good (hub_write b t) (ds ++ [FData id b]) us.
Proof.
  intros G. destruct G. constructor; simpl in *; rewrite ?opened_app, ?data_of_app; cbn;
    rewrite ?orb_false_r, ?app_nil_r; auto using opened_tail_app.
  - intros H. destruct (g_open0 H) as (? & -> & ? & ?). auto.
  - intros H. destruct (g_served0 H) as (<- & ? & ?). split_and!; try done. unfold box_in; simpl. by rewrite app_assoc.
  - by apply prefix_app_r.
Qed.

(** A read moves bytes within what was received. *)
Lemma Read_keeps sel n s r s' :
  Read sel n s = Some (r, s') ->
  cs_closed s' = cs_closed s /\ cs_dataClosed s' = cs_dataClosed s /\ cs_remoteErr s' = cs_remoteErr s.
Proof. unfold Read. intros H. repeat step_match_in H; by simplify_eq. Qed.

(** Two tunnels that differ only in the bytes between the hub's buffers and its
    reader. *)
Lemma good_same_received t t' ds us :
  good t ds us ->
  tu_registered t' = tu_registered t -> tu_closing t' = tu_closing t -> tu_conn t' = tu_conn t -> tu_served t' = tu_served t ->
  tu_writeFailed t' = tu_writeFailed t -> tu_written t' = tu_written t -> received t' = received t ->
  cs_closed (tu_stream t') = cs_closed (tu_stream t) ->
  cs_dataClosed (tu_stream t') = cs_dataClosed (tu_stream t) ->
  cs_remoteErr (tu_stream t') = cs_remoteErr (tu_stream t) ->
  good t' ds us.
Proof.
  intros G Hr Hcg Hc Hs Hf Hw Hrc Hcl Hd He. destruct G.
  constructor; unfold attached, box_in, box_out, held, pumping in *; rewrite ?Hr, ?Hcg, ?Hc, ?Hs, ?Hf, ?Hw, ?Hrc, ?Hcl, ?Hd, ?He; auto.
Qed.

Lemma hub_read_good sel n r s t ds us :
  Read sel n (tu_stream t) = Some (r, s) ->
  good t ds us -> good (hub_read s (match r with Ok b => b | Err _ => [] end) t) ds us.
Proof.
  intros Hr G. destruct (Read_keeps _ _ _ _ _ Hr) as (? & ? & ?).
  eapply good_same_received; eauto. unfold received. simpl.
  rewrite <- app_assoc. f_equal. symmetry. by eapply Read_fifo.
Qed.

Lemma deadline_good p t ds us : good t ds us -> good (with_stream (set_rDeadline p (tu_stream t)) t) ds us.
Proof. intros G. by eapply good_same_received. Qed.

Lemma close_local_good t ds us : good t ds us -> good (close_local t) ds us.
Proof.
  intros G. destruct G. unfold close_local, Close. destruct (cs_closed (tu_stream t)) eqn:Hc;
    constructor; unfold attached, received in *; simpl in *; rewrite ?Hc in *; simpl; rewrite ?andb_false_r; auto; done.
Qed.

Lemma close_done_good id (sent : bool) t ds us :
  good t ds us -> tu_closing t = true ->
  good (close_done t) (ds ++ if sent then [FClose id ""] else []) us.
Proof.
  intros G Hcg. destruct G. pose proof (g_closing0 Hcg) as Hc.
  assert (Ho : opened (tail (ds ++ if sent then [FClose id ""] else [])) = false)
    by (destruct sent; [by apply opened_tail_app|by rewrite app_nil_r]).
  assert (Hds : data_of (ds ++ if sent then [FClose id ""] else []) = data_of ds)
    by (rewrite data_of_app; destruct sent; cbn; by rewrite app_nil_r).
  assert (Hop : opened (ds ++ if sent then [FClose id ""] else []) = opened ds)
    by (rewrite opened_app; destruct sent; cbn; by rewrite orb_false_r).
  constructor; rewrite ?Hop, ?Hds; unfold attached; simpl; auto; congruence.
Qed.

(** The hub's end is taken out of the registry with an error. *)
Lemma fail_tunnel_good t ds us : good t ds us -> good (fail_tunnel t) ds us.
Proof.
  intros G. unfold fail_tunnel. destruct (tu_registered t) eqn:Hr; [|done]. destruct G.
  constructor; unfold attached; simpl; auto; done.
Qed.

Lemma prefix_of_app_inv (l1 l2 l : bytes) : l1 ++ l2 `prefix_of` l -> l1 `prefix_of` l.
Proof. intros [k ->]. exists (l2 ++ k). by rewrite app_assoc. Qed.

(** Frames from the spoke. *)
Lemma data_frame_good id b s sel t ds us :
  good t ds (FData id b :: us) -> tu_registered t = true -> push sel b (tu_stream t) = Some (Done s) ->
  good (with_stream s t) ds us.
Proof.
  intros G Hr Hp. destruct G. unfold push in Hp.
  assert (Hend : ended us = true -> tu_writeFailed t = false ->
    pumping t = false /\ exists us0 id e, us = us0 ++ [FClose id e] /\ ended us0 = false).
  { intros He Hf. destruct (g_ended0 He Hf) as (? & [|f us0] & i & e & Heq & Hn); [done|].
    simplify_eq/=. eauto 10. }
  assert (Hno : opened ds = false).
  { destruct (opened ds) eqn:Ho; [|done]. by destruct (g_open0 eq_refl) as (_ & _ & ? & _). }
  destruct sel; [destruct (cs_closed (tu_stream t)) eqn:Hc; simplify_eq|done|].
  - constructor; unfold attached in *; simpl in *; rewrite ?Hc, ?andb_false_r, ?Hno in *; simpl; auto; congruence.
  - destruct (cs_dataClosed (tu_stream t)) eqn:Hd; [done|]. case_match; simplify_eq.
    assert (Hcl : cs_closed (tu_stream t) = false) by (destruct (cs_closed (tu_stream t)); [by specialize (g_closed0 eq_refl)|done]).
    assert (Hat : attached t = true) by (unfold attached; by rewrite Hr, Hcl).
    assert (Hrec : received (with_stream (with_data (tu_stream t) (cs_dataCh (tu_stream t) ++ [b])) t) = received t ++ b).
    { unfold received. simpl. rewrite concat_app. cbn. by rewrite app_nil_r, <- !app_assoc. }
    constructor; rewrite ?Hrec; auto; simpl in *; try congruence; rewrite ?Hno; try done.
    + intros _. specialize (g_up0 Hat). unfold data_of in g_up0. cbn in g_up0. by rewrite <- !app_assoc in *.
    + specialize (g_up0 Hat). unfold data_of in g_up0. cbn in g_up0. rewrite app_assoc in g_up0.
      rewrite <- !app_assoc, app_assoc in g_up0.  by apply prefix_of_app_inv in g_up0.
    + intros _ Hf Hor. transitivity (box_out t); [|done]. rewrite <- (g_eq0 Hat Hf Hor). unfold data_of. cbn. by rewrite <- !app_assoc.
Qed.

Lemma ignored_frame_good f t ds us :
  good t ds (f :: us) -> tu_registered t = false \/ (f_data f = [] /\ is_close f = false) -> good t ds us.
Proof.
  intros G Hr. destruct G.
  assert (Hd : attached t = true -> data_of (f :: us) = data_of us /\ ended (f :: us) = ended us).
  { unfold attached, data_of. intros Ha. destruct Hr as [Hr|[H1 H2]]; [by rewrite Hr in Ha|].
    cbn. by rewrite H1, H2. }
  constructor; auto.
  - intros Ho. by destruct (g_open0 Ho) as (_ & _ & ? & _).
  - intros Ha. destruct (Hd Ha) as [<- _]. auto.
  - intros Ha Hf Hor. destruct (Hd Ha) as [<- He]. rewrite <- He in Hor. auto.
  - intros He Hf. destruct g_ended0 as (? & [|f' us0] & i & e & Heq & Hn); [by simpl; rewrite He, orb_true_r|done|..].
    + by simplify_eq/=.
    + simplify_eq/=. destruct (is_close _); simplify_eq/=. eauto 10.
Qed.

Lemma close_frame_good id e t ds us : good t ds (FClose id e :: us) -> good (remote_close e t) ds us.
Proof.
  intros G. unfold remote_close. destruct (tu_registered t) eqn:Hr; [|by eapply ignored_frame_good; [|left]].
  destruct G. simpl in *.
  assert (Hno : opened ds = false).
  { destruct (opened ds) eqn:Ho; [|done]. by destruct (g_open0 eq_refl) as (_ & _ & ? & _). }
  assert (Hlast : tu_writeFailed t = false -> us = [] /\ pumping t = false).
  { intros Hf. destruct (g_ended0 eq_refl Hf) as (? & [|f us0] & i & e' & Heq & Hn); by simplify_eq/=. }
  constructor; unfold attached; simpl; auto; rewrite ?Hno; try done.
  - by destruct (String.eqb e "").
  - intros He Hf. destruct (Hlast Hf) as [-> _]. done.
  - intros _ Hc He Hf. destruct (Hlast Hf) as [-> Hp]. split_and!; try done.
    assert (Hat : attached t = true) by (unfold attached; by rewrite Hr, Hc).
    specialize (g_eq0 Hat Hf (or_intror eq_refl)). unfold received, box_out in *. simpl. rewrite <- g_eq0.
    assert (Hh : held t = []).
    { unfold held, pumping in *. destruct (tu_conn t) as [[? ? [|] [|]]|]; done. }
    rewrite Hh. cbn. by rewrite !app_nil_r.
Qed.

(** ** The spoke's actions keep it *)

(** A frame the spoke ignores. *)
Lemma drop_frame_good f t ds us :
  good t (f :: ds) us -> is_open f = false -> f_data f = [] \/ tu_served t = false -> good t ds us.
Proof.
  intros G Hf Hd. destruct G. simpl in *. constructor; auto.
  - destruct ds as [|f' ds]; [done|]. simpl in *. by destruct (is_open f').
  - congruence.
  - intros Hs. destruct Hd as [Hd|]; [|congruence]. destruct (g_served0 Hs) as (He & ? & ?). split_and!; try done.
    rewrite <- He. unfold data_of. cbn. by rewrite Hd.
  - intros ? ? ? ?. destruct g_clean0 as (? & ? & ?); auto.
Qed.

Lemma open_done_good id r t ds us : good t (FOpen id r :: ds) us -> good (newServerStream t) ds us.
Proof.
  intros G. destruct G. destruct (g_open0 eq_refl) as (Hc & Hd & -> & Hw). simpl in *.
  unfold received, box_in, box_out, held, pumping, attached in *. rewrite Hc in *.
  apply prefix_nil_inv in g_out0.
  constructor; unfold received, box_in, box_out, held, pumping, attached; simpl; rewrite ?g_out0; auto.
  - destruct ds; [done|]. simpl in *. by destruct (is_open _).
  - congruence.
  - done.
  - intros H1 H2 H3 H4. by destruct (g_clean0 H1 H2 H3 H4) as (? & ? & ?).
Qed.

Lemma open_fails_good id r e t ds us : good t (FOpen id r :: ds) us -> good t ds (us ++ [FClose id e]).
Proof.
  intros G. destruct G. destruct (g_open0 eq_refl) as (Hc & Hd & -> & Hw). simpl in *.
  assert (Hp : pumping t = false) by (unfold pumping; by rewrite Hc).
  assert (Hh : held t = [] /\ box_out t = []) by (unfold held, box_out; by rewrite Hc). destruct Hh as [Hh Ho].
  rewrite Ho, Hh in *. apply prefix_nil_inv in g_out0. rewrite g_out0 in *.
  constructor; rewrite ?Hh, ?Ho, ?g_out0; auto.
  - destruct ds; [done|]. simpl in *. by destruct (is_open _).
  - congruence.
  - intros Hs. rewrite g_conn0, Hc in Hs. done.
  - intros _ _. split; [done|]. by exists [], id, e.
Qed.

(** What [teardown] does to the observations. *)
Lemma teardown_obs t :
  box_in (teardown t) = box_in t /\ box_out (teardown t) = box_out t /\ held (teardown t) = held t /\
  tu_stream (teardown t) = tu_stream t /\ tu_closing (teardown t) = tu_closing t /\
  tu_registered (teardown t) = tu_registered t /\
  tu_read (teardown t) = tu_read t /\ tu_written (teardown t) = tu_written t /\
  tu_writeFailed (teardown t) = tu_writeFailed t /\ (pumping (teardown t) = true -> pumping t = true).
Proof.
  unfold teardown, box_in, box_out, held, pumping. destruct (tu_conn t) as [[]|] eqn:Hc; simpl; rewrite ?Hc; split_and!; try done.
  destruct bc_closed0; auto.
Qed.

Lemma teardown_good t ds us : good t ds us -> good (teardown t) ds us.
Proof.
  intros G. destruct (teardown_obs t) as (Hi & Ho & Hh & Hs & Hcg & Hr & Hrd & Hw & Hf & Hp).
  assert (Hrc : received (teardown t) = received t) by (unfold received; by rewrite Hrd, Hs).
  assert (Hat : attached (teardown t) = attached t) by (unfold attached; by rewrite Hr, Hs).
  assert (Hc : tu_served t = false -> tu_conn t = None -> teardown t = t) by (unfold teardown; intros _ ->; done).
  assert (Hns : tu_served (teardown t) = match tu_conn (teardown t) with Some c => negb (bc_closed c) | None => false end).
  { destruct G. unfold teardown in *. destruct (tu_conn t) eqn:Hcc; [done|]. by rewrite Hcc. }
  assert (Hsv : tu_served (teardown t) = false).
  { destruct G. unfold teardown in *. destruct (tu_conn t) eqn:Hcc; [done|]. by rewrite g_conn0. }
  destruct G. constructor; rewrite ?Hcg, ?Hi, ?Ho, ?Hh, ?Hs, ?Hr, ?Hw, ?Hf, ?Hrc, ?Hat, ?Hsv in *; auto; try done.
  - intros H. destruct (g_open0 H) as (H0 & ?). split; [|done]. rewrite Hc; auto. rewrite g_conn0. by rewrite H0.
  - intros ? ? [?|?]; auto.
  - intros ? ?. destruct g_ended0 as [Hpp ?]; auto. split; [|done].
    destruct (pumping (teardown t)); [|done]. by rewrite Hp in Hpp.
  - intros ? ? ? ?. destruct g_clean0 as (? & Hpp & ?); auto. split_and!; auto.
    destruct (pumping (teardown t)); [|done]. by rewrite Hp in Hpp.
Qed.

Lemma served_conn t ds us :
  good t ds us -> tu_served t = true -> exists i o ch, tu_conn t = Some (MkConn i o ch false).
Proof. intros G Hs. destruct G. rewrite Hs in g_conn0. destruct (tu_conn t) as [[? ? ? []]|]; try done. eauto. Qed.

Lemma writeInbound_good id wrote b t ds us t' (notify : bool) :
  good t (FData id b :: ds) us -> tu_served t = true -> writeInbound wrote b t = (t', notify) ->
  good t' ds (us ++ if notify then [FClose id ""] else []).
Proof.
  intros G Hs Hw. destruct (served_conn _ _ _ G Hs) as (i & o & ch & Hc).
  destruct G. destruct (g_served0 Hs) as (Hin & Hf & Ho). simpl in g_tail0, Ho. cbn in Hin.
  unfold writeInbound in Hw. rewrite Hc in Hw.
  assert (Htl : opened (tail ds) = false) by (destruct ds; [done|]; simpl in *; by destruct (is_open _)).
  unfold box_in in Hin. rewrite Hc in Hin. simpl in Hin.
  unfold received, box_in, box_out, held, pumping, attached in *. rewrite Hc in *. simpl in *.
  destruct wrote as [k|]; simplify_eq/=;
    (constructor; unfold received, box_in, box_out, held, pumping, attached; simpl; rewrite ?app_nil_r; auto; try congruence).
  - rewrite <- Hin. exists (drop k b ++ data_of ds). rewrite <- !app_assoc. f_equal. rewrite !app_assoc. by rewrite take_drop.
  - intros Ha. rewrite data_of_app. cbn. rewrite app_nil_r. auto.
  - intros _. rewrite <- Hin. split_and!; try done. by rewrite <- app_assoc.
  - rewrite <- Hin. exists (data_of ds). by rewrite <- app_assoc.
Qed.

(** The pump runs on a tunnel in the open or with a chunk in hand. *)
Lemma pump_read_good b t ds us t' : good t ds us -> pump_read b t = Some t' -> good t' ds us.
Proof.
  intros G Hp. unfold pump_read in Hp. destruct (tu_conn t) as [[i o [|] []]|] eqn:Hc; simplify_eq.
  destruct G. unfold received, box_in, box_out, held, pumping, attached in *. rewrite Hc in *. simpl in *.
  destruct (g_served0 g_conn0) as (Hin & Hf & Ho).
  constructor; unfold received, box_in, box_out, held, pumping, attached; simpl; auto; try congruence.
  - intros Ha. specialize (g_eq0 Ha Hf (or_introl eq_refl)). rewrite app_nil_r in g_eq0. by rewrite <- g_eq0, !app_assoc.
  - by apply prefix_app_r.
  - intros Ha _ _. specialize (g_eq0 Ha Hf (or_introl eq_refl)). rewrite app_nil_r in g_eq0. by rewrite <- g_eq0, !app_assoc.
  - intros H1 H2 H3 H4. by destruct (g_clean0 H1 H2 H3 H4) as (_ & ? & _).
Qed.

Lemma pump_send_good id b t ds us t' :
  good t ds us -> pump_sent t = Some (t', b) -> good t' ds (us ++ [FData id b]) /\ good (teardown t') ds us.
Proof.
  intros G Hp. unfold pump_sent in Hp. destruct (tu_conn t) as [[i o [ch|] cl]|] eqn:Hc; simplify_eq.
  assert (Hno : opened ds = false).
  { destruct G. destruct (opened ds) eqn:Hop; [|done]. destruct (g_open0 eq_refl) as (? & _). congruence. }
  destruct G. unfold received, box_in, box_out, held, pumping, attached, teardown in *. rewrite Hc in *. simpl in *.
  rewrite orb_true_r in *. rewrite Hno in *.
  split; constructor; unfold received, box_in, box_out, held, pumping, attached; simpl;
    rewrite ?data_of_app, ?ended_app, ?app_nil_r, ?orb_false_r, ?Hno; cbn; rewrite ?app_nil_r, ?orb_false_r; auto; try done.
  - intros H1 H2. by destruct (g_ended0 H1 H2) as [? _].
  - intros H1 H2 H3 H4. by destruct (g_clean0 H1 H2 H3 H4) as (_ & ? & _).
  - intros Ha. eapply prefix_of_app_inv. rewrite <- app_assoc. eauto.
  - intros Ha Hf [|H]; [done|]. by destruct (g_ended0 H Hf) as [? _].
  - intros H1 H2. by destruct (g_ended0 H1 H2) as [? _].
  - intros H1 H2 H3 H4. by destruct (g_clean0 H1 H2 H3 H4) as (_ & ? & _).
Qed.

Lemma pump_ends_good id t ds us t' : good t ds us -> pump_ends t = Some t' -> good t' ds (us ++ [FClose id ""]).
Proof.
  intros G Hp. unfold pump_ends in Hp. destruct (tu_conn t) as [[i o [|] []]|] eqn:Hc; simplify_eq.
  destruct G. unfold received, box_in, box_out, held, pumping, attached, teardown in *. rewrite Hc in *. simpl in *.
  destruct (g_served0 g_conn0) as (Hin & Hf & Ho). rewrite Ho in *.
  constructor; unfold received, box_in, box_out, held, pumping, attached; simpl;
    rewrite ?data_of_app, ?ended_app, ?app_nil_r, ?Ho; cbn; rewrite ?app_nil_r; auto; try done.
  - intros Ha. specialize (g_up0 Ha). by rewrite app_nil_r in g_up0.
  - intros Ha _ _. specialize (g_eq0 Ha Hf (or_introl eq_refl)). by rewrite app_nil_r in g_eq0.
  - intros _ _. split; [done|]. exists us, id, "". split; [done|].
    destruct (ended us) eqn:He; [|done]. by destruct (g_ended0 eq_refl Hf) as [? _].
  - intros H1 H2 H3 H4. by destruct (g_clean0 H1 H2 H3 H4) as (_ & ? & _).
Qed.

(** ** The whole connection *)

(** Every frame is of a known tunnel, ids are fresh, and every tunnel is good. *)
Record inv (st : tunnels) : Prop := MkInv {
  i_known : Forall (fun f => is_Some (tn_tunnels st !! fid f)) (tn_down st ++ tn_up st);
  i_fresh : forall id t, tn_tunnels st !! id = Some t -> id <= tn_next st;
  i_good : forall id t, tn_tunnels st !! id = Some t -> good t (frames_of id (tn_down st)) (frames_of id (tn_up st));
}.

Lemma frames_of_app id q1 q2 : frames_of id (q1 ++ q2) = frames_of id q1 ++ frames_of id q2.
Proof. apply filter_app. Qed.
Lemma frames_of_cons id f q : frames_of id (f :: q) = if decide (fid f = id) then f :: frames_of id q else frames_of id q.
Proof. unfold frames_of. rewrite filter_cons. done. Qed.
Lemma frames_of_none id q : Forall (fun f => fid f <> id) q -> frames_of id q = [].
Proof. induction 1; [done|]. rewrite frames_of_cons. by rewrite decide_False. Qed.

(** A change of one tunnel and of its own frames. *)
Lemma inv_update st st' id t :
  inv st -> tn_tunnels st' = <[id := t]> (tn_tunnels st) -> tn_next st <= tn_next st' -> id <= tn_next st' ->
  (forall id', id' <> id -> frames_of id' (tn_down st') = frames_of id' (tn_down st) /\
                           frames_of id' (tn_up st') = frames_of id' (tn_up st)) ->
  Forall (fun f => is_Some (tn_tunnels st !! fid f) \/ fid f = id) (tn_down st' ++ tn_up st') ->
  good t (frames_of id (tn_down st')) (frames_of id (tn_up st')) -> inv st'.
Proof.
  intros [Hk Hf Hg] Ht Hn Hid Hfr Hall Hgood. split; rewrite Ht.
  - eapply Forall_impl; [exact Hall|]. intros f Hfk. destruct (decide (fid f = id)) as [->|]; [rewrite lookup_insert_eq; eauto|].
    rewrite lookup_insert_ne by done. by destruct Hfk.
  - intros id' t' Hl. destruct (decide (id' = id)) as [->|]; [done|]. rewrite lookup_insert_ne in Hl by done.
    etrans; [by eapply Hf|done].
  - intros id' t' Hl. destruct (decide (id' = id)) as [->|Hne].
    + rewrite lookup_insert_eq in Hl. by simplify_eq.
    + rewrite lookup_insert_ne in Hl by done. destruct (Hfr id' Hne) as [-> ->]. auto.
Qed.

(** Frames a side appends or consumes for tunnel [id]. *)
Lemma frames_of_other id f (sent : bool) q :
  fid f <> id -> frames_of id (q ++ if sent then [f] else []) = frames_of id q.
Proof.
  intros Hf. rewrite frames_of_app. destruct sent; [|by rewrite app_nil_r].
  rewrite frames_of_cons, decide_False by done. by rewrite app_nil_r.
Qed.
Lemma frames_of_own id f (sent : bool) q :
  fid f = id -> frames_of id (q ++ if sent then [f] else []) = frames_of id q ++ if sent then [f] else [].
Proof. intros Hf. rewrite frames_of_app. destruct sent; [|done]. by rewrite frames_of_cons, decide_True. Qed.

Lemma known_sent st id (sent : bool) f :
  fid f = id -> Forall (fun f => is_Some (tn_tunnels st !! fid f) \/ fid f = id) (if sent then [f] else []).
Proof. intros Hf. destruct sent; [|done]. apply Forall_singleton. by right. Qed.
Lemma known_weaken st id q :
  Forall (fun f => is_Some (tn_tunnels st !! fid f)) q ->
  Forall (fun f => is_Some (tn_tunnels st !! fid f) \/ fid f = id) q.
Proof. intros H. eapply Forall_impl; [exact H|]. by left. Qed.

Lemma inv_put_send st id t t' (sd su : bool) fd fu :
  inv st -> tn_tunnels st !! id = Some t -> fid fd = id -> fid fu = id ->
  good t' (frames_of id (tn_down st) ++ if sd then [fd] else []) (frames_of id (tn_up st) ++ if su then [fu] else []) ->
  inv (send_down sd fd (send_up su fu (put id t' st))).
Proof.
  intros I Hl Hd Hu Hg. pose proof I as [Hk Hf _].
  eapply inv_update with (st := st) (id := id) (t := t'); simpl; try done; [by eapply Hf| | |].
  - intros id' Hne. by rewrite !frames_of_other by congruence.
  - apply Forall_app in Hk as [Hk1 Hk2]. rewrite !Forall_app. split_and!; auto using known_sent, known_weaken.
  - by rewrite !frames_of_own by done.
Qed.

Lemma send_nothing_down f st : send_down false f st = st.
Proof. unfold send_down. rewrite app_nil_r. by destruct st. Qed.
Lemma send_nothing_up f st : send_up false f st = st.
Proof. unfold send_up. rewrite app_nil_r. by destruct st. Qed.

Lemma inv_put st id t t' :
  inv st -> tn_tunnels st !! id = Some t -> good t' (frames_of id (tn_down st)) (frames_of id (tn_up st)) ->
  inv (put id t' st).
Proof.
  intros I Hl Hg. rewrite <- (send_nothing_down (FClose id "")), <- (send_nothing_up (FClose id "")).
  eapply inv_put_send; try done. by rewrite !app_nil_r.
Qed.
Lemma inv_put_down st id t t' (sent : bool) f :
  inv st -> tn_tunnels st !! id = Some t -> fid f = id ->
  good t' (frames_of id (tn_down st) ++ if sent then [f] else []) (frames_of id (tn_up st)) ->
  inv (send_down sent f (put id t' st)).
Proof.
  intros I Hl Hf Hg. rewrite <- (send_nothing_up f (put id t' st)).
  eapply inv_put_send; try done. by rewrite app_nil_r.
Qed.
Lemma inv_put_up st id t t' (sent : bool) f :
  inv st -> tn_tunnels st !! id = Some t -> fid f = id ->
  good t' (frames_of id (tn_down st)) (frames_of id (tn_up st) ++ if sent then [f] else []) ->
  inv (send_up sent f (put id t' st)).
Proof.
  intros I Hl Hf Hg. rewrite <- (send_nothing_down f (send_up sent f (put id t' st))).
  eapply inv_put_send; try done. by rewrite app_nil_r.
Qed.

(** A consumed frame, possibly answered upwards. *)
Lemma inv_pop_down st f q t t' (sent : bool) g :
  inv st -> tn_down st = f :: q -> tn_tunnels st !! fid f = Some t -> fid g = fid f ->
  (good t (f :: frames_of (fid f) q) (frames_of (fid f) (tn_up st)) ->
   good t' (frames_of (fid f) q) (frames_of (fid f) (tn_up st) ++ if sent then [g] else [])) ->
  inv (send_up sent g (put (fid f) t' (set_down q st))).
Proof.
  intros I Hq Hl Hgf Hg. pose proof I as [Hk Hfr Hgood]. specialize (Hgood _ _ Hl). rewrite Hq in *.
  rewrite frames_of_cons, decide_True in Hgood by done.
  eapply inv_update with (st := st) (id := fid f) (t := t'); simpl; try done; [by eapply Hfr| | |].
  - intros id' Hne. rewrite frames_of_other, Hq, frames_of_cons, decide_False by congruence. done.
  - apply Forall_app in Hk as [Hk1 Hk2]. apply Forall_cons in Hk1 as [_ Hk1]. rewrite !Forall_app. split_and!; auto using known_sent, known_weaken.
  - rewrite frames_of_own by done. auto.
Qed.

Lemma inv_pop_up st f q t t' :
  inv st -> tn_up st = f :: q -> tn_tunnels st !! fid f = Some t ->
  (good t (frames_of (fid f) (tn_down st)) (f :: frames_of (fid f) q) ->
   good t' (frames_of (fid f) (tn_down st)) (frames_of (fid f) q)) ->
  inv (put (fid f) t' (set_up q st)).
Proof.
  intros I Hq Hl Hg. pose proof I as [Hk Hfr Hgood]. specialize (Hgood _ _ Hl). rewrite Hq in *.
  rewrite frames_of_cons, decide_True in Hgood by done.
  eapply inv_update with (st := st) (id := fid f) (t := t'); simpl; try done; [by eapply Hfr| | |auto].
  - intros id' Hne. rewrite Hq, frames_of_cons, decide_False by congruence. done.
  - apply Forall_app in Hk as [Hk1 Hk2]. apply Forall_cons in Hk2 as [_ Hk2]. rewrite !Forall_app.
    auto using known_weaken.
Qed.

Lemma put_same st id t : tn_tunnels st !! id = Some t -> put id t st = st.
Proof. intros H. unfold put. rewrite insert_id by done. by destruct st. Qed.

Lemma openStream_inv req sent st st' : inv st -> openStream req sent st = Some st' -> inv st'.
Proof.
  intros I Ho. unfold openStream in Ho. destruct (tn_closed st); [done|]. pose proof I as [Hk Hf Hg].
  assert (Hnew : tn_tunnels st !! (tn_next st + 1) = None).
  { destruct (_ !! _) as [t|] eqn:Hl; [|done]. apply Hf in Hl. lia. }
  destruct sent; simplify_eq; [|split; simpl; auto; intros id t Hl; apply Hf in Hl; lia].
  assert (Hnone : forall q, Forall (fun f => is_Some (tn_tunnels st !! fid f)) q -> frames_of (tn_next st + 1) q = []).
  { intros q Hq. apply frames_of_none. eapply Forall_impl; [exact Hq|]. intros f [t Hl] He. congruence. }
  apply Forall_app in Hk as [Hk1 Hk2].
  eapply inv_update with (st := st) (id := tn_next st + 1); simpl; try done; try lia.
  - intros id' Hne. split; [|done]. by apply (frames_of_other _ _ true).
  - rewrite !Forall_app. split_and!; auto using known_weaken.
  - rewrite (frames_of_own _ _ true), !Hnone by done. apply newTunnel_good.
Qed.

Lemma all_tunnels_inv f closed serving st :
  (forall t ds us, good t ds us -> good (f t) ds us) -> inv st -> inv (all_tunnels f closed serving st).
Proof.
  intros Hf [Hk Hfr Hg]. split; simpl.
  - eapply Forall_impl; [exact Hk|]. intros g [t Hl]. rewrite lookup_fmap, Hl. eauto.
  - intros id t. rewrite lookup_fmap, fmap_Some. intros (t0 & Hl & _). eauto.
  - intros id t. rewrite lookup_fmap, fmap_Some. intros (t0 & Hl & ->). eauto.
Qed.

Lemma hub_recv_inv sel f q st st' : inv st -> tn_up st = f :: q -> hub_recv sel f (set_up q st) = Some st' -> inv st'.
Proof.
  intros I Hq Hr. assert (Hl : is_Some (tn_tunnels st !! fid f)).
  { destruct I as [Hk _ _]. rewrite Hq, Forall_app, Forall_cons in Hk. by destruct Hk as (_ & ? & _). }
  destruct Hl as [t Hl]. assert (Hl' : tn_tunnels (set_up q st) !! fid f = Some t) by done.
  assert (Hsame : (good t (frames_of (fid f) (tn_down st)) (f :: frames_of (fid f) q) ->
                   good t (frames_of (fid f) (tn_down st)) (frames_of (fid f) q)) -> inv (set_up q st)).
  { intros Hg. rewrite <- (put_same _ _ _ Hl'). by eapply inv_pop_up. }
  destruct f as [id req|id b|id e]; simpl in *; rewrite ?Hl in Hr.
  - simplify_eq. apply Hsame. intros G. eapply ignored_frame_good; [done|]. by right.
  - destruct (tu_registered t) eqn:Hreg; [|simplify_eq; apply Hsame; intros G; eapply ignored_frame_good; [done|]; by left].
    destruct (push _ _ _) as [[s|]|] eqn:Hp; simplify_eq.
    eapply (inv_pop_up st (FData id b)); try done. intros G. by eapply data_frame_good.
  - simplify_eq. eapply (inv_pop_up st (FClose id e)); try done. apply close_frame_good.
Qed.

Lemma spoke_recv_inv mgr wrote f q st : inv st -> tn_down st = f :: q -> inv (spoke_recv mgr wrote f (set_down q st)).
Proof.
  intros I Hq. assert (Hl : is_Some (tn_tunnels st !! fid f)).
  { destruct I as [Hk _ _]. rewrite Hq, Forall_app, Forall_cons in Hk. by destruct Hk as ((? & _) & _). }
  destruct Hl as [t Hl]. assert (Hl' : tn_tunnels (set_down q st) !! fid f = Some t) by done.
  assert (Hput : forall t', (good t (f :: frames_of (fid f) q) (frames_of (fid f) (tn_up st)) ->
      good t' (frames_of (fid f) q) (frames_of (fid f) (tn_up st))) -> inv (put (fid f) t' (set_down q st))).
  { intros t' Hg. rewrite <- (send_nothing_up f). eapply inv_pop_down; try done. by rewrite app_nil_r. }
  assert (Hsame : (good t (f :: frames_of (fid f) q) (frames_of (fid f) (tn_up st)) ->
      good t (frames_of (fid f) q) (frames_of (fid f) (tn_up st))) -> inv (set_down q st)).
  { intros Hg. rewrite <- (put_same _ _ _ Hl'). auto. }
  destruct f as [id req|id b|id e]; simpl in *; unfold handleStreamOpen; simpl; rewrite ?Hl.
  - destruct (openStreamTarget mgr req) as [u|e].
    + apply Hput. apply open_done_good.
    + rewrite <- (put_same _ _ _ Hl'). eapply (inv_pop_down st (FOpen id req) q t t true); try done.
      by apply open_fails_good.
  - destruct (tu_served t) eqn:Hs; [|apply Hsame; intros G; by eapply drop_frame_good; [| |right]].
    destruct (writeInbound wrote b t) as [t' notify] eqn:Hw.
    eapply (inv_pop_down st (FData id b)); try done. intros G. by eapply writeInbound_good.
  - destruct (tu_served t) eqn:Hs; [|apply Hsame; intros G; by eapply drop_frame_good; [| |right]].
    apply Hput. intros G. apply teardown_good. by eapply drop_frame_good; [| |left].
Qed.

Lemma step_inv a st st' : inv st -> step a st = Some st' -> inv st'.
Proof.
  intros I Hs. pose proof I as [_ _ Hg].
  destruct a as [box port sent|box cmd cols rows sent|id b|id sel n|id p|id|id sent|sel| |mgr wrote|id b|id sent|id|]; simpl in Hs.
  1-2: by eapply openStream_inv.
  1-5: unfold on_tunnel in Hs; destruct (tn_tunnels st !! id) as [t|] eqn:Hl; [|done]; specialize (Hg _ _ Hl).
  - destruct (chunk b); simplify_eq. eapply (inv_put_down _ _ _ _ true); try done. by apply hub_write_good.
  - destruct (Read sel n (tu_stream t)) as [[r s]|] eqn:Hr; simplify_eq. eapply inv_put; try done. by eapply hub_read_good.
  - simplify_eq. eapply inv_put; try done. by apply deadline_good.
  - simplify_eq. destruct (Close (tu_stream t)).2; [|done]. eapply inv_put; try done. by apply close_local_good.
  - destruct (tu_closing t) eqn:Hc; simplify_eq. eapply inv_put_down; try done. by apply close_done_good.
  - destruct (tn_up st) as [|f q] eqn:Hq; [done|]. destruct (tn_closed st); [done|]. by eapply hub_recv_inv.
  - simplify_eq. destruct (tn_closed st); [done|]. apply all_tunnels_inv; [apply fail_tunnel_good|done].
  - destruct (tn_down st) as [|f q] eqn:Hq; [done|]. destruct (tn_serving st); simplify_eq. by apply spoke_recv_inv.
  - unfold on_tunnel in Hs; destruct (tn_tunnels st !! id) as [t|] eqn:Hl; [|done]; specialize (Hg _ _ Hl).
    destruct (chunk b); [|done]. destruct (pump_read b t) as [t'|] eqn:Hp; simplify_eq. eapply inv_put; try done.
    by eapply pump_read_good.
  - unfold on_tunnel in Hs; destruct (tn_tunnels st !! id) as [t|] eqn:Hl; [|done]; specialize (Hg _ _ Hl).
    destruct (pump_sent t) as [[t' b]|] eqn:Hp; simplify_eq. destruct (pump_send_good id _ _ _ _ _ Hg Hp) as [G1 G2].
    eapply inv_put_up; try done. destruct sent; [done|]. by rewrite app_nil_r.
  - unfold on_tunnel in Hs; destruct (tn_tunnels st !! id) as [t|] eqn:Hl; [|done]; specialize (Hg _ _ Hl).
    destruct (pump_ends t) as [t'|] eqn:Hp; simplify_eq. eapply (inv_put_up _ _ _ _ true); try done.
    by eapply pump_ends_good.
  - simplify_eq. apply all_tunnels_inv; [apply teardown_good|done].
Qed.

Lemma run_inv l st st' : inv st -> run l st = Some st' -> inv st'.
Proof.
  revert st. induction l as [|a l IH]; simpl; intros st I Hr; [by simplify_eq|].
  destruct (step a st) as [st1|] eqn:Hs; [|done]. eauto using step_inv.
Qed.

Lemma no_tunnels_inv : inv no_tunnels.
Proof. split; simpl; [constructor|..]; intros id t; by rewrite lookup_empty. Qed.

(** ** What the two ends can rely on *)

(** C26: a tunnel is a pair of byte pipes.  Whatever the callers, the two read
    loops, the pumps, the boxes and the transport do, and in whatever order: the
    box receives a prefix of the bytes written at the hub, and while the spoke
    serves the tunnel the rest are the frames under way; the hub's caller reads a
    prefix of the bytes the box produced, and while both ends are up the rest are
    in the hub's buffers, under way, or in the pump's hands; the hub's caller sees
    a clean end of file only when it has read all the box produced and the pump is
    finished, unless a write to the box had failed; and the read loop's push never
    meets a closed channel, unless a local close is under way. *)
Theorem tunnel_is_two_pipes : forall l st id t,
  run l no_tunnels = Some st -> tn_tunnels st !! id = Some t ->
  box_in t `prefix_of` tu_written t /\
  (tu_served t = true -> box_in t ++ data_of (frames_of id (tn_down st)) = tu_written t) /\
  tu_read t `prefix_of` box_out t /\
  (attached t = true -> tu_served t = true ->
     tu_read t ++ cs_buf (tu_stream t) ++ concat (cs_dataCh (tu_stream t)) ++
       data_of (frames_of id (tn_up st)) ++ held t = box_out t) /\
  (forall n s, Read SelData n (tu_stream t) = Some (Err EOF, s) ->
     cs_closed (tu_stream t) = false -> tu_writeFailed t = false -> tu_read t = box_out t /\ pumping t = false) /\
  (attached t = true -> forall b, push SelData b (tu_stream t) <> Some Panic).
Proof.
  intros l st id t Hrun Hl. destruct (run_inv _ _ _ no_tunnels_inv Hrun) as [_ _ Hg].
  specialize (Hg _ _ Hl). destruct Hg. split_and!; try done.
  - intros Hs. by destruct (g_served0 Hs).
  - eapply prefix_of_app_inv. exact g_out0.
  - intros Ha Hs. destruct (g_served0 Hs) as (_ & Hf & _).
    assert (Hp : pumping t = true).
    { unfold pumping. rewrite Hs in g_conn0. destruct (tu_conn t) as [[? ? ? []]|]; done. }
    rewrite <- (g_eq0 Ha Hf (or_introl Hp)). unfold received. by rewrite <- !app_assoc.
  - intros n s Hr Hc Hf. unfold Read in Hr. destruct (cs_buf (tu_stream t)) eqn:Hb; [|done].
    destruct (cs_dataCh (tu_stream t)) eqn:Hq; [|done]. destruct (cs_dataClosed (tu_stream t)) eqn:Hd; [|done].
    assert (Hn : cs_remoteErr (tu_stream t) = None).
    { unfold readEndErr in Hr. destruct (cs_remoteErr (tu_stream t)); [|done]. simplify_eq/=. }
    destruct (g_clean0 eq_refl Hc Hn Hf) as (He & Hp & _). split; [|done].
    rewrite <- He. unfold received. rewrite Hb, Hq. simpl. by rewrite app_nil_r.
  - intros Ha b. unfold push. rewrite (g_attached0 Ha). by destruct (Nat.ltb _ _).
Qed.

(** A spoke that opens every target. *)
Definition opens_all : opener := MkOpener (Some (fun _ _ _ _ => Ok ())) (Some (fun _ _ => Ok ())).

(** A request, its answer in two frames, and the end of the box's side. *)
Definition a_session : list action :=
  [ADial "box-1" 8080 true; AWrite 1 ["h"; "i"]%char; ASpokeRecv opens_all None; ASpokeRecv opens_all None;
   ABoxRead 1 ["y"; "o"]%char; ABoxSend 1 true; ABoxRead 1 ["u"]%char; ABoxSend 1 true; AHubRecv SelData;
   ARead 1 SelData 1; ABoxEnd 1; AHubRecv SelData; AHubRecv SelData; ARead 1 SelData 8; ARead 1 SelData 8].

Lemma tunnel_is_two_pipes_witness :
  match run a_session no_tunnels with
  | Some st =>
      match tn_tunnels st !! 1 with
      | Some t =>
          box_in t = ["h"; "i"]%char /\ tu_read t = ["y"; "o"; "u"]%char /\
          fst <$> Read SelData 4 (tu_stream t) = Some (Err EOF) /\ tu_read t = box_out t /\ pumping t = false
      | None => False
      end
  | None => False
  end.
Proof.
  destruct (run a_session no_tunnels) as [st|] eqn:Hr; [|by vm_compute in Hr].
  destruct (tn_tunnels st !! 1) as [t|] eqn:Hl; [|vm_compute in Hr; by simplify_eq].
  pose proof (tunnel_is_two_pipes _ _ _ _ Hr Hl) as (_ & _ & _ & _ & Heof & _).
  assert (Ht : t = default (newTunnel 0) (tn_tunnels (default no_tunnels (run a_session no_tunnels)) !! 1)) by (by rewrite Hr; simpl; rewrite Hl).
  vm_compute in Ht. rewrite Ht in Heof |- *. destruct (Heof 4%nat _ eq_refl eq_refl eq_refl) as [H1 H2].
  split_and!; [reflexivity..|exact H1|exact H2].
Defined.

(** A write to the box that fails ends the tunnel with a close frame without an
    error, and the frame can overtake a chunk the pump is sending: the hub's
    caller then reads a clean end of file although bytes of the box are missing. *)
Definition a_failed_write : list action :=
  [ADial "box-1" 8080 true; AWrite 1 ["h"; "i"]%char; ASpokeRecv opens_all None;
   ABoxRead 1 ["y"; "o"]%char; ASpokeRecv opens_all (Some 1%nat); ABoxSend 1 true; AHubRecv SelData].

Theorem failed_write_reads_as_end_of_file :
  exists st t, run a_failed_write no_tunnels = Some st /\ tn_tunnels st !! 1 = Some t /\
    fst <$> Read SelData 4 (tu_stream t) = Some (Err EOF) /\
    tu_read t = [] /\ box_out t = ["y"; "o"]%char /\ box_in t = ["h"%char] /\ tu_written t = ["h"; "i"]%char.
Proof. do 2 eexists. split; [vm_compute; reflexivity|]. split; [vm_compute; reflexivity|]. by vm_compute. Qed.
