(* ===== verification/GuestProto.v ===== *)
(** * The guest's control protocol (internal/guest/proto.go, pty.go, output.go)

    The messages between a host and the agent inside a box, the length-prefixed
    frames that carry them, and the control messages of a terminal tunnel.  A
    connection is the bytes that are still to be read from it, the bytes written
    to it and how many more it takes.  JSON is a parameter ([Json]) with the law
    that decoding undoes encoding ([JsonLaws]). *)

From S2P Require Import Prelude GoStrings Sandbox.

Local Open Scope Z_scope.
Local Open Scope go_scope.

(** ** Messages *)

Definition verbInit : string := "init".
Definition verbExec : string := "exec".
Definition verbDial : string := "dial".
Definition verbPutFile : string := "putfile".
Definition verbPTY : string := "pty".

(** [json.RawMessage] is its text; an absent payload is empty. *)
Record req := MkReq { rq_Verb : string; rq_Data : string }.
Record resp := MkResp { rs_Err : string; rs_Data : string }.
Record InitReq := MkInitReq {
  ir_Files : list InjectFile; ir_Env : list string; ir_InitScript : string; ir_InitScriptTimeout : Z;
}.
Record InitResp := MkInitResp { ip_ScriptFailed : bool; ip_ScriptError : string; ip_ScriptOutput : string }.
Record execReq := MkExecReq { ex_Cmd : list string }.
Record dialReq := MkDialReq { dr_Port : Z }.
Record ptyReq := MkPtyReq { pt_Cmd : list string; pt_Cols : Z; pt_Rows : Z }.
Record putFileReq := MkPutFileReq { pf_Path : string; pf_Mode : Z; pf_Size : Z }.

(** ** Bytes *)

Definition byte_of (z : Z) : ascii := ascii_of_N (Z.to_N (z mod 256)).
Definition val (c : ascii) : Z := Z.of_N (N_of_ascii c).

Definition slen (s : string) : Z := Z.of_nat (String.length s).

(** [binary.BigEndian]; the 32-bit conversion of a length keeps its low bits. *)
Definition PutUint32 (n : Z) : string :=
  String (byte_of (Z.shiftr n 24)) (String (byte_of (Z.shiftr n 16)) (String (byte_of (Z.shiftr n 8)) (String (byte_of n) ""))).
Definition Uint32 (s : string) : Z :=
  match s with
  | String a (String b (String c (String d _))) =>
      Z.lor (val d) (Z.lor (Z.shiftl (val c) 8) (Z.lor (Z.shiftl (val b) 16) (Z.shiftl (val a) 24)))
  | _ => 0
  end.
Definition PutUint16 (n : Z) : string := String (byte_of (Z.shiftr n 8)) (String (byte_of n) "").
Definition Uint16 (s : string) : Z :=
  match s with
  | String a (String b _) => Z.lor (val b) (Z.shiftl (val a) 8)
  | _ => 0
  end.

(** The first [n] bytes and the rest. *)
Fixpoint split_at (n : nat) (s : string) : option (string * string) :=
  match n, s with
  | O, _ => Some ("", s)
  | S n', String c s' => match split_at n' s' with Some (a, b) => Some (String c a, b) | None => None end
  | S _, "" => None
  end.

(** ** Connections *)

(** [c_room] is the number of bytes the peer still takes before it is gone. *)
Record Conn := MkConn { c_in : string; c_out : string; c_room : option Z }.

Inductive FrameError :=
| ErrEncode | ErrDecode | ErrFrameTooLarge (n : Z) | ErrEOF | ErrWrite.

Definition conn_write (b : string) : go Conn FrameError () := fun c =>
  match c_room c with
  | None => (MkConn (c_in c) (c_out c +:+ b) None, Ok ())
  | Some r =>
      if slen b <=? r then (MkConn (c_in c) (c_out c +:+ b) (Some (r - slen b)), Ok ())
      else (MkConn (c_in c) (c_out c +:+ String.substring 0 (Z.to_nat r) b) (Some 0), Err ErrWrite)
  end.

(** [io.ReadFull]. *)
Definition ReadFull (n : Z) : go Conn FrameError string := fun c =>
  match split_at (Z.to_nat n) (c_in c) with
  | Some (a, b) => (MkConn b (c_out c) (c_room c), Ok a)
  | None => (MkConn "" (c_out c) (c_room c), Err ErrEOF)
  end.

(** ** Frames *)

Class Json (A : Type) := { marshal : A -> option string; unmarshal : string -> option A }.

(** Decoding undoes encoding of the values JSON can carry: [clean] excludes the
    strings that are not UTF-8, which the encoder rewrites. *)
Class JsonLaws (A : Type) `{Json A} := {
  clean : A -> Prop;
  unmarshal_marshal : forall v b, clean v -> marshal v = Some b -> unmarshal b = Some v;
}.

Definition maxFrame : Z := Z.shiftl 16 20.

Definition writeFrame {A} `{Json A} (v : A) : go Conn FrameError () :=
  match marshal v with
  | None => go_fail ErrEncode
  | Some b =>
      if maxFrame <? slen b then go_fail (ErrFrameTooLarge (slen b))
      else
        let* _ := conn_write (PutUint32 (slen b)) in
        conn_write b
  end.

Definition readFrame (A : Type) `{Json A} : go Conn FrameError A :=
  let* hdr := ReadFull 4 in
  let n := Uint32 hdr in
  if maxFrame <? n then go_fail (ErrFrameTooLarge n)
  else
    let* b := ReadFull n in
    match unmarshal b with
    | Some v => go_ret v
    | None => go_fail ErrDecode
    end.

(** ** Output caps *)

Definition maxExecOutput : Z := Z.shiftl 64 10.

Definition truncation_mark : string := String "010" "... [output truncated]".

Definition capOutput (b : string) : string :=
  if slen b <=? maxExecOutput then b
  else String.substring 0 (Z.to_nat maxExecOutput) b +:+ truncation_mark.

(** ** The terminal tunnel *)

Definition ptyMsgData : Z := 0.
Definition ptyMsgResize : Z := 1.
Definition ptyControlHeaderLen : Z := 5.
Definition maxPTYControlPayload : Z := Z.shiftl 1 20.

Definition encodePTYControl (msgType : Z) (payload : string) : string :=
  String (byte_of msgType) (PutUint32 (slen payload) +:+ payload).

Definition encodePTYResize (cols rows : Z) : string :=
  encodePTYControl ptyMsgResize (PutUint16 cols +:+ PutUint16 rows).

Definition EncodePTYInput (b : string) : string := encodePTYControl ptyMsgData b.
Definition EncodePTYResize (cols rows : Z) : string := encodePTYResize cols rows.

(** What the pump does to the terminal. *)
Inductive ptyAction := PtyWrite (b : string) | PtySetsize (cols rows : Z).

(** One message from its type and payload: what to do, or [None] when the
    terminal no longer takes input.  [takes] tells whether it does. *)
Definition applyPTY (takes : list ptyAction -> bool) (msgType : Z) (payload : string) (log : list ptyAction) :
    option (list ptyAction) :=
  if msgType =? ptyMsgData then if takes log then Some (log ++ [PtyWrite payload]) else None
  else if msgType =? ptyMsgResize then
    if slen payload =? 4 then
      Some (log ++ [PtySetsize (Uint16 payload) (Uint16 (String.substring 2 2 payload))])
    else Some log
  else Some log.

(** [pumpPTYInput]; the result is what the terminal has received when the pump
    returns, [None] if the fuel does not suffice. *)
Fixpoint pumpPTYInput (fuel : nat) (takes : list ptyAction -> bool) (c : Conn) (log : list ptyAction) :
    option (Conn * list ptyAction) :=
  match fuel with
  | O => None
  | S fuel' =>
      match ReadFull ptyControlHeaderLen c with
      | (c1, Err _) => Some (c1, log)
      | (c1, Ok hdr) =>
          let msgType := match hdr with String t _ => val t | "" => 0 end in
          let n := match hdr with String _ l => Uint32 l | "" => 0 end in
          if maxPTYControlPayload <? n then Some (c1, log)
          else match ReadFull n c1 with
               | (c2, Err _) => Some (c2, log)
               | (c2, Ok payload) =>
                   match applyPTY takes msgType payload log with
                   | None => Some (c2, log)
                   | Some log' => pumpPTYInput fuel' takes c2 log'
                   end
               end
      end
  end.

(** ** Bytes: lemmas *)

Lemma val_byte_of z : val (byte_of z) = z mod 256.
Proof.
  unfold val, byte_of. pose proof (Z.mod_pos_bound z 256 ltac:(lia)).
  rewrite N_ascii_embedding; [by rewrite Z2N.id by lia|]. apply N2Z.inj_lt. rewrite Z2N.id by lia. simpl. lia.
Qed.

(** Appending a byte to a number. *)
Lemma lor_shiftl_byte a b : 0 <= b < 256 -> Z.lor b (Z.shiftl a 8) = 256 * a + b.
Proof.
  intros Hb. assert (Hd : Z.land b (Z.shiftl a 8) = 0).
  { apply Z.bits_inj'. intros i Hi. rewrite Z.land_spec, Z.bits_0. destruct (Z.ltb_spec i 8) as [Hlt|Hge].
    - by rewrite Z.shiftl_spec_low, andb_false_r by lia.
    - replace b with (b mod 2 ^ 8) by (apply Z.mod_small; lia). by rewrite Z.mod_pow2_bits_high by lia. }
  rewrite <- Z.lxor_lor by done. rewrite <- Z.add_nocarry_lxor by done. rewrite Z.shiftl_mul_pow2 by lia. lia.
Qed.

Lemma shiftl_24 a : Z.shiftl a 24 = Z.shiftl (Z.shiftl (Z.shiftl a 8) 8) 8.
Proof. by rewrite !Z.shiftl_shiftl by lia. Qed.
Lemma shiftl_16 a : Z.shiftl a 16 = Z.shiftl (Z.shiftl a 8) 8.
Proof. by rewrite !Z.shiftl_shiftl by lia. Qed.

Lemma val_range c : 0 <= val c < 256.
Proof. unfold val. pose proof (N_ascii_bounded c). lia. Qed.

Lemma Uint32_value a b c d : Uint32 (String a (String b (String c (String d "")))) =
  256 * (256 * (256 * val a + val b) + val c) + val d.
Proof.
  pose proof (val_range b). pose proof (val_range c). pose proof (val_range d). cbn [Uint32].
  rewrite shiftl_24, shiftl_16, <- !Z.shiftl_lor, !lor_shiftl_byte by done. lia.
Qed.

Lemma Uint32_PutUint32 n : Uint32 (PutUint32 n) = n mod 2 ^ 32.
Proof.
  unfold PutUint32. rewrite Uint32_value, !val_byte_of, !Z.shiftr_div_pow2 by lia.
  replace (n / 2 ^ 24) with (n / 256 / 256 / 256) by (rewrite !Z.div_div by lia; done).
  replace (n / 2 ^ 16) with (n / 256 / 256) by (rewrite !Z.div_div by lia; done).
  change (2 ^ 32) with (256 * (256 * (256 * 256))). rewrite !Z.rem_mul_r by lia. change (2 ^ 8) with 256. ring.
Qed.

Lemma Uint16_PutUint16 n s : Uint16 (PutUint16 n +:+ s) = n mod 2 ^ 16.
Proof.
  unfold PutUint16. rewrite !sapp_cons. cbn [Uint16]. rewrite !val_byte_of, Z.shiftr_div_pow2 by lia.
  rewrite lor_shiftl_byte by (apply Z.mod_pos_bound; lia).
  change (2 ^ 16) with (256 * 256). rewrite Z.rem_mul_r by lia. change (2 ^ 8) with 256. lia.
Qed.

Lemma split_at_app a b : split_at (String.length a) (a +:+ b) = Some (a, b).
Proof. induction a as [|c a IH]; [done|]. rewrite sapp_cons. cbn [String.length split_at]. by rewrite IH. Qed.

Lemma split_at_Some n s a b : split_at n s = Some (a, b) -> s = a +:+ b /\ String.length a = n.
Proof.
  revert s a. induction n as [|n IH]; intros s a; cbn [split_at]; [by intros [= <- <-]|].
  destruct s as [|c s]; [done|]. destruct (split_at n s) as [[x y]|] eqn:Hs; [|done]. intros [= <- <-].
  destruct (IH _ _ Hs) as [-> <-]. done.
Qed.

Lemma split_at_None n s : split_at n s = None -> (String.length s < n)%nat.
Proof.
  revert s. induction n as [|n IH]; intros s; cbn [split_at]; [done|].
  destruct s as [|c s]; [simpl; lia|]. destruct (split_at n s) as [[x y]|] eqn:Hs; [done|]. intros _.
  specialize (IH s Hs). simpl. lia.
Qed.

Lemma slen_app s t : slen (s +:+ t) = slen s + slen t.
Proof. unfold slen. rewrite slength_app. lia. Qed.

Lemma slen_nonneg s : 0 <= slen s.
Proof. unfold slen. lia. Qed.

Lemma ReadFull_app a b out room : ReadFull (slen a) (MkConn (a +:+ b) out room) = (MkConn b out room, Ok a).
Proof. unfold ReadFull, slen. cbn [c_in c_out c_room]. by rewrite Nat2Z.id, split_at_app. Qed.

(** A read takes [n] bytes off the connection, or all that is left. *)
Lemma ReadFull_consumes n c c' r : 0 <= n -> ReadFull n c = (c', r) ->
  c_out c' = c_out c /\ c_room c' = c_room c /\
  exists used, c_in c = used +:+ c_in c' /\ slen used <= n /\ (forall b, r = Ok b -> b = used /\ slen b = n).
Proof.
  unfold ReadFull. intros Hn. destruct (split_at (Z.to_nat n) (c_in c)) as [[a b]|] eqn:Hs.
  - apply split_at_Some in Hs as [He Hl]. intros [= <- <-]. cbn. split_and!; [done..|].
    assert (Ha : slen a = n) by (unfold slen; lia). exists a. split; [done|]. split; [lia|]. by intros ? [= ->].
  - apply split_at_None in Hs. intros [= <- <-]. cbn. split_and!; [done..|]. exists (c_in c). rewrite sapp_nil_r.
    split; [done|]. split; [unfold slen; lia|done].
Qed.

Lemma slen_PutUint32 n : slen (PutUint32 n) = 4.
Proof. done. Qed.

(** What a write adds to the output. *)
Lemma conn_write_spec b c c' r : 0 <= default 0 (c_room c) -> conn_write b c = (c', r) ->
  c_in c' = c_in c /\ 0 <= default 0 (c_room c') /\
  exists w, c_out c' = c_out c +:+ w /\ slen w <= slen b /\ (r = Ok () -> w = b).
Proof.
  unfold conn_write. intros Hr. destruct (c_room c) as [rm|]; cbn in Hr.
  - destruct (Z.leb_spec (slen b) rm) as [Hle|Hgt]; intros [= <- <-]; cbn.
    + split_and!; [done|lia|]. exists b. split; [done|]. split; [lia|done].
    + split_and!; [done|lia|]. eexists. split; [done|]. split; [|done].
      assert (Hl : forall k s, (String.length (String.substring 0 k s) <= String.length s)%nat).
      { induction k as [|k IH]; intros [|x s]; simpl; try lia. specialize (IH s). lia. }
      unfold slen. specialize (Hl (Z.to_nat rm) b). lia.
  - intros [= <- <-]. cbn. split_and!; [done|done|]. exists b. split; [done|]. split; [lia|done].
Qed.

(** ** Frames: theorems *)

Lemma maxFrame_range : 0 <= maxFrame < 2 ^ 32.
Proof. by vm_compute. Qed.

Lemma Uint32_nonneg s : 0 <= Uint32 s.
Proof.
  destruct s as [|h1 [|h2 [|h3 [|h4 h]]]]; try done. cbn [Uint32].
  assert (Hv : forall x k, 0 <= Z.shiftl (val x) k) by (intros x k; apply Z.shiftl_nonneg, val_range).
  repeat (apply Z.lor_nonneg; split); try apply Hv. apply val_range.
Qed.

Section Frames.
Context {A : Type} `{JsonLaws A}.

(** The bytes a successful write puts on the wire. *)
Lemma writeFrame_bytes (v : A) c c' : 0 <= default 0 (c_room c) -> writeFrame v c = (c', Ok ()) ->
  exists b, marshal v = Some b /\ slen b <= maxFrame /\
    c_in c' = c_in c /\ c_out c' = c_out c +:+ (PutUint32 (slen b) +:+ b) /\ 0 <= default 0 (c_room c').
Proof.
  unfold writeFrame. intros Hr. destruct (marshal v) as [b|]; [|done].
  destruct (Z.ltb_spec maxFrame (slen b)) as [|Hle]; [done|]. unfold go_bind.
  destruct (conn_write (PutUint32 (slen b)) c) as [c1 [[]|e]] eqn:H1; [|done]. intros H2.
  destruct (conn_write_spec _ _ _ _ Hr H1) as (Hi1 & Hr1 & w1 & Ho1 & _ & Hw1).
  destruct (conn_write_spec _ _ _ _ Hr1 H2) as (Hi2 & Hr2 & w2 & Ho2 & _ & Hw2).
  exists b. rewrite Hi2, Hi1, Ho2, Ho1, Hw1, Hw2, sapp_assoc by done. done.
Qed.

Lemma readFrame_bytes (v : A) b rest out room : marshal v = Some b -> clean v -> slen b <= maxFrame ->
  readFrame A (MkConn (PutUint32 (slen b) +:+ b +:+ rest) out room) = (MkConn rest out room, Ok v).
Proof.
  intros Hm Hc Hl. unfold readFrame, go_bind. rewrite <- (slen_PutUint32 (slen b)) at 1. rewrite ReadFull_app.
  rewrite Uint32_PutUint32. pose proof (slen_nonneg b). pose proof maxFrame_range. rewrite Z.mod_small by lia.
  destruct (Z.ltb_spec maxFrame (slen b)); [lia|]. rewrite ReadFull_app. by rewrite (unmarshal_marshal v b).
Qed.

(** A frame written to a connection is read back unchanged from its other end,
    whatever follows it there. *)
Theorem frame_roundtrip (v : A) c c' :
  clean v -> 0 <= default 0 (c_room c) -> writeFrame v c = (c', Ok ()) ->
  exists b, c_out c' = c_out c +:+ b /\
    forall rest out room, readFrame A (MkConn (b +:+ rest) out room) = (MkConn rest out room, Ok v).
Proof.
  intros Hc Hr (b & Hm & Hl & _ & Ho & _)%writeFrame_bytes; [|done]. exists (PutUint32 (slen b) +:+ b). split; [done|].
  intros rest out room. rewrite sapp_assoc. by apply readFrame_bytes.
Qed.

Lemma readFrame_bound c c' r : readFrame A c = (c', r) ->
  exists used, c_in c = used +:+ c_in c' /\ slen used <= 4 + maxFrame.
Proof.
  pose proof maxFrame_range as Hmax. unfold readFrame, go_bind. destruct (ReadFull 4 c) as [c3 r3] eqn:H4.
  destruct (ReadFull_consumes 4 c c3 r3 ltac:(lia) H4) as (_ & _ & u & Hu & Hul & _).
  destruct r3 as [hdr|e]; [|intros [= <- <-]; exists u; split; [done|lia]].
  destruct (Z.ltb_spec maxFrame (Uint32 hdr)) as [|Hm]; [intros [= <- <-]; exists u; split; [done|lia]|].
  destruct (ReadFull (Uint32 hdr) c3) as [c4 r4] eqn:H5.
  destruct (ReadFull_consumes _ c3 c4 r4 (Uint32_nonneg hdr) H5) as (_ & _ & u' & Hu' & Hul' & _).
  assert (Hc : c' = c4 -> exists used, c_in c = used +:+ c_in c' /\ slen used <= 4 + maxFrame).
  { intros ->. exists (u +:+ u'). rewrite Hu, Hu', sapp_assoc, slen_app. split; [done|lia]. }
  destruct r4 as [b|e]; [destruct (unmarshal b)|]; intros [= <- <-]; by apply Hc.
Qed.

Lemma writeFrame_bound (v : A) c c' r : 0 <= default 0 (c_room c) -> writeFrame v c = (c', r) ->
  (exists put, c_out c' = c_out c +:+ put /\ slen put <= 4 + maxFrame) /\
  (forall n, r = Err (ErrFrameTooLarge n) -> c' = c /\ maxFrame < n).
Proof.
  intros Hr. pose proof maxFrame_range as Hmax. unfold writeFrame.
  assert (Hz : exists put, c_out c = c_out c +:+ put /\ slen put <= 4 + maxFrame).
  { exists "". rewrite sapp_nil_r. split; [done|change (slen "") with 0; lia]. }
  destruct (marshal v) as [b|]; [|by intros [= <- <-]].
  destruct (Z.ltb_spec maxFrame (slen b)) as [Hm|Hm]; [intros [= <- <-]; split; [done|]; by intros n [= <-]|]. unfold go_bind.
  destruct (conn_write (PutUint32 (slen b)) c) as [c3 r3] eqn:H1.
  destruct (conn_write_spec _ _ _ _ Hr H1) as (_ & Hr3 & w1 & Ho1 & Hl1 & _). rewrite slen_PutUint32 in Hl1.
  destruct r3 as [[]|e]; intros H2.
  - destruct (conn_write_spec _ _ _ _ Hr3 H2) as (_ & _ & w2 & Ho2 & Hl2 & _).
    split; [exists (w1 +:+ w2); rewrite Ho2, Ho1, sapp_assoc, slen_app; split; [done|lia]|].
    intros n ->. unfold conn_write in H2. destruct (c_room c3); [destruct (_ <=? _)|]; by simplify_eq.
  - injection H2 as <- <-. split; [exists w1; split; [done|lia]|].
    intros n [= ->]. unfold conn_write in H1. destruct (c_room c); [destruct (_ <=? _)|]; by simplify_eq.
Qed.

(** Frames are bounded on both sides: reading one takes at most [maxFrame] bytes
    and the prefix off the connection, whatever length the peer announces, and
    writing one puts at most that on the wire, nothing at all if it is too
    large. *)
Theorem frames_are_bounded (v : A) c c1 c2 r1 r2 :
  0 <= default 0 (c_room c) -> readFrame A c = (c1, r1) -> writeFrame v c = (c2, r2) ->
  (exists used, c_in c = used +:+ c_in c1 /\ slen used <= 4 + 16 * 1024 * 1024) /\
  (exists put, c_out c2 = c_out c +:+ put /\ slen put <= 4 + 16 * 1024 * 1024) /\
  (forall n, r2 = Err (ErrFrameTooLarge n) -> c2 = c /\ 16 * 1024 * 1024 < n).
Proof. intros Hr Hread Hwrite. split; [by eapply readFrame_bound|by eapply writeFrame_bound]. Qed.
End Frames.

(** ** The terminal tunnel: theorems *)

(** Messages of a client: keystrokes and resizes. *)
Inductive ptyMsg := Keys (b : string) | Resize (cols rows : Z).

Definition ptyEncode (m : ptyMsg) : string :=
  match m with Keys b => EncodePTYInput b | Resize c r => EncodePTYResize c r end.
Definition ptyAct (m : ptyMsg) : ptyAction :=
  match m with Keys b => PtyWrite b | Resize c r => PtySetsize c r end.
Definition fits (m : ptyMsg) : Prop :=
  match m with Keys b => slen b <= 1024 * 1024 | Resize c r => 0 <= c < 2 ^ 16 /\ 0 <= r < 2 ^ 16 end.

Lemma maxPTY_value : maxPTYControlPayload = 1024 * 1024.
Proof. by vm_compute. Qed.

(** One round of the pump on a framed message. *)
Lemma pump_round fuel takes t payload rest out room log : 0 <= t < 256 -> slen payload <= 1024 * 1024 ->
  pumpPTYInput (S fuel) takes (MkConn (encodePTYControl t payload +:+ rest) out room) log =
  match applyPTY takes t payload log with
  | None => Some (MkConn rest out room, log)
  | Some log' => pumpPTYInput fuel takes (MkConn rest out room) log'
  end.
Proof.
  intros Ht Hl. cbn [pumpPTYInput].
  replace (encodePTYControl t payload +:+ rest) with
    (String (byte_of t) (PutUint32 (slen payload)) +:+ (payload +:+ rest))
    by (unfold encodePTYControl; rewrite !sapp_cons; f_equal; by rewrite !sapp_assoc).
  change ptyControlHeaderLen with (slen (String (byte_of t) (PutUint32 (slen payload)))). rewrite ReadFull_app.
  rewrite Uint32_PutUint32. pose proof (slen_nonneg payload). rewrite Z.mod_small, maxPTY_value by lia.
  destruct (Z.ltb_spec (1024 * 1024) (slen payload)); [lia|]. rewrite ReadFull_app, val_byte_of.
  by rewrite Z.mod_small by lia.
Qed.

Lemma apply_fits takes m log : fits m -> takes log = true ->
  exists t payload, ptyEncode m = encodePTYControl t payload /\ 0 <= t < 256 /\ slen payload <= 1024 * 1024 /\
    applyPTY takes t payload log = Some (log ++ [ptyAct m]).
Proof.
  intros Hf Ht. destruct m as [b|c r]; cbn [fits] in Hf.
  - exists ptyMsgData, b. split_and!; [done..|]. unfold applyPTY. cbn. by rewrite Ht.
  - exists ptyMsgResize, (PutUint16 c +:+ PutUint16 r). split_and!; [done..|]. unfold applyPTY.
    change (slen (PutUint16 c +:+ PutUint16 r) =? 4) with true. cbn [Z.eqb ptyMsgData ptyMsgResize ptyAct].
    change (String.substring 2 2 (PutUint16 c +:+ PutUint16 r)) with (PutUint16 r).
    rewrite <- (sapp_nil_r (PutUint16 r)) at 2. rewrite !Uint16_PutUint16, !Z.mod_small by lia. done.
Qed.

Definition wire (ms : list ptyMsg) : string := foldr (fun m s => ptyEncode m +:+ s) "" ms.

(** What a client types and how it resizes its window reaches the terminal in
    order and unchanged, as long as the terminal takes input: framing and pump are
    inverse. *)
Theorem pty_messages_applied takes ms rest out room log fuel :
  Forall fits ms -> (forall l, takes l = true) ->
  pumpPTYInput (length ms + fuel) takes (MkConn (wire ms +:+ rest) out room) log =
  pumpPTYInput fuel takes (MkConn rest out room) (log ++ (ptyAct <$> ms)).
Proof.
  intros Hf Ht. revert log. induction Hf as [|m ms Hm Hms IH]; intros log.
  - cbn [wire foldr length fmap list_fmap]. by rewrite app_nil_r.
  - destruct (apply_fits takes m log Hm (Ht log)) as (t & payload & He & Hr & Hl & Ha).
    cbn [wire foldr length Nat.add]. fold (wire ms). rewrite He, sapp_assoc, pump_round, Ha, IH by done.
    by rewrite <- app_assoc.
Qed.

(** The pump ends on every input: one round per five bytes suffices, whatever
    the client sends. *)
Theorem pumpPTYInput_terminates takes c log fuel :
  (String.length (c_in c) < fuel)%nat -> exists c' log', pumpPTYInput fuel takes c log = Some (c', log') /\
    exists more, log' = log ++ more /\ 5 * Z.of_nat (length more) <= slen (c_in c).
Proof.
  revert c log. induction fuel as [|fuel IH]; intros c log Hf; [lia|]. cbn [pumpPTYInput].
  assert (Hend : forall c' : Conn, exists c'' log', Some (c', log) = Some (c'', log') /\
    exists more, log' = log ++ more /\ 5 * Z.of_nat (length more) <= slen (c_in c)).
  { intros c'. do 2 eexists. split; [done|]. exists []. rewrite app_nil_r. split; [done|]. unfold slen. simpl. lia. }
  destruct (ReadFull ptyControlHeaderLen c) as [c1 [hdr|]] eqn:H1; [|apply Hend].
  destruct (ReadFull_consumes 5 c c1 (Ok hdr) ltac:(lia) H1) as (_ & _ & u & Hu & _ & Hhdr).
  destruct (Hhdr hdr eq_refl) as [<- Hl].
  set (n := match hdr with String _ l => Uint32 l | "" => 0 end).
  assert (Hn : 0 <= n) by (subst n; destruct hdr; [lia|apply Uint32_nonneg]).
  destruct (_ <? n); [apply Hend|]. destruct (ReadFull n c1) as [c2 [payload|]] eqn:H2; [|apply Hend].
  destruct (ReadFull_consumes n c1 c2 _ Hn H2) as (_ & _ & u2 & Hu2 & _ & _).
  destruct (applyPTY _ _ _ _) as [log'|] eqn:Ha; [|apply Hend].
  assert (Hlen : slen (c_in c) = 5 + slen u2 + slen (c_in c2)) by (rewrite Hu, Hu2, !slen_app; lia).
  pose proof (slen_nonneg u2). destruct (IH c2 log' ltac:(unfold slen in Hlen; lia)) as (c' & l & Hp & more & -> & Hm).
  do 2 eexists. split; [exact Hp|].
  assert (Hstep : exists s, log' = log ++ s /\ (length s <= 1)%nat).
  { revert Ha. unfold applyPTY. repeat destruct (_ =? _); try destruct (takes log); intros [= <-];
      first [by eexists|exists []; rewrite app_nil_r; split; [done|simpl; lia]]. }
  destruct Hstep as (s & -> & Hs). exists (s ++ more). rewrite app_assoc, length_app. split; [done|lia].
Qed.

(** ** A codec

    Any countable type can be put on the wire; enough for concrete runs. *)

Fixpoint bits (p : positive) : string :=
  match p with xH => "" | xO p' => String "0" (bits p') | xI p' => String "1" (bits p') end.
Fixpoint unbits (s : string) : positive :=
  match s with "" => xH | String c s' => if Ascii.eqb c "0" then xO (unbits s') else xI (unbits s') end.

Lemma unbits_bits p : unbits (bits p) = p.
Proof. induction p as [p IH|p IH|]; cbn [bits unbits]; [| |done]; by rewrite IH. Qed.

Module Wire.
#[export] Instance countable_Json {A} `{Countable A} : Json A :=
  {| marshal v := Some (bits (encode v)); unmarshal s := decode (unbits s) |}.

#[export] Instance countable_JsonLaws {A} `{Countable A} : JsonLaws A.
Proof.
  refine {| clean := fun _ => True |}. intros v b _ [= <-]. cbn. by rewrite unbits_bits, decode_encode.
Defined.

#[export] Instance req_eq_dec : EqDecision req.
Proof. solve_decision. Defined.
#[export] Instance req_countable : Countable req :=
  inj_countable' (fun r => (rq_Verb r, rq_Data r)) (fun p => MkReq p.1 p.2) ltac:(by intros []).
#[export] Instance resp_eq_dec : EqDecision resp.
Proof. solve_decision. Defined.
#[export] Instance resp_countable : Countable resp :=
  inj_countable' (fun r => (rs_Err r, rs_Data r)) (fun p => MkResp p.1 p.2) ltac:(by intros []).
#[export] Instance execReq_eq_dec : EqDecision execReq.
Proof. solve_decision. Defined.
#[export] Instance execReq_countable : Countable execReq := inj_countable' ex_Cmd MkExecReq ltac:(by intros []).
#[export] Instance ExecResult_countable : Countable ExecResult :=
  inj_countable' (fun r => (er_Stdout r, er_Stderr r, er_ExitCode r)) (fun p => MkExecResult p.1.1 p.1.2 p.2) ltac:(by intros []).
End Wire.

Section Witnesses.
Import Wire.

Definition idle : Conn := MkConn "" "" None.
Definition a_req : req := MkReq "exec" "ls".

Lemma frame_roundtrip_witness :
  exists b, c_out (writeFrame a_req idle).1 = b /\ readFrame req (MkConn (b +:+ "x") "" None) = (MkConn "x" "" None, Ok a_req).
Proof.
  assert (Hw : writeFrame a_req idle = ((writeFrame a_req idle).1, Ok ())) by (vm_compute; reflexivity).
  assert (Hc : clean a_req) by exact I.
  destruct (frame_roundtrip a_req idle _ Hc ltac:(simpl; lia) Hw) as (b & Hb & Hr).
  exists b. split; [exact Hb|apply Hr].
Defined.

Lemma frames_are_bounded_witness :
  let '(c1, r1) := readFrame req (MkConn (PutUint32 (2 ^ 31)) "" None) in
  r1 = Err (ErrFrameTooLarge (2 ^ 31)) /\ exists used, PutUint32 (2 ^ 31) = used +:+ c_in c1 /\ slen used <= 4 + 16 * 1024 * 1024.
Proof.
  destruct (readFrame req (MkConn (PutUint32 (2 ^ 31)) "" None)) as [c1 r1] eqn:Hr.
  destruct (writeFrame a_req (MkConn (PutUint32 (2 ^ 31)) "" None)) as [c2 r2] eqn:Hw.
  split; [vm_compute in Hr; injection Hr as <- <-; vm_compute; reflexivity|].
  apply (frames_are_bounded a_req (MkConn (PutUint32 (2 ^ 31)) "" None) c1 c2 r1 r2 ltac:(simpl; lia) Hr Hw).
Defined.
End Witnesses.

Lemma pty_messages_applied_witness :
  pumpPTYInput 3 (fun _ => true) (MkConn (wire [Keys "ls"; Resize 80 24]) "" None) [] =
  Some (MkConn "" "" None, [PtyWrite "ls"; PtySetsize 80 24]).
Proof.
  assert (Hf : Forall fits [Keys "ls"; Resize 80 24]) by (repeat constructor; vm_compute; discriminate).
  pose proof (pty_messages_applied (fun _ => true) [Keys "ls"; Resize 80 24] "" "" None [] 1 Hf (fun _ => eq_refl)) as Hp.
  exact Hp.
Defined.

Lemma pumpPTYInput_terminates_witness :
  exists c' log', pumpPTYInput 100 (fun _ => true) (MkConn "\xff\xff\xff\xff\xff" "" None) [] = Some (c', log').
Proof.
  destruct (pumpPTYInput_terminates (fun _ => true) (MkConn "\xff\xff\xff\xff\xff" "" None) [] 100
    ltac:(apply Nat.ltb_lt; vm_compute; reflexivity)) as (c' & log' & Hp & _).
  exists c', log'. exact Hp.
Defined.

(** A message over the pump's limit ends the session: the messages after it are
    never applied. *)
Lemma oversize_ends_session fuel takes b rest out room log : 1024 * 1024 < slen b < 2 ^ 32 ->
  exists c', pumpPTYInput (S fuel) takes (MkConn (EncodePTYInput b +:+ rest) out room) log = Some (c', log).
Proof.
  intros Hb. cbn [pumpPTYInput].
  replace (EncodePTYInput b +:+ rest) with (String (byte_of ptyMsgData) (PutUint32 (slen b)) +:+ (b +:+ rest))
    by (unfold EncodePTYInput, encodePTYControl; rewrite !sapp_cons; f_equal; by rewrite !sapp_assoc).
  change ptyControlHeaderLen with (slen (String (byte_of ptyMsgData) (PutUint32 (slen b)))). rewrite ReadFull_app.
  rewrite Uint32_PutUint32, Z.mod_small, maxPTY_value by lia.
  destruct (Z.ltb_spec (1024 * 1024) (slen b)); [by eexists|lia].
Qed.
