(* ===== verification/GuestAgent.v ===== *)
(** * The agent inside a box (internal/guest/guest.go, pty.go) and its client (client.go)

    The agent serves framed requests on a control connection: initialise the box
    once, run commands, take in files, open terminals and guest_reach local ports.  Its
    state is the parameters of the initialisation, the files of the box and the
    processes it has started.  What the operating system answers is an argument
    of each operation ([OS]); the client talks to the agent through the bytes of
    a connection. *)

From S2P Require Import Prelude GoStrings Sandbox GuestProto.

Local Open Scope Z_scope.
Local Open Scope go_scope.

(** ** State *)

Record Cred := MkCred { cr_Uid : Z; cr_Gid : Z }.

#[export] Instance Cred_eq_dec : EqDecision Cred.
Proof. solve_decision. Defined.

(** [Guest]; the parameters of [Init] are recorded in it. *)
Record Guest := MkGuest {
  g_home : string;
  g_initScriptPath : string;
  g_cred : option Cred;
  g_initReq : InitReq;
  g_inited : bool;
}.

(** [Options] and [New]; the log is not modelled. *)
Record GuestOptions := MkGuestOptions { go_Home : string; go_InitScriptPath : string; go_Credential : option Cred }.

Definition defaultInitScriptPath : string := "/run/llmbox-init-script".
Definition defaultInitScriptTimeout : Z := 5 * Minute.
Definition noInit : InitReq := MkInitReq [] [] "" 0.

Definition New (opts : GuestOptions) : Guest :=
  MkGuest (go_Home opts)
    (if String.eqb (go_InitScriptPath opts) "" then defaultInitScriptPath else go_InitScriptPath opts)
    (go_Credential opts) noInit false.

(** A file of the box and a process the agent starts ([exec.Cmd]). *)
Record File := MkFile { f_Content : string; f_Mode : Z; f_Owner : Cred }.
Record Cmd := MkCmd { cm_Args : list string; cm_Env : list string; cm_Dir : string; cm_Cred : option Cred }.

Record World := MkWorld { w_guest : Guest; w_files : gmap string File; w_started : list Cmd }.

Definition set_guest (f : Guest -> Guest) (w : World) : World := MkWorld (f (w_guest w)) (w_files w) (w_started w).
Definition set_files (f : gmap string File -> gmap string File) (w : World) : World :=
  MkWorld (w_guest w) (f (w_files w)) (w_started w).
Definition start (c : Cmd) (w : World) : World := MkWorld (w_guest w) (w_files w) (w_started w ++ [c]).

(** ** Errors *)

Inductive guestError :=
| ErrCreatingDir (path : string) | ErrWriting (path : string) | ErrChmod (path : string) | ErrChown (path : string)
| ErrCreating (path : string) | ErrClosing (path : string)
| ErrAlreadyInit | ErrEmptyCommand | ErrRunning | ErrUnknownVerb (verb : string) | ErrDecoding (what : string)
| ErrEncoding | ErrPortRange (port : Z) | ErrDialing (port : Z) | ErrNotAbsolute (path : string)
| ErrNegativeSize (n : Z) | ErrStartingPTY.

(** The literal start of each message. *)
Definition errHead (e : guestError) : string :=
  match e with
  | ErrCreatingDir p => "creating dir for " +:+ p +:+ ": "
  | ErrWriting p => "writing " +:+ p +:+ ": "
  | ErrChmod p => "chmod " +:+ p +:+ ": "
  | ErrChown p => "chown " +:+ p +:+ ": "
  | ErrCreating p => "creating " +:+ p +:+ ": "
  | ErrClosing p => "closing " +:+ p +:+ ": "
  | ErrAlreadyInit => "already initialised"
  | ErrEmptyCommand => "empty command"
  | ErrRunning => "running command: "
  | ErrUnknownVerb _ => "unknown verb "
  | ErrDecoding what => "decoding " +:+ what +:+ ": "
  | ErrEncoding => "json: "
  | ErrPortRange p => "port " +:+ Itoa p +:+ " out of range"
  | ErrDialing p => "dialing localhost:" +:+ Itoa p +:+ ": "
  | ErrNotAbsolute _ => "putfile path "
  | ErrNegativeSize n => "putfile size " +:+ Itoa n +:+ " is negative"
  | ErrStartingPTY => "starting pty: "
  end.

(** ** The operating system *)

(** How a process ended: [Exited 0] is a nil error, another code an
    [exec.ExitError] with its text; [NotRun] is any other error. *)
Inductive RunStatus := Exited (code : Z) (text : string) | NotRun (text : string).
Record RunResult := MkRunResult { rr_Stdout : string; rr_Stderr : string; rr_Both : string; rr_Status : RunStatus }.

Record OS := MkOS {
  os_self : Cred;                                (** the agent's own user *)
  os_umask : Z;
  os_getenv : string -> string;
  os_environ : list string;                      (** [os.Environ] *)
  os_lookPath : string -> option string;
  os_mkdir : string -> bool;                     (** [MkdirAll] of the directory of a path *)
  os_open : string -> bool;
  os_put : string -> string -> option string;    (** what a failing write leaves of the content *)
  os_close : string -> bool;
  os_chmod : string -> bool;
  os_chown : string -> bool;
  os_run : Cmd -> RunResult;
  os_expired : Cmd -> Z -> bool;                 (** the timeout passed while the command ran *)
  os_dial : Z -> bool;
  os_pty : Cmd -> Z -> Z -> bool;
  os_text : guestError -> string;                (** the rest of a message *)
  os_duration : Z -> string;                     (** [time.Duration.String] *)
}.

Definition errText (os : OS) (e : guestError) : string := errHead e +:+ os_text os e.

(** ** Environments *)

Definition hasEnvKey (env : list string) (key : string) : bool :=
  existsb (fun e => HasPrefix e (key +:+ "=")) env.

Fixpoint homeFromEnv (env : list string) : string :=
  match env with
  | [] => ""
  | e :: env' => match CutPrefix e "HOME=" with Some v => v | None => homeFromEnv env' end
  end.

Definition entryEnv (os : OS) (g : Guest) : list string :=
  let env := ir_Env (g_initReq g) in
  let env :=
    if hasEnvKey env "HOME" then env
    else
      let home := if String.eqb (g_home g) "" then os_getenv os "HOME" else g_home g in
      if String.eqb home "" then env else env ++ ["HOME=" +:+ home] in
  if hasEnvKey env "PATH" then env
  else
    let p := os_getenv os "PATH" in
    if String.eqb p "" then env else env ++ ["PATH=" +:+ p].

(** What [exec.Cmd] makes of its [Env]: [entryEnv] returns a nil slice when there is
    nothing in it, and a nil [Env] stands for the agent's own environment. *)
Definition processEnv (os : OS) (env : list string) : list string :=
  match env with [] => os_environ os | _ => env end.

(** ** Files *)

Definition fileMode (mode : Z) : Z :=
  let m := mode mod 2 ^ 32 in if m =? 0 then 420 else m.

(** Creating or truncating a file and writing [content]: a new file belongs to
    the agent and has its mode narrowed, an old one keeps both. *)
Definition put (os : OS) (path content : string) (mode : Z) : World -> World :=
  set_files (fun fs => <[path := match fs !! path with
                                 | Some f => MkFile content (f_Mode f) (f_Owner f)
                                 | None => MkFile content (Z.ldiff mode (os_umask os)) (os_self os)
                                 end]> fs).
Definition chmod (path : string) (mode : Z) : World -> World :=
  set_files (alter (fun f => MkFile (f_Content f) mode (f_Owner f)) path).
Definition chown (path : string) (o : Cred) : World -> World :=
  set_files (alter (fun f => MkFile (f_Content f) (f_Mode f) o) path).

Definition writeInjectFile (os : OS) (f : InjectFile) : go World guestError () := fun w =>
  let path := if_Path f in
  if negb (os_mkdir os path) then (w, Err (ErrCreatingDir path))
  else
    let mode := fileMode (if_Mode f) in
    if negb (os_open os path) then (w, Err (ErrWriting path))
    else match os_put os path (if_Content f) with
    | Some left_ => (put os path left_ mode w, Err (ErrWriting path))
    | None =>
        let w1 := put os path (if_Content f) mode w in
        if negb (os_chmod os path) then (w1, Err (ErrChmod path))
        else
          let w2 := chmod path mode w1 in
          if negb (if_UID f =? 0) || negb (if_GID f =? 0) then
            if os_chown os path then (chown path (MkCred (if_UID f) (if_GID f)) w2, Ok ())
            else (w2, Err (ErrChown path))
          else (w2, Ok ())
    end.

(** ** Verbs *)

Inductive scriptError := ScriptWrite (e : guestError) | ScriptTimeout (t : Z) | ScriptRun (text : string).

Definition scriptErrText (os : OS) (e : scriptError) : string :=
  match e with
  | ScriptWrite e => "writing init script: " +:+ errText os e
  | ScriptTimeout t => "init script did not finish within " +:+ os_duration os t
  | ScriptRun text => "init script failed: " +:+ text
  end.

(** [runInitScript]: the failure and the captured output, if it failed. *)
Definition runInitScript (os : OS) (inp : InitReq) (w : World) : World * option (scriptError * string) :=
  let g := w_guest w in
  let owner := default (MkCred 0 0) (g_cred g) in
  match writeInjectFile os (MkInjectFile (g_initScriptPath g) (ir_InitScript inp) 493 (cr_Uid owner) (cr_Gid owner)) w with
  | (w1, Err e) => (w1, Some (ScriptWrite e, ""))
  | (w1, Ok _) =>
      let timeout := if ir_InitScriptTimeout inp <=? 0 then defaultInitScriptTimeout else ir_InitScriptTimeout inp in
      let env := entryEnv os g in
      let cmd := MkCmd [g_initScriptPath g] (processEnv os env) (homeFromEnv env) (g_cred g) in
      let r := os_run os cmd in
      let w2 := start cmd w1 in
      let failed text :=
        let tail := TrimSpace (capOutput (rr_Both r)) in
        if os_expired os cmd timeout then (w2, Some (ScriptTimeout timeout, tail)) else (w2, Some (ScriptRun text, tail)) in
      match rr_Status r with
      | Exited code text => if code =? 0 then (w2, None) else failed text
      | NotRun text => failed text
      end
  end.

Definition handleInit (os : OS) (inp : InitReq) : go World guestError InitResp := fun w =>
  if g_inited (w_guest w) then (w, Err ErrAlreadyInit)
  else match for_each (ir_Files inp) (writeInjectFile os) w with
  | (w1, Err e) => (w1, Err e)
  | (w1, Ok _) =>
      let record g := MkGuest (g_home g) (g_initScriptPath g) (g_cred g) inp (g_inited g) in
      let finish g := MkGuest (g_home g) (g_initScriptPath g) (g_cred g) (g_initReq g) true in
      let w2 := set_guest record w1 in
      if String.eqb (ir_InitScript inp) "" then (set_guest finish w2, Ok (MkInitResp false "" ""))
      else match runInitScript os inp w2 with
      | (w3, Some (e, output)) => (w3, Ok (MkInitResp true (scriptErrText os e) output))
      | (w3, None) => (set_guest finish w3, Ok (MkInitResp false "" ""))
      end
  end.

Definition handleExec (os : OS) (inp : execReq) : go World guestError ExecResult := fun w =>
  match ex_Cmd inp with
  | [] => (w, Err ErrEmptyCommand)
  | argv =>
      let cmd := MkCmd argv (processEnv os (entryEnv os (w_guest w))) "" (g_cred (w_guest w)) in
      let r := os_run os cmd in
      match rr_Status r with
      | NotRun _ => (start cmd w, Err ErrRunning)
      | Exited code _ => (start cmd w, Ok (MkExecResult (capOutput (rr_Stdout r)) (capOutput (rr_Stderr r)) code))
      end
  end.

(** *** Terminals *)

Definition defaultPTYCols : Z := 80.
Definition defaultPTYRows : Z := 24.
Definition sizeOr (v fallback : Z) : Z := if v =? 0 then fallback else v.

Fixpoint shellFromEnv (env : list string) : option string :=
  match env with
  | [] => None
  | e :: env' =>
      match CutPrefix e "SHELL=" with
      | Some v => if String.eqb v "" then shellFromEnv env' else Some v
      | None => shellFromEnv env'
      end
  end.

Definition ptyShell (os : OS) (g : Guest) (cmd : list string) : list string :=
  match cmd with
  | _ :: _ => cmd
  | [] =>
      match shellFromEnv (entryEnv os g) with
      | Some v => [v; "-l"]
      | None => match os_lookPath os "bash" with Some path => [path; "-l"] | None => ["/bin/sh"; "-l"] end
      end
  end.

Definition ptyCmd (os : OS) (g : Guest) (cmd : list string) : Cmd :=
  let env := entryEnv os g ++ ["TERM=xterm-256color"] in
  MkCmd (ptyShell os g cmd) env (homeFromEnv env) (g_cred g).

(** *** Files streamed in *)

(** [io.CopyN] off the connection: the bytes copied and whether all came. *)
Definition copyN (n : Z) (c : Conn) : Conn * (string * bool) :=
  match split_at (Z.to_nat n) (c_in c) with
  | Some (a, b) => (MkConn b (c_out c) (c_room c), (a, true))
  | None => (MkConn "" (c_out c) (c_room c), (c_in c, false))
  end.

Definition writePutFile (os : OS) (inp : putFileReq) (s : Conn * World) : (Conn * World) * res guestError () :=
  let '(c, w) := s in
  let path := pf_Path inp in
  if negb (os_mkdir os path) then ((c, w), Err (ErrCreatingDir path))
  else
    let mode := fileMode (pf_Mode inp) in
    if negb (os_open os path) then ((c, w), Err (ErrCreating path))
    else
      let '(c1, (content, all)) := copyN (pf_Size inp) c in
      match os_put os path content with
      | Some left_ => ((c1, put os path left_ mode w), Err (ErrWriting path))
      | None =>
          let w1 := put os path content mode w in
          if negb all then ((c1, w1), Err (ErrWriting path))
          else if negb (os_close os path) then ((c1, w1), Err (ErrClosing path))
          else if negb (os_chmod os path) then ((c1, w1), Err (ErrChmod path))
          else
            let w2 := chmod path mode w1 in
            match g_cred (w_guest w) with
            | None => ((c1, w2), Ok ())
            | Some cred =>
                if os_chown os path then ((c1, chown path cred w2), Ok ()) else ((c1, w2), Err (ErrChown path))
            end
      end.

(** ** Connections *)

(** How a connection ends: closed, or handed over as a raw pipe to a local port or
    a terminal of the given size. *)
Inductive ending := Closed | Spliced (port : Z) | Terminal (cmd : Cmd) (cols rows : Z).

Section Serve.
Context `{Json req} `{Json resp} `{Json InitReq} `{Json InitResp} `{Json execReq} `{Json ExecResult}.
Context `{Json dialReq} `{Json putFileReq} `{Json ptyReq}.
Implicit Types (os : OS) (w : World).

Definition reply (r : resp) (c : Conn) : Conn := (writeFrame r c).1.
Definition refuse os (e : guestError) (c : Conn) : Conn := reply (MkResp (errText os e) "") c.

Definition dispatch os (r : req) : go World guestError string :=
  if String.eqb (rq_Verb r) verbInit then
    match unmarshal (rq_Data r) with
    | None => go_fail (ErrDecoding "init")
    | Some inp =>
        let* out := handleInit os inp in
        match marshal out with Some d => go_ret d | None => go_fail ErrEncoding end
    end
  else if String.eqb (rq_Verb r) verbExec then
    match unmarshal (rq_Data r) with
    | None => go_fail (ErrDecoding "exec")
    | Some inp =>
        let* out := handleExec os inp in
        match marshal out with Some d => go_ret d | None => go_fail ErrEncoding end
    end
  else go_fail (ErrUnknownVerb (rq_Verb r)).

Definition handleDial os (data : string) (c : Conn) : Conn * ending :=
  match unmarshal data with
  | None => (refuse os (ErrDecoding "dial") c, Closed)
  | Some (MkDialReq port) =>
      if (port <? 1) || (65535 <? port) then (refuse os (ErrPortRange port) c, Closed)
      else if negb (os_dial os port) then (refuse os (ErrDialing port) c, Closed)
      else match writeFrame (MkResp "" "") c with
           | (c1, Err _) => (c1, Closed)
           | (c1, Ok _) => (c1, Spliced port)
           end
  end.

Definition handlePutFile os (data : string) (s : Conn * World) : Conn * World :=
  match unmarshal data with
  | None => (refuse os (ErrDecoding "putfile") s.1, s.2)
  | Some inp =>
      if negb (HasPrefix (pf_Path inp) "/") then (refuse os (ErrNotAbsolute (pf_Path inp)) s.1, s.2)
      else if pf_Size inp <? 0 then (refuse os (ErrNegativeSize (pf_Size inp)) s.1, s.2)
      else match writePutFile os inp s with
           | ((c1, w1), Err e) => (refuse os e c1, w1)
           | ((c1, w1), Ok _) => (reply (MkResp "" "") c1, w1)
           end
  end.

(** [handlePTY]; a started terminal runs until one of its ends closes. *)
Definition handlePTY os (data : string) (s : Conn * World) : (Conn * World) * ending :=
  match unmarshal data with
  | None => ((refuse os (ErrDecoding "pty") s.1, s.2), Closed)
  | Some inp =>
      let cmd := ptyCmd os (w_guest s.2) (pt_Cmd inp) in
      let cols := sizeOr (pt_Cols inp) defaultPTYCols in
      let rows := sizeOr (pt_Rows inp) defaultPTYRows in
      if negb (os_pty os cmd cols rows) then ((refuse os ErrStartingPTY s.1, s.2), Closed)
      else match writeFrame (MkResp "" "") s.1 with
           | (c1, Err _) => ((c1, start cmd s.2), Closed)
           | (c1, Ok _) => ((c1, start cmd s.2), Terminal cmd cols rows)
           end
  end.

(** [handleConn]; [os k] is what the system answers to the [k]th request.  [None]:
    the fuel does not suffice. *)
Fixpoint handleConn (fuel : nat) (os : nat -> OS) (k : nat) (c : Conn) (w : World) : option (Conn * World * ending) :=
  match fuel with
  | O => None
  | S fuel' =>
      match readFrame req c with
      | (c1, Err _) => Some (c1, w, Closed)
      | (c1, Ok r) =>
          if String.eqb (rq_Verb r) verbDial then
            let '(c2, e) := handleDial (os k) (rq_Data r) c1 in Some (c2, w, e)
          else if String.eqb (rq_Verb r) verbPutFile then
            let '(c2, w2) := handlePutFile (os k) (rq_Data r) (c1, w) in Some (c2, w2, Closed)
          else if String.eqb (rq_Verb r) verbPTY then
            let '((c2, w2), e) := handlePTY (os k) (rq_Data r) (c1, w) in Some (c2, w2, e)
          else
            match dispatch (os k) r w with
            | (w2, Err e) => handleConn fuel' os (S k) (refuse (os k) e c1) w2
            | (w2, Ok data) =>
                match writeFrame (MkResp "" data) c1 with
                | (c2, Err _) => Some (c2, w2, Closed)
                | (c2, Ok _) => handleConn fuel' os (S k) c2 w2
                end
            end
      end
  end.

(** ** The client

    [peer] is what the other end answers to the bytes the client sends; [None]
    when it cannot be dialled. *)
Inductive callError :=
| ErrConnecting | ErrMarshalReq | ErrSending (e : FrameError) | ErrReading (e : FrameError) | ErrRemote (text : string)
| ErrUnmarshal | ErrStreaming.

(** Sending one frame followed by raw bytes and reading the response. *)
Definition exchange (peer : option (string -> string)) (r : req) (raw : string) : res callError resp :=
  match peer with
  | None => Err ErrConnecting
  | Some answer =>
      match writeFrame r (MkConn "" "" None) with
      | (_, Err e) => Err (ErrSending e)
      | (c1, Ok _) =>
          match readFrame resp (MkConn (answer (c_out c1 +:+ raw)) "" None) with
          | (_, Err e) => Err (ErrReading e)
          | (_, Ok r) => if String.eqb (rs_Err r) "" then Ok r else Err (ErrRemote (rs_Err r))
          end
      end
  end.

(** [call], for verbs that take and return a payload; an absent response leaves
    the zero value [zero]. *)
Definition call {I O} `{Json I} `{Json O} (peer : option (string -> string)) (verb : string) (inp : I) (zero : O) :
    res callError O :=
  match peer with
  | None => Err ErrConnecting
  | Some _ =>
      match marshal inp with
      | None => Err ErrMarshalReq
      | Some data =>
          match exchange peer (MkReq verb data) "" with
          | Err e => Err e
          | Ok r =>
              if String.eqb (rs_Data r) "" then Ok zero
              else match unmarshal (rs_Data r) with Some o => Ok o | None => Err ErrUnmarshal end
          end
      end
  end.

Definition Client_Init peer (inp : InitReq) : res callError InitResp := call peer verbInit inp (MkInitResp false "" "").
Definition Client_Exec peer (cmd : list string) : res callError ExecResult :=
  call peer verbExec (MkExecReq cmd) (MkExecResult "" "" 0).

(** [PutFile] of the first [size] bytes of [content]; a failure to encode the
    header is ignored, an empty payload is sent. *)
Definition Client_PutFile (peer : option (string -> string)) (path : string) (mode size : Z) (content : string) :
    res callError () :=
  let data := default "" (marshal (MkPutFileReq path mode size)) in
  match peer, (writeFrame (MkReq verbPutFile data) (MkConn "" "" None)).2, split_at (Z.to_nat size) content with
  | None, _, _ => Err ErrConnecting
  | Some _, Err e, _ => Err (ErrSending e)
  | Some _, Ok _, None => Err ErrStreaming
  | Some _, Ok _, Some (bytes, _) =>
      match exchange peer (MkReq verbPutFile data) bytes with
      | Err e => Err e
      | Ok _ => Ok ()
      end
  end.

(** [DialPort] and [OpenPTY] up to the response; on success the caller gets the
    connection. *)
Definition Client_DialPort (peer : option (string -> string)) (port : Z) : res callError () :=
  match exchange peer (MkReq verbDial (default "" (marshal (MkDialReq port)))) "" with Ok _ => Ok () | Err e => Err e end.
Definition Client_OpenPTY (peer : option (string -> string)) (cmd : list string) (cols rows : Z) : res callError () :=
  match exchange peer (MkReq verbPTY (default "" (marshal (MkPtyReq cmd cols rows)))) "" with Ok _ => Ok () | Err e => Err e end.

(** A box whose agent serves one connection: what it answers and what becomes of
    it. *)
Definition serve_once (os : nat -> OS) w (sent : string) : option (Conn * World * ending) :=
  handleConn (S (String.length sent)) os 0 (MkConn sent "" None) w.
Definition agent (os : nat -> OS) w : option (string -> string) :=
  Some (fun sent => match serve_once os w sent with Some (c, _, _) => c_out c | None => "" end).

(** ** Connections: theorems *)

Lemma writeFrame_in {A} `{Json A} (v : A) c : c_in (writeFrame v c).1 = c_in c.
Proof.
  assert (Hw : forall b c, c_in (conn_write b c).1 = c_in c).
  { intros b c'. unfold conn_write. destruct (c_room c') as [r|]; [destruct (_ <=? _)|]; done. }
  unfold writeFrame, go_bind. destruct (marshal v) as [b|]; [|done]. destruct (_ <? _); [done|].
  pose proof (Hw (PutUint32 (slen b)) c) as Hc. destruct (conn_write (PutUint32 (slen b)) c) as [c1 [[]|e]]; by rewrite ?Hw.
Qed.

Lemma readFrame_progress {A} `{Json A} c c' (v : A) : readFrame A c = (c', Ok v) -> slen (c_in c') + 4 <= slen (c_in c).
Proof.
  unfold readFrame, go_bind. destruct (ReadFull 4 c) as [c1 [hdr|]] eqn:E1; [|done].
  destruct (ReadFull_consumes 4 c c1 _ ltac:(lia) E1) as (_ & _ & u & Hu & _ & Hh). destruct (Hh hdr eq_refl) as [<- Hl].
  destruct (_ <? _); [done|]. destruct (ReadFull (Uint32 hdr) c1) as [c2 [b|]] eqn:E2; [|done].
  destruct (ReadFull_consumes _ c1 c2 _ (Uint32_nonneg hdr) E2) as (_ & _ & u2 & Hu2 & _ & _).
  destruct (unmarshal b); [|done]. intros [= <- _]. rewrite Hu, Hu2, !slen_app. pose proof (slen_nonneg u2). lia.
Qed.

(** A connection is served to its end: a round per four bytes received suffices,
    whatever the client sends. *)
Theorem handleConn_terminates fuel (os : nat -> OS) k c w :
  (String.length (c_in c) < fuel)%nat -> exists c' w' e, handleConn fuel os k c w = Some (c', w', e).
Proof.
  revert k c w. induction fuel as [|fuel IH]; intros k c w Hf; [lia|]. cbn [handleConn].
  destruct (readFrame req c) as [c1 [r|]] eqn:Hr; [|eauto]. apply readFrame_progress in Hr. unfold slen in Hr.
  destruct (String.eqb _ _); [destruct (handleDial _ _ _); eauto|].
  destruct (String.eqb _ _); [destruct (handlePutFile _ _ _); eauto|].
  destruct (String.eqb _ _); [destruct (handlePTY _ _ _) as [[]]; eauto|].
  destruct (dispatch (os k) r w) as [w2 [data|e]].
  - pose proof (writeFrame_in (MkResp "" data) c1) as Hin. destruct (writeFrame _ c1) as [c2 [[]|]]; [|eauto].
    apply IH. simpl in Hin. rewrite Hin. lia.
  - apply IH. unfold refuse, reply. rewrite writeFrame_in. lia.
Qed.

(** ** What the agent does, step by step

    One step per verb carried out, whatever connection it came on; the history
    keeps the initialisations that were accepted. *)
Inductive guest_step : World * list InitReq -> World * list InitReq -> Prop :=
| gs_init os inp w h : g_inited (w_guest w) = false -> guest_step (w, h) ((handleInit os inp w).1, inp :: h)
| gs_exec os inp w h : guest_step (w, h) ((handleExec os inp w).1, h)
| gs_put os inp c w h : guest_step (w, h) ((writePutFile os inp (c, w)).1.2, h)
| gs_pty os cmd w h : guest_step (w, h) (start (ptyCmd os (w_guest w) cmd) w, h).

Lemma dispatch_steps os r w h : exists h', rtc guest_step (w, h) ((dispatch os r w).1, h').
Proof.
  unfold dispatch. destruct (String.eqb _ _).
  { destruct (unmarshal _) as [inp|]; [|exists h; apply rtc_refl]. destruct (g_inited (w_guest w)) eqn:Hi.
    - exists h. unfold go_bind, handleInit. rewrite Hi. apply rtc_refl.
    - exists (inp :: h). apply rtc_once. replace (go_bind _ _ _).1 with (handleInit os inp w).1; [by constructor|].
      unfold go_bind. destruct (handleInit os inp w) as [w1 [out|e]]; [|done]. by destruct (marshal out). }
  destruct (String.eqb _ _); [|exists h; apply rtc_refl].
  destruct (unmarshal _) as [inp|]; [|exists h; apply rtc_refl]. exists h. apply rtc_once.
  replace (go_bind _ _ _).1 with (handleExec os inp w).1; [constructor|].
  unfold go_bind. destruct (handleExec os inp w) as [w1 [out|e]]; [|done]. by destruct (marshal out).
Qed.

Lemma handlePutFile_steps os data c w h : rtc guest_step (w, h) ((handlePutFile os data (c, w)).2, h).
Proof.
  unfold handlePutFile. destruct (unmarshal data) as [inp|]; [|apply rtc_refl].
  destruct (negb _); [apply rtc_refl|]. destruct (_ <? _); [apply rtc_refl|]. apply rtc_once.
  replace (snd _) with (writePutFile os inp (c, w)).1.2; [constructor|].
  by destruct (writePutFile os inp (c, w)) as [[c1 w1] [[]|e]].
Qed.

Lemma handlePTY_steps os data c w h : rtc guest_step (w, h) ((handlePTY os data (c, w)).1.2, h).
Proof.
  unfold handlePTY. destruct (unmarshal data) as [inp|]; [|apply rtc_refl]. destruct (negb _); [apply rtc_refl|].
  apply rtc_once. destruct (writeFrame _ _) as [c1 [[]|e]]; simpl; constructor.
Qed.

(** Serving a connection is a sequence of steps, whatever bytes arrive on it. *)
Lemma handleConn_steps fuel (os : nat -> OS) k c w c' w' e h : handleConn fuel os k c w = Some (c', w', e) ->
  exists h', rtc guest_step (w, h) (w', h').
Proof.
  revert k c w h. induction fuel as [|fuel IH]; intros k c w h; cbn [handleConn]; [done|].
  destruct (readFrame req c) as [c1 [r|]]; [|intros [= <- <- <-]; exists h; apply rtc_refl].
  destruct (String.eqb _ _); [destruct (handleDial _ _ _); intros [= <- <- <-]; exists h; apply rtc_refl|].
  destruct (String.eqb _ _).
  { pose proof (handlePutFile_steps (os k) (rq_Data r) c1 w h). destruct (handlePutFile _ _ _). intros [= <- <- <-]. eauto. }
  destruct (String.eqb _ _).
  { pose proof (handlePTY_steps (os k) (rq_Data r) c1 w h). destruct (handlePTY _ _ _) as [[]]. intros [= <- <- <-]. eauto. }
  destruct (dispatch_steps (os k) r w h) as [h1 H1']. destruct (dispatch (os k) r w) as [w2 [data|er]].
  - destruct (writeFrame _ c1) as [c2 [[]|]]; [|intros [= <- <- <-]; eauto].
    intros Hc. destruct (IH _ _ _ h1 Hc) as [h' Hs]. exists h'. by etrans.
  - intros Hc. destruct (IH _ _ _ h1 Hc) as [h' Hs]. exists h'. by etrans.
Qed.

End Serve.

(** ** Processes and initialisation: theorems *)

(** Writing a file changes that file only. *)
Lemma writeInjectFile_frame os f w w' r : writeInjectFile os f w = (w', r) ->
  w_guest w' = w_guest w /\ w_started w' = w_started w /\ forall p, p <> if_Path f -> w_files w' !! p = w_files w !! p.
Proof.
  unfold writeInjectFile, put, chmod, chown. intros Hw.
  repeat (match type of Hw with context [if ?b then _ else _] => destruct b
          | context [match ?x with Some _ => _ | None => _ end] => destruct x end);
    injection Hw as <- <-; cbn; split_and!; try done; intros p Hp;
    rewrite ?lookup_alter_ne, ?lookup_insert_ne by done; done.
Qed.

(** The file it leaves when it succeeds. *)
Definition injected (os : OS) (f : InjectFile) (old : option File) : File :=
  MkFile (if_Content f) (fileMode (if_Mode f))
    (if negb (if_UID f =? 0) || negb (if_GID f =? 0) then MkCred (if_UID f) (if_GID f)
     else match old with Some o => f_Owner o | None => os_self os end).

Lemma writeInjectFile_ok os f w w' : writeInjectFile os f w = (w', Ok ()) ->
  w_files w' !! if_Path f = Some (injected os f (w_files w !! if_Path f)).
Proof.
  unfold writeInjectFile, injected, put, chmod, chown.
  destruct (negb (os_mkdir os (if_Path f))); [done|]. destruct (negb (os_open os (if_Path f))); [done|].
  destruct (os_put os (if_Path f) (if_Content f)); [done|]. destruct (negb (os_chmod os (if_Path f))); [done|].
  destruct (negb (if_UID f =? 0) || negb (if_GID f =? 0)); [destruct (os_chown os (if_Path f)); [|done]|];
    intros [= <-]; cbn; rewrite ?lookup_alter_eq, lookup_insert_eq; cbn; by destruct (w_files w !! if_Path f).
Qed.

Lemma write_files_spec os fs w w' r : for_each fs (writeInjectFile os) w = (w', r) ->
  w_guest w' = w_guest w /\ w_started w' = w_started w /\
  (forall p, p ∉ if_Path <$> fs -> w_files w' !! p = w_files w !! p) /\
  (r = Ok () -> NoDup (if_Path <$> fs) -> forall f, f ∈ fs -> w_files w' !! if_Path f = Some (injected os f (w_files w !! if_Path f))).
Proof.
  revert w. induction fs as [|f fs IH]; intros w; cbn [for_each].
  { intros [= <- <-]. split_and!; try done. intros _ _ f Hf. by apply elem_of_nil in Hf. }
  unfold go_bind. destruct (writeInjectFile os f w) as [w1 r1] eqn:H1.
  destruct (writeInjectFile_frame os f w w1 r1 H1) as (Hg & Hs & Ho).
  destruct r1 as [[]|e].
  - intros H2. destruct (IH _ H2) as (Hg2 & Hs2 & Ho2 & Hok). split_and!; try congruence.
    + intros p Hp. cbn in Hp. apply not_elem_of_cons in Hp as [Hp1 Hp2]. rewrite Ho2 by done. by apply Ho.
    + intros Hr Hnd f' Hf'. cbn in Hnd. apply NoDup_cons in Hnd as [Hnin Hnd]. apply elem_of_cons in Hf' as [-> |Hf'].
      * rewrite Ho2 by done. by apply writeInjectFile_ok.
      * rewrite Hok by done. rewrite Ho; [done|]. intros Heq. apply Hnin. rewrite <- Heq. by apply list_elem_of_fmap_2.
  - intros [= <- <-]. split_and!; try done. intros p Hp. cbn in Hp. apply not_elem_of_cons in Hp as [Hp1 Hp2]. by apply Ho.
Qed.

Lemma runInitScript_spec os inp w w' r : runInitScript os inp w = (w', r) ->
  w_guest w' = w_guest w /\
  (w_started w' = w_started w \/
   w_started w' = w_started w ++ [MkCmd [g_initScriptPath (w_guest w)] (processEnv os (entryEnv os (w_guest w)))
                                   (homeFromEnv (entryEnv os (w_guest w))) (g_cred (w_guest w))]) /\
  (forall p, p <> g_initScriptPath (w_guest w) -> w_files w' !! p = w_files w !! p).
Proof.
  unfold runInitScript. cbv zeta. destruct (writeInjectFile _ _ w) as [w1 r1] eqn:H1.
  destruct (writeInjectFile_frame _ _ _ _ _ H1) as (Hg & Hs & Ho). cbn [if_Path] in Ho. intros Hr.
  destruct r1 as [[]|e]; [|injection Hr as <- <-; split_and!; auto].
  assert (Hw : w' = start (MkCmd [g_initScriptPath (w_guest w)] (processEnv os (entryEnv os (w_guest w)))
                             (homeFromEnv (entryEnv os (w_guest w))) (g_cred (w_guest w))) w1).
  { destruct (rr_Status _); repeat (destruct (_ =? _) || destruct (os_expired _ _ _)); injection Hr as <- _; done. }
  subst w'. cbn. rewrite Hs. split_and!; auto.
Qed.

(** Initialising a box, in every case that does not report an error: the files are
    in place with their content, mode and owner, the parameters are recorded, and
    the box counts as initialised exactly when its script, if any, succeeded. *)
Theorem handleInit_spec os inp w w' resp :
  handleInit os inp w = (w', Ok resp) -> NoDup (if_Path <$> ir_Files inp) ->
  g_initScriptPath (w_guest w) ∉ if_Path <$> ir_Files inp ->
  g_inited (w_guest w) = false /\ g_initReq (w_guest w') = inp /\ g_inited (w_guest w') = negb (ip_ScriptFailed resp) /\
  (ir_InitScript inp = "" -> ip_ScriptFailed resp = false /\ w_started w' = w_started w) /\
  (forall f, f ∈ ir_Files inp -> w_files w' !! if_Path f = Some (injected os f (w_files w !! if_Path f))) /\
  (forall p, p ∉ if_Path <$> ir_Files inp -> p <> g_initScriptPath (w_guest w) -> w_files w' !! p = w_files w !! p).
Proof.
  unfold handleInit. destruct (g_inited (w_guest w)) eqn:Hi; [done|].
  destruct (for_each _ _ w) as [w1 [[]|e]] eqn:H1; [|done]. intros Hr Hnd Hns.
  destruct (write_files_spec _ _ _ _ _ H1) as (Hg & Hs & Ho & Hok). specialize (Hok eq_refl Hnd).
  destruct (String.eqb_spec (ir_InitScript inp) "") as [He|He].
  { injection Hr as <- <-. cbn. rewrite Hs. split_and!; try done. intros p Hp _. by apply Ho. }
  destruct (runInitScript os inp _) as [w3 r3] eqn:H3.
  destruct (runInitScript_spec _ _ _ _ _ H3) as (Hg3 & _ & Ho3). cbn in Ho3, Hg3. rewrite Hg in Ho3, Hg3.
  assert (Hf : forall f, f ∈ ir_Files inp -> w_files w3 !! if_Path f = Some (injected os f (w_files w !! if_Path f))).
  { intros f Hf. rewrite Ho3; [by apply Hok|]. intros Heq. apply Hns. rewrite <- Heq. by apply list_elem_of_fmap_2. }
  assert (Hp : forall p, p ∉ if_Path <$> ir_Files inp -> p <> g_initScriptPath (w_guest w) -> w_files w3 !! p = w_files w !! p).
  { intros p Hp Hps. rewrite Ho3 by done. by apply Ho. }
  destruct r3 as [[e o]|]; injection Hr as <- <-; cbn; rewrite Hg3; cbn; by rewrite ?Hi.
Qed.

(** Where the environment of a process comes from. *)
Lemma entryEnv_sources os g e : e ∈ entryEnv os g ->
  e ∈ ir_Env (g_initReq g) \/ HasPrefix e "HOME=" = true \/ HasPrefix e "PATH=" = true.
Proof.
  assert (Hp : forall p v, HasPrefix (p +:+ v) p = true) by (intros p v; apply HasPrefix_spec; eauto).
  unfold entryEnv. cbv zeta. set (env := if hasEnvKey (ir_Env (g_initReq g)) "HOME" then _ else _).
  assert (He : e ∈ env -> e ∈ ir_Env (g_initReq g) \/ HasPrefix e "HOME=" = true \/ HasPrefix e "PATH=" = true).
  { subst env. destruct (hasEnvKey _ "HOME"); [by left|].
    generalize (if String.eqb (g_home g) "" then os_getenv os "HOME" else g_home g). intros home. cbv zeta.
    destruct (String.eqb home ""); [by left|].
    intros [Hx|Hx%list_elem_of_singleton]%elem_of_app; [by left|subst e; right; left; apply Hp]. }
  clearbody env. destruct (hasEnvKey env "PATH"); [done|]. destruct (String.eqb (os_getenv os "PATH") ""); [done|].
  intros [Hx|Hx%list_elem_of_singleton]%elem_of_app; [by apply He|subst e; right; right; apply Hp].
Qed.

(** With nothing in it, there is no initialisation variable, no HOME and no PATH. *)
Lemma entryEnv_nil os g : entryEnv os g = [] ->
  ir_Env (g_initReq g) = [] /\ g_home g = "" /\ os_getenv os "HOME" = "" /\ os_getenv os "PATH" = "".
Proof.
  unfold entryEnv. cbv zeta. destruct (ir_Env (g_initReq g)) as [|x l].
  - cbn [hasEnvKey existsb]. destruct (String.eqb_spec (g_home g) "") as [->|Hh].
    + destruct (String.eqb_spec (os_getenv os "HOME") "") as [->|Hh].
      * cbn. by destruct (String.eqb_spec (os_getenv os "PATH") "") as [->|].
      * cbn. destruct (String.eqb_spec (os_getenv os "PATH") ""); by repeat (destruct (HasPrefix _ _)).
    + destruct (String.eqb_spec (g_home g) ""); [done|]. cbn.
      destruct (String.eqb_spec (os_getenv os "PATH") ""); by repeat (destruct (HasPrefix _ _)).
  - intros Hx. exfalso. revert Hx. repeat match goal with |- context [if ?c then _ else _] => destruct c end; done.
Qed.

(** A process under the agent's credential whose environment came with an
    initialisation, but for HOME, PATH and TERM; or, without any of these, one with
    the agent's own environment. *)
Definition confined (opts : GuestOptions) (h : list InitReq) (c : Cmd) : Prop :=
  cm_Cred c = go_Credential opts /\
  ((forall e, e ∈ cm_Env c -> (exists inp, inp ∈ h /\ e ∈ ir_Env inp) \/
      HasPrefix e "HOME=" = true \/ HasPrefix e "PATH=" = true \/ e = "TERM=xterm-256color") \/
   (exists os inp, cm_Env c = os_environ os /\ go_Home opts = "" /\ os_getenv os "HOME" = "" /\ os_getenv os "PATH" = "" /\
      (inp = noInit \/ inp ∈ h) /\ ir_Env inp = [])).

Record guest_inv (opts : GuestOptions) (s : World * list InitReq) : Prop := {
  gi_cred : g_cred (w_guest s.1) = go_Credential opts;
  gi_home : g_home (w_guest s.1) = go_Home opts;
  gi_req : g_initReq (w_guest s.1) = noInit \/ g_initReq (w_guest s.1) ∈ s.2;
  gi_done : g_inited (w_guest s.1) = true -> exists h, s.2 = g_initReq (w_guest s.1) :: h;
  gi_started : Forall (confined opts s.2) (w_started s.1);
}.

Lemma confined_more opts h inp c : confined opts h c -> confined opts (inp :: h) c.
Proof.
  intros [Hc [He|(os & i & He & Hh & H1 & H2 & Hi & Hn)]]; (split; [done|]).
  - left. intros e [(i & Hi & Hin)|?]%He; [left; exists i; set_solver|by right].
  - right. exists os, i. split_and!; try done. destruct Hi; [by left|right; set_solver].
Qed.

Lemma entry_confined opts h os g args dir : g_cred g = go_Credential opts -> g_home g = go_Home opts ->
  g_initReq g = noInit \/ g_initReq g ∈ h ->
  confined opts h (MkCmd args (processEnv os (entryEnv os g)) dir (g_cred g)).
Proof.
  intros Hc Hh Hr. split; [done|]. cbn [cm_Env]. destruct (entryEnv os g) as [|x l] eqn:He.
  - right. apply entryEnv_nil in He as (Hn & Hg & H1 & H2). exists os, (g_initReq g). split_and!; try done. congruence.
  - left. cbn [processEnv]. rewrite <- He. intros e [Hin|Hp]%entryEnv_sources; [|naive_solver].
    destruct Hr as [Hr|Hr]; [rewrite Hr in Hin; by apply elem_of_nil in Hin|eauto].
Qed.

Lemma pty_confined opts h os g cmd : g_cred g = go_Credential opts -> g_initReq g = noInit \/ g_initReq g ∈ h ->
  confined opts h (ptyCmd os g cmd).
Proof.
  intros Hc Hr. split; [done|]. left. intros e. cbn. intros [Hin|Hin%list_elem_of_singleton]%elem_of_app; [|by right; right; right].
  apply entryEnv_sources in Hin as [Hin|Hp]; [|naive_solver].
  destruct Hr as [Hr|Hr]; [rewrite Hr in Hin; by apply elem_of_nil in Hin|eauto].
Qed.

Lemma writePutFile_frame os inp c w : w_guest (writePutFile os inp (c, w)).1.2 = w_guest w /\
  w_started (writePutFile os inp (c, w)).1.2 = w_started w.
Proof.
  unfold writePutFile, put, chmod, chown. destruct (negb _); [done|]. destruct (negb _); [done|].
  destruct (copyN _ _) as [c1 [content all]]. destruct (os_put _ _ _); [done|]. destruct (negb all); [done|].
  destruct (negb _); [done|]. destruct (negb _); [done|]. destruct (g_cred _); [by destruct (os_chown _ _)|done].
Qed.

Lemma handleInit_inv opts os inp w h : g_inited (w_guest w) = false ->
  guest_inv opts (w, h) -> guest_inv opts ((handleInit os inp w).1, inp :: h).
Proof.
  intros Hi [Hc Hh Hr _ Hs]. cbn in *. assert (Hmore : Forall (confined opts (inp :: h)) (w_started w)).
  { eapply Forall_impl; [exact Hs|]. intros c. apply confined_more. }
  unfold handleInit. rewrite Hi. destruct (for_each _ _ w) as [w1 [[]|e]] eqn:H1;
    destruct (write_files_spec _ _ _ _ _ H1) as (Hg & Hst & _).
  2:{ split; cbn; rewrite ?Hg, ?Hst; try done; [|by rewrite Hi]. destruct Hr; [by left|right; set_solver]. }
  destruct (String.eqb _ ""). { split; cbn; rewrite ?Hg, ?Hst; try done; [right; set_solver|eauto]. }
  destruct (runInitScript os inp _) as [w3 r3] eqn:H3. destruct (runInitScript_spec _ _ _ _ _ H3) as (Hg3 & Hs3 & _). cbn in Hg3, Hs3.
  rewrite Hg, Hst in *. assert (Hok : Forall (confined opts (inp :: h)) (w_started w3)).
  { destruct Hs3 as [-> | ->]; [done|]. apply Forall_app. split; [done|]. apply Forall_singleton.
    exact (entry_confined opts (inp :: h) os (MkGuest (g_home (w_guest w)) (g_initScriptPath (w_guest w))
      (g_cred (w_guest w)) inp (g_inited (w_guest w))) _ _ Hc Hh (or_intror (list_elem_of_here _ _))). }
  destruct r3 as [[]|]; split; cbn; rewrite ?Hg3; cbn; rewrite ?Hi; try done; first [right; apply list_elem_of_here|eauto].
Qed.

Lemma guest_step_inv opts s s' : guest_step s s' -> guest_inv opts s -> guest_inv opts s'.
Proof.
  intros [os inp w h Hi|os inp w h|os inp c w h|os cmd w h] Hinv; [by apply handleInit_inv| | |];
    destruct Hinv as [Hc Hh Hr Hd Hs]; cbn [fst snd] in *.
  - unfold handleExec. destruct (ex_Cmd inp) as [|a l]; [by split|].
    assert (Hn : Forall (confined opts h) (w_started w ++ [MkCmd (a :: l) (processEnv os (entryEnv os (w_guest w))) "" (g_cred (w_guest w))])).
    { apply Forall_app. split; [done|]. apply Forall_singleton. by apply entry_confined. }
    destruct (rr_Status _); by split.
  - destruct (writePutFile_frame os inp c w) as [Hg Hst]. split; cbn [fst]; rewrite ?Hg, ?Hst; done.
  - split; cbn; try done. apply Forall_app. split; [done|]. apply Forall_singleton. by apply pty_confined.
Qed.

(** C20: Whatever requests arrive, every process the agent starts, the
    initialisation script, commands and terminals alike, runs under the
    credential the agent was given, and its environment holds nothing of the
    agent's own beyond HOME and PATH: the rest came with an initialisation.  There
    is one exception, a script or command for which neither an initialisation,
    nor the agent's options, nor the agent's environment sets anything (no
    variable, no home, HOME and PATH unset): it gets the agent's own
    environment. *)
Theorem processes_are_confined opts fs w h c :
  rtc guest_step (MkWorld (New opts) fs [], []) (w, h) -> c ∈ w_started w ->
  cm_Cred c = go_Credential opts /\
  ((forall e, e ∈ cm_Env c -> (exists inp, inp ∈ h /\ e ∈ ir_Env inp) \/
      HasPrefix e "HOME=" = true \/ HasPrefix e "PATH=" = true \/ e = "TERM=xterm-256color") \/
   (exists os inp, cm_Env c = os_environ os /\ go_Home opts = "" /\ os_getenv os "HOME" = "" /\ os_getenv os "PATH" = "" /\
      (inp = noInit \/ inp ∈ h) /\ ir_Env inp = [])).
Proof.
  intros Hs Hc. assert (Hinv : guest_inv opts (w, h)).
  { eapply (rtc_ind_l (fun s => guest_inv opts s -> guest_inv opts (w, h)));
      [done| |exact Hs|]; [intros x y Hxy _ IH Hx; eapply IH, guest_step_inv; eauto|].
    split; cbn; [done|done|by left|done|constructor]. }
  exact (proj1 (Forall_forall _ _) (gi_started _ _ Hinv) c Hc).
Qed.

(** Once a box is initialised it stays as initialised: no later request changes
    its parameters, and every further initialisation is refused without effect. *)
Theorem initialised_for_good w h w' h' os inp :
  rtc guest_step (w, h) (w', h') -> g_inited (w_guest w) = true ->
  w_guest w' = w_guest w /\ h' = h /\ handleInit os inp w' = (w', Err ErrAlreadyInit).
Proof.
  intros Hs Hi. assert (Hkeep : w_guest w' = w_guest w /\ h' = h).
  { remember (w, h) as s eqn:Es. remember (w', h') as s' eqn:Es'. revert w h Es Hi.
    induction Hs as [s|s s1 s2 Hs1 _ IH]; intros w h -> Hi; [by simplify_eq|].
    assert (Hone : exists w1, s1 = (w1, h) /\ w_guest w1 = w_guest w).
    { inversion Hs1 as [os0 inp0 w0 h0 Hf|os0 inp0 w0 h0|os0 inp0 c0 w0 h0|os0 cmd0 w0 h0]; simplify_eq; [congruence|..]; eexists; (split; [reflexivity|]).
      - unfold handleExec. destruct (ex_Cmd inp0); [done|]. by destruct (rr_Status _).
      - apply writePutFile_frame.
      - done. }
    destruct Hone as (w1 & -> & Hg). destruct (IH Es' w1 h eq_refl ltac:(congruence)) as [Hg' Hh]. split; congruence. }
  destruct Hkeep as [Hg ->]. split_and!; [done..|]. unfold handleInit. by rewrite Hg, Hi.
Qed.

(** ** Calls over the wire *)

Lemma errText_nonempty os e : errText os e <> "".
Proof. unfold errText. by destruct e. Qed.

Section Calls.
Context `{JsonLaws req} `{JsonLaws resp} `{JsonLaws InitReq} `{JsonLaws InitResp} `{JsonLaws execReq} `{JsonLaws ExecResult}.
Context `{Json dialReq} `{JsonLaws putFileReq} `{Json ptyReq}.
Implicit Types (os : nat -> OS) (w : World).

(** A value that a frame carries unchanged. *)
Definition carried {A} `{JsonLaws A} (v : A) : Prop := clean v /\ exists b, marshal v = Some b /\ slen b <= maxFrame.

Definition frame_of {A} `{Json A} (v : A) : string := let b := default "" (marshal v) in PutUint32 (slen b) +:+ b.

Lemma writeFrame_carried {A} `{JsonLaws A} (v : A) i o : carried v ->
  writeFrame v (MkConn i o None) = (MkConn i (o +:+ frame_of v) None, Ok ()).
Proof.
  intros (_ & b & Hm & Hl). unfold writeFrame, frame_of, go_bind, conn_write. rewrite Hm. cbn [default].
  destruct (Z.ltb_spec maxFrame (slen b)); [lia|]. cbn. by rewrite sapp_assoc.
Qed.

Lemma readFrame_carried {A} `{JsonLaws A} (v : A) rest o room : carried v ->
  readFrame A (MkConn (frame_of v +:+ rest) o room) = (MkConn rest o room, Ok v).
Proof.
  intros (Hc & b & Hm & Hl). unfold frame_of. rewrite Hm. cbn [default]. rewrite sapp_assoc. by apply readFrame_bytes.
Qed.

(** The answer of the agent to a request that is not handed over. *)
Definition answer (os : OS) (r : req) w : resp :=
  match (dispatch os r w).2 with Ok d => MkResp "" d | Err e => MkResp (errText os e) "" end.

Lemma serve_dispatch os r w : rq_Verb r = verbInit \/ rq_Verb r = verbExec -> carried r -> carried (answer (os 0%nat) r w) ->
  serve_once os w (frame_of r) = Some (MkConn "" (frame_of (answer (os 0%nat) r w)) None, (dispatch (os 0%nat) r w).1, Closed).
Proof.
  intros Hv Hr Ha. unfold serve_once.
  assert (Hend : forall k o w', handleConn (String.length (frame_of r)) os k (MkConn "" o None) w' =
    Some (MkConn "" o None, w', Closed)) by (unfold frame_of; done).
  generalize dependent (String.length (frame_of r)). intros n Hend.
  cbn [handleConn]. rewrite <- (sapp_nil_r (frame_of r)), (readFrame_carried r) by done.
  replace (String.eqb (rq_Verb r) verbDial) with false by (by destruct Hv as [-> | ->]).
  replace (String.eqb (rq_Verb r) verbPutFile) with false by (by destruct Hv as [-> | ->]).
  replace (String.eqb (rq_Verb r) verbPTY) with false by (by destruct Hv as [-> | ->]).
  unfold answer in *. destruct (dispatch (os 0%nat) r w) as [w2 [d|e]]; cbn [fst snd] in *.
  - rewrite (writeFrame_carried (MkResp "" d)) by done. apply Hend.
  - unfold refuse, reply. rewrite (writeFrame_carried (MkResp (errText (os 0%nat) e) "")) by done. apply Hend.
Qed.

Lemma exchange_agent os r w : rq_Verb r = verbInit \/ rq_Verb r = verbExec -> carried r -> carried (answer (os 0%nat) r w) ->
  exchange (agent os w) r "" =
  match (dispatch (os 0%nat) r w).2 with Ok d => Ok (MkResp "" d) | Err e => Err (ErrRemote (errText (os 0%nat) e)) end.
Proof.
  intros Hv Hr Ha. unfold exchange, agent. rewrite writeFrame_carried by done. cbn [c_out].
  rewrite sapp_nil_r, sapp_nil_l, serve_dispatch by done. cbn [c_out].
  rewrite <- (sapp_nil_r (frame_of (answer _ _ _))), readFrame_carried by done. unfold answer.
  destruct (dispatch (os 0%nat) r w) as [w2 [d|e]]; cbn; [done|].
  pose proof (errText_nonempty (os 0%nat) e). by destruct (String.eqb_spec (errText (os 0%nat) e) "").
Qed.

(** The reply to a result can be carried. *)
Definition replies {A} `{JsonLaws A} (os : OS) (r : res guestError A) : Prop :=
  match r with
  | Ok v => clean v /\ exists d, marshal v = Some d /\ d <> "" /\ carried (MkResp "" d)
  | Err e => carried (MkResp (errText os e) "")
  end.

(** What the client is told of a result. *)
Definition told {A} (os : OS) (r : res guestError A) : res callError A :=
  match r with Ok v => Ok v | Err e => Err (ErrRemote (errText os e)) end.

(** One call, against any handler that [dispatch] runs and encodes. *)
Lemma call_agent {I O} `{JsonLaws I} `{JsonLaws O} os w verb (inp : I) (zero : O) data (handler : go World guestError O) :
  verb = verbInit \/ verb = verbExec -> marshal inp = Some data -> carried (MkReq verb data) ->
  dispatch (os 0%nat) (MkReq verb data) w =
    (let* out := handler in match marshal out with Some d => go_ret d | None => go_fail ErrEncoding end) w ->
  replies (os 0%nat) (handler w).2 ->
  call (agent os w) verb inp zero = told (os 0%nat) (handler w).2 /\
  exists c, serve_once os w (frame_of (MkReq verb data)) = Some (c, (handler w).1, Closed).
Proof.
  intros Hv Hm Hc Hd Hr. assert (Ha : carried (answer (os 0%nat) (MkReq verb data) w) /\
    (dispatch (os 0%nat) (MkReq verb data) w).1 = (handler w).1 /\
    (dispatch (os 0%nat) (MkReq verb data) w).2 =
      match (handler w).2 with Ok v => Ok (default "" (marshal v)) | Err e => Err e end).
  { unfold answer. rewrite Hd. unfold go_bind. destruct (handler w) as [w' [v|e]]; cbn in *; [|done].
    destruct Hr as (_ & d & -> & _ & Hcar). done. }
  destruct Ha as (Ha & H1w & H2w). split; [|eexists; rewrite serve_dispatch, H1w by done; reflexivity].
  unfold call. cbn [agent]. fold (agent os w). rewrite Hm, exchange_agent, H2w by done.
  destruct (handler w) as [w' [v|e]]; cbn in *; [|done]. destruct Hr as (Hcl & d & Hd' & Hne & _). rewrite Hd'. cbn.
  destruct (String.eqb_spec d ""); [done|]. by rewrite (unmarshal_marshal v d).
Qed.

(** C21: A call of the client returns what the agent's handler returned, value or
    error text, and leaves the box as the handler left it, for initialisations and
    commands whose messages fit a frame and hold only text that JSON carries
    unchanged, on a connection that no deadline or failure cuts.  Text that is not
    valid UTF-8, such as a command's binary output or output cut in the middle of a
    character, is not such text: it arrives altered. *)
Theorem client_calls_refine_handlers os w (inp : InitReq) cmd data_i data_e :
  clean inp -> marshal inp = Some data_i -> carried (MkReq verbInit data_i) -> replies (os 0%nat) (handleInit (os 0%nat) inp w).2 ->
  clean (MkExecReq cmd) -> marshal (MkExecReq cmd) = Some data_e -> carried (MkReq verbExec data_e) ->
  replies (os 0%nat) (handleExec (os 0%nat) (MkExecReq cmd) w).2 ->
  (Client_Init (agent os w) inp = told (os 0%nat) (handleInit (os 0%nat) inp w).2 /\
   exists c, serve_once os w (frame_of (MkReq verbInit data_i)) = Some (c, (handleInit (os 0%nat) inp w).1, Closed)) /\
  (Client_Exec (agent os w) cmd = told (os 0%nat) (handleExec (os 0%nat) (MkExecReq cmd) w).2 /\
   exists c, serve_once os w (frame_of (MkReq verbExec data_e)) = Some (c, (handleExec (os 0%nat) (MkExecReq cmd) w).1, Closed)).
Proof.
  intros Hci Hmi Hi Hri Hce Hme He Hre. split.
  - apply (call_agent os w verbInit inp _ data_i (handleInit (os 0%nat) inp)); auto. unfold dispatch. cbn [rq_Verb rq_Data].
    by rewrite (unmarshal_marshal inp data_i).
  - apply (call_agent os w verbExec (MkExecReq cmd) _ data_e (handleExec (os 0%nat) (MkExecReq cmd))); auto.
    unfold dispatch. cbn [rq_Verb rq_Data]. by rewrite (unmarshal_marshal (MkExecReq cmd) data_e).
Qed.

(** What a file streamed in becomes. *)
Lemma writePutFile_ok (os : OS) inp bytes o room w c' w' :
  0 <= pf_Size inp -> slen bytes = pf_Size inp ->
  writePutFile os inp (MkConn bytes o room, w) = ((c', w'), Ok ()) ->
  c' = MkConn "" o room /\
  w_files w' !! pf_Path inp = Some (MkFile bytes (fileMode (pf_Mode inp))
    (match g_cred (w_guest w), w_files w !! pf_Path inp with
     | Some cred, _ => cred | None, Some f => f_Owner f | None, None => os_self os end)) /\
  forall p, p <> pf_Path inp -> w_files w' !! p = w_files w !! p.
Proof.
  intros Hs Hl. unfold writePutFile, put, chmod, chown. destruct (negb _); [done|]. destruct (negb _); [done|].
  unfold copyN. cbn [c_in c_out c_room]. rewrite <- Hl. unfold slen. rewrite Nat2Z.id.
  rewrite <- (sapp_nil_r bytes) at 2. rewrite split_at_app. destruct (os_put _ _ _); [done|]. cbn [negb].
  destruct (negb _); [done|]. destruct (negb _); [done|].
  destruct (g_cred (w_guest w)) as [cred|]; [destruct (os_chown _ _); [|done]|]; intros [= <- <-]; cbn; (split_and!; [done|..|
    intros p Hp; rewrite ?lookup_alter_ne, lookup_insert_ne by done; done]); rewrite ?lookup_alter_eq, lookup_insert_eq; cbn;
    by destruct (w_files w !! pf_Path inp).
Qed.

Lemma writePutFile_conn (os : OS) inp i o room w : exists i', (writePutFile os inp (MkConn i o room, w)).1.1 = MkConn i' o room.
Proof.
  unfold writePutFile. destruct (negb _); [by eexists|]. destruct (negb _); [by eexists|].
  unfold copyN. cbn [c_in c_out c_room]. destruct (split_at _ _) as [[a b]|]; (destruct (os_put _ _ _); [by eexists|]);
    repeat (destruct (negb _); [by eexists|]); (destruct (g_cred _); [destruct (os_chown _ _)|]); by eexists.
Qed.

(** The reply to a streamed file. *)
Definition put_reply (os : OS) (r : res guestError ()) : resp :=
  match r with Ok _ => MkResp "" "" | Err e => MkResp (errText os e) "" end.

Lemma serve_put os w (inp : putFileReq) data bytes :
  clean inp -> marshal inp = Some data -> carried (MkReq verbPutFile data) ->
  HasPrefix (pf_Path inp) "/" = true -> 0 <= pf_Size inp ->
  let '((c1, w1), r) := writePutFile (os 0%nat) inp (MkConn bytes "" None, w) in
  serve_once os w (frame_of (MkReq verbPutFile data) +:+ bytes) = Some (reply (put_reply (os 0%nat) r) c1, w1, Closed).
Proof.
  intros Hc Hm Hcar Hp Hs. destruct (writePutFile _ _ _) as [[c1 w1] r] eqn:Hw. unfold serve_once. cbn [handleConn].
  rewrite (readFrame_carried (MkReq verbPutFile data)) by done. cbn [rq_Verb rq_Data].
  change (String.eqb verbPutFile verbDial) with false. change (String.eqb verbPutFile verbPutFile) with true. cbn [negb].
  unfold handlePutFile. rewrite (unmarshal_marshal inp data), Hp by done. cbn [negb].
  destruct (Z.ltb_spec (pf_Size inp) 0); [lia|]. rewrite Hw. unfold refuse, put_reply. by destruct r.
Qed.

(** Seeding a box with a file: the client is told of success exactly when the
    agent has written the file, which then holds the bytes streamed, with the mode
    asked for, and belongs to the box user; no other file has changed. *)
Theorem PutFile_arrives os w path mode size content bytes rest data :
  split_at (Z.to_nat size) content = Some (bytes, rest) -> 0 <= size -> HasPrefix path "/" = true ->
  clean (MkPutFileReq path mode size) -> marshal (MkPutFileReq path mode size) = Some data ->
  carried (MkReq verbPutFile data) ->
  let '((c1, w1), r) := writePutFile (os 0%nat) (MkPutFileReq path mode size) (MkConn bytes "" None, w) in
  carried (put_reply (os 0%nat) r) ->
  (Client_PutFile (agent os w) path mode size content = Ok () <-> r = Ok ()) /\
  (r = Ok () ->
    (exists c, serve_once os w (frame_of (MkReq verbPutFile data) +:+ bytes) = Some (c, w1, Closed)) /\
    (exists o, w_files w1 !! path = Some (MkFile bytes (fileMode mode) o) /\
       forall cred, g_cred (w_guest w) = Some cred -> o = cred) /\
    forall p, p <> path -> w_files w1 !! p = w_files w !! p).
Proof.
  intros Hsp Hs Hp Hc Hm Hcar. pose proof (serve_put os w _ data bytes Hc Hm Hcar Hp Hs) as Hserve.
  destruct (writePutFile_conn (os 0%nat) (MkPutFileReq path mode size) bytes "" None w) as [i' Hi].
  destruct (writePutFile _ _ _) as [[c1 w1] r] eqn:Hw. cbn in Hi. subst c1. intros Hrep. split.
  - unfold Client_PutFile, agent. rewrite Hm. cbn [default id]. rewrite writeFrame_carried by done. cbn [snd]. rewrite Hsp.
    unfold exchange. rewrite writeFrame_carried by done. cbn [c_out]. rewrite sapp_nil_l, Hserve. unfold reply.
    rewrite writeFrame_carried by done. cbn [c_out fst].
    rewrite <- (sapp_nil_r (_ +:+ frame_of _)), sapp_nil_l, readFrame_carried by done. unfold put_reply.
    destruct r as [[]|e]; cbn; [done|]. pose proof (errText_nonempty (os 0%nat) e).
    by destruct (String.eqb_spec (errText (os 0%nat) e) "").
  - intros ->. apply split_at_Some in Hsp as [_ Hl].
    destruct (writePutFile_ok (os 0%nat) (MkPutFileReq path mode size) bytes "" None w _ w1 Hs ltac:(unfold slen; cbn; lia) Hw)
      as (_ & Hf & Hother). cbn in *. split_and!; [eexists; exact Hserve| |exact Hother].
    eexists. split; [exact Hf|]. by intros cred ->.
Qed.
End Calls.

(** ** Concrete runs *)

Module Demo.
Export Wire.

#[export] Instance InjectFile_countable : Countable InjectFile :=
  inj_countable' (fun f => (if_Path f, if_Content f, if_Mode f, if_UID f, if_GID f))
    (fun '(a, b, c, d, e) => MkInjectFile a b c d e) ltac:(by intros []).
#[export] Instance InitReq_eq_dec : EqDecision InitReq.
Proof. solve_decision. Defined.
#[export] Instance InitReq_countable : Countable InitReq :=
  inj_countable' (fun r => (ir_Files r, ir_Env r, ir_InitScript r, ir_InitScriptTimeout r))
    (fun '(a, b, c, d) => MkInitReq a b c d) ltac:(by intros []).
#[export] Instance InitResp_eq_dec : EqDecision InitResp.
Proof. solve_decision. Defined.
#[export] Instance InitResp_countable : Countable InitResp :=
  inj_countable' (fun r => (ip_ScriptFailed r, ip_ScriptError r, ip_ScriptOutput r))
    (fun '(a, b, c) => MkInitResp a b c) ltac:(by intros []).
#[export] Instance dialReq_eq_dec : EqDecision dialReq.
Proof. solve_decision. Defined.
#[export] Instance dialReq_countable : Countable dialReq := inj_countable' dr_Port MkDialReq ltac:(by intros []).
#[export] Instance putFileReq_eq_dec : EqDecision putFileReq.
Proof. solve_decision. Defined.
#[export] Instance putFileReq_countable : Countable putFileReq :=
  inj_countable' (fun r => (pf_Path r, pf_Mode r, pf_Size r)) (fun '(a, b, c) => MkPutFileReq a b c) ltac:(by intros []).
#[export] Instance ptyReq_eq_dec : EqDecision ptyReq.
Proof. solve_decision. Defined.
#[export] Instance ptyReq_countable : Countable ptyReq :=
  inj_countable' (fun r => (pt_Cmd r, pt_Cols r, pt_Rows r)) (fun '(a, b, c) => MkPtyReq a b c) ltac:(by intros []).

(** A system where everything works, commands print "hi" and end with [code]. *)
Definition sys (code : Z) : OS :=
  MkOS (MkCred 0 0) 18 (fun k => if String.eqb k "PATH" then "/bin" else "") ["PATH=/bin"; "SECRET=s"] (fun _ => None) (fun _ => true) (fun _ => true)
    (fun _ _ => None) (fun _ => true) (fun _ => true) (fun _ => true)
    (fun _ => MkRunResult "hi" "" "hi" (Exited code "exit status")) (fun _ _ => false) (fun _ => true) (fun _ _ _ => true)
    (fun _ => "") (fun _ => "5m0s").
Definition opts : GuestOptions := MkGuestOptions "/home/agent" "" (Some (MkCred 1000 1000)).
Definition w0 : World := MkWorld (New opts) ∅ [].
Definition a_file : InjectFile := MkInjectFile "/etc/a" "x" 0 0 0.
Definition init_req : InitReq := MkInitReq [a_file] ["A=1"] "#!" 0.
Definition w1 : World := (handleInit (sys 0) init_req w0).1.
Definition w2 : World := (handleExec (sys 3) (MkExecReq ["ls"]) w1).1.

Lemma guest_reach1 : rtc guest_step (w0, []) (w1, [init_req]).
Proof. apply rtc_once, (gs_init (sys 0) init_req w0 []). reflexivity. Qed.
Lemma guest_reach2 : rtc guest_step (w1, [init_req]) (w2, [init_req]).
Proof. apply rtc_once, (gs_exec (sys 3) (MkExecReq ["ls"]) w1 [init_req]). Qed.
Lemma guest_reach : rtc guest_step (w0, []) (w2, [init_req]).
Proof. etrans; [apply guest_reach1|apply guest_reach2]. Qed.
End Demo.

Lemma handleInit_spec_witness :
  w_files Demo.w1 !! "/etc/a" = Some (MkFile "x" 420 (MkCred 0 0)) /\ g_inited (w_guest Demo.w1) = true.
Proof.
  assert (Hi : handleInit (Demo.sys 0) Demo.init_req Demo.w0 = (Demo.w1, Ok (MkInitResp false "" ""))) by (vm_compute; reflexivity).
  destruct (handleInit_spec _ _ _ _ _ Hi) as (_ & _ & Hd & _ & Hf & _).
  - repeat constructor. apply not_elem_of_nil.
  - vm_compute. intros Hx. apply list_elem_of_singleton in Hx. discriminate.
  - split; [|exact Hd]. apply (Hf Demo.a_file). apply list_elem_of_here.
Defined.

Lemma processes_are_confined_witness : exists c, c ∈ w_started Demo.w2 /\ cm_Args c = ["ls"] /\
  cm_Cred c = Some (MkCred 1000 1000) /\
  ("SECRET=s" ∈ cm_Env c -> exists inp, inp ∈ [Demo.init_req] /\ "SECRET=s" ∈ ir_Env inp).
Proof.
  set (c := MkCmd ["ls"] ["A=1"; "HOME=/home/agent"; "PATH=/bin"] "" (Some (MkCred 1000 1000))).
  assert (Hin : c ∈ w_started Demo.w2) by (vm_compute; apply list_elem_of_further, list_elem_of_here).
  destruct (processes_are_confined Demo.opts ∅ Demo.w2 [Demo.init_req] c Demo.guest_reach Hin) as [Hc [He|(os & inp & _ & Hh & _)]]; [|discriminate].
  exists c. split; [exact Hin|]. split; [reflexivity|]. split; [exact Hc|]. intros Hs. destruct (He _ Hs) as [Hi|[Hx|[Hx|Hx]]]; [exact Hi|discriminate..].
Defined.

(** A command run before any initialisation, by an agent that has neither HOME nor
    PATH, sees the agent's secrets. *)
Theorem bare_agent_leaks_its_environment :
  let os := MkOS (MkCred 0 0) 18 (fun _ => "") ["SECRET=s"] (fun _ => None) (fun _ => true) (fun _ => true)
    (fun _ _ => None) (fun _ => true) (fun _ => true) (fun _ => true)
    (fun _ => MkRunResult "" "" "" (Exited 0 "")) (fun _ _ => false) (fun _ => true) (fun _ _ _ => true) (fun _ => "") (fun _ => "5m0s") in
  let w := MkWorld (New (MkGuestOptions "" "" None)) ∅ [] in
  cm_Env <$> w_started (handleExec os (MkExecReq ["env"]) w).1 = [["SECRET=s"]].
Proof. vm_compute. reflexivity. Qed.

Lemma initialised_for_good_witness :
  handleInit (Demo.sys 0) Demo.init_req Demo.w2 = (Demo.w2, Err ErrAlreadyInit).
Proof.
  apply (initialised_for_good Demo.w1 [Demo.init_req] Demo.w2 [Demo.init_req] (Demo.sys 0) Demo.init_req Demo.guest_reach2).
  vm_compute. reflexivity.
Defined.

Section CallWitnesses.
Import Demo.

Lemma carried_small {A} `{Countable A} (v : A) : slen (bits (encode v)) <= maxFrame -> carried v.
Proof. intros Hl. split; [exact I|]. eexists. by split. Qed.

Lemma handleConn_terminates_witness :
  exists c w e, handleConn 20 (fun _ => Demo.sys 0) 0 (MkConn "garbage" "" None) Demo.w0 = Some (c, w, e).
Proof.
  apply (handleConn_terminates 20 (fun _ => Demo.sys 0) 0 (MkConn "garbage" "" None) Demo.w0).
  apply Nat.ltb_lt. vm_compute. reflexivity.
Defined.

Lemma client_calls_refine_handlers_witness :
  Client_Exec (agent (fun _ => sys 3) w0) ["ls"] = Ok (MkExecResult "hi" "" 3) /\
  Client_Init (agent (fun _ => sys 3) w0) init_req = Ok (MkInitResp true "init script failed: exit status" "hi").
Proof.
  destruct (client_calls_refine_handlers (fun _ => sys 3) w0 init_req ["ls"] (bits (encode init_req)) (bits (encode (MkExecReq ["ls"])))) as [[Hi _] [He _]].
  - exact I.
  - reflexivity.
  - apply carried_small. vm_compute. discriminate.
  - split; [exact I|]. eexists. split; [reflexivity|]. split; [vm_compute; discriminate|]. apply carried_small. vm_compute. discriminate.
  - exact I.
  - reflexivity.
  - apply carried_small. vm_compute. discriminate.
  - split; [exact I|]. eexists. split; [reflexivity|]. split; [vm_compute; discriminate|]. apply carried_small. vm_compute. discriminate.
  - split; [rewrite He; vm_compute; reflexivity|rewrite Hi; vm_compute; reflexivity].
Defined.

Lemma PutFile_arrives_witness : Client_PutFile (agent (fun _ => sys 0) w0) "/data" 0 3 "abc" = Ok ().
Proof.
  pose proof (PutFile_arrives (fun _ => sys 0) w0 "/data" 0 3 "abc" "abc" "" (bits (encode (MkPutFileReq "/data" 0 3)))
    eq_refl ltac:(lia) eq_refl I eq_refl ltac:(apply carried_small; vm_compute; discriminate)) as Hp.
  destruct (writePutFile _ _ _) as [[c1 w1'] r] eqn:Hw. assert (Hr : r = Ok ()) by (vm_compute in Hw; congruence). subst r.
  apply Hp; [|reflexivity]. apply carried_small. vm_compute. discriminate.
Defined.
End CallWitnesses.
