(* ===== verification/Skills.v ===== *)
(** * Installing the embedded skills in a box (internal/guest/skills.go)

    The guest writes its embedded files below a directory of the box user's home
    and hands everything it creates to that user.  A file system is a map from
    paths to nodes; a path is the list of its components from the last to the
    first, so that [filepath.Dir] is the tail and the root is the empty list; the
    target is absolute and clean.
    Symbolic links are not modelled. *)

From S2P Require Import Prelude.

Local Open Scope Z_scope.

Abbreviation path := (list string).

Record node := MkNode { nd_content : option string; nd_owner : Z * Z }. (* [None]: a directory *)
Abbreviation files := (gmap (list string) node).

Definition is_dir (n : node) : bool := match nd_content n with None => true | Some _ => false end.

Inductive fs_error := ErrNotExist | ErrNotDir | ErrIsDir | ErrEmptyDir.

Definition root : node := MkNode None (0, 0).

(** [os.Stat]. *)
Fixpoint Stat (p : path) (fs : files) : res fs_error node :=
  match p with
  | [] => Ok root
  | _ :: parent =>
      match Stat parent fs with
      | Err e => Err e
      | Ok n => if is_dir n then match fs !! p with Some n' => Ok n' | None => Err ErrNotExist end else Err ErrNotDir
      end
  end.

(** [os.MkdirAll] by root. *)
Fixpoint MkdirAll (p : path) (fs : files) : res fs_error files :=
  match Stat p fs with
  | Ok n => if is_dir n then Ok fs else Err ErrNotDir
  | Err ErrNotExist =>
      match p with
      | [] => Ok fs
      | _ :: parent => match MkdirAll parent fs with Ok fs1 => Ok (<[p := root]> fs1) | Err e => Err e end
      end
  | Err e => Err e
  end.

(** [os.WriteFile]: an existing file keeps its owner. *)
Definition WriteFile (p : path) (data : string) (fs : files) : res fs_error files :=
  match Stat p fs with
  | Ok n => if is_dir n then Err ErrIsDir else Ok (<[p := MkNode (Some data) (nd_owner n)]> fs)
  | Err ErrNotExist =>
      match Stat (tail p) fs with
      | Ok _ => Ok (<[p := MkNode (Some data) (0, 0)]> fs)
      | Err e => Err e
      end
  | Err e => Err e
  end.

(** [os.Chown]. *)
Definition Chown (p : path) (owner : Z * Z) (fs : files) : res fs_error files :=
  match Stat p fs with
  | Ok n => Ok (match p with [] => fs | _ => <[p := MkNode (nd_content n) owner]> fs end)
  | Err e => Err e
  end.

Definition chownSkill (p : path) (uid gid : Z) (fs : files) : res fs_error files :=
  if (uid =? 0) && (gid =? 0) then Ok fs else Chown p (uid, gid) fs.

(** The walk up from [dir]: the ancestors that do not exist. *)
Fixpoint missing (p : path) (fs : files) : res fs_error (list path) :=
  match Stat p fs with
  | Ok _ => Ok []
  | Err ErrNotExist =>
      match p with
      | [] => Ok [[]]
      | _ :: parent => match missing parent fs with Ok l => Ok (p :: l) | Err e => Err e end
      end
  | Err e => Err e
  end.

Fixpoint chown_all (l : list path) (uid gid : Z) (fs : files) : res fs_error files :=
  match l with
  | [] => Ok fs
  | p :: l' => match chownSkill p uid gid fs with Ok fs' => chown_all l' uid gid fs' | Err e => Err e end
  end.

Definition mkdirAllChown (dir : path) (uid gid : Z) (fs : files) : res fs_error files :=
  match missing dir fs with
  | Err e => Err e
  | Ok created =>
      match MkdirAll dir fs with
      | Err e => Err e
      | Ok fs1 => chown_all created uid gid fs1
      end
  end.

(** The embedded tree in the order of [fs.WalkDir]: a directory, or a file with
    its data, at its path below the root of the tree. *)
Abbreviation skill := (path * option string)%type.

Definition install_one (dir : path) (uid gid : Z) (e : skill) (fs : files) : res fs_error files :=
  let dest := e.1 ++ dir in
  match (match e.2 with None => MkdirAll dest fs | Some data => WriteFile dest data fs end) with
  | Err err => Err err
  | Ok fs1 => chownSkill dest uid gid fs1
  end.

Fixpoint install_all (dir : path) (uid gid : Z) (tree : list skill) (fs : files) : res fs_error files :=
  match tree with
  | [] => Ok fs
  | e :: tree' => match install_one dir uid gid e fs with Ok fs' => install_all dir uid gid tree' fs' | Err err => Err err end
  end.

Definition InstallSkills (tree : list skill) (dir : path) (uid gid : Z) (fs : files) : res fs_error files :=
  match dir with
  | [] => Err ErrEmptyDir
  | _ => match mkdirAllChown dir uid gid fs with Ok fs1 => install_all dir uid gid tree fs1 | Err e => Err e end
  end.

(** ** Lemmas *)

(** Every node is below a directory. *)
Definition has_parent (p : path) (fs : files) : Prop :=
  p = [] \/ exists n, fs !! p = Some n /\ is_dir n = true.
Definition wf (fs : files) : Prop :=
  fs !! [] = None /\ forall c parent n, fs !! (c :: parent) = Some n -> has_parent parent fs.

Lemma Stat_lookup p fs n : Stat p fs = Ok n -> p <> [] -> fs !! p = Some n.
Proof.
  destruct p as [|c parent]; [done|]. cbn [Stat]. intros Hs _.
  destruct (Stat parent fs) as [m|]; [|done]. destruct (is_dir m); [|done]. by destruct (fs !! (c :: parent)); simplify_eq.
Qed.

Lemma Stat_wf fs : wf fs -> forall p n, fs !! p = Some n -> Stat p fs = Ok n.
Proof.
  intros [Hroot Hwf] p. induction p as [|c parent IH]; intros n Hn; [congruence|]. cbn [Stat].
  destruct (Hwf _ _ _ Hn) as [->|(m & Hm & Hd)]; [cbn; by rewrite Hn|]. by rewrite (IH _ Hm), Hd, Hn.
Qed.

Lemma Stat_missing p fs : Stat p fs = Err ErrNotExist -> p <> [] /\ (wf fs -> fs !! p = None).
Proof.
  intros Hs. split; [by intros ->|]. intros Hwf. destruct (fs !! p) as [n|] eqn:Hp; [|done].
  rewrite (Stat_wf _ Hwf _ _ Hp) in Hs. done.
Qed.

(** The proper ancestors of a path that exists are directories. *)
Lemma wf_ancestor fs q p n : wf fs -> fs !! p = Some n -> q `suffix_of` p -> q <> p -> has_parent q fs.
Proof.
  intros Hw Hp [k ->] Hne. revert n Hp. induction k as [|c k IH]; intros n Hp; [done|].
  destruct Hw as [Hr Hw]. destruct (Hw _ _ _ Hp) as [He|(m & Hm & Hd)].
  - apply app_eq_nil in He as [_ ->]. by left.
  - destruct k as [|c' k]; [right; eauto|]. eapply IH; [|exact Hm].
    intros He. apply (f_equal length) in He. simpl in He. rewrite length_app in He. lia.
Qed.

Lemma wf_insert fs p n : wf fs -> p <> [] -> has_parent (tail p) fs ->
  (is_dir n = true \/ forall m, fs !! p = Some m -> is_dir m = false) -> wf (<[p := n]> fs).
Proof.
  intros [Hr Hw] Hne Hpar Hd. split; [by rewrite lookup_insert_ne|]. intros c parent m.
  assert (Hkeep : forall q, has_parent q fs -> has_parent q (<[p := n]> fs)).
  { intros q [->|(k & Hk & Hkd)]; [by left|]. right. destruct (decide (q = p)) as [->|].
    - rewrite lookup_insert_eq. eexists. split; [done|]. destruct Hd as [?|Hd]; [done|]. apply Hd in Hk. congruence.
    - rewrite lookup_insert_ne by done. eauto. }
  destruct (decide (c :: parent = p)) as [<-|]; [intros _; by apply Hkeep|].
  rewrite lookup_insert_ne by done. intros Hm. apply Hkeep. eauto.
Qed.

Lemma suffix_cons_iff (q l : path) c : q `suffix_of` c :: l <-> q = c :: l \/ q `suffix_of` l.
Proof.
  split.
  - intros [[|d k] Hk]; simplify_eq/=; [by left|right; by exists k].
  - intros [->|Hs]; [done|by apply suffix_cons_r].
Qed.

Lemma missing_spec fs p : forall l, wf fs -> missing p fs = Ok l ->
  forall q, q ∈ l <-> q `suffix_of` p /\ q <> [] /\ fs !! q = None.
Proof.
  induction p as [|c parent IH]; intros l Hw Hm q.
  - cbn in Hm. simplify_eq. split; [by intros ?%not_elem_of_nil|]. intros (Hs & Hne & _). by apply suffix_nil_inv in Hs.
  - cbn [missing] in Hm. destruct (Stat (c :: parent) fs) as [n|e] eqn:Hst.
    + simplify_eq. split; [by intros ?%not_elem_of_nil|]. intros (Hs & Hne & Hq).
      apply Stat_lookup in Hst; [|done]. destruct (decide (q = c :: parent)) as [->|Hd]; [congruence|].
      destruct (wf_ancestor _ _ _ _ Hw Hst Hs Hd) as [?|(m & Hm & _)]; congruence.
    + destruct e; try done. destruct (missing parent fs) as [l'|] eqn:Hl; simplify_eq.
      apply Stat_missing in Hst as [_ Hnone]. rewrite elem_of_cons, (IH _ Hw eq_refl q), suffix_cons_iff. naive_solver.
Qed.

Lemma MkdirAll_spec p : forall fs fs1, wf fs -> MkdirAll p fs = Ok fs1 ->
  wf fs1 /\ has_parent p fs1 /\
  forall q, fs1 !! q = match fs !! q with
                       | Some n => Some n
                       | None => if decide (q `suffix_of` p /\ q <> []) then Some root else None
                       end.
Proof.
  induction p as [|c parent IH]; intros fs fs1 Hw Hm.
  - cbn in Hm. simplify_eq. split_and!; [done|by left|]. intros q. destruct (fs1 !! q); [done|].
    rewrite decide_False; [done|]. intros [Hs Hne]. by apply suffix_nil_inv in Hs.
  - cbn [MkdirAll] in Hm. destruct (Stat (c :: parent) fs) as [n|e] eqn:Hst.
    + destruct (is_dir n) eqn:Hd; simplify_eq. apply Stat_lookup in Hst; [|done]. split_and!; [done|right; eauto|].
      intros q. destruct (fs1 !! q) eqn:Hq; [done|]. rewrite decide_False; [done|]. intros [Hs Hne].
      destruct (decide (q = c :: parent)) as [->|Hdq]; [congruence|].
      destruct (wf_ancestor _ _ _ _ Hw Hst Hs Hdq) as [?|(m & Hmm & _)]; congruence.
    + destruct e; try done; (destruct (MkdirAll parent fs) as [fs0|] eqn:H0; simplify_eq).
      destruct (IH _ _ Hw H0) as (Hw0 & Hp0 & Hl0). apply Stat_missing in Hst as [_ Hnone]. specialize (Hnone Hw).
      split_and!.
      * apply wf_insert; auto.
      * right. rewrite lookup_insert_eq. eauto.
      * intros q. destruct (decide (q = c :: parent)) as [->|Hdq].
        { rewrite lookup_insert_eq, Hnone, decide_True by done. done. }
        rewrite lookup_insert_ne by done. rewrite Hl0. destruct (fs !! q); [done|].
        apply decide_ext. rewrite suffix_cons_iff. naive_solver.
Qed.

Section Owned.
Context (uid gid : Z) (Howner : (uid =? 0) && (gid =? 0) = false).

Lemma chown_spec p fs fs' : wf fs -> p <> [] -> chownSkill p uid gid fs = Ok fs' ->
  exists n, fs !! p = Some n /\ fs' = <[p := MkNode (nd_content n) (uid, gid)]> fs.
Proof.
  unfold chownSkill, Chown. rewrite Howner. intros Hw Hne Hc. destruct (Stat p fs) as [n|] eqn:Hs; [|done].
  apply Stat_lookup in Hs; [|done]. exists n. split; [done|]. by destruct p; simplify_eq.
Qed.

Lemma chown_wf p fs n : wf fs -> p <> [] -> fs !! p = Some n -> wf (<[p := MkNode (nd_content n) (uid, gid)]> fs).
Proof.
  intros Hw Hne Hp. apply wf_insert; [done..| |].
  - destruct p; [done|]. destruct Hw as [_ Hw]. eauto.
  - destruct (nd_content n) eqn:Hn; [right|by left]. intros m Hm. rewrite Hp in Hm. simplify_eq. unfold is_dir. by rewrite Hn.
Qed.

Lemma chown_all_spec l : forall fs fs', wf fs -> Forall (fun p => p <> []) l -> chown_all l uid gid fs = Ok fs' ->
  wf fs' /\ forall q, fs' !! q = if decide (q ∈ l) then (fun n => MkNode (nd_content n) (uid, gid)) <$> fs !! q else fs !! q.
Proof.
  induction l as [|p l IH]; intros fs fs' Hw Hne Hc; cbn in Hc.
  - simplify_eq. split; [done|]. intros q. by rewrite decide_False by apply not_elem_of_nil.
  - apply Forall_cons in Hne as [Hp Hne]. destruct (chownSkill p uid gid fs) as [fs1|] eqn:H1; [|done].
    destruct (chown_spec _ _ _ Hw Hp H1) as (n & Hn & ->).
    destruct (IH _ _ (chown_wf _ _ _ Hw Hp Hn) Hne Hc) as [Hw' Hl]. split; [done|]. intros q. rewrite Hl.
    destruct (decide (q = p)) as [->|Hd].
    + rewrite lookup_insert_eq, (decide_True (P := p ∈ p :: l)) by (by left). rewrite Hn. by case_decide.
    + rewrite lookup_insert_ne by done. apply decide_ext. rewrite elem_of_cons. naive_solver.
Qed.

(** The directory and the ancestors that were missing now belong to the user;
    everything else is as it was. *)
Lemma mkdirAllChown_spec dir fs fs' : wf fs -> mkdirAllChown dir uid gid fs = Ok fs' ->
  wf fs' /\ has_parent dir fs' /\
  forall q, fs' !! q = match fs !! q with
                       | Some n => Some n
                       | None => if decide (q `suffix_of` dir /\ q <> []) then Some (MkNode None (uid, gid)) else None
                       end.
Proof.
  unfold mkdirAllChown. intros Hw Hm. destruct (missing dir fs) as [l|] eqn:Hl; [|done].
  pose proof (missing_spec _ _ _ Hw Hl) as Hmiss. destruct (MkdirAll dir fs) as [fs1|] eqn:H1; [|done].
  destruct (MkdirAll_spec _ _ _ Hw H1) as (Hw1 & Hp1 & Hl1).
  destruct (chown_all_spec l fs1 fs') as [Hw' Hl']; [done| |done|].
  { apply Forall_forall. intros q Hq. apply Hmiss in Hq. naive_solver. }
  assert (Hall : forall q, fs' !! q = match fs !! q with
      | Some n => Some n
      | None => if decide (q `suffix_of` dir /\ q <> []) then Some (MkNode None (uid, gid)) else None end).
  { intros q. rewrite Hl', Hl1. destruct (decide (q ∈ l)) as [Hq|Hq].
    - apply Hmiss in Hq as (Hs & Hne & ->). by rewrite !decide_True by done.
    - destruct (fs !! q) eqn:Hfq; [done|]. rewrite !decide_False; [done|..]; intros [? ?]; apply Hq, Hmiss; done. }
  split_and!; [done| |done]. destruct Hp1 as [->|(n & Hn & Hd)]; [by left|]. right.
  rewrite Hl1 in Hn. rewrite Hall. destruct (fs !! dir); [eauto|]. destruct (decide _); [|done]. eauto.
Qed.

Lemma MkdirAll_exists q fs : wf fs -> has_parent q fs -> MkdirAll q fs = Ok fs.
Proof.
  intros Hw [->|(n & Hn & Hd)]; [done|]. pose proof (Stat_wf _ Hw _ _ Hn) as Hs. destruct q; [done|].
  cbn [MkdirAll]. by rewrite Hs, Hd.
Qed.

(** One entry of the tree changes its own path only. *)
Lemma install_one_spec dir e fs fs' :
  wf fs -> e.1 ++ dir <> [] -> has_parent (tail (e.1 ++ dir)) fs -> install_one dir uid gid e fs = Ok fs' ->
  fs' = <[e.1 ++ dir := MkNode e.2 (uid, gid)]> fs /\ wf fs'.
Proof.
  intros Hw Hne Hpar Hi. unfold install_one in Hi. set (dest := e.1 ++ dir) in *.
  assert (Hins : exists fs1 n, (match e.2 with None => MkdirAll dest fs | Some data => WriteFile dest data fs end) = Ok fs1 /\
    fs1 = <[dest := n]> fs /\ nd_content n = e.2 /\ wf fs1).
  { destruct e.2 as [data|] eqn:He; simpl in Hi.
    - destruct (WriteFile dest data fs) as [fs1|] eqn:H1; [|done]. exists fs1. unfold WriteFile in H1.
      destruct (Stat dest fs) as [n|[]] eqn:Hs; try done.
      + destruct (is_dir n) eqn:Hd; [done|]. simplify_eq. eexists. split_and!; try done. apply wf_insert; auto.
        right. intros m Hm. apply Stat_lookup in Hs; [|done]. congruence.
      + destruct (Stat (tail dest) fs); [|done]. simplify_eq. eexists. split_and!; try done. apply wf_insert; auto.
        right. intros m Hm. apply Stat_missing in Hs as [_ Hs]. rewrite Hs in Hm by done. done.
    - destruct (MkdirAll dest fs) as [fs1|] eqn:H1; [|done]. exists fs1.
      destruct (MkdirAll_spec _ _ _ Hw H1) as (Hw1 & _ & _). destruct dest as [|c parent] eqn:Hdest; [done|].
      cbn [MkdirAll] in H1. destruct (Stat (c :: parent) fs) as [n|[]] eqn:Hs; try done.
      + destruct (is_dir n) eqn:Hd; simplify_eq. exists n. apply Stat_lookup in Hs; [|done]. split_and!; try done.
        * by rewrite insert_id.
        * unfold is_dir in Hd. by destruct (nd_content n).
      + rewrite (MkdirAll_exists parent fs Hw Hpar) in H1. simplify_eq. exists root. done. }
  destruct Hins as (fs1 & n & Hst & -> & Hcn & Hw1). rewrite Hst in Hi.
  destruct (chown_spec _ _ _ Hw1 Hne Hi) as (m & Hm & ->). rewrite lookup_insert_eq in Hm. simplify_eq.
  split; [by rewrite insert_insert_eq, Hcn|]. apply chown_wf; [done..|]. by rewrite lookup_insert_eq.
Qed.

(** The order of [fs.WalkDir]: the root first, a directory before its entries,
    nothing twice. *)
Definition walk_order (tree : list skill) : Prop :=
  NoDup tree.*1 /\
  forall i e, tree !! i = Some e -> e.1 = [] \/ exists j, (j < i)%nat /\ tree !! j = Some (tail e.1, None).

Lemma install_all_spec dir tree : forall done fs fs',
  dir <> [] -> wf fs -> has_parent dir fs ->
  walk_order (done ++ tree) ->
  (forall e, e ∈ done -> fs !! (e.1 ++ dir) = Some (MkNode e.2 (uid, gid))) ->
  install_all dir uid gid tree fs = Ok fs' ->
  (forall e, e ∈ done ++ tree -> fs' !! (e.1 ++ dir) = Some (MkNode e.2 (uid, gid))) /\
  (forall q, ~ (exists e, e ∈ tree /\ q = e.1 ++ dir) -> fs' !! q = fs !! q).
Proof.
  induction tree as [|e tree IH]; intros dn fs fs' Hdir Hw Hpar Hord Hdone Hi; cbn [install_all] in Hi.
  - simplify_eq. rewrite app_nil_r. done.
  - destruct (install_one dir uid gid e fs) as [fs1|] eqn:H1; [|done].
    assert (Hdest : e.1 ++ dir <> []) by (intros [_ ?]%app_eq_nil; done).
    assert (Htail : has_parent (tail (e.1 ++ dir)) fs).
    { destruct Hord as [_ Hord]. destruct (Hord (length dn) e) as [He|(j & Hj & Hlj)].
      - by rewrite list_lookup_middle.
      - rewrite He. simpl. destruct Hpar as [->|(n & Hn & Hd)]; [done|]. destruct dir as [|c d]; [done|]. simpl.
        destruct Hw as [_ Hw]. eauto.
      - destruct e as [[|c ep] ed]; simpl in *.
        + destruct Hpar as [->|(n & Hn & Hd)]; [done|]. destruct dir as [|c d]; [done|]. destruct Hw as [_ Hw]. eauto.
        + rewrite lookup_app_l in Hlj by done. apply list_elem_of_lookup_2, Hdone in Hlj. simpl in Hlj.
          right. eexists. split; [exact Hlj|done]. }
    destruct (install_one_spec _ _ _ _ Hw Hdest Htail H1) as [-> Hw1].
    destruct Hord as [Hnd Hord].
    destruct (IH (dn ++ [e]) (<[e.1 ++ dir := MkNode e.2 (uid, gid)]> fs) fs') as [Hin Hout]; try done.
    + destruct Hpar as [->|(n & Hn & Hd)]; [done|]. right. destruct (decide (dir = e.1 ++ dir)) as [Heq|Hneq].
      * rewrite <- Heq, lookup_insert_eq. eexists. split; [done|]. destruct e as [ep ed]. simpl in *.
        assert (ep = []) as -> by (apply (f_equal length) in Heq; rewrite length_app in Heq; destruct ep; [done|simpl in Heq; lia]).
        destruct ed as [data|]; [|done]. exfalso. unfold install_one in H1. simpl in H1. unfold WriteFile in H1.
        by rewrite (Stat_wf _ Hw _ _ Hn), Hd in H1.
      * rewrite lookup_insert_ne by done. eauto.
    + rewrite <- app_assoc. done.
    + intros e' [He'|He'%list_elem_of_singleton]%elem_of_app; [|subst; by rewrite lookup_insert_eq].
      rewrite lookup_insert_ne; [by apply Hdone|]. intros Heq%app_inv_tail.
      rewrite fmap_app in Hnd. apply NoDup_app in Hnd as (_ & Hnd & _). apply (Hnd e'.1); [by apply list_elem_of_fmap_2|].
      rewrite fmap_cons, Heq. by left.
    + split.
      * intros e' He'. apply Hin. by rewrite <- app_assoc.
      * intros q Hq. rewrite Hout by set_solver. rewrite lookup_insert_ne; [done|]. intros <-. apply Hq. exists e. split; [by left|done].
Qed.

End Owned.

(** What is installed belongs to the box user.  For a box user other than root,
    when the installation succeeds: every embedded file and directory is at its
    place with its data and the user's ownership; the missing directories on the
    way were created for the user; every other node is as it was, so nothing new
    is left to root and nothing outside the target is handed over. *)
Theorem InstallSkills_spec : forall tree dir uid gid fs fs',
  (uid =? 0) && (gid =? 0) = false -> wf fs -> walk_order tree ->
  InstallSkills tree dir uid gid fs = Ok fs' ->
  (forall e, e ∈ tree -> fs' !! (e.1 ++ dir) = Some (MkNode e.2 (uid, gid))) /\
  (forall q, fs !! q = None -> fs' !! q = None \/ exists c, fs' !! q = Some (MkNode c (uid, gid))) /\
  (forall q, ~ dir `suffix_of` q -> fs !! q <> None -> fs' !! q = fs !! q).
Proof.
  intros tree dir uid gid fs fs' Ho Hw Hord Hi. unfold InstallSkills in Hi. destruct dir as [|c d] eqn:Hd; [done|].
  rewrite <- Hd in *. assert (Hne : dir <> []) by (by rewrite Hd). clear Hd c d.
  destruct (mkdirAllChown dir uid gid fs) as [fs1|] eqn:H1; [|done].
  destruct (mkdirAllChown_spec _ _ Ho _ _ _ Hw H1) as (Hw1 & Hp1 & Hl1).
  destruct (install_all_spec uid gid Ho dir tree [] fs1 fs') as [Hin Hout]; try done.
  { intros e He. by apply not_elem_of_nil in He. }
  split_and!; [exact Hin| |].
  - intros q Hq. destruct (decide (q ∈ (fun e => e.1 ++ dir) <$> tree)) as [He|He].
    + apply list_elem_of_fmap in He as (e & -> & He). right. eexists. by apply Hin.
    + rewrite Hout by (intros (e & H2 & ->); apply He, list_elem_of_fmap; eauto). rewrite Hl1, Hq. case_decide; eauto.
  - intros q Hns Hq. rewrite Hout.
    + rewrite Hl1. by destruct (fs !! q).
    + intros (e & _ & ->). apply Hns. by exists e.1.
Qed.

(** A home directory of the box user, and the one embedded skill. *)
Definition a_home : files := {[ ["home"] := root; ["agent"; "home"] := MkNode None (1000, 1000) ]}.
Definition a_tree : list skill := [([], None); (["llmbox-ports"], None); (["SKILL.md"; "llmbox-ports"], Some "ports")].

Example a_home_installed :
  (fun fs => (fun q => nd_owner <$> fs !! q) <$> [["home"]; [".claude"; "agent"; "home"]; ["SKILL.md"; "llmbox-ports"; "skills"; ".claude"; "agent"; "home"]])
    <$> match InstallSkills a_tree ["skills"; ".claude"; "agent"; "home"] 1000 1000 a_home with Ok fs => Some fs | Err _ => None end =
  Some [Some (0, 0); Some (1000, 1000); Some (1000, 1000)].
Proof. vm_compute. reflexivity. Qed.
