(* ===== verification/Manager.v ===== *)
(** * The box manager of a spoke (internal/spoke/box)

    Box lifecycle over two interfaces: the [Provisioner] that owns compute and
    the [PolicyApplier] of network isolation.  The manager's theorems are proved
    against the interfaces' laws; the isolation enforcer is an instance of the
    second, an in-memory provisioner of the first. *)

From S2P Require Import Prelude GoStrings Regex Sandbox Dnsd Netfw Isolation GuestProto.

Local Open Scope Z_scope.

(** ** Interfaces *)

Inductive ProvError := ErrBoxNotFound | ErrBackend (msg : string).

#[export] Instance ProvError_eq_dec : EqDecision ProvError.
Proof. solve_decision. Defined.

(** [Provisioner] and [Instance]: an instance is named by its instance id; an
    operation of an instance returns [None] for a nil error. *)
Class Provisioner (P : Type) := {
  Provision : CreateOptions -> P -> P * res ProvError string;
  prov_List : P -> res ProvError (list Box);
  Find : string -> P -> res ProvError Box;
  inst_Pause : string -> P -> P * option ProvError;
  inst_Resume : string -> P -> P * option ProvError;
  inst_Destroy : string -> P -> P * option ProvError;
}.

(** The boxes with another instance id. *)
Definition others (id : string) (l : list Box) : list Box := filter (fun b => box_InstanceID b <> id) l.

Lemma others_new id l : id ∉ box_InstanceID <$> l -> others id l = l.
Proof. intros Hn. apply filter_id. intros b Hb Heq. apply Hn, list_elem_of_fmap. eauto. Qed.

Lemma others_others id l : others id (others id l) = others id l.
Proof. apply filter_id. intros b [Hb _]%list_elem_of_filter. done. Qed.

(** What the interface's comments promise, over the boxes that exist and the
    handles a box answers to.  A new box displaces one that had its instance id.
    Nothing is promised of an operation that fails otherwise. *)
Class ProvisionerLaws (P : Type) `{Provisioner P} := {
  boxes : P -> list Box;
  handle : Box -> string -> Prop;
  handle_id : forall b, handle b (box_InstanceID b);
  handle_box : forall b, box_BoxID b <> "" -> handle b (box_BoxID b);
  Provision_ok : forall opts p p' id, Provision opts p = (p', Ok id) ->
    exists b, boxes p' = others id (boxes p) ++ [b] /\
      box_InstanceID b = id /\ box_BoxID b = co_BoxID opts;
  Provision_err : forall opts p p' e, Provision opts p = (p', Err e) -> boxes p' = boxes p;
  List_ok : forall p l, prov_List p = Ok l -> l ≡ₚ boxes p;
  Find_ok : forall x p b, Find x p = Ok b -> b ∈ boxes p /\ handle b x;
  Find_none : forall x p b, Find x p = Err ErrBoxNotFound -> b ∈ boxes p -> ~ handle b x;
  Destroy_ok : forall id p p' r, inst_Destroy id p = (p', r) -> r = None \/ r = Some ErrBoxNotFound ->
    boxes p' = others id (boxes p);
  Destroy_sub : forall id p p' r, inst_Destroy id p = (p', r) -> sublist (boxes p') (boxes p);
  Pause_boxes : forall id p, box_BoxID <$> boxes (inst_Pause id p).1 = box_BoxID <$> boxes p;
  Resume_boxes : forall id p, box_BoxID <$> boxes (inst_Resume id p).1 = box_BoxID <$> boxes p;
}.

(** [PolicyApplier]; the boolean is success. *)
Class PolicyApplier (A : Type) := {
  ApplyPolicy : string -> NetworkPolicy -> A -> A * bool;
  ReleaseBox : string -> A -> A * bool;
}.

#[export] Instance Enforcer_PolicyApplier `{Programmer F} : PolicyApplier (Enforcer F) := {
  ApplyPolicy b policy e := (Isolation.SetNetworkPolicy b policy e, true);
  ReleaseBox b e := Isolation.Release b e;
}.

(** ** The manager *)

Record CopyFile := MkCopyFile { cf_HostPath : string; cf_BoxPath : string; cf_Mode : Z }.

Record Config := MkConfig {
  cfg_MaxBoxes : Z;
  cfg_InitScript : string;
  cfg_InitScriptTimeout : Z;
  cfg_CopyFiles : list CopyFile;
  cfg_PublishPorts : list PublishPort;
}.

(** [cfg.Isolation] is [mg_iso]. *)
Record Manager (P A : Type) := MkManager { mg_prov : P; mg_iso : option A; mg_cfg : Config }.
Arguments MkManager {P A}.
Arguments mg_prov {P A}.
Arguments mg_iso {P A}.
Arguments mg_cfg {P A}.

Definition NewManager {P A} (prov : P) (iso : option A) (cfg : Config) : Manager P A := MkManager prov iso cfg.

(** The guest of a box as the manager sees it during a creation: whether a host
    file could be opened and streamed in, and the answer to [Init] under the
    given deadline ([None] is a transport error). *)
Record Guest := MkGuest {
  g_PutFile : string -> CopyFile -> bool;
  g_Init : string -> option Z -> InitReq -> option InitResp;
}.

Inductive ManagerError :=
| ErrInvalidBoxID | ErrListing (e : ProvError) | ErrBoxLimit | ErrBoxIDUsed (by_ : string)
| ErrProvisioning (e : ProvError) | ErrCopying | ErrInit | ErrOther (e : ProvError).

Definition initScriptClientMargin : Z := 30 * Second.
Definition defaultInitScriptTimeout : Z := 5 * Minute.

(** [initContext]: the time bound of the [Init] call, if any. *)
Definition initContext (cfg : Config) : option Z :=
  if String.eqb (cfg_InitScript cfg) "" then None
  else
    let timeout := if cfg_InitScriptTimeout cfg <=? 0 then defaultInitScriptTimeout else cfg_InitScriptTimeout cfg in
    Some (timeout + initScriptClientMargin).

Definition initScriptFailureDetail (resp : InitResp) : string :=
  if String.eqb (ip_ScriptOutput resp) "" then ip_ScriptError resp
  else ip_ScriptError resp +:+ String "010" (String "010" (ip_ScriptOutput resp)).

(** [copyFiles] stops at the first failure. *)
Fixpoint copyFiles (g : Guest) (inst : string) (files : list CopyFile) : bool :=
  match files with
  | [] => true
  | cf :: files' => if g_PutFile g inst cf then copyFiles g inst files' else false
  end.

Section Manager.
Context {P A : Type} `{Provisioner P} `{PolicyApplier A}.
Implicit Types (m : Manager P A).

Definition with_prov m (p : P) : Manager P A := MkManager p (mg_iso m) (mg_cfg m).

(** The part of [Create] under [createMu]: validation, the cap, uniqueness and
    provisioning. *)
Definition create_locked (opts : CreateOptions) m : Manager P A * res ManagerError string :=
  let provision :=
    match Provision opts (mg_prov m) with
    | (p', Ok id) => (with_prov m p', Ok id)
    | (p', Err e) => (with_prov m p', Err (ErrProvisioning e))
    end in
  if negb (String.eqb (co_BoxID opts) "") && negb (ValidBoxID (co_BoxID opts)) then (m, Err ErrInvalidBoxID)
  else if negb (String.eqb (co_BoxID opts) "") || (0 <? cfg_MaxBoxes (mg_cfg m)) then
    match prov_List (mg_prov m) with
    | Err e => (m, Err (ErrListing e))
    | Ok insts =>
        if (0 <? cfg_MaxBoxes (mg_cfg m)) && (cfg_MaxBoxes (mg_cfg m) <=? Z.of_nat (length insts))
        then (m, Err ErrBoxLimit)
        else
          match first_match (fun b => negb (String.eqb (co_BoxID opts) "") &&
                                      EqualFold (box_BoxID b) (co_BoxID opts)) insts with
          | Some b => (m, Err (ErrBoxIDUsed (box_InstanceID b)))
          | None => provision
          end
    end
  else provision.

(** The rest of [Create], outside the lock. *)
Definition create_finish (g : Guest) (opts : CreateOptions) (inst : string) m :
    Manager P A * res ManagerError CreateResult :=
  let cfg := mg_cfg m in
  if negb (copyFiles g inst (cfg_CopyFiles cfg)) then
    (with_prov m (inst_Destroy inst (mg_prov m)).1, Err ErrCopying)
  else
    match g_Init g inst (initContext cfg) (MkInitReq (co_Files opts) [] (cfg_InitScript cfg) (cfg_InitScriptTimeout cfg)) with
    | None => (with_prov m (inst_Destroy inst (mg_prov m)).1, Err ErrInit)
    | Some resp =>
        if ip_ScriptFailed resp
        then (m, Ok (MkCreateResult inst true (initScriptFailureDetail resp) []))
        else (m, Ok (MkCreateResult inst false "" (cfg_PublishPorts cfg)))
    end.

Definition Create (g : Guest) (opts : CreateOptions) m : Manager P A * res ManagerError CreateResult :=
  match create_locked opts m with
  | (m1, Err e) => (m1, Err e)
  | (m1, Ok inst) => create_finish g opts inst m1
  end.

Definition List_ m : res ManagerError (list Box) :=
  match prov_List (mg_prov m) with
  | Ok l => Ok l
  | Err e => Err (ErrListing e)
  end.

Definition Destroy (idOrName : string) m : Manager P A * res ManagerError () :=
  match Find idOrName (mg_prov m) with
  | Err ErrBoxNotFound => (m, Ok ())
  | Err e => (m, Err (ErrOther e))
  | Ok meta =>
      match inst_Destroy (box_InstanceID meta) (mg_prov m) with
      | (p', Some (ErrBackend e)) => (with_prov m p', Err (ErrOther (ErrBackend e)))
      | (p', _) =>
          let iso' :=
            match mg_iso m with
            | Some a => if String.eqb (box_BoxID meta) "" then Some a else Some (ReleaseBox (box_BoxID meta) a).1
            | None => None
            end in
          (MkManager p' iso' (mg_cfg m), Ok ())
      end
  end.

Definition SetNetworkPolicy (boxID : string) (policy : NetworkPolicy) m : Manager P A * bool :=
  match mg_iso m with
  | None => (m, true)
  | Some a => let '(a', ok) := ApplyPolicy boxID policy a in (MkManager (mg_prov m) (Some a') (mg_cfg m), ok)
  end.

Definition Pause (idOrName : string) m : Manager P A * res ManagerError () :=
  match Find idOrName (mg_prov m) with
  | Err e => (m, Err (ErrOther e))
  | Ok b =>
      match inst_Pause (box_InstanceID b) (mg_prov m) with
      | (p', Some e) => (with_prov m p', Err (ErrOther e))
      | (p', None) => (with_prov m p', Ok ())
      end
  end.

Definition Resume (idOrName : string) m : Manager P A * res ManagerError () :=
  match Find idOrName (mg_prov m) with
  | Err e => (m, Err (ErrOther e))
  | Ok b =>
      match inst_Resume (box_InstanceID b) (mg_prov m) with
      | (p', Some e) => (with_prov m p', Err (ErrOther e))
      | (p', None) => (with_prov m p', Ok ())
      end
  end.

(** [Exec], [OpenPTY] and [DialBox] resolve the box through [Find] before they
    hand the request to its guest. *)
Definition through_guest {B} (guest : string -> res ManagerError B) (idOrName : string) m : res ManagerError B :=
  match Find idOrName (mg_prov m) with
  | Err e => Err (ErrOther e)
  | Ok b => guest (box_InstanceID b)
  end.

(** The goroutines of the manager: [createMu] makes the first part of a creation
    one step; the second part runs whenever the guest answers. *)
Inductive mgr_step : Manager P A -> Manager P A -> Prop :=
| ms_locked opts m : mgr_step m (create_locked opts m).1
| ms_finish g opts inst m : mgr_step m (create_finish g opts inst m).1
| ms_destroy x m : mgr_step m (Destroy x m).1
| ms_policy b policy m : mgr_step m (SetNetworkPolicy b policy m).1
| ms_pause x m : mgr_step m (Pause x m).1
| ms_resume x m : mgr_step m (Resume x m).1.

Context `{!ProvisionerLaws P}.

(** At most [MaxBoxes] boxes; named boxes have valid ids, distinct up to case. *)
Definition boxes_ok (cfg : Config) (ids : list string) : Prop :=
  (0 < cfg_MaxBoxes cfg -> Z.of_nat (length ids) <= cfg_MaxBoxes cfg) /\
  Forall (fun id => id <> "" -> ValidBoxID id = true) ids /\
  NoDup (ToLower <$> filter (fun id => id <> "") ids).

Definition mgr_ok m : Prop := boxes_ok (mg_cfg m) (box_BoxID <$> boxes (mg_prov m)).

Lemma boxes_ok_sublist cfg ids ids' : sublist ids' ids -> boxes_ok cfg ids -> boxes_ok cfg ids'.
Proof.
  intros Hs (Hc & Hv & Hn). split_and!.
  - intros Hpos. specialize (Hc Hpos). apply sublist_length in Hs. lia.
  - by eapply Forall_sublist.
  - eapply sublist_NoDup; [exact Hn|]. by apply fmap_sublist, filter_sublist.
Qed.

(** Adding a box whose id is valid and unused up to case, below the cap. *)
Lemma boxes_ok_snoc cfg ids id :
  boxes_ok cfg ids ->
  (0 < cfg_MaxBoxes cfg -> Z.of_nat (length ids) < cfg_MaxBoxes cfg) ->
  (id <> "" -> ValidBoxID id = true) ->
  (id <> "" -> Forall (fun id' => EqualFold id' id = false) ids) ->
  boxes_ok cfg (ids ++ [id]).
Proof.
  intros (Hc & Hv & Hn) Hcap Hval Hfree. split_and!.
  - intros Hpos. rewrite length_app. simpl. specialize (Hcap Hpos). lia.
  - apply Forall_app. split; [done|]. by constructor.
  - rewrite filter_app, fmap_app. apply NoDup_app. rewrite filter_cons, filter_nil.
    split_and!; [done| |case_decide; [apply NoDup_singleton|apply NoDup_nil_2]].
    intros x Hx. case_decide as Hne; [|set_solver]. simpl. rewrite list_elem_of_singleton.
    apply list_elem_of_fmap in Hx as (id' & -> & Hin). apply list_elem_of_filter in Hin as [_ Hin].
    specialize (Hfree Hne). rewrite Forall_forall in Hfree. specialize (Hfree id' Hin).
    intros Heq. apply EqualFold_spec in Heq. congruence.
Qed.

(** Every branch of the locked part: refused with the boxes unchanged, or a box
    with the requested id was added that passes the checks. *)
Lemma create_locked_spec opts m :
  match create_locked opts m with
  | (m', Err e) => mg_cfg m' = mg_cfg m /\ boxes (mg_prov m') = boxes (mg_prov m)
  | (m', Ok inst) => mg_cfg m' = mg_cfg m /\
      (exists b, boxes (mg_prov m') = others inst (boxes (mg_prov m)) ++ [b] /\
         box_InstanceID b = inst /\ box_BoxID b = co_BoxID opts) /\
      (0 < cfg_MaxBoxes (mg_cfg m) -> Z.of_nat (length (boxes (mg_prov m))) < cfg_MaxBoxes (mg_cfg m)) /\
      (co_BoxID opts <> "" -> ValidBoxID (co_BoxID opts) = true /\
         Forall (fun b => EqualFold (box_BoxID b) (co_BoxID opts) = false) (boxes (mg_prov m)))
  end.
Proof.
  unfold create_locked.
  destruct (negb (String.eqb (co_BoxID opts) "") && negb (ValidBoxID (co_BoxID opts))) eqn:Hval; [done|].
  assert (Hprov : match Provision opts (mg_prov m) with
    | (p', Ok id) => exists b, boxes p' = others id (boxes (mg_prov m)) ++ [b] /\ box_InstanceID b = id /\
        box_BoxID b = co_BoxID opts
    | (p', Err e) => boxes p' = boxes (mg_prov m)
    end).
  { destruct (Provision opts (mg_prov m)) as [p' [id|e]] eqn:Hp; [by eapply Provision_ok|by eapply Provision_err]. }
  assert (Hvalid : co_BoxID opts <> "" -> ValidBoxID (co_BoxID opts) = true).
  { intros Hne%String.eqb_neq. rewrite Hne in Hval. simpl in Hval. by apply negb_false_iff in Hval. }
  destruct (_ || _) eqn:Hchk.
  - destruct (prov_List (mg_prov m)) as [insts|e] eqn:Hl; [|done]. apply List_ok in Hl.
    destruct ((0 <? cfg_MaxBoxes (mg_cfg m)) && _) eqn:Hcap; [done|].
    destruct (first_match _ insts) as [b|] eqn:Hf; [done|]. apply first_match_None in Hf.
    destruct (Provision opts (mg_prov m)) as [p' [id|e]]; [|done].
    split_and!; [done|done| |].
    + intros Hpos%Z.ltb_lt. rewrite Hpos in Hcap. simpl in Hcap. apply Z.leb_gt in Hcap. by rewrite <- Hl.
    + intros Hne. split; [auto|]. rewrite <- Hl. eapply Forall_impl; [exact Hf|]. intros b Hb. simpl in Hb.
      apply String.eqb_neq in Hne. by rewrite Hne in Hb.
  - apply orb_false_iff in Hchk as [Hid Hmax]. bools.
    destruct (Provision opts (mg_prov m)) as [p' [id|e]]; [|done].
    split_and!; [done|done|lia|done].
Qed.

Lemma create_finish_cfg g opts inst m : mg_cfg (create_finish g opts inst m).1 = mg_cfg m.
Proof. unfold create_finish. destruct (negb _); [done|]. destruct (g_Init _ _ _ _) as [r|]; [|done]. by destruct (ip_ScriptFailed r). Qed.

Lemma create_finish_sub g opts inst m :
  sublist (boxes (mg_prov (create_finish g opts inst m).1)) (boxes (mg_prov m)).
Proof.
  unfold create_finish. pose proof (Destroy_sub inst (mg_prov m)) as Hd.
  destruct (inst_Destroy inst (mg_prov m)) as [p' r] eqn:Hr. specialize (Hd _ _ eq_refl).
  destruct (negb _); [done|]. destruct (g_Init _ _ _ _) as [resp|]; [|done]. by destruct (ip_ScriptFailed resp).
Qed.

Lemma Destroy_cfg x m : mg_cfg (Destroy x m).1 = mg_cfg m.
Proof.
  unfold Destroy. destruct (Find x (mg_prov m)) as [b|[|]]; try done.
  by destruct (inst_Destroy _ _) as [p' [[|]|]].
Qed.

Lemma Destroy_boxes x m : sublist (boxes (mg_prov (Destroy x m).1)) (boxes (mg_prov m)).
Proof.
  unfold Destroy. destruct (Find x (mg_prov m)) as [b|[|]]; try done.
  destruct (inst_Destroy _ _) as [p' r] eqn:Hd. apply Destroy_sub in Hd. by destruct r as [[|]|].
Qed.

Lemma mgr_step_ok m m' : mgr_step m m' -> mgr_ok m -> mgr_ok m'.
Proof.
  unfold mgr_ok. intros Hst Hok. destruct Hst as [opts m|g opts inst m|x m|b policy m|x m|x m].
  - pose proof (create_locked_spec opts m) as Hs.
    destruct (create_locked opts m) as [m' [inst|e]]; simpl.
    + destruct Hs as (-> & (b & -> & _ & Hb) & Hcap & Hid). rewrite fmap_app. simpl. rewrite Hb.
      assert (Hsub : sublist (others inst (boxes (mg_prov m))) (boxes (mg_prov m))) by apply sublist_filter.
      apply boxes_ok_snoc; [eapply boxes_ok_sublist; [by apply fmap_sublist|done]| | |].
      * rewrite length_fmap. intros Hpos%Hcap. apply sublist_length in Hsub. lia.
      * intros Hne. by apply Hid.
      * intros Hne. destruct (Hid Hne) as [_ Hf]. apply Forall_fmap. by eapply Forall_sublist.
    + by destruct Hs as [-> ->].
  - rewrite create_finish_cfg. eapply boxes_ok_sublist; [|done].
    apply fmap_sublist, create_finish_sub.
  - rewrite Destroy_cfg. eapply boxes_ok_sublist; [|done].
    apply fmap_sublist, Destroy_boxes.
  - unfold SetNetworkPolicy. destruct (mg_iso m); [|done]. by destruct (ApplyPolicy _ _ _).
  - unfold Pause. destruct (Find x (mg_prov m)) as [b|e]; [|done].
    pose proof (Pause_boxes (box_InstanceID b) (mg_prov m)) as Hp.
    destruct (inst_Pause _ _) as [p' [e|]]; simpl in *; by rewrite Hp.
  - unfold Resume. destruct (Find x (mg_prov m)) as [b|e]; [|done].
    pose proof (Resume_boxes (box_InstanceID b) (mg_prov m)) as Hp.
    destruct (inst_Resume _ _) as [p' [e|]]; simpl in *; by rewrite Hp.
Qed.

End Manager.

(** ** An in-memory provisioner *)

Record MemProv := MkMemProv { mp_boxes : list Box }.

Fixpoint string_rep (n : nat) : string :=
  match n with
  | O => ""
  | S n' => String "x" (string_rep n')
  end.

(** A string longer than every id in use. *)
Definition fresh_id (l : list Box) : string :=
  string_rep (S (list_max (String.length ∘ box_InstanceID <$> l))).

Definition mem_box (id : string) (opts : CreateOptions) : Box :=
  MkBox id "" (co_BoxID opts) (co_Description opts) "" "" "running" "" "" "" 0 0.

Definition mem_Provision (opts : CreateOptions) (p : MemProv) : MemProv * res ProvError string :=
  let id := fresh_id (mp_boxes p) in (MkMemProv (mp_boxes p ++ [mem_box id opts]), Ok id).

Definition mem_Find (x : string) (p : MemProv) : res ProvError Box :=
  match first_match (fun b => String.eqb (box_InstanceID b) x || String.eqb (box_BoxID b) x) (mp_boxes p) with
  | Some b => Ok b
  | None => Err ErrBoxNotFound
  end.

Definition mem_known (id : string) (p : MemProv) : option ProvError :=
  if decide (id ∈ box_InstanceID <$> mp_boxes p) then None else Some ErrBoxNotFound.

Definition mem_Destroy (id : string) (p : MemProv) : MemProv * option ProvError :=
  (MkMemProv (filter (fun b => box_InstanceID b <> id) (mp_boxes p)), mem_known id p).

#[export] Instance Mem_Provisioner : Provisioner MemProv := {
  Provision := mem_Provision;
  prov_List p := Ok (mp_boxes p);
  Find := mem_Find;
  inst_Pause id p := (p, mem_known id p);
  inst_Resume id p := (p, mem_known id p);
  inst_Destroy := mem_Destroy;
}.

Lemma length_string_rep n : String.length (string_rep n) = n.
Proof. induction n; simpl; congruence. Qed.

Lemma fresh_id_fresh l : fresh_id l ∉ box_InstanceID <$> l.
Proof.
  rewrite list_elem_of_fmap. intros (b & Heq & Hin).
  assert (Hle : (String.length (box_InstanceID b) <= list_max (String.length ∘ box_InstanceID <$> l))%nat).
  { apply (proj1 (Forall_forall _ _) (proj1 (list_max_le _ _) (le_n _))).
    apply list_elem_of_fmap. by exists b. }
  apply (f_equal String.length) in Heq. unfold fresh_id in Heq. rewrite length_string_rep in Heq. lia.
Qed.

#[export] Instance Mem_ProvisionerLaws : ProvisionerLaws MemProv.
Proof.
  refine {| boxes := mp_boxes; handle b x := box_InstanceID b = x \/ box_BoxID b = x |}.
  - auto.
  - auto.
  - intros opts p p' id [= <- <-]. exists (mem_box (fresh_id (mp_boxes p)) opts). split_and!; [|done|done].
    by rewrite others_new by apply fresh_id_fresh.
  - done.
  - by intros p l [= ->].
  - simpl. unfold mem_Find. intros x p b Hf. destruct (first_match _ _) eqn:Hm; simplify_eq.
    apply first_match_elem in Hm as [? Hm]. apply orb_true_iff in Hm. rewrite !String.eqb_eq in Hm. done.
  - simpl. unfold mem_Find. intros x p b Hf Hin. destruct (first_match _ _) eqn:Hm; [done|].
    apply first_match_None in Hm. rewrite Forall_forall in Hm. specialize (Hm b Hin). bools. naive_solver.
  - by intros id p p' r [= <- <-] _.
  - intros id p p' r [= <- _]. apply sublist_filter.
  - done.
  - done.
Defined.

(** ** Theorems *)

(** C8: whatever the interleaving of creations, destructions, pauses and policy
    pushes, and over any provisioner, a spoke never holds more than [MaxBoxes]
    boxes, every named box has a valid id, and no two names are equal up to
    case: the checks and the provisioning are one step, and nothing that runs
    outside the lock adds a box. *)
Theorem manager_invariant :
  forall {P A} `{ProvisionerLaws P} `{PolicyApplier A} (m m' : Manager P A),
  mgr_ok m -> rtc mgr_step m m' -> mgr_ok m'.
Proof. intros P A PP PL PA m m' Hok Hst. induction Hst; eauto using mgr_step_ok. Qed.

Module Demo.

Definition cfg : Config := MkConfig 1 "" 0 [] [MkPublishPort 8080 "web"].
Definition opts (id : string) : CreateOptions := MkCreateOptions id "" "" [] 0.
Definition mgr : Manager MemProv (Enforcer RecordingProgrammer) := NewManager (MkMemProv []) None cfg.
Definition guest (ok : bool) : Guest :=
  MkGuest (fun _ _ => true) (fun _ _ _ => if ok then Some (MkInitResp false "" "") else None).

End Demo.

Lemma manager_invariant_witness :
  mgr_ok (create_locked (Demo.opts "web") Demo.mgr).1 /\
  (create_locked (Demo.opts "db") (create_locked (Demo.opts "web") Demo.mgr).1).2 = Err ErrBoxLimit.
Proof.
  split; [|vm_compute; reflexivity].
  apply (manager_invariant Demo.mgr).
  - split_and!; simpl; [done|constructor|constructor].
  - eapply rtc_l; [apply (ms_locked (Demo.opts "web"))|apply rtc_refl].
Defined.

(** a creation adds exactly one box or none.  On success the boxes are the
    old ones and one new box with the requested id, which the result names (a box
    that had the new one's instance id is displaced, if there was one); a
    failed init script still is a success, of a box kept for inspection that
    publishes no port.  On failure the boxes are the old ones, unless the box
    was provisioned, its guest failed, and tearing it down failed in turn. *)
Theorem Create_spec :
  forall {P A} `{ProvisionerLaws P} `{PolicyApplier A} (g : Guest) opts (m : Manager P A),
  match Create g opts m with
  | (m', Ok r) =>
      exists b, boxes (mg_prov m') = others (cr_InstanceID r) (boxes (mg_prov m)) ++ [b] /\
        (cr_InstanceID r ∉ box_InstanceID <$> boxes (mg_prov m) -> boxes (mg_prov m') = boxes (mg_prov m) ++ [b]) /\
        box_InstanceID b = cr_InstanceID r /\ box_BoxID b = co_BoxID opts /\
        cr_PublishPorts r = (if cr_InitScriptFailed r then [] else cfg_PublishPorts (mg_cfg m))
  | (m', Err e) =>
      boxes (mg_prov m') = boxes (mg_prov m) \/
      exists p1 inst, Provision opts (mg_prov m) = (p1, Ok inst) /\ (e = ErrCopying \/ e = ErrInit) /\
        mg_prov m' = (inst_Destroy inst p1).1 /\
        (boxes (mg_prov m') = others inst (boxes (mg_prov m)) \/
         exists msg, (inst_Destroy inst p1).2 = Some (ErrBackend msg))
  end.
Proof.
  intros P A PP PL PA g opts m. unfold Create.
  pose proof (create_locked_spec opts m) as Hs.
  assert (Hp : forall m1 inst, create_locked opts m = (m1, Ok inst) ->
    Provision opts (mg_prov m) = (mg_prov m1, Ok inst)).
  { intros m1 inst. unfold create_locked. intros Hc.
    repeat step_match_in Hc; done. }
  destruct (create_locked opts m) as [m1 [inst|e]]; [|left; apply Hs].
  specialize (Hp m1 inst eq_refl). destruct Hs as (Hcfg & (b & Hb & Hid & Hbid) & _ & _).
  assert (Hgone : forall e, e = ErrCopying \/ e = ErrInit ->
    boxes (inst_Destroy inst (mg_prov m1)).1 = boxes (mg_prov m) \/
    exists p1 inst', Provision opts (mg_prov m) = (p1, Ok inst') /\ (e = ErrCopying \/ e = ErrInit) /\
        (inst_Destroy inst (mg_prov m1)).1 = (inst_Destroy inst' p1).1 /\
        (boxes (inst_Destroy inst (mg_prov m1)).1 = others inst' (boxes (mg_prov m)) \/
         exists msg, (inst_Destroy inst' p1).2 = Some (ErrBackend msg))).
  { intros e He. right. exists (mg_prov m1), inst. split_and!; [done..|].
    destruct (inst_Destroy inst (mg_prov m1)) as [p' r] eqn:Hd. simpl.
    destruct r as [[|msg]|]; [left|eauto|left];
      rewrite (Destroy_ok _ _ _ _ Hd) by auto; rewrite Hb; unfold others at 1;
      rewrite filter_app, filter_cons_False, filter_nil, app_nil_r by naive_solver; apply others_others. }
  unfold create_finish. destruct (negb _); [by apply Hgone; auto|].
  destruct (g_Init _ _ _ _) as [resp|]; [|by apply Hgone; auto].
  destruct (ip_ScriptFailed resp); exists b; simpl; rewrite ?Hcfg; split_and!; auto;
    intros Hn; by rewrite Hb, others_new.
Qed.

Lemma Create_spec_witness :
  let m' := (Create (Demo.guest true) (Demo.opts "web") Demo.mgr).1 in
  is_ok (Create (Demo.guest true) (Demo.opts "web") Demo.mgr).2 = true /\
  exists b, boxes (mg_prov m') = [b] /\ box_BoxID b = "web".
Proof.
  intros m'. pose proof (Create_spec (Demo.guest true) (Demo.opts "web") Demo.mgr) as H.
  split; [vm_compute; reflexivity|]. unfold m'.
  destruct (Create (Demo.guest true) (Demo.opts "web") Demo.mgr) as [m1 [r|e]] eqn:Hc; [|by vm_compute in Hc].
  destruct H as (b & Hb & _ & _ & Hid & _). exists b. split; [exact Hb|exact Hid].
Defined.

(** destroying removes exactly the box its handle names and withdraws its
    network access: on success either no box has the handle and nothing changed,
    or the box found is gone, the others stay, and on an isolating spoke the
    resolver denies every lookup of the destroyed box; destroying a missing box
    is a success. *)
Theorem Destroy_spec :
  forall {P F} `{ProvisionerLaws P} `{Programmer F} x (m : Manager P (Enforcer F)),
  match Destroy x m with
  | (m', Ok _) =>
      (m' = m /\ forall b, b ∈ boxes (mg_prov m) -> box_InstanceID b <> x /\ (box_BoxID b <> "" -> box_BoxID b <> x)) \/
      (exists b, b ∈ boxes (mg_prov m) /\ handle b x /\
         boxes (mg_prov m') = others (box_InstanceID b) (boxes (mg_prov m)) /\
         match mg_iso m' with
         | Some e' => box_BoxID b <> "" -> forall q, StaticPolicy_Allowed (en_policy e') (box_BoxID b) q = None
         | None => mg_iso m = None
         end)
  | (m', Err e) => e <> ErrOther ErrBoxNotFound /\ sublist (boxes (mg_prov m')) (boxes (mg_prov m))
  end.
Proof.
  intros P F PP PL PF x m.
  pose proof (Destroy_boxes x m) as Hsub. unfold Destroy in *.
  destruct (Find x (mg_prov m)) as [b|[|msg]] eqn:Hf.
  - apply Find_ok in Hf as [Hin Hx].
    destruct (inst_Destroy (box_InstanceID b) (mg_prov m)) as [p' r] eqn:Hd.
    assert (Hok : r = None \/ r = Some ErrBoxNotFound -> boxes p' =
      others (box_InstanceID b) (boxes (mg_prov m))) by eauto using Destroy_ok.
    destruct r as [[|msg]|]; [right|done|right]; exists b; (split_and!; [done|done|by auto|]); simpl;
      (destruct (mg_iso m) as [e|]; [|done]); (destruct (String.eqb (box_BoxID b) "") eqn:He; bools; [done|]);
      simpl; unfold Isolation.Release; destruct (Teardown _ _); simpl; intros _ q; rewrite Allowed_Remove; by rewrite decide_True.
  - left. split; [done|]. intros b Hb. pose proof (Find_none _ _ _ Hf Hb) as Hn.
    split; [intros <-; by apply Hn, handle_id|intros Hne <-; by apply Hn, handle_box].
  - done.
Qed.

(** ** What the manager leaves undone

    The interface the manager drives isolation through only sets and drops
    policies: no box is ever configured.  Over an enforcer that starts empty,
    whatever the manager does, the resolver knows no box and the firewall has no
    baseline. *)
Lemma manager_never_configures {P} `{Provisioner P} (m m' : Manager P (Enforcer RecordingProgrammer)) e :
  rtc mgr_step m m' -> mg_iso m = Some e -> en_guestIPs e = ∅ -> en_boxes e = NewMapBoxes -> en_prog e = NewRecordingProgrammer ->
  exists e', mg_iso m' = Some e' /\ en_guestIPs e' = ∅ /\ en_boxes e' = NewMapBoxes /\ en_prog e' = NewRecordingProgrammer.
Proof.
  intros Hs Hi Hg Hb Hp. revert e Hi Hg Hb Hp. induction Hs as [m|m m1 m2 Hs1 _ IH]; intros e Hi Hg Hb Hp; [eauto|].
  assert (Hone : exists e1, mg_iso m1 = Some e1 /\ en_guestIPs e1 = ∅ /\ en_boxes e1 = NewMapBoxes /\ en_prog e1 = NewRecordingProgrammer).
  { destruct Hs1 as [opts m|g opts inst m|x m|b policy m|x m|x m].
    - exists e. split; [|done]. unfold create_locked. destruct (_ && negb _); [done|].
      destruct (_ || _); [destruct (prov_List _); [|done]; destruct (_ && _); [done|]; destruct (first_match _ _); [done|]|];
        by destruct (Provision opts (mg_prov m)) as [p' []].
    - exists e. split; [|done]. unfold create_finish. destruct (negb _); [done|].
      destruct (g_Init _ _ _ _) as [r|]; [|done]. by destruct (ip_ScriptFailed r).
    - unfold Destroy. destruct (Find x (mg_prov m)) as [meta|[]]; [|by exists e..].
      destruct (inst_Destroy _ _) as [p' [[]|]]; simpl; rewrite Hi; try (by exists e);
        (destruct (String.eqb _ ""); [by exists e|]); (eexists; split; [done|]); unfold ReleaseBox, Release; simpl; rewrite Hg, lookup_empty;
        simpl; unfold en_prog in Hp; simpl in *; rewrite Hp; by vm_compute.
    - unfold SetNetworkPolicy. rewrite Hi. simpl. eauto.
    - exists e. split; [|done]. unfold Pause. destruct (Find x (mg_prov m)); [|done]. by destruct (inst_Pause _ _) as [p' []].
    - exists e. split; [|done]. unfold Resume. destruct (Find x (mg_prov m)); [|done]. by destruct (inst_Resume _ _) as [p' []]. }
  destruct Hone as (e1 & H1 & H2 & H3 & H4). by apply (IH e1).
Qed.
