(* ===== verification/Conformance.v ===== *)
(** * The contract of provisioners (internal/spoke/box/conformance)

    The in-process [Fake] provisioner, an instance of the manager's interface,
    and the part of the contract suite that concerns the manager and its
    provisioner: each test is the boolean function that is false where the test
    fails.  They hold for every provisioner that keeps the interface's laws and
    is not failing. *)

From S2P Require Import Prelude GoStrings Regex Sandbox Netfw Isolation GuestProto Manager.

Local Open Scope Z_scope.

(** ** The fake *)

Record fakeInstance := MkFakeInstance {
  fi_id : string; fi_boxID : string; fi_created : Z; fi_phase : string; fi_paused : bool; fi_guest : bool }.

(** The counter and the boxes by id, in the order of their creation.  The
    environment: the order in which a range visits the map, the clock, and whether
    the socket of the next guests appears in time. *)
Record Fake := MkFake {
  fk_n : Z;
  fk_boxes : list fakeInstance;
  fk_range : { f : list fakeInstance -> list fakeInstance | forall l, f l ≡ₚ l };
  fk_now : Z;
  fk_serves : list bool;
}.

(** A range over the boxes. *)
Definition range (p : Fake) : list fakeInstance := proj1_sig (fk_range p) (fk_boxes p).

Lemma range_perm p : range p ≡ₚ fk_boxes p.
Proof. unfold range. by destruct (fk_range p). Qed.

Definition NewFake (order : { f : list fakeInstance -> list fakeInstance | forall l, f l ≡ₚ l }) (now : Z) (serves : list bool) : Fake :=
  MkFake 0 [] order now serves.

Definition Meta (i : fakeInstance) : Box :=
  MkBox (fi_id i) (fi_id i) (fi_boxID i) "" "" "fake" (if fi_paused i then StatePaused else "running") "" (fi_phase i) "" (fi_created i) 0.

(** [%06d] of the counter. *)
Fixpoint zeros (n : nat) : string := match n with O => "" | S n' => String "0" (zeros n') end.
Definition fake_id (n : Z) : string := let d := Itoa n in "fakebox" +:+ zeros (6 - String.length d) +:+ d.

Definition with_boxes (f : list fakeInstance -> list fakeInstance) (p : Fake) : Fake :=
  MkFake (fk_n p) (f (fk_boxes p)) (fk_range p) (fk_now p) (fk_serves p).

(** [serve] of a guest: whether its socket appears before the deadline. *)
Definition serve (p : Fake) : Fake * bool :=
  match fk_serves p with
  | [] => (p, true)
  | ok :: rest => (MkFake (fk_n p) (fk_boxes p) (fk_range p) (fk_now p) rest, ok)
  end.

Definition no_socket : ProvError := ErrBackend "box control socket did not appear".

Definition fake_Provision (opts : CreateOptions) (p : Fake) : Fake * res ProvError string :=
  let n := fk_n p + 1 in
  let p1 := MkFake n (fk_boxes p) (fk_range p) (fk_now p) (fk_serves p) in
  let inst := MkFakeInstance (fake_id n) (co_BoxID opts) (fk_now p) "pending" false true in
  let '(p2, ok) := serve p1 in
  if ok
  then (with_boxes (fun l => filter (fun i => fi_id i <> fi_id inst) l ++ [inst]) p2, Ok (fi_id inst))
  else (p2, Err no_socket).

Definition fake_List (p : Fake) : res ProvError (list Box) := Ok (Meta <$> range p).

Definition lookup_box (id : string) (p : Fake) : option fakeInstance := first_match (fun i => String.eqb (fi_id i) id) (fk_boxes p).

Definition fake_Find (idOrName : string) (p : Fake) : res ProvError Box :=
  match lookup_box idOrName p with
  | Some inst => Ok (Meta inst)
  | None =>
      match first_match (fun i => negb (String.eqb (fi_boxID i) "") && String.eqb (fi_boxID i) idOrName)
              (range p) with
      | Some inst => Ok (Meta inst)
      | None => Err ErrBoxNotFound
      end
  end.

(** An update of the instance [id]. *)
Definition on_box (id : string) (f : fakeInstance -> fakeInstance) : Fake -> Fake :=
  with_boxes (fmap (fun i => if String.eqb (fi_id i) id then f i else i)).

Definition MarkReady (id : string) : Fake -> Fake :=
  on_box id (fun i => MkFakeInstance (fi_id i) (fi_boxID i) (fi_created i) "ready" (fi_paused i) (fi_guest i)).
Definition stopGuest (i : fakeInstance) : fakeInstance :=
  MkFakeInstance (fi_id i) (fi_boxID i) (fi_created i) (fi_phase i) (fi_paused i) false.
Definition set_paused (paused : bool) (i : fakeInstance) : fakeInstance :=
  MkFakeInstance (fi_id i) (fi_boxID i) (fi_created i) (fi_phase i) paused (fi_guest i).
Definition set_guest (i : fakeInstance) : fakeInstance :=
  MkFakeInstance (fi_id i) (fi_boxID i) (fi_created i) (fi_phase i) (fi_paused i) true.

Definition fake_Pause (id : string) (p : Fake) : Fake * option ProvError :=
  match lookup_box id p with
  | None => (p, Some ErrBoxNotFound)
  | Some _ => (on_box id (fun i => set_paused true (stopGuest i)) p, None)
  end.

Definition fake_Resume (id : string) (p : Fake) : Fake * option ProvError :=
  match lookup_box id p with
  | None => (p, Some ErrBoxNotFound)
  | Some _ =>
      let '(p1, ok) := serve p in
      if ok then (on_box id (fun i => set_paused false (set_guest i)) p1, None) else (p1, Some no_socket)
  end.

Definition fake_Destroy (id : string) (p : Fake) : Fake * option ProvError :=
  (with_boxes (filter (fun i => fi_id i <> id)) p,
   match lookup_box id p with Some _ => None | None => Some ErrBoxNotFound end).

(** [shutdown]. *)
Definition fake_shutdown (p : Fake) : Fake := foldl (fun q i => (fake_Destroy (fi_id i) q).1) p (range p).

#[export] Instance Fake_Provisioner : Provisioner Fake := {
  Provision := fake_Provision;
  prov_List := fake_List;
  Find := fake_Find;
  inst_Pause := fake_Pause;
  inst_Resume := fake_Resume;
  inst_Destroy := fake_Destroy;
}.

Lemma serve_boxes p : fk_boxes (serve p).1 = fk_boxes p.
Proof. unfold serve. by destruct (fk_serves p). Qed.

Lemma others_Meta id (l : list fakeInstance) : others id (Meta <$> l) = Meta <$> filter (fun i => fi_id i <> id) l.
Proof.
  unfold others. induction l as [|i l IH]; [done|]. rewrite fmap_cons, !filter_cons. simpl.
  destruct (decide (fi_id i <> id)); by rewrite ?fmap_cons, IH.
Qed.

Lemma on_box_ids id f (l : list fakeInstance) :
  (forall i, fi_boxID (f i) = fi_boxID i) ->
  box_BoxID <$> (Meta <$> ((fun i => if String.eqb (fi_id i) id then f i else i) <$> l)) = box_BoxID <$> (Meta <$> l).
Proof.
  intros Hf. rewrite <- !list_fmap_compose. apply list_fmap_ext. intros ? i _. cbn. by destruct (String.eqb (fi_id i) id).
Qed.

#[export] Instance Fake_ProvisionerLaws : ProvisionerLaws Fake.
Proof.
  refine {| boxes p := Meta <$> fk_boxes p;
            handle b x := box_InstanceID b = x \/ (box_BoxID b <> "" /\ box_BoxID b = x) |}.
  - auto.
  - auto.
  - simpl. unfold fake_Provision. intros opts p p' id Hp. pose proof (serve_boxes (MkFake (fk_n p + 1) (fk_boxes p) (fk_range p) (fk_now p) (fk_serves p))) as Hb.
    destruct (serve _) as [p2 []]; simplify_eq. simpl in *. rewrite Hb, fmap_app, others_Meta. simpl. eauto.
  - simpl. unfold fake_Provision. intros opts p p' e Hp. pose proof (serve_boxes (MkFake (fk_n p + 1) (fk_boxes p) (fk_range p) (fk_now p) (fk_serves p))) as Hb.
    destruct (serve _) as [p2 []]; simplify_eq. simpl in *. by rewrite Hb.
  - simpl. unfold fake_List. intros p l [= <-]. apply fmap_Permutation, range_perm.
  - simpl. unfold fake_Find. intros x p b Hf. destruct (lookup_box x p) as [i|] eqn:Hl.
    + apply first_match_elem in Hl as [Hin He]. simplify_eq. apply String.eqb_eq in He. split; [by apply list_elem_of_fmap_2|by left].
    + destruct (first_match _ _) as [i|] eqn:Hm; simplify_eq. apply first_match_elem in Hm as [Hin He].
      rewrite range_perm in Hin. bools. split; [by apply list_elem_of_fmap_2|by right].
  - simpl. unfold fake_Find. intros x p b Hf Hin. destruct (lookup_box x p) as [i|] eqn:Hl; [done|].
    destruct (first_match _ _) as [i|] eqn:Hm; [done|]. apply list_elem_of_fmap in Hin as (i & -> & Hin).
    apply first_match_None in Hl, Hm. rewrite Forall_forall in Hl, Hm. specialize (Hl i Hin).
    specialize (Hm i ltac:(by rewrite range_perm)). cbn in *.
    apply String.eqb_neq in Hl. intros [?|[Hne ?]]; [done|]. subst x. apply String.eqb_neq in Hne. rewrite Hne, String.eqb_refl in Hm. done.
  - simpl. intros id p p' r [= <- <-] _. simpl. by rewrite others_Meta.
  - simpl. intros id p p' r [= <- <-]. simpl. apply fmap_sublist, sublist_filter.
  - simpl. intros id p. unfold fake_Pause. destruct (lookup_box id p); [|done]. by apply on_box_ids.
  - simpl. intros id p. unfold fake_Resume. destruct (lookup_box id p); [|done]. pose proof (serve_boxes p) as Hb.
    destruct (serve p) as [p1 []]; simpl in *; rewrite <- Hb; [|done]. by apply on_box_ids.
Defined.

(** ** A provisioner that is not failing *)

Definition set_state (s : string) (id : string) (b : Box) : Box :=
  if String.eqb (box_InstanceID b) id
  then MkBox (box_InstanceID b) (box_Name b) (box_BoxID b) (box_Description b) (box_Spoke b) (box_Image b) s (box_Status b)
         (box_Phase b) (box_LastError b) (box_Created b) (box_LastSeen b)
  else b.

(** Its operations succeed, with room for [k] more boxes; new boxes have new ids,
    and a box is paused and resumed as its state says. *)
Class ProvisionerUp (P : Type) `{ProvisionerLaws P} := {
  up : nat -> P -> Prop;
  up_Provision : forall k opts p, up (S k) p ->
    exists p' id, Provision opts p = (p', Ok id) /\ up k p' /\ id ∉ box_InstanceID <$> boxes p;
  up_List : forall k p, up k p -> exists l, prov_List p = Ok l;
  up_Find : forall k x p e, up k p -> Find x p = Err e -> e = ErrBoxNotFound;
  up_Destroy : forall k id p p' r, up k p -> inst_Destroy id p = (p', r) -> up k p' /\ (r = None \/ r = Some ErrBoxNotFound);
  up_Pause : forall k b p, up k p -> b ∈ boxes p -> exists p',
    inst_Pause (box_InstanceID b) p = (p', None) /\ up k p' /\ boxes p' = set_state StatePaused (box_InstanceID b) <$> boxes p;
  up_Resume : forall k b p, up k p -> b ∈ boxes p -> exists p',
    inst_Resume (box_InstanceID b) p = (p', None) /\ up k p' /\ boxes p' = set_state "running" (box_InstanceID b) <$> boxes p;
}.

(** Decimal digits read back. *)
Lemma digit_byte_value d : 0 <= d < 10 -> is_digit (digit_byte d) = true /\ Z.of_N (N_of_ascii (digit_byte d)) - 48 = d.
Proof.
  intros Hd. assert (Hall : forallb (fun d => is_digit (digit_byte d) && (Z.of_N (N_of_ascii (digit_byte d)) - 48 =? d)) (seqZ 0 10) = true)
    by (by vm_compute).
  rewrite forallb_forall in Hall. specialize (Hall d). rewrite <- list_elem_of_In, elem_of_seqZ in Hall.
  specialize (Hall ltac:(lia)). apply andb_true_iff in Hall as [H1 H2]. split; [done|by apply Z.eqb_eq].
Qed.

Lemma atoi_digits_of fuel : forall n acc,
  0 <= n < 10 ^ Z.of_nat fuel -> atoi_digits (digits_of fuel n acc) 0 = atoi_digits acc n.
Proof.
  induction fuel as [|fuel IH]; intros n acc Hn; [simpl in Hn; by replace n with 0 by lia|].
  rewrite Nat2Z.inj_succ, Z.pow_succ_r in Hn by lia. cbn [digits_of].
  destruct (digit_byte_value (n mod 10)) as [Hd Hv]; [by apply Z.mod_pos_bound|].
  destruct (Z.ltb_spec n 10).
  - cbn [atoi_digits]. rewrite Hd, Hv. f_equal. rewrite Z.mod_small; lia.
  - rewrite IH by (split; [apply Z.div_pos; lia|apply Z.div_lt_upper_bound; lia]).
    cbn [atoi_digits]. rewrite Hd, Hv. f_equal. pose proof (Z.div_mod n 10). lia.
Qed.

Lemma atoi_zeros k s : atoi_digits (zeros k +:+ s) 0 = atoi_digits s 0.
Proof. induction k as [|k IH]; [done|]. cbn [zeros]. rewrite sapp_cons. exact IH. Qed.

Lemma fake_id_inj n m : 0 <= n < 2 ^ 63 -> 0 <= m < 2 ^ 63 -> fake_id n = fake_id m -> n = m.
Proof.
  intros Hn Hm He. unfold fake_id in He. apply sapp_inj_l in He. apply (f_equal (fun s => atoi_digits s 0)) in He.
  rewrite !atoi_zeros in He. unfold Itoa in He. destruct (Z.ltb_spec n 0), (Z.ltb_spec m 0); try lia.
  rewrite !atoi_digits_of in He by (change (Z.of_nat 20) with 20; lia). cbn in He. congruence.
Qed.

(** The fake is up as long as its guests come up. *)
Definition fake_up (k : nat) (p : Fake) : Prop :=
  Forall (fun ok => ok = true) (fk_serves p) /\ 0 <= fk_n p /\ fk_n p + Z.of_nat k < 2 ^ 63 /\
  Forall (fun i => exists n, 0 < n <= fk_n p /\ fi_id i = fake_id n) (fk_boxes p).

Lemma serve_up p : Forall (fun ok => ok = true) (fk_serves p) ->
  exists rest, serve p = (MkFake (fk_n p) (fk_boxes p) (fk_range p) (fk_now p) rest, true) /\ Forall (fun ok => ok = true) rest.
Proof.
  intros Hs. unfold serve. destruct (fk_serves p) as [|ok rest] eqn:Hq.
  - exists []. rewrite <- Hq at 1. by destruct p.
  - apply Forall_cons in Hs as [-> Hs]. by exists rest.
Qed.

Lemma on_box_state id f s (l : list fakeInstance) :
  (forall i, Meta (f i) = set_state s (fi_id i) (Meta i)) ->
  Meta <$> ((fun i => if String.eqb (fi_id i) id then f i else i) <$> l) = set_state s id <$> (Meta <$> l).
Proof.
  intros Hf. rewrite <- !list_fmap_compose. apply list_fmap_ext. intros ? i _. cbn. unfold set_state. cbn.
  destruct (String.eqb_spec (fi_id i) id) as [<-|]; [|done]. rewrite Hf. unfold set_state. cbn. by rewrite String.eqb_refl.
Qed.

Lemma on_box_up id f k p : (forall i, fi_id (f i) = fi_id i) -> fake_up k p -> fake_up k (on_box id f p).
Proof.
  intros Hf (H1 & H2 & H3 & H4). split_and!; try done. simpl. rewrite Forall_fmap. eapply Forall_impl; [exact H4|].
  intros i (n & Hn & He). exists n. split; [done|]. cbn. destruct (String.eqb (fi_id i) id); [by rewrite Hf|done].
Qed.

Lemma lookup_known b p : b ∈ Meta <$> fk_boxes p -> is_Some (lookup_box (box_InstanceID b) p).
Proof.
  intros (i & -> & Hin)%list_elem_of_fmap. destruct (lookup_box _ p) eqn:Hl; [done|].
  apply first_match_None in Hl. rewrite Forall_forall in Hl. specialize (Hl i Hin). cbn in Hl. by rewrite String.eqb_refl in Hl.
Qed.

#[export] Instance Fake_Up : ProvisionerUp Fake.
Proof.
  refine {| up := fake_up |}.
  - intros k opts p (Hs & Hn & Hb & Hids). simpl. unfold fake_Provision.
    destruct (serve_up (MkFake (fk_n p + 1) (fk_boxes p) (fk_range p) (fk_now p) (fk_serves p)) Hs) as (rest & -> & Hr).
    do 2 eexists. split; [done|]. rewrite Nat2Z.inj_succ in Hb. split.
    + split_and!; simpl; [done|lia|lia|]. apply Forall_app. split.
      * eapply Forall_impl; [eapply Forall_sublist; [apply sublist_filter|exact Hids]|].
        intros i (n & ? & ?). exists n. split; [lia|done].
      * apply Forall_singleton. exists (fk_n p + 1). split; [lia|done].
    + simpl. intros (b & He & (i & -> & Hin)%list_elem_of_fmap)%list_elem_of_fmap. rewrite Forall_forall in Hids.
      destruct (Hids i Hin) as (n & Hn' & Hid). cbn in He. rewrite Hid in He. apply fake_id_inj in He; lia.
  - intros k p _. simpl. unfold fake_List. eauto.
  - intros k x p e _. simpl. unfold fake_Find. repeat case_match; congruence.
  - intros k id p p' r (Hs & Hn & Hb & Hids) [= <- <-]. split; [|by case_match; auto].
    split_and!; simpl; try done. eapply Forall_sublist; [apply sublist_filter|done].
  - intros k b p Hu Hin. simpl. unfold fake_Pause. destruct (lookup_known b p Hin) as [i ->].
    eexists. split; [done|]. split; [by apply on_box_up|]. simpl. apply on_box_state.
    intros i'. unfold set_state. cbn. by rewrite String.eqb_refl.
  - intros k b p Hu Hin. simpl. unfold fake_Resume. destruct (lookup_known b p Hin) as [i ->].
    destruct Hu as (Hs & Hn & Hb & Hids). destruct (serve_up p Hs) as (rest & -> & Hr).
    eexists. split; [done|]. split; [apply on_box_up; [done|by split_and!]|]. simpl. apply on_box_state.
    intros i'. unfold set_state. cbn. by rewrite String.eqb_refl.
Defined.

(** ** The contract *)

Section Contract.
Context {P A : Type} `{ProvisionerUp P} `{PolicyApplier A} (g : Guest).
Implicit Types (m : Manager P A).

Definition new_manager (maxBoxes : Z) (p : P) : Manager P A := NewManager p None (MkConfig maxBoxes "" 0 [] []).
Definition box_opts (id : string) : CreateOptions := MkCreateOptions id "" "" [] 0.

Definition ok {B} (r : res ManagerError B) : bool := match r with Ok _ => true | Err _ => false end.

Definition testDestroyIdempotent (p : P) : bool :=
  match Create g (box_opts "") (new_manager 0 p) with
  | (_, Err _) => false
  | (m1, Ok created) =>
      let id := cr_InstanceID created in
      let '(m2, r2) := Destroy id m1 in
      let '(m3, r3) := Destroy id m2 in
      let '(_, r4) := Destroy "never-existed" m3 in
      ok r2 && ok r3 && ok r4
  end.

Definition testListAndFind (exec : string -> res ManagerError ExecResult) (p : P) : bool :=
  match Create g (box_opts "a") (new_manager 0 p) with
  | (_, Err _) => false
  | (m1, Ok _) =>
      match Create g (box_opts "b") m1 with
      | (_, Err _) => false
      | (m2, Ok _) =>
          match List_ m2 with
          | Err _ => false
          | Ok boxes =>
              Nat.eqb (length boxes) 2 &&
              match through_guest exec "no-such-box" m2 with
              | Err (ErrOther ErrBoxNotFound) => true
              | _ => false
              end
          end
      end
  end.

Definition testInvalidBoxID (p : P) : bool := negb (ok (Create g (box_opts "Bad_ID") (new_manager 0 p)).2).

Definition testDuplicateBoxID (p : P) : bool :=
  match Create g (box_opts "dup") (new_manager 0 p) with
  | (_, Err _) => false
  | (m1, Ok _) => negb (ok (Create g (box_opts "dup") m1).2)
  end.

Definition testMaxBoxes (p : P) : bool :=
  match Create g (box_opts "") (new_manager 1 p) with
  | (_, Err _) => false
  | (m1, Ok _) => negb (ok (Create g (box_opts "") m1).2)
  end.

(** The guest answers the initialisation of every box. *)
Context (Hguest : forall inst t r, exists resp, g_Init g inst t r = Some resp /\ ip_ScriptFailed resp = false).

Lemma create_ok k opts m :
  up (S k) (mg_prov m) -> cfg_CopyFiles (mg_cfg m) = [] ->
  (co_BoxID opts = "" \/ ValidBoxID (co_BoxID opts) = true) ->
  (0 < cfg_MaxBoxes (mg_cfg m) -> Z.of_nat (length (boxes (mg_prov m))) < cfg_MaxBoxes (mg_cfg m)) ->
  (co_BoxID opts <> "" -> Forall (fun b => EqualFold (box_BoxID b) (co_BoxID opts) = false) (boxes (mg_prov m))) ->
  exists m' r b, Create g opts m = (m', Ok r) /\ up k (mg_prov m') /\ mg_cfg m' = mg_cfg m /\
    boxes (mg_prov m') = boxes (mg_prov m) ++ [b] /\ box_InstanceID b = cr_InstanceID r /\ box_BoxID b = co_BoxID opts.
Proof.
  intros Hu Hcp Hid Hcap Hfree. destruct (up_Provision k opts _ Hu) as (p' & id & Hp & Hu' & Hnew).
  assert (Hl : create_locked opts m = (with_prov m p', Ok id)).
  { unfold create_locked. rewrite Hp.
    assert (Hv : negb (String.eqb (co_BoxID opts) "") && negb (ValidBoxID (co_BoxID opts)) = false).
    { destruct Hid as [->| ->]; [done|]. by rewrite andb_false_r. }
    rewrite Hv. destruct (_ || _); [|done]. destruct (up_List (S k) _ Hu) as [l Hl]. rewrite Hl. apply List_ok in Hl.
    assert (Hc : (0 <? cfg_MaxBoxes (mg_cfg m)) && (cfg_MaxBoxes (mg_cfg m) <=? Z.of_nat (length l)) = false).
    { destruct (Z.ltb_spec 0 (cfg_MaxBoxes (mg_cfg m))) as [Hpos|]; [|done]. specialize (Hcap Hpos). rewrite Hl.
      simpl. apply Z.leb_gt. lia. }
    rewrite Hc. destruct (first_match _ l) as [b|] eqn:Hf; [|done]. apply first_match_elem in Hf as [Hin Hb].
    apply andb_true_iff in Hb as [Hne Hb]. apply negb_true_iff, String.eqb_neq in Hne. specialize (Hfree Hne).
    rewrite Forall_forall in Hfree. rewrite Hl in Hin. specialize (Hfree _ Hin). congruence. }
  destruct (Provision_ok _ _ _ _ Hp) as (b & Hbx & Hbi & Hbb). rewrite others_new in Hbx by done.
  unfold Create. rewrite Hl. unfold create_finish. simpl. rewrite Hcp. simpl.
  destruct (Hguest id (initContext (mg_cfg m)) (MkInitReq (co_Files opts) [] (cfg_InitScript (mg_cfg m)) (cfg_InitScriptTimeout (mg_cfg m))))
    as (resp & -> & Hs). rewrite Hs. do 3 eexists. split; [done|]. simpl. split_and!; try done.
Qed.

Lemma create_refused opts m :
  (co_BoxID opts <> "" /\ (ValidBoxID (co_BoxID opts) = false \/
     exists b, b ∈ boxes (mg_prov m) /\ EqualFold (box_BoxID b) (co_BoxID opts) = true)) \/
  (0 < cfg_MaxBoxes (mg_cfg m) <= Z.of_nat (length (boxes (mg_prov m)))) ->
  ok (Create g opts m).2 = false.
Proof.
  intros Hbad. unfold Create. pose proof (create_locked_spec opts m) as Hs.
  destruct (create_locked opts m) as [m' [inst|e]]; [|done]. exfalso.
  destruct Hs as (_ & _ & Hcap & Hid). destruct Hbad as [[Hne [Hv|(b & Hin & He)]]|Hc].
  - destruct (Hid Hne) as [Hv' _]. congruence.
  - destruct (Hid Hne) as [_ Hf]. rewrite Forall_forall in Hf. specialize (Hf b Hin). congruence.
  - specialize (Hcap ltac:(lia)). lia.
Qed.

Lemma destroy_ok k x m : up k (mg_prov m) -> ok (Destroy x m).2 = true /\ up k (mg_prov (Destroy x m).1).
Proof.
  intros Hu. unfold Destroy. destruct (Find x (mg_prov m)) as [b|e] eqn:Hf.
  - destruct (inst_Destroy _ _) as [p' r] eqn:Hd. destruct (up_Destroy _ _ _ _ _ Hu Hd) as [Hu' [->| ->]]; done.
  - by rewrite (up_Find _ _ _ _ Hu Hf).
Qed.

End Contract.

(** Every provisioner that keeps the interface's laws meets the contract.
    Started empty, with room for two boxes and guests that answer: destroying a
    box again, or one that never existed, is no error; boxes are listed and an
    unknown one is reported as such; a malformed id, an id in use and a box
    beyond the cap are refused. *)
Theorem lawful_provisioners_conform :
  forall {P A} `{ProvisionerUp P} `{PolicyApplier A} (g : Guest) (exec : string -> res ManagerError ExecResult) (p : P),
  (forall inst t r, exists resp, g_Init g inst t r = Some resp /\ ip_ScriptFailed resp = false) ->
  up 2 p -> boxes p = [] ->
  (forall k q b, up k q -> b ∈ boxes q -> handle b "no-such-box" -> box_BoxID b = "no-such-box") ->
  testDestroyIdempotent (A := A) g p = true /\ testListAndFind (A := A) g exec p = true /\
  testInvalidBoxID (A := A) g p = true /\ testDuplicateBoxID (A := A) g p = true /\ testMaxBoxes (A := A) g p = true.
Proof.
  intros P A PP PL PU PA g exec p Hg Hu Hb Hno.
  assert (Hfirst : forall max id, max = 0 \/ max = 1 -> id = "" \/ ValidBoxID id = true ->
    exists m r b, Create g (box_opts id) (new_manager (A := A) max p) = (m, Ok r) /\ up 1 (mg_prov m) /\
      mg_cfg m = MkConfig max "" 0 [] [] /\ boxes (mg_prov m) = [b] /\ box_InstanceID b = cr_InstanceID r /\ box_BoxID b = id).
  { intros max id Hmax Hid. destruct (create_ok (A := A) g Hg 1 (box_opts id) (new_manager max p))
      as (m & r & b & Hc & Hu1 & Hcfg & Hbx & Hbi & Hbb); simpl; auto.
    - rewrite Hb. simpl. lia.
    - rewrite Hb. constructor.
    - exists m, r, b. simpl in Hbx. rewrite Hb in Hbx. by split_and!. }
  split_and!.
  - unfold testDestroyIdempotent. destruct (Hfirst 0 "") as (m & r & b & -> & Hu1 & _); auto.
    destruct (destroy_ok 1 (cr_InstanceID r) m Hu1) as [H1 U1]. destruct (Destroy (cr_InstanceID r) m) as [m2 r2].
    destruct (destroy_ok 1 (cr_InstanceID r) m2 U1) as [H2 U2]. destruct (Destroy (cr_InstanceID r) m2) as [m3 r3].
    destruct (destroy_ok 1 "never-existed" m3 U2) as [H3 _]. destruct (Destroy "never-existed" m3) as [m4 r4].
    simpl in *. by rewrite H1, H2, H3.
  - unfold testListAndFind. destruct (Hfirst 0 "a") as (m & r & b & -> & Hu1 & Hcfg & Hbx & Hbi & Hbb); [by auto|by right; vm_compute|].
    destruct (create_ok (A := A) g Hg 0 (box_opts "b") m) as (m2 & r2 & b2 & -> & Hu2 & _ & Hbx2 & _ & Hbb2).
    { done. } { by rewrite Hcfg. } { by right; vm_compute. } { rewrite Hcfg. simpl. lia. }
    { intros _. rewrite Hbx. constructor; [rewrite Hbb; by vm_compute|constructor]. }
    destruct (up_List 0 _ Hu2) as [l Hl]. unfold List_. rewrite Hl. apply List_ok in Hl. rewrite Hl, Hbx2, Hbx. simpl.
    unfold through_guest. destruct (Find "no-such-box" (mg_prov m2)) as [b0|e] eqn:Hf.
    + apply Find_ok in Hf as [Hin Hh]. pose proof (Hno _ _ _ Hu2 Hin Hh) as He. rewrite Hbx2, Hbx in Hin. simpl in Hin, Hbb2.
      rewrite !elem_of_cons, elem_of_nil in Hin. destruct Hin as [->|[->|[]]]; congruence.
    + by rewrite (up_Find _ _ _ _ Hu2 Hf).
  - unfold testInvalidBoxID. rewrite (create_refused g (box_opts "Bad_ID")); [done|]. left. split; [done|]. left. by vm_compute.
  - unfold testDuplicateBoxID. destruct (Hfirst 0 "dup") as (m & r & b & -> & Hu1 & Hcfg & Hbx & Hbi & Hbb); [by auto|by right; vm_compute|].
    rewrite (create_refused g (box_opts "dup") m); [done|]. left. split; [done|]. right. exists b. rewrite Hbx, Hbb.
    split; [by left|by vm_compute].
  - unfold testMaxBoxes. destruct (Hfirst 1 "") as (m & r & b & -> & Hu1 & Hcfg & Hbx & Hbi & Hbb); [by auto..|].
    rewrite (create_refused g (box_opts "") m); [done|]. right. rewrite Hcfg, Hbx. simpl. lia.
Qed.

(** The fake conforms, whatever the order of its map. *)
Definition some_fake : Fake := NewFake (exist _ reverse reverse_Permutation) 1700000000 [true; true].
Definition answering : Guest := MkGuest (fun _ _ => true) (fun _ _ _ => Some (MkInitResp false "" "")).

Lemma lawful_provisioners_conform_witness :
  testDestroyIdempotent (A := Enforcer RecordingProgrammer) answering some_fake = true /\
  testListAndFind (A := Enforcer RecordingProgrammer) answering (fun _ => Err ErrInit) some_fake = true /\
  testInvalidBoxID (A := Enforcer RecordingProgrammer) answering some_fake = true /\
  testDuplicateBoxID (A := Enforcer RecordingProgrammer) answering some_fake = true /\
  testMaxBoxes (A := Enforcer RecordingProgrammer) answering some_fake = true.
Proof.
  apply (lawful_provisioners_conform (P := Fake)).
  - intros. by eexists.
  - split_and!; simpl; [repeat constructor|lia|lia|constructor].
  - reflexivity.
  - intros k q b (_ & _ & _ & Hids) (i & -> & Hin)%list_elem_of_fmap. cbn. intros [He|[_ He]]; [|done].
    rewrite Forall_forall in Hids. destruct (Hids i Hin) as (n & _ & Hid). rewrite Hid in He. by unfold fake_id in He.
Defined.
