(* ===== verification/Mvmnet.v ===== *)
(** * Micro-VM egress networking (internal/spoke/microvm/mvmnet)

    The addressing of the pool slots, the egress modes, and the host plumbing
    of a pool of TAP devices with its NAT and isolation rules.  The commands the
    plumbing runs ([ip], [iptables], [sysctl]) are the class [HostTools], with
    their documented effect as [HostLaws]; [SimHost] is a host that obeys them. *)

From S2P Require Import Prelude GoStrings.

Local Open Scope Z_scope.
Local Open Scope go_scope.

(** ** Addressing *)

Definition MaxIndex : Z := 255.

Record NetConfig := MkNetConfig {
  nc_TapPrefix : string;
  nc_SubnetBase : string;
  nc_TapGroup : Z;
  nc_Uplink : string;
}.

Definition aggregateSubnet (c : NetConfig) : string := nc_SubnetBase c +:+ ".0.0/16".

Record BoxNet := MkBoxNet {
  bn_Index : Z;
  bn_TapName : string;
  bn_HostIP : string;
  bn_GuestIP : string;
  bn_Netmask : string;
}.

Definition TapName (c : NetConfig) (index : Z) : string := nc_TapPrefix c +:+ Itoa index.

Definition NetFor (c : NetConfig) (index : Z) : BoxNet :=
  MkBoxNet index (TapName c index)
    (nc_SubnetBase c +:+ "." +:+ Itoa index +:+ ".1")
    (nc_SubnetBase c +:+ "." +:+ Itoa index +:+ ".2")
    "255.255.255.252".

(** The verbs [%02x] and [%02X] on a byte. *)
Definition hex_nibble (upper : bool) (d : Z) : ascii :=
  ascii_of_N (Z.to_N (if d <? 10 then 48 + d else (if upper then 55 else 87) + d)).

Definition hex_byte (upper : bool) (b : Z) : string :=
  String (hex_nibble upper (b / 16)) (String (hex_nibble upper (b mod 16)) "").

Definition MACForIndex (index : Z) : string :=
  "02:00:00:00:" +:+ hex_byte false (Z.land (Z.shiftr index 8) 255) +:+ ":" +:+
  hex_byte false (Z.land index 255).

Definition KernelIPArg (n : BoxNet) : string :=
  "ip=" +:+ bn_GuestIP n +:+ "::" +:+ bn_HostIP n +:+ ":" +:+ bn_Netmask n +:+ "::eth0:off".

(** ** Egress modes *)

Inductive EgressMode := EgressManaged | EgressExternal | EgressDisabled.

#[export] Instance EgressMode_eq_dec : EqDecision EgressMode.
Proof. solve_decision. Defined.

Definition EgressMode_String (m : EgressMode) : string :=
  match m with
  | EgressManaged => "managed"
  | EgressExternal => "external"
  | EgressDisabled => "disabled"
  end.

Definition ParseEgressMode (s : string) : res string EgressMode :=
  let t := ToLower (TrimSpace s) in
  if String.eqb t "" || String.eqb t "managed" then Ok EgressManaged
  else if String.eqb t "external" then Ok EgressExternal
  else if String.eqb t "disabled" then Ok EgressDisabled
  else Err s.

(** ** The host's tools

    [exec argv] runs a command: [Ok out] is exit status zero with its output,
    [Err out] any other end. *)
Class HostTools (H : Type) := { exec : list string -> H -> H * res string string }.

Inductive EgressError :=
| ErrForwarding (out : string)
| ErrCreatingTap (name out : string)
| ErrBringUp (name out : string)
| ErrAddingRule (rule : list string) (out : string)
| ErrUplink (out : string)
| ErrNoDefaultRoute (out : string)
| ErrIncomplete (missing : list string).

(** The administrative flag in the [<...>] block of an [ip -o link show] line. *)
Definition linkFlagsUp (line : string) : bool :=
  match IndexByte line "<", IndexByte line ">" with
  | Some lt, Some gt =>
      if (gt <? lt)%nat then false
      else existsb (String.eqb "UP") (Split (String.substring (lt + 1) (gt - lt - 1) line) ",")
  | _, _ => false
  end.

Definition ruleInsertAt (rule : list string) : nat :=
  match rule with
  | r0 :: _ :: _ => if String.eqb r0 "-t" then 3 else 1
  | _ => 1
  end.

Definition insertVerb (args : list string) (i : nat) (verb : string) : list string :=
  take i args ++ verb :: drop i args.

Definition sharedRules (c : NetConfig) (uplink : string) : list (list string) :=
  let sub := aggregateSubnet c in
  [ ["-t"; "nat"; "POSTROUTING"; "-s"; sub; "-o"; uplink; "-j"; "MASQUERADE"];
    ["FORWARD"; "-s"; sub; "-d"; sub; "-j"; "DROP"];
    ["FORWARD"; "-s"; sub; "-o"; uplink; "-j"; "ACCEPT"];
    ["FORWARD"; "-d"; sub; "-m"; "state"; "--state"; "RELATED,ESTABLISHED"; "-j"; "ACCEPT"] ].

(** The indices of a [for i := 0; i < size; i++] loop. *)
Definition slots (size : Z) : list Z := Z.of_nat <$> seq 0 (Z.to_nat size).

(** The word after the first ["dev"]. *)
Fixpoint after_dev (fields : list string) : option string :=
  match fields with
  | [] => None
  | f :: rest => if String.eqb f "dev" then head rest else after_dev rest
  end.

Section Egress.
Context {H : Type} `{HostTools H}.

Definition run (args : list string) : go H string () :=
  fun h => match exec args h with
           | (h', Ok _) => (h', Ok ())
           | (h', Err out) => (h', Err (TrimSpace out))
           end.

(** [_ = run(...)]. *)
Definition run_ignore (args : list string) : go H EgressError () := fun h => ((exec args h).1, Ok ()).

(** [if err := run(...); err != nil { return fmt.Errorf(...) }]. *)
Definition run_or (wrap : string -> EgressError) (args : list string) : go H EgressError () :=
  fun h => match run args h with
           | (h', Ok _) => (h', Ok ())
           | (h', Err out) => (h', Err (wrap out))
           end.

(** [run(...) == nil]. *)
Definition run_ok (args : list string) : go H EgressError bool :=
  fun h => let '(h', r) := run args h in (h', Ok (is_ok r)).

Definition resolveUplink (c : NetConfig) : go H EgressError string :=
  if negb (String.eqb (nc_Uplink c) "") then go_ret (nc_Uplink c)
  else fun h =>
    match exec ["ip"; "route"; "show"; "default"] h with
    | (h', Err out) => (h', Err (ErrUplink out))
    | (h', Ok out) =>
        match after_dev (Fields out) with
        | Some f => (h', Ok f)
        | None => (h', Err (ErrNoDefaultRoute (TrimSpace out)))
        end
    end.

Definition ensureTap (c : NetConfig) (n : BoxNet) : go H EgressError () :=
  let* present := run_ok ["ip"; "link"; "show"; bn_TapName n] in
  let* _ :=
    (if present then go_ret ()
     else
       let add := ["ip"; "tuntap"; "add"; "dev"; bn_TapName n; "mode"; "tap"] ++
                  (if 0 <? nc_TapGroup c then ["group"; Itoa (nc_TapGroup c)] else []) in
       run_or (ErrCreatingTap (bn_TapName n)) add) in
  let* _ := run_ignore ["ip"; "addr"; "add"; bn_HostIP n +:+ "/30"; "dev"; bn_TapName n] in
  run_or (ErrBringUp (bn_TapName n)) ["ip"; "link"; "set"; "dev"; bn_TapName n; "up"].

Definition ensureRule (rule : list string) : go H EgressError () :=
  let check := insertVerb ("iptables" :: rule) (ruleInsertAt rule) "-C" in
  let add := insertVerb ("iptables" :: rule) (ruleInsertAt rule) "-A" in
  let* present := run_ok check in
  if present then go_ret () else run_or (ErrAddingRule rule) add.

Definition EnsurePool (c : NetConfig) (size : Z) : go H EgressError () :=
  let* uplink := resolveUplink c in
  let* _ := run_or ErrForwarding ["sysctl"; "-w"; "net.ipv4.ip_forward=1"] in
  let* _ := for_each (slots size) (fun i => ensureTap c (NetFor c i)) in
  for_each (sharedRules c uplink) ensureRule.

(** One slot of [ValidatePool]: what is missing, if anything. *)
Definition validateSlot (c : NetConfig) (h : H) (i : Z) : option string :=
  let name := TapName c i in
  match (exec ["ip"; "-o"; "link"; "show"; name] h).2 with
  | Err _ => Some (name +:+ " (not found)")
  | Ok out => if linkFlagsUp out then None else Some (name +:+ " (administratively down)")
  end.

Fixpoint validate_loop (c : NetConfig) (idx : list Z) (missing : list string) : go H EgressError () :=
  match idx with
  | [] => if (0 <? length missing)%nat then go_fail (ErrIncomplete missing) else go_ret ()
  | i :: idx' => fun h =>
      let h' := (exec ["ip"; "-o"; "link"; "show"; TapName c i] h).1 in
      validate_loop c idx' (missing ++ match validateSlot c h i with Some m => [m] | None => [] end) h'
  end.

Definition ValidatePool (c : NetConfig) (size : Z) : go H EgressError () := validate_loop c (slots size) [].

Definition TeardownPool (c : NetConfig) (size : Z) : go H EgressError () := fun h =>
  let '(h1, up) := resolveUplink c h in
  let uplink := match up with Ok u => u | Err _ => "" end in
  (let* _ := for_each (sharedRules c uplink)
               (fun r => run_ignore (insertVerb ("iptables" :: r) (ruleInsertAt r) "-D")) in
   for_each (slots size) (fun i => run_ignore ["ip"; "link"; "del"; TapName c i])) h1.
End Egress.

(** ** Reading addresses

    The reference reading of what the addressing writes: dotted decimal octets
    and the 32-bit number they stand for. *)
Fixpoint dec_acc (s : string) (acc : Z) : option Z :=
  match s with
  | "" => Some acc
  | String d s' => if is_digit d then dec_acc s' (acc * 10 + (Z.of_N (N_of_ascii d) - 48)) else None
  end.

Definition octet (s : string) : option Z :=
  if String.eqb s "" then None
  else match dec_acc s 0 with
       | Some n => if n <=? 255 then Some n else None
       | None => None
       end.

Definition octets (s : string) : option (list Z) := mapM octet (Split s ".").

Definition ipv4 (s : string) : option Z :=
  match octets s with
  | Some [a; b; c; d] => Some (a * 2 ^ 24 + b * 2 ^ 16 + c * 2 ^ 8 + d)
  | _ => None
  end.

(** A property of every slot is checked slot by slot. *)
Lemma every_slot (P : Z -> bool) :
  forallb P (slots (MaxIndex + 1)) = true -> forall i, 0 <= i <= MaxIndex -> P i = true.
Proof.
  rewrite forallb_forall. intros Hall i Hi. apply Hall. unfold slots. apply in_map_iff.
  exists (Z.to_nat i). unfold MaxIndex in *. split; [lia|]. apply in_seq. lia.
Qed.

Lemma Itoa_slot i : 0 <= i <= MaxIndex ->
  octet (Itoa i) = Some i /\ ContainsByte (Itoa i) "." = false /\ (String.length (Itoa i) <= 3)%nat.
Proof.
  set (P := fun i => match octet (Itoa i) with Some n => n =? i | None => false end &&
    negb (ContainsByte (Itoa i) ".") && (String.length (Itoa i) <=? 3)%nat).
  assert (Hall : forallb P (slots (MaxIndex + 1)) = true) by (vm_compute; reflexivity).
  intros Hi. pose proof (every_slot P Hall i Hi) as Hc. clear Hall. unfold P in Hc. clear P. bools.
  destruct (octet (Itoa i)); [|done]. bools. subst. by rewrite <- Nat.leb_le.
Qed.

Lemma mapM_snoc_all {A B} (f : A -> option B) l1 l2 k1 k2 :
  mapM f l1 = Some k1 -> mapM f l2 = Some k2 -> mapM f (l1 ++ l2) = Some (k1 ++ k2).
Proof. rewrite !mapM_Some. intros. by apply Forall2_app. Qed.

Lemma octets_app s t l1 l2 : octets s = Some l1 -> octets t = Some l2 ->
  octets (s +:+ String "." t) = Some (l1 ++ l2).
Proof. unfold octets. rewrite Split_app. apply mapM_snoc_all. Qed.

Lemma octets_slot i : 0 <= i <= MaxIndex -> octets (Itoa i) = Some [i].
Proof.
  intros (Ho & Hd & _)%Itoa_slot. unfold octets. rewrite Split_plain by done. simpl. by rewrite Ho.
Qed.

Lemma octet_range s n : octet s = Some n -> 0 <= n <= 255.
Proof.
  unfold octet. destruct (String.eqb s ""); [done|].
  assert (Hp : forall s acc n, 0 <= acc -> dec_acc s acc = Some n -> 0 <= n).
  { clear. induction s as [|d s IH]; intros acc n Ha; simpl; [by intros [= <-]|].
    unfold is_digit, byte_range. destruct (_ && _) eqn:Hd; [|done].
    apply IH. apply andb_true_iff in Hd as [Hd _]. apply N.leb_le in Hd. simpl in Hd. lia. }
  destruct (dec_acc s 0) eqn:Hd; [|done]. apply Hp in Hd; [|done].
  destruct (_ <=? 255) eqn:?; [|done]. intros [= <-]. bools. lia.
Qed.

(** Dotted addresses of a slot, as numbers. *)
Lemma ipv4_slot c i a b k n :
  0 <= i <= MaxIndex -> octets (nc_SubnetBase c) = Some [a; b] -> octets k = Some [n] ->
  ipv4 (nc_SubnetBase c +:+ "." +:+ Itoa i +:+ String "." k) = Some (a * 2 ^ 24 + b * 2 ^ 16 + i * 2 ^ 8 + n).
Proof.
  intros Hi Hb Hk. unfold ipv4.
  pose proof (octets_app (Itoa i) k [i] [n] (octets_slot i Hi) Hk) as Ht.
  pose proof (octets_app _ _ _ _ Hb Ht) as Ho. simpl in Ho.
  rewrite sapp_cons, sapp_nil_l. by rewrite Ho.
Qed.

(** The mask of a /30 clears the last two bits, that of a /16 the last sixteen. *)
Definition in_net (bits net addr : Z) : Prop := Z.shiftr addr (32 - bits) = Z.shiftr net (32 - bits).

Lemma shiftr_block k q r : 0 <= k -> 0 <= r < 2 ^ k -> Z.shiftr (q * 2 ^ k + r) k = q.
Proof.
  intros Hk Hr. rewrite Z.shiftr_div_pow2 by done.
  rewrite Z.add_comm, Z.div_add by lia. rewrite Z.div_small by done. lia.
Qed.

Lemma hex_byte_inj u x y : 0 <= x <= MaxIndex -> 0 <= y <= MaxIndex -> hex_byte u x = hex_byte u y -> x = y.
Proof.
  set (inv := fun u s => match s with
    | String a (String b "") =>
        let v c := let n := Z.of_N (N_of_ascii c) in if n <? 58 then n - 48 else n - (if u : bool then 55 else 87) in
        16 * v a + v b
    | _ => -1 end).
  set (P := fun i => (inv true (hex_byte true i) =? i) && (inv false (hex_byte false i) =? i)).
  assert (Hall : forallb P (slots (MaxIndex + 1)) = true) by (vm_compute; reflexivity).
  intros Hx Hy Heq. pose proof (every_slot P Hall x Hx) as Px. pose proof (every_slot P Hall y Hy) as Py.
  unfold P in Px, Py. bools. destruct u; congruence.
Qed.

Lemma byte_range_land x : 0 <= Z.land x 255 <= MaxIndex.
Proof.
  change 255 with (Z.ones 8). rewrite Z.land_ones by done. unfold MaxIndex.
  pose proof (Z.mod_pos_bound x (2 ^ 8)). lia.
Qed.

(** The two low bytes of a number below [2^16], in hexadecimal. *)
Lemma hex_pair_inj u i j :
  0 <= i < 2 ^ 16 -> 0 <= j < 2 ^ 16 ->
  hex_byte u (Z.land (Z.shiftr i 8) 255) +:+ ":" +:+ hex_byte u (Z.land i 255) =
  hex_byte u (Z.land (Z.shiftr j 8) 255) +:+ ":" +:+ hex_byte u (Z.land j 255) -> i = j.
Proof.
  intros Hi Hj Heq.
  assert (Hs : forall x y x' y', hex_byte u x +:+ ":" +:+ hex_byte u y = hex_byte u x' +:+ ":" +:+ hex_byte u y' ->
    hex_byte u x = hex_byte u x' /\ hex_byte u y = hex_byte u y').
  { intros x y x' y'. unfold hex_byte. simpl. rewrite !sapp_cons, !sapp_nil_l. by intros [= -> -> -> ->]. }
  apply Hs in Heq as [Hh Hl].
  apply hex_byte_inj in Hh, Hl; auto using byte_range_land.
  change 255 with (Z.ones 8) in Hh, Hl. rewrite !Z.land_ones, !Z.shiftr_div_pow2 in Hh by done.
  rewrite !Z.land_ones in Hl by done.
  rewrite (Z.mod_small (i / 2 ^ 8)), (Z.mod_small (j / 2 ^ 8)) in Hh
    by (split; [apply Z.div_pos; lia|apply Z.div_lt_upper_bound; lia]).
  rewrite (Z.div_mod i (2 ^ 8)), (Z.div_mod j (2 ^ 8)) by done. by rewrite Hh, Hl.
Qed.

Lemma MACForIndex_inj i j :
  0 <= i < 2 ^ 16 -> 0 <= j < 2 ^ 16 -> MACForIndex i = MACForIndex j -> i = j.
Proof. unfold MACForIndex. intros Hi Hj Heq%sapp_inj_l. by apply (hex_pair_inj false). Qed.

Lemma octets_range s x y : octets s = Some [x; y] -> 0 <= x <= 255 /\ 0 <= y <= 255.
Proof.
  unfold octets. intros Hm. apply mapM_Some in Hm. inversion Hm as [|? ? ? ? Hx Hr]; subst.
  inversion Hr as [|? ? ? ? Hy]; subst. eauto using octet_range.
Qed.

Lemma same_block k q r r' : 0 <= k -> 0 <= r < 2 ^ k -> 0 <= r' < 2 ^ k ->
  forall x y, x = q * 2 ^ k + r' -> y = q * 2 ^ k + r -> Z.shiftr x k = Z.shiftr y k.
Proof. intros ??? x y -> ->. by rewrite !shiftr_block. Qed.

Lemma Itoa_inj i j : 0 <= i <= MaxIndex -> 0 <= j <= MaxIndex -> Itoa i = Itoa j -> i = j.
Proof. intros [Hi _]%Itoa_slot [Hj _]%Itoa_slot Heq. rewrite Heq in Hi. congruence. Qed.

(** Slots of one pool differ in their TAP and in both addresses. *)
Lemma TapName_inj c i j : 0 <= i <= MaxIndex -> 0 <= j <= MaxIndex -> TapName c i = TapName c j -> i = j.
Proof. unfold TapName. intros Hi Hj Heq%sapp_inj_l. by apply Itoa_inj. Qed.

Lemma HostIP_inj c i j : 0 <= i <= MaxIndex -> 0 <= j <= MaxIndex ->
  bn_HostIP (NetFor c i) = bn_HostIP (NetFor c j) -> i = j.
Proof. simpl. intros Hi Hj Heq. apply sapp_inj_l, sapp_inj_l, sapp_inj_r in Heq. by apply Itoa_inj. Qed.

Lemma GuestIP_inj c i j : 0 <= i <= MaxIndex -> 0 <= j <= MaxIndex ->
  bn_GuestIP (NetFor c i) = bn_GuestIP (NetFor c j) -> i = j.
Proof. simpl. intros Hi Hj Heq. apply sapp_inj_l, sapp_inj_l, sapp_inj_r in Heq. by apply Itoa_inj. Qed.

(** C38: Every slot of a pool has its own well-formed addresses: for slots 0 to
    [MaxIndex] of two pools with a two-octet base, the host and guest addresses
    are IPv4 addresses of one /30 inside the pool's aggregate subnet, a /16 whose
    text [aggregateSubnet] gives; the netmask is that of a /30, the TAP name is
    at most three characters longer than the pool's prefix, and two different
    slots, of the same pool or of pools with different bases, are on different
    /30 networks, hence never share an address; two slots of one pool also differ
    in TAP name and in MAC address, which is a locally administered unicast
    one. *)
Theorem slot_addressing c c' i j a b a' b' :
  0 <= i <= MaxIndex -> 0 <= j <= MaxIndex ->
  octets (nc_SubnetBase c) = Some [a; b] -> octets (nc_SubnetBase c') = Some [a'; b'] ->
  exists net agg host guest host',
    (exists agg_text, aggregateSubnet c = agg_text +:+ "/16" /\ ipv4 agg_text = Some agg) /\
    ipv4 (bn_HostIP (NetFor c i)) = Some host /\
    ipv4 (bn_GuestIP (NetFor c i)) = Some guest /\
    ipv4 (bn_HostIP (NetFor c' j)) = Some host' /\
    in_net 30 net host /\ in_net 30 net guest /\ in_net 16 agg host /\ in_net 16 agg guest /\
    host <> guest /\ host <> net /\ guest <> net /\ host <> net + 3 /\ guest <> net + 3 /\
    ipv4 (bn_Netmask (NetFor c i)) = Some (2 ^ 32 - 2 ^ 2) /\
    (String.length (bn_TapName (NetFor c i)) <= String.length (nc_TapPrefix c) + 3)%nat /\
    ((a, b, i) <> (a', b', j) -> ~ in_net 30 net host') /\
    (i <> j -> bn_TapName (NetFor c i) <> bn_TapName (NetFor c j) /\ MACForIndex i <> MACForIndex j) /\
    HasPrefix (MACForIndex i) "02:" = true /\ String.length (MACForIndex i) = 17%nat.
Proof.
  intros Hi Hj Hb Hb'.
  destruct (octets_range _ _ _ Hb) as [Ha1 Hb1]. destruct (octets_range _ _ _ Hb') as [Ha2 Hb2].
  destruct (Itoa_slot i Hi) as (_ & _ & Hlen). unfold MaxIndex in *.
  exists (a * 2 ^ 24 + b * 2 ^ 16 + i * 2 ^ 8), (a * 2 ^ 24 + b * 2 ^ 16 + 0 * 2 ^ 8 + 0).
  exists (a * 2 ^ 24 + b * 2 ^ 16 + i * 2 ^ 8 + 1), (a * 2 ^ 24 + b * 2 ^ 16 + i * 2 ^ 8 + 2).
  exists (a' * 2 ^ 24 + b' * 2 ^ 16 + j * 2 ^ 8 + 1). unfold in_net.
  split_and!; try lia.
  - exists (nc_SubnetBase c +:+ ".0.0"). split; [unfold aggregateSubnet; by rewrite sapp_assoc|].
    apply (ipv4_slot c 0 a b "0" 0); [unfold MaxIndex; lia|done|done].
  - by apply (ipv4_slot c i a b "1" 1).
  - by apply (ipv4_slot c i a b "2" 2).
  - by apply (ipv4_slot c' j a' b' "1" 1).
  - apply (same_block 2 (a * 2 ^ 22 + b * 2 ^ 14 + i * 2 ^ 6) 0 1); lia.
  - apply (same_block 2 (a * 2 ^ 22 + b * 2 ^ 14 + i * 2 ^ 6) 0 2); lia.
  - apply (same_block 16 (a * 2 ^ 8 + b) 0 (i * 2 ^ 8 + 1)); lia.
  - apply (same_block 16 (a * 2 ^ 8 + b) 0 (i * 2 ^ 8 + 2)); lia.
  - done.
  - simpl. unfold TapName. rewrite slength_app. lia.
  - intros Hne Heq. apply Hne. rewrite !Z.shiftr_div_pow2 in Heq by lia.
    change (2 ^ (32 - 30)) with 4 in Heq.
    assert (Hq : forall q r, 0 <= r < 4 -> (q * 4 + r) / 4 = q) by
      (intros; rewrite Z.div_add_l by lia; rewrite Z.div_small by lia; lia).
    replace (a' * 2 ^ 24 + b' * 2 ^ 16 + j * 2 ^ 8 + 1) with ((a' * 2 ^ 22 + b' * 2 ^ 14 + j * 2 ^ 6) * 4 + 1) in Heq by lia.
    replace (a * 2 ^ 24 + b * 2 ^ 16 + i * 2 ^ 8) with ((a * 2 ^ 22 + b * 2 ^ 14 + i * 2 ^ 6) * 4 + 0) in Heq by lia.
    rewrite !Hq in Heq by lia. f_equal; [f_equal|]; lia.
  - intros Hne. split; intros Heq; apply Hne; [by apply (TapName_inj c); [unfold MaxIndex; lia..|]|by apply MACForIndex_inj; [lia..|]].
  - done.
  - unfold MACForIndex, hex_byte. by rewrite !slength_app.
Qed.

Lemma slot_addressing_witness :
  exists net agg host guest host',
    (exists agg_text, "172.16.0.0/16" = agg_text +:+ "/16" /\ ipv4 agg_text = Some agg) /\ ipv4 "172.16.255.1" = Some host /\ ipv4 "172.16.255.2" = Some guest /\
    ipv4 "172.17.255.1" = Some host' /\ in_net 30 net host /\ in_net 30 net guest /\
    in_net 16 agg host /\ in_net 16 agg guest /\ ~ in_net 30 net host'.
Proof.
  destruct (slot_addressing (MkNetConfig "llmboxfc" "172.16" 0 "") (MkNetConfig "llmboxch" "172.17" 0 "")
    255 255 172 16 172 17 ltac:(vm_compute; split; discriminate) ltac:(vm_compute; split; discriminate)
    ltac:(vm_compute; reflexivity) ltac:(vm_compute; reflexivity))
    as (net & agg & host & guest & host' & H1 & H2 & H3 & H4 & H5 & H6 & H7 & H8 & _ & _ & _ & _ & _ & _ & _ & H9 & _).
  exists net, agg, host, guest, host'.
  split; [exact H1|]. split; [exact H2|]. split; [exact H3|]. split; [exact H4|].
  split; [exact H5|]. split; [exact H6|]. split; [exact H7|]. split; [exact H8|].
  apply H9. intros [=].
Defined.

(** Nothing keeps a pool within [MaxIndex]: the slot after it has no address. *)
Example slot_past_MaxIndex c :
  nc_SubnetBase c = "172.16" -> ipv4 (bn_HostIP (NetFor c (MaxIndex + 1))) = None.
Proof. intros Hb. simpl. rewrite Hb. vm_compute. reflexivity. Qed.

(** [ParseEgressMode] accepts the spelling of every mode whatever its case and
    the space around it, and what it accepts is such a spelling or blank. *)
Theorem ParseEgressMode_roundtrip m s :
  (forall t, ToLower (TrimSpace t) = EgressMode_String m -> ParseEgressMode t = Ok m) /\
  (ParseEgressMode s = Ok m ->
     ToLower (TrimSpace s) = EgressMode_String m \/ (TrimSpace s = "" /\ m = EgressManaged)).
Proof.
  unfold ParseEgressMode. split.
  - intros t ->. by destruct m.
  - destruct (String.eqb_spec (ToLower (TrimSpace s)) "") as [He|]; simpl.
    { intros [= <-]. right. destruct (TrimSpace s); [done|discriminate]. }
    destruct (String.eqb_spec (ToLower (TrimSpace s)) "managed") as [He|]; [intros [= <-]; by left|].
    destruct (String.eqb_spec (ToLower (TrimSpace s)) "external") as [He|]; [intros [= <-]; by left|].
    destruct (String.eqb_spec (ToLower (TrimSpace s)) "disabled") as [He|]; [intros [= <-]; by left|]. done.
Qed.

(** ** What the commands do to the host *)

(** A rule of a chain: table, chain and the rest of its words. *)
Abbreviation chainKey := (string * string)%type.

(** The part of a host the commands act on: the links with their administrative
    state, their addresses, and the rules of each chain in order. *)
Record NetView := MkNetView {
  nv_links : gmap string bool;
  nv_addrs : gset (string * string);
  nv_chains : gmap chainKey (list (list string));
}.

Definition rules (v : NetView) (k : chainKey) : list (list string) := default [] (nv_chains v !! k).
Definition set_links (v : NetView) (f : gmap string bool -> gmap string bool) : NetView :=
  MkNetView (f (nv_links v)) (nv_addrs v) (nv_chains v).
Definition set_addrs (v : NetView) (f : gset (string * string) -> gset (string * string)) : NetView :=
  MkNetView (nv_links v) (f (nv_addrs v)) (nv_chains v).
Definition set_rules (v : NetView) (k : chainKey) (l : list (list string)) : NetView :=
  MkNetView (nv_links v) (nv_addrs v) (<[k := l]> (nv_chains v)).

(** The words of an [iptables] command; the table [filter] is the default. *)
Definition iptables (verb : string) (k : chainKey) (spec : list string) : list string :=
  "iptables" :: (if String.eqb k.1 "filter" then [] else ["-t"; k.1]) ++ verb :: k.2 :: spec.

(** The first occurrence removed. *)
Fixpoint remove_first {A} `{EqDecision A} (x : A) (l : list A) : list A :=
  match l with
  | [] => []
  | y :: l' => if decide (x = y) then l' else y :: remove_first x l'
  end.

(** [cmd] changes the host by [f] when it succeeds and not at all when it fails. *)
Definition acts {H} `{HostTools H} (view : H -> NetView) (cmd : list string) (f : NetView -> NetView) : Prop :=
  forall h, match exec cmd h with
            | (h', Ok _) => view h' = f (view h)
            | (h', Err _) => view h' = view h
            end.

(** What the laws speak of, and the documented behaviour of ip(8), iptables(8) and sysctl(8) on the commands
    the plumbing runs. *)
Class HostView (H : Type) := { view : H -> NetView }.

Class HostLaws (H : Type) `{HostTools H, HostView H} := {
  link_show name h : (exec ["ip"; "link"; "show"; name] h).1 = h /\
    (is_ok (exec ["ip"; "link"; "show"; name] h).2 = true <-> is_Some (nv_links (view h) !! name));
  link_oshow name h : (exec ["ip"; "-o"; "link"; "show"; name] h).1 = h /\
    match (exec ["ip"; "-o"; "link"; "show"; name] h).2 with
    | Err _ => nv_links (view h) !! name = None
    | Ok out => exists pre flags rest, out = pre +:+ String "<" (Join flags "," +:+ String ">" rest) /\
        flags <> [] /\ ContainsByte pre "<" = false /\ ContainsByte pre ">" = false /\
        Forall (fun f => ContainsByte f ">" = false /\ ContainsByte f "," = false) flags /\
        nv_links (view h) !! name = Some (bool_decide ("UP" ∈ flags))
    end;
  tuntap_add name group : acts view (["ip"; "tuntap"; "add"; "dev"; name; "mode"; "tap"] ++ group)
    (fun v => set_links v <[name := false]>);
  addr_add addr name : acts view ["ip"; "addr"; "add"; addr; "dev"; name]
    (fun v => set_addrs v (fun s => {[(name, addr)]} ∪ s));
  link_set_up name : acts view ["ip"; "link"; "set"; "dev"; name; "up"] (fun v => set_links v <[name := true]>);
  link_del name : acts view ["ip"; "link"; "del"; name] (fun v => set_links v (delete name));
  ipt_check k spec h : (exec (iptables "-C" k spec) h).1 = h /\
    (is_ok (exec (iptables "-C" k spec) h).2 = true <-> spec ∈ rules (view h) k);
  ipt_append k spec : acts view (iptables "-A" k spec) (fun v => set_rules v k (rules v k ++ [spec]));
  ipt_delete k spec : acts view (iptables "-D" k spec) (fun v => set_rules v k (remove_first spec (rules v k)));
  sysctl_w arg : acts view ["sysctl"; "-w"; arg] (fun v => v);
  route_show h : (exec ["ip"; "route"; "show"; "default"] h).1 = h;
}.

(** The rules of a pool, by chain. *)
Definition shared (c : NetConfig) (uplink : string) : list (chainKey * list string) :=
  let sub := aggregateSubnet c in
  [ (("nat", "POSTROUTING"), ["-s"; sub; "-o"; uplink; "-j"; "MASQUERADE"]);
    (("filter", "FORWARD"), ["-s"; sub; "-d"; sub; "-j"; "DROP"]);
    (("filter", "FORWARD"), ["-s"; sub; "-o"; uplink; "-j"; "ACCEPT"]);
    (("filter", "FORWARD"), ["-d"; sub; "-m"; "state"; "--state"; "RELATED,ESTABLISHED"; "-j"; "ACCEPT"]) ].

(** The words of the command the code builds from each rule. *)
Lemma sharedRules_words c uplink :
  Forall2 (fun r ks => forall verb,
    insertVerb ("iptables" :: r) (ruleInsertAt r) verb = iptables verb ks.1 ks.2)
    (sharedRules c uplink) (shared c uplink).
Proof. repeat constructor. Qed.

Definition add_missing (ks : chainKey * list string) (v : NetView) : NetView :=
  if decide (ks.2 ∈ rules v ks.1) then v else set_rules v ks.1 (rules v ks.1 ++ [ks.2]).

(** What of a list of rules belongs to a chain. *)
Definition rules_of (k : chainKey) (l : list (chainKey * list string)) : list (list string) :=
  (filter (fun ks => ks.1 = k) l).*2.

Lemma rules_set_rules v k l k' : rules (set_rules v k l) k' = if decide (k = k') then l else rules v k'.
Proof. unfold rules, set_rules; simpl. rewrite lookup_insert. by case_decide. Qed.

Lemma rules_add_missing ks v k :
  rules (add_missing ks v) k =
  rules v k ++ (if decide (ks.1 = k /\ ks.2 ∉ rules v k) then [ks.2] else []).
Proof.
  unfold add_missing. case_decide as Hin.
  - rewrite decide_False by (intros [<- ?]; done). by rewrite app_nil_r.
  - rewrite rules_set_rules. repeat case_decide; subst; naive_solver (rewrite ?app_nil_r; auto).
Qed.

(** Adding what is missing appends, to each chain, the rules it did not have. *)
Lemma rules_add_all l : NoDup l -> forall v k,
  rules (fold_left (fun v ks => add_missing ks v) l v) k =
  rules v k ++ filter (fun spec => spec ∉ rules v k) (rules_of k l).
Proof.
  induction 1 as [|ks l Hnin Hnd IH]; intros v k; simpl; [by rewrite app_nil_r|].
  rewrite IH, rules_add_missing. unfold rules_of. rewrite filter_cons.
  destruct (decide (ks.1 = k)) as [Hk|Hk].
  - simpl. rewrite filter_cons. destruct (decide (ks.2 ∈ rules v k)) as [Hin|Hin].
    + rewrite !decide_False by naive_solver. by rewrite app_nil_r.
    + rewrite !decide_True by naive_solver. rewrite <- app_assoc. simpl. do 2 f_equal.
      apply filter_ext_elem. intros spec Hs. rewrite elem_of_app, list_elem_of_singleton.
      split; [naive_solver|]. intros Hn [?| ->]; [done|].
      apply list_elem_of_fmap in Hs as ([k' sp] & He & Hs). apply list_elem_of_filter in Hs as [Hk' Hs].
      simpl in *. subst. apply Hnin. by destruct ks.
  - rewrite decide_False by naive_solver. by rewrite app_nil_r.
Qed.

Lemma shared_NoDup c uplink : NoDup (shared c uplink).
Proof.
  unfold shared. repeat (apply NoDup_cons; split); [..|apply NoDup_nil; done];
    rewrite ?elem_of_cons, ?elem_of_nil; naive_solver.
Qed.

Section Laws.
Context {H : Type} `{HostTools H, HostView H, !HostLaws H}.
Implicit Types (h : H).

Lemma run_ok_spec (cmd : list string) h (P : Prop) :
  (exec cmd h).1 = h -> (is_ok (exec cmd h).2 = true <-> P) ->
  exists b, run_ok cmd h = (h, Ok b) /\ (b = true <-> P).
Proof.
  intros He HP. unfold run_ok, run. destruct (exec cmd h) as [h' [out|out]]; simpl in *; subst; eauto.
Qed.

Lemma run_or_view wrap cmd f h h' : acts view cmd f -> run_or wrap cmd h = (h', Ok ()) -> view h' = f (view h).
Proof.
  intros Ha. specialize (Ha h). unfold run_or, run.
  destruct (exec cmd h) as [h1 [out|out]]; [|done]. by intros [= <-].
Qed.

Lemma run_ignore_view cmd f h h' : acts view cmd f -> run_ignore cmd h = (h', Ok ()) ->
  view h' = f (view h) \/ view h' = view h.
Proof.
  intros Ha. specialize (Ha h). unfold run_ignore.
  destruct (exec cmd h) as [h1 [out|out]]; intros [= <-]; auto.
Qed.

Lemma ensureRule_view r k spec h h' :
  (forall verb, insertVerb ("iptables" :: r) (ruleInsertAt r) verb = iptables verb k spec) ->
  ensureRule r h = (h', Ok ()) -> view h' = add_missing (k, spec) (view h).
Proof.
  intros Hw. unfold ensureRule, go_bind. rewrite !Hw.
  destruct (ipt_check k spec h) as [Hro Hin].
  destruct (run_ok_spec _ _ _ Hro Hin) as (b & -> & Hb). unfold add_missing. simpl. destruct b.
  - intros [= <-]. rewrite decide_True by by apply Hb. done.
  - intros Hr. rewrite decide_False by (rewrite <- Hb; done).
    by rewrite (run_or_view _ _ _ _ _ (ipt_append k spec) Hr).
Qed.

Lemma ensureTap_view c n h h' :
  ensureTap c n h = (h', Ok ()) ->
  nv_links (view h') = <[bn_TapName n := true]> (nv_links (view h)) /\
  nv_chains (view h') = nv_chains (view h).
Proof.
  unfold ensureTap, go_bind. destruct (link_show (bn_TapName n) h) as [Hro Hin].
  destruct (run_ok_spec _ _ _ Hro Hin) as (b & -> & Hb).
  destruct ((if b then go_ret () else _) h) as [h1 [[]|e]] eqn:Hadd; [|done].
  assert (Hp1 : nv_chains (view h1) = nv_chains (view h) /\
    (nv_links (view h1) = nv_links (view h) \/ nv_links (view h1) = <[bn_TapName n := false]> (nv_links (view h)))).
  { destruct b; [injection Hadd as <-; auto|].
    rewrite (run_or_view _ _ _ _ _ (tuntap_add _ _) Hadd). simpl. auto. }
  destruct (run_ignore _ h1) as [h2 [[]|e]] eqn:Hig; [|done].
  assert (Hp2 : nv_chains (view h2) = nv_chains (view h1) /\ nv_links (view h2) = nv_links (view h1)).
  { by destruct (run_ignore_view _ _ _ _ (addr_add _ _) Hig) as [-> | ->]. }
  intros Hup. rewrite (run_or_view _ _ _ _ _ (link_set_up _) Hup). simpl.
  destruct Hp2 as [-> ->], Hp1 as [-> [-> | ->]]; split; try done. by rewrite insert_insert_eq.
Qed.

Lemma ensureRules_view c uplink h h' :
  for_each (sharedRules c uplink) ensureRule h = (h', Ok ()) ->
  view h' = fold_left (fun v ks => add_missing ks v) (shared c uplink) (view h).
Proof.
  generalize (sharedRules_words c uplink). generalize (sharedRules c uplink), (shared c uplink).
  intros l l' Hw. revert h. induction Hw as [|r [k spec] l l' Hr Hw IH]; intros h; simpl; [by intros [= <-]|].
  unfold go_bind. destruct (ensureRule r h) as [h1 [[]|e]] eqn:He; [|done]. intros Hl.
  rewrite (IH _ Hl). by rewrite (ensureRule_view _ _ _ _ _ Hr He).
Qed.
End Laws.

(** ** A host that obeys the laws

    [sh_route] is what the default route prints.  As on Linux, a link must exist
    to be addressed, raised or deleted, an address must be well formed, and a
    rule is deleted only if it is there. *)
Record SimHost := MkSimHost { sh_view : NetView; sh_route : string }.

Definition sim_if (c : bool) (h : SimHost) (f : NetView -> NetView) : SimHost * res string string :=
  if c then (MkSimHost (f (sh_view h)) (sh_route h), Ok "") else (h, Err "Error").

Definition sim_has (h : SimHost) (n : string) : bool := bool_decide (is_Some (nv_links (sh_view h) !! n)).

Definition sim_ip (args : list string) (h : SimHost) : SimHost * res string string :=
  match args with
  | [a; b; n] =>
      if String.eqb a "route" then (h, Ok (sh_route h))
      else if String.eqb b "show" then sim_if (sim_has h n) h (fun v => v)
      else sim_if (sim_has h n) h (fun v => set_links v (delete n))
  | [_; _; _; n] =>
      match (nv_links (sh_view h) !! n : option bool) with
      | None => (h, Err "does not exist")
      | Some up => (h, Ok ("2: tap: <" +:+ (if up then "BROADCAST,UP" else "BROADCAST") +:+ "> mtu 1500"))
      end
  | [a; _; addr; n; n'] =>
      if String.eqb a "addr"
      then sim_if (sim_has h n' && bool_decide (is_Some (ipv4 (TrimSuffix addr "/30")))) h
             (fun v => set_addrs v (fun s => {[(n', addr)]} ∪ s))
      else sim_if (sim_has h n) h (fun v => set_links v <[n := true]>)
  | _ :: _ :: _ :: n :: _ => sim_if (negb (sim_has h n)) h (fun v => set_links v <[n := false]>)
  | _ => (h, Err "usage")
  end.

Definition sim_iptables_in (table : string) (args : list string) (h : SimHost) : SimHost * res string string :=
  match args with
  | verb :: ch :: spec =>
      let k := (table, ch) in
      let present := bool_decide (spec ∈ rules (sh_view h) k) in
      if String.eqb verb "-C" then sim_if present h (fun v => v)
      else if String.eqb verb "-A" then sim_if true h (fun v => set_rules v k (rules v k ++ [spec]))
      else sim_if present h (fun v => set_rules v k (remove_first spec (rules v k)))
  | _ => (h, Err "usage")
  end.

Definition sim_iptables (args : list string) (h : SimHost) : SimHost * res string string :=
  match args with
  | a :: t :: args' => if String.eqb a "-t" then sim_iptables_in t args' h else sim_iptables_in "filter" args h
  | _ => (h, Err "usage")
  end.

Definition sim_exec (args : list string) (h : SimHost) : SimHost * res string string :=
  match args with
  | prog :: args' =>
      if String.eqb prog "ip" then sim_ip args' h
      else if String.eqb prog "iptables" then sim_iptables args' h
      else (h, Ok "")
  | [] => (h, Err "usage")
  end.

#[export] Instance SimHost_Tools : HostTools SimHost := {| exec := sim_exec |}.

Lemma sim_if_ro c h : (sim_if c h (fun v => v)).1 = h.
Proof. destruct h as [v r]. by destruct c. Qed.

Lemma sim_if_ok c h f : is_ok (sim_if c h f).2 = c.
Proof. by destruct c. Qed.

Lemma sim_if_acts c h f :
  match sim_if c h f with
  | (h', Ok _) => sh_view h' = f (sh_view h)
  | (h', Err _) => sh_view h' = sh_view h
  end.
Proof. by destruct c. Qed.

Lemma sim_iptables_words verb k spec h : verb <> "-t" ->
  sim_exec (iptables verb k spec) h = sim_iptables_in k.1 (verb :: k.2 :: spec) h.
Proof.
  intros Hv. destruct k as [t ch]. unfold iptables, sim_exec. simpl.
  destruct (String.eqb_spec t "filter") as [-> |]; simpl; [|done].
  by destruct (String.eqb_spec verb "-t").
Qed.

#[export] Instance SimHost_View : HostView SimHost := {| view := sh_view |}.

#[export] Instance SimHost_Laws : HostLaws SimHost.
Proof.
  split; unfold acts; cbn [exec SimHost_Tools view SimHost_View].
  - intros name h. change (sim_exec _ h) with (sim_if (sim_has h name) h (fun v => v)).
    rewrite sim_if_ro, sim_if_ok. split; [done|]. apply bool_decide_eq_true.
  - intros name h. cbn [sim_exec sim_ip]. simpl. destruct (nv_links (sh_view h) !! name) as [[]|] eqn:Hn; simpl.
    + split; [done|]. exists "2: tap: ", ["BROADCAST"; "UP"], " mtu 1500". repeat split; [done|repeat constructor].
    + split; [done|]. exists "2: tap: ", ["BROADCAST"], " mtu 1500". repeat split; [done|repeat constructor].
    + done.
  - intros name group h. destruct group as [|g group]; exact (sim_if_acts (negb (sim_has h name)) h _).
  - intros addr name h. exact (sim_if_acts _ h _).
  - intros name h. exact (sim_if_acts _ h _).
  - intros name h. exact (sim_if_acts _ h _).
  - intros k spec h. rewrite sim_iptables_words by done. cbn. rewrite sim_if_ro, sim_if_ok.
    destruct k. split; [done|]. apply bool_decide_eq_true.
  - intros [t ch] spec h. rewrite sim_iptables_words by done.
    exact (sim_if_acts true h (fun v => set_rules v (t, ch) (rules v (t, ch) ++ [spec]))).
  - intros [t ch] spec h. rewrite sim_iptables_words by done.
    exact (sim_if_acts (bool_decide (spec ∈ rules (sh_view h) (t, ch))) h
      (fun v => set_rules v (t, ch) (remove_first spec (rules v (t, ch))))).
  - intros arg h. done.
  - intros h. done.
Qed.

(** ** The pool *)

Section Pool.
Context {H : Type} `{HostTools H, HostView H, !HostLaws H}.
Implicit Types (h : H).

Lemma elem_of_slots i size : i ∈ slots size <-> 0 <= i < size.
Proof.
  unfold slots. rewrite list_elem_of_fmap. split.
  - intros (n & -> & Hn%elem_of_seq). lia.
  - intros Hi. exists (Z.to_nat i). rewrite elem_of_seq. lia.
Qed.

Lemma lookup_raise_all c l (m : gmap string bool) name :
  fold_left (fun m i => <[TapName c i := true]> m) l m !! name =
  if decide (name ∈ TapName c <$> l) then Some true else m !! name.
Proof.
  revert m. induction l as [|i l IH]; intros m; cbn [fold_left].
  { rewrite decide_False by set_solver. done. }
  rewrite IH, lookup_insert, fmap_cons. repeat case_decide; set_solver.
Qed.

Lemma resolveUplink_ro c h : (resolveUplink c h).1 = h /\
  (nc_Uplink c <> "" -> (resolveUplink c h).2 = Ok (nc_Uplink c)).
Proof.
  unfold resolveUplink. destruct (String.eqb_spec (nc_Uplink c) ""); simpl; [|done].
  pose proof (route_show h). destruct (exec _ h) as [h1 [out|out]]; simpl in *; [|done].
  by destruct (after_dev _).
Qed.

(** The links and the chains after a pool was ensured. *)
Lemma EnsurePool_view c size h h' :
  EnsurePool c size h = (h', Ok ()) ->
  exists uplink, resolveUplink c h = (h, Ok uplink) /\
    nv_links (view h') = fold_left (fun m i => <[TapName c i := true]> m) (slots size) (nv_links (view h)) /\
    forall k, rules (view h') k = rules (view h) k ++
      filter (fun spec => spec ∉ rules (view h) k) (rules_of k (shared c uplink)).
Proof.
  unfold EnsurePool, go_bind. destruct (resolveUplink_ro c h) as [Hro _].
  destruct (resolveUplink c h) as [h0 [uplink|e]]; [|done]. simpl in Hro. subst h0.
  destruct (run_or _ _ h) as [h1 [[]|e]] eqn:Hs; [|done].
  destruct (for_each (slots size) _ h1) as [h2 [[]|e]] eqn:Ht; [|done]. intros Hr.
  exists uplink. split; [done|].
  pose proof (run_or_view _ _ _ _ _ (sysctl_w _) Hs) as Hv1. simpl in Hv1.
  pose proof (for_each_obs (fun h => nv_links (view h)) (fun i m => <[TapName c i := true]> m) _ _
    (fun i s s' _ He => proj1 (ensureTap_view _ _ _ _ He)) _ _ Ht) as Hl.
  pose proof (for_each_obs (fun h => nv_chains (view h)) (fun i m => m) _ _
    (fun i s s' _ He => proj2 (ensureTap_view _ _ _ _ He)) _ _ Ht) as Hc.
  apply ensureRules_view in Hr. simpl in Hl, Hc. rewrite Hv1 in Hl, Hc.
  assert (Hc' : nv_chains (view h2) = nv_chains (view h)).
  { rewrite Hc. clear. by induction (slots size). }
  split.
  - rewrite Hr, <- Hl. generalize (shared c uplink), (view h2). clear.
    induction l as [|ks l IH]; intros v; simpl; [done|]. rewrite IH.
    unfold add_missing. by case_decide.
  - intros k. rewrite Hr, rules_add_all by apply shared_NoDup.
    unfold rules. by rewrite Hc'.
Qed.

(** Ensuring a pool of TAP devices raises exactly the pool's links and appends
    to each chain, in the order masquerade / drop between guests / let guests
    out / let replies in, those of the pool's rules the chain did not hold: so
    on a fresh host the rule that drops traffic between guests precedes the one
    that lets it out, and ensuring the pool again changes no link and no rule. *)
Theorem EnsurePool_spec c size h h' :
  nc_Uplink c <> "" ->
  EnsurePool c size h = (h', Ok ()) ->
  (forall i, 0 <= i < size -> nv_links (view h') !! TapName c i = Some true) /\
  (forall name, (forall i, 0 <= i < size -> name <> TapName c i) ->
     nv_links (view h') !! name = nv_links (view h) !! name) /\
  (forall k, rules (view h') k = rules (view h) k ++
     filter (fun spec => spec ∉ rules (view h) k) (rules_of k (shared c (nc_Uplink c)))) /\
  (forall h'', EnsurePool c size h' = (h'', Ok ()) ->
     nv_links (view h'') = nv_links (view h') /\ forall k, rules (view h'') k = rules (view h') k).
Proof.
  intros Hup He.
  assert (Hrule : forall h1 h2, EnsurePool c size h1 = (h2, Ok ()) ->
    nv_links (view h2) = fold_left (fun m i => <[TapName c i := true]> m) (slots size) (nv_links (view h1)) /\
    forall k, rules (view h2) k = rules (view h1) k ++
      filter (fun spec => spec ∉ rules (view h1) k) (rules_of k (shared c (nc_Uplink c)))).
  { intros h1 h2 (u & Hu & Hv)%EnsurePool_view. destruct (resolveUplink_ro c h1) as [_ Hr].
    rewrite Hu in Hr. simpl in Hr. by injection (Hr Hup) as ->. }
  destruct (Hrule _ _ He) as [Hl Hc]. split_and!; [| |done|].
  - intros i Hi. rewrite Hl, lookup_raise_all, decide_True; [done|].
    apply list_elem_of_fmap. exists i. by rewrite elem_of_slots.
  - intros name Hn. rewrite Hl, lookup_raise_all, decide_False; [done|].
    intros (i & -> & Hi%elem_of_slots)%list_elem_of_fmap. by apply (Hn i).
  - intros h'' [Hl2 Hc2]%Hrule. split.
    + apply map_eq. intros name. rewrite Hl2, lookup_raise_all. case_decide as Hn; [|done].
      by rewrite Hl, lookup_raise_all, decide_True.
    + intros k. rewrite Hc2, (filter_none _ (rules_of k _)); [apply app_nil_r|].
      intros spec Hs Hnin. apply Hnin. rewrite Hc. apply elem_of_app.
      destruct (decide (spec ∈ rules (view h) k)); [by left|right]. by apply list_elem_of_filter.
Qed.

Lemma linkFlagsUp_block pre flags rest :
  flags <> [] -> ContainsByte pre "<" = false -> ContainsByte pre ">" = false ->
  Forall (fun f => ContainsByte f ">" = false /\ ContainsByte f "," = false) flags ->
  linkFlagsUp (pre +:+ String "<" (Join flags "," +:+ String ">" rest)) = bool_decide ("UP" ∈ flags).
Proof.
  intros Hne Hlt Hgt Hfl. apply Forall_and in Hfl as [Hf1 Hf2]. unfold linkFlagsUp.
  rewrite IndexByte_app by done.
  assert (Hj : ContainsByte (Join flags ",") ">" = false) by by apply ContainsByte_Join.
  replace (pre +:+ String "<" (Join flags "," +:+ String ">" rest))
    with ((pre +:+ String "<" (Join flags ",")) +:+ String ">" rest)
    by (by rewrite sapp_assoc, sapp_cons).
  rewrite IndexByte_app by (rewrite ContainsByte_app, Hgt; simpl; done).
  rewrite slength_app. simpl String.length.
  destruct (Nat.ltb_spec (String.length pre + S (String.length (Join flags ","))) (String.length pre)); [lia|].
  replace ((pre +:+ String "<" (Join flags ",")) +:+ String ">" rest)
    with ((pre +:+ "<") +:+ (Join flags "," +:+ String ">" rest))
    by (by rewrite !sapp_assoc, !sapp_cons, sapp_nil_l).
  replace (String.length pre + 1)%nat with (String.length (pre +:+ "<")) by (rewrite slength_app; simpl; lia).
  replace (_ - _ - 1)%nat with (String.length (Join flags ",")) by lia.
  rewrite substring_mid, Split_Join by done.
  apply Bool.eq_true_iff_eq. rewrite bool_decide_eq_true, existsb_exists. split.
  - by intros (x & Hx%list_elem_of_In & <-%String.eqb_eq).
  - intros Hu. exists "UP". by rewrite <- list_elem_of_In.
Qed.

(** What is wrong with a slot's link, for the operator. *)
Definition slot_problem (c : NetConfig) (h : H) (i : Z) : option string :=
  match nv_links (view h) !! TapName c i with
  | None => Some (TapName c i +:+ " (not found)")
  | Some false => Some (TapName c i +:+ " (administratively down)")
  | Some true => None
  end.

Lemma validateSlot_spec c h i : validateSlot c h i = slot_problem c h i.
Proof.
  unfold validateSlot, slot_problem. destruct (link_oshow (TapName c i) h) as [_ Hl].
  destruct (exec _ h).2 as [out|out]; [|by rewrite Hl].
  destruct Hl as (pre & flags & rest & -> & Hne & Hq1 & Hq2 & Hf & ->).
  rewrite linkFlagsUp_block by done. by case_bool_decide.
Qed.

(** What [ValidatePool] answers. *)
Lemma ValidatePool_answer c size h :
  ValidatePool c size h =
  (h, match omap (slot_problem c h) (slots size) with
      | [] => Ok ()
      | missing => Err (ErrIncomplete missing)
      end) /\
  ((ValidatePool c size h).2 = Ok () <-> forall i, 0 <= i < size -> nv_links (view h) !! TapName c i = Some true).
Proof.
  assert (Hv : forall l acc, validate_loop c l acc h =
    (h, match acc ++ omap (slot_problem c h) l with [] => Ok () | missing => Err (ErrIncomplete missing) end)).
  { induction l as [|i l IH]; intros acc; simpl; [rewrite app_nil_r; by destruct acc|].
    destruct (link_oshow (TapName c i) h) as [-> _]. rewrite IH, validateSlot_spec.
    destruct (slot_problem c h i); simpl; by rewrite <- app_assoc. }
  unfold ValidatePool. rewrite Hv. simpl. split; [done|].
  transitivity (omap (slot_problem c h) (slots size) = []).
  { by destruct (omap _ _). }
  setoid_rewrite <- elem_of_slots. generalize (slots size). clear.
  induction l as [|i l IH]; simpl; [set_solver|].
  unfold slot_problem at 1. setoid_rewrite elem_of_cons.
  destruct (nv_links (view h) !! TapName c i) as [[]|] eqn:Hi; [rewrite IH; naive_solver|..];
    (split; [done|]; intros Hall; rewrite (Hall i) in Hi by auto; congruence).
Qed.

(** Validating a pool changes nothing on the host and succeeds exactly when every
    TAP of the pool exists and is administratively up; otherwise its error lists
    every slot that is missing or down, in order, and nothing else. *)
Theorem ValidatePool_spec c size h :
  ValidatePool c size h =
  (h, match omap (slot_problem c h) (slots size) with
      | [] => Ok ()
      | missing => Err (ErrIncomplete missing)
      end) /\
  ((ValidatePool c size h).2 = Ok () <-> forall i, 0 <= i < size -> nv_links (view h) !! TapName c i = Some true).
Proof. apply ValidatePool_answer. Qed.

(** A pool that was set up is accepted by every spoke that attaches to it with no
    larger a pool, whatever its group and uplink. *)
Lemma EnsurePool_ValidatePool c c' size size' h h' :
  nc_TapPrefix c' = nc_TapPrefix c -> size' <= size ->
  EnsurePool c size h = (h', Ok ()) -> ValidatePool c' size' h' = (h', Ok ()).
Proof.
  intros Hc Hs (u & _ & Hl & _)%EnsurePool_view. destruct (ValidatePool_answer c' size' h') as [He Hok].
  assert (Hr : (ValidatePool c' size' h').2 = Ok ()).
  { apply Hok. intros i Hi. replace (TapName c' i) with (TapName c i) by (unfold TapName; by rewrite Hc).
    rewrite Hl, lookup_raise_all, decide_True; [done|]. apply list_elem_of_fmap. exists i. rewrite elem_of_slots. split; [done|lia]. }
  rewrite He in *. f_equal. exact Hr.
Qed.
End Pool.

(** ** Concrete runs *)

Definition fresh_host : SimHost := MkSimHost (MkNetView ∅ ∅ ∅) "default via 10.0.0.1 dev eth0 proto dhcp".
Definition demo_net : NetConfig := MkNetConfig "llmboxfc" "172.16" 0 "eth0".
Definition pool2 : SimHost := (EnsurePool demo_net 2 fresh_host).1.

Lemma EnsurePool_spec_witness :
  EnsurePool demo_net 2 fresh_host = (pool2, Ok ()) /\
  nv_links (view pool2) !! "llmboxfc1" = Some true /\
  rules (view pool2) ("filter", "FORWARD") =
    [["-s"; "172.16.0.0/16"; "-d"; "172.16.0.0/16"; "-j"; "DROP"];
     ["-s"; "172.16.0.0/16"; "-o"; "eth0"; "-j"; "ACCEPT"];
     ["-d"; "172.16.0.0/16"; "-m"; "state"; "--state"; "RELATED,ESTABLISHED"; "-j"; "ACCEPT"]].
Proof.
  assert (He : EnsurePool demo_net 2 fresh_host = (pool2, Ok ())) by (vm_compute; reflexivity).
  split; [exact He|].
  destruct (EnsurePool_spec demo_net 2 fresh_host pool2 ltac:(discriminate) He) as (Hl & _ & Hr & _).
  split.
  - exact (Hl 1 ltac:(lia)).
  - rewrite Hr. vm_compute. reflexivity.
Defined.

Lemma ValidatePool_spec_witness :
  (ValidatePool demo_net 3 pool2).2 = Err (ErrIncomplete ["llmboxfc2 (not found)"]) /\
  (ValidatePool demo_net 2 pool2).2 = Ok ().
Proof.
  split.
  - rewrite (proj1 (ValidatePool_spec demo_net 3 pool2)). vm_compute. reflexivity.
  - rewrite (proj1 (ValidatePool_spec demo_net 2 pool2)). vm_compute. reflexivity.
Defined.

(** Without a configured uplink the default route's device is used. *)
Example default_route_uplink :
  resolveUplink (MkNetConfig "llmboxfc" "172.16" 0 "") fresh_host = (fresh_host, Ok "eth0").
Proof. vm_compute. reflexivity. Qed.

(** The slot after [MaxIndex] is set up without complaint although its TAP gets
    no address: the failure to assign one is ignored. *)
Example slot_past_MaxIndex_unaddressed :
  let '(h, r) := ensureTap demo_net (NetFor demo_net (MaxIndex + 1)) fresh_host in
  (r, nv_links (view h) !! "llmboxfc256", elements (nv_addrs (view h))) = (Ok (), Some true, []).
Proof. vm_compute. reflexivity. Qed.
