(* ===== verification/Microvm.v ===== *)
(** * What the micro-VM backends share (internal/spoke/firecracker, cloudhypervisor)

    Both backends keep one directory per box under a state directory, hand out
    pool slots (and Firecracker user ids) by first fit, size a machine from the
    box limits, and poll a fresh guest until it answers.  The code is written out
    in each package; its common shape is modelled once here and the packages'
    differences in [CloudHypervisor] and [Firecracker]. *)

From S2P Require Import Prelude GoStrings Sandbox Sha256 Mvmnet.

Local Open Scope Z_scope.

(** ** Paths: [filepath.Join] of clean, non-empty elements. *)
Definition path_Join (l : list string) : string := Join l "/".

(** The directory of one box: its metadata file, if written, and the size of its
    root disk, if copied. *)
Record BoxFiles (M : Type) := MkBoxFiles { bf_meta : option M; bf_rootfs : option Z }.
Arguments MkBoxFiles {M}.
Arguments bf_meta {M}.
Arguments bf_rootfs {M}.

(** The state directory, by box token. *)
Abbreviation StateDir M := (gmap string (BoxFiles M)).

Definition dir_of {M} (d : StateDir M) (token : string) : BoxFiles M := default (MkBoxFiles None None) (d !! token).

(** [os.MkdirAll] of a box directory. *)
Definition mkdir_box {M} (token : string) (d : StateDir M) : StateDir M := <[token := dir_of d token]> d.

(** Writing a metadata file: [MkdirAll], then a temporary file and a rename, so
    the file holds either the old or the new text. *)
Definition save_meta {M} (ok : bool) (token : string) (m : M) (d : StateDir M) : StateDir M * bool :=
  let d1 := mkdir_box token d in
  if ok then (<[token := MkBoxFiles (Some m) (bf_rootfs (dir_of d token))]> d1, true) else (d1, false).

Definition write_rootfs {M} (token : string) (size : option Z) (d : StateDir M) : StateDir M :=
  <[token := MkBoxFiles (bf_meta (dir_of d token)) size]> d.

(** What [loadMetas] finds: the parseable metadata with a token, in the order of
    the directory listing. *)
Definition load_metas {M} (tok : M -> string) (d : StateDir M) : list M :=
  filter (fun m => tok m <> "") (omap (fun kv => bf_meta kv.2) (map_to_list d)).

(** ** First-fit allocation: the loop of [allocIndexLocked] and [allocUIDLocked]. *)
Fixpoint alloc_from (n : nat) (i : Z) (used : gset Z) : option Z :=
  match n with
  | O => None
  | S n' => if decide (i ∈ used) then alloc_from n' (i + 1) used else Some i
  end.

(** ** Machine sizing *)

Definition defaultVCPUs : Z := 1.
Definition defaultMemSizeMib : Z := 512.
Definition minMemSizeMib : Z := 128.

(** [math.Ceil(float64(n) / 1e9)], exact for fewer than [2^52] nano-CPUs. *)
Definition ceil_cpus (n : Z) : Z := (n + 999999999) / 1000000000.

Definition memSizeMib (l : Limits) : Z :=
  if lim_MemoryBytes l <=? 0 then defaultMemSizeMib
  else Z.max minMemSizeMib (Z.quot (lim_MemoryBytes l) (Z.shiftl 1 20)).

(** The size asked for, or the default, under the operator's ceiling. *)
Definition disk_request (l : Limits) (requested : Z) : Z :=
  let want := if requested <=? 0 then lim_DiskBytes l else requested in
  if (0 <? lim_MaxDiskBytes l) && (lim_MaxDiskBytes l <? want) then lim_MaxDiskBytes l else want.

Definition newToken (rnd : option (list Z)) : option string := hex_encode <$> rnd.

(** ** Waiting for a guest

    The polling loop of [waitForGuest] and [waitForSocket].  Round [k] probes the
    guest ([probe k]), reads the clock ([clock k]) and looks at the context
    ([cancelled k], decided by the [select] before the next round). *)
Inductive waitError := WaitTimeout | WaitCancelled.

Fixpoint poll (fuel : nat) (probe : nat -> bool) (clock : nat -> Z) (cancelled : nat -> bool)
    (deadline : Z) (k : nat) : option (res waitError ()) :=
  match fuel with
  | O => None
  | S fuel' =>
      if probe k then Some (Ok ())
      else if After (clock k) deadline then Some (Err WaitTimeout)
      else if cancelled k then Some (Err WaitCancelled)
      else poll fuel' probe clock cancelled deadline (S k)
  end.

(** [fuel] rounds from the start of the wait. *)
Definition wait_for (fuel : nat) (probe : nat -> bool) (clock : nat -> Z) (cancelled : nat -> bool)
    (start timeout : Z) : option (res waitError ()) :=
  poll fuel probe clock cancelled (start + timeout) 0.

(** ** Backend options *)

Record Options := MkOptions {
  opt_DefaultImage : string;
  opt_SocketDir : string;
  opt_Peers : list string;
  opt_Limits : Limits;
  opt_Namespace : string;
  opt_GPUs : string;
  opt_GPUPassthrough : list string;
  opt_GPUMediatedDevices : list string;
  opt_KernelImagePath : string;
  opt_RootfsImagePath : string;
  opt_CloudHypervisorBinary : string;
  opt_PayloadImagePath : string;
  opt_StateDir : string;
  opt_DisableEgress : bool;
  opt_EgressMode : string;
  opt_PoolSize : Z;
  opt_JailerBinary : string;
  opt_FirecrackerBinary : string;
  opt_ChrootBase : string;
  opt_UIDMin : Z;
  opt_UIDMax : Z;
  opt_TapGroupGID : Z;
  opt_CgroupVersion : string;
}.

Inductive egressOptError := ErrBadMode (s : string) | ErrConflict (m : EgressMode).

(** [resolveEgressMode], the same in both packages. *)
Definition resolveEgressMode (disableEgress : bool) (mode : string) : res egressOptError EgressMode :=
  if String.eqb mode "" then Ok (if disableEgress then EgressDisabled else EgressManaged)
  else
    match ParseEgressMode mode with
    | Err s => Err (ErrBadMode s)
    | Ok m =>
        if disableEgress && negb (bool_decide (m = EgressDisabled)) then Err (ErrConflict m) else Ok m
    end.

(** ** Lemmas *)

Lemma alloc_from_Some n i used j :
  alloc_from n i used = Some j <->
  i <= j < i + Z.of_nat n /\ j ∉ used /\ forall k, i <= k < j -> k ∈ used.
Proof.
  revert i. induction n as [|n IH]; intros i; simpl.
  { split; [done|]. intros [? _]. lia. }
  case_decide as Hi.
  - rewrite IH. split.
    + intros (Hr & Hj & Hl). split_and!; [lia..|done|]. intros k Hk.
      destruct (decide (k = i)) as [-> |]; [done|]. apply Hl. lia.
    + intros (Hr & Hj & Hl). assert (j <> i) by (intros ->; done). split_and!; [lia..|done|].
      intros k Hk. apply Hl. lia.
  - split.
    + intros [= ->]. split_and!; [lia..|done|]. intros k Hk. lia.
    + intros (Hr & Hj & Hl). f_equal. destruct (decide (i = j)); [done|]. exfalso. apply Hi, Hl. lia.
Qed.

Lemma alloc_from_None n i used :
  alloc_from n i used = None <-> forall k, i <= k < i + Z.of_nat n -> k ∈ used.
Proof.
  revert i. induction n as [|n IH]; intros i; simpl.
  { split; [intros _ k Hk; lia|done]. }
  case_decide as Hi.
  - rewrite IH. split; intros Hl k Hk; [|apply Hl; lia].
    destruct (decide (k = i)) as [-> |]; [done|]. apply Hl. lia.
  - split; [done|]. intros Hl. exfalso. apply Hi, Hl. lia.
Qed.

(** Every metadata file lies in the directory its token names. *)
Definition filed {M} (tok : M -> string) (d : StateDir M) : Prop :=
  forall t b m, d !! t = Some b -> bf_meta b = Some m -> tok m = t.

Lemma load_metas_NoDup {M} (tok : M -> string) d : filed tok d -> NoDup (tok <$> load_metas tok d).
Proof.
  intros Hf. eapply sublist_NoDup; [apply (NoDup_fst_map_to_list d)|]. unfold load_metas.
  assert (Hk : forall t b m, (t, b) ∈ map_to_list d -> bf_meta b = Some m -> tok m = t).
  { intros t b m Hin%elem_of_map_to_list Hb. by eapply Hf. }
  revert Hk. generalize (map_to_list d). clear. induction l as [|[t b] l IH]; intros Hk; [done|].
  assert (IH' := IH (fun t0 b0 m0 Hin => Hk t0 b0 m0 (list_elem_of_further _ _ _ Hin))). simpl.
  destruct (bf_meta b) as [m|] eqn:Hb; [|by constructor]. rewrite filter_cons.
  case_decide; [|by constructor]. simpl. rewrite (Hk t b m (list_elem_of_here _ _) Hb). by constructor.
Qed.

Lemma elem_of_load_metas {M} (tok : M -> string) d m : filed tok d ->
  m ∈ load_metas tok d <-> tok m <> "" /\ exists b, d !! tok m = Some b /\ bf_meta b = Some m.
Proof.
  intros Hf. unfold load_metas. rewrite list_elem_of_filter, list_elem_of_omap. apply and_iff_compat_l. split.
  - intros ([t b] & Hin%elem_of_map_to_list & Hb). rewrite (Hf t b m Hin Hb). eauto.
  - intros (b & Hd & Hb). exists (tok m, b). split; [by apply elem_of_map_to_list|done].
Qed.

(** Asking for no egress is never overruled. *)
Lemma resolveEgressMode_disable mode m : resolveEgressMode true mode = Ok m -> m = EgressDisabled.
Proof.
  unfold resolveEgressMode. destruct (String.eqb mode ""); [by intros [= <-]|].
  destruct (ParseEgressMode mode) as [m'|]; [|done]. simpl.
  destruct (bool_decide (m' = EgressDisabled)) eqn:He; simpl; [|done]. intros [= <-]. by bools.
Qed.

Lemma memSizeMib_bounds l : minMemSizeMib <= memSizeMib l.
Proof. unfold memSizeMib, defaultMemSizeMib, minMemSizeMib. destruct (_ <=? 0); lia. Qed.

Lemma poll_done fuel probe clock cancelled deadline k n :
  (n < fuel)%nat ->
  (forall j, (k <= j < k + n)%nat -> probe j = false /\ After (clock j) deadline = false /\ cancelled j = false) ->
  poll fuel probe clock cancelled deadline k =
  poll (fuel - n) probe clock cancelled deadline (k + n).
Proof.
  revert fuel k. induction n as [|n IH]; intros fuel k Hf Hj.
  { by rewrite Nat.sub_0_r, Nat.add_0_r. }
  destruct fuel as [|fuel]; [lia|]. simpl.
  destruct (Hj k ltac:(lia)) as (-> & -> & ->).
  rewrite IH by (try lia; intros j Hr; apply Hj; lia). f_equal; lia.
Qed.

Lemma least_true (f : nat -> bool) K : f K = true ->
  exists k, (k <= K)%nat /\ f k = true /\ forall j, (j < k)%nat -> f j = false.
Proof.
  revert f. induction K as [|K IH]; intros f HK.
  - exists 0%nat. split_and!; [lia|done|lia].
  - destruct (f 0%nat) eqn:H0.
    + exists 0%nat. split_and!; [lia|done|lia].
    + destruct (IH (fun n => f (S n)) HK) as (k & Hk & Hf & Hj). exists (S k). split_and!; [lia|done|].
      intros [|j] Hlt; [done|]. apply Hj. lia.
Qed.

(** A round ends the wait when the guest answers, time is up or the caller gives up. *)
Definition ends (probe : nat -> bool) (clock : nat -> Z) (cancelled : nat -> bool) (deadline : Z) (k : nat) : bool :=
  probe k || After (clock k) deadline || cancelled k.

Lemma poll_first_end fuel probe clock cancelled deadline k :
  (k < fuel)%nat -> ends probe clock cancelled deadline k = true ->
  (forall j, (j < k)%nat -> ends probe clock cancelled deadline j = false) ->
  poll fuel probe clock cancelled deadline 0 =
  Some (if probe k then Ok () else if After (clock k) deadline then Err WaitTimeout else Err WaitCancelled).
Proof.
  intros Hf Hk Hj. rewrite (poll_done _ _ _ _ _ _ k) by
    (try lia; intros j Hlt; specialize (Hj j ltac:(lia)); unfold ends in Hj; bools; by split_and!).
  destruct (fuel - k)%nat as [|m] eqn:Hm; [lia|]. simpl. unfold ends in Hk.
  destruct (probe k); [done|]. destruct (After (clock k) deadline); [done|]. simpl in Hk. by rewrite Hk.
Qed.

Lemma clock_advances (clock : nat -> Z) start period :
  start <= clock 0%nat -> (forall k, clock k + period <= clock (S k)) ->
  forall k, start + Z.of_nat k * period <= clock k.
Proof. intros H0 Hs. induction k as [|k IH]; [lia|]. specialize (Hs k). lia. Qed.

(** Waiting for a guest always ends: when each round sleeps at least one polling
    period, [timeout / period + 2] rounds decide the outcome whatever the guest
    does, more rounds never change it, and the outcome is success exactly when
    the guest answered in a round before the clock passed the deadline or the
    caller gave up. *)
Lemma wait_for_terminates probe clock cancelled start timeout period :
  0 < period -> 0 <= timeout -> start <= clock 0%nat ->
  (forall k, clock k + period <= clock (S k)) ->
  exists r, (forall fuel, (Z.to_nat (timeout / period) + 2 <= fuel)%nat ->
      wait_for fuel probe clock cancelled start timeout = Some r) /\
    (r = Ok () <-> exists k, probe k = true /\
       forall j, (j < k)%nat -> clock j <= start + timeout /\ cancelled j = false).
Proof.
  intros Hp Ht H0 Hs. set (K := (Z.to_nat (timeout / period) + 1)%nat).
  assert (HK : ends probe clock cancelled (start + timeout) K = true).
  { unfold ends, After. pose proof (clock_advances clock start period H0 Hs K) as Hc.
    assert (Hd : 0 <= timeout / period) by (apply Z.div_pos; lia).
    pose proof (Z.mul_succ_div_gt timeout period Hp).
    replace (start + timeout <? clock K) with true by (symmetry; apply Z.ltb_lt; unfold K in *; lia).
    by rewrite orb_true_r. }
  destruct (least_true _ K HK) as (k & Hk & Hend & Hbefore).
  eexists. split; [intros fuel Hf; apply (poll_first_end _ _ _ _ _ k); [lia|done|done]|].
  assert (Hb : forall j, (j < k)%nat -> probe j = false /\ clock j <= start + timeout /\ cancelled j = false).
  { intros j Hj. specialize (Hbefore j Hj). unfold ends, After in Hbefore. bools. done. }
  split.
  - destruct (probe k) eqn:Hpk; [|by destruct (After _ _)]. intros _. exists k. split; [done|].
    intros j Hj. destruct (Hb j Hj) as (_ & ? & ?). done.
  - intros (k' & Hk' & Hbefore'). destruct (probe k) eqn:Hpk; [done|]. exfalso.
    destruct (Nat.lt_trichotomy k' k) as [Hlt|[-> |Hgt]]; [|congruence|].
    + destruct (Hb k' Hlt) as (? & _). congruence.
    + destruct (Hbefore' k Hgt) as [Hc Hn]. unfold ends, After in Hend. rewrite Hpk, Hn in Hend.
      destruct (Z.ltb_spec (start + timeout) (clock k)); [lia|done].
Qed.

(** A guest that answers in its third round, polled every 100 ms for 45 s. *)
Example guest_answers_in_third_round :
  exists r, wait_for 452 (fun k => (2 <=? k)%nat) (fun k => Z.of_nat k * (100 * Millisecond)) (fun _ => false)
    0 (45 * Second) = Some r /\ r = Ok ().
Proof.
  destruct (wait_for_terminates (fun k => (2 <=? k)%nat) (fun k => Z.of_nat k * (100 * Millisecond)) (fun _ => false)
    0 (45 * Second) (100 * Millisecond) ltac:(vm_compute; reflexivity) ltac:(vm_compute; discriminate) ltac:(vm_compute; discriminate)
    ltac:(intros k; unfold Millisecond, Nanosecond; lia)) as (r & Hr & Hok).
  exists r. split; [apply Hr, Nat.leb_le; vm_compute; reflexivity|].
  apply Hok. exists 2%nat. split; [reflexivity|].
  intros j Hj. split; [|reflexivity]. unfold Millisecond, Second, Millisecond, Nanosecond. lia.
Defined.

(** ** Registries

    A registry maps tokens to locations of a heap of instances.  The instances it
    holds, in order of creation, with their locations. *)
Section Live.
Context {I : Type} (tok : I -> string).

Fixpoint live (bx : gmap string nat) (h : list I) (l : nat) : list (nat * I) :=
  match h with
  | [] => []
  | i :: h' => (if decide (bx !! tok i = Some l) then [(l, i)] else []) ++ live bx h' (S l)
  end.

Lemma live_app bx h1 h2 l : live bx (h1 ++ h2) l = live bx h1 l ++ live bx h2 (l + length h1).
Proof.
  revert l. induction h1 as [|i h1 IH]; intros l; simpl; [by rewrite Nat.add_0_r|].
  rewrite IH, <- app_assoc. do 3 f_equal. lia.
Qed.

Lemma elem_of_live bx h l k i :
  (k, i) ∈ live bx h l <-> (l <= k)%nat /\ h !! (k - l)%nat = Some i /\ bx !! tok i = Some k.
Proof.
  revert l. induction h as [|j h IH]; intros l; simpl; [set_solver|].
  rewrite elem_of_app, IH. split.
  - intros [Hin|(Hk & Hi & Hb)].
    + case_decide; [|set_solver]. apply list_elem_of_singleton in Hin as [= -> ->]. rewrite Nat.sub_diag. auto with lia.
    + replace (k - l)%nat with (S (k - S l)) by lia. auto with lia.
  - intros (Hk & Hi & Hb). destruct (decide (k = l)) as [-> |].
    + rewrite Nat.sub_diag in Hi. injection Hi as ->. rewrite decide_True by done. set_solver.
    + right. replace (k - l)%nat with (S (k - S l)) in Hi by lia. auto with lia.
Qed.

Lemma live_NoDup bx h l : NoDup (live bx h l).*1.
Proof.
  revert l. induction h as [|i h IH]; intros l; simpl; [constructor|].
  case_decide; simpl; [|done]. constructor; [|done].
  intros ([k j] & Hk & Hin)%list_elem_of_fmap. apply elem_of_live in Hin. simpl in Hk. lia.
Qed.

(** A token taken over by a later location, or dropped, hides what had it. *)
Lemma live_hide bx bx' t h l :
  (forall t', t' <> t -> bx' !! t' = bx !! t') -> (forall k, (k < l + length h)%nat -> bx' !! t <> Some k) ->
  live bx' h l = filter (fun x => tok x.2 <> t) (live bx h l).
Proof.
  revert l. induction h as [|i h IH]; intros l Ho Hn; simpl; [done|].
  rewrite filter_app, (IH (S l)); [|done|intros k Hk; apply Hn; simpl; lia]. f_equal.
  destruct (decide (tok i = t)) as [Heq|Hne].
  - rewrite decide_False by (rewrite Heq; apply Hn; simpl; lia). case_decide; [|done].
    rewrite filter_cons_False; [done|]. simpl. intros Hx. by apply Hx.
  - rewrite Ho by done. case_decide; [|done]. by rewrite filter_cons_True.
Qed.

(** Updates that keep tokens keep whatever else they keep. *)
Lemma live_alter {B} (g : I -> B) bx f h l k : (forall i, tok (f i) = tok i) -> (forall i, g (f i) = g i) ->
  (fun x => g x.2) <$> live bx (alter f k h) l = (fun x => g x.2) <$> live bx h l.
Proof.
  intros Ht Hg. revert l k. induction h as [|i h IH]; intros l k; [by destruct k|].
  destruct k as [|k]; simpl; rewrite !fmap_app.
  - rewrite Ht. f_equal. case_decide; [|done]. simpl. by rewrite Hg.
  - f_equal. apply IH.
Qed.
End Live.
