(* ===== verification/Assets.v ===== *)
(** * Guest images of the Firecracker backend (internal/spoke/firecracker/assets.go)

    The resolver that downloads the kernel, root file system and payload from an
    OCI registry into a cache: resumable ranged downloads, verification of the
    content digest, decompression, and the marker of the cached manifest.

    The host and the registry are the class [AssetHost]: every system call may
    fail ([fault], by the number of calls made), every request may be answered in
    any way.  A call that fails from some point on for good is also what a crash
    at that point leaves on the disk, so the statements that hold for every
    [fault] hold at every intermediate state. *)

From S2P Require Import Prelude GoStrings Microvm.

Local Open Scope Z_scope.
Local Open Scope go_scope.

(** ** The registry and the host *)

Record Credential := MkCredential { cr_Host : string; cr_Username : string; cr_Password : string; cr_RefreshToken : string }.

(** [dockerregistry.AuthConfig]: the fields the resolver uses. *)
Record AuthConfig := MkAuthConfig { ac_Username : string; ac_Password : string; ac_IdentityToken : string }.

(** [registry.Reference] after parsing. *)
Record Reference := MkReference { rf_Host : string; rf_Repository : string; rf_Reference : string }.

(** [ocispec.Descriptor] and [ocispec.Manifest]. *)
Record Descriptor := MkDescriptor { ds_Digest : string; ds_Size : Z; ds_Annotations : gmap string string }.
Record Manifest := MkManifest { mf_Layers : list Descriptor }.

Definition AnnotationTitle : string := "org.opencontainers.image.title".
Definition title_of (d : Descriptor) : string := default "" (ds_Annotations d !! AnnotationTitle).

(** The answer to a GET: no response, or a status with a body and whether reading
    the body ends in an error instead of its end. *)
Inductive GetResult := NoResponse | Response (status : Z) (body : string) (broken : bool).

Class AssetHost := {
  (** the fate of the n-th system call: [Some k] fails it, a write after [k] bytes *)
  fault : nat -> option nat;
  (** available, free blocks and block size of a file system *)
  Statfs : nat -> string -> option (Z * Z * Z);
  Geteuid : Z;
  Getenv : string -> string;
  UserCacheDir : option string;
  (** whether the context is cancelled during the wait after the n-th request *)
  ctx_Done : nat -> bool;
  ParseReference : string -> option Reference;
  Resolve : nat -> option Credential -> Reference -> option Descriptor;
  (** the manifest's bytes, checked against the size and digest of the descriptor *)
  FetchManifest : nat -> option Credential -> Reference -> Descriptor -> option string;
  UnmarshalManifest : string -> option Manifest;
  (** the n-th request, for a blob from an offset *)
  Get : nat -> option Credential -> string -> Z -> GetResult;
  (** [digest.Verifier]: whether content has a digest *)
  Verified : string -> string -> bool;
  (** the bytes the zstd decoder yields, and whether it reached the end *)
  Zstd : string -> string * bool;
}.

Inductive assetError :=
| ErrSys (call : string) | ErrNotExist (path : string)
| ErrReference (ref : string) | ErrResolve (ref : string) | ErrManifest (ref : string)
| ErrNoRoom (title : string) (need : Z) | ErrStalled (offset size attempts : Z) | ErrCancelled
| ErrDigest (want : string) | ErrDecode (path : string) | ErrMissing (ref file : string)
| ErrWrap (what : string) (e : assetError).

(** [fmt.Errorf("what: %w", err)]. *)
Definition wrap {S A} (what : string) (m : go S assetError A) : go S assetError A :=
  fun s => match m s with (s', Err e) => (s', Err (ErrWrap what e)) | r => r end.

(** ** The disk *)

(** Regular files by path, and the numbers of system calls and requests so far. *)
Record Disk := MkDisk { dk_files : gmap string string; dk_calls : nat; dk_requests : nat }.

Abbreviation asset A := (go Disk assetError A).

Section Calls.
Context `{AssetHost}.

Definition set_files (f : gmap string string -> gmap string string) (d : Disk) : Disk :=
  MkDisk (f (dk_files d)) (dk_calls d) (dk_requests d).

(** Count a call and learn its fate. *)
Definition tick (d : Disk) : Disk * option nat := (MkDisk (dk_files d) (S (dk_calls d)) (dk_requests d), fault (dk_calls d)).

(** A call that succeeds with [k] unless it is made to fail. *)
Definition syscall {A} (call : string) (k : asset A) : asset A :=
  fun d => match tick d with (d', None) => k d' | (d', Some _) => (d', Err (ErrSys call)) end.

(** Directories are not represented: creating one only may fail. *)
Definition MkdirAll (dir : string) : asset () := syscall "mkdir" (go_ret ()).

Definition ReadFile (path : string) : asset string :=
  syscall "read" (fun d => (d, match dk_files d !! path with Some c => Ok c | None => Err (ErrNotExist path) end)).

Definition Stat (path : string) : asset Z :=
  syscall "stat" (fun d =>
    (d, match dk_files d !! path with Some c => Ok (Z.of_nat (String.length c)) | None => Err (ErrNotExist path) end)).

Definition Remove (path : string) : asset () :=
  syscall "remove" (fun d =>
    match dk_files d !! path with
    | Some _ => (set_files (delete path) d, Ok ())
    | None => (d, Err (ErrNotExist path))
    end).

Definition Rename (old new : string) : asset () :=
  syscall "rename" (fun d =>
    match dk_files d !! old with
    | Some c => (set_files (fun fs => <[new := c]> (delete old fs)) d, Ok ())
    | None => (d, Err (ErrNotExist old))
    end).

(** [O_CREATE|O_WRONLY|O_APPEND] and [O_CREATE|O_WRONLY|O_TRUNC]. *)
Definition OpenAppend (path : string) : asset () :=
  syscall "open" (fun d => (set_files (fun fs => <[path := default "" (fs !! path)]> fs) d, Ok ())).

Definition OpenTrunc (path : string) : asset () :=
  syscall "open" (fun d => (set_files <[path := ""]> d, Ok ())).

(** A write at the end of an open file: the number of bytes written and whether
    all were. *)
Definition append_file (path s : string) : Disk -> Disk * (Z * bool) :=
  fun d =>
    let '(d', f) := tick d in
    let '(s', ok) := match f with None => (s, true) | Some k => (String.substring 0 k s, false) end in
    (set_files (fun fs => <[path := default "" (fs !! path) +:+ s']> fs) d', (Z.of_nat (String.length s'), ok)).

(** [io.Copy]: nothing is written for an empty source. *)
Definition copy_to (path s : string) : Disk -> Disk * (Z * bool) :=
  fun d => if String.eqb s "" then (d, (0, true)) else append_file path s d.

Definition Sync : asset () := syscall "fsync" (go_ret ()).
Definition CloseFile : asset () := syscall "close" (go_ret ()).

Definition WriteFile (path s : string) : asset () :=
  let* _ := OpenTrunc path in
  fun d => let '(d', (_, ok)) := append_file path s d in (d', if ok then Ok () else Err (ErrSys "write")).

(** [if err := m(); err != nil { _ = c(); return err }]. *)
Definition or_else {A B} (m : asset A) (c : asset B) : asset A :=
  fun d => match m d with (d', Err e) => ((c d').1, Err e) | r => r end.
End Calls.

(** [filepath.Ext]: the last element's suffix from its last dot. *)
Fixpoint ext_from (s : string) (acc : option string) : string :=
  match s with
  | "" => default "" acc
  | String c s' =>
      ext_from s' (if Ascii.eqb c "/" then None else if Ascii.eqb c "." then Some s else acc)
  end.
Definition Ext (path : string) : string := ext_from path None.

Example ext_examples : (Ext "/c/vmlinux.zst", Ext "/a.b/c", Ext "x.tar.ZST", Ext "") = (".zst", "", ".ZST", "").
Proof. reflexivity. Qed.

(** [filepath.Dir] of a clean path: what precedes the last slash. *)
Fixpoint dir_from (s acc rest : string) : string :=
  match s with
  | "" => acc
  | String c s' => if Ascii.eqb c "/" then dir_from s' (acc +:+ rest) "/" else dir_from s' acc (rest +:+ String c "")
  end.
Definition Dir (path : string) : string :=
  match dir_from path "" "" with
  | "" => if HasPrefix path "/" then "/" else "."
  | d => d
  end.

Example dir_examples : (Dir "/c/llmbox-fc-base/base.zst", Dir "/x", Dir "x") = ("/c/llmbox-fc-base", "/", ".").
Proof. reflexivity. Qed.

(** ** Downloading *)

Definition maxStalls : Z := 6.
Definition resumeBackoffBase : Z := Second.


Definition backoff (attempt : Z) : Z :=
  let max := 30 * Second in
  let attempt := if attempt <? 0 then 0 else attempt in
  if attempt >? 30 then max
  else
    let d := int64 (Z.shiftl resumeBackoffBase attempt) in
    if (d >? 0) && (d <? max) then d else max.

Section Download.
Context `{AssetHost}.

Definition request (d : Disk) : Disk * nat := (MkDisk (dk_files d) (dk_calls d) (S (dk_requests d)), dk_requests d).

(** One ranged GET copied to the end of the file: the bytes transferred, and
    whether the copy ended without an error. *)
Definition downloadRange (cred : option Credential) (blobURL path : string) (offset : Z) : Disk -> Disk * (Z * bool) :=
  fun d =>
    let '(d1, n) := request d in
    match Get n cred blobURL offset with
    | NoResponse => (d1, (0, false))
    | Response status body broken =>
        if ((offset =? 0) && ((status =? 200) || (status =? 206))) || ((offset >? 0) && (status =? 206)) then
          let '(d2, (k, ok)) := copy_to path body d1 in (d2, (k, ok && negb broken))
        else (d1, (0, false))
    end.

(** The loop of [download]; [None] is the end of the fuel. *)
Fixpoint download_loop (fuel : nat) (cred : option Credential) (blobURL path : string) (offset size stalls : Z) (d : Disk)
    : Disk * option (res assetError ()) :=
  match fuel with
  | O => (d, None)
  | S fuel' =>
      if offset <? size then
        let '(d1, (n, _)) := downloadRange cred blobURL path offset d in
        let offset := offset + n in
        if offset >=? size then (d1, Some (Ok ()))
        else
          let stalls := if n >? 0 then 0 else stalls + 1 in
          if stalls >? maxStalls then (d1, Some (Err (ErrStalled offset size stalls)))
          else if ctx_Done (dk_requests d1) then (d1, Some (Err ErrCancelled))
          else download_loop fuel' cred blobURL path offset size stalls d1
      else (d, Some (Ok ()))
  end.

(** Every seven requests add at least one byte. *)
Definition download_fuel (offset size : Z) : nat := S (Z.to_nat (7 * (size - offset))).

Definition download (cred : option Credential) (blobURL path : string) (offset size : Z) : asset () :=
  fun d =>
    match download_loop (download_fuel offset size) cred blobURL path offset size 0 d with
    | (d', Some r) => (d', r)
    | (d', None) => (d', Err (ErrSys "download"))
    end.

Definition freeBytes (dir : string) (d : Disk) : option Z :=
  match Statfs (dk_calls d) dir with
  | Some (bavail, bfree, bsize) => Some (((if Geteuid =? 0 then bfree else bavail) * bsize) mod 2 ^ 64)
  | None => None
  end.

Definition ensureRoom (dir : string) (need : Z) (title : string) : asset () :=
  fun d =>
    match freeBytes dir d with
    | Some free => if free <? need mod 2 ^ 64 then (d, Err (ErrNoRoom title need)) else (d, Ok ())
    | None => (d, Ok ())
    end.

Definition verifyDigest (path want : string) : asset () :=
  let* c := ReadFile path in
  if Verified want c then go_ret () else go_fail (ErrDigest want).

(** The offset to resume from: an oversized partial file is removed. *)
Definition resume_offset (part : string) (size : Z) : asset Z :=
  fun d =>
    match Stat part d with
    | (d', Ok n) => if n >? size then go_bind (go_ignore (Remove part)) (fun _ => go_ret 0) d' else (d', Ok n)
    | (d', Err _) => (d', Ok 0)
    end.

Definition part_of (path : string) : string := path +:+ ".part".

Definition blobURL (plainHTTP : bool) (ref : Reference) (layer : Descriptor) : string :=
  (if plainHTTP then "http" else "https") +:+ "://" +:+ rf_Host ref +:+ "/v2/" +:+ rf_Repository ref +:+ "/blobs/" +:+ ds_Digest layer.

Definition fetchLayer (cred : option Credential) (ref : Reference) (layer : Descriptor) (dest : string) : asset () :=
  let part := part_of dest in
  let* offset := resume_offset part (ds_Size layer) in
  let* _ := ensureRoom (Dir dest) (ds_Size layer - offset) (title_of layer) in
  let* _ := OpenAppend part in
  let* _ := or_else (wrap "downloading" (download cred (blobURL false ref layer) part offset (ds_Size layer))) CloseFile in
  let* _ := or_else Sync CloseFile in
  let* _ := CloseFile in
  let* _ := or_else (wrap "verifying" (verifyDigest part (ds_Digest layer))) (Remove part) in
  Rename part dest.

Definition compressed (path : string) : bool := String.eqb (ToLower (Ext path)) ".zst".
Definition raw_path (path : string) : string := TrimSuffix path (Ext path).

(** The decoded bytes copied to the end of [tmp]. *)
Definition decode_into (path tmp : string) (content : string) : asset () :=
  fun d =>
    let '(out, whole) := Zstd content in
    let '(d1, (_, ok)) := copy_to tmp out d in
    (d1, if ok && whole then Ok () else Err (ErrDecode path)).

Definition decompressLayer (path : string) : asset () :=
  if negb (compressed path) then go_ret ()
  else
    let out := raw_path path in
    let* c := ReadFile path in
    let tmp := part_of out in
    let* _ := OpenTrunc tmp in
    let* _ := or_else (decode_into path tmp c) (let* _ := go_ignore CloseFile in Remove tmp) in
    let* _ := or_else Sync (let* _ := go_ignore CloseFile in Remove tmp) in
    let* _ := or_else CloseFile (Remove tmp) in
    let* _ := Rename tmp out in
    go_ignore (Remove path).

(** One layer of the loop of [orasPull]. *)
Definition pull_layer (cred : option Credential) (ref : Reference) (destDir : string) (layer : Descriptor) : asset () :=
  let title := title_of layer in
  if String.eqb title "" then go_ret ()
  else
    let dest := path_Join [destDir; title] in
    let* _ := fetchLayer cred ref layer dest in
    wrap "decompressing" (decompressLayer dest).

Definition marker_path (destDir : string) : string := path_Join [destDir; ".oci-digest"].

(** Whether the marker names the manifest. *)
Definition up_to_date (destDir digest : string) : asset bool :=
  fun d =>
    match ReadFile (marker_path destDir) d with
    | (d', Ok cur) => (d', Ok (String.eqb (TrimSpace cur) digest))
    | (d', Err _) => (d', Ok false)
    end.

Definition orasPull (ref destDir : string) (cred : option Credential) : asset () :=
  match ParseReference ref with
  | None => go_fail (ErrReference ref)
  | Some repo =>
      fun d0 =>
        let '(d1, n) := request d0 in
        match Resolve n cred repo with
        | None => (d1, Err (ErrResolve ref))
        | Some desc =>
            (let* cached := up_to_date destDir (ds_Digest desc) in
             if cached then go_ret ()
             else fun d2 =>
               let '(d3, n) := request d2 in
               match FetchManifest n cred repo desc with
               | None => (d3, Err (ErrManifest ref))
               | Some bytes =>
                   match UnmarshalManifest bytes with
                   | None => (d3, Err (ErrManifest ref))
                   | Some man =>
                       (let* _ := for_each (mf_Layers man) (pull_layer cred repo destDir) in
                        go_ignore (WriteFile (marker_path destDir) (ds_Digest desc))) d3
                   end
               end) d1
        end
  end.
End Download.

(** ** The resolver *)

Definition defaultAssetRegistry : string := "ghcr.io/clems4ever".
Definition defaultAssetTag : string := "latest".
Definition defaultStateDir : string := "/run/llmbox/firecracker".

Record fcAsset := MkFcAsset { fa_repo : string; fa_file : string }.
Definition kernelAsset : fcAsset := MkFcAsset "llmbox-fc-kernel" "vmlinux".
Definition baseAsset : fcAsset := MkFcAsset "llmbox-fc-base" "base-rootfs.ext4".
Definition payloadAsset : fcAsset := MkFcAsset "llmbox-fc-payload" "payload.ext4".

Record assetResolver := MkAssetResolver {
  ar_registry : string;
  ar_tag : string;
  ar_cacheDir : string;
  ar_cred : option Credential;
  ar_pull : string -> string -> option Credential -> asset ();
}.

Definition credentialFor (registry : string) (auths : gmap string AuthConfig) : option Credential :=
  let host := match IndexByte registry "/" with Some i => String.substring 0 i registry | None => registry end in
  match auths !! host with
  | None => None
  | Some a =>
      if String.eqb (ac_Username a) "" && String.eqb (ac_Password a) "" && String.eqb (ac_IdentityToken a) "" then None
      else Some (MkCredential host (ac_Username a) (ac_Password a) (ac_IdentityToken a))
  end.

Definition chooseAssetCacheDir (envOverride stateDir : string) (userCache : option string) (euid : Z) : string :=
  if negb (String.eqb envOverride "") then envOverride
  else if negb (String.eqb stateDir "") then path_Join [stateDir; "assets"]
  else
    match userCache with
    | Some cache => path_Join [cache; "llmbox"; "firecracker"]
    | None => if euid =? 0 then "/var/lib/llmbox/firecracker/assets" else path_Join [defaultStateDir; "assets"]
    end.

Section Resolver.
Context `{AssetHost}.

Definition env_or (name default : string) : string := if String.eqb (Getenv name) "" then default else Getenv name.

Definition newAssetResolver (cacheDir : string) (auths : gmap string AuthConfig) : assetResolver :=
  let reg := env_or "LLMBOX_FC_REGISTRY" defaultAssetRegistry in
  MkAssetResolver reg (env_or "LLMBOX_FC_TAG" defaultAssetTag) cacheDir (credentialFor reg auths) orasPull.

Definition asset_ref (r : assetResolver) (a : fcAsset) : string :=
  ar_registry r +:+ "/" +:+ fa_repo a +:+ ":" +:+ ar_tag r.

Definition resolve (r : assetResolver) (a : fcAsset) : asset string :=
  let dest := path_Join [ar_cacheDir r; fa_repo a] in
  let* _ := MkdirAll dest in
  let ref := asset_ref r a in
  let* _ := wrap "resolving" (ar_pull r ref dest (ar_cred r)) in
  let out := path_Join [dest; fa_file a] in
  fun d =>
    match Stat out d with
    | (d', Ok _) => (d', Ok out)
    | (d', Err _) => (d', Err (ErrMissing ref (fa_file a)))
    end.

Definition resolveImages (r : assetResolver) (kernel rootfs payload : string) : asset (string * string * string) :=
  let* kernel' := (if String.eqb kernel "" then resolve r kernelAsset else go_ret kernel) in
  let rootfsResolved := String.eqb rootfs "" in
  let* rootfs' := (if String.eqb rootfs "" then resolve r baseAsset else go_ret rootfs) in
  let* payload' := (if String.eqb payload "" && rootfsResolved then resolve r payloadAsset else go_ret payload) in
  go_ret (kernel', rootfs', payload').

Fixpoint fetch_each (r : assetResolver) (l : list fcAsset) (paths : list string) : asset (list string) :=
  match l with
  | [] => go_ret paths
  | a :: l' => let* p := resolve r a in fetch_each r l' (paths ++ [p])
  end.

Definition fetchAll (r : assetResolver) : asset (list string) := fetch_each r [kernelAsset; baseAsset; payloadAsset] [].

Definition assetCacheDir (stateDir : string) : string :=
  chooseAssetCacheDir (Getenv "LLMBOX_FC_ASSET_CACHE") stateDir UserCacheDir Geteuid.

Definition FetchAssets (stateDir : string) (auths : gmap string AuthConfig) : Disk -> Disk * (string * res assetError (list string)) :=
  fun d =>
    let r := newAssetResolver (assetCacheDir stateDir) auths in
    let '(d', paths) := fetchAll r d in (d', (ar_cacheDir r, paths)).
End Resolver.

Create HintDb assets discriminated.

(** ** Which files a step touches *)

(** Every file is as before, or as [P] allows. *)
Definition changes (P : string -> option string -> Prop) (d d' : Disk) : Prop :=
  forall p, dk_files d' !! p = dk_files d !! p \/ P p (dk_files d' !! p).

Lemma changes_refl P d d' : dk_files d' = dk_files d -> changes P d d'.
Proof. intros He p. left. by rewrite He. Qed.

Lemma changes_trans P d d1 d' : changes P d d1 -> changes P d1 d' -> changes P d d'.
Proof. intros H1 H2 p. destruct (H2 p) as [->|]; [|by right]. apply H1. Qed.

Lemma changes_weaken (P Q : string -> option string -> Prop) d d' :
  (forall p v, P p v -> Q p v) -> changes P d d' -> changes Q d d'.
Proof. intros HPQ Hc p. destruct (Hc p); [by left|right; auto]. Qed.

Lemma changes_insert (P : string -> option string -> Prop) q v d d' :
  dk_files d' = <[q := v]> (dk_files d) -> P q (Some v) -> changes P d d'.
Proof.
  intros He HP p. rewrite He. destruct (decide (p = q)) as [->|]; [right; by rewrite lookup_insert_eq|left; by rewrite lookup_insert_ne].
Qed.

Lemma changes_delete (P : string -> option string -> Prop) q d d' :
  dk_files d' = delete q (dk_files d) -> P q None -> changes P d d'.
Proof.
  intros He HP p. rewrite He. destruct (decide (p = q)) as [->|]; [right; by rewrite lookup_delete_eq|left; by rewrite lookup_delete_ne].
Qed.

Definition only (q : string) : string -> option string -> Prop := fun p _ => p = q.

Section Touched.
Context `{AssetHost}.

Lemma syscall_ok {A} call (k : asset A) d d' r :
  syscall call k d = (d', Ok r) -> k (tick d).1 = (d', Ok r) /\ dk_files (tick d).1 = dk_files d.
Proof. unfold syscall, tick. destruct (fault _); [done|]. by intros. Qed.

Lemma syscall_cases {A} call (k : asset A) d d' r :
  syscall call k d = (d', r) ->
  (k (tick d).1 = (d', r) \/ (d' = (tick d).1 /\ r = Err (ErrSys call))) /\ dk_files (tick d).1 = dk_files d.
Proof. unfold syscall, tick. destruct (fault _); intros Hs; [injection Hs as <- <-|]; cbn; auto. Qed.

Lemma quiet {A} call (k : asset A) d d' r :
  (forall e e' x, k e = (e', x) -> dk_files e' = dk_files e) -> syscall call k d = (d', r) -> dk_files d' = dk_files d.
Proof.
  intros Hk Hs. apply syscall_cases in Hs as [[Hs|[-> _]] Ht]; [|done]. rewrite <- Ht. by eapply Hk.
Qed.

Lemma ReadFile_spec path d d' r :
  ReadFile path d = (d', r) -> dk_files d' = dk_files d /\ forall c, r = Ok c -> dk_files d !! path = Some c.
Proof.
  intros Hs. apply syscall_cases in Hs as [[Hs|[-> ->]] Ht]; [|by split]. cbv beta in Hs. injection Hs as <- <-. rewrite <- Ht. split; [done|].
  intros c. destruct (dk_files _ !! path); [by intros [= ->]|done].
Qed.

Lemma Stat_spec path d d' r :
  Stat path d = (d', r) -> dk_files d' = dk_files d /\
    forall n, r = Ok n -> exists c, dk_files d !! path = Some c /\ n = Z.of_nat (String.length c).
Proof.
  intros Hs. apply syscall_cases in Hs as [[Hs|[-> ->]] Ht]; [|by split]. cbv beta in Hs. injection Hs as <- <-. rewrite <- Ht. split; [done|].
  intros n. destruct (dk_files _ !! path) as [c|]; [intros [= <-]; by exists c|done].
Qed.

Lemma Remove_spec path d d' r :
  Remove path d = (d', r) -> dk_files d' = dk_files d \/ dk_files d' = delete path (dk_files d).
Proof.
  intros Hs. apply syscall_cases in Hs as [[Hs|[-> _]] Ht]; [|by left].
  destruct (dk_files _ !! path) in Hs; injection Hs as <- <-; [by right|by left].
Qed.

Lemma Remove_changes (P : string -> option string -> Prop) path d : P path None -> changes P d (Remove path d).1.
Proof.
  intros HP. destruct (Remove path d) as [d' r] eqn:Hs. apply Remove_spec in Hs as [Hs|Hs];
    [by apply changes_refl|by eapply changes_delete].
Qed.

Lemma Rename_spec old new d d' r :
  Rename old new d = (d', r) ->
  (dk_files d' = dk_files d /\ r <> Ok ()) \/
  exists c, dk_files d !! old = Some c /\ dk_files d' = <[new := c]> (delete old (dk_files d)) /\ r = Ok ().
Proof.
  intros Hs. apply syscall_cases in Hs as [[Hs|[-> ->]] Ht]; [|left; by split].
  destruct (dk_files _ !! old) as [c|] eqn:Hc in Hs; injection Hs as <- <-; [right|by left].
  exists c. by repeat split.
Qed.

Lemma OpenAppend_spec path d d' r :
  OpenAppend path d = (d', r) ->
  (dk_files d' = dk_files d /\ r <> Ok ()) \/ dk_files d' = <[path := default "" (dk_files d !! path)]> (dk_files d).
Proof.
  intros Hs. apply syscall_cases in Hs as [[Hs|[-> ->]] Ht]; [|left; by split]. injection Hs as <- <-. by right.
Qed.

Lemma OpenTrunc_spec path d d' r :
  OpenTrunc path d = (d', r) -> (dk_files d' = dk_files d /\ r <> Ok ()) \/ dk_files d' = <[path := ""]> (dk_files d).
Proof.
  intros Hs. apply syscall_cases in Hs as [[Hs|[-> ->]] Ht]; [|left; by split]. injection Hs as <- <-. by right.
Qed.

Lemma substring_all s : String.substring 0 (String.length s) s = s.
Proof. induction s as [|c s IH]; [done|]. cbn. by rewrite IH. Qed.

Lemma substring_over k s : (String.length s <= k)%nat -> String.substring 0 k s = s.
Proof. revert k. induction s as [|c s IH]; intros [|k] Hk; try done; cbn in *; [lia|]. rewrite IH; [done|lia]. Qed.

(** A copy writes some prefix of its source at the end of the file. *)
Lemma copy_to_spec path s d d' n ok :
  copy_to path s d = (d', (n, ok)) ->
  exists k, n = Z.of_nat (String.length (String.substring 0 k s)) /\
    (dk_files d' = dk_files d /\ s = "" \/
     dk_files d' = <[path := default "" (dk_files d !! path) +:+ String.substring 0 k s]> (dk_files d)) /\
    (ok = true -> String.substring 0 k s = s) /\ dk_requests d' = dk_requests d.
Proof.
  unfold copy_to. destruct (String.eqb_spec s "") as [->|Hne].
  - intros [= <- <- <-]. exists 0%nat. cbn. auto.
  - unfold append_file, tick. destruct (fault _) as [k|]; intros [= <- <- <-]; cbn [dk_files set_files dk_requests].
    + exists k. split; [done|]. split; [by right|]. done.
    + exists (String.length s). rewrite substring_all. split; [done|]. split; [by right|]. done.
Qed.
End Touched.

(** ** The download *)

Lemma substring_nil n m : String.substring n m "" = "".
Proof. by destruct n, m. Qed.

Lemma substring_prefix k m b :
  String.substring 0 k (String.substring 0 m b) = String.substring 0 (String.length (String.substring 0 k (String.substring 0 m b))) b.
Proof.
  revert k m. induction b as [|c b IH]; intros k m; [by rewrite !substring_nil|].
  destruct m as [|m]; [by rewrite !substring_nil|]. destruct k as [|k]; [done|]. cbn. f_equal. apply IH.
Qed.

(** A piece of the text at an offset extends the prefix up to that offset. *)
Lemma substring_extend a k m b :
  String.substring 0 a b +:+ String.substring 0 k (String.substring a m b) =
  String.substring 0 (a + String.length (String.substring 0 k (String.substring a m b))) b.
Proof.
  revert b. induction a as [|a IH]; intros b; [by destruct b; cbn -[String.substring]; rewrite <- substring_prefix|].
  destruct b as [|c b]; [by rewrite !substring_nil|]. cbn [String.substring Nat.add]. rewrite sapp_cons. f_equal. apply IH.
Qed.

Lemma substring_length a b : String.length (String.substring 0 a b) = (a `min` String.length b)%nat.
Proof. revert a. induction b as [|c b IH]; intros [|a]; try done. cbn. by rewrite IH. Qed.

Section Loop.
Context `{AssetHost} (cred : option Credential) (url path : string).

Lemma downloadRange_spec off d d' n ok :
  downloadRange cred url path off d = (d', (n, ok)) ->
  exists s, n = Z.of_nat (String.length s) /\ dk_requests d' = S (dk_requests d) /\
    (s = "" /\ dk_files d' = dk_files d \/ dk_files d' = <[path := default "" (dk_files d !! path) +:+ s]> (dk_files d)) /\
    (s = "" \/ exists st body br k, Get (dk_requests d) cred url off = Response st body br /\
       (st = 206 \/ off = 0 /\ st = 200) /\ s = String.substring 0 k body).
Proof.
  unfold downloadRange, request. destruct (Get _ _ _ _) as [|st body br] eqn:Hg; [intros [= <- <- <-]; exists ""; auto 6|].
  destruct (_ || _) eqn:Hst; [|intros [= <- <- <-]; exists ""; auto 6].
  destruct (copy_to _ _ _) as [d2 [k ok2]] eqn:Hc. intros [= <- <- <-].
  apply copy_to_spec in Hc as (k' & -> & Hf & _ & Hr). cbn [dk_files dk_requests] in *.
  exists (String.substring 0 k' body). split; [done|]. split; [done|]. split.
  - destruct Hf as [[Hf ->]|Hf]; [left; by rewrite substring_nil|by right].
  - right. exists st, body, br, k'. split; [done|]. split; [|done]. lia.
Qed.

Lemma download_loop_ends size fuel : forall off stalls d,
  0 <= stalls <= maxStalls -> (Z.to_nat (7 * (size - off) - stalls) < fuel)%nat ->
  exists d' r, download_loop fuel cred url path off size stalls d = (d', Some r) /\
    (dk_requests d' <= dk_requests d + Z.to_nat (7 * (size - off) - stalls))%nat.
Proof.
  unfold maxStalls. induction fuel as [|fuel IH]; intros off stalls d Hs Hf; [lia|]. cbn [download_loop].
  destruct (Z.ltb_spec off size) as [Hlt|]; [|exists d, (Ok ()); split; [done|lia]].
  destruct (downloadRange _ _ _ _ _) as [d1 [n ok]] eqn:Hd. apply downloadRange_spec in Hd as (s & -> & Hr & _).
  set (n := Z.of_nat _). assert (0 <= n) by lia.
  destruct (Z.geb_spec (off + n) size); [exists d1, (Ok ()); split; [done|lia]|].
  set (st := if n >? 0 then 0 else stalls + 1). assert (Hst : (st = 0 /\ 0 < n) \/ (st = stalls + 1 /\ n = 0)).
  { unfold st. rewrite Z.gtb_ltb. destruct (Z.ltb_spec 0 n); lia. }
  unfold maxStalls. destruct (Z.gtb_spec st 6); [eexists d1, _; split; [done|lia]|].
  destruct (ctx_Done _); [eexists d1, _; split; [done|lia]|].
  destruct (IH (off + n) st d1) as (d' & r & -> & Hq); [lia|lia|]. exists d', r. split; [done|]. lia.
Qed.

Lemma download_loop_fuel size fuel fuel' : forall off stalls d d' r,
  (fuel <= fuel')%nat -> download_loop fuel cred url path off size stalls d = (d', Some r) ->
  download_loop fuel' cred url path off size stalls d = (d', Some r).
Proof.
  revert fuel'. induction fuel as [|fuel IH]; intros fuel' off stalls d d' r Hle; [done|]. destruct fuel' as [|fuel']; [lia|].
  cbn [download_loop]. destruct (off <? size); [|done]. destruct (downloadRange _ _ _ _ _) as [d1 [n ok]].
  destruct (_ >=? _); [done|]. destruct (_ >? maxStalls); [done|]. destruct (ctx_Done _); [done|]. apply IH. lia.
Qed.

(** C16: The download ends: with any fuel from [download_fuel] on the loop gives one
    answer, after at most seven requests per missing byte. *)
Theorem download_terminates off size d :
  exists d' r, download cred url path off size d = (d', r) /\
    (dk_requests d' <= dk_requests d + Z.to_nat (7 * (size - off)))%nat /\
    forall fuel, (download_fuel off size <= fuel)%nat -> download_loop fuel cred url path off size 0 d = (d', Some r).
Proof.
  destruct (download_loop_ends size (download_fuel off size) off 0 d) as (d' & r & Hl & Hq);
    [unfold maxStalls; lia|unfold download_fuel; lia|].
  exists d', r. split; [unfold download; by rewrite Hl|]. split; [by rewrite Z.sub_0_r in Hq|].
  intros fuel Hf. by eapply download_loop_fuel.
Qed.

Lemma download_loop_touches size fuel : forall off stalls d d' r,
  download_loop fuel cred url path off size stalls d = (d', r) -> changes (only path) d d'.
Proof.
  induction fuel as [|fuel IH]; intros off stalls d d' r; cbn [download_loop]; [intros [= <- <-]; by apply changes_refl|].
  destruct (off <? size); [|intros [= <- <-]; by apply changes_refl].
  destruct (downloadRange _ _ _ _ _) as [d1 [n ok]] eqn:Hd. apply downloadRange_spec in Hd as (s & _ & _ & Hf & _).
  assert (H1 : changes (only path) d d1) by (destruct Hf as [[_ Hf]|Hf]; [by apply changes_refl|by eapply changes_insert]).
  destruct (_ >=? _); [by intros [= <- <-]|]. destruct (_ >? maxStalls); [by intros [= <- <-]|].
  destruct (ctx_Done _); [by intros [= <- <-]|]. intros Hl. eapply changes_trans; [exact H1|by eapply IH].
Qed.

Lemma download_touches off size d d' r : download cred url path off size d = (d', r) -> changes (only path) d d'.
Proof.
  unfold download. destruct (download_loop _ _ _ _ _ _ _ _) as [d1 [x|]] eqn:Hl; intros [= <- <-]; by eapply download_loop_touches.
Qed.
End Loop.

(** ** Layers *)

(** A file holds a layer: the verified content under its title or, for a
    compressed one, its decoding under the stripped title, the compressed copy
    removed. *)
Definition image_of `{AssetHost} (digest dest p : string) (v : option string) : Prop :=
  exists c, Verified digest c = true /\
    (p = dest /\ v = Some c \/
     compressed dest = true /\
       (p = dest /\ v = None \/ p = raw_path dest /\ exists o, Zstd c = (o, true) /\ v = Some o)).

Definition is_part (p : string) : Prop := HasSuffix p ".part" = true.

Lemma part_of_is_part p : is_part (part_of p).
Proof. apply HasSuffix_spec. by exists p. Qed.

Section Layers.
Context `{AssetHost}.

Lemma or_else_spec {A B} (m : asset A) (c : asset B) d d' r :
  or_else m c d = (d', r) ->
  exists d1, m d = (d1, r) /\ match r with Ok _ => d' = d1 | Err _ => d' = (c d1).1 end.
Proof. unfold or_else. destruct (m d) as [d1 [a|e]]; intros [= <- <-]; by exists d1. Qed.

Lemma wrap_spec {A} what (m : asset A) d d' r :
  wrap what m d = (d', r) -> exists r', m d = (d', r') /\ forall a, r = Ok a <-> r' = Ok a.
Proof. unfold wrap. destruct (m d) as [d1 [a|e]]; intros [= <- <-]; [by exists (Ok a)|by exists (Err e)]. Qed.

Lemma bind_cases {A B} (m : asset A) (k : A -> asset B) d d' r :
  go_bind m k d = (d', r) ->
  (exists d1 a, m d = (d1, Ok a) /\ k a d1 = (d', r)) \/ (exists e, m d = (d', Err e) /\ r = Err e).
Proof. unfold go_bind. destruct (m d) as [d1 [a|e]]; [intros; left; eauto|intros [= <- <-]; right; eauto]. Qed.

(** What a computation may do to files, whatever its outcome. *)
Definition touches {A} (P : string -> option string -> Prop) (m : asset A) : Prop :=
  forall d d' r, m d = (d', r) -> changes P d d'.

Lemma touches_seq {A B} P (m : asset A) (k : A -> asset B) : touches P m -> (forall a, touches P (k a)) -> touches P (go_bind m k).
Proof.
  intros Hm Hk d d' r Hb. apply bind_cases in Hb as [(d1 & a & H1 & H2)|(e & H1 & _)]; [|by eapply Hm].
  eapply changes_trans; [by eapply Hm|by eapply Hk].
Qed.

Lemma touches_or_else {A B} P (m : asset A) (c : asset B) : touches P m -> touches P c -> touches P (or_else m c).
Proof.
  intros Hm Hc d d' r Ho. apply or_else_spec in Ho as (d1 & H1 & Hd). destruct r as [a|e]; [subst; by eapply Hm|].
  eapply changes_trans; [by eapply Hm|]. subst d'. destruct (c d1) as [d2 r2] eqn:H2. by eapply Hc.
Qed.

Lemma touches_wrap {A} P what (m : asset A) : touches P m -> touches P (wrap what m).
Proof. intros Hm d d' r Hw. apply wrap_spec in Hw as (r' & H1 & _). by eapply Hm. Qed.

Lemma touches_discard {A} P (m : asset A) : touches P m -> touches P (go_ignore m).
Proof. intros Hm d d' r [= <- <-]. destruct (m d) as [d1 r1] eqn:H1. by eapply Hm. Qed.

Lemma touches_done {A} P (a : A) : touches P (go_ret a).
Proof. intros d d' r [= <- <-]. by apply changes_refl. Qed.

Lemma touches_error {A} P e : touches (A := A) P (go_fail e).
Proof. intros d d' r [= <- <-]. by apply changes_refl. Qed.

Lemma touches_quiet {A} P call (a : A) : touches P (syscall call (go_ret a)).
Proof. intros d d' r Hs. apply changes_refl. eapply quiet; [|exact Hs]. by intros ??? [= <- _]. Qed.

Lemma touches_ReadFile P path : touches P (ReadFile path).
Proof. intros d d' r Hs. apply ReadFile_spec in Hs as [Hs _]. by apply changes_refl. Qed.

Lemma touches_Remove (P : string -> option string -> Prop) path : P path None -> touches P (Remove path).
Proof. intros HP d d' r Hs. replace d' with (Remove path d).1 by (by rewrite Hs). by apply Remove_changes. Qed.

Lemma touches_OpenAppend (P : string -> option string -> Prop) path : (forall v, P path v) -> touches P (OpenAppend path).
Proof.
  intros HP d d' r Hs. apply OpenAppend_spec in Hs as [[Hs _]|Hs]; [by apply changes_refl|]. eapply changes_insert; [exact Hs|done].
Qed.

Lemma touches_OpenTrunc (P : string -> option string -> Prop) path : (forall v, P path v) -> touches P (OpenTrunc path).
Proof.
  intros HP d d' r Hs. apply OpenTrunc_spec in Hs as [[Hs _]|Hs]; [by apply changes_refl|]. eapply changes_insert; [exact Hs|done].
Qed.

Lemma touches_download (P : string -> option string -> Prop) cred url path off size :
  (forall v, P path v) -> touches P (download cred url path off size).
Proof. intros HP d d' r Hd. eapply changes_weaken; [|by eapply download_touches]. by intros p v ->. Qed.

Lemma touches_decode (P : string -> option string -> Prop) path tmp c : (forall v, P tmp v) -> touches P (decode_into path tmp c).
Proof.
  intros HP d d' r. unfold decode_into. destruct (Zstd c) as [out whole]. destruct (copy_to _ _ _) as [d1 [n ok]] eqn:Hc.
  intros [= <- _]. apply copy_to_spec in Hc as (k & _ & [[Hf _]|Hf] & _); [by apply changes_refl|]. eapply changes_insert; [exact Hf|done].
Qed.

Lemma touches_verify P path want : touches P (verifyDigest path want).
Proof. apply touches_seq; [apply touches_ReadFile|]. intros c. destruct (Verified want c); [apply touches_done|apply touches_error]. Qed.

Lemma touches_resume (P : string -> option string -> Prop) part size : (forall v, P part v) -> touches P (resume_offset part size).
Proof.
  intros HP d d' r. unfold resume_offset. destruct (Stat part d) as [d1 [n|e]] eqn:Hs; apply Stat_spec in Hs as [Hs _];
    [|intros [= <- <-]; by apply changes_refl].
  destruct (n >? size); [|intros [= <- <-]; by apply changes_refl]. intros Hb.
  eapply changes_trans; [by apply changes_refl|].
  eapply (touches_seq P (go_ignore (Remove part)) (fun _ => go_ret 0)); [apply touches_discard, touches_Remove; done|intros []; apply touches_done|exact Hb].
Qed.

Lemma touches_room P dir need title : touches P (ensureRoom dir need title).
Proof.
  intros d d' r. unfold ensureRoom. destruct (freeBytes dir d) as [free|]; [destruct (_ <? _)|]; intros [= <- <-]; by apply changes_refl.
Qed.
End Layers.

#[export] Hint Resolve touches_seq touches_or_else touches_wrap touches_discard touches_done touches_error touches_quiet touches_ReadFile
  touches_Remove touches_OpenAppend touches_OpenTrunc touches_download touches_decode touches_verify touches_resume touches_room : assets.

Section Integrity.
Context `{AssetHost}.

(** The last steps of [fetchLayer]: only verified content reaches [dest]. *)
Lemma place_verified part dest want d d' r :
  (let* _ := or_else (wrap "verifying" (verifyDigest part want)) (Remove part) in Rename part dest) d = (d', r) ->
  changes (fun p v => p = part \/ p = dest /\ exists c, v = Some c /\ Verified want c = true) d d' /\
  (r = Ok () -> exists c, dk_files d' !! dest = Some c /\ Verified want c = true /\ dk_files d !! part = Some c).
Proof.
  intros Hb. apply bind_cases in Hb as [(d1 & [] & Hv & Hr)|(e & Hv & ->)].
  - apply or_else_spec in Hv as (d2 & Hv & ->). apply wrap_spec in Hv as (r' & Hv & Hr').
    assert (r' = Ok ()) as -> by (by apply Hr'). apply bind_cases in Hv as [(d3 & c & Hread & Hv)|(e & _ & He)]; [|done].
    apply ReadFile_spec in Hread as [Hf Hc]. specialize (Hc c eq_refl). destruct (Verified want c) eqn:HV; [|done].
    injection Hv as ->. apply Rename_spec in Hr as [[Hd Hr]|(c' & Hc' & Hd & Hr)].
    + split; [apply changes_refl; congruence|done].
    + rewrite Hf in Hc', Hd. assert (c' = c) as -> by congruence. split.
      * eapply changes_trans; [apply (changes_delete _ part d (set_files (delete part) d)); [done|by left]|].
        eapply changes_insert; [exact Hd|]. right. split; [done|]. by exists c.
      * intros _. exists c. by rewrite Hd, lookup_insert_eq.
  - split; [|done]. apply or_else_spec in Hv as (d2 & Hv & ->). apply wrap_spec in Hv as (r' & Hv & _).
    eapply changes_trans; [by eapply touches_verify|]. apply Remove_changes. by left.
Qed.

Lemma fetchLayer_spec cred ref layer dest d d' r :
  fetchLayer cred ref layer dest d = (d', r) ->
  changes (fun p v => is_part p \/ p = dest /\ exists c, v = Some c /\ Verified (ds_Digest layer) c = true) d d' /\
  (r = Ok () -> exists c, dk_files d' !! dest = Some c /\ Verified (ds_Digest layer) c = true).
Proof.
  pose proof (part_of_is_part dest) as Hp.
  assert (Hw : forall d d', changes (fun p v => p = part_of dest \/ p = dest /\ exists c, v = Some c /\ Verified (ds_Digest layer) c = true) d d' ->
    changes (fun p v => is_part p \/ p = dest /\ exists c, v = Some c /\ Verified (ds_Digest layer) c = true) d d').
  { intros e e'. apply changes_weaken. intros p v [->|]; auto. }
  unfold fetchLayer. intros Hb. split.
  - revert d d' r Hb. change (touches (fun p v => is_part p \/ p = dest /\ exists c, v = Some c /\ Verified (ds_Digest layer) c = true)
      (fetchLayer cred ref layer dest)). unfold fetchLayer.
    do 6 (apply touches_seq; [eauto with assets|intros ?]).
    intros d d' r Hb. apply place_verified in Hb as [Hb _]. by apply Hw.
  - intros ->. do 6 (apply bind_cases in Hb as [(? & ? & _ & Hb)|(? & _ & ?)]; [|done]).
    apply place_verified in Hb as [_ Hb]. destruct Hb as (c & ? & ? & _); [done|eauto].
Qed.

Lemma ext_from_suffix s acc :
  ext_from s acc = default "" acc \/ ext_from s acc = "" \/ exists q, s = q +:+ ext_from s acc.
Proof.
  revert acc. induction s as [|c s IH]; intros acc; cbn [ext_from]; [by left|].
  set (acc' := if Ascii.eqb c "/" then None else if Ascii.eqb c "." then Some (String c s) else acc).
  destruct (IH acc') as [He|[He|[q He]]]; [|auto|right; right; exists (String c q); rewrite sapp_cons; by f_equal].
  rewrite He. unfold acc'. destruct (Ascii.eqb c "/"); [auto|]. destruct (Ascii.eqb c "."); [|auto].
  right; right. by exists "".
Qed.

(** The decoded file is another one than the compressed. *)
Lemma raw_path_ne path : compressed path = true -> raw_path path <> path.
Proof.
  unfold compressed, raw_path. intros Hc. assert (Hne : Ext path <> "") by (intros He; by rewrite He in Hc).
  destruct (ext_from_suffix path None) as [He|[He|[q He]]]; [done|done|]. fold (Ext path) in He.
  rewrite He at 1. rewrite TrimSuffix_suffix. intros Hq. apply (f_equal String.length) in He. rewrite slength_app, Hq in He.
  destruct (Ext path); [done|]. cbn in He. lia.
Qed.

(** An open temporary file after a successful decoding holds all of it. *)
Lemma decode_into_spec path tmp c d d' :
  dk_files d !! tmp = Some "" -> decode_into path tmp c d = (d', Ok ()) ->
  exists o, Zstd c = (o, true) /\ dk_files d' !! tmp = Some o.
Proof.
  unfold decode_into. intros Ht. destruct (Zstd c) as [o whole]. destruct (copy_to _ _ _) as [d1 [n ok]] eqn:Hc.
  intros [= <- Hr]. destruct (ok && whole) eqn:Hb; [|done]. bools. subst. exists o. split; [done|].
  apply copy_to_spec in Hc as (k & _ & Hf & Hk & _). rewrite Hk in Hf by done. destruct Hf as [[Hf ->]|Hf].
  - by rewrite Hf.
  - by rewrite Hf, lookup_insert_eq, Ht.
Qed.

Lemma quiet_syscall {A} call (a : A) d d' r : syscall call (go_ret a) d = (d', r) -> dk_files d' = dk_files d.
Proof. intros Hs. eapply quiet; [|exact Hs]. by intros ??? [= <- _]. Qed.

(** What [decompressLayer] leaves, given the content it was handed. *)
Definition decoded_from (path c : string) : string -> option string -> Prop :=
  fun p v => is_part p \/ p = path /\ v = None \/ p = raw_path path /\ exists o, Zstd c = (o, true) /\ v = Some o.

Lemma place_decoded path c d d' r :
  compressed path = true -> dk_files d !! part_of (raw_path path) = Some "" ->
  (let* _ := or_else (decode_into path (part_of (raw_path path)) c) (let* _ := go_ignore CloseFile in Remove (part_of (raw_path path))) in
   let* _ := or_else Sync (let* _ := go_ignore CloseFile in Remove (part_of (raw_path path))) in
   let* _ := or_else CloseFile (Remove (part_of (raw_path path))) in
   let* _ := Rename (part_of (raw_path path)) (raw_path path) in
   go_ignore (Remove path)) d = (d', r) ->
  changes (decoded_from path c) d d' /\ (r = Ok () -> exists o, Zstd c = (o, true) /\ dk_files d' !! raw_path path = Some o).
Proof.
  intros Hcomp Ht. set (tmp := part_of (raw_path path)) in *. pose proof (part_of_is_part (raw_path path)) as Hp. fold tmp in Hp.
  assert (Htmp : forall v, decoded_from path c tmp v) by (intros v; by left).
  intros Hb. apply bind_cases in Hb as [(d1 & [] & Hd & Hb)|(e & Hd & ->)].
  2: { split; [|done]. assert (Htch : touches (decoded_from path c) (or_else (decode_into path tmp c) (let* _ := go_ignore CloseFile in Remove tmp)))
         by eauto 10 with assets. by eapply Htch. }
  apply or_else_spec in Hd as (d1' & Hd & <-). destruct (decode_into_spec _ _ _ _ _ Ht Hd) as (o & Ho & Hf1).
  assert (H1 : changes (decoded_from path c) d d1) by (by eapply touches_decode).
  apply bind_cases in Hb as [(d2 & [] & Hs & Hb)|(e & Hs & ->)].
  2: { split; [|done]. eapply changes_trans; [exact H1|].
       assert (Htch : touches (decoded_from path c) (or_else Sync (let* _ := go_ignore CloseFile in Remove tmp))) by eauto 10 with assets.
       by eapply Htch. }
  apply or_else_spec in Hs as (d2' & Hs & <-). apply quiet_syscall in Hs.
  assert (H2 : changes (decoded_from path c) d d2) by (eapply changes_trans; [exact H1|by apply changes_refl]).
  apply bind_cases in Hb as [(d3 & [] & Hc & Hb)|(e & Hc & ->)].
  2: { split; [|done]. eapply changes_trans; [exact H2|].
       assert (Htch : touches (decoded_from path c) (or_else CloseFile (Remove tmp))) by eauto 10 with assets. by eapply Htch. }
  apply or_else_spec in Hc as (d3' & Hc & <-). apply quiet_syscall in Hc.
  assert (H3 : changes (decoded_from path c) d d3) by (eapply changes_trans; [exact H2|by apply changes_refl]).
  apply bind_cases in Hb as [(d4 & [] & Hr & Hb)|(e & Hr & ->)]; apply Rename_spec in Hr as [[Hd4 Hr]|(o' & Ho' & Hd4 & Hr)]; try done.
  2: { split; [|done]. eapply changes_trans; [exact H3|by apply changes_refl]. }
  assert (o' = o) as -> by congruence. injection Hb as <- <-. split.
  - eapply changes_trans; [exact H3|]. eapply changes_trans.
    + apply (changes_delete _ tmp d3 (set_files (delete tmp) d3)); [done|by left].
    + eapply changes_trans; [eapply changes_insert; [exact Hd4|]; right; right; eauto|]. apply Remove_changes. right. left. done.
  - intros _. exists o. split; [done|]. destruct (Remove path d4) as [d5 r5] eqn:Hr5. cbn [fst].
    pose proof (raw_path_ne path Hcomp). apply Remove_spec in Hr5 as [->| ->]; rewrite Hd4.
    + by rewrite lookup_insert_eq.
    + rewrite lookup_delete_ne by done. by rewrite lookup_insert_eq.
Qed.

Lemma decompressLayer_spec path c d d' r :
  dk_files d !! path = Some c -> decompressLayer path d = (d', r) ->
  if compressed path then
    changes (decoded_from path c) d d' /\ (r = Ok () -> exists o, Zstd c = (o, true) /\ dk_files d' !! raw_path path = Some o)
  else d' = d /\ r = Ok ().
Proof.
  intros Hc. unfold decompressLayer. destruct (compressed path) eqn:Hcomp; [|by intros [= <- <-]]. cbn [negb].
  intros Hb. apply bind_cases in Hb as [(d1 & c1 & Hr & Hb)|(e & Hr & ->)]; apply ReadFile_spec in Hr as [Hf Hc1].
  2: split; [by apply changes_refl|done].
  assert (c1 = c) as -> by (specialize (Hc1 c1 eq_refl); congruence).
  apply bind_cases in Hb as [(d2 & [] & Ho & Hb)|(e & Ho & ->)]; apply OpenTrunc_spec in Ho as [[Hf2 Hne]|Hf2]; try done.
  - apply place_decoded in Hb as [Hch Hok]; [|done|by rewrite Hf2, lookup_insert_eq]. split; [|done].
    eapply changes_trans; [|exact Hch]. eapply changes_insert; [by rewrite Hf2, Hf|]. left. apply part_of_is_part.
  - split; [apply changes_refl; congruence|done].
  - split; [|done]. eapply changes_insert; [by rewrite Hf2, Hf|]. left. apply part_of_is_part.
Qed.

Lemma pull_layer_spec cred ref destDir layer d d' r :
  pull_layer cred ref destDir layer d = (d', r) ->
  let dest := path_Join [destDir; title_of layer] in
  changes (fun p v => is_part p \/ title_of layer <> "" /\ image_of (ds_Digest layer) dest p v) d d' /\
  (r = Ok () -> title_of layer <> "" -> exists c, Verified (ds_Digest layer) c = true /\
     if compressed dest then exists o, Zstd c = (o, true) /\ dk_files d' !! raw_path dest = Some o else dk_files d' !! dest = Some c).
Proof.
  unfold pull_layer. destruct (String.eqb_spec (title_of layer) "") as [He|Hne]; [intros [= <- <-]; split; [by apply changes_refl|done]|].
  set (dest := path_Join _). intros Hb.
  assert (Hw : forall e e', changes (fun p v => is_part p \/ p = dest /\ exists c, v = Some c /\ Verified (ds_Digest layer) c = true) e e' ->
    changes (fun p v => is_part p \/ title_of layer <> "" /\ image_of (ds_Digest layer) dest p v) e e').
  { intros e e'. apply changes_weaken. intros p v [Hp|[-> (c & -> & Hv)]]; [by left|right]. split; [done|]. exists c. auto. }
  apply bind_cases in Hb as [(d1 & [] & Hf & Hb)|(e & Hf & ->)]; apply fetchLayer_spec in Hf as [Hch Hok]; [|split; [by apply Hw|done]].
  destruct (Hok eq_refl) as (c & Hc & HV). apply wrap_spec in Hb as (r' & Hb & Hr').
  pose proof (decompressLayer_spec _ _ _ _ _ Hc Hb) as Hdec. destruct (compressed dest) eqn:Hcomp.
  - destruct Hdec as [Hch' Hok']. split.
    + eapply changes_trans; [by apply Hw|]. revert Hch'. apply changes_weaken.
      intros p v [Hp|Hp]; [by left|right]. split; [done|]. exists c. auto.
    + intros -> _. exists c. split; [done|]. apply Hok'. by apply Hr'.
  - destruct Hdec as [-> ->]. split; [by apply Hw|]. intros _ _. by exists c.
Qed.

(** Whatever fails and whatever the registry answers, every file of the cache is
    the one that was there, a partial file, the marker, or an image whose content
    was verified against a layer of the fetched manifest and decoded to its end. *)
Lemma orasPull_images ref destDir cred d d' r :
  orasPull ref destDir cred d = (d', r) ->
  forall p, dk_files d' !! p = dk_files d !! p \/ is_part p \/ p = marker_path destDir \/
    exists repo desc n n' bytes man layer,
      ParseReference ref = Some repo /\ Resolve n cred repo = Some desc /\ FetchManifest n' cred repo desc = Some bytes /\
      UnmarshalManifest bytes = Some man /\ layer ∈ mf_Layers man /\ title_of layer <> "" /\
      image_of (ds_Digest layer) (path_Join [destDir; title_of layer]) p (dk_files d' !! p).
Proof.
  unfold orasPull. destruct (ParseReference ref) as [repo|] eqn:Hrepo; [|intros [= <- <-]; auto].
  unfold request. destruct (Resolve _ _ _) as [desc|] eqn:Hres; [|intros [= <- <-]; auto].
  intros Hb. apply bind_cases in Hb as [(d1 & cached & Hup & Hb)|(e & Hup & ->)].
  2: { unfold up_to_date in Hup. by destruct (ReadFile _ _) as [? []]. }
  assert (Hd1 : dk_files d1 = dk_files d).
  { unfold up_to_date in Hup. destruct (ReadFile _ _) as [d2 [c|e]] eqn:Hr; apply ReadFile_spec in Hr as [Hr _]; by injection Hup as <- <-. }
  destruct cached; [injection Hb as <- <-; rewrite Hd1; auto|]. cbv beta in Hb.
  destruct (FetchManifest _ _ _ _) as [bytes|] eqn:Hfm; [|injection Hb as <- <-; cbn; rewrite Hd1; auto].
  destruct (UnmarshalManifest bytes) as [man|] eqn:Hum; [|injection Hb as <- <-; cbn; rewrite Hd1; auto].
  set (P := fun p v => is_part p \/ p = marker_path destDir \/ exists layer, layer ∈ mf_Layers man /\ title_of layer <> "" /\
    image_of (ds_Digest layer) (path_Join [destDir; title_of layer]) p v).
  assert (Hch : changes P d d').
  { eapply (changes_trans _ _ (MkDisk (dk_files d1) (dk_calls d1) (S (dk_requests d1)))); [by apply changes_refl|].
    revert Hb. apply touches_seq.
    - assert (Hl : forall l, (forall x, x ∈ l -> x ∈ mf_Layers man) -> touches P (for_each l (pull_layer cred repo destDir))).
      { induction l as [|x l IH]; intros Hsub; [apply touches_done|]. apply touches_seq; [|intros _; apply IH; set_solver].
        intros e e' x' Hx. apply pull_layer_spec in Hx as [Hx _]. revert Hx. apply changes_weaken.
        intros p v [|[Ht Hi]]; [by left|]. right; right. exists x. split; [apply Hsub; set_solver|done]. }
      apply Hl. done.
    - intros _. apply touches_discard. apply touches_seq; [apply touches_OpenTrunc; intros; right; by left|]. intros _ e e' x.
      destruct (append_file _ _ _) as [e2 [n ok]] eqn:Ha. intros [= <- _].
      unfold append_file, tick in Ha. destruct (fault _); injection Ha as <- _ _;
        (eapply changes_insert; [reflexivity|right; by left]). }
  intros p. destruct (Hch p) as [|[|[|(layer & Hin & Ht & Hi)]]]; auto 6.
  right; right; right. eauto 20.
Qed.
End Integrity.

(** ** Interrupted downloads *)

(** A server that sends pieces of the blob where they were asked for; it may cut
    an answer anywhere, fail, or answer with another status. *)
Definition honest (h : AssetHost) (cred : option Credential) (url blob : string) : Prop :=
  forall n off st body br, 0 <= off < Z.of_nat (String.length blob) -> Get n cred url off = Response st body br ->
    (st = 206 \/ off = 0 /\ st = 200) -> exists m, body = String.substring (Z.to_nat off) m blob.

(** A run on which nothing fails: system calls succeed, the cache has room, and
    every answer carries at least a byte. *)
Record reliable (h : AssetHost) (cred : option Credential) (url blob dir : string) : Prop := MkReliable {
  rel_calls n : fault n = None;
  rel_ctx n : ctx_Done n = false;
  rel_room d free : freeBytes dir d = Some free -> Z.of_nat (String.length blob) <= free;
  rel_get n off : 0 <= off < Z.of_nat (String.length blob) ->
    exists st body br, Get n cred url off = Response st body br /\ (st = 206 \/ off = 0 /\ st = 200) /\ body <> "";
}.

(** The partial file, if any, is a prefix of the blob. *)
Definition resumable (part blob : string) (d : Disk) : Prop :=
  forall c, dk_files d !! part = Some c -> exists k, c = String.substring 0 k blob.

Section Resume.
Context {h : AssetHost} (cred : option Credential) (url path blob : string).
Abbreviation size := (Z.of_nat (String.length blob)).

(** One request extends the prefix on the disk. *)
Lemma downloadRange_extends off d d' n ok :
  honest h cred url blob -> 0 <= off < size ->
  dk_files d !! path = Some (String.substring 0 (Z.to_nat off) blob) ->
  downloadRange cred url path off d = (d', (n, ok)) ->
  0 <= n /\ off + n <= size /\ dk_files d' !! path = Some (String.substring 0 (Z.to_nat (off + n)) blob).
Proof.
  intros Hh Hoff Hf Hd. apply downloadRange_spec in Hd as (s & -> & _ & Hf' & Hs).
  destruct Hs as [->|(st & body & br & k & Hg & Hst & ->)].
  - split; [done|]. cbn [String.length]. rewrite Z.add_0_r. split; [lia|].
    destruct Hf' as [[_ ->]| ->]; [done|]. by rewrite lookup_insert_eq, Hf, sapp_nil_r.
  - destruct (Hh _ _ _ _ _ Hoff Hg Hst) as [m ->]. split; [lia|].
    set (s := String.substring 0 k _) in *.
    assert (Hx : String.substring 0 (Z.to_nat off) blob +:+ s = String.substring 0 (Z.to_nat off + String.length s) blob) by apply substring_extend.
    assert (Hl : (Z.to_nat off + String.length s <= String.length blob)%nat).
    { apply (f_equal String.length) in Hx. rewrite slength_app, !substring_length in Hx. lia. }
    split; [lia|]. replace (Z.to_nat (off + _)) with (Z.to_nat off + String.length s)%nat by lia.
    destruct Hf' as [[Hs ->]| ->]; [|rewrite lookup_insert_eq, Hf; exact (f_equal Some Hx)].
    rewrite Hf, <- Hx, Hs. by rewrite sapp_nil_r.
Qed.

Lemma download_loop_extends fuel : forall off stalls d d' r,
  honest h cred url blob -> 0 <= off <= size ->
  dk_files d !! path = Some (String.substring 0 (Z.to_nat off) blob) ->
  download_loop fuel cred url path off size stalls d = (d', r) ->
  exists off', off <= off' <= size /\ dk_files d' !! path = Some (String.substring 0 (Z.to_nat off') blob) /\
    (r = Some (Ok ()) -> off' = size).
Proof.
  induction fuel as [|fuel IH]; intros off stalls d d' r Hh Hoff Hf; cbn [download_loop]; [intros [= <- <-]; exists off; split; [lia|done]|].
  destruct (Z.ltb_spec off size); [|intros [= <- <-]; exists off; split; [lia|]; split; [done|lia]].
  destruct (downloadRange _ _ _ _ _) as [d1 [n ok]] eqn:Hd.
  apply downloadRange_extends in Hd as (Hn & Hle & Hf1); [|done|lia|done].
  rewrite Z.geb_leb. destruct (Z.leb_spec size (off + n)); [intros [= <- <-]; exists (off + n); split; [lia|]; split; [done|lia]|].
  assert (Hstop : forall e : assetError, exists off', off <= off' <= size /\ dk_files d1 !! path = Some (String.substring 0 (Z.to_nat off') blob) /\
    (Some (Err (A := ()) e) = Some (Ok ()) -> off' = size)) by (intros e; exists (off + n); split; [lia|done]).
  destruct (_ >? maxStalls); [intros [= <- <-]; apply Hstop|]. destruct (ctx_Done _); [intros [= <- <-]; apply Hstop|].
  intros Hl. apply IH in Hl as (off' & ? & ? & ?); [|done|lia|done]. exists off'. split; [lia|done].
Qed.

(** Where the file system has [0 <= off <= size], [download] ends in a longer prefix. *)
Lemma download_extends off d d' r :
  honest h cred url blob -> 0 <= off <= size ->
  dk_files d !! path = Some (String.substring 0 (Z.to_nat off) blob) ->
  download cred url path off size d = (d', r) ->
  exists off', off <= off' <= size /\ dk_files d' !! path = Some (String.substring 0 (Z.to_nat off') blob) /\
    (r = Ok () -> off' = size).
Proof.
  intros Hh Hoff Hf. unfold download. destruct (download_loop _ _ _ _ _ _ _ _) as [d1 r1] eqn:Hl.
  apply download_loop_extends in Hl as (off' & Hb & Hf' & Hok); [|done..].
  destruct r1 as [r1|]; intros [= <- <-]; exists off'; (split; [done|]; split; [done|]); [intros ->; by apply Hok|done].
Qed.

Lemma download_loop_succeeds dir fuel : forall off d d' r,
  reliable h cred url blob dir -> 0 <= off ->
  download_loop fuel cred url path off size 0 d = (d', Some r) -> r = Ok ().
Proof.
  induction fuel as [|fuel IH]; intros off d d' r Hr Hoff; cbn [download_loop]; [done|].
  destruct (Z.ltb_spec off size); [|by intros [= <- <-]].
  destruct (downloadRange _ _ _ _ _) as [d1 [n ok]] eqn:Hd.
  assert (Hn : 0 < n).
  { destruct (rel_get _ _ _ _ _ Hr (dk_requests d) off) as (st & body & br & Hg & Hst & Hne); [lia|].
    unfold downloadRange, request in Hd. rewrite Hg in Hd. destruct (_ || _) eqn:Hb; [|lia].
    destruct (copy_to _ _ _) as [d2 [k ok2]] eqn:Hc. injection Hd as <- <- <-.
    unfold copy_to in Hc. destruct (String.eqb_spec body ""); [done|]. unfold append_file, tick in Hc.
    rewrite (rel_calls _ _ _ _ _ Hr) in Hc. injection Hc as _ <- _. destruct body; [done|]. cbn. lia. }
  destruct (_ >=? _); [by intros [= <- <-]|]. replace (n >? 0) with true by lia. cbn.
  rewrite (rel_ctx _ _ _ _ _ Hr). intros Hl. eapply IH; [done| |exact Hl]. lia.
Qed.

Lemma download_succeeds dir off d :
  reliable h cred url blob dir -> 0 <= off -> exists d', download cred url path off size d = (d', Ok ()).
Proof.
  intros Hr Hoff. destruct (download_loop_ends cred url path size (download_fuel off size) off 0 d) as (d' & r & Hl & _);
    [unfold maxStalls; lia|unfold download_fuel; lia|].
  unfold download. rewrite Hl. apply (download_loop_succeeds dir) in Hl; [|done..]. subst r. by exists d'.
Qed.

Lemma syscall_reliable {A} dir call (k : asset A) d :
  reliable h cred url blob dir -> syscall call k d = k (tick d).1 /\ dk_files (tick d).1 = dk_files d.
Proof. intros Hr. unfold syscall, tick. by rewrite (rel_calls _ _ _ _ _ Hr). Qed.

End Resume.

(** Verification on a run without failures: the partial file is gone either way. *)
Lemma place_reliable (h : AssetHost) part dest want c d :
  (forall n, fault n = None) -> part <> dest -> dk_files d !! part = Some c ->
  exists d', (let* _ := or_else (wrap "verifying" (verifyDigest part want)) (Remove part) in Rename part dest) d =
      (d', if Verified want c then Ok () else Err (ErrWrap "verifying" (ErrDigest want))) /\
    dk_files d' !! part = None /\ (Verified want c = true -> dk_files d' !! dest = Some c).
Proof.
  intros Hr Hne Hc. unfold go_bind at 1, or_else, wrap, verifyDigest, ReadFile, Remove, Rename. unfold go_bind.
  unfold syscall. unfold tick. rewrite !Hr. cbn [dk_files dk_calls]. rewrite Hc.
  destruct (Verified want c).
  - unfold go_ret. cbn [dk_files dk_calls]. rewrite Hr, Hc. eexists. split; [reflexivity|].
    cbn [dk_files set_files]. by rewrite lookup_insert_ne, lookup_delete_eq, lookup_insert_eq.
  - unfold go_fail. cbn [dk_files dk_calls]. rewrite Hr, Hc. eexists. split; [reflexivity|].
    cbn [dk_files set_files fst]. by rewrite lookup_delete_eq.
Qed.
Lemma part_of_ne p : part_of p <> p.
Proof. unfold part_of. intros He. apply (f_equal String.length) in He. rewrite slength_app in He. cbn in He. lia. Qed.

Section Fetch.
Context (cred : option Credential) (ref : Reference) (layer : Descriptor) (dest blob : string).
Hypothesis Hsize : ds_Size layer = Z.of_nat (String.length blob).
Hypothesis Hfits : ds_Size layer < 2 ^ 63.
Abbreviation url := (blobURL false ref layer).
Abbreviation part := (part_of dest).

(** The offset to resume from is the length of what is on the disk, when the
    calls that find it succeed. *)
Lemma resume_offset_spec (h : AssetHost) d :
  (forall n, fault n = None) ->
  exists d' off, resume_offset part (ds_Size layer) d = (d', Ok off) /\ 0 <= off <= ds_Size layer /\
    off = Z.of_nat (String.length (default "" (dk_files d' !! part))) /\
    (resumable part blob d -> dk_files d' = dk_files d).
Proof.
  intros Hno. unfold resume_offset, Stat, syscall, tick. rewrite Hno. cbn [dk_files].
  destruct (dk_files d !! part) as [c|] eqn:Hc; [|eexists _, 0; split; [reflexivity|]; split; [lia|]; cbn [dk_files]; by rewrite Hc].
  rewrite Z.gtb_ltb. destruct (Z.ltb_spec (ds_Size layer) (Z.of_nat (String.length c))).
  - unfold go_bind, go_ignore, Remove, syscall, tick. rewrite Hno. cbn [dk_files]. rewrite Hc. eexists _, 0. split; [reflexivity|].
    split; [lia|]. cbn [dk_files set_files fst]. rewrite lookup_delete_eq. split; [done|].
    intros Hr. destruct (Hr c Hc) as [k Hk]. apply (f_equal String.length) in Hk. rewrite substring_length in Hk. lia.
  - eexists _, _. split; [reflexivity|]. split; [lia|]. cbn [dk_files]. by rewrite Hc.
Qed.

Lemma download_keeps_file (h : AssetHost) path off size d d' r :
  is_Some (dk_files d !! path) -> download cred url path off size d = (d', r) -> is_Some (dk_files d' !! path).
Proof.
  assert (Hl : forall fuel off stalls d d' r, is_Some (dk_files d !! path) ->
    download_loop fuel cred url path off size stalls d = (d', r) -> is_Some (dk_files d' !! path)).
  { induction fuel as [|fuel IH]; intros o st e e' x Hs; cbn [download_loop]; [by intros [= <- <-]|].
    destruct (_ <? _); [|by intros [= <- <-]]. destruct (downloadRange _ _ _ _ _) as [d1 [n ok]] eqn:Hd.
    apply downloadRange_spec in Hd as (s & _ & _ & Hf & _).
    assert (Hs1 : is_Some (dk_files d1 !! path)) by (destruct Hf as [[_ ->]| ->]; [done|rewrite lookup_insert_eq; eauto]).
    destruct (_ >=? _); [by intros [= <- <-]|]. destruct (_ >? maxStalls); [by intros [= <- <-]|].
    destruct (ctx_Done _); [by intros [= <- <-]|]. by apply IH. }
  intros Hs. unfold download. destruct (download_loop _ _ _ _ _ _ _ _) as [d1 [x|]] eqn:Hd; intros [= <- <-]; by eapply Hl.
Qed.

(** The calls up to the download, on a host whose calls do not fail. *)
Lemma fetch_opens (h : AssetHost) d :
  (forall n, fault n = None) ->
  (forall d free, freeBytes (Dir dest) d = Some free -> ds_Size layer <= free) ->
  exists d1 off, 0 <= off <= ds_Size layer /\ is_Some (dk_files d1 !! part) /\
    (resumable part blob d -> dk_files d1 !! part = Some (String.substring 0 (Z.to_nat off) blob) /\
       off = Z.of_nat (String.length (default "" (dk_files d !! part)))) /\
    fetchLayer cred ref layer dest d =
      (let* _ := or_else (wrap "downloading" (download cred url part off (ds_Size layer))) CloseFile in
       let* _ := or_else Sync CloseFile in
       let* _ := CloseFile in
       let* _ := or_else (wrap "verifying" (verifyDigest part (ds_Digest layer))) (Remove part) in
       Rename part dest) d1.
Proof.
  intros Hno Hroom. destruct (resume_offset_spec h d Hno) as (d0 & off & Hres & Hoff & Hlen & Hr).
  destruct (ensureRoom (Dir dest) (ds_Size layer - off) (title_of layer) d0) as [d0' r0] eqn:He.
  assert (d0' = d0 /\ r0 = Ok ()) as [-> ->].
  { unfold ensureRoom in He. destruct (freeBytes _ _) as [free|] eqn:Hf; [|by injection He]. apply Hroom in Hf.
    rewrite Z.mod_small in He by lia. destruct (Z.ltb_spec free (ds_Size layer - off)); [lia|by injection He]. }
  destruct (OpenAppend part d0) as [d1 r1] eqn:Ho.
  assert (r1 = Ok ()) as -> by (unfold OpenAppend, syscall, tick in Ho; rewrite Hno in Ho; by injection Ho).
  assert (Hf1 := Ho). apply OpenAppend_spec in Hf1 as [[_ Hf1]|Hf1]; [done|].
  exists d1, off. split; [done|]. rewrite Hf1, lookup_insert_eq. split; [eauto|]. split.
  - intros Hd. rewrite (Hr Hd) in *. split; [|done]. f_equal. rewrite Hlen, Nat2Z.id.
    destruct (dk_files d !! part) as [c|] eqn:Hc; [|by destruct blob].
    change (default "" (Some c)) with c. destruct (Hd c Hc) as [k Hk]. rewrite Hk. rewrite substring_length.
    destruct (Nat.min_spec k (String.length blob)) as [[? ->]|[? ->]]; [done|].
    rewrite substring_all. by apply substring_over.
  - unfold fetchLayer. unfold go_bind at 1. rewrite Hres. unfold go_bind at 1. rewrite He. unfold go_bind at 1. by rewrite Ho.
Qed.

Lemma quiet_succeeds (h : AssetHost) {A} call (a : A) d :
  (forall n, fault n = None) -> exists d', syscall call (go_ret a) d = (d', Ok a) /\ dk_files d' = dk_files d.
Proof. intros Hno. unfold syscall, tick. rewrite Hno. by eexists. Qed.

(** After a successful download, on a host whose calls do not fail. *)
Lemma fetch_closes (h : AssetHost) c d :
  (forall n, fault n = None) -> dk_files d !! part = Some c ->
  exists d1, dk_files d1 = dk_files d /\
    (let* _ := or_else Sync CloseFile in
     let* _ := CloseFile in
     let* _ := or_else (wrap "verifying" (verifyDigest part (ds_Digest layer))) (Remove part) in
     Rename part dest) d =
    (let* _ := or_else (wrap "verifying" (verifyDigest part (ds_Digest layer))) (Remove part) in Rename part dest) d1.
Proof.
  intros Hno Hc. destruct (quiet_succeeds h "fsync" () d Hno) as (d1 & H1 & Hf1). destruct (quiet_succeeds h "close" () d1 Hno) as (d2 & H2 & Hf2).
  exists d2. split; [congruence|]. unfold or_else at 1, Sync, CloseFile. unfold go_bind at 1. rewrite H1. unfold go_bind at 1. by rewrite H2.
Qed.

Lemma fetch_reliable (h : AssetHost) d :
  reliable h cred url blob (Dir dest) -> honest h cred url blob -> Verified (ds_Digest layer) blob = true ->
  exists d' r, fetchLayer cred ref layer dest d = (d', r) /\ dk_files d' !! part = None /\
    (resumable part blob d -> r = Ok () /\ dk_files d' !! dest = Some blob).
Proof.
  intros Hr Hh HV. pose proof (rel_calls _ _ _ _ _ Hr) as Hno.
  destruct (fetch_opens h d Hno) as (d1 & off & Hoff & Hsome & Hpre & ->); [intros e free He; rewrite Hsize; by eapply rel_room|].
  destruct (download_succeeds cred url part blob (Dir dest) off d1 Hr) as [d2 Hd]; [lia|].
  unfold go_bind at 1, or_else at 1, wrap at 1. rewrite Hsize, Hd.
  destruct (download_keeps_file h _ _ _ _ _ _ Hsome Hd) as [c Hc].
  destruct (fetch_closes h c d2 Hno Hc) as (d3 & Hf3 & ->).
  destruct (place_reliable h part dest (ds_Digest layer) c d3 Hno (part_of_ne dest)) as (d' & -> & Hn & Hp);
    [by rewrite Hf3|]. eexists _, _. split; [reflexivity|]. split; [done|]. intros Hres.
  destruct (download_extends cred url part blob off d1 d2 (Ok ()) Hh) as (off' & _ & Hc' & Hok); [lia|by apply Hpre|done|].
  rewrite (Hok eq_refl), Nat2Z.id, substring_all in Hc'. assert (c = blob) as -> by congruence. rewrite HV. auto.
Qed.

(** A run on which only the network and the context may fail. *)
Record networked (h : AssetHost) : Prop := MkNetworked {
  net_calls n : fault n = None;
  net_room d free : freeBytes (Dir dest) d = Some free -> ds_Size layer <= free;
  net_honest : honest h cred url blob;
  net_digest : Verified (ds_Digest layer) blob = true;
}.

(** Such a run keeps what is on the disk: it leaves a longer prefix or the whole file. *)
Lemma fetch_interrupted (h : AssetHost) d d' r :
  networked h -> resumable part blob d -> fetchLayer cred ref layer dest d = (d', r) ->
  if is_ok r then dk_files d' !! part = None /\ dk_files d' !! dest = Some blob
  else exists k, dk_files d' !! part = Some (String.substring 0 k blob) /\
    (String.length (default "" (dk_files d !! part)) <= k <= String.length blob)%nat.
Proof.
  intros [Hno Hroom Hh HV] Hd. destruct (fetch_opens h d Hno Hroom) as (d1 & off & Hoff & Hsome & Hpre & ->).
  destruct (Hpre Hd) as [Hf1 Ho]. unfold go_bind at 1, or_else at 1, wrap at 1.
  destruct (download cred url part off (ds_Size layer) d1) as [d2 r2] eqn:Hdl. rewrite Hsize in Hdl.
  destruct (download_extends cred url part blob off d1 d2 r2 Hh) as (off' & Hb & Hf2 & Hok); [lia|done|done|]. destruct r2 as [[]|e].
  - rewrite (Hok eq_refl), Nat2Z.id, substring_all in Hf2. destruct (fetch_closes h blob d2 Hno Hf2) as (d3 & Hf3 & ->).
    intros Hp. destruct (place_reliable h part dest (ds_Digest layer) blob d3 Hno (part_of_ne dest)) as (d4 & Hp4 & Hn & Hdest); [by rewrite Hf3|].
    rewrite Hp4, HV in Hp. injection Hp as <- <-. cbn [is_ok]. auto.
  - destruct (quiet_succeeds h "close" () d2 Hno) as (d3 & H3 & Hf3). unfold CloseFile. rewrite H3. intros [= <- <-].
    cbn [is_ok]. exists (Z.to_nat off'). rewrite Hf3. split; [done|]. lia.
Qed.

(** The runs of several hosts one after the other. *)
Definition fetch_runs (hs : list AssetHost) (d : Disk) : Disk :=
  fold_left (fun d h => (fetchLayer (H := h) cred ref layer dest d).1) hs d.

Lemma fetch_runs_resumable hs d : Forall networked hs -> resumable part blob d -> resumable part blob (fetch_runs hs d).
Proof.
  unfold fetch_runs. intros Hhs. revert d. induction Hhs as [|h hs Hh Hhs IH]; intros d Hd; [done|]. cbn [fold_left]. apply IH.
  destruct (fetchLayer _ _ _ _ d) as [d' r] eqn:Hf. pose proof (fetch_interrupted h d d' r Hh Hd Hf) as Hi. cbn [fst].
  destruct (is_ok r); [destruct Hi as [Hn _]; intros c; by rewrite Hn|]. destruct Hi as (k & Hk & _). intros c. rewrite Hk. intros [= <-]. eauto.
Qed.

Lemma substring_is_prefix s k : HasPrefix s (String.substring 0 k s) = true.
Proof. revert k. induction s as [|c s IH]; intros [|k]; try done. cbn. by rewrite Ascii.eqb_refl, IH. Qed.

Lemma substring_prefixes s j k : (j <= k)%nat -> HasPrefix (String.substring 0 k s) (String.substring 0 j s) = true.
Proof.
  revert j k. induction s as [|c s IH]; intros [|j] [|k] Hle; try done; try lia. cbn. rewrite Ascii.eqb_refl. apply IH. lia.
Qed.

Lemma fetch_runs_keep hs d : Forall networked hs -> resumable part blob d -> forall pre hi post, hs = pre ++ hi :: post ->
  let found := default "" (dk_files (fetch_runs pre d) !! part) in
  let '(d1, r) := fetchLayer (H := hi) cred ref layer dest (fetch_runs pre d) in
  if is_ok r then dk_files d1 !! dest = Some blob /\ dk_files d1 !! part = None
  else exists kept, dk_files d1 !! part = Some kept /\ HasPrefix kept found = true /\ HasPrefix blob kept = true.
Proof.
  intros Hhs Hd pre hi post ->. apply Forall_app in Hhs as [Hpre [Hhi _]%Forall_cons]. cbv zeta.
  pose proof (fetch_runs_resumable pre d Hpre Hd) as Hd'.
  destruct (fetchLayer _ _ _ _ (fetch_runs pre d)) as [d1 r] eqn:Hf.
  pose proof (fetch_interrupted hi _ _ _ Hhi Hd' Hf) as Hi. destruct (is_ok r); [tauto|].
  destruct Hi as (k & Hk & Hle). eexists. split; [exact Hk|]. split; [|apply substring_is_prefix].
  destruct (dk_files (fetch_runs pre d) !! part) as [c|] eqn:Hc; [|by destruct (String.substring _ _ _)].
  destruct (Hd' c Hc) as [j Hj]. change (default "" (Some c)) with c in *. subst c. rewrite substring_length in Hle.
  destruct (Nat.min_spec j (String.length blob)) as [[Hlt Hm]|[Hge Hm]]; rewrite Hm in Hle.
  - apply substring_prefixes. lia.
  - rewrite (substring_over j blob) by lia. assert (k = String.length blob) as -> by lia. rewrite substring_all.
    apply HasPrefix_spec. exists "". by rewrite sapp_nil_r.
Qed.

(** C15: After any number of runs interrupted by the network or the context (no file
    operation fails, the disk has room, the server's ranges are those of the
    layer, and the layer has the digest that was asked for), from a cache without
    a partial file or with a prefix of the layer, a run on which nothing fails puts
    the layer in place.  Each of the runs before either put it in place itself, or
    left a prefix of the layer that begins with the bytes it found. *)
Theorem interrupted_fetch_resumes (hs : list AssetHost) (h : AssetHost) d :
  Forall networked hs -> resumable part blob d ->
  reliable h cred url blob (Dir dest) -> honest h cred url blob -> Verified (ds_Digest layer) blob = true ->
  (exists d', fetchLayer cred ref layer dest (fetch_runs hs d) = (d', Ok ()) /\ dk_files d' !! dest = Some blob /\ dk_files d' !! part = None) /\
  (forall pre hi post, hs = pre ++ hi :: post ->
     let found := default "" (dk_files (fetch_runs pre d) !! part) in
     let '(d1, r) := fetchLayer (H := hi) cred ref layer dest (fetch_runs pre d) in
     if is_ok r then dk_files d1 !! dest = Some blob /\ dk_files d1 !! part = None
     else exists kept, dk_files d1 !! part = Some kept /\ HasPrefix kept found = true /\ HasPrefix blob kept = true).
Proof.
  intros Hhs Hd Hr Hh HV. split; [|by apply fetch_runs_keep]. destruct (fetch_reliable h (fetch_runs hs d) Hr Hh HV) as (d' & r & Hf & Hn & Hok).
  destruct Hok as [-> Hdest]; [by apply fetch_runs_resumable|]. eauto.
Qed.

(** From any cache at all, a partial file of other content included, the second of
    two runs on which nothing fails puts the layer in place. *)
Lemma fetch_recovers (h : AssetHost) d :
  reliable h cred url blob (Dir dest) -> honest h cred url blob -> Verified (ds_Digest layer) blob = true ->
  exists d1 r d2, fetchLayer cred ref layer dest d = (d1, r) /\
    fetchLayer cred ref layer dest d1 = (d2, Ok ()) /\ dk_files d2 !! dest = Some blob.
Proof.
  intros Hr Hh HV. destruct (fetch_reliable h d Hr Hh HV) as (d1 & r & Hf & Hn & _).
  destruct (fetch_reliable h d1 Hr Hh HV) as (d2 & r2 & Hf2 & _ & Hok).
  destruct Hok as [-> Hdest]; [intros c; by rewrite Hn|]. eauto 10.
Qed.
End Fetch.

(** ** The resolver *)

Section Resolving.
Context `{AssetHost}.

(** C14: Whatever fails and whatever the registry answers, after resolving an image
    every file of the cache is the one that was there, a partial file, the marker,
    or an image whose content was verified against a layer of the manifest the
    registry named and decoded to its end; a path is returned only for a file that
    is there. *)
Theorem resolved_images_are_verified cacheDir auths a d d' res :
  let r := newAssetResolver cacheDir auths in
  let dest := path_Join [cacheDir; fa_repo a] in
  resolve r a d = (d', res) ->
  (forall path, res = Ok path -> path = path_Join [dest; fa_file a] /\ is_Some (dk_files d' !! path)) /\
  forall p, dk_files d' !! p = dk_files d !! p \/ is_part p \/ p = marker_path dest \/
     exists repo desc n n' bytes man layer,
       ParseReference (asset_ref r a) = Some repo /\ Resolve n (ar_cred r) repo = Some desc /\
       FetchManifest n' (ar_cred r) repo desc = Some bytes /\ UnmarshalManifest bytes = Some man /\
       layer ∈ mf_Layers man /\ title_of layer <> "" /\
       image_of (ds_Digest layer) (path_Join [dest; title_of layer]) p (dk_files d' !! p).
Proof.
  intros r dest Hb. apply bind_cases in Hb as [(d1 & [] & Hm & Hb)|(e & Hm & ->)]; apply quiet_syscall in Hm; [|split; [done|rewrite Hm; auto]].
  apply bind_cases in Hb as [(d2 & [] & Hp & Hb)|(e & Hp & ->)]; apply wrap_spec in Hp as (r' & Hp & _);
    pose proof (orasPull_images _ _ _ _ _ _ Hp) as Himg; rewrite Hm in Himg; [|done].
  cbv beta zeta in Hb. destruct (Stat _ d2) as [d3 [n|e]] eqn:Hs; injection Hb as <- <-; apply Stat_spec in Hs as [Hf Hn]; rewrite Hf.
  - split; [|done]. intros path [= <-]. destruct (Hn n eq_refl) as (c & Hc & _). split; [done|]. eauto.
  - by split.
Qed.

(** With a marker naming the current manifest and the image gone, resolving it
    fails and changes nothing: the cache is not repaired. *)
Lemma missing_image_not_repaired cacheDir auths a repo desc mark d :
  let r := newAssetResolver cacheDir auths in
  let dest := path_Join [cacheDir; fa_repo a] in
  (forall n, fault n = None) -> ParseReference (asset_ref r a) = Some repo -> (forall n, Resolve n (ar_cred r) repo = Some desc) ->
  dk_files d !! marker_path dest = Some mark -> TrimSpace mark = ds_Digest desc -> dk_files d !! path_Join [dest; fa_file a] = None ->
  exists d', resolve r a d = (d', Err (ErrMissing (asset_ref r a) (fa_file a))) /\ dk_files d' = dk_files d.
Proof.
  intros r dest Hno Hrepo Hres Hmark Htrim Hgone. unfold resolve, MkdirAll. unfold go_bind at 1, syscall at 1, tick at 1. rewrite Hno.
  unfold go_ret at 1. unfold go_bind at 1, wrap. change (ar_pull r) with orasPull. unfold orasPull. rewrite Hrepo. unfold request.
  cbn [dk_files dk_calls dk_requests]. rewrite Hres. unfold go_bind at 1, up_to_date, ReadFile, syscall, tick. rewrite Hno.
  cbn [dk_files dk_calls dk_requests]. change (path_Join [ar_cacheDir r; fa_repo a]) with dest. rewrite Hmark, Htrim, String.eqb_refl.
  unfold go_ret. cbn [dk_files dk_calls dk_requests]. unfold Stat, syscall, tick. rewrite Hno. cbn [dk_files].
  rewrite Hgone. eexists. split; reflexivity.
Qed.

(** Images the operator supplied are used as they are; without a root file system
    to complete, no payload is fetched. *)
Lemma resolveImages_supplied r kernel rootfs payload d :
  kernel <> "" -> rootfs <> "" -> resolveImages r kernel rootfs payload d = (d, Ok (kernel, rootfs, payload)).
Proof.
  intros Hk Hr. unfold resolveImages. apply String.eqb_neq in Hk, Hr. rewrite Hk, Hr, andb_false_r. done.
Qed.
End Resolving.

Lemma backoff_bounds a : Second <= backoff a <= 30 * Second.
Proof.
  unfold backoff. set (b := if a <? 0 then 0 else a). assert (Hb : 0 <= b) by (unfold b; destruct (Z.ltb_spec a 0); lia).
  rewrite Z.gtb_ltb. destruct (Z.ltb_spec 30 b); [unfold Second, Millisecond, Nanosecond; lia|].
  assert (Hall : forallb (fun b => Second <=? int64 (Z.shiftl resumeBackoffBase b)) (seqZ 0 31) = true) by (vm_compute; reflexivity).
  rewrite forallb_forall in Hall. specialize (Hall b). rewrite <- list_elem_of_In, elem_of_seqZ in Hall. specialize (Hall ltac:(lia)).
  destruct (_ && _) eqn:Hc; bools; unfold Second, Millisecond, Nanosecond in *; lia.
Qed.

(** The run-time directory is chosen only for a process that is not root, has no
    home and was given no directory. *)
Lemma cache_not_in_run_dir userCache euid :
  chooseAssetCacheDir "" "" userCache euid = path_Join [defaultStateDir; "assets"] <-> userCache = None /\ euid <> 0.
Proof.
  unfold chooseAssetCacheDir. cbn [String.eqb negb]. destruct userCache as [c|].
  - split; [|by intros []]. intros He. apply (f_equal (fun s => HasSuffix s "firecracker")) in He.
    assert (Ht : HasSuffix (path_Join [c; "llmbox"; "firecracker"]) "firecracker" = true)
      by (apply HasSuffix_spec; exists (c +:+ "/llmbox/"); unfold path_Join; cbn [Join]; by rewrite sapp_assoc).
    rewrite Ht in He. discriminate.
  - destruct (Z.eqb_spec euid 0); [split; [done|by intros []]|]. by split.
Qed.

(** ** A registry and a host *)

(** A server that cuts every answer after two bytes; the digest of a content is
    its text and a compressed content is prefixed by [z]. *)
Definition sim_blob : string := "zroot".
Definition sim_layer : Descriptor := MkDescriptor sim_blob 5 {[ AnnotationTitle := "vmlinux.zst" ]}.
Definition sim_ref : Reference := MkReference "ghcr.io" "clems4ever/llmbox-fc-kernel" "latest".

Definition sim_host (cancelled : nat -> bool) : AssetHost := {|
  fault _ := None;
  Statfs _ _ := Some (10, 12, 4096);
  Geteuid := 1000;
  Getenv _ := "";
  UserCacheDir := Some "/home/u/.cache";
  ctx_Done := cancelled;
  ParseReference _ := Some sim_ref;
  Resolve _ _ _ := Some (MkDescriptor "sha256:m1" 100 ∅);
  FetchManifest _ _ _ _ := Some "{}";
  UnmarshalManifest _ := Some (MkManifest [sim_layer]);
  Get _ _ _ off := Response (if off =? 0 then 200 else 206) (String.substring (Z.to_nat off) 2 sim_blob) true;
  Verified want c := String.eqb want c;
  Zstd c := (String.substring 1 (String.length c) c, HasPrefix c "z");
|}.

Definition empty_disk : Disk := MkDisk ∅ 0 0.

(** A cold cache: the manifest's layer ends up decoded under its own name, and a second
    call only asks for the manifest. *)
Example cold_cache_resolves :
  let h := sim_host (fun _ => false) in
  let r := @newAssetResolver h "/cache" ∅ in
  let '(d1, p1) := @resolve h r kernelAsset empty_disk in
  let '(d2, p2) := @resolve h r kernelAsset d1 in
  (p1, p2, map_to_list (dk_files d1), map_to_list (dk_files d2), dk_requests d1, dk_requests d2) =
  (Ok "/cache/llmbox-fc-kernel/vmlinux", Ok "/cache/llmbox-fc-kernel/vmlinux",
   [("/cache/llmbox-fc-kernel/.oci-digest", "sha256:m1"); ("/cache/llmbox-fc-kernel/vmlinux", "root")],
   [("/cache/llmbox-fc-kernel/.oci-digest", "sha256:m1"); ("/cache/llmbox-fc-kernel/vmlinux", "root")], 5%nat, 6%nat).
Proof. vm_compute. reflexivity. Qed.

Lemma substring_nonempty a m b : (a < String.length b)%nat -> String.substring a (S m) b <> "".
Proof. revert a. induction b as [|c b IH]; intros [|a] Hl; cbn in *; try lia; [done|]. apply IH. lia. Qed.

Lemma sim_honest cancelled cred : honest (sim_host cancelled) cred (blobURL false sim_ref sim_layer) sim_blob.
Proof. intros n off st body br Hoff [= _ <- _] _. by exists 2%nat. Qed.

Lemma sim_reliable cred dir : reliable (sim_host (fun _ => false)) cred (blobURL false sim_ref sim_layer) sim_blob dir.
Proof.
  constructor; [done|done|by intros d free [= <-]|]. intros n off Hoff. eexists _, _, _. split; [reflexivity|]. split.
  - destruct (Z.eqb_spec off 0); [by right|by left].
  - apply substring_nonempty. lia.
Qed.

Lemma sim_networked cancelled : networked None sim_ref sim_layer "/cache/vmlinux.zst" sim_blob (sim_host cancelled).
Proof. constructor; [done|by intros d free [= <-]|apply sim_honest|done]. Qed.

(** Two runs cancelled after their first request leave four of the five bytes; the third completes. *)
Lemma interrupted_fetch_resumes_witness :
  let once := sim_host (fun _ => true) in
  let d2 := fetch_runs None sim_ref sim_layer "/cache/vmlinux.zst" [once; once] empty_disk in
  dk_files d2 !! "/cache/vmlinux.zst.part" = Some "zroo" /\
  exists d', @fetchLayer (sim_host (fun _ => false)) None sim_ref sim_layer "/cache/vmlinux.zst" d2 = (d', Ok ()) /\
    dk_files d' !! "/cache/vmlinux.zst" = Some sim_blob /\ dk_files d' !! "/cache/vmlinux.zst.part" = None.
Proof.
  split; [vm_compute; reflexivity|].
  apply (interrupted_fetch_resumes None sim_ref sim_layer "/cache/vmlinux.zst" sim_blob).
  - reflexivity.
  - cbn. lia.
  - repeat constructor; apply sim_networked.
  - intros c Hc. vm_compute in Hc. discriminate.
  - apply sim_reliable.
  - apply sim_honest.
  - reflexivity.
Defined.

(** A partial file of other content: the first run finds the mismatch and removes it. *)
Example mismatch_is_recovered_from :
  let d := MkDisk {[ "/cache/vmlinux.zst.part" := "old" ]} 0 0 in
  (@fetchLayer (sim_host (fun _ => false)) None sim_ref sim_layer "/cache/vmlinux.zst" d).2 = Err (ErrWrap "verifying" (ErrDigest sim_blob)) /\
  exists d1 r d2, @fetchLayer (sim_host (fun _ => false)) None sim_ref sim_layer "/cache/vmlinux.zst" d = (d1, r) /\
    @fetchLayer (sim_host (fun _ => false)) None sim_ref sim_layer "/cache/vmlinux.zst" d1 = (d2, Ok ()) /\
    dk_files d2 !! "/cache/vmlinux.zst" = Some sim_blob.
Proof.
  intros d. split; [vm_compute; reflexivity|].
  apply (fetch_recovers None sim_ref sim_layer "/cache/vmlinux.zst" sim_blob).
  - reflexivity.
  - cbn. lia.
  - apply sim_reliable.
  - apply sim_honest.
  - reflexivity.
Qed.

(** The compressed copy and the partial files are gone, the decoded image is there. *)
Lemma resolved_images_are_verified_witness :
  exists d' path, @resolve (sim_host (fun _ => false)) (@newAssetResolver (sim_host (fun _ => false)) "/cache" ∅) kernelAsset empty_disk = (d', Ok path) /\
    is_Some (dk_files d' !! path).
Proof.
  destruct (@resolve (sim_host (fun _ => false)) (@newAssetResolver (sim_host (fun _ => false)) "/cache" ∅) kernelAsset empty_disk)
    as [d' res] eqn:Hr.
  destruct (@resolved_images_are_verified (sim_host (fun _ => false)) "/cache" ∅ kernelAsset empty_disk d' res Hr) as [Hok _].
  assert (Hres : res = Ok "/cache/llmbox-fc-kernel/vmlinux") by (vm_compute in Hr; injection Hr as _ Hr; by symmetry).
  exists d', "/cache/llmbox-fc-kernel/vmlinux". rewrite Hres. split; [reflexivity|]. apply Hok. exact Hres.
Defined.
