(* ===== verification/CloudHypervisor.v ===== *)
(** * The Cloud Hypervisor backend (internal/spoke/cloudhypervisor)

    Boxes as micro-VMs: identity and metadata under a state directory, pool
    slots, launching, pausing, resuming, destroying, and reloading after a
    restart.  Handles are locations of a heap of instances, since the registry
    and every caller of [Find] share the same object.  What the outside answers
    (the random source, the disk, the VMM) is an argument of each operation. *)

From S2P Require Import Prelude GoStrings Regex Sandbox Sha256 Mvmnet Microvm Dnsd Netfw Isolation Manager.

Local Open Scope Z_scope.
Local Open Scope go_scope.

(** ** Metadata *)

Record boxMeta := MkMeta {
  m_Token : string;
  m_BoxID : string;
  m_Description : string;
  m_Image : string;
  m_Phase : string;
  m_Paused : bool;
  m_Created : Z;
  m_DiskBytes : Z;
  m_GPUs : list string;
  m_MDEVs : list string;
  m_Egress : bool;
  m_NetIndex : Z;
  m_Namespace : string;
}.

#[export] Instance boxMeta_eq_dec : EqDecision boxMeta.
Proof. solve_decision. Defined.

Definition with_phase (m : boxMeta) (ph : string) : boxMeta :=
  MkMeta (m_Token m) (m_BoxID m) (m_Description m) (m_Image m) ph (m_Paused m) (m_Created m)
    (m_DiskBytes m) (m_GPUs m) (m_MDEVs m) (m_Egress m) (m_NetIndex m) (m_Namespace m).
Definition with_paused (m : boxMeta) (b : bool) : boxMeta :=
  MkMeta (m_Token m) (m_BoxID m) (m_Description m) (m_Image m) (m_Phase m) b (m_Created m)
    (m_DiskBytes m) (m_GPUs m) (m_MDEVs m) (m_Egress m) (m_NetIndex m) (m_Namespace m).

Definition boxDir (stateDir token : string) : string := path_Join [stateDir; token].
Definition apiSockPath (m : boxMeta) (stateDir : string) : string := path_Join [boxDir stateDir (m_Token m); "ch-api.sock"].
Definition vsockUDSPath (m : boxMeta) (stateDir : string) : string := path_Join [boxDir stateDir (m_Token m); "vsock.sock"].
Definition rootfsPath (m : boxMeta) (stateDir : string) : string := path_Join [boxDir stateDir (m_Token m); "rootfs.ext4"].

Definition namePrefix (phase : string) : string :=
  if String.eqb phase "pending" then "llmbox-pending-" else "llmbox-".

Definition toBox (m : boxMeta) (state : string) : Box :=
  MkBox (m_Token m) (namePrefix (m_Phase m) +:+ m_Token m) (m_BoxID m) (m_Description m) "" (m_Image m)
    state "" (m_Phase m) "" (m_Created m) 0.

Definition loadMetas (d : StateDir boxMeta) : list boxMeta := load_metas m_Token d.

(** ** Virtual machines *)

Record vmSpec := MkVMSpec {
  vs_Token : string; vs_BoxDir : string; vs_Kernel : string; vs_RootfsSrc : string;
  vs_APISock : string; vs_VsockUDS : string; vs_DiskBytes : Z; vs_VCPUs : Z; vs_MemoryBytes : Z;
  vs_GPUs : list string; vs_MDEVs : list string; vs_TapName : string; vs_MAC : string; vs_IPArg : string;
}.

Record vmConfig := MkVMConfig {
  vc_BootVCPUs : Z; vc_MaxVCPUs : Z; vc_Memory : Z; vc_Kernel : string; vc_Cmdline : string;
  vc_Disks : list (string * bool); vc_VsockCID : Z; vc_VsockSocket : string;
  vc_Serial : string; vc_Console : string; vc_Net : list (string * string); vc_Devices : list string;
}.

Definition defaultKernelCmdline : string :=
  "console=ttyS0 reboot=k panic=1 net.ifnames=0 root=/dev/vda rw init=/init".
Definition guestCID : Z := 3.

Definition is_hex (c : ascii) : bool := is_digit c || byte_range "a" "f" c || byte_range "A" "F" c.
Fixpoint Times (n : nat) (r : re) : re :=
  match n with
  | O => Eps
  | S n' => Cat r (Times n' r)
  end.
Definition lit (c : ascii) : re := Chr (Ascii.eqb c).

Definition pciAddressRE : re :=
  Cat (Times 4 (Chr is_hex)) (Cat (lit ":") (Cat (Times 2 (Chr is_hex)) (Cat (lit ":")
    (Cat (Times 2 (Chr is_hex)) (Cat (lit ".") (Chr (byte_range "0" "7"))))))).
Definition validatePCIAddress (addr : string) : bool := re_match pciAddressRE addr.
Definition pciDeviceSysfsPath (addr : string) : string := "/sys/bus/pci/devices/" +:+ addr +:+ "/".

Definition mdevUUIDRE : re :=
  Cat (Times 8 (Chr is_hex)) (Cat (lit "-") (Cat (Times 4 (Chr is_hex)) (Cat (lit "-")
    (Cat (Times 4 (Chr is_hex)) (Cat (lit "-") (Cat (Times 4 (Chr is_hex)) (Cat (lit "-") (Times 12 (Chr is_hex))))))))).
Definition validateMediatedDevice (s : string) : bool := re_match mdevUUIDRE s || HasPrefix s "/sys/".
Definition mdevSysfsPath (s : string) : string := if HasPrefix s "/" then s else "/sys/bus/mdev/devices/" +:+ s.

(** [buildVMConfig], with the launcher's rootfs and an empty [Cmdline]. *)
Definition buildVMConfig (spec : vmSpec) (rootfs : string) : vmConfig :=
  let cmdline := if negb (String.eqb (vs_TapName spec) "") && negb (String.eqb (vs_IPArg spec) "")
                 then defaultKernelCmdline +:+ " " +:+ vs_IPArg spec else defaultKernelCmdline in
  MkVMConfig (vs_VCPUs spec) (vs_VCPUs spec) (vs_MemoryBytes spec) (vs_Kernel spec) cmdline
    [(rootfs, false)] guestCID (vs_VsockUDS spec) "Tty" "Off"
    (if String.eqb (vs_TapName spec) "" then [] else [(vs_TapName spec, vs_MAC spec)])
    ((pciDeviceSysfsPath <$> vs_GPUs spec) ++ (mdevSysfsPath <$> vs_MDEVs spec)).

(** ** The provisioner *)

Definition chNet : NetConfig := MkNetConfig "llmboxch" "172.17" 0 "".
Definition defaultPoolSize : Z := 16.
Definition defaultTapGroup : Z := 100000.

(** Its settings. *)
Record Settings := MkSettings {
  kernelImage : string;
  defaultRootfs : string;
  stateDir : string;
  namespace : string;
  limits : Limits;
  gpus : list string;
  mdevs : list string;
  egressMode : EgressMode;
  poolSize : Z;
  tapGroup : Z;
}.

(** A running VMM process: the box whose sockets it serves and its machine. *)
Record vmm := MkVmm { vm_pid : nat; vm_token : string; vm_cfg : vmConfig }.

(** [i_handle] is the live VMM handle, if the instance has one. *)
Record chInstance := MkInst { i_meta : boxMeta; i_handle : option nat; i_alive : bool }.

(** The provisioner's state and what it acts on: the registry (token to
    location), the slots in use, the instances, the outcome of the one-time pool
    set-up, the state directory, the running VMMs (newest first) with the next
    process id, and the host's network. *)
Record World (H : Type) := MkWorld {
  w_boxes : gmap string nat;
  w_used : gset Z;
  w_heap : list chInstance;
  w_pool : option (res EgressError ());
  w_disk : StateDir boxMeta;
  w_vms : list vmm;
  w_pids : nat;
  w_host : H;
}.
Arguments MkWorld {H}.
Arguments w_boxes {H}.
Arguments w_used {H}.
Arguments w_heap {H}.
Arguments w_pool {H}.
Arguments w_disk {H}.
Arguments w_vms {H}.
Arguments w_pids {H}.
Arguments w_host {H}.

Inductive chError :=
| ErrInvalidBoxID (id : string) | ErrNoImages | ErrToken | ErrEgress (e : EgressError) | ErrNoSlot
| ErrLaunch | ErrSave | ErrNotFound (x : string) | ErrResume (token : string) | ErrPersist (token : string).

(** What the host answers to [Launch]: creating the directory, whether [os.Stat]
    of the rootfs fails otherwise than by absence, the size of the copied image
    (or what a failed copy leaves), the steps of growing it, starting the VMM and its socket, creating and
    booting the VM, the guest's first answer. *)
Record LaunchEnv := MkLaunchEnv {
  le_mkdir : bool; le_statErr : bool; le_copy : res (option Z) Z; le_stat : bool; le_truncate : bool;
  le_start : bool; le_socket : bool; le_create : bool; le_boot : bool; le_guest : bool;
}.

Record ProvEnv := MkProvEnv { pe_rnd : option (list Z); pe_now : Z; pe_launch : LaunchEnv; pe_save : bool }.

Section Provisioner.
Context {H : Type} `{HostTools H}.
Abbreviation world := (World H).
Implicit Types (p : Settings) (w : World H).

Definition set_boxes (f : gmap string nat -> gmap string nat) w : world :=
  MkWorld (f (w_boxes w)) (w_used w) (w_heap w) (w_pool w) (w_disk w) (w_vms w) (w_pids w) (w_host w).
Definition set_used (f : gset Z -> gset Z) w : world :=
  MkWorld (w_boxes w) (f (w_used w)) (w_heap w) (w_pool w) (w_disk w) (w_vms w) (w_pids w) (w_host w).
Definition set_heap (f : list chInstance -> list chInstance) w : world :=
  MkWorld (w_boxes w) (w_used w) (f (w_heap w)) (w_pool w) (w_disk w) (w_vms w) (w_pids w) (w_host w).
Definition set_disk (f : StateDir boxMeta -> StateDir boxMeta) w : world :=
  MkWorld (w_boxes w) (w_used w) (w_heap w) (w_pool w) (f (w_disk w)) (w_vms w) (w_pids w) (w_host w).
Definition set_vms (f : list vmm -> list vmm) w : world :=
  MkWorld (w_boxes w) (w_used w) (w_heap w) (w_pool w) (w_disk w) (f (w_vms w)) (w_pids w) (w_host w).

Definition SetPoolSize (n : Z) p : Settings :=
  MkSettings (kernelImage p) (defaultRootfs p) (stateDir p) (namespace p) (limits p) (gpus p) (mdevs p)
    (egressMode p) (if 0 <? n then n else poolSize p) (tapGroup p).
Definition SetTapGroup (gid : Z) p : Settings :=
  MkSettings (kernelImage p) (defaultRootfs p) (stateDir p) (namespace p) (limits p) (gpus p) (mdevs p)
    (egressMode p) (poolSize p) (if 0 <? gid then gid else tapGroup p).
Definition SetNamespace (ns : string) p : Settings :=
  MkSettings (kernelImage p) (defaultRootfs p) (stateDir p) ns (limits p) (gpus p) (mdevs p)
    (egressMode p) (poolSize p) (tapGroup p).

Definition guestNetEnabled p : bool := negb (bool_decide (egressMode p = EgressDisabled)).

Definition diskBytesFor p (requested : Z) : Z := disk_request (limits p) requested.

Definition vcpuCount p : Z :=
  if lim_NanoCPUs (limits p) <=? 0 then defaultVCPUs else Z.max 1 (ceil_cpus (lim_NanoCPUs (limits p))).

(** [EnsureNetwork]: the first call decides for good. *)
Definition EnsureNetwork p : go world chError () := fun w =>
  let once (act : go H EgressError ()) :=
    match w_pool w with
    | Some r => (w, r)
    | None =>
        let '(h, r) := act (w_host w) in
        (MkWorld (w_boxes w) (w_used w) (w_heap w) (Some r) (w_disk w) (w_vms w) (w_pids w) h, r)
    end in
  let wrap (wr : world * res EgressError ()) :=
    (wr.1, match wr.2 with Ok _ => Ok () | Err e => Err (ErrEgress e) end) in
  match egressMode p with
  | EgressDisabled => (w, Ok ())
  | EgressExternal => wrap (once (ValidatePool chNet (poolSize p)))
  | EgressManaged =>
      wrap (once (EnsurePool (MkNetConfig (nc_TapPrefix chNet) (nc_SubnetBase chNet) (tapGroup p) (nc_Uplink chNet))
                    (poolSize p)))
  end.

Definition allocIndexLocked p w : option (Z * world) :=
  match alloc_from (Z.to_nat (poolSize p)) 0 (w_used w) with
  | Some i => Some (i, set_used (fun u => {[i]} ∪ u) w)
  | None => None
  end.

Definition specFor p (m : boxMeta) : vmSpec :=
  let n := NetFor chNet (m_NetIndex m) in
  MkVMSpec (m_Token m) (boxDir (stateDir p) (m_Token m)) (kernelImage p) (defaultRootfs p)
    (apiSockPath m (stateDir p)) (vsockUDSPath m (stateDir p)) (m_DiskBytes m) (vcpuCount p)
    (memSizeMib (limits p) * Z.shiftl 1 20) (m_GPUs m) (m_MDEVs m)
    (if m_Egress m then bn_TapName n else "") (if m_Egress m then MACForIndex (m_NetIndex m) else "")
    (if m_Egress m then KernelIPArg n else "").

(** [prepareRootfs]: the size of the disk it leaves, and whether it succeeded. *)
Definition prepareRootfs (env : LaunchEnv) (diskBytes : Z) : option Z * bool :=
  match le_copy env with
  | Err left_ => (left_, false)
  | Ok size =>
      if 0 <? diskBytes then
        if negb (le_stat env) then (Some size, false)
        else if size <? diskBytes then (if le_truncate env then (Some diskBytes, true) else (Some size, false))
        else (Some size, true)
      else (Some size, true)
  end.

(** [handle.Stop]: returns when the VMM has exited. *)
Definition stop_vm (pid : nat) : world -> world := set_vms (filter (fun v => vm_pid v <> pid)).

(** [launcher.Halt] reaches the VMM that bound the box's API socket last. *)
Fixpoint remove_token (token : string) (l : list vmm) : list vmm :=
  match l with
  | [] => []
  | v :: l' => if String.eqb (vm_token v) token then l' else v :: remove_token token l'
  end.
Definition halt_vm (token : string) : world -> world := set_vms (remove_token token).

(** Starting a VMM that boots: a new process. *)
Definition start_vm (token : string) (cfg : vmConfig) w : world :=
  MkWorld (w_boxes w) (w_used w) (w_heap w) (w_pool w) (w_disk w)
    (MkVmm (w_pids w) token cfg :: w_vms w) (S (w_pids w)) (w_host w).

(** [chLauncher.Launch]: the handle of a VM whose guest answers.  A VMM that does
    not get that far is stopped. *)
Definition Launch (env : LaunchEnv) (spec : vmSpec) : go world chError nat := fun w =>
  let token := vs_Token spec in
  let rootfs := path_Join [vs_BoxDir spec; "rootfs.ext4"] in
  if negb (le_mkdir env) then (w, Err ErrLaunch)
  else
    let w1 := set_disk (mkdir_box token) w in
    let boot w2 :=
      if negb (le_start env && le_socket env && le_create env && le_boot env && le_guest env) then (w2, Err ErrLaunch)
      else (start_vm token (buildVMConfig spec rootfs) w2, Ok (w_pids w2)) in
    match bf_rootfs (dir_of (w_disk w) token) with
    | Some _ => if le_statErr env then (w1, Err ErrLaunch) else boot w1
    | None =>
        match prepareRootfs env (vs_DiskBytes spec) with
        | (size, false) => (set_disk (write_rootfs token size) w1, Err ErrLaunch)
        | (size, true) => boot (set_disk (write_rootfs token size) w1)
        end
    end.

(** [os.RemoveAll(boxDir(...))]. *)
Definition remove_box (token : string) : world -> world := set_disk (delete token).

Definition save (ok : bool) (m : boxMeta) w : world * bool :=
  let '(d, r) := save_meta ok (m_Token m) m (w_disk w) in (set_disk (fun _ => d) w, r).

Definition freeSlot (m : boxMeta) : world -> world :=
  if m_Egress m then set_used (fun u => u ∖ {[m_NetIndex m]}) else id.

(** The metadata of a new box, before it has a slot. *)
Definition newMeta p (opts : CreateOptions) (token : string) (now : Z) : boxMeta :=
  MkMeta token (co_BoxID opts) (co_Description opts) (defaultRootfs p) "pending" false now
    (diskBytesFor p (co_DiskBytes opts)) (gpus p) (mdevs p) false 0 (namespace p).

Definition with_slot (m : boxMeta) (i : Z) : boxMeta :=
  MkMeta (m_Token m) (m_BoxID m) (m_Description m) (m_Image m) (m_Phase m) (m_Paused m) (m_Created m)
    (m_DiskBytes m) (m_GPUs m) (m_MDEVs m) true i (m_Namespace m).

(** The part of [Provision] up to and including the reservation of a slot. *)
Definition reserve p (opts : CreateOptions) (env : ProvEnv) : go world chError boxMeta :=
  if negb (String.eqb (co_BoxID opts) "") && negb (ValidBoxID (co_BoxID opts)) then go_fail (ErrInvalidBoxID (co_BoxID opts))
  else if String.eqb (kernelImage p) "" || String.eqb (defaultRootfs p) "" then go_fail ErrNoImages
  else match newToken (pe_rnd env) with
  | None => go_fail ErrToken
  | Some token =>
      let meta := newMeta p opts token (pe_now env) in
      if guestNetEnabled p then
        let* _ := EnsureNetwork p in
        fun w => match allocIndexLocked p w with
                 | None => (w, Err ErrNoSlot)
                 | Some (i, w') => (w', Ok (with_slot meta i))
                 end
      else go_ret meta
  end.

(** Launching and persisting a reserved box, undoing everything on failure. *)
Definition build p (env : ProvEnv) (meta : boxMeta) : go world chError nat := fun w =>
  match Launch (pe_launch env) (specFor p meta) w with
  | (w1, Err e) => (remove_box (m_Token meta) (freeSlot meta w1), Err e)
  | (w1, Ok handle) =>
      match save (pe_save env) meta w1 with
      | (w2, true) => (w2, Ok handle)
      | (w2, false) => (remove_box (m_Token meta) (freeSlot meta (stop_vm handle w2)), Err ErrSave)
      end
  end.

(** [p.boxes[token] = inst]. *)
Definition register (meta : boxMeta) (handle : nat) : go world chError nat := fun w =>
  let l := length (w_heap w) in
  (set_boxes (<[m_Token meta := l]>) (set_heap (fun h => h ++ [MkInst meta (Some handle) false]) w), Ok l).

Definition Provision p (opts : CreateOptions) (env : ProvEnv) : go world chError nat :=
  let* meta := reserve p opts env in
  let* handle := build p env meta in
  register meta handle.

(** *** Instances *)

Definition inst w (l : nat) : option chInstance := w_heap w !! l.

Definition Meta (i : chInstance) : Box :=
  toBox (i_meta i)
    (if m_Paused (i_meta i) then StatePaused else if bool_decide (is_Some (i_handle i)) || i_alive i then "running" else "stopped").

(** The instances [List] ranges over, in the order of the map. *)
Definition registered w : list nat := (map_to_list (w_boxes w)).*2.
Definition List_ w : list nat := registered w.

Definition Find (x : string) w : res chError nat :=
  match w_boxes w !! x with
  | Some l => Ok l
  | None =>
      match first_match (fun l => match inst w l with
                                  | Some i => negb (String.eqb (m_BoxID (i_meta i)) "") && String.eqb (m_BoxID (i_meta i)) x
                                  | None => false
                                  end) (registered w) with
      | Some l => Ok l
      | None => Err (ErrNotFound x)
      end
  end.

Definition upd (l : nat) (f : chInstance -> chInstance) : world -> world := set_heap (fun h => alter f l h).

(** [stopCompute]: a handle is stopped; an orphan of a previous run is halted if
    it obeys ([halt]). *)
Definition stopCompute (halt : bool) (i : chInstance) : world -> world :=
  match i_handle i with
  | Some pid => stop_vm pid
  | None => if i_alive i && halt then halt_vm (m_Token (i_meta i)) else id
  end.

Definition MarkReady (ok : bool) (l : nat) : go world chError () := fun w =>
  match inst w l with
  | None => (w, Ok ())
  | Some i =>
      let w1 := upd l (fun i => MkInst (with_phase (i_meta i) "ready") (i_handle i) (i_alive i)) w in
      let w2 := match w_boxes w !! m_Token (i_meta i) with
                | Some l' => upd l' (fun i => MkInst (with_phase (i_meta i) "ready") (i_handle i) (i_alive i)) w1
                | None => w1
                end in
      match save ok (with_phase (i_meta i) "ready") w2 with
      | (w3, true) => (w3, Ok ())
      | (w3, false) => (w3, Err (ErrPersist (m_Token (i_meta i))))
      end
  end.

(** [Pause] up to the point where the compute is stopped, outside the lock. *)
Definition pause_begin (halt : bool) (l : nat) : go world chError chInstance := fun w =>
  match inst w l with
  | None => (w, Err (ErrNotFound ""))
  | Some i =>
      match w_boxes w !! m_Token (i_meta i) with
      | None => (w, Err (ErrNotFound (m_Token (i_meta i))))
      | Some _ => (stopCompute halt i w, Ok i)
      end
  end.

Definition pause_finish (ok : bool) (l : nat) : go world chError () := fun w =>
  match inst w l with
  | None => (w, Ok ())
  | Some i =>
      let meta := with_paused (i_meta i) true in
      match save ok meta (upd l (fun i => MkInst (with_paused (i_meta i) true) None false) w) with
      | (w', true) => (w', Ok ())
      | (w', false) => (w', Err (ErrPersist (m_Token (i_meta i))))
      end
  end.

Definition Pause (halt ok : bool) (l : nat) : go world chError () :=
  let* _ := pause_begin halt l in
  pause_finish ok l.

Definition resume_begin p (env : LaunchEnv) (l : nat) : go world chError nat := fun w =>
  match inst w l with
  | None => (w, Err (ErrNotFound ""))
  | Some i =>
      match w_boxes w !! m_Token (i_meta i) with
      | None => (w, Err (ErrNotFound (m_Token (i_meta i))))
      | Some _ =>
          match Launch env (specFor p (i_meta i)) w with
          | (w1, Err _) => (w1, Err (ErrResume (m_Token (i_meta i))))
          | (w1, Ok handle) => (w1, Ok handle)
          end
      end
  end.

Definition resume_finish (ok : bool) (l : nat) (handle : nat) : go world chError () := fun w =>
  match inst w l with
  | None => (w, Ok ())
  | Some i =>
      let meta := with_paused (i_meta i) false in
      match save ok meta (upd l (fun i => MkInst (with_paused (i_meta i) false) (Some handle) false) w) with
      | (w', true) => (w', Ok ())
      | (w', false) => (w', Err (ErrPersist (m_Token (i_meta i))))
      end
  end.

Definition Resume p (env : LaunchEnv) (ok : bool) (l : nat) : go world chError () :=
  let* handle := resume_begin p env l in
  resume_finish ok l handle.

(** The locked part of [Destroy]: deregister and free the slot. *)
Definition deregister (l : nat) : go world chError bool := fun w =>
  match inst w l with
  | None => (w, Err (ErrNotFound ""))
  | Some i =>
      let token := m_Token (i_meta i) in
      (freeSlot (i_meta i) (set_boxes (delete token) w), Ok (bool_decide (is_Some (w_boxes w !! token))))
  end.

(** The rest of [Destroy]: stop the compute, remove the files. *)
Definition destroy_finish (halt : bool) (l : nat) (present : bool) : go world chError () := fun w =>
  match inst w l with
  | None => (w, Ok ())
  | Some i =>
      let w1 := remove_box (m_Token (i_meta i)) (stopCompute halt i w) in
      (w1, if present then Ok () else Err (ErrNotFound (m_Token (i_meta i))))
  end.

Definition Destroy (halt : bool) (l : nat) : go world chError () :=
  let* present := deregister l in
  destroy_finish halt l present.

(** [rehydrate]: reload what a previous run left, in the order of the listing;
    [answers] tells whose VMM still answers. *)
Definition rehydrate_one (ns : string) (answers : string -> bool) w (m : boxMeta) : world :=
  if negb (String.eqb ns "") && negb (String.eqb (m_Namespace m) ns) then w
  else
    let i := MkInst m None (if m_Paused m then false else answers (m_Token m)) in
    let w1 := set_boxes (<[m_Token m := length (w_heap w)]>) (set_heap (fun h => h ++ [i]) w) in
    if m_Egress m then set_used (fun u => {[m_NetIndex m]} ∪ u) w1 else w1.

Definition rehydrate p (answers : string -> bool) w : world :=
  fold_left (rehydrate_one (namespace p) answers) (loadMetas (w_disk w)) w.

(** A fresh provisioner over what is on disk and running: [NewProvisioner]
    rehydrates with its initial settings, whose namespace is empty. *)
Definition NewProvisioner p (answers : string -> bool) (d : StateDir boxMeta) (vms : list vmm) (pids : nat) (h : H) : world :=
  rehydrate (SetNamespace "" p) answers (MkWorld ∅ ∅ [] None d vms pids h).
End Provisioner.

(** ** Start-up *)

Record preflightConfig := MkPreflight {
  pf_chBinary : string; pf_kernel : string; pf_rootfs : string; pf_egressMode : EgressMode; pf_gpuCount : nat;
}.

(** The host's answers: a program on the path, a readable file, /dev/kvm, the CPU
    flags ([None]: they cannot be read), the IOMMU groups, the user id. *)
Record preflightProbes := MkProbes {
  pr_lookPath : string -> bool; pr_readable : string -> bool; pr_kvm : bool;
  pr_cpuVirt : option bool; pr_iommu : bool; pr_euid : Z;
}.

Inductive problem :=
| NoBinary (bin : string) | NoKVM | UnknownCPU | NoCPUVirt | NoKernel | KernelUnreadable | NoRootfs | RootfsUnreadable
| NeedsRoot | NoTool (tool : string) | NoIOMMU.

Definition cpuHasVirtualization (cpuinfo : string) : bool :=
  existsb (fun line => HasPrefix (TrimSpace line) "flags" &&
                       existsb (fun f => String.eqb f "vmx" || String.eqb f "svm") (Fields line))
    (Split cpuinfo "010").

Definition validate (pr : preflightProbes) (cfg : preflightConfig) : list problem :=
  let bin := if String.eqb (pf_chBinary cfg) "" then "cloud-hypervisor" else pf_chBinary cfg in
  (if pr_lookPath pr bin then [] else [NoBinary bin]) ++
  (if pr_kvm pr then [] else [NoKVM]) ++
  match pr_cpuVirt pr with None => [UnknownCPU] | Some true => [] | Some false => [NoCPUVirt] end ++
  (if String.eqb (pf_kernel cfg) "" then [NoKernel] else if pr_readable pr (pf_kernel cfg) then [] else [KernelUnreadable]) ++
  (if String.eqb (pf_rootfs cfg) "" then [NoRootfs] else if pr_readable pr (pf_rootfs cfg) then [] else [RootfsUnreadable]) ++
  match pf_egressMode cfg with
  | EgressManaged =>
      (if pr_euid pr =? 0 then [] else [NeedsRoot]) ++
      omap (fun tool => if pr_lookPath pr tool then None else Some (NoTool tool)) ["ip"; "iptables"]
  | EgressExternal => if pr_lookPath pr "ip" then [] else [NoTool "ip"]
  | EgressDisabled => []
  end ++
  (if (0 <? pf_gpuCount cfg)%nat && negb (pr_iommu pr) then [NoIOMMU] else []).

Definition preflightConfigFrom (opts : Options) (mode : EgressMode) : preflightConfig :=
  MkPreflight (opt_CloudHypervisorBinary opts) (opt_KernelImagePath opts) (opt_RootfsImagePath opts) mode
    (length (opt_GPUPassthrough opts) + length (opt_GPUMediatedDevices opts)).

Inductive startError :=
| ErrMode (e : egressOptError) | ErrPreflight (l : list problem) | ErrGPU (addr : string) | ErrMDEV (s : string)
| ErrPool (e : chError).

(** [buildProvisioner]: the settings of a checked configuration. *)
Definition buildProvisioner (opts : Options) : res startError Settings :=
  match first_match (fun a => negb (validatePCIAddress a)) (opt_GPUPassthrough opts) with
  | Some a => Err (ErrGPU a)
  | None =>
      match first_match (fun m => negb (validateMediatedDevice m)) (opt_GPUMediatedDevices opts) with
      | Some m => Err (ErrMDEV m)
      | None =>
          match resolveEgressMode (opt_DisableEgress opts) (opt_EgressMode opts) with
          | Err e => Err (ErrMode e)
          | Ok mode =>
              let dir := if String.eqb (opt_StateDir opts) "" then "/run/llmbox/cloud-hypervisor" else opt_StateDir opts in
              Ok (SetTapGroup (opt_TapGroupGID opts) (SetPoolSize (opt_PoolSize opts)
                   (MkSettings (opt_KernelImagePath opts) (opt_RootfsImagePath opts) dir (opt_Namespace opts)
                      (opt_Limits opts) (opt_GPUPassthrough opts) (opt_GPUMediatedDevices opts) mode
                      defaultPoolSize defaultTapGroup)))
          end
      end
  end.

(** [newBackend] over what a previous run left. *)
Definition newBackend {H} `{HostTools H} (pr : preflightProbes) (opts : Options) (answers : string -> bool)
    (d : StateDir boxMeta) (vms : list vmm) (pids : nat) (h : H) : res startError (Settings * World H) :=
  let! mode := match resolveEgressMode (opt_DisableEgress opts) (opt_EgressMode opts) with
               | Ok m => Ok m | Err e => Err (ErrMode e) end in
  match validate pr (preflightConfigFrom opts mode) with
  | _ :: _ as l => Err (ErrPreflight l)
  | [] =>
      let! p := buildProvisioner opts in
      match EnsureNetwork p (NewProvisioner p answers d vms pids h) with
      | (w, Ok _) => Ok (p, w)
      | (_, Err e) => Err (ErrPool e)
      end
  end.

(** ** Lemmas *)

Section Lemmas.
Context {H : Type} `{HostTools H}.
Implicit Types (p : Settings) (w : World H).

(** The boxes, by token, and the metadata on disk. *)
Definition abs w : gmap string chInstance := omap (fun l => w_heap w !! l) (w_boxes w).
Definition metas w : gmap string boxMeta := omap bf_meta (w_disk w).

Lemma lookup_abs w t : abs w !! t = w_boxes w !! t ≫= fun l => w_heap w !! l.
Proof. apply lookup_omap. Qed.

Lemma lookup_metas w t : metas w !! t = bf_meta (dir_of (w_disk w) t).
Proof. unfold metas, dir_of. rewrite lookup_omap. by destruct (w_disk w !! t). Qed.

(** Identity: everything but the phase and the paused mark. *)
Definition same_box (m m' : boxMeta) : Prop :=
  with_paused (with_phase m "") false = with_paused (with_phase m' "") false.

(** The registry holds each box under its own token; the disk holds the same
    boxes; the slots in use are those the boxes hold, each held once. *)
Record wf w : Prop := {
  wf_heap : forall t l, w_boxes w !! t = Some l -> is_Some (w_heap w !! l);
  wf_abs : forall t i, abs w !! t = Some i ->
    m_Token (i_meta i) = t /\ exists m, metas w !! t = Some m /\ same_box m (i_meta i);
  wf_disk : forall t m, metas w !! t = Some m -> m_Token m = t /\ t <> "" /\ is_Some (abs w !! t);
  wf_used : forall k, k ∈ w_used w <->
    exists t i, abs w !! t = Some i /\ m_Egress (i_meta i) = true /\ m_NetIndex (i_meta i) = k;
  wf_slots : forall t t' i i', abs w !! t = Some i -> abs w !! t' = Some i' ->
    m_Egress (i_meta i) = true -> m_Egress (i_meta i') = true ->
    m_NetIndex (i_meta i) = m_NetIndex (i_meta i') -> t = t';
}.

(** [Launch] touches nothing but its own box's directory and the VMMs; on failure
    it leaves no VMM. *)
Lemma Launch_spec env spec w :
  match Launch env spec w with
  | (w', r) =>
      w_boxes w' = w_boxes w /\ w_used w' = w_used w /\ w_heap w' = w_heap w /\ w_pool w' = w_pool w /\
      w_host w' = w_host w /\ metas w' = metas w /\
      (forall t, t <> vs_Token spec -> w_disk w' !! t = w_disk w !! t) /\
      match r with
      | Err _ => w_vms w' = w_vms w /\ w_pids w' = w_pids w
      | Ok pid => pid = w_pids w /\ w_pids w' = S pid /\
          w_vms w' = MkVmm pid (vs_Token spec) (buildVMConfig spec (path_Join [vs_BoxDir spec; "rootfs.ext4"])) :: w_vms w
      end
  end.
Proof.
  assert (Hm : forall (d : StateDir boxMeta) t b, bf_meta b = bf_meta (dir_of d t) ->
    omap bf_meta (<[t := b]> d) = omap bf_meta d).
  { intros d t b Hb. apply map_eq. intros t'. rewrite !lookup_omap, lookup_insert. case_decide; subst; [|done].
    simpl. rewrite Hb. unfold dir_of. by destruct (d !! t'). }
  unfold Launch, metas. destruct (negb (le_mkdir env)); [done|].
  destruct (bf_rootfs _); [destruct (le_statErr env)|destruct (prepareRootfs _ _) as [size []]];
    try (destruct (negb _)); simpl; split_and!; try done; unfold mkdir_box, write_rootfs;
    rewrite ?Hm by (by rewrite ?Hm; unfold dir_of; rewrite ?lookup_insert_eq); try done;
    intros t Ht; by rewrite ?lookup_insert_ne by done.
Qed.

(** Everything but the host's network and the outcome of the pool set-up. *)
Definition same_boxes w w' : Prop :=
  w_boxes w' = w_boxes w /\ w_used w' = w_used w /\ w_heap w' = w_heap w /\ w_disk w' = w_disk w /\
  w_vms w' = w_vms w /\ w_pids w' = w_pids w.

Lemma EnsureNetwork_spec p w w' r : EnsureNetwork p w = (w', r) -> same_boxes w w'.
Proof.
  unfold EnsureNetwork, same_boxes. destruct (egressMode p); [| |by intros [= <- _]];
    (destruct (w_pool w); [by intros [= <- _]|]);
    match goal with |- context [?f (w_host w)] => destruct (f (w_host w)) end; by intros [= <- _].
Qed.

Lemma save_spec ok m w w' b : save ok m w = (w', b) ->
  b = ok /\ w_boxes w' = w_boxes w /\ w_used w' = w_used w /\ w_heap w' = w_heap w /\
  w_vms w' = w_vms w /\ w_pids w' = w_pids w /\
  (forall t, t <> m_Token m -> w_disk w' !! t = w_disk w !! t) /\
  metas w' = (if ok then <[m_Token m := m]> (metas w) else metas w).
Proof.
  unfold save, save_meta, mkdir_box, metas. destruct ok; intros [= <- <-]; simpl; split_and!; try done.
  - intros t Ht. by rewrite !lookup_insert_ne.
  - apply map_eq. intros t. rewrite insert_insert_eq, lookup_omap, !lookup_insert. case_decide; [done|].
    by rewrite lookup_omap.
  - intros t Ht. by rewrite lookup_insert_ne.
  - apply map_eq. intros t. rewrite !lookup_omap, lookup_insert. case_decide; [|done]. subst.
    unfold dir_of. by destruct (w_disk w !! m_Token m).
Qed.

Lemma remove_box_metas t w : metas (remove_box t w) = delete t (metas w).
Proof. unfold metas, remove_box. simpl. by rewrite omap_delete. Qed.

Lemma freeSlot_fields m w :
  w_boxes (freeSlot m w) = w_boxes w /\ w_heap (freeSlot m w) = w_heap w /\ w_disk (freeSlot m w) = w_disk w /\
  w_vms (freeSlot m w) = w_vms w /\ w_pids (freeSlot m w) = w_pids w /\
  w_used (freeSlot m w) = (if m_Egress m then w_used w ∖ {[m_NetIndex m]} else w_used w).
Proof. unfold freeSlot. by destruct (m_Egress m). Qed.

(** What [reserve] gives: metadata of the requested box, and the lowest slot no one held. *)
Lemma reserve_spec p opts env w w' r : reserve p opts env w = (w', r) ->
  w_boxes w' = w_boxes w /\ w_heap w' = w_heap w /\ w_disk w' = w_disk w /\ w_vms w' = w_vms w /\
  w_pids w' = w_pids w /\
  match r with
  | Err _ => w_used w' = w_used w
  | Ok m =>
      (co_BoxID opts <> "" -> ValidBoxID (co_BoxID opts) = true) /\
      newToken (pe_rnd env) = Some (m_Token m) /\ m_BoxID m = co_BoxID opts /\ m_Phase m = "pending" /\
      m_Paused m = false /\ m_DiskBytes m = diskBytesFor p (co_DiskBytes opts) /\ m_Egress m = guestNetEnabled p /\
      if m_Egress m
      then 0 <= m_NetIndex m < poolSize p /\ m_NetIndex m ∉ w_used w /\ w_used w' = {[m_NetIndex m]} ∪ w_used w
      else w_used w' = w_used w
  end.
Proof.
  unfold reserve. destruct (negb (String.eqb (co_BoxID opts) "") && _) eqn:Hv; [by intros [= <- <-]|].
  assert (Hvalid : co_BoxID opts <> "" -> ValidBoxID (co_BoxID opts) = true).
  { intros Hne. apply String.eqb_neq in Hne. rewrite Hne in Hv. simpl in Hv. by apply negb_false_iff. }
  destruct (_ || _); [by intros [= <- <-]|].
  destruct (newToken (pe_rnd env)) as [token|] eqn:Htok; [|by intros [= <- <-]].
  destruct (guestNetEnabled p) eqn:Hnet; [|by intros [= <- <-]; simpl; split_and!].
  unfold go_bind. destruct (EnsureNetwork p w) as [w1 [[]|e]] eqn:Hen;
    apply EnsureNetwork_spec in Hen as (Hb & Hu & Hh & Hd & Hvm & Hpid).
  2:{ intros [= <- <-]. by split_and!. }
  unfold allocIndexLocked. destruct (alloc_from _ _ _) as [i|] eqn:Ha; intros [= <- <-]; simpl; [|by split_and!].
  apply alloc_from_Some in Ha as (Hr & Hnin & _). rewrite Hu in *. split_and!; try done; lia.
Qed.

(** Process ids are new. *)
Definition pids_ok w : Prop := Forall (fun v => (vm_pid v < w_pids w)%nat) (w_vms w).

Lemma stop_new w cfg t : pids_ok w -> filter (fun v => vm_pid v <> w_pids w) (MkVmm (w_pids w) t cfg :: w_vms w) = w_vms w.
Proof.
  intros Hok. rewrite filter_cons_False by (simpl; lia). apply filter_id. intros v Hv.
  unfold pids_ok in Hok. rewrite Forall_forall in Hok. specialize (Hok v Hv). lia.
Qed.

(** What [build] does with reserved metadata: a VM and a file, or nothing but the
    slot given back. *)
Lemma build_spec p env m w w' r : pids_ok w -> build p env m w = (w', r) ->
  w_boxes w' = w_boxes w /\ w_heap w' = w_heap w /\
  (forall t, t <> m_Token m -> w_disk w' !! t = w_disk w !! t) /\
  match r with
  | Err _ => w_disk w' !! m_Token m = None /\ w_vms w' = w_vms w /\ (w_pids w <= w_pids w')%nat /\
      w_used w' = (if m_Egress m then w_used w ∖ {[m_NetIndex m]} else w_used w)
  | Ok pid => w_used w' = w_used w /\ metas w' = <[m_Token m := m]> (metas w) /\ pid = w_pids w /\
      w_pids w' = S pid /\
      w_vms w' = MkVmm pid (m_Token m) (buildVMConfig (specFor p m) (rootfsPath m (stateDir p))) :: w_vms w
  end.
Proof.
  intros Hpids. unfold build. pose proof (Launch_spec (pe_launch env) (specFor p m) w) as HL.
  destruct (Launch _ _ w) as [w1 r1]. destruct HL as (Hb & Hu & Hh & _ & _ & Hm & Hd & Hr). simpl in Hd.
  destruct r1 as [pid|e].
  - destruct (save _ m w1) as [w2 b] eqn:Hs.
    apply save_spec in Hs as (Hok & Hb2 & Hu2 & Hh2 & Hv2 & Hp2 & Hd2 & Hm2).
    destruct Hr as (-> & Hp & Hv). destruct b; intros [= <- <-].
    + rewrite <- Hok in Hm2. split_and!; try congruence; [|by rewrite Hv2, Hv].
      intros t Ht. by rewrite Hd2, Hd.
    + set (w3 := stop_vm (w_pids w) w2). destruct (freeSlot_fields m w3) as (F1 & F2 & F3 & F4 & F5 & F6).
      cbn [w_boxes w_heap w_disk w_vms w_pids w_used remove_box set_disk]. rewrite F1, F2, F3, F4, F5, F6.
      cbn [w3 stop_vm set_vms w_boxes w_heap w_disk w_vms w_pids w_used].
      rewrite Hb2, Hh2, Hv2, Hp2, Hu2, Hp, Hv, Hb, Hh, Hu, stop_new by done.
      split_and!; try done; try lia; [|by rewrite lookup_delete_eq].
      intros t Ht. by rewrite lookup_delete_ne, Hd2, Hd.
  - destruct Hr as [Hv Hp]. intros [= <- <-].
    destruct (freeSlot_fields m w1) as (F1 & F2 & F3 & F4 & F5 & F6).
    cbn [w_boxes w_heap w_disk w_vms w_pids w_used remove_box set_disk]. rewrite F1, F2, F3, F4, F5, F6.
    rewrite Hb, Hh, Hv, Hp, Hu. split_and!; try done; [|by rewrite lookup_delete_eq].
    intros t Ht. by rewrite lookup_delete_ne, Hd.
Qed.

(** Every branch of [Provision]. *)
Lemma Provision_effect p opts env w :
  pids_ok w -> (forall t, newToken (pe_rnd env) = Some t -> w_disk w !! t = None) ->
  match Provision p opts env w with
  | (w', Err _) => w_boxes w' = w_boxes w /\ w_used w' = w_used w /\ w_heap w' = w_heap w /\
      w_disk w' = w_disk w /\ w_vms w' = w_vms w
  | (w', Ok l) => exists m pid cfg,
      newToken (pe_rnd env) = Some (m_Token m) /\ m_BoxID m = co_BoxID opts /\ m_Phase m = "pending" /\
      m_Paused m = false /\ (co_BoxID opts <> "" -> ValidBoxID (co_BoxID opts) = true) /\
      w_heap w' = w_heap w ++ [MkInst m (Some pid) false] /\ l = length (w_heap w) /\
      w_boxes w' = <[m_Token m := l]> (w_boxes w) /\ metas w' = <[m_Token m := m]> (metas w) /\
      w_vms w' = MkVmm pid (m_Token m) cfg :: w_vms w /\
      (0 < lim_MaxDiskBytes (limits p) -> m_DiskBytes m <= lim_MaxDiskBytes (limits p)) /\
      if m_Egress m
      then egressMode p <> EgressDisabled /\ 0 <= m_NetIndex m < poolSize p /\ m_NetIndex m ∉ w_used w /\
        w_used w' = {[m_NetIndex m]} ∪ w_used w /\
        vc_Net cfg = [("llmboxch" +:+ Itoa (m_NetIndex m), MACForIndex (m_NetIndex m))]
      else egressMode p = EgressDisabled /\ w_used w' = w_used w /\ vc_Net cfg = []
  end.
Proof.
  intros Hpids Hfresh. unfold Provision, go_bind.
  destruct (reserve p opts env w) as [w1 [m|e]] eqn:Hres;
    apply reserve_spec in Hres as (Hb & Hh & Hd & Hv & Hp & Hr); [|by split_and!].
  destruct Hr as (Hvalid & Htok & Hid & Hph & Hpa & Hdisk & Heg & Hslot).
  destruct (build p env m w1) as [w2 [pid|e]] eqn:Hbu;
    apply build_spec in Hbu as (Hb2 & Hh2 & Hd2 & Hr2);
    try (unfold pids_ok; rewrite Hp, Hv; exact Hpids).
  - destruct Hr2 as (Hu2 & Hm2 & -> & _ & Hv2). unfold register. rewrite Hh2, Hh.
    exists m, (w_pids w1), (buildVMConfig (specFor p m) (rootfsPath m (stateDir p))). simpl.
    rewrite Hb2, Hb, Hv2, Hv. split_and!; try done.
    + by rewrite Hh2, Hh.
    + unfold metas in *. simpl. rewrite Hm2. by rewrite Hd.
    + rewrite Hdisk. unfold diskBytesFor, disk_request. intros Hmax.
      destruct (_ && _) eqn:Hc; [lia|]. apply andb_false_iff in Hc as [Hc|Hc]; bools; lia.
    + unfold guestNetEnabled in Heg. destruct (m_Egress m) eqn:He.
      * destruct Hslot as (Hrng & Hnin & Hu). symmetry in Heg. bools. rewrite Hu2, Hu. split_and!; try done; lia.
      * symmetry in Heg. bools. by rewrite Hu2, Hslot.
  - destruct Hr2 as (Hdn & Hv2 & _ & Hu2). split_and!; try congruence.
    + rewrite Hu2. destruct (m_Egress m); [|done]. destruct Hslot as (_ & Hnin & ->). set_solver.
    + apply map_eq. intros t. destruct (decide (t = m_Token m)) as [-> |Hne].
      * by rewrite Hdn, Hfresh.
      * by rewrite Hd2, Hd.
Qed.

(** *** Preservation of well-formedness *)

Lemma wf_ext w w' : w_boxes w' = w_boxes w -> w_heap w' = w_heap w -> w_used w' = w_used w ->
  metas w' = metas w -> wf w -> wf w'.
Proof.
  intros Hb Hh Hu Hm [H1 H2 H3 H4 H5]. assert (Ha : abs w' = abs w) by (unfold abs; by rewrite Hb, Hh).
  split; rewrite ?Ha, ?Hb, ?Hh, ?Hu, ?Hm; done.
Qed.

Lemma same_box_refl m : same_box m m.
Proof. done. Qed.

Lemma same_box_fields m m' : same_box m m' ->
  m_Token m = m_Token m' /\ m_BoxID m = m_BoxID m' /\ m_Egress m = m_Egress m' /\
  m_NetIndex m = m_NetIndex m' /\ m_Namespace m = m_Namespace m'.
Proof. unfold same_box, with_paused, with_phase. destruct m, m'; simpl. intros Heq. injection Heq. intros. by subst. Qed.

(** Updating a registered instance updates one box. *)
Lemma abs_upd w t l f : wf w -> w_boxes w !! t = Some l -> abs (upd l f w) = alter f t (abs w).
Proof.
  intros Hwf Hl. apply map_eq. intros t'. rewrite lookup_alter, !lookup_abs. cbn [upd set_heap w_boxes w_heap].
  case_decide as Ht.
  - subst t'. rewrite Hl. simpl. by rewrite list_lookup_alter_eq.
  - destruct (w_boxes w !! t') as [l'|] eqn:Hl'; [|done]. simpl.
    destruct (decide (l = l')) as [<- |Hne]; [|by rewrite list_lookup_alter_ne].
    exfalso. destruct (wf_heap w Hwf t l Hl) as [i Hi].
    destruct (wf_abs w Hwf t i) as [Ht1 _]; [by rewrite lookup_abs, Hl|].
    destruct (wf_abs w Hwf t' i) as [Ht2 _]; [by rewrite lookup_abs, Hl'|]. congruence.
Qed.

Lemma wf_upd w t l f : wf w -> w_boxes w !! t = Some l ->
  (forall i, same_box (i_meta i) (i_meta (f i))) -> wf (upd l f w).
Proof.
  intros Hwf Hl Hf. pose proof (abs_upd w t l f Hwf Hl) as Ha.
  assert (Hinv : forall t' i', abs (upd l f w) !! t' = Some i' ->
    exists i, abs w !! t' = Some i /\ same_box (i_meta i) (i_meta i')).
  { intros t' i'. rewrite Ha, lookup_alter. case_decide; [|eauto using same_box_refl]. subst.
    intros (i & Hi & ->)%fmap_Some. eauto. }
  assert (Hfwd : forall t' i, abs w !! t' = Some i ->
    exists i', abs (upd l f w) !! t' = Some i' /\ same_box (i_meta i) (i_meta i')).
  { intros t' i Hi. rewrite Ha, lookup_alter. case_decide; subst; rewrite Hi; simpl; eexists;
      (split; [done|]); auto using same_box_refl. }
  destruct Hwf as [H1 H2 H3 H4 H5]. split.
  - intros t' l' Hl'. cbn [upd set_heap w_boxes w_heap] in *. destruct (H1 t' l' Hl') as [i Hi].
    destruct (decide (l = l')) as [-> |]; [rewrite list_lookup_alter_eq, Hi|rewrite list_lookup_alter_ne, Hi by done]; eauto.
  - intros t' i' (i & Hi & Hs)%Hinv. destruct (H2 _ _ Hi) as (Ht & m & Hm & Hsm).
    destruct (same_box_fields _ _ Hs) as (<- & _). split; [done|]. exists m. split; [done|].
    unfold same_box in *. congruence.
  - intros t' m Hm. destruct (H3 t' m Hm) as (? & ? & [i Hi]). split_and!; [done..|].
    destruct (Hfwd _ _ Hi) as (i' & -> & _). done.
  - intros k. cbn [upd set_heap w_used]. rewrite H4. split; intros (t' & i & Hi & He & Hk).
    + destruct (Hfwd _ _ Hi) as (i' & Hi' & (_ & _ & Hs1 & Hs2 & _)%same_box_fields). exists t', i'. split_and!; congruence.
    + destruct (Hinv _ _ Hi) as (i0 & Hi0 & (_ & _ & Hs1 & Hs2 & _)%same_box_fields). exists t', i0. split_and!; congruence.
  - intros t1 t2 i1 i2 Hi1 Hi2 He1 He2 Hk.
    destruct (Hinv _ _ Hi1) as (j1 & Hj1 & (_ & _ & Hs1 & Hs2 & _)%same_box_fields).
    destruct (Hinv _ _ Hi2) as (j2 & Hj2 & (_ & _ & Hs3 & Hs4 & _)%same_box_fields).
    apply (H5 t1 t2 j1 j2); congruence.
Qed.

Lemma wf_save w ok m i : wf w -> abs w !! m_Token m = Some i -> same_box m (i_meta i) -> wf (save ok m w).1.
Proof.
  intros Hwf Hi Hs. destruct (save ok m w) as [w' b] eqn:He. apply save_spec in He as (_ & Hb & Hu & Hh & _ & _ & _ & Hm).
  simpl. destruct ok; [|by apply (wf_ext w)].
  assert (Ha : abs w' = abs w) by (unfold abs; by rewrite Hb, Hh).
  destruct Hwf as [H1 H2 H3 H4 H5]. split; rewrite ?Ha, ?Hb, ?Hh, ?Hu, ?Hm; try done.
  - intros t j Hj. destruct (H2 t j Hj) as (Ht & m' & Hm' & Hs'). split; [done|]. rewrite lookup_insert.
    case_decide as Heq; [|eauto]. rewrite <- Heq, Hi in Hj. injection Hj as <-. eauto.
  - intros t m'. rewrite lookup_insert. case_decide as Heq; [|by apply H3]. intros [= <-]. subst t.
    destruct (H2 _ _ Hi) as (_ & m0 & Hm0 & _). destruct (H3 _ _ Hm0) as (_ & ? & _). split_and!; [done..|]. by rewrite Hi.
Qed.

(** Adding a box under a new token. *)
Lemma wf_add w w' i :
  wf w -> w_boxes w' = <[m_Token (i_meta i) := length (w_heap w)]> (w_boxes w) ->
  w_heap w' = w_heap w ++ [i] -> metas w' = <[m_Token (i_meta i) := i_meta i]> (metas w) ->
  metas w !! m_Token (i_meta i) = None -> m_Token (i_meta i) <> "" ->
  (if m_Egress (i_meta i) then m_NetIndex (i_meta i) ∉ w_used w /\ w_used w' = {[m_NetIndex (i_meta i)]} ∪ w_used w
   else w_used w' = w_used w) ->
  wf w'.
Proof.
  intros [H1 H2 H3 H4 H5] Hb Hh Hm Hnew Hne Hu. set (t0 := m_Token (i_meta i)) in *.
  assert (Ha : abs w' = <[t0 := i]> (abs w)).
  { apply map_eq. intros t. rewrite lookup_insert, !lookup_abs, Hb, Hh, lookup_insert. case_decide; simpl.
    - by rewrite lookup_app_r, Nat.sub_diag by lia.
    - destruct (w_boxes w !! t) as [l|] eqn:Hl; [|done]. simpl. destruct (H1 t l Hl) as [j Hj].
      rewrite lookup_app_l by (by eapply lookup_lt_Some). done. }
  assert (Hno : abs w !! t0 = None).
  { destruct (abs w !! t0) as [j|] eqn:Hj; [|done]. destruct (H2 _ _ Hj) as (_ & m & ? & _). congruence. }
  split; rewrite ?Ha, ?Hm.
  - intros t l. rewrite Hb, Hh, lookup_insert. case_decide.
    + intros [= <-]. rewrite lookup_app_r, Nat.sub_diag by lia. done.
    + intros [j Hj]%H1. rewrite lookup_app_l by (by eapply lookup_lt_Some). eauto.
  - intros t j. rewrite !lookup_insert. case_decide; [|apply H2]. intros [= <-]. subst. eauto using same_box_refl.
  - intros t m. rewrite !lookup_insert. case_decide; [|by apply H3]. intros [= <-]. subst. eauto.
  - intros k. transitivity (k ∈ w_used w \/ (m_Egress (i_meta i) = true /\ m_NetIndex (i_meta i) = k)).
    { destruct (m_Egress (i_meta i)); [destruct Hu as [_ ->]|rewrite Hu]; set_solver. }
    rewrite H4. setoid_rewrite lookup_insert. split.
    + intros [(t & j & Hj & He & Hk)|[He Hk]].
      * exists t, j. rewrite decide_False by congruence. done.
      * exists t0, i. by rewrite decide_True.
    + intros (t & j & Hj & He & Hk). case_decide; [simplify_eq; auto|left; eauto].
  - intros t t' j j'. rewrite !lookup_insert. repeat case_decide; [congruence| | |by apply H5];
      intros Hj Hj' He He' Hk; simplify_eq; exfalso.
    + rewrite He in Hu. apply Hu. apply H4. exists t', j'. auto.
    + rewrite He' in Hu. apply Hu. apply H4. exists t, j. auto.
Qed.

(** Removing a box and its slot. *)
Lemma wf_remove w w' t i :
  wf w -> abs w !! t = Some i -> w_boxes w' = delete t (w_boxes w) -> w_heap w' = w_heap w ->
  metas w' = delete t (metas w) ->
  w_used w' = (if m_Egress (i_meta i) then w_used w ∖ {[m_NetIndex (i_meta i)]} else w_used w) -> wf w'.
Proof.
  intros [H1 H2 H3 H4 H5] Hi Hb Hh Hm Hu.
  assert (Ha : abs w' = delete t (abs w)).
  { apply map_eq. intros t'. rewrite lookup_delete, !lookup_abs, Hb, Hh, lookup_delete. by case_decide. }
  split; rewrite ?Ha, ?Hm.
  - intros t' l. rewrite Hb, Hh, lookup_delete. case_decide; [done|]. apply H1.
  - intros t' j. rewrite !lookup_delete. case_decide; [done|]. apply H2.
  - intros t' m. rewrite !lookup_delete. case_decide; [done|]. apply H3.
  - intros k. setoid_rewrite lookup_delete. rewrite Hu. split.
    + intros Hk. assert (Hin : k ∈ w_used w) by (destruct (m_Egress (i_meta i)); set_solver).
      apply H4 in Hin as (t' & j & Hj & He & Hkj). exists t', j. rewrite decide_False; [done|].
      intros <-. rewrite Hi in Hj. injection Hj as <-. rewrite He in Hk. set_solver.
    + intros (t' & j & Hj & He & Hk). case_decide as Hne; [done|].
      assert (Hin : k ∈ w_used w) by (apply H4; eauto).
      destruct (m_Egress (i_meta i)) eqn:Hei; [|done].
      assert (k <> m_NetIndex (i_meta i)); [|set_solver]. intros ->. apply Hne.
      by apply (H5 t t' i j).
  - intros t1 t2 i1 i2. rewrite !lookup_delete. repeat case_decide; try done. apply H5.
Qed.

Lemma stopCompute_fields halt i w :
  w_boxes (stopCompute halt i w) = w_boxes w /\ w_heap (stopCompute halt i w) = w_heap w /\
  w_used (stopCompute halt i w) = w_used w /\ w_disk (stopCompute halt i w) = w_disk w /\
  w_pids (stopCompute halt i w) = w_pids w /\ sublist (w_vms (stopCompute halt i w)) (w_vms w).
Proof.
  unfold stopCompute. destruct (i_handle i); [|destruct (_ && _)]; simpl; split_and!; try done.
  - apply sublist_filter.
  - induction (w_vms w) as [|v l IH]; simpl; [done|]. destruct (String.eqb _ _); by constructor.
Qed.

Lemma wf_Provision p opts env w :
  wf w -> pids_ok w -> (forall t, newToken (pe_rnd env) = Some t -> w_disk w !! t = None /\ t <> "") ->
  wf (Provision p opts env w).1.
Proof.
  intros Hwf Hp Hfresh. pose proof (Provision_effect p opts env w Hp (fun t Ht => proj1 (Hfresh t Ht))) as He.
  destruct (Provision p opts env w) as [w' [l|e]]; simpl.
  - destruct He as (m & pid & cfg & Htok & _ & _ & _ & _ & Hh & -> & Hb & Hm & _ & _ & Hs).
    destruct (Hfresh _ Htok) as [Hnew Hne].
    apply (wf_add w w' (MkInst m (Some pid) false)); simpl; try done.
    + rewrite lookup_metas. unfold dir_of. by rewrite Hnew.
    + destruct (m_Egress m); naive_solver.
  - destruct He as (Hb & Hu & Hh & Hd & _). apply (wf_ext w); try done. unfold metas. by rewrite Hd.
Qed.

Lemma wf_Destroy halt t l w : wf w -> w_boxes w !! t = Some l -> wf (Destroy halt l w).1.
Proof.
  intros Hwf Hl. destruct (wf_heap w Hwf t l Hl) as [i Hi].
  assert (Ha : abs w !! t = Some i) by by rewrite lookup_abs, Hl.
  destruct (wf_abs w Hwf t i Ha) as [Ht _].
  unfold Destroy, go_bind, deregister, inst. rewrite Hi.
  destruct (freeSlot_fields (i_meta i) (set_boxes (delete (m_Token (i_meta i))) w)) as (F1 & F2 & F3 & F4 & F5 & F6).
  set (w1 := freeSlot _ _) in *. unfold destroy_finish, inst. rewrite F2. cbn [set_boxes w_heap]. rewrite Hi. simpl.
  destruct (stopCompute_fields halt i w1) as (S1 & S2 & S3 & S4 & _). rewrite Ht in *.
  apply (wf_remove w _ t i Hwf Ha); cbn [remove_box set_disk w_boxes w_heap w_used].
  - by rewrite S1, F1.
  - by rewrite S2, F2.
  - rewrite remove_box_metas. unfold metas. rewrite S4, F3. done.
  - by rewrite S3, F6.
Qed.

(** A box in its registry slot. *)
Lemma wf_at w t l : wf w -> w_boxes w !! t = Some l ->
  exists i, w_heap w !! l = Some i /\ abs w !! t = Some i /\ m_Token (i_meta i) = t.
Proof.
  intros Hwf Hl. destruct (wf_heap w Hwf t l Hl) as [i Hi]. exists i.
  assert (Ha : abs w !! t = Some i) by by rewrite lookup_abs, Hl.
  split_and!; [done..|]. by destruct (wf_abs w Hwf t i Ha).
Qed.

(** Updating an instance and saving the metadata that results. *)
Lemma wf_upd_save w t l i ok f m : wf w -> w_boxes w !! t = Some l -> w_heap w !! l = Some i ->
  (forall j, same_box (i_meta j) (i_meta (f j))) -> m_Token m = t -> same_box m (i_meta (f i)) ->
  wf (save ok m (upd l f w)).1.
Proof.
  intros Hwf Hl Hi Hf Hm Hs. assert (Ha : abs w !! t = Some i) by by rewrite lookup_abs, Hl.
  apply (wf_save _ _ _ (f i)); [by eapply wf_upd| |done].
  rewrite (abs_upd w t l f Hwf Hl), Hm, lookup_alter_eq, Ha. done.
Qed.

Lemma wf_pause_finish ok t l w : wf w -> w_boxes w !! t = Some l -> wf (pause_finish ok l w).1.
Proof.
  intros Hwf Hl. destruct (wf_at w t l Hwf Hl) as (i & Hi & Ha & Ht). unfold pause_finish, inst. rewrite Hi.
  pose proof (wf_upd_save w t l i ok (fun i => MkInst (with_paused (i_meta i) true) None false)
    (with_paused (i_meta i) true) Hwf Hl Hi) as Hw.
  destruct (save _ _ _) as [w' []]; apply Hw; done.
Qed.

Lemma wf_resume_finish ok t l handle w : wf w -> w_boxes w !! t = Some l -> wf (resume_finish ok l handle w).1.
Proof.
  intros Hwf Hl. destruct (wf_at w t l Hwf Hl) as (i & Hi & Ha & Ht). unfold resume_finish, inst. rewrite Hi.
  pose proof (wf_upd_save w t l i ok (fun i => MkInst (with_paused (i_meta i) false) (Some handle) false)
    (with_paused (i_meta i) false) Hwf Hl Hi) as Hw.
  destruct (save _ _ _) as [w' []]; apply Hw; done.
Qed.

Lemma wf_Pause halt ok t l w : wf w -> w_boxes w !! t = Some l -> wf (Pause halt ok l w).1.
Proof.
  intros Hwf Hl. destruct (wf_at w t l Hwf Hl) as (i & Hi & Ha & Ht).
  unfold Pause, go_bind, pause_begin, inst. rewrite Hi, Ht, Hl.
  destruct (stopCompute_fields halt i w) as (S1 & S2 & S3 & S4 & _).
  apply (wf_pause_finish _ t); [|by rewrite S1].
  apply (wf_ext w); try done. unfold metas. by rewrite S4.
Qed.

Lemma wf_Resume p env ok t l w : wf w -> w_boxes w !! t = Some l -> wf (Resume p env ok l w).1.
Proof.
  intros Hwf Hl. destruct (wf_at w t l Hwf Hl) as (i & Hi & Ha & Ht).
  unfold Resume, go_bind, resume_begin, inst. rewrite Hi, Ht, Hl.
  pose proof (Launch_spec env (specFor p (i_meta i)) w) as HL.
  destruct (Launch _ _ w) as [w1 [pid|e]]; destruct HL as (L1 & L2 & L3 & _ & _ & L4 & _).
  - apply (wf_resume_finish _ t); [|by rewrite L1]. by apply (wf_ext w).
  - by apply (wf_ext w).
Qed.

Lemma wf_MarkReady ok t l w : wf w -> w_boxes w !! t = Some l -> wf (MarkReady ok l w).1.
Proof.
  intros Hwf Hl. destruct (wf_at w t l Hwf Hl) as (i & Hi & Ha & Ht). unfold MarkReady, inst. rewrite Hi, Ht, Hl.
  set (f := fun i => MkInst (with_phase (i_meta i) "ready") (i_handle i) (i_alive i)).
  assert (Hf : forall j, same_box (i_meta j) (i_meta (f j))) by done.
  pose proof (wf_upd w t l f Hwf Hl Hf) as Hwf1.
  assert (Hi1 : w_heap (upd l f w) !! l = Some (f i)) by (simpl; by rewrite list_lookup_alter_eq, Hi).
  pose proof (wf_upd_save (upd l f w) t l (f i) ok f (with_phase (i_meta i) "ready") Hwf1 Hl Hi1 Hf Ht) as Hw.
  destruct (save _ _ _) as [w' []]; apply Hw; done.
Qed.

(** *** Process ids stay new *)

Lemma pids_sublist w w' : pids_ok w -> sublist (w_vms w') (w_vms w) -> (w_pids w <= w_pids w')%nat -> pids_ok w'.
Proof.
  unfold pids_ok. intros Hok Hs Hp. eapply Forall_sublist; [done|]. eapply Forall_impl; [done|]. simpl. lia.
Qed.

Lemma pids_cons w w' t cfg : pids_ok w -> w_vms w' = MkVmm (w_pids w) t cfg :: w_vms w -> w_pids w' = S (w_pids w) -> pids_ok w'.
Proof.
  unfold pids_ok. intros Hok -> ->. constructor; [simpl; lia|]. eapply Forall_impl; [done|]. simpl. lia.
Qed.

Lemma pids_save ok m w : pids_ok w -> pids_ok (save ok m w).1.
Proof. destruct (save ok m w) as [w' b] eqn:He. apply save_spec in He as (_ & _ & _ & _ & Hv & Hp & _). unfold pids_ok. simpl. by rewrite Hv, Hp. Qed.

Lemma pids_Launch env spec w : pids_ok w -> pids_ok (Launch env spec w).1.
Proof.
  intros Hok. pose proof (Launch_spec env spec w) as HL. destruct (Launch env spec w) as [w1 [pid|e]]; simpl.
  - destruct HL as (_ & _ & _ & _ & _ & _ & _ & -> & Hp & Hv). by eapply pids_cons.
  - destruct HL as (_ & _ & _ & _ & _ & _ & _ & Hv & Hp). unfold pids_ok. by rewrite Hv, Hp.
Qed.

Lemma pids_Provision p opts env w : pids_ok w -> pids_ok (Provision p opts env w).1.
Proof.
  intros Hok. unfold Provision, go_bind.
  destruct (reserve p opts env w) as [w1 [m|e]] eqn:Hres; apply reserve_spec in Hres as (_ & _ & _ & Hv & Hp & _);
    (assert (Hok1 : pids_ok w1) by (unfold pids_ok; by rewrite Hv, Hp)); [|done].
  destruct (build p env m w1) as [w2 [pid|e]] eqn:Hbu; apply (build_spec _ _ _ _ _ _ Hok1) in Hbu as (_ & _ & _ & Hr).
  - destruct Hr as (_ & _ & -> & Hp2 & Hv2). unfold register. simpl. unfold pids_ok. simpl.
    eapply (pids_cons w1 w2); done.
  - destruct Hr as (_ & Hv2 & Hp2 & _). simpl. eapply (pids_sublist w1); [done| |done]. by rewrite Hv2.
Qed.

Lemma pids_stop halt i w : pids_ok w -> pids_ok (stopCompute halt i w).
Proof.
  intros Hok. destruct (stopCompute_fields halt i w) as (_ & _ & _ & _ & Hp & Hs).
  eapply pids_sublist; [done..|]. by rewrite Hp.
Qed.

Lemma pids_Destroy halt l w : pids_ok w -> pids_ok (Destroy halt l w).1.
Proof.
  intros Hok. unfold Destroy, go_bind, deregister. destruct (inst w l) as [i|]; [|done].
  destruct (freeSlot_fields (i_meta i) (set_boxes (delete (m_Token (i_meta i))) w)) as (_ & _ & _ & F4 & F5 & _).
  set (w1 := freeSlot _ _) in *. assert (Hok1 : pids_ok w1) by (unfold pids_ok; by rewrite F4, F5).
  unfold destroy_finish. destruct (inst w1 l) as [j|]; [|done]. exact (pids_stop halt j w1 Hok1).
Qed.

Lemma pids_Pause halt ok l w : pids_ok w -> pids_ok (Pause halt ok l w).1.
Proof.
  intros Hok. unfold Pause, go_bind, pause_begin. destruct (inst w l) as [i|]; [|done].
  destruct (w_boxes w !! _); [|done]. unfold pause_finish. destruct (inst _ l) as [j|]; [|by apply pids_stop].
  pose proof (pids_save ok (with_paused (i_meta j) true)
    (upd l (fun i => MkInst (with_paused (i_meta i) true) None false) (stopCompute halt i w)) (pids_stop halt i w Hok)) as Hs.
  by destruct (save _ _ _) as [w' []].
Qed.

Lemma pids_Resume p env ok l w : pids_ok w -> pids_ok (Resume p env ok l w).1.
Proof.
  intros Hok. unfold Resume, go_bind, resume_begin. destruct (inst w l) as [i|]; [|done].
  destruct (w_boxes w !! _); [|done]. pose proof (pids_Launch env (specFor p (i_meta i)) w Hok) as HL.
  destruct (Launch _ _ w) as [w1 [pid|e]]; [|done]. simpl in *.
  unfold resume_finish. destruct (inst w1 l) as [j|]; [|done].
  pose proof (pids_save ok (with_paused (i_meta j) false)
    (upd l (fun i => MkInst (with_paused (i_meta i) false) (Some pid) false) w1) HL) as Hs.
  by destruct (save _ _ _) as [w' []].
Qed.

Lemma pids_MarkReady ok l w : pids_ok w -> pids_ok (MarkReady ok l w).1.
Proof.
  intros Hok. unfold MarkReady. destruct (inst w l) as [i|]; [|done].
  set (w2 := match w_boxes w !! _ with Some _ => _ | None => _ end).
  assert (Hok2 : pids_ok w2) by (unfold w2; by destruct (w_boxes w !! _)).
  pose proof (pids_save ok (with_phase (i_meta i) "ready") w2 Hok2) as Hs.
  by destruct (save _ _ _) as [w' []].
Qed.

(** *** Restart *)

(** The instance a restart makes of stored metadata. *)
Definition reloaded (answers : string -> bool) (m : boxMeta) : chInstance :=
  MkInst m None (if m_Paused m then false else answers (m_Token m)).

Definition heap_ok w : Prop := forall t l, w_boxes w !! t = Some l -> (l < length (w_heap w))%nat.

Lemma rehydrate_one_spec answers w m : heap_ok w ->
  let w' := rehydrate_one "" answers w m in
  heap_ok w' /\ abs w' = <[m_Token m := reloaded answers m]> (abs w) /\ w_disk w' = w_disk w /\
  w_vms w' = w_vms w /\ w_pids w' = w_pids w /\
  (forall k, k ∈ w_used w' <-> k ∈ w_used w \/ (m_Egress m = true /\ m_NetIndex m = k)).
Proof.
  intros Hok w'. subst w'. unfold rehydrate_one. cbn [String.eqb negb andb].
  set (w1 := set_boxes _ _).
  assert (Hh : heap_ok w1).
  { intros t l. cbn. rewrite lookup_insert, length_app. simpl. case_decide; [intros [= <-]; lia|].
    intros Hl. specialize (Hok t l Hl). lia. }
  assert (Ha : abs w1 = <[m_Token m := reloaded answers m]> (abs w)).
  { apply map_eq. intros t. rewrite lookup_insert, !lookup_abs. cbn. rewrite lookup_insert. case_decide; simpl.
    - by rewrite lookup_app_r, Nat.sub_diag by lia.
    - destruct (w_boxes w !! t) as [l|] eqn:Hl; [|done]. simpl. by rewrite lookup_app_l by eauto. }
  destruct (m_Egress m); cbn; split_and!; try done; set_solver.
Qed.

Lemma rehydrate_fold answers ms : forall w, heap_ok w -> NoDup (m_Token <$> ms) ->
  let w' := fold_left (rehydrate_one "" answers) ms w in
  heap_ok w' /\ w_disk w' = w_disk w /\ w_vms w' = w_vms w /\ w_pids w' = w_pids w /\
  (forall t i, abs w' !! t = Some i <->
     (exists m, m ∈ ms /\ m_Token m = t /\ i = reloaded answers m) \/ (t ∉ m_Token <$> ms /\ abs w !! t = Some i)) /\
  (forall k, k ∈ w_used w' <-> k ∈ w_used w \/ exists m, m ∈ ms /\ m_Egress m = true /\ m_NetIndex m = k).
Proof.
  induction ms as [|m ms IH]; intros w Hok Hnd; cbn [fold_left].
  { simpl. split_and!; try done; set_solver. }
  apply NoDup_cons in Hnd as [Hnin Hnd].
  destruct (rehydrate_one_spec answers w m Hok) as (Hok1 & Ha1 & Hd1 & Hv1 & Hp1 & Hu1).
  destruct (IH _ Hok1 Hnd) as (Hok2 & Hd2 & Hv2 & Hp2 & Ha2 & Hu2). simpl. split_and!; try congruence; try done.
  - intros t i. rewrite Ha2, Ha1, lookup_insert. split.
    + intros [(m' & Hm' & Ht & Hi)|[Ht Hi]]; [left; exists m'; set_solver|].
      case_decide as Hd; [left; exists m; set_solver|right; set_solver].
    + intros [(m' & [-> |Hm']%elem_of_cons & Ht & Hi)|[Ht Hi]].
      * right. rewrite decide_True by done. split; [by rewrite <- Ht|congruence].
      * left. eauto.
      * right. rewrite decide_False by set_solver. set_solver.
  - intros k. rewrite Hu2, Hu1. setoid_rewrite elem_of_cons. naive_solver.
Qed.

Lemma wf_filed w : wf w -> filed m_Token (w_disk w).
Proof. intros Hwf t b m Hb Hm. eapply wf_disk; [done|]. unfold metas. by rewrite lookup_omap, Hb. Qed.

Lemma elem_of_loadMetas w m : wf w -> m ∈ loadMetas (w_disk w) <-> metas w !! m_Token m = Some m.
Proof.
  intros Hwf. unfold loadMetas. rewrite elem_of_load_metas by by apply wf_filed. unfold metas. rewrite lookup_omap. split.
  - intros (_ & b & -> & Hb). done.
  - destruct (w_disk w !! m_Token m) as [b|] eqn:Hd; [|done]. intros Hb. split; [|eauto].
    apply (wf_disk w Hwf (m_Token m) m). unfold metas. by rewrite lookup_omap, Hd.
Qed.

Lemma loadMetas_NoDup w : wf w -> NoDup (m_Token <$> loadMetas (w_disk w)).
Proof. intros Hwf. by apply load_metas_NoDup, wf_filed. Qed.

(** What a restart finds: the same boxes, in the identity the disk gave them. *)
Lemma restart_spec p answers w : wf w ->
  let w' := NewProvisioner p answers (w_disk w) (w_vms w) (w_pids w) (w_host w) in
  w_disk w' = w_disk w /\ w_vms w' = w_vms w /\ w_pids w' = w_pids w /\ heap_ok w' /\
  (forall t i', abs w' !! t = Some i' <-> exists m, metas w !! t = Some m /\ i' = reloaded answers m) /\
  (forall k, k ∈ w_used w' <-> k ∈ w_used w).
Proof.
  intros Hwf. unfold NewProvisioner, rehydrate. cbn [SetNamespace namespace w_disk].
  set (w0 := MkWorld ∅ ∅ [] None (w_disk w) (w_vms w) (w_pids w) (w_host w)).
  assert (Hw0 : heap_ok w0) by (intros t l; cbn [w_boxes w0]; by rewrite lookup_empty).
  destruct (rehydrate_fold answers _ w0 Hw0 (loadMetas_NoDup w Hwf)) as (Hok & Hd & Hv & Hp & Ha & Hu).
  split_and!; try done.
  - intros t i'. rewrite Ha. rewrite lookup_abs. cbn [w_boxes w0]. rewrite lookup_empty. split.
    + intros [(m & Hm%elem_of_loadMetas & <- & ->)|[_ ?]]; [eauto|done|done].
    + intros (m & Hm & ->). left. exists m. destruct (wf_disk w Hwf _ _ Hm) as (Ht & _).
      rewrite elem_of_loadMetas, Ht by done. done.
  - intros k. rewrite Hu, (wf_used w Hwf). split.
    + intros [?|(m & Hm%elem_of_loadMetas & He & Hk)]; [set_solver| |done].
      destruct (wf_disk w Hwf _ _ Hm) as (_ & _ & [i Hi]). destruct (wf_abs w Hwf _ _ Hi) as (_ & m' & Hm' & Hs).
      rewrite Hm in Hm'. injection Hm' as <-. apply same_box_fields in Hs as (_ & _ & Hs1 & Hs2 & _).
      exists (m_Token m), i. split_and!; congruence.
    + intros (t & i & Hi & He & Hk). right. destruct (wf_abs w Hwf _ _ Hi) as (Ht & m & Hm & Hs).
      pose proof (wf_disk w Hwf _ _ Hm) as (Htm & _). apply same_box_fields in Hs as (_ & _ & Hs1 & Hs2 & _).
      exists m. rewrite elem_of_loadMetas, Htm by done. split_and!; congruence.
Qed.

Lemma wf_restart p answers w : wf w -> wf (NewProvisioner p answers (w_disk w) (w_vms w) (w_pids w) (w_host w)).
Proof.
  intros Hwf. destruct (restart_spec p answers w Hwf) as (Hd & _ & _ & Hok & Ha & Hu).
  set (w' := NewProvisioner _ _ _ _ _ _) in *.
  assert (Hm : metas w' = metas w) by (unfold metas; by rewrite Hd).
  assert (Hback : forall t i', abs w' !! t = Some i' -> exists i, abs w !! t = Some i /\ same_box (i_meta i') (i_meta i)).
  { intros t i' (m & Hmt & ->)%Ha. destruct (wf_disk w Hwf _ _ Hmt) as (_ & _ & [i Hi]).
    destruct (wf_abs w Hwf _ _ Hi) as (_ & m' & Hm' & Hs). rewrite Hmt in Hm'. injection Hm' as <-. eauto. }
  split; rewrite ?Hm.
  - intros t l Hl. apply lookup_lt_is_Some_2. by eapply Hok.
  - intros t i' (m & Hmt & ->)%Ha. destruct (wf_disk w Hwf _ _ Hmt) as (? & _). eauto using same_box_refl.
  - intros t m Hmt. destruct (wf_disk w Hwf _ _ Hmt) as (? & ? & _). split_and!; [done..|].
    exists (reloaded answers m). apply Ha. eauto.
  - intros k. rewrite Hu, (wf_used w Hwf). split.
    + intros (t & i & Hi & He & Hk). destruct (wf_abs w Hwf _ _ Hi) as (_ & m & Hmt & Hs).
      apply same_box_fields in Hs as (_ & _ & Hs1 & Hs2 & _). exists t, (reloaded answers m).
      split_and!; [apply Ha; eauto|simpl; congruence..].
    + intros (t & i' & (i & Hi & (_ & _ & Hs1 & Hs2 & _)%same_box_fields)%Hback & He & Hk).
      exists t, i. split_and!; congruence.
  - intros t t' i i' (j & Hj & (_ & _ & Hs1 & Hs2 & _)%same_box_fields)%Hback
      (j' & Hj' & (_ & _ & Hs3 & Hs4 & _)%same_box_fields)%Hback ???.
    apply (wf_slots w Hwf t t' j j'); congruence.
Qed.
End Lemmas.

(** ** Theorems *)

Section Theorems.
Context {H : Type} `{HostTools H}.
Implicit Types (p : Settings) (w : World H).

(** Creating a box leaves nothing behind when it fails, whichever step fails: the
    registry, the slots, the instances, the state directory and the running VMs
    are what they were.  When it succeeds there is exactly one more box, pending,
    with the requested id (valid if given), its metadata on disk, and one VM; a
    networked box has a slot of the pool that no box held, and its VM's only
    network device is that slot's TAP with that slot's MAC; a control-only box
    has neither. *)
Theorem Provision_spec p opts env w :
  pids_ok w -> (forall t, newToken (pe_rnd env) = Some t -> w_disk w !! t = None) ->
  match Provision p opts env w with
  | (w', Err _) => w_boxes w' = w_boxes w /\ w_used w' = w_used w /\ w_heap w' = w_heap w /\
      w_disk w' = w_disk w /\ w_vms w' = w_vms w
  | (w', Ok l) => exists m pid cfg,
      newToken (pe_rnd env) = Some (m_Token m) /\ m_BoxID m = co_BoxID opts /\ m_Phase m = "pending" /\
      m_Paused m = false /\ (co_BoxID opts <> "" -> ValidBoxID (co_BoxID opts) = true) /\
      w_heap w' = w_heap w ++ [MkInst m (Some pid) false] /\ l = length (w_heap w) /\
      w_boxes w' = <[m_Token m := l]> (w_boxes w) /\ metas w' = <[m_Token m := m]> (metas w) /\
      w_vms w' = MkVmm pid (m_Token m) cfg :: w_vms w /\
      (0 < lim_MaxDiskBytes (limits p) -> m_DiskBytes m <= lim_MaxDiskBytes (limits p)) /\
      if m_Egress m
      then egressMode p <> EgressDisabled /\ 0 <= m_NetIndex m < poolSize p /\ m_NetIndex m ∉ w_used w /\
        w_used w' = {[m_NetIndex m]} ∪ w_used w /\
        vc_Net cfg = [("llmboxch" +:+ Itoa (m_NetIndex m), MACForIndex (m_NetIndex m))]
      else egressMode p = EgressDisabled /\ w_used w' = w_used w /\ vc_Net cfg = []
  end.
Proof. apply Provision_effect. Qed.

(** The life of a provisioner: operations on boxes it lists, in any order, and
    restarts of the spoke at any point between them.  A new token is one whose
    directory does not exist. *)
Inductive ch_step p : World H -> World H -> Prop :=
| cs_provision opts env w :
    (forall t, newToken (pe_rnd env) = Some t -> w_disk w !! t = None /\ t <> "") ->
    ch_step p w (Provision p opts env w).1
| cs_destroy halt t l w : w_boxes w !! t = Some l -> ch_step p w (Destroy halt l w).1
| cs_pause halt ok t l w : w_boxes w !! t = Some l -> ch_step p w (Pause halt ok l w).1
| cs_resume env ok t l w : w_boxes w !! t = Some l -> ch_step p w (Resume p env ok l w).1
| cs_ready ok t l w : w_boxes w !! t = Some l -> ch_step p w (MarkReady ok l w).1
| cs_restart answers w : ch_step p w (NewProvisioner p answers (w_disk w) (w_vms w) (w_pids w) (w_host w)).

(** A first start on an empty state directory. *)
Definition first_start (h : H) : World H := MkWorld ∅ ∅ [] None ∅ [] 0 h.

Lemma wf_first_start h : wf (first_start h) /\ pids_ok (first_start h).
Proof.
  split; [split|constructor]; unfold abs, metas; simpl;
    rewrite ?omap_empty; try (intros *; rewrite ?lookup_empty; done).
  intros k. split; [set_solver|]. intros (t & i & Hi & _). by rewrite lookup_empty in Hi.
Qed.

(** The slots in use lie in the pool. *)
Definition pool_ok p w : Prop := forall k, k ∈ w_used w -> 0 <= k < poolSize p.

Lemma save_used ok m w : w_used (save ok m w).1 = w_used w.
Proof. destruct (save ok m w) as [w' b] eqn:He. by apply save_spec in He as (_ & _ & Hu & _). Qed.

Lemma Launch_used env spec w : w_used (Launch env spec w).1 = w_used w.
Proof. pose proof (Launch_spec env spec w) as HL. destruct (Launch env spec w) as [w1 r]. by destruct HL as (_ & ? & _). Qed.

Lemma Pause_used halt ok l w : w_used (Pause halt ok l w).1 = w_used w.
Proof.
  unfold Pause, go_bind, pause_begin. destruct (inst w l) as [i|]; [|done]. destruct (w_boxes w !! _); [|done].
  destruct (stopCompute_fields halt i w) as (_ & _ & Hu & _). rewrite <- Hu.
  unfold pause_finish. destruct (inst _ l) as [j|]; [|done].
  pose proof (save_used ok (with_paused (i_meta j) true)
    (upd l (fun i => MkInst (with_paused (i_meta i) true) None false) (stopCompute halt i w))) as Hs.
  by destruct (save _ _ _) as [w' []].
Qed.

Lemma Resume_used p env ok l w : w_used (Resume p env ok l w).1 = w_used w.
Proof.
  unfold Resume, go_bind, resume_begin. destruct (inst w l) as [i|]; [|done]. destruct (w_boxes w !! _); [|done].
  pose proof (Launch_used env (specFor p (i_meta i)) w) as Hu. destruct (Launch _ _ w) as [w1 [pid|e]]; [|done].
  simpl in Hu. rewrite <- Hu. unfold resume_finish. destruct (inst _ l) as [j|]; [|done].
  pose proof (save_used ok (with_paused (i_meta j) false)
    (upd l (fun i => MkInst (with_paused (i_meta i) false) (Some pid) false) w1)) as Hs.
  by destruct (save _ _ _) as [w' []].
Qed.

Lemma MarkReady_used ok l w : w_used (MarkReady ok l w).1 = w_used w.
Proof.
  unfold MarkReady. destruct (inst w l) as [i|]; [|done].
  set (w2 := match w_boxes w !! _ with Some _ => _ | None => _ end).
  assert (Hu : w_used w2 = w_used w) by (unfold w2; by destruct (w_boxes w !! _)).
  pose proof (save_used ok (with_phase (i_meta i) "ready") w2) as Hs. rewrite Hu in Hs.
  by destruct (save _ _ _) as [w' []].
Qed.

Lemma Destroy_used halt l w : w_used (Destroy halt l w).1 ⊆ w_used w.
Proof.
  unfold Destroy, go_bind, deregister. destruct (inst w l) as [i|]; [|done].
  destruct (freeSlot_fields (i_meta i) (set_boxes (delete (m_Token (i_meta i))) w)) as (_ & _ & _ & _ & _ & F6).
  set (w1 := freeSlot _ _) in *. unfold destroy_finish. destruct (inst w1 l) as [j|]; simpl;
    rewrite ?(proj1 (proj2 (proj2 (stopCompute_fields halt j w1)))), F6; destruct (m_Egress _); simpl; set_solver.
Qed.

Lemma ch_step_ok p w w' : ch_step p w w' -> wf w -> pids_ok w -> pool_ok p w -> wf w' /\ pids_ok w' /\ pool_ok p w'.
Proof.
  intros Hst Hwf Hp Hk. destruct Hst as [opts env w Hf|halt t l w Hl|halt ok t l w Hl|env ok t l w Hl|ok t l w Hl|answers w].
  - split_and!; [by apply wf_Provision|by apply pids_Provision|].
    pose proof (Provision_effect p opts env w Hp (fun t Ht => proj1 (Hf t Ht))) as He.
    destruct (Provision p opts env w) as [w' [l|e]]; unfold pool_ok; simpl.
    + destruct He as (m & pid & cfg & _ & _ & _ & _ & _ & _ & _ & _ & _ & _ & _ & Hs).
      destruct (m_Egress m); [destruct Hs as (_ & Hr & _ & -> & _)|destruct Hs as (_ & -> & _); done].
      intros k [->%elem_of_singleton|?]%elem_of_union; auto.
    + destruct He as (_ & -> & _). done.
  - split_and!; [by eapply wf_Destroy|by apply pids_Destroy|]. intros k Hin. apply Hk. by apply (Destroy_used halt l w).
  - split_and!; [by eapply wf_Pause|by apply pids_Pause|]. unfold pool_ok. by rewrite Pause_used.
  - split_and!; [by eapply wf_Resume|by apply pids_Resume|]. unfold pool_ok. by rewrite Resume_used.
  - split_and!; [by eapply wf_MarkReady|by apply pids_MarkReady|]. unfold pool_ok. by rewrite MarkReady_used.
  - destruct (restart_spec p answers w Hwf) as (_ & Hv & Hpi & _ & _ & Hu).
    split_and!; [by apply wf_restart|unfold pids_ok; by rewrite Hv, Hpi|]. intros k Hin%Hu. auto.
Qed.

Lemma ch_reachable p h w : rtc (ch_step p) (first_start h) w -> wf w /\ pids_ok w /\ pool_ok p w.
Proof.
  intros Hr. assert (H0' : wf (first_start h) /\ pids_ok (first_start h) /\ pool_ok p (first_start h)).
  { destruct (wf_first_start h). split_and!; [done..|]. intros k. set_solver. }
  revert H0'. induction Hr as [|w1 w2 w3 Hst Hr IH]; [done|]. intros (A & B & C). apply IH. by eapply ch_step_ok.
Qed.


End Theorems.

(** ** The backend behind the manager

    What the outside answers to the operations to come is part of the state; an
    instance is named by its token, and a handle that outlived its box still
    names it. *)
Record OpEnv := MkOpEnv { oe_prov : ProvEnv; oe_launch : LaunchEnv; oe_halt : bool; oe_save : bool }.

Section Interface.
Context {H : Type} `{HostTools H}.

(** The registry maps a token to an instance with that token. *)
Definition reg_ok (w : World H) : Prop :=
  forall t l, w_boxes w !! t = Some l -> exists i, w_heap w !! l = Some i /\ m_Token (i_meta i) = t.

Record Backend := MkBackend {
  cb_set : Settings;
  cb_world : World H;
  cb_env : nat -> OpEnv;
  cb_tick : nat;
}.

(** The newest instance with a token. *)
Fixpoint newest (t : string) (h : list chInstance) (l : nat) (found : option nat) : option nat :=
  match h with
  | [] => found
  | i :: h' => newest t h' (S l) (if String.eqb (m_Token (i_meta i)) t then Some l else found)
  end.

Definition next (b : Backend) : OpEnv := cb_env b (cb_tick b).
Definition after (b : Backend) (w : World H) : Backend := MkBackend (cb_set b) w (cb_env b) (S (cb_tick b)).

Definition to_ProvError (e : chError) : ProvError :=
  match e with
  | ErrNotFound _ => ErrBoxNotFound
  | _ => ErrBackend "cloud-hypervisor"
  end.

(** An operation of the instance a token names. *)
Definition on_instance (op : nat -> go (World H) chError ()) (t : string) (b : Backend) : Backend * option ProvError :=
  match newest t (w_heap (cb_world b)) 0 None with
  | None => (after b (cb_world b), Some ErrBoxNotFound)
  | Some l =>
      match op l (cb_world b) with
      | (w, Ok _) => (after b w, None)
      | (w, Err e) => (after b w, Some (to_ProvError e))
      end
  end.

Definition backend_Provision (opts : CreateOptions) (b : Backend) : Backend * res ProvError string :=
  match Provision (cb_set b) opts (oe_prov (next b)) (cb_world b) with
  | (w, Ok l) => (after b w, Ok (match w_heap w !! l with Some i => m_Token (i_meta i) | None => "" end))
  | (w, Err e) => (after b w, Err (to_ProvError e))
  end.

Definition backend_List (b : Backend) : res ProvError (list Box) :=
  Ok (omap (fun l => Meta <$> inst (cb_world b) l) (List_ (cb_world b))).

Definition backend_Find (x : string) (b : Backend) : res ProvError Box :=
  match Find x (cb_world b) with
  | Ok l => match inst (cb_world b) l with Some i => Ok (Meta i) | None => Err ErrBoxNotFound end
  | Err e => Err (to_ProvError e)
  end.

(** *** Registration, whatever the tokens *)

Definition reg_heap_same (w w' : World H) : Prop := w_boxes w' = w_boxes w /\ w_heap w' = w_heap w.

Lemma build_reg p env m (w : World H) : reg_heap_same w (build p env m w).1.
Proof.
  unfold build, reg_heap_same. pose proof (Launch_spec (pe_launch env) (specFor p m) w) as HL.
  destruct (Launch _ _ w) as [w1 [pid|e]]; destruct HL as (Hb & _ & Hh & _).
  - destruct (save _ m w1) as [w2 []] eqn:Hs; apply save_spec in Hs as (_ & Hb2 & _ & Hh2 & _); simpl; [by rewrite Hb2, Hh2|].
    destruct (freeSlot_fields m (stop_vm pid w2)) as (F1 & F2 & _). rewrite F1, F2. simpl. by rewrite Hb2, Hh2.
  - simpl. destruct (freeSlot_fields m w1) as (F1 & F2 & _). by rewrite F1, F2.
Qed.

Lemma Provision_reg p opts env (w : World H) :
  match Provision p opts env w with
  | (w', Err _) => reg_heap_same w w'
  | (w', Ok l) => exists i, m_BoxID (i_meta i) = co_BoxID opts /\ l = length (w_heap w) /\
      w_heap w' = w_heap w ++ [i] /\ w_boxes w' = <[m_Token (i_meta i) := l]> (w_boxes w)
  end.
Proof.
  unfold Provision, go_bind, reg_heap_same.
  destruct (reserve p opts env w) as [w1 [m|e]] eqn:Hres; apply reserve_spec in Hres as (Hb & Hh & _ & _ & _ & Hr); [|done].
  pose proof (build_reg p env m w1) as [Hb2 Hh2]. destruct (build p env m w1) as [w2 [pid|e]]; simpl in *; [|split; congruence].
  exists (MkInst m (Some pid) false). simpl. destruct Hr as (_ & _ & Hid & _). split_and!; congruence.
Qed.

Abbreviation live := (Microvm.live (fun i => m_Token (i_meta i))).

Definition views (li : list (nat * chInstance)) : list Box := (fun x => Meta x.2) <$> li.

Lemma views_hide bx bx' t h l :
  (forall t', t' <> t -> bx' !! t' = bx !! t') -> (forall k, (k < l + length h)%nat -> bx' !! t <> Some k) ->
  views (live bx' h l) = others t (views (live bx h l)).
Proof.
  intros Ho Hn. rewrite (live_hide _ bx bx' t h l Ho Hn). unfold views, others. generalize (live bx h l).
  intros li. induction li as [|x li IH]; [done|]. rewrite fmap_cons, !filter_cons.
  cbn [box_InstanceID Meta toBox]. case_decide; rewrite ?fmap_cons, IH; done.
Qed.

Lemma live_List (w : World H) : reg_ok w ->
  omap (fun l => Meta <$> inst w l) (List_ w) ≡ₚ views (live (w_boxes w) (w_heap w) 0).
Proof.
  intros Hok. set (li := live (w_boxes w) (w_heap w) 0).
  assert (Hp : List_ w ≡ₚ li.*1).
  { unfold List_, registered. apply NoDup_Permutation; [|apply live_NoDup|].
    - apply NoDup_fmap_2_strong; [|apply NoDup_map_to_list].
      intros [t l] [t' l'] Ht%elem_of_map_to_list Ht'%elem_of_map_to_list. simpl. intros <-.
      destruct (Hok _ _ Ht) as (i & Hi & <-), (Hok _ _ Ht') as (i' & Hi' & <-). congruence.
    - intros l. rewrite !list_elem_of_fmap. split.
      + intros ([t l'] & -> & Ht%elem_of_map_to_list). destruct (Hok _ _ Ht) as (i & Hi & <-). exists (l', i).
        split; [done|]. apply elem_of_live. rewrite Nat.sub_0_r. auto with lia.
      + intros ([l' i] & -> & (_ & Hi & Hb)%elem_of_live). exists (m_Token (i_meta i), l').
        split; [done|]. by apply elem_of_map_to_list. }
  rewrite Hp. clear Hp. unfold views.
  assert (Hin : forall x, x ∈ li -> inst w x.1 = Some x.2).
  { intros [l i] (_ & Hi & _)%elem_of_live. by rewrite Nat.sub_0_r in Hi. }
  revert Hin. clear. induction li as [|[l i] li IH]; intros Hin; [done|]. simpl.
  pose proof (Hin (l, i) (list_elem_of_here _ _)) as Hl. simpl in Hl. rewrite Hl. simpl. constructor. apply IH.
  intros x Hx. apply Hin. by apply list_elem_of_further.
Qed.

(** *** Every operation keeps the registry sound *)

Lemma reg_ok_same w w' : reg_heap_same w w' -> reg_ok w -> reg_ok w'.
Proof. unfold reg_ok. by intros [-> ->]. Qed.

Lemma reg_ok_Provision p opts env w : reg_ok w -> reg_ok (Provision p opts env w).1.
Proof.
  intros Hok. pose proof (Provision_reg p opts env w) as He. destruct (Provision p opts env w) as [w' [l|e]]; simpl.
  - destruct He as (i & _ & -> & Hh & Hb). intros t l. rewrite Hb, Hh, lookup_insert. case_decide as Ht.
    + intros [= <-]. exists i. by rewrite lookup_app_r, Nat.sub_diag by lia.
    + intros (j & Hj & Htj)%Hok. exists j. by rewrite lookup_app_l by (by eapply lookup_lt_Some).
  - by apply (reg_ok_same w).
Qed.

(** What an operation of an instance does to the registry: nothing but updates
    that keep tokens and ids, or dropping the instance's own token. *)
Inductive inst_effect (w : World H) : World H -> Prop :=
| ie_same w' : reg_heap_same w w' -> inst_effect w w'
| ie_upd w' f k : w_boxes w' = w_boxes w -> w_heap w' = alter f k (w_heap w) ->
    (forall i, same_box (i_meta i) (i_meta (f i))) -> inst_effect w w'.

Lemma save_reg ok m w : reg_heap_same w (save ok m w).1.
Proof. destruct (save ok m w) as [w' b] eqn:Hs. by apply save_spec in Hs as (_ & ? & _ & ? & _). Qed.

Lemma inst_effect_ok w w' : inst_effect w w' -> reg_ok w -> reg_ok w'.
Proof.
  intros [w1 Hs|w1 f k Hb Hh Hf] Hok; [by eapply reg_ok_same|].
  intros t l. rewrite Hb, Hh. intros (i & Hi & Ht)%Hok.
  destruct (decide (k = l)) as [-> |]; [|exists i; by rewrite list_lookup_alter_ne].
  exists (f i). rewrite list_lookup_alter_eq, Hi. split; [done|].
  by destruct (same_box_fields _ _ (Hf i)) as (<- & _).
Qed.

Lemma inst_effect_ids w w' : inst_effect w w' ->
  box_BoxID <$> views (live (w_boxes w') (w_heap w') 0) = box_BoxID <$> views (live (w_boxes w) (w_heap w) 0).
Proof.
  intros [w1 [-> ->]|w1 f k -> -> Hf]; [done|]. unfold views. rewrite <- !list_fmap_compose.
  apply (live_alter _ (fun i => m_BoxID (i_meta i))); intros i;
    by destruct (same_box_fields _ _ (Hf i)) as (? & ? & _).
Qed.

Lemma Pause_effect halt ok l w : inst_effect w (Pause halt ok l w).1.
Proof.
  unfold Pause, go_bind, pause_begin. destruct (inst w l) as [i|]; [|by apply ie_same]. destruct (w_boxes w !! _); [|by apply ie_same].
  destruct (stopCompute_fields halt i w) as (S1 & S2 & _).
  unfold pause_finish. destruct (inst _ l) as [j|]; [|by apply ie_same].
  set (f := fun i => MkInst (with_paused (i_meta i) true) None false).
  destruct (save_reg ok (with_paused (i_meta j) true) (upd l f (stopCompute halt i w))) as [B1 B2].
  apply (ie_upd _ _ f l); destruct (save _ _ _) as [w' []]; simpl in *; rewrite ?B1, ?B2, ?S1, ?S2; done.
Qed.

Lemma Resume_effect p env ok l w : inst_effect w (Resume p env ok l w).1.
Proof.
  unfold Resume, go_bind, resume_begin. destruct (inst w l) as [i|]; [|by apply ie_same]. destruct (w_boxes w !! _); [|by apply ie_same].
  pose proof (Launch_spec env (specFor p (i_meta i)) w) as HL.
  destruct (Launch _ _ w) as [w1 [pid|e]]; destruct HL as (S1 & _ & S2 & _); [|by apply ie_same].
  unfold resume_finish. destruct (inst _ l) as [j|]; [|by apply ie_same].
  set (f := fun i => MkInst (with_paused (i_meta i) false) (Some pid) false).
  destruct (save_reg ok (with_paused (i_meta j) false) (upd l f w1)) as [B1 B2].
  apply (ie_upd _ _ f l); destruct (save _ _ _) as [w' []]; simpl in *; rewrite ?B1, ?B2, ?S1, ?S2; done.
Qed.

Lemma Destroy_effect halt l w :
  match inst w l with
  | None => reg_heap_same w (Destroy halt l w).1
  | Some i => w_heap (Destroy halt l w).1 = w_heap w /\
      w_boxes (Destroy halt l w).1 = delete (m_Token (i_meta i)) (w_boxes w)
  end.
Proof.
  unfold Destroy, go_bind, deregister. destruct (inst w l) as [i|] eqn:Hi; [|done].
  destruct (freeSlot_fields (i_meta i) (set_boxes (delete (m_Token (i_meta i))) w)) as (F1 & F2 & _).
  set (w1 := freeSlot _ _) in *. unfold destroy_finish, inst. rewrite F2. cbn [set_boxes w_heap].
  unfold inst in Hi. rewrite Hi. simpl. destruct (stopCompute_fields halt i w1) as (S1 & S2 & _).
  rewrite S1, S2, F1, F2. done.
Qed.

Lemma newest_spec t h l found k : newest t h l found = Some k ->
  found = Some k \/ exists i, (l <= k)%nat /\ h !! (k - l)%nat = Some i /\ m_Token (i_meta i) = t.
Proof.
  revert l found. induction h as [|i h IH]; intros l found; simpl; [auto|].
  intros [Hf|(j & Hl & Hj & Ht)]%IH.
  - destruct (String.eqb_spec (m_Token (i_meta i)) t); [|auto]. injection Hf as <-. right. exists i.
    rewrite Nat.sub_diag. auto with lia.
  - right. exists j. replace (k - l)%nat with (S (k - S l)) by lia. auto with lia.
Qed.

(** *** The instance *)

Record CHProv := MkCHProv { ch_b : Backend; ch_ok : reg_ok (cb_world ch_b) }.

Lemma on_instance_ok op t b : (forall l w, reg_ok w -> reg_ok (op l w).1) -> reg_ok (cb_world b) ->
  reg_ok (cb_world (on_instance op t b).1).
Proof.
  intros Hop Hok. unfold on_instance. destruct (newest _ _ _ _) as [l|]; [|done].
  specialize (Hop l (cb_world b) Hok). by destruct (op l (cb_world b)) as [w []].
Qed.

Lemma backend_Provision_ok opts b : reg_ok (cb_world b) -> reg_ok (cb_world (backend_Provision opts b).1).
Proof.
  intros Hok. unfold backend_Provision. pose proof (reg_ok_Provision (cb_set b) opts (oe_prov (next b)) _ Hok) as Hw.
  by destruct (Provision _ _ _ _) as [w []].
Qed.

Lemma Pause_ok halt ok l w : reg_ok w -> reg_ok (Pause halt ok l w).1.
Proof. apply inst_effect_ok, Pause_effect. Qed.

Lemma Resume_ok p env ok l w : reg_ok w -> reg_ok (Resume p env ok l w).1.
Proof. apply inst_effect_ok, Resume_effect. Qed.

Lemma reg_ok_Destroy halt l w : reg_ok w -> reg_ok (Destroy halt l w).1.
Proof.
  intros Hok. pose proof (Destroy_effect halt l w) as He. destruct (inst w l) as [i|]; [|by eapply reg_ok_same].
  destruct He as [Hh Hb]. intros t l'. rewrite Hh, Hb, lookup_delete. case_decide; [done|]. apply Hok.
Qed.

Definition lift {A} (r : Backend * A) (Hok : reg_ok (cb_world r.1)) : CHProv * A := (MkCHProv r.1 Hok, r.2).

#[export] Instance CH_Provisioner : Manager.Provisioner CHProv := {
  Manager.Provision opts p := lift (backend_Provision opts (ch_b p)) (backend_Provision_ok opts _ (ch_ok p));
  Manager.prov_List p := backend_List (ch_b p);
  Manager.Find x p := backend_Find x (ch_b p);
  Manager.inst_Pause t p :=
    lift (on_instance (Pause (oe_halt (next (ch_b p))) (oe_save (next (ch_b p)))) t (ch_b p))
      (on_instance_ok _ t _ (Pause_ok _ _) (ch_ok p));
  Manager.inst_Resume t p :=
    lift (on_instance (Resume (cb_set (ch_b p)) (oe_launch (next (ch_b p))) (oe_save (next (ch_b p)))) t (ch_b p))
      (on_instance_ok _ t _ (Resume_ok _ _ _) (ch_ok p));
  Manager.inst_Destroy t p :=
    lift (on_instance (Destroy (oe_halt (next (ch_b p)))) t (ch_b p))
      (on_instance_ok _ t _ (reg_ok_Destroy _) (ch_ok p));
}.

Definition ch_boxes (p : CHProv) : list Box :=
  views (live (w_boxes (cb_world (ch_b p))) (w_heap (cb_world (ch_b p))) 0).

Lemma elem_of_ch_boxes p b : b ∈ ch_boxes p <->
  exists l i, b = Meta i /\ inst (cb_world (ch_b p)) l = Some i /\
    w_boxes (cb_world (ch_b p)) !! m_Token (i_meta i) = Some l.
Proof.
  unfold ch_boxes, views, inst. rewrite list_elem_of_fmap. split.
  - intros ([l i] & -> & (_ & Hi & Hb)%elem_of_live). rewrite Nat.sub_0_r in Hi. eauto.
  - intros (l & i & -> & Hi & Hb). exists (l, i). split; [done|]. apply elem_of_live.
    rewrite Nat.sub_0_r. auto with lia.
Qed.

Lemma ch_Find_ok x p b : backend_Find x (ch_b p) = Ok b ->
  b ∈ ch_boxes p /\ (box_InstanceID b = x \/ (box_BoxID b <> "" /\ box_BoxID b = x)).
Proof.
  rewrite elem_of_ch_boxes. destruct p as [b0 Hok]. simpl. unfold backend_Find, Find.
  destruct (w_boxes (cb_world b0) !! x) as [l|] eqn:Hx.
  - destruct (Hok _ _ Hx) as (i & Hi & <-). unfold inst. rewrite Hi. intros [= <-]. split; [|by left]. by exists l, i.
  - destruct (first_match _ _) as [l|] eqn:Hf; [|done]. apply first_match_elem in Hf as [Hin Hm].
    unfold registered in Hin. apply list_elem_of_fmap in Hin as ([t l'] & -> & Ht%elem_of_map_to_list).
    destruct (Hok _ _ Ht) as (i & Hi & Hti). simpl in *. unfold inst in *. rewrite Hi in *. bools.
    intros [= <-]. split; [|right; done]. exists l', i. rewrite Hti. auto.
Qed.

Lemma ch_Find_none x p b : backend_Find x (ch_b p) = Err ErrBoxNotFound -> b ∈ ch_boxes p ->
  ~ (box_InstanceID b = x \/ (box_BoxID b <> "" /\ box_BoxID b = x)).
Proof.
  rewrite elem_of_ch_boxes. destruct p as [b0 Hok]. simpl. unfold backend_Find, Find.
  intros Hf (l & i & -> & Hi & Hb) Hx. simpl in Hx. destruct (w_boxes (cb_world b0) !! x) as [l'|] eqn:Hl.
  - destruct (Hok _ _ Hl) as (j & Hj & _). unfold inst in Hf. by rewrite Hj in Hf.
  - destruct Hx as [<- |[Hne Heq]]; [congruence|].
    destruct (first_match _ _) as [l'|] eqn:Hfm.
    + apply first_match_elem in Hfm as [Hin Hm]. by destruct (inst _ l').
    + apply first_match_None in Hfm. rewrite Forall_forall in Hfm.
      assert (Hin : l ∈ registered (cb_world b0)).
      { unfold registered. apply list_elem_of_fmap. exists (m_Token (i_meta i), l).
        split; [done|]. by apply elem_of_map_to_list. }
      specialize (Hfm l Hin). simpl in Hfm. rewrite Hi in Hfm.
      apply String.eqb_neq in Hne. rewrite Hne, Heq, String.eqb_refl in Hfm. done.
Qed.

Lemma on_instance_effect op t b : (forall l w, inst_effect w (op l w).1) ->
  inst_effect (cb_world b) (cb_world (on_instance op t b).1).
Proof.
  intros Hop. unfold on_instance. destruct (newest _ _ _ _) as [l|]; [|by apply ie_same].
  specialize (Hop l (cb_world b)). by destruct (op l (cb_world b)) as [w []].
Qed.

Lemma live_absent bx h l t : (forall i, i ∈ h -> m_Token (i_meta i) <> t) -> others t (views (live bx h l)) = views (live bx h l).
Proof.
  intros Hh. apply others_new. intros (b & Hb & (x & -> & Hin)%list_elem_of_fmap)%list_elem_of_fmap.
  destruct x as [k i]. apply elem_of_live in Hin as (_ & Hi & _). simpl in Hb. subst.
  apply list_elem_of_lookup_2, Hh in Hi. done.
Qed.

Lemma newest_None t h l : newest t h l None = None -> forall i, i ∈ h -> m_Token (i_meta i) <> t.
Proof.
  assert (Hs : forall h l k, newest t h l (Some k) <> None).
  { induction h0 as [|i h0 IH]; intros l0 k; simpl; [done|]. destruct (String.eqb _ _); apply IH. }
  revert l. induction h as [|i h IH]; intros l; simpl; [set_solver|].
  destruct (String.eqb_spec (m_Token (i_meta i)) t); [intros Hn; by apply Hs in Hn|].
  intros Hn j [-> |Hj]%elem_of_cons; [done|]. by eapply IH.
Qed.

Lemma ch_Destroy_boxes id p p' r : Manager.inst_Destroy id p = (p', r) -> ch_boxes p' = others id (ch_boxes p).
Proof.
  destruct p as [b Hok]. intros Hd. injection Hd as <- _. unfold ch_boxes. cbn [ch_b]. unfold on_instance.
  destruct (newest id (w_heap (cb_world b)) 0 None) as [l|] eqn:Hn.
  - apply newest_spec in Hn as [?|(i & _ & Hi & Ht)]; [done|]. rewrite Nat.sub_0_r in Hi.
    pose proof (Destroy_effect (oe_halt (next b)) l (cb_world b)) as He. unfold inst in He. rewrite Hi, Ht in He.
    destruct He as [Hh Hb]. destruct (Destroy _ _ _) as [w []]; simpl in *; rewrite Hh, Hb;
      (apply views_hide; [intros t' Hne; by rewrite lookup_delete_ne|intros k _; by rewrite lookup_delete_eq]).
  - simpl. symmetry. apply live_absent. by eapply newest_None.
Qed.

#[export] Instance CH_ProvisionerLaws : Manager.ProvisionerLaws CHProv.
Proof.
  refine {| Manager.boxes := ch_boxes;
            Manager.handle b x := box_InstanceID b = x \/ (box_BoxID b <> "" /\ box_BoxID b = x) |}.
  - auto.
  - auto.
  - intros opts [b Hok] p' id Hp. injection Hp as <- Hr. simpl in *. unfold ch_boxes. cbn [ch_b].
    unfold backend_Provision in *. pose proof (Provision_reg (cb_set b) opts (oe_prov (next b)) (cb_world b)) as He.
    destruct (Provision _ _ _ _) as [w [l|e]]; [|done]. destruct He as (i & Hid & -> & Hh & Hb). simpl in *.
    rewrite Hh, Hb in *. rewrite lookup_app_r, Nat.sub_diag in Hr by lia. injection Hr as <-. exists (Meta i).
    split_and!; [|done|done]. rewrite live_app. unfold views. rewrite fmap_app. f_equal.
    + apply views_hide; [intros t' Ht; by rewrite lookup_insert_ne|].
      intros k Hk. rewrite lookup_insert_eq. intros [= <-]. lia.
    + simpl. by rewrite lookup_insert_eq, decide_True.
  - intros opts [b Hok] p' e Hp. injection Hp as <- Hr. unfold ch_boxes. cbn [ch_b].
    unfold backend_Provision in *. pose proof (Provision_reg (cb_set b) opts (oe_prov (next b)) (cb_world b)) as He.
    destruct (Provision _ _ _ _) as [w [l|e']]; [done|]. destruct He as [Hb Hh]. simpl. by rewrite Hb, Hh.
  - intros p l [= <-]. apply live_List, ch_ok.
  - apply ch_Find_ok.
  - apply ch_Find_none.
  - intros id p p' r Hd _. exact (ch_Destroy_boxes id p p' r Hd).
  - intros id p p' r Hd. rewrite (ch_Destroy_boxes id p p' r Hd). apply sublist_filter.
  - intros id [b Hok]. unfold ch_boxes. cbn. apply inst_effect_ids, on_instance_effect. intros. apply Pause_effect.
  - intros id [b Hok]. unfold ch_boxes. cbn. apply inst_effect_ids, on_instance_effect. intros. apply Resume_effect.
Defined.
End Interface.

Lemma boxes_ok_Permutation cfg ids ids' : ids ≡ₚ ids' -> boxes_ok cfg ids -> boxes_ok cfg ids'.
Proof.
  intros Hp (Hc & Hv & Hn). split_and!.
  - intros Hpos. rewrite <- Hp. by apply Hc.
  - by rewrite <- Hp.
  - by rewrite <- Hp.
Qed.

(** C19: The Cloud Hypervisor backend keeps what the manager expects of a provisioner,
    whatever the host, the VMM and the random source do: a manager that started
    with none of its boxes and went through any creations, destructions, pauses,
    resumes and policy pushes gets from the backend a listing of at most
    [MaxBoxes] boxes whose names are valid and distinct up to case. *)
Theorem manager_over_cloud_hypervisor :
  forall {H A} `{HostTools H} `{PolicyApplier A} (m m' : Manager (CHProv (H := H)) A) l,
  w_boxes (cb_world (ch_b (mg_prov m))) = ∅ ->
  rtc mgr_step m m' -> prov_List (mg_prov m') = Ok l -> boxes_ok (mg_cfg m') (box_BoxID <$> l).
Proof.
  intros H A HT PA m m' l Hempty Hr Hl.
  assert (H0 : mgr_ok m).
  { assert (Hb : boxes (mg_prov m) = []).
    { destruct (boxes (mg_prov m)) as [|b bs] eqn:Hb; [done|]. exfalso.
      assert (Hin : b ∈ ch_boxes (mg_prov m)) by (change (b ∈ boxes (mg_prov m)); rewrite Hb; set_solver).
      apply elem_of_ch_boxes in Hin as (k & i & _ & _ & Hk). by rewrite Hempty, lookup_empty in Hk. }
    unfold mgr_ok. rewrite Hb. split_and!; simpl; [lia|constructor|constructor]. }
  assert (Hok : mgr_ok m') by (clear Hl Hempty; induction Hr; eauto using mgr_step_ok).
  eapply boxes_ok_Permutation; [|exact Hok]. apply List_ok in Hl. by rewrite Hl.
Qed.

(** ** Concrete runs *)

Module Demo.

Definition limits0 : Limits := MkLimits 0 0 0 0 0 0.
Definition p : Settings :=
  MkSettings "/k" "/r" "/state" "spoke-a" limits0 [] [] EgressManaged 2 100000.
Definition good_launch : LaunchEnv := MkLaunchEnv true false (Ok 1000) true true true true true true true.
Definition env (n : Z) : ProvEnv := MkProvEnv (Some [0; 0; 0; 0; 0; n]) 7 good_launch true.
Definition bad_guest (n : Z) : ProvEnv :=
  MkProvEnv (Some [0; 0; 0; 0; 0; n]) 7 (MkLaunchEnv true false (Ok 1000) true true true true true true false) true.
Definition opts (id : string) : CreateOptions := MkCreateOptions id "" "" [] 0.
Definition host : SimHost := fresh_host.

Definition w0 : World SimHost := first_start host.
Definition w1 : World SimHost := (Provision p (opts "web") (env 1) w0).1.
Definition w2 : World SimHost := (Provision p (opts "db") (env 2) w1).1.

Lemma fresh (w : World SimHost) n : bool_decide (w_disk w !! hex_encode [0; 0; 0; 0; 0; n] = None) = true ->
  forall t, newToken (pe_rnd (env n)) = Some t -> w_disk w !! t = None /\ t <> "".
Proof. intros Hd t [= <-]. apply bool_decide_eq_true in Hd. split; [done|discriminate]. Qed.

Lemma reach1 : rtc (ch_step p) w0 w1.
Proof. eapply rtc_l; [|apply rtc_refl]. apply cs_provision. apply fresh. vm_compute. reflexivity. Qed.

Lemma reach2 : rtc (ch_step p) w0 w2.
Proof. eapply rtc_r; [apply reach1|]. apply cs_provision. apply fresh. vm_compute. reflexivity. Qed.

(** A manager over the backend; every operation to come gets the same answers. *)
Definition backend : Backend := MkBackend p w0 (fun n => MkOpEnv (env (Z.of_nat n)) good_launch true true) 0.
Lemma backend_ok : reg_ok (cb_world backend).
Proof. intros t l. cbn. by rewrite lookup_empty. Qed.
Definition mgr : Manager (CHProv (H := SimHost)) (Enforcer RecordingProgrammer) :=
  NewManager (MkCHProv backend backend_ok) None (MkConfig 2 "" 0 [] []).

End Demo.

Lemma Provision_spec_witness :
  exists m, w_boxes Demo.w1 = <["000000000001" := 0%nat]> ∅ /\ w_heap Demo.w1 = [MkInst m (Some 0%nat) false] /\
    m_NetIndex m = 0 /\ m_Egress m = true /\
    w_boxes (Provision Demo.p (Demo.opts "x") (Demo.bad_guest 9) Demo.w0).1 = ∅.
Proof.
  pose proof (Provision_spec Demo.p (Demo.opts "web") (Demo.env 1) Demo.w0 ltac:(constructor)
    (fun t Ht => proj1 (Demo.fresh Demo.w0 1 ltac:(vm_compute; reflexivity) t Ht))) as Hok.
  pose proof (Provision_spec Demo.p (Demo.opts "x") (Demo.bad_guest 9) Demo.w0 ltac:(constructor)
    (fun t Ht => proj1 (Demo.fresh Demo.w0 9 ltac:(vm_compute; reflexivity) t Ht))) as Hbad.
  destruct (Provision Demo.p (Demo.opts "x") (Demo.bad_guest 9) Demo.w0) as [wx [lx|ex]] eqn:Ex; [vm_compute in Ex; discriminate|].
  destruct Hbad as [Hb _].
  unfold Demo.w1. destruct (Provision Demo.p (Demo.opts "web") (Demo.env 1) Demo.w0) as [w [l|e]] eqn:E;
    [|vm_compute in E; discriminate].
  destruct Hok as (m & pid & cfg & Ht & _ & _ & _ & _ & Hh & -> & Hbx & _).
  assert (Hw : w = (Provision Demo.p (Demo.opts "web") (Demo.env 1) Demo.w0).1) by (rewrite E; reflexivity).
  assert (Hheap : w_heap w = [MkInst (with_slot (newMeta Demo.p (Demo.opts "web") "000000000001" 7) 0) (Some 0%nat) false])
    by (rewrite Hw; vm_compute; reflexivity).
  rewrite Hheap in Hh. simpl in Hh. injection Hh as <- _. exists (with_slot (newMeta Demo.p (Demo.opts "web") "000000000001" 7) 0).
  split; [exact Hbx|]. split; [exact Hheap|]. split; [reflexivity|]. split; [reflexivity|exact Hb].
Defined.



Lemma manager_over_cloud_hypervisor_witness :
  let m' := (create_locked (Demo.opts "web") Demo.mgr).1 in
  exists l, prov_List (mg_prov m') = Ok l /\ box_BoxID <$> l = ["web"] /\ boxes_ok (mg_cfg m') (box_BoxID <$> l).
Proof.
  intros m'. destruct (prov_List (mg_prov m')) as [l|e] eqn:Hl; [|discriminate].
  exists l. split; [reflexivity|]. split.
  - vm_compute in Hl. injection Hl as <-. reflexivity.
  - apply (manager_over_cloud_hypervisor Demo.mgr m' l); [reflexivity| |exact Hl].
    eapply rtc_l; [apply (ms_locked (Demo.opts "web"))|apply rtc_refl].
Defined.

(** A backend starts only on a host that can run boxes: the VMM is on the path,
    KVM and hardware virtualization are there, the images are readable; a managed
    pool needs root and its tools, and every device passed through is a
    well-formed reference on a host with an IOMMU. *)
Lemma newBackend_prerequisites {H} `{HostTools H} pr opts answers d vms pids (h : H) p w :
  newBackend pr opts answers d vms pids h = Ok (p, w) ->
  pr_kvm pr = true /\ pr_cpuVirt pr = Some true /\ kernelImage p <> "" /\ defaultRootfs p <> "" /\
  pr_readable pr (kernelImage p) = true /\ pr_readable pr (defaultRootfs p) = true /\
  (egressMode p = EgressManaged -> pr_euid pr = 0) /\
  (opt_DisableEgress opts = true -> egressMode p = EgressDisabled) /\
  Forall (fun a => validatePCIAddress a = true) (gpus p) /\
  Forall (fun m => validateMediatedDevice m = true) (mdevs p) /\
  (gpus p ++ mdevs p <> [] -> pr_iommu pr = true) /\ 0 < poolSize p.
Proof.
  unfold newBackend, buildProvisioner.
  destruct (resolveEgressMode _ _) as [mode|e] eqn:Hmode; [|done]. cbn [res_bind].
  destruct (validate _ _) as [|x xs] eqn:Hv; [|done].
  destruct (first_match _ (opt_GPUPassthrough opts)) eqn:Hg; [done|].
  destruct (first_match _ (opt_GPUMediatedDevices opts)) eqn:Hm; [done|]. cbn [res_bind].
  destruct (EnsureNetwork _ _) as [w' [[]|e]]; [|done]. intros [= <- <-]. simpl.
  unfold validate, preflightConfigFrom in Hv. simpl in Hv.
  repeat match type of Hv with _ ++ _ = [] => apply app_nil in Hv as [? Hv] end.
  apply first_match_None in Hg, Hm. destruct (pr_cpuVirt pr) as [[]|]; try done. destruct (pr_kvm pr); [|done].
  destruct (String.eqb_spec (opt_KernelImagePath opts) ""); [done|].
  destruct (String.eqb_spec (opt_RootfsImagePath opts) ""); [done|].
  destruct (pr_readable pr (opt_KernelImagePath opts)) eqn:?; [|done].
  destruct (pr_readable pr (opt_RootfsImagePath opts)) eqn:?; [|done].
  split_and!; try done.
  - intros ->. destruct (pr_euid pr =? 0) eqn:?; [by bools|done].
  - intros Hd. rewrite Hd in Hmode. by eapply resolveEgressMode_disable.
  - eapply Forall_impl; [exact Hg|]. intros a Ha. by apply negb_false_iff.
  - eapply Forall_impl; [exact Hm|]. intros a Ha. by apply negb_false_iff.
  - intros Hne. destruct (pr_iommu pr); [done|]. rewrite andb_true_r in Hv.
    destruct (Nat.ltb_spec 0 (length (opt_GPUPassthrough opts) + length (opt_GPUMediatedDevices opts))); [done|].
    rewrite <- length_app in *. destruct (opt_GPUPassthrough opts ++ opt_GPUMediatedDevices opts); [done|simpl in *; lia].
  - destruct (0 <? opt_PoolSize opts) eqn:?; [by bools|unfold defaultPoolSize; lia].
Qed.

(** ** Where the code parts from its comments *)

(** Nothing stops a resume of a running box: it boots a second VMM on the same
    writable disk and forgets the first. *)
Example resume_running_box_doubles_vmm :
  let w := (Resume Demo.p Demo.good_launch true 0 Demo.w1).1 in
  ((fun v => (vm_token v, vc_Disks (vm_cfg v))) <$> w_vms w,
   i_handle <$> w_heap w, length (w_vms (Destroy true 0 w).1)) =
  ([("000000000001", [("/state/000000000001/rootfs.ext4", false)]);
    ("000000000001", [("/state/000000000001/rootfs.ext4", false)])], [Some 1%nat], 1%nat).
Proof. vm_compute. reflexivity. Qed.

(** Destroying a box through a handle that outlived it frees a slot another box
    holds by now: the next box gets the same TAP and address. *)
Example stale_destroy_frees_a_held_slot :
  let w := (Destroy true 0 Demo.w1).1 in
  let w := (Provision Demo.p (Demo.opts "db") (Demo.env 2) w).1 in
  let '(w, r) := Destroy true 0 w in
  let w := (Provision Demo.p (Demo.opts "mail") (Demo.env 3) w).1 in
  (r, (fun i => (m_BoxID (i_meta i), m_NetIndex (i_meta i))) <$> omap (inst w) (List_ w)) =
  (Err (ErrNotFound "000000000001"), [("mail", 0); ("db", 0)]).
Proof. vm_compute. reflexivity. Qed.

(** A pause that waits for its VMM while the box is destroyed writes the box's
    metadata again: the box is back after the next restart. *)
Example pause_revives_destroyed_box :
  let w := (pause_begin true 0 Demo.w1).1 in
  let w := (Destroy true 0 w).1 in
  let w := (pause_finish true 0 w).1 in
  let w' := NewProvisioner Demo.p (fun _ => false) (w_disk w) (w_vms w) (w_pids w) (w_host w) in
  (List_ w, (fun i => (m_BoxID (i_meta i), m_Paused (i_meta i))) <$> omap (inst w') (List_ w')) = ([], [("web", true)]).
Proof. vm_compute. reflexivity. Qed.

(** The namespace is set after the boxes are reloaded and nothing filters them
    afterwards: a spoke takes over the boxes of every namespace in its directory. *)
Lemma NewProvisioner_ignores_namespace {H} (p : Settings) ns answers d vms pids (h : H) :
  NewProvisioner (SetNamespace ns p) answers d vms pids h = NewProvisioner p answers d vms pids h.
Proof. reflexivity. Qed.

Example other_namespace_listed :
  let w' := NewProvisioner (SetNamespace "spoke-b" Demo.p) (fun _ => true) (w_disk Demo.w1) (w_vms Demo.w1) 1 Demo.host in
  (fun i => (m_BoxID (i_meta i), m_Namespace (i_meta i))) <$> omap (inst w') (List_ w') = [("web", "spoke-a")].
Proof. vm_compute. reflexivity. Qed.
