(* ===== verification/Firecracker.v ===== *)
(** * The Firecracker backend (internal/spoke/firecracker)

    Boxes as jailed micro-VMs: each has a pool slot and a user id of its own, a
    directory with its metadata and disk, and a chroot.  Handles are locations of
    a heap of instances.  The operations are split where the code leaves its
    lock, and [fc_step] gives the interleavings of several of them. *)

From S2P Require Import Prelude GoStrings Regex Sandbox Sha256 Mvmnet Microvm.

Local Open Scope Z_scope.
Local Open Scope go_scope.

(** ** Metadata *)

Record boxMeta := MkMeta {
  m_Token : string;
  m_BoxID : string;
  m_Description : string;
  m_Image : string;
  m_Phase : string;
  m_Paused : bool;
  m_Created : Z;
  m_NetIndex : Z;
  m_UID : Z;
  m_GID : Z;
  m_ChrootBase : string;
  m_ExecBase : string;
  m_DiskBytes : Z;
  m_Namespace : string;
}.

#[export] Instance boxMeta_eq_dec : EqDecision boxMeta.
Proof. solve_decision. Defined.

Definition with_phase (m : boxMeta) (ph : string) : boxMeta :=
  MkMeta (m_Token m) (m_BoxID m) (m_Description m) (m_Image m) ph (m_Paused m) (m_Created m) (m_NetIndex m)
    (m_UID m) (m_GID m) (m_ChrootBase m) (m_ExecBase m) (m_DiskBytes m) (m_Namespace m).
Definition with_paused (m : boxMeta) (b : bool) : boxMeta :=
  MkMeta (m_Token m) (m_BoxID m) (m_Description m) (m_Image m) (m_Phase m) b (m_Created m) (m_NetIndex m)
    (m_UID m) (m_GID m) (m_ChrootBase m) (m_ExecBase m) (m_DiskBytes m) (m_Namespace m).

Definition boxDir (stateDir token : string) : string := path_Join [stateDir; token].

Definition runtimeDir (m : boxMeta) (stateDir : string) : string :=
  if String.eqb (m_ChrootBase m) "" then boxDir stateDir (m_Token m)
  else path_Join [m_ChrootBase m; m_ExecBase m; m_Token m; "root"].

Definition apiSockPath (m : boxMeta) (stateDir : string) : string := path_Join [runtimeDir m stateDir; "fc.sock"].
Definition vsockUDSPath (m : boxMeta) (stateDir : string) : string := path_Join [runtimeDir m stateDir; "vsock.sock"].

Definition chrootInstanceDir (m : boxMeta) : string :=
  if String.eqb (m_ChrootBase m) "" then "" else path_Join [m_ChrootBase m; m_ExecBase m; m_Token m].

Definition namePrefix (phase : string) : string :=
  if String.eqb phase "pending" then "llmbox-pending-" else "llmbox-".

Definition toBox (m : boxMeta) (state : string) : Box :=
  MkBox (m_Token m) (namePrefix (m_Phase m) +:+ m_Token m) (m_BoxID m) (m_Description m) "" (m_Image m)
    state "" (m_Phase m) "" (m_Created m) 0.

Definition loadMetas (d : StateDir boxMeta) : list boxMeta := load_metas m_Token d.

Definition boxAPISocketPath (vsockUDS : string) : string := vsockUDS +:+ "_" +:+ Itoa 5001.

(** ** The jailer *)

Record jailerConfig := MkJailer {
  jc_jailerBin : string;
  jc_execFile : string;
  jc_chrootBase : string;
  jc_uidMin : Z;
  jc_uidMax : Z;
  jc_gid : Z;
  jc_cgroupVersion : string;
}.

(** [filepath.Base] of a non-empty path without a trailing slash. *)
Definition path_Base (s : string) : string := default "" (last (Split s "/")).

Definition execBase (jc : jailerConfig) : string := path_Base (jc_execFile jc).

Definition defaultJailerConfig (stateDir cgroupVersion : string) : jailerConfig :=
  MkJailer "jailer" "firecracker" (path_Join [stateDir; "chroot"]) 100000 165535 100000 cgroupVersion.

Inductive prereq := NoFirecracker | NoJailer | NotRoot | NoKVM | BadUIDRange | BadGID.

(** [checkJailerPrereqs]: the binaries resolve, the spoke is root, KVM is there. *)
Definition checkJailerPrereqs (lookPath : string -> option string) (euid : Z) (kvm : bool) (jc : jailerConfig) :
    jailerConfig * list prereq :=
  let fc := lookPath (jc_execFile jc) in
  let ja := lookPath (jc_jailerBin jc) in
  let jc' := MkJailer (default (jc_jailerBin jc) ja) (default (jc_execFile jc) fc) (jc_chrootBase jc)
               (jc_uidMin jc) (jc_uidMax jc) (jc_gid jc) (jc_cgroupVersion jc) in
  (jc', (if fc then [] else [NoFirecracker]) ++ (if ja then [] else [NoJailer]) ++
        (if euid =? 0 then [] else [NotRoot]) ++ (if kvm then [] else [NoKVM]) ++
        (if (jc_uidMin jc <=? 0) || (jc_uidMax jc <? jc_uidMin jc) then [BadUIDRange] else []) ++
        (if jc_gid jc <=? 0 then [BadGID] else [])).

(** What the SDK launches: the part of [fcsdk.Config] the code sets. *)
Record fcConfig := MkFcConfig {
  fc_SocketPath : string;
  fc_KernelImage : string;
  fc_KernelArgs : string;
  fc_Drives : list (string * string * bool * bool);
  fc_Vcpu : Z;
  fc_Mem : Z;
  fc_VsockPath : string;
  fc_UID : Z;
  fc_GID : Z;
  fc_ID : string;
  fc_ExecFile : string;
  fc_JailerBinary : string;
  fc_ChrootBaseDir : string;
  fc_CgroupVersion : string;
  fc_NumaNode : Z;
  fc_Daemonize : bool;
  fc_ForwardSignals : list Z;
  fc_Nics : list (string * string);
}.

(** [realMachineFactory]: the sockets as the chrooted VMM sees them. *)
Definition realMachineConfig (c : fcConfig) : fcConfig :=
  MkFcConfig (path_Base (fc_SocketPath c)) (fc_KernelImage c) (fc_KernelArgs c) (fc_Drives c) (fc_Vcpu c) (fc_Mem c)
    (path_Base (fc_VsockPath c)) (fc_UID c) (fc_GID c) (fc_ID c) (fc_ExecFile c) (fc_JailerBinary c)
    (fc_ChrootBaseDir c) (fc_CgroupVersion c) (fc_NumaNode c) (fc_Daemonize c) (fc_ForwardSignals c) (fc_Nics c).

(** ** The provisioner *)

Definition fcNet : NetConfig := MkNetConfig "llmboxfc" "172.16" 0 "".
Definition newHostEgress (uplink : string) (tapGroup : Z) : NetConfig :=
  MkNetConfig (nc_TapPrefix fcNet) (nc_SubnetBase fcNet) tapGroup uplink.
Definition netFor (index : Z) : BoxNet := NetFor fcNet index.

Definition macForIndex (index : Z) : string :=
  "AA:FC:00:00:" +:+ hex_byte true (Z.land (Z.shiftr index 8) 255) +:+ ":" +:+ hex_byte true (Z.land index 255).

Definition defaultPoolSize : Z := 16.

(** Its settings; [ports]: whether boxes may publish ports. *)
Record Settings := MkSettings {
  kernelImage : string;
  defaultRootfs : string;
  payloadImage : string;
  stateDir : string;
  namespace : string;
  limits : Limits;
  egressMode : EgressMode;
  poolSize : Z;
  ports : bool;
  jailer : jailerConfig;
}.

Record vmm := MkVmm { vm_pid : nat; vm_token : string; vm_cfg : fcConfig }.

(** [i_api]: the box-port listener is open. *)
Record fcInstance := MkInst { i_meta : boxMeta; i_machine : option nat; i_api : bool; i_alive : bool }.

Record World (H : Type) := MkWorld {
  w_boxes : gmap string nat;
  w_used : gset Z;
  w_usedUIDs : gset Z;
  w_heap : list fcInstance;
  w_pool : option (res EgressError ());
  w_disk : StateDir boxMeta;
  w_chroots : gset string;
  w_vms : list vmm;
  w_pids : nat;
  w_host : H;
}.
Arguments MkWorld {H}.
Arguments w_boxes {H}.
Arguments w_used {H}.
Arguments w_usedUIDs {H}.
Arguments w_heap {H}.
Arguments w_pool {H}.
Arguments w_disk {H}.
Arguments w_chroots {H}.
Arguments w_vms {H}.
Arguments w_pids {H}.
Arguments w_host {H}.

Inductive fcError :=
| ErrInvalidBoxID (id : string) | ErrNoImages | ErrEgress (e : EgressError) | ErrToken | ErrNoSlot | ErrNoUID
| ErrStat | ErrMkdir | ErrCopy | ErrResize | ErrChown | ErrClearChroot | ErrCreateVM | ErrStartVM | ErrBoxAPI | ErrChownAPI
| ErrGuest | ErrSave | ErrNotFound (x : string) | ErrResume (token : string) (e : fcError) | ErrPersist (token : string).

(** What the host answers to a boot: clearing a stale chroot, creating and
    starting the machine, serving and handing over the box-port socket, the
    guest's first answer, and whether a stop during clean-up takes effect. *)
Record BootEnv := MkBootEnv {
  be_clear : bool; be_new : bool; be_start : bool; be_api : bool; be_chownAPI : bool; be_guest : bool; be_stop : bool;
}.

Record ProvEnv := MkProvEnv {
  pe_rnd : option (list Z); pe_now : Z; pe_stat : option Z; pe_mkdir : bool; pe_copy : bool; pe_truncate : bool;
  pe_chown : bool; pe_boot : BootEnv; pe_save : bool;
}.

Section Provisioner.
Context {H : Type} `{HostTools H}.
Abbreviation world := (World H).
Implicit Types (p : Settings) (w : World H).

Definition set_boxes (f : gmap string nat -> gmap string nat) w : world :=
  MkWorld (f (w_boxes w)) (w_used w) (w_usedUIDs w) (w_heap w) (w_pool w) (w_disk w) (w_chroots w) (w_vms w) (w_pids w) (w_host w).
Definition set_slots (f g : gset Z -> gset Z) w : world :=
  MkWorld (w_boxes w) (f (w_used w)) (g (w_usedUIDs w)) (w_heap w) (w_pool w) (w_disk w) (w_chroots w) (w_vms w) (w_pids w) (w_host w).
Definition set_heap (f : list fcInstance -> list fcInstance) w : world :=
  MkWorld (w_boxes w) (w_used w) (w_usedUIDs w) (f (w_heap w)) (w_pool w) (w_disk w) (w_chroots w) (w_vms w) (w_pids w) (w_host w).
Definition set_disk (f : StateDir boxMeta -> StateDir boxMeta) w : world :=
  MkWorld (w_boxes w) (w_used w) (w_usedUIDs w) (w_heap w) (w_pool w) (f (w_disk w)) (w_chroots w) (w_vms w) (w_pids w) (w_host w).
Definition set_chroots (f : gset string -> gset string) w : world :=
  MkWorld (w_boxes w) (w_used w) (w_usedUIDs w) (w_heap w) (w_pool w) (w_disk w) (f (w_chroots w)) (w_vms w) (w_pids w) (w_host w).
Definition set_vms (f : list vmm -> list vmm) w : world :=
  MkWorld (w_boxes w) (w_used w) (w_usedUIDs w) (w_heap w) (w_pool w) (w_disk w) (w_chroots w) (f (w_vms w)) (w_pids w) (w_host w).

(** *** Settings *)

Definition set_jailer p (jc : jailerConfig) : Settings :=
  MkSettings (kernelImage p) (defaultRootfs p) (payloadImage p) (stateDir p) (namespace p) (limits p) (egressMode p)
    (poolSize p) (ports p) jc.
Definition SetNetworking (enabled : bool) p : Settings :=
  MkSettings (kernelImage p) (defaultRootfs p) (payloadImage p) (stateDir p) (namespace p) (limits p)
    (if enabled then EgressManaged else EgressDisabled) (poolSize p) (ports p) (jailer p).
Definition SetPoolSize (n : Z) p : Settings :=
  MkSettings (kernelImage p) (defaultRootfs p) (payloadImage p) (stateDir p) (namespace p) (limits p) (egressMode p)
    (if 0 <? n then n else poolSize p) (ports p) (jailer p).
Definition SetUIDRange (min max : Z) p : Settings :=
  let jc := jailer p in
  if (0 <? min) && (min <=? max)
  then set_jailer p (MkJailer (jc_jailerBin jc) (jc_execFile jc) (jc_chrootBase jc) min max (jc_gid jc) (jc_cgroupVersion jc))
  else p.
Definition SetTapGroup (gid : Z) p : Settings :=
  let jc := jailer p in
  if 0 <? gid
  then set_jailer p (MkJailer (jc_jailerBin jc) (jc_execFile jc) (jc_chrootBase jc) (jc_uidMin jc) (jc_uidMax jc) gid (jc_cgroupVersion jc))
  else p.
Definition SetChrootBase (dir : string) p : Settings :=
  let jc := jailer p in
  if String.eqb dir "" then p
  else set_jailer p (MkJailer (jc_jailerBin jc) (jc_execFile jc) dir (jc_uidMin jc) (jc_uidMax jc) (jc_gid jc) (jc_cgroupVersion jc)).
Definition SetJailerBinary (bin : string) p : Settings :=
  let jc := jailer p in
  if String.eqb bin "" then p
  else set_jailer p (MkJailer bin (jc_execFile jc) (jc_chrootBase jc) (jc_uidMin jc) (jc_uidMax jc) (jc_gid jc) (jc_cgroupVersion jc)).
Definition SetFirecrackerBinary (bin : string) p : Settings :=
  let jc := jailer p in
  if String.eqb bin "" then p
  else set_jailer p (MkJailer (jc_jailerBin jc) bin (jc_chrootBase jc) (jc_uidMin jc) (jc_uidMax jc) (jc_gid jc) (jc_cgroupVersion jc)).
Definition SetCgroupVersion (v : string) p : Settings :=
  let jc := jailer p in
  if String.eqb v "" then p
  else set_jailer p (MkJailer (jc_jailerBin jc) (jc_execFile jc) (jc_chrootBase jc) (jc_uidMin jc) (jc_uidMax jc) (jc_gid jc) v).

Definition guestNetEnabled p : bool := negb (bool_decide (egressMode p = EgressDisabled)).

(** *** Sizing *)

Definition diskBytesFor p (requested baseBytes : Z) : Z := Z.max baseBytes (disk_request (limits p) requested).

Definition vcpuCount p : Z :=
  if lim_NanoCPUs (limits p) <=? 0 then defaultVCPUs
  else
    let n := Z.max 1 (ceil_cpus (lim_NanoCPUs (limits p))) in
    if (1 <? n) && (Z.rem n 2 =? 1) then n + 1 else n.

(** *** Slots and user ids *)

Definition EnsureNetwork p : go world fcError () := fun w =>
  let once (act : go H EgressError ()) :=
    match w_pool w with
    | Some r => (w, r)
    | None =>
        let '(h, r) := act (w_host w) in
        (MkWorld (w_boxes w) (w_used w) (w_usedUIDs w) (w_heap w) (Some r) (w_disk w) (w_chroots w) (w_vms w) (w_pids w) h, r)
    end in
  let wrap (wr : world * res EgressError ()) :=
    (wr.1, match wr.2 with Ok _ => Ok () | Err e => Err (ErrEgress e) end) in
  match egressMode p with
  | EgressDisabled => (w, Ok ())
  | EgressExternal => wrap (once (ValidatePool (newHostEgress "" 0) (poolSize p)))
  | EgressManaged => wrap (once (EnsurePool (newHostEgress "" (jc_gid (jailer p))) (poolSize p)))
  end.

Definition allocIndexLocked p w : option (Z * world) :=
  match alloc_from (Z.to_nat (poolSize p)) 0 (w_used w) with
  | Some i => Some (i, set_slots (fun u => {[i]} ∪ u) id w)
  | None => None
  end.

Definition allocUIDLocked p w : option (Z * world) :=
  match alloc_from (Z.to_nat (jc_uidMax (jailer p) - jc_uidMin (jailer p) + 1)) (jc_uidMin (jailer p)) (w_usedUIDs w) with
  | Some uid => Some (uid, set_slots id (fun u => {[uid]} ∪ u) w)
  | None => None
  end.

Definition newMeta p (opts : CreateOptions) (token : string) (now index uid : Z) : boxMeta :=
  MkMeta token (co_BoxID opts) (co_Description opts) (defaultRootfs p) "pending" false now index uid
    (jc_gid (jailer p)) (jc_chrootBase (jailer p)) (execBase (jailer p)) 0 (namespace p).

(** [Provision] up to the end of its first locked section. *)
Definition reserve p (opts : CreateOptions) (env : ProvEnv) : go world fcError boxMeta :=
  if negb (String.eqb (co_BoxID opts) "") && negb (ValidBoxID (co_BoxID opts)) then go_fail (ErrInvalidBoxID (co_BoxID opts))
  else if String.eqb (kernelImage p) "" || String.eqb (defaultRootfs p) "" then go_fail ErrNoImages
  else
    let* _ := EnsureNetwork p in
    match newToken (pe_rnd env) with
    | None => go_fail ErrToken
    | Some token => fun w =>
        match allocIndexLocked p w with
        | None => (w, Err ErrNoSlot)
        | Some (index, w1) =>
            match allocUIDLocked p w1 with
            | None => (set_slots (fun u => u ∖ {[index]}) id w1, Err ErrNoUID)
            | Some (uid, w2) => (w2, Ok (newMeta p opts token (pe_now env) index uid))
            end
        end
    end.

Definition freeSlot (m : boxMeta) : world -> world := set_slots (fun u => u ∖ {[m_NetIndex m]}) (fun u => u ∖ {[m_UID m]}).

(** *** Booting *)

Definition kernelArgs0 : string := "console=ttyS0 reboot=k panic=1 pci=off net.ifnames=0 init=/init".

Definition machineConfig p (m : boxMeta) : fcConfig :=
  let n := netFor (m_NetIndex m) in
  let jc := jailer p in
  MkFcConfig (apiSockPath m (stateDir p)) (kernelImage p)
    (if guestNetEnabled p then kernelArgs0 +:+ " " +:+ KernelIPArg n else kernelArgs0)
    (("rootfs", path_Join [boxDir (stateDir p) (m_Token m); "rootfs.ext4"], true, false) ::
     (if String.eqb (payloadImage p) "" then [] else [("payload", payloadImage p, false, true)]))
    (vcpuCount p) (memSizeMib (limits p)) (vsockUDSPath m (stateDir p))
    (m_UID m) (jc_gid jc) (m_Token m) (jc_execFile jc) (jc_jailerBin jc) (jc_chrootBase jc) (jc_cgroupVersion jc) 0 true []
    (if guestNetEnabled p then [(macForIndex (m_NetIndex m), bn_TapName n)] else []).

Definition remove_chroot (m : boxMeta) : world -> world :=
  set_chroots (fun s => if String.eqb (chrootInstanceDir m) "" then s else s ∖ {[chrootInstanceDir m]}).

Definition stop_vm (pid : nat) : world -> world := set_vms (filter (fun v => vm_pid v <> pid)).

(** A started machine: a process, in a chroot the jailer has made. *)
Definition start_vm (m : boxMeta) (cfg : fcConfig) w : world :=
  MkWorld (w_boxes w) (w_used w) (w_usedUIDs w) (w_heap w) (w_pool w) (w_disk w)
    (if String.eqb (chrootInstanceDir m) "" then w_chroots w else {[chrootInstanceDir m]} ∪ w_chroots w)
    (MkVmm (w_pids w) (m_Token m) cfg :: w_vms w) (S (w_pids w)) (w_host w).

Definition bootMachine p (env : BootEnv) (m : boxMeta) : go world fcError (nat * bool) := fun w =>
  if negb (String.eqb (chrootInstanceDir m) "") && negb (be_clear env) then (w, Err ErrClearChroot)
  else
    let w1 := remove_chroot m w in
    if negb (be_new env) then (w1, Err ErrCreateVM)
    else if negb (be_start env) then (w1, Err ErrStartVM)
    else
      let pid := w_pids w1 in
      let w2 := start_vm m (machineConfig p m) w1 in
      let cleanup := remove_chroot m (if be_stop env then stop_vm pid w2 else w2) in
      if ports p && negb (be_api env) then (cleanup, Err ErrBoxAPI)
      else if ports p && negb (be_chownAPI env) then (cleanup, Err ErrChownAPI)
      else if negb (be_guest env) then (cleanup, Err ErrGuest)
      else (w2, Ok (pid, ports p)).

Definition save (ok : bool) (m : boxMeta) w : world * bool :=
  let '(d, r) := save_meta ok (m_Token m) m (w_disk w) in (set_disk (fun _ => d) w, r).

Definition remove_box (token : string) : world -> world := set_disk (delete token).

Definition with_disk (m : boxMeta) (n : Z) : boxMeta :=
  MkMeta (m_Token m) (m_BoxID m) (m_Description m) (m_Image m) (m_Phase m) (m_Paused m) (m_Created m) (m_NetIndex m)
    (m_UID m) (m_GID m) (m_ChrootBase m) (m_ExecBase m) n (m_Namespace m).

(** The unlocked middle of [Provision]: the disk, the boot, the metadata; on
    failure everything is given back. *)
Definition build p (opts : CreateOptions) (env : ProvEnv) (m0 : boxMeta) : go world fcError (boxMeta * nat * bool) := fun w =>
  let token := m_Token m0 in
  let undo := fun w' => freeSlot m0 (remove_box token w') in
  match pe_stat env with
  | None => (freeSlot m0 w, Err ErrStat)
  | Some base =>
      if negb (pe_mkdir env) then (freeSlot m0 w, Err ErrMkdir)
      else
        let w1 := set_disk (mkdir_box token) w in
        if negb (pe_copy env) then (undo w1, Err ErrCopy)
        else
          let diskBytes := diskBytesFor p (co_DiskBytes opts) base in
          let m := with_disk m0 diskBytes in
          let w2 := set_disk (write_rootfs token (Some base)) w1 in
          if (base <? diskBytes) && negb (pe_truncate env) then (undo w2, Err ErrResize)
          else
            let w3 := if base <? diskBytes then set_disk (write_rootfs token (Some diskBytes)) w2 else w2 in
            if negb (pe_chown env) then (undo w3, Err ErrChown)
            else
              match bootMachine p (pe_boot env) m w3 with
              | (w4, Err e) => (freeSlot m0 (remove_chroot m (remove_box token w4)), Err e)
              | (w4, Ok (pid, api)) =>
                  match save (pe_save env) m w4 with
                  | (w5, true) => (w5, Ok (m, pid, api))
                  | (w5, false) =>
                      (freeSlot m0 (remove_chroot m (remove_box token
                         (if be_stop (pe_boot env) then stop_vm pid w5 else w5))), Err ErrSave)
                  end
              end
  end.

Definition register (mpa : boxMeta * nat * bool) : go world fcError nat := fun w =>
  let '(m, pid, api) := mpa in
  let l := length (w_heap w) in
  (set_boxes (<[m_Token m := l]>) (set_heap (fun h => h ++ [MkInst m (Some pid) api false]) w), Ok l).

Definition Provision p (opts : CreateOptions) (env : ProvEnv) : go world fcError nat :=
  let* m := reserve p opts env in
  let* mpa := build p opts env m in
  register mpa.

(** *** Instances *)

Definition inst w (l : nat) : option fcInstance := w_heap w !! l.

Definition Meta (i : fcInstance) : Box :=
  toBox (i_meta i)
    (if m_Paused (i_meta i) then StatePaused
     else if bool_decide (is_Some (i_machine i)) || i_alive i then "running" else "stopped").

(** [List]: the boxes of the provisioner's namespace, in the order of the map. *)
Definition in_namespace p (i : fcInstance) : bool :=
  String.eqb (namespace p) "" || String.eqb (m_Namespace (i_meta i)) (namespace p).

Definition List_ p w : list nat :=
  filter (fun l => from_option (in_namespace p) false (inst w l) = true) (map_to_list (w_boxes w)).*2.

(** The handles [Find] accepts. *)
Definition answers_to (x : string) (i : fcInstance) : bool :=
  let b := Meta i in
  String.eqb (box_InstanceID b) x ||
  (negb (String.eqb (box_BoxID b) "") && String.eqb (box_BoxID b) x) ||
  String.eqb (box_Name b) x ||
  HasPrefix (box_InstanceID b) x ||
  String.eqb (box_Name b) (namePrefix "pending" +:+ x) ||
  String.eqb (box_Name b) (namePrefix "ready" +:+ x).

Definition Find p (x : string) w : res fcError nat :=
  match first_match (fun l => match inst w l with Some i => answers_to x i | None => false end) (List_ p w) with
  | Some l => Ok l
  | None => Err (ErrNotFound x)
  end.

(** [Close]: the listeners are closed, the VMs left alone. *)
Definition Close w : world :=
  let open := (map_to_list (w_boxes w)).*2 in
  set_heap (imap (fun l i => if decide (l ∈ open) then MkInst (i_meta i) (i_machine i) false (i_alive i) else i)) w.

Definition upd (l : nat) (f : fcInstance -> fcInstance) : world -> world := set_heap (fun h => alter f l h).

(** [haltVMM] reaches the VMM that bound the box's API socket last. *)
Fixpoint remove_token (token : string) (l : list vmm) : list vmm :=
  match l with
  | [] => []
  | v :: l' => if String.eqb (vm_token v) token then l' else v :: remove_token token l'
  end.

(** Stopping a box's compute: its machine, or the orphan of a previous run. *)
Definition stopCompute (stop : bool) (i : fcInstance) : world -> world :=
  match i_machine i with
  | Some pid => if stop then stop_vm pid else id
  | None => if i_alive i && stop then set_vms (remove_token (m_Token (i_meta i))) else id
  end.

Definition set_phase_ready (i : fcInstance) : fcInstance :=
  MkInst (with_phase (i_meta i) "ready") (i_machine i) (i_api i) (i_alive i).

Definition MarkReady (ok : bool) (l : nat) : go world fcError () := fun w =>
  match inst w l with
  | None => (w, Ok ())
  | Some i =>
      let w1 := upd l set_phase_ready w in
      let w2 := match w_boxes w !! m_Token (i_meta i) with
                | Some l' => upd l' set_phase_ready w1
                | None => w1
                end in
      match save ok (with_phase (i_meta i) "ready") w2 with
      | (w3, true) => (w3, Ok ())
      | (w3, false) => (w3, Err (ErrPersist (m_Token (i_meta i))))
      end
  end.

Definition pause_begin (stop : bool) (l : nat) : go world fcError () := fun w =>
  match inst w l with
  | None => (w, Err (ErrNotFound ""))
  | Some i =>
      match w_boxes w !! m_Token (i_meta i) with
      | None => (w, Err (ErrNotFound (m_Token (i_meta i))))
      | Some _ => (stopCompute stop i w, Ok ())
      end
  end.

Definition set_paused (i : fcInstance) : fcInstance := MkInst (with_paused (i_meta i) true) None false false.

Definition pause_finish (ok : bool) (l : nat) : go world fcError () := fun w =>
  match inst w l with
  | None => (w, Ok ())
  | Some i =>
      match save ok (with_paused (i_meta i) true) (upd l set_paused w) with
      | (w', true) => (w', Ok ())
      | (w', false) => (w', Err (ErrPersist (m_Token (i_meta i))))
      end
  end.

Definition Pause (stop ok : bool) (l : nat) : go world fcError () :=
  let* _ := pause_begin stop l in
  pause_finish ok l.

Definition resume_begin p (env : BootEnv) (l : nat) : go world fcError (nat * bool) := fun w =>
  match inst w l with
  | None => (w, Err (ErrNotFound ""))
  | Some i =>
      match w_boxes w !! m_Token (i_meta i) with
      | None => (w, Err (ErrNotFound (m_Token (i_meta i))))
      | Some _ =>
          match bootMachine p env (i_meta i) w with
          | (w1, Ok pa) => (w1, Ok pa)
          | (w1, Err e) => (w1, Err (ErrResume (m_Token (i_meta i)) e))
          end
      end
  end.

Definition set_resumed (pa : nat * bool) (i : fcInstance) : fcInstance :=
  MkInst (with_paused (i_meta i) false) (Some pa.1) pa.2 false.

Definition resume_finish (ok : bool) (l : nat) (pa : nat * bool) : go world fcError () := fun w =>
  match inst w l with
  | None => (w, Ok ())
  | Some i =>
      match save ok (with_paused (i_meta i) false) (upd l (set_resumed pa) w) with
      | (w', true) => (w', Ok ())
      | (w', false) => (w', Err (ErrPersist (m_Token (i_meta i))))
      end
  end.

Definition Resume p (env : BootEnv) (ok : bool) (l : nat) : go world fcError () :=
  let* pa := resume_begin p env l in
  resume_finish ok l pa.

(** The locked part of [Destroy]. *)
Definition deregister (l : nat) : go world fcError bool := fun w =>
  match inst w l with
  | None => (w, Err (ErrNotFound ""))
  | Some i =>
      let token := m_Token (i_meta i) in
      (freeSlot (i_meta i) (set_boxes (delete token) w), Ok (bool_decide (is_Some (w_boxes w !! token))))
  end.

Definition destroy_finish (stop : bool) (l : nat) (present : bool) : go world fcError () := fun w =>
  match inst w l with
  | None => (w, Ok ())
  | Some i =>
      let w1 := remove_chroot (i_meta i) (remove_box (m_Token (i_meta i)) (stopCompute stop i w)) in
      (w1, if present then Ok () else Err (ErrNotFound (m_Token (i_meta i))))
  end.

Definition Destroy (stop : bool) (l : nat) : go world fcError () :=
  let* present := deregister l in
  destroy_finish stop l present.

(** *** Restart *)

(** [answers]: whose VMM accepts a connection; [serves]: whose box-port listener
    could be opened again. *)
Definition rehydrate_one p (answers serves : string -> bool) w (m : boxMeta) : world :=
  let i := MkInst m None (ports p && serves (m_Token m)) (answers (m_Token m)) in
  set_slots (fun u => {[m_NetIndex m]} ∪ u) (fun u => if 0 <? m_UID m then {[m_UID m]} ∪ u else u)
    (set_boxes (<[m_Token m := length (w_heap w)]>) (set_heap (fun h => h ++ [i]) w)).

Definition rehydrate p (answers serves : string -> bool) w : world :=
  fold_left (rehydrate_one p answers serves) (loadMetas (w_disk w)) w.

Definition NewProvisioner p (answers serves : string -> bool) (d : StateDir boxMeta) (chroots : gset string)
    (vms : list vmm) (pids : nat) (h : H) : world :=
  rehydrate p answers serves (MkWorld ∅ ∅ ∅ [] None d chroots vms pids h).
End Provisioner.

(** ** The operator's pool commands (networkpool.go) *)

Record PoolConfig := MkPoolConfig { pc_Size : Z; pc_TapGroupGID : Z; pc_Uplink : string }.

Definition defaultFcGID : Z := 100000.

Definition resolve (c : PoolConfig) : PoolConfig :=
  MkPoolConfig (if pc_Size c <=? 0 then defaultPoolSize else pc_Size c)
    (if pc_TapGroupGID c <=? 0 then defaultFcGID else pc_TapGroupGID c) (pc_Uplink c).

Inductive poolError := ErrNeedsRoot | ErrProvisioning (e : EgressError).

Definition SetupNetworkPool {H} `{HostTools H} (euid : Z) (cfg : PoolConfig) : go H poolError () := fun h =>
  let cfg := resolve cfg in
  if negb (euid =? 0) then (h, Err ErrNeedsRoot)
  else match EnsurePool (newHostEgress (pc_Uplink cfg) (pc_TapGroupGID cfg)) (pc_Size cfg) h with
       | (h', Ok _) => (h', Ok ())
       | (h', Err e) => (h', Err (ErrProvisioning e))
       end.

Definition TeardownNetworkPool {H} `{HostTools H} (euid : Z) (cfg : PoolConfig) : go H poolError () := fun h =>
  let cfg := resolve cfg in
  if negb (euid =? 0) then (h, Err ErrNeedsRoot)
  else match TeardownPool (newHostEgress (pc_Uplink cfg) 0) (pc_Size cfg) h with
       | (h', Ok _) => (h', Ok ())
       | (h', Err e) => (h', Err (ErrProvisioning e))
       end.

Definition poolFlagHint (cfg : PoolConfig) : string :=
  (if pc_Size cfg =? defaultPoolSize then "" else " --pool-size " +:+ Itoa (pc_Size cfg)) +:+
  (if pc_TapGroupGID cfg =? defaultFcGID then "" else " --tap-group " +:+ Itoa (pc_TapGroupGID cfg)).

(** ** The operator's box commands (operator.go) *)

Record VMStatus := MkVMStatus {
  vs_Token : string; vs_BoxID : string; vs_Namespace : string; vs_Phase : string;
  vs_Paused : bool; vs_Running : bool; vs_NetIndex : Z; vs_Created : Z;
}.

Definition created_le (a b : boxMeta) : Prop := m_Created a <= m_Created b.
#[export] Instance created_le_dec : RelDecision created_le.
Proof. intros a b. unfold created_le. apply _. Defined.

(** [ListVMs]: every box on disk, oldest first. *)
Definition ListVMs (d : StateDir boxMeta) (running : string -> bool) : list VMStatus :=
  (fun m => MkVMStatus (m_Token m) (m_BoxID m) (m_Namespace m) (m_Phase m) (m_Paused m) (running (m_Token m))
              (m_NetIndex m) (m_Created m)) <$> merge_sort created_le (loadMetas d).

Inductive opError := ErrVMNotFound (x : string) | ErrAmbiguous (x : string) (n : nat) | ErrHalting (t : string) | ErrRemoving (t : string)
| ErrRemovingChroot (t : string).

Definition exact_match (x : string) (m : boxMeta) : bool :=
  String.eqb (m_Token m) x || (negb (String.eqb (m_BoxID m) "") && String.eqb (m_BoxID m) x).

(** [resolveMeta], with the prefix matches collected so far. *)
Fixpoint resolve_loop (metas prefixed : list boxMeta) (x : string) : res opError boxMeta :=
  match metas with
  | [] =>
      match prefixed with
      | [m] => Ok m
      | [] => Err (ErrVMNotFound x)
      | _ => Err (ErrAmbiguous x (length prefixed))
      end
  | m :: metas' =>
      if exact_match x m then Ok m
      else resolve_loop metas' (if HasPrefix (m_Token m) x then prefixed ++ [m] else prefixed) x
  end.

Definition resolveMeta (metas : list boxMeta) (x : string) : res opError boxMeta := resolve_loop metas [] x.

(** [destroyBox] on the box directories and the jailer's chroots: [running] tells
    whose VMM answers, [halts] whose VMM obeys, [removes] and [clears] whose
    directory and chroot could be removed. *)
Record OpHost := MkOpHost {
  oh_running : string -> bool; oh_halts : string -> bool; oh_removes : string -> bool; oh_clears : string -> bool;
}.

Abbreviation OpFiles := (StateDir boxMeta * gset string)%type.

Definition destroyBox (o : OpHost) (m : boxMeta) : go OpFiles opError () := fun '(d, ch) =>
  let t := m_Token m in
  if oh_running o t && negb (oh_halts o t) then ((d, ch), Err (ErrHalting t))
  else if negb (oh_removes o t) then ((d, ch), Err (ErrRemoving t))
  else if String.eqb (chrootInstanceDir m) "" then ((delete t d, ch), Ok ())
  else if oh_clears o t then ((delete t d, ch ∖ {[chrootInstanceDir m]}), Ok ())
  else ((delete t d, ch), Err (ErrRemovingChroot t)).

Definition destroyedStatus (m : boxMeta) : VMStatus :=
  MkVMStatus (m_Token m) (m_BoxID m) (m_Namespace m) (m_Phase m) false false 0 0.

Definition DestroyVM (o : OpHost) (x : string) : go OpFiles opError VMStatus := fun s =>
  match resolveMeta (loadMetas s.1) x with
  | Err e => (s, Err e)
  | Ok m => (let* _ := destroyBox o m in go_ret (destroyedStatus m)) s
  end.

(** [DestroyAllVMs] goes on after a failure; the boxes destroyed and the errors. *)
Fixpoint destroy_all (o : OpHost) (ms : list boxMeta) (s : OpFiles) : OpFiles * (list VMStatus * list opError) :=
  match ms with
  | [] => (s, ([], []))
  | m :: ms' =>
      let '(s1, r) := destroyBox o m s in
      let '(s2, (gone, errs)) := destroy_all o ms' s1 in
      match r with
      | Ok _ => (s2, (destroyedStatus m :: gone, errs))
      | Err e => (s2, (gone, e :: errs))
      end
  end.

Definition DestroyAllVMs (o : OpHost) (s : OpFiles) : OpFiles * (list VMStatus * list opError) :=
  destroy_all o (merge_sort created_le (loadMetas s.1)) s.

(** ** Start-up (register.go) *)

(** [ensureAssetsReadable]; [chgrp] tells whether an asset could be handed to the
    jailer group. *)
Definition ensureAssetsReadable (euid : Z) (chgrp : string -> bool) (paths : list string) : bool :=
  negb (euid =? 0) || forallb (fun f => String.eqb f "" || chgrp f) paths.

Inductive startError :=
| ErrImages | ErrMode (e : egressOptError) | ErrPrereqs (l : list prereq) | ErrAssets | ErrPool (e : fcError).

(** [buildProvisioner]: [images] stands for the asset resolver, asked when one of
    the three images is not given; [cgroup] is the version the host uses. *)
Definition buildProvisioner (images : string -> string -> string -> option (string * string * string)) (cgroup : string)
    (boxPorts : bool) (opts : Options) : res startError Settings :=
  let k := opt_KernelImagePath opts in let r := opt_RootfsImagePath opts in let y := opt_PayloadImagePath opts in
  match if String.eqb k "" || String.eqb r "" || String.eqb y "" then images k r y else Some (k, r, y) with
  | None => Err ErrImages
  | Some (kernel, rootfs, payload) =>
      match resolveEgressMode (opt_DisableEgress opts) (opt_EgressMode opts) with
      | Err e => Err (ErrMode e)
      | Ok mode =>
          let dir := if String.eqb (opt_StateDir opts) "" then "/run/llmbox/firecracker" else opt_StateDir opts in
          let p := MkSettings kernel rootfs payload dir (opt_Namespace opts) (opt_Limits opts) mode defaultPoolSize boxPorts
                     (defaultJailerConfig dir cgroup) in
          Ok (SetCgroupVersion (opt_CgroupVersion opts) (SetTapGroup (opt_TapGroupGID opts)
               (SetUIDRange (opt_UIDMin opts) (opt_UIDMax opts) (SetChrootBase (opt_ChrootBase opts)
               (SetFirecrackerBinary (opt_FirecrackerBinary opts) (SetJailerBinary (opt_JailerBinary opts)
               (SetPoolSize (opt_PoolSize opts) p)))))))
      end
  end.

(** What [newBackend] finds on the host. *)
Record StartHost := MkStartHost {
  sh_lookPath : string -> option string; sh_euid : Z; sh_kvm : bool; sh_chgrp : string -> bool;
  sh_answers : string -> bool; sh_serves : string -> bool;
}.

Definition newBackend {H} `{HostTools H} (images : string -> string -> string -> option (string * string * string))
    (cgroup : string) (boxPorts : bool) (sh : StartHost) (opts : Options)
    (d : StateDir boxMeta) (chroots : gset string) (vms : list vmm) (pids : nat) (h : H) :
    res startError (Settings * World H) :=
  let! p := buildProvisioner images cgroup boxPorts opts in
  let w := NewProvisioner p (sh_answers sh) (sh_serves sh) d chroots vms pids h in
  match checkJailerPrereqs (sh_lookPath sh) (sh_euid sh) (sh_kvm sh) (jailer p) with
  | (_, _ :: _ as l) => Err (ErrPrereqs l)
  | (jc, []) =>
      let p := set_jailer p jc in
      if negb (ensureAssetsReadable (sh_euid sh) (sh_chgrp sh) [kernelImage p; payloadImage p]) then Err ErrAssets
      else match EnsureNetwork p w with
           | (w', Ok _) => Ok (p, w')
           | (_, Err e) => Err (ErrPool e)
           end
  end.

Lemma macForIndex_inj i j : 0 <= i < 2 ^ 16 -> 0 <= j < 2 ^ 16 -> macForIndex i = macForIndex j -> i = j.
Proof. unfold macForIndex. intros Hi Hj Heq%sapp_inj_l. by apply (hex_pair_inj true). Qed.

(** ** Interleavings

    A state is a world and the metadata of the creations between their first and
    last locked sections.  Boxes are destroyed through a handle the registry
    still holds; the unlocked rest of an operation runs whenever it likes. *)
Section Interleaving.
Context {H : Type} `{HostTools H}.
Implicit Types (p : Settings) (w : World H) (fl : list boxMeta).

Abbreviation fc_state := (World H * list boxMeta)%type.

Inductive fc_step p : fc_state -> fc_state -> Prop :=
| fs_reserve opts env w w' m fl : reserve p opts env w = (w', Ok m) -> fc_step p (w, fl) (w', m :: fl)
| fs_refused opts env w w' e fl : reserve p opts env w = (w', Err e) -> fc_step p (w, fl) (w', fl)
| fs_abandon opts env w w' m e fl1 fl2 : build p opts env m w = (w', Err e) -> fc_step p (w, fl1 ++ m :: fl2) (w', fl1 ++ fl2)
| fs_register opts env w w1 m mpa fl1 fl2 : build p opts env m w = (w1, Ok mpa) ->
    fc_step p (w, fl1 ++ m :: fl2) ((register mpa w1).1, fl1 ++ fl2)
| fs_deregister w t l fl : w_boxes w !! t = Some l -> fc_step p (w, fl) ((deregister l w).1, fl)
| fs_destroy_finish stop l present w fl : fc_step p (w, fl) ((destroy_finish stop l present w).1, fl)
| fs_pause_begin stop l w fl : fc_step p (w, fl) ((pause_begin stop l w).1, fl)
| fs_pause_finish ok l w fl : fc_step p (w, fl) ((pause_finish ok l w).1, fl)
| fs_resume_begin env l w fl : fc_step p (w, fl) ((resume_begin p env l w).1, fl)
| fs_resume_finish ok l pa w fl : fc_step p (w, fl) ((resume_finish ok l pa w).1, fl)
| fs_ready ok l w fl : fc_step p (w, fl) ((MarkReady ok l w).1, fl).

(** Who holds a slot and a user id: creations under way and registered boxes. *)
Abbreviation live := (Microvm.live (fun i => m_Token (i_meta i))).
Definition boxes_of w : list boxMeta := (fun x => i_meta x.2) <$> live (w_boxes w) (w_heap w) 0.
Definition holders (s : fc_state) : list boxMeta := s.2 ++ boxes_of s.1.

Record fc_inv p (s : fc_state) : Prop := {
  inv_reg : forall t l, w_boxes s.1 !! t = Some l -> exists i, w_heap s.1 !! l = Some i /\ m_Token (i_meta i) = t;
  inv_slots : NoDup (m_NetIndex <$> holders s);
  inv_uids : NoDup (m_UID <$> holders s);
  inv_used : forall m, m ∈ holders s ->
    m_NetIndex m ∈ w_used s.1 /\ 0 <= m_NetIndex m < poolSize p /\
    m_UID m ∈ w_usedUIDs s.1 /\ jc_uidMin (jailer p) <= m_UID m <= jc_uidMax (jailer p);
}.

(** Same registry, same slots. *)
Definition same_reg w w' : Prop :=
  w_boxes w' = w_boxes w /\ w_heap w' = w_heap w /\ w_used w' = w_used w /\ w_usedUIDs w' = w_usedUIDs w.

Lemma EnsureNetwork_reg p w : same_reg w (EnsureNetwork p w).1.
Proof.
  unfold EnsureNetwork, same_reg. destruct (egressMode p); [| |done]; (destruct (w_pool w); [done|]);
    match goal with |- context [?f (w_host w)] => destruct (f (w_host w)) end; done.
Qed.

Lemma bootMachine_reg p env m w : same_reg w (bootMachine p env m w).1.
Proof.
  unfold bootMachine, same_reg. repeat (case_match; try done).
Qed.

Lemma fc_save_reg ok m w : same_reg w (save ok m w).1.
Proof. unfold save, save_meta, same_reg. by destruct ok. Qed.

Lemma stopCompute_reg stop i w : same_reg w (stopCompute stop i w).
Proof. unfold stopCompute, same_reg. destruct (i_machine i); [destruct stop|destruct (_ && _)]; done. Qed.

Lemma same_reg_trans w1 w2 w3 : same_reg w1 w2 -> same_reg w2 w3 -> same_reg w1 w3.
Proof. unfold same_reg. intros (-> & -> & -> & ->) (-> & -> & -> & ->). done. Qed.

Lemma freeSlot_reg m w w' : same_reg w w' -> same_reg (freeSlot m w) (freeSlot m w').
Proof. unfold same_reg, freeSlot. simpl. by intros (-> & -> & -> & ->). Qed.

Lemma cleanup_reg m t pid (b : bool) w : same_reg w (remove_chroot m (remove_box t (if b then stop_vm pid w else w))).
Proof. by destruct b. Qed.

(** What [build] does to the registry: nothing on success but the disk size in
    the metadata, the slot given back on failure. *)
Lemma fc_build_reg p opts env m w :
  match build p opts env m w with
  | (w', Err _) => same_reg (freeSlot m w) w'
  | (w', Ok (m', _, _)) => same_reg w w' /\ exists n, m' = with_disk m n
  end.
Proof.
  unfold build. destruct (pe_stat env) as [base|]; [|done]. destruct (negb (pe_mkdir env)); [done|].
  destruct (negb (pe_copy env)); [done|]. destruct (_ && negb (pe_truncate env)); [done|].
  set (w3 := if base <? _ then _ else _).
  assert (H3 : same_reg w w3) by (unfold w3; by destruct (base <? _)).
  destruct (negb (pe_chown env)).
  { apply freeSlot_reg. eapply same_reg_trans; [exact H3|done]. }
  set (m' := with_disk _ _). pose proof (bootMachine_reg p (pe_boot env) m' w3) as Hb.
  destruct (bootMachine _ _ _ w3) as [w4 [[pid api]|e]]; simpl in Hb.
  - pose proof (fc_save_reg (pe_save env) m' w4) as Hs. destruct (save _ _ w4) as [w5 []]; simpl in Hs.
    + split; [|by eexists]. eauto using same_reg_trans.
    + apply freeSlot_reg. do 2 (eapply same_reg_trans; [eassumption|]).
      eapply same_reg_trans; [eassumption|]. apply cleanup_reg.
  - apply freeSlot_reg. eapply same_reg_trans; [exact H3|]. eapply same_reg_trans; [exact Hb|done].
Qed.

(** Nothing changed that the invariant speaks of. *)
Lemma fc_inv_same p w w' fl : same_reg w w' -> fc_inv p (w, fl) -> fc_inv p (w', fl).
Proof.
  intros (Hb & Hh & Hu & Hi) [I1 I2 I3 I4]. unfold holders, boxes_of in *. simpl in *.
  split; unfold holders, boxes_of; simpl; rewrite ?Hb, ?Hh, ?Hu, ?Hi; done.
Qed.

(** Updates of an instance that keep its token, slot and user id. *)
Lemma fc_inv_upd p w fl l f : (forall i, m_Token (i_meta (f i)) = m_Token (i_meta i)) ->
  (forall i, m_NetIndex (i_meta (f i)) = m_NetIndex (i_meta i)) -> (forall i, m_UID (i_meta (f i)) = m_UID (i_meta i)) ->
  fc_inv p (w, fl) -> fc_inv p (upd l f w, fl).
Proof.
  intros Ht Hn Hu [I1 I2 I3 I4].
  assert (Hproj : (fun m => (m_NetIndex m, m_UID m)) <$> boxes_of (upd l f w) =
    (fun m => (m_NetIndex m, m_UID m)) <$> boxes_of w).
  { unfold boxes_of. rewrite <- !list_fmap_compose.
    apply (live_alter _ (fun i => (m_NetIndex (i_meta i), m_UID (i_meta i)))); intros i; by rewrite ?Hn, ?Hu, ?Ht. }
  assert (Hall : (fun m => (m_NetIndex m, m_UID m)) <$> holders (upd l f w, fl) =
    (fun m => (m_NetIndex m, m_UID m)) <$> holders (w, fl)) by (unfold holders; cbn [fst snd]; by rewrite !fmap_app, Hproj).
  split.
  - simpl in *. intros t l' (i & Hi & Htok)%I1. destruct (decide (l = l')) as [-> |].
    + exists (f i). rewrite list_lookup_alter_eq, Hi. by rewrite Ht.
    + exists i. by rewrite list_lookup_alter_ne.
  - replace (m_NetIndex <$> holders (upd l f w, fl)) with (m_NetIndex <$> holders (w, fl)); [done|].
    apply (f_equal (fmap fst)) in Hall. by rewrite <- !list_fmap_compose in Hall.
  - replace (m_UID <$> holders (upd l f w, fl)) with (m_UID <$> holders (w, fl)); [done|].
    apply (f_equal (fmap snd)) in Hall. by rewrite <- !list_fmap_compose in Hall.
  - intros m Hm. assert (Hin : (m_NetIndex m, m_UID m) ∈ (fun m => (m_NetIndex m, m_UID m)) <$> holders (w, fl)).
    { rewrite <- Hall. apply list_elem_of_fmap. eauto. }
    apply list_elem_of_fmap in Hin as (m' & [= Hn' Hu'] & Hm'). rewrite Hn', Hu'. by apply I4.
Qed.

(** Giving up one holder frees exactly what it held. *)
Lemma fc_inv_drop p w w' fl fl' m :
  fc_inv p (w, fl) -> holders (w, fl) ≡ₚ m :: holders (w', fl') ->
  w_used w' = w_used w ∖ {[m_NetIndex m]} -> w_usedUIDs w' = w_usedUIDs w ∖ {[m_UID m]} ->
  (forall t l, w_boxes w' !! t = Some l -> exists i, w_heap w' !! l = Some i /\ m_Token (i_meta i) = t) ->
  fc_inv p (w', fl').
Proof.
  intros [I1 I2 I3 I4] Hp Hu Hi Hr. rewrite Hp in I2, I3. simpl in I2, I3.
  apply NoDup_cons in I2 as [N2 I2]. apply NoDup_cons in I3 as [N3 I3]. split; [done..|].
  intros m' Hm'. simpl. destruct (I4 m') as (A & B & C & D); [rewrite Hp; set_solver|]. simpl in A, C.
  rewrite Hu, Hi. assert (m_NetIndex m' <> m_NetIndex m).
  { intros Heq. apply N2. rewrite <- Heq. apply list_elem_of_fmap. eauto. }
  assert (m_UID m' <> m_UID m).
  { intros Heq. apply N3. rewrite <- Heq. apply list_elem_of_fmap. eauto. }
  destruct B, D. split_and!; try done; apply elem_of_difference; (split; [done|]); by rewrite elem_of_singleton.
Qed.

Lemma fc_inv_reserve p opts env w w' m fl :
  reserve p opts env w = (w', Ok m) -> fc_inv p (w, fl) -> fc_inv p (w', m :: fl).
Proof.
  unfold reserve. destruct (_ && negb (ValidBoxID _)); [done|]. destruct (_ || _); [done|]. unfold go_bind.
  pose proof (EnsureNetwork_reg p w) as Hr. destruct (EnsureNetwork p w) as [w1 [[]|e]]; [|done]. simpl in Hr.
  destruct (newToken (pe_rnd env)) as [token|]; [|done].
  unfold allocIndexLocked, allocUIDLocked. destruct (alloc_from _ 0 (w_used w1)) as [k|] eqn:Hk; [|done].
  cbn [set_slots w_usedUIDs id]. destruct (alloc_from _ _ (w_usedUIDs w1)) as [u|] eqn:Hu; [|done].
  intros [= <- <-] Hinv. apply (fc_inv_same p w w1 fl Hr) in Hinv as [I1 I2 I3 I4]. simpl in *.
  apply alloc_from_Some in Hk as (Rk & Nk & _). apply alloc_from_Some in Hu as (Ru & Nu & _).
  split; [done|..]; unfold holders in *; simpl in *.
  - apply NoDup_cons. split; [|done]. intros (m & -> & Hm)%list_elem_of_fmap. apply Nk. by apply I4.
  - apply NoDup_cons. split; [|done]. intros (m & -> & Hm)%list_elem_of_fmap. apply Nu. by apply I4.
  - intros m [-> |Hm]%elem_of_cons; simpl.
    + split_and!; [apply elem_of_union; left; by apply elem_of_singleton|lia|lia|apply elem_of_union; left; by apply elem_of_singleton|lia|lia].
    + destruct (I4 m Hm) as (A & B & C & D). split_and!; [by apply elem_of_union_r|lia|lia|by apply elem_of_union_r|lia|lia].
Qed.

Lemma fc_inv_refused p opts env w w' e fl :
  reserve p opts env w = (w', Err e) -> fc_inv p (w, fl) -> fc_inv p (w', fl).
Proof.
  unfold reserve. destruct (_ && negb (ValidBoxID _)); [by intros [= <- _]|]. destruct (_ || _); [by intros [= <- _]|].
  unfold go_bind. pose proof (EnsureNetwork_reg p w) as Hr.
  destruct (EnsureNetwork p w) as [w1 [[]|e1]]; simpl in Hr; [|intros [= <- _]; by apply fc_inv_same].
  destruct (newToken (pe_rnd env)) as [token|]; [|intros [= <- _]; by apply fc_inv_same].
  unfold allocIndexLocked, allocUIDLocked. destruct (alloc_from _ 0 (w_used w1)) as [k|] eqn:Hk; [|intros [= <- _]; by apply fc_inv_same].
  apply alloc_from_Some in Hk as (_ & Nk & _).
  destruct (alloc_from _ _ _) as [u|]; [done|]. intros [= <- _]. apply fc_inv_same. eapply same_reg_trans; [exact Hr|].
  unfold same_reg. cbn. split_and!; [done..| |done]. set_solver.
Qed.

Lemma fc_inv_abandon p opts env w w' m e fl1 fl2 :
  build p opts env m w = (w', Err e) -> fc_inv p (w, fl1 ++ m :: fl2) -> fc_inv p (w', fl1 ++ fl2).
Proof.
  intros Hb Hinv. pose proof (fc_build_reg p opts env m w) as Hr. rewrite Hb in Hr.
  destruct Hr as (B1 & B2 & B3 & B4). simpl in *.
  apply (fc_inv_drop p w w' _ _ m Hinv); [|done|done|rewrite B1, B2; apply (inv_reg _ _ Hinv)].
  unfold holders, boxes_of. simpl. rewrite B1, B2. solve_Permutation.
Qed.

(** A new instance displaces the one that had its token. *)
Lemma boxes_of_register w m pid api :
  boxes_of (register (m, pid, api) w).1 =
  ((fun x => i_meta x.2) <$> filter (fun x => m_Token (i_meta x.2) <> m_Token m) (live (w_boxes w) (w_heap w) 0)) ++ [m].
Proof.
  unfold boxes_of, register. simpl. rewrite live_app, fmap_app. f_equal.
  - rewrite (live_hide _ (w_boxes w) _ (m_Token m)); [done|intros t Ht; by rewrite lookup_insert_ne|].
    intros k Hk. rewrite lookup_insert_eq. intros [= <-]. lia.
  - simpl. by rewrite lookup_insert_eq, decide_True.
Qed.

Lemma fc_inv_register p opts env w w1 m mpa fl1 fl2 :
  build p opts env m w = (w1, Ok mpa) -> fc_inv p (w, fl1 ++ m :: fl2) -> fc_inv p ((register mpa w1).1, fl1 ++ fl2).
Proof.
  intros Hb Hinv. pose proof (fc_build_reg p opts env m w) as Hr. rewrite Hb in Hr.
  destruct mpa as [[m' pid] api]. destruct Hr as [Hreg [n ->]].
  apply (fc_inv_same p w w1 _ Hreg) in Hinv as [I1 I2 I3 I4]. clear Hb Hreg w.
  set (keep := filter (fun x => m_Token (i_meta x.2) <> m_Token (with_disk m n)) (live (w_boxes w1) (w_heap w1) 0)).
  assert (Hsub : sublist ((fun x => i_meta x.2) <$> keep) (boxes_of w1)).
  { apply fmap_sublist, sublist_filter. }
  assert (Hh : holders ((register (with_disk m n, pid, api) w1).1, fl1 ++ fl2) =
    (fl1 ++ fl2) ++ ((fun x => i_meta x.2) <$> keep) ++ [with_disk m n]).
  { unfold holders. cbn [fst snd]. rewrite boxes_of_register. done. }
  assert (Hs : sublist (fl1 ++ m :: fl2 ++ ((fun x => i_meta x.2) <$> keep)) (holders (w1, fl1 ++ m :: fl2))).
  { unfold holders. cbn [fst snd]. rewrite <- app_assoc. by apply sublist_app, sublist_skip, sublist_app. }
  assert (Hproj : forall {B} (g : boxMeta -> B), g (with_disk m n) = g m ->
    g <$> holders ((register (with_disk m n, pid, api) w1).1, fl1 ++ fl2) ≡ₚ
    g <$> (fl1 ++ m :: fl2 ++ ((fun x => i_meta x.2) <$> keep))).
  { intros B g Hg. rewrite Hh, !fmap_app. simpl. rewrite Hg, !fmap_app. solve_Permutation. }
  split.
  - intros t l. cbn. rewrite lookup_insert. case_decide as Ht.
    + intros [= <-]. eexists. rewrite lookup_app_r, Nat.sub_diag by lia. split; [done|]. done.
    + intros (i & Hi & Hti)%I1. exists i. by rewrite lookup_app_l by (by eapply lookup_lt_Some).
  - rewrite (Hproj _ m_NetIndex) by done. eapply sublist_NoDup; [exact I2|]. by apply fmap_sublist.
  - rewrite (Hproj _ m_UID) by done. eapply sublist_NoDup; [exact I3|]. by apply fmap_sublist.
  - intros x Hx. assert (Hin : exists y, y ∈ holders (w1, fl1 ++ m :: fl2) /\ m_NetIndex y = m_NetIndex x /\ m_UID y = m_UID x).
    { rewrite Hh, !elem_of_app, list_elem_of_singleton in Hx. destruct Hx as [Hx|[Hx| ->]].
      - exists x. split; [|done]. unfold holders. simpl. set_solver.
      - exists x. split; [|done]. unfold holders. simpl. apply elem_of_app. right. unfold boxes_of.
        apply list_elem_of_fmap in Hx as (y & -> & [_ Hy]%list_elem_of_filter). apply list_elem_of_fmap. eauto.
      - exists m. split; [|done]. unfold holders. simpl. set_solver. }
    destruct Hin as (y & Hy & <- & <-). exact (I4 y Hy).
Qed.

Lemma fc_inv_deregister p w t l fl :
  w_boxes w !! t = Some l -> fc_inv p (w, fl) -> fc_inv p ((deregister l w).1, fl).
Proof.
  intros Hl Hinv. destruct (inv_reg _ _ Hinv t l Hl) as (i & Hi & Ht). simpl in Hi.
  unfold deregister, inst. rewrite Hi, Ht. simpl.
  apply (fc_inv_drop p w _ fl fl (i_meta i) Hinv); simpl; [|done|done|].
  - unfold holders, boxes_of. simpl. rewrite (live_hide _ (w_boxes w) (delete t (w_boxes w)) t);
      [|intros t' Hne; by rewrite lookup_delete_ne|intros k _; by rewrite lookup_delete_eq].
    set (li := live (w_boxes w) (w_heap w) 0).
    assert (Hp : li ≡ₚ (l, i) :: filter (fun x => m_Token (i_meta x.2) <> t) li).
    { apply NoDup_Permutation.
      - apply (NoDup_fmap_1 fst), live_NoDup.
      - apply NoDup_cons. split; [intros [Hx _]%list_elem_of_filter; by apply Hx|].
        apply NoDup_filter, (NoDup_fmap_1 fst), live_NoDup.
      - intros [k j]. rewrite elem_of_cons, list_elem_of_filter. split.
        + intros Hin. destruct (decide (m_Token (i_meta j) = t)) as [Heq|]; [left|by right].
          apply elem_of_live in Hin as (_ & Hj & Hk). rewrite Nat.sub_0_r in Hj. congruence.
        + intros [[= -> ->]|[_ ?]]; [|done]. apply elem_of_live. rewrite Nat.sub_0_r, Ht. auto with lia. }
    rewrite Hp at 1. simpl. solve_Permutation.
  - intros t' l'. rewrite lookup_delete. case_decide; [done|]. apply (inv_reg _ _ Hinv).
Qed.

Lemma fc_inv_save p ok m w fl : fc_inv p (w, fl) -> fc_inv p ((save ok m w).1, fl).
Proof. apply fc_inv_same, fc_save_reg. Qed.

(** The last step of an operation that updates an instance and saves it. *)
Lemma fc_inv_upd_save p ok m w fl l f {B} (x y : B) : (forall i, m_Token (i_meta (f i)) = m_Token (i_meta i)) ->
  (forall i, m_NetIndex (i_meta (f i)) = m_NetIndex (i_meta i)) -> (forall i, m_UID (i_meta (f i)) = m_UID (i_meta i)) ->
  fc_inv p (w, fl) ->
  fc_inv p ((match save ok m (upd l f w) with (w', true) => (w', x) | (w', false) => (w', y) end).1, fl).
Proof.
  intros Ht Hn Hu Hinv. pose proof (fc_inv_save p ok m _ fl (fc_inv_upd p w fl l f Ht Hn Hu Hinv)) as Hs.
  by destruct (save ok m (upd l f w)) as [w' []].
Qed.

Lemma fc_step_inv p s s' : fc_step p s s' -> fc_inv p s -> fc_inv p s'.
Proof.
  destruct 1 as [opts env w w' m fl Hr|opts env w w' e fl Hr|opts env w w' m e fl1 fl2 Hb|opts env w w1 m mpa fl1 fl2 Hb
    |w t l fl Hl|stop l present w fl|stop l w fl|ok l w fl|env l w fl|ok l pa w fl|ok l w fl]; intros Hinv.
  - by eapply fc_inv_reserve.
  - by eapply fc_inv_refused.
  - by eapply fc_inv_abandon.
  - by eapply fc_inv_register.
  - by eapply fc_inv_deregister.
  - unfold destroy_finish. destruct (inst w l) as [i|]; [|done].
    apply (fc_inv_same p w); [|done]. eapply same_reg_trans; [apply (stopCompute_reg stop i)|done].
  - unfold pause_begin. destruct (inst w l) as [i|]; [|done]. destruct (w_boxes w !! _); [|done].
    apply (fc_inv_same p w); [apply stopCompute_reg|done].
  - unfold pause_finish. destruct (inst w l) as [i|]; [|done]. by apply fc_inv_upd_save.
  - unfold resume_begin. destruct (inst w l) as [i|]; [|done]. destruct (w_boxes w !! _); [|done].
    pose proof (bootMachine_reg p env (i_meta i) w) as Hb. apply (fc_inv_same p w); [|done].
    by destruct (bootMachine _ _ _ w) as [w1 []].
  - unfold resume_finish. destruct (inst w l) as [i|]; [|done]. by apply fc_inv_upd_save.
  - unfold MarkReady. destruct (inst w l) as [i|]; [|done].
    assert (H1 : fc_inv p (upd l set_phase_ready w, fl)) by by apply fc_inv_upd.
    destruct (w_boxes w !! _); [by apply fc_inv_upd_save|].
    pose proof (fc_inv_save p ok (with_phase (i_meta i) "ready") _ fl H1) as Hs.
    by destruct (save _ _ _) as [w' []].
Qed.

(** A provisioner with no boxes. *)
Definition first_start (h : H) : World H := MkWorld ∅ ∅ ∅ [] None ∅ ∅ [] 0 h.

Lemma fc_inv_first p h : fc_inv p (first_start h, []).
Proof. split; simpl; [intros t l; by rewrite lookup_empty|constructor..|]. intros m. unfold holders. simpl. set_solver. Qed.

(** C18: However creations, destructions, pauses and resumes interleave, as long as a
    box is destroyed through a handle the registry still holds, no two boxes,
    registered or being created, share a pool slot or a user id: their jails run
    under different users of the configured range and their VMs are configured
    with different TAP devices and MAC addresses. *)
Theorem jails_are_exclusive p h w fl m m' l1 l2 l3 :
  poolSize p <= MaxIndex + 1 -> rtc (fc_step p) (first_start h, []) (w, fl) ->
  holders (w, fl) = l1 ++ m :: l2 ++ m' :: l3 ->
  m_UID m <> m_UID m' /\ m_NetIndex m <> m_NetIndex m' /\
  jc_uidMin (jailer p) <= m_UID m <= jc_uidMax (jailer p) /\ 0 <= m_NetIndex m < poolSize p /\
  fc_UID (machineConfig p m) <> fc_UID (machineConfig p m') /\
  (egressMode p <> EgressDisabled ->
     exists mac tap mac' tap', fc_Nics (machineConfig p m) = [(mac, tap)] /\
       fc_Nics (machineConfig p m') = [(mac', tap')] /\ tap <> tap' /\ mac <> mac').
Proof.
  intros Hsz Hr Hh.
  assert (Hinv : fc_inv p (w, fl)).
  { pose proof (fc_inv_first p h) as H1. revert H1. generalize (first_start h, @nil boxMeta) Hr.
    intros s Hrs. remember (w, fl) as s' eqn:Hs'. clear Hr Hh Hs'.
    induction Hrs as [|s1 s2 s3 Hst Hrs IH]; [done|]. intros H1. apply IH. by eapply fc_step_inv. }
  destruct Hinv as [_ I2 I3 I4]. rewrite Hh in I2, I3, I4.
  destruct (I4 m) as (_ & B & _ & D); [set_solver|]. destruct (I4 m') as (_ & B' & _ & D'); [set_solver|].
  assert (Hd : forall {B} (g : boxMeta -> B), NoDup (g <$> l1 ++ m :: l2 ++ m' :: l3) -> g m <> g m').
  { intros T g Hn Heq. rewrite fmap_app, NoDup_app in Hn. destruct Hn as (_ & _ & Hn).
    rewrite fmap_cons, NoDup_cons in Hn. destruct Hn as [Hn _]. apply Hn. rewrite Heq, fmap_app. simpl. set_solver. }
  pose proof (Hd _ _ I3) as Hu. pose proof (Hd _ _ I2) as Hn. split_and!; try done; try lia.
  intros Hmode. unfold machineConfig, guestNetEnabled. rewrite bool_decide_eq_false_2 by done. simpl.
  do 4 eexists. split_and!; [done|done| |].
  - intros Heq. apply Hn, (TapName_inj fcNet); [lia..|exact Heq].
  - intros Heq. apply Hn, macForIndex_inj; [unfold MaxIndex in *; lia..|exact Heq].
Qed.
End Interleaving.

(** ** More theorems *)

Lemma resolve_loop_spec x metas : forall prefixed,
  match resolve_loop metas prefixed x with
  | Ok m => (exists l1 l2, metas = l1 ++ m :: l2 /\ exact_match x m = true /\ Forall (fun m' => exact_match x m' = false) l1) \/
      (Forall (fun m' => exact_match x m' = false) metas /\
       prefixed ++ filter (fun m' => HasPrefix (m_Token m') x = true) metas = [m])
  | Err e => Forall (fun m' => exact_match x m' = false) metas /\
      match prefixed ++ filter (fun m' => HasPrefix (m_Token m') x = true) metas with
      | [] => e = ErrVMNotFound x
      | [_] => False
      | l => e = ErrAmbiguous x (length l)
      end
  end.
Proof.
  induction metas as [|m metas IH]; intros prefixed; simpl.
  - rewrite filter_nil, app_nil_r. destruct prefixed as [|a [|b l]]; simpl; [by split|right; by split|by split].
  - destruct (exact_match x m) eqn:He; [left; by exists [], metas|].
    specialize (IH (if HasPrefix (m_Token m) x then prefixed ++ [m] else prefixed)).
    rewrite filter_cons.
    replace (prefixed ++ (if decide (HasPrefix (m_Token m) x = true) then m :: filter (fun m' => HasPrefix (m_Token m') x = true) metas
        else filter (fun m' => HasPrefix (m_Token m') x = true) metas)) with
      ((if HasPrefix (m_Token m) x then prefixed ++ [m] else prefixed) ++ filter (fun m' => HasPrefix (m_Token m') x = true) metas)
      by (destruct (HasPrefix (m_Token m) x); [by rewrite decide_True, <- app_assoc|by rewrite decide_False]).
    destruct (resolve_loop _ _ _) as [r|e].
    + destruct IH as [(l1 & l2 & -> & Hr & Hl)|[Hl Hp]]; [left|right].
      * exists (m :: l1), l2. auto.
      * split; [by constructor|done].
    + destruct IH as [Hl Hp]. split; [by constructor|done].
Qed.

(** The operator's commands pick a box only when the handle is unambiguous: an
    exact token or box id always wins; otherwise the handle must be a prefix of
    the token of exactly one box, and the error says whether none or how many
    matched. *)
Theorem resolveMeta_spec metas x :
  match resolveMeta metas x with
  | Ok m => m ∈ metas /\ (exact_match x m = true \/
      (Forall (fun m' => exact_match x m' = false) metas /\
       filter (fun m' => HasPrefix (m_Token m') x = true) metas = [m]))
  | Err e => Forall (fun m' => exact_match x m' = false) metas /\
      match filter (fun m' => HasPrefix (m_Token m') x = true) metas with
      | [] => e = ErrVMNotFound x
      | [_] => False
      | l => e = ErrAmbiguous x (length l)
      end
  end.
Proof.
  pose proof (resolve_loop_spec x metas []) as Hs. unfold resolveMeta. simpl in Hs.
  destruct (resolve_loop metas [] x) as [m|e]; [|done]. destruct Hs as [(l1 & l2 & -> & Hm & _)|[Hl Hp]].
  - split; [set_solver|auto].
  - split; [|auto]. assert (Hin : m ∈ filter (fun m' => HasPrefix (m_Token m') x = true) metas) by (rewrite Hp; set_solver).
    by apply list_elem_of_filter in Hin as [_ ?].
Qed.

(** Machines are sized within bounds: the number of virtual CPUs is one or even
    and covers the CPU limit with at most two to spare, the memory is at least
    128 MiB, and the disk is never smaller than the base image nor, beyond it,
    larger than the operator's ceiling. *)
Theorem machine_sizing p requested base :
  let n := vcpuCount p in
  let d := diskBytesFor p requested base in
  1 <= n /\ (n = 1 \/ Z.even n = true) /\
  (0 < lim_NanoCPUs (limits p) ->
     lim_NanoCPUs (limits p) <= n * 1000000000 /\ (n - 2) * 1000000000 < lim_NanoCPUs (limits p)) /\
  minMemSizeMib <= memSizeMib (limits p) /\
  base <= d /\ (0 < lim_MaxDiskBytes (limits p) -> d <= Z.max base (lim_MaxDiskBytes (limits p))) /\
  (0 < requested <= lim_MaxDiskBytes (limits p) -> base <= requested -> d = requested).
Proof.
  intros n d. subst n d. unfold vcpuCount, diskBytesFor, disk_request, ceil_cpus, defaultVCPUs.
  set (c := lim_NanoCPUs (limits p)). set (mx := lim_MaxDiskBytes (limits p)).
  assert (Hk : 0 < c -> c <= Z.max 1 ((c + 999999999) / 1000000000) * 1000000000 /\
    (Z.max 1 ((c + 999999999) / 1000000000) - 1) * 1000000000 < c).
  { intros Hc. pose proof (Z.div_mod (c + 999999999) 1000000000 ltac:(lia)).
    pose proof (Z.mod_pos_bound (c + 999999999) 1000000000 ltac:(lia)). lia. }
  set (k := Z.max 1 ((c + 999999999) / 1000000000)) in *. assert (Hk1 : 1 <= k) by lia. clearbody k.
  assert (Hrem : Z.rem k 2 = if Z.even k then 0 else 1).
  { rewrite Z.rem_mod_nonneg by lia. rewrite Zmod_odd, <- Z.negb_even. by destruct (Z.even k). }
  rewrite Hrem. split_and!.
  - destruct (Z.leb_spec c 0); [lia|]. destruct (_ && _); lia.
  - destruct (Z.leb_spec c 0); [by left|]. destruct (Z.ltb_spec 1 k); simpl; [|left; lia].
    right. destruct (Z.even k) eqn:He; simpl; [done|]. by rewrite Z.even_add, He.
  - intros Hc. specialize (Hk Hc). destruct (Z.leb_spec c 0); [lia|]. destruct (_ && _); lia.
  - apply memSizeMib_bounds.
  - lia.
  - intros Hmx. destruct (Z.ltb_spec 0 mx); [|lia]. simpl. destruct (Z.ltb_spec mx (if requested <=? 0 then lim_DiskBytes (limits p) else requested)); lia.
  - intros [Hr1 Hr2] Hb. destruct (Z.leb_spec requested 0); [lia|]. destruct (Z.ltb_spec 0 mx); [|lia]. simpl.
    destruct (Z.ltb_spec mx requested); lia.
Qed.

(** ** The operator's sweep *)

Definition stuck (o : OpHost) (t : string) : bool := oh_running o t && negb (oh_halts o t).

(** What destroying one box does to the directories. *)
Lemma destroyBox_dirs o m s s' r : destroyBox o m s = (s', r) ->
  (forall t, t <> m_Token m -> s'.1 !! t = s.1 !! t) /\
  (s'.1 !! m_Token m = s.1 !! m_Token m \/ s'.1 !! m_Token m = None) /\
  (stuck o (m_Token m) = true -> s'.1 = s.1) /\ (r = Ok () -> stuck o (m_Token m) = false /\ s'.1 !! m_Token m = None).
Proof.
  unfold destroyBox, stuck. destruct s as [d ch].
  destruct (oh_running o (m_Token m) && negb (oh_halts o (m_Token m))); [intros [= <- <-]; by split_and!; auto|].
  destruct (negb (oh_removes o (m_Token m))); [intros [= <- <-]; by split_and!; auto|].
  assert (Ho : forall t, t <> m_Token m -> delete (m_Token m) d !! t = d !! t) by (intros t Ht; by apply lookup_delete_ne).
  assert (Hn : delete (m_Token m) d !! m_Token m = None) by apply lookup_delete_eq.
  destruct (String.eqb _ ""); [|destruct (oh_clears _ _)]; intros [= <- <-]; split_and!; auto; done.
Qed.

Lemma destroy_all_spec o ms s s' gone errs :
  NoDup (m_Token <$> ms) -> destroy_all o ms s = (s', (gone, errs)) ->
  (length gone + length errs = length ms)%nat /\
  (forall t, t ∉ (m_Token <$> ms) -> s'.1 !! t = s.1 !! t) /\
  (forall v, v ∈ gone -> exists m, m ∈ ms /\ v = destroyedStatus m /\ s'.1 !! m_Token m = None) /\
  (forall m, m ∈ ms -> stuck o (m_Token m) = true -> s'.1 !! m_Token m = s.1 !! m_Token m /\ destroyedStatus m ∉ gone).
Proof.
  revert s s' gone errs. induction ms as [|m ms IH]; intros s s' gone errs Hnd; cbn [destroy_all].
  { intros [= <- <- <-]. split_and!; try done; intros ? ?%elem_of_nil; done. }
  destruct (destroyBox o m s) as [s1 r] eqn:Hm. destruct (destroy_all o ms s1) as [s2 [g e]] eqn:Hr.
  cbn [fmap list_fmap] in Hnd. apply NoDup_cons in Hnd as [Hnin Hnd].
  destruct (destroyBox_dirs o m s s1 r Hm) as (Ho & _ & Hst & Hok). destruct (IH _ _ _ _ Hnd Hr) as (Hlen & Hout & Hgone & Hkeep).
  assert (Hgone' : forall v, v ∈ g -> exists m', m' ∈ m :: ms /\ v = destroyedStatus m' /\ s2.1 !! m_Token m' = None).
  { intros v (m' & Hin & Hv)%Hgone. exists m'. split; [by apply list_elem_of_further|done]. }
  assert (Hnot : forall m', m' ∈ ms -> m_Token m' <> m_Token m).
  { intros m' Hin Heq. apply Hnin. rewrite <- Heq. by apply list_elem_of_fmap_2. }
  assert (Hm_g : destroyedStatus m ∉ g).
  { intros (m' & Hin & Hv & _)%Hgone. apply (Hnot m' Hin). unfold destroyedStatus in Hv. congruence. }
  destruct r as [[]|err]; intros [= <- <- <-]; (split_and!; [simpl; lia|intros t Ht; cbn in Ht|..]).
  1,4: rewrite Hout by (intros Hx; apply Ht; by apply list_elem_of_further); apply Ho; intros ->; apply Ht, list_elem_of_here.
  - intros v [-> |Hv]%elem_of_cons; [|by apply Hgone']. exists m. split; [apply list_elem_of_here|]. split; [done|].
    rewrite Hout by done. by apply Hok.
  - intros m' [-> |Hin]%elem_of_cons Hs; [destruct (Hok eq_refl) as [? _]; congruence|].
    destruct (Hkeep m' Hin Hs) as [He Hn]. rewrite He. split; [by apply Ho, Hnot|].
    rewrite elem_of_cons. intros [Hv|Hv]; [|done]. apply (Hnot m' Hin). unfold destroyedStatus in Hv. congruence.
  - exact Hgone'.
  - intros m' [-> |Hin]%elem_of_cons Hs.
    + split; [|done]. rewrite Hout by done. by rewrite Hst.
    + destruct (Hkeep m' Hin Hs) as [He Hn]. split; [|done]. rewrite He. by apply Ho, Hnot.
Qed.

(** The operator's sweep accounts for every box on disk, each either destroyed,
    its directory gone, or reported as a failure; it leaves other directories
    alone and never removes the disk of a VMM that runs and cannot be halted. *)
Theorem DestroyAllVMs_spec o (s s' : OpFiles) gone errs :
  filed m_Token s.1 -> DestroyAllVMs o s = (s', (gone, errs)) ->
  (length gone + length errs = length (loadMetas s.1))%nat /\
  (forall v, v ∈ gone -> exists m, m ∈ loadMetas s.1 /\ v = destroyedStatus m /\ s'.1 !! m_Token m = None) /\
  (forall t, t ∉ m_Token <$> loadMetas s.1 -> s'.1 !! t = s.1 !! t) /\
  (forall m, m ∈ loadMetas s.1 -> oh_running o (m_Token m) = true -> oh_halts o (m_Token m) = false ->
     s'.1 !! m_Token m = s.1 !! m_Token m /\ destroyedStatus m ∉ gone).
Proof.
  intros Hf Hd. unfold DestroyAllVMs in Hd. pose proof (merge_sort_Permutation created_le (loadMetas s.1)) as Hp.
  assert (Hnd : NoDup (m_Token <$> merge_sort created_le (loadMetas s.1))).
  { rewrite Hp. by apply load_metas_NoDup. }
  destruct (destroy_all_spec o _ s s' gone errs Hnd Hd) as (Hlen & Hout & Hgone & Hkeep).
  split_and!; [by rewrite Hlen, Hp| | |].
  - intros v Hv. setoid_rewrite <- Hp. by apply Hgone.
  - intros t Ht. apply Hout. by rewrite Hp.
  - intros m Hm Hr Hh. apply Hkeep; [by rewrite Hp|]. unfold stuck. by rewrite Hr, Hh.
Qed.

(** The backend starts only on a host that can jail its machines: the binaries
    resolve, the spoke is root with KVM, and every user id it will hand out is
    unprivileged. *)
Lemma newBackend_fails_closed {H} `{HostTools H} images cgroup boxPorts sh opts d chroots vms pids (h : H) p w :
  newBackend images cgroup boxPorts sh opts d chroots vms pids h = Ok (p, w) ->
  sh_euid sh = 0 /\ sh_kvm sh = true /\
  (exists bin, sh_lookPath sh bin = Some (jc_execFile (jailer p))) /\
  (exists bin, sh_lookPath sh bin = Some (jc_jailerBin (jailer p))) /\
  0 < jc_uidMin (jailer p) <= jc_uidMax (jailer p) /\ 0 < jc_gid (jailer p).
Proof.
  unfold newBackend. destruct (buildProvisioner images cgroup boxPorts opts) as [p0|]; [|done]. cbn [res_bind].
  unfold checkJailerPrereqs.
  destruct (sh_lookPath sh (jc_execFile (jailer p0))) as [fc|] eqn:Hfc; [|done].
  destruct (sh_lookPath sh (jc_jailerBin (jailer p0))) as [ja|] eqn:Hja; [|done].
  destruct (Z.eqb_spec (sh_euid sh) 0) as [Hu|]; [|done]. destruct (sh_kvm sh); [|done].
  destruct ((jc_uidMin (jailer p0) <=? 0) || (jc_uidMax (jailer p0) <? jc_uidMin (jailer p0))) eqn:Hr; [done|].
  destruct (Z.leb_spec (jc_gid (jailer p0)) 0) as [|Hg]; [done|]. cbn [app].
  destruct (negb _); [done|]. destruct (EnsureNetwork _ _) as [w' [[]|]]; [|done]. intros [= <- <-].
  apply orb_false_iff in Hr as [Hr1%Z.leb_gt Hr2%Z.ltb_ge]. cbn. split_and!; eauto.
Qed.

(** A pool that [SetupNetworkPool] provisioned serves a spoke that attaches to it
    in external mode with no larger a pool: its boxes get their network although
    the spoke never changes the host. *)
Theorem setup_serves_external_spoke {H} `{HostTools H, HostView H, !HostLaws H} cfg (h h' : H) p (w : World H) :
  SetupNetworkPool 0 cfg h = (h', Ok ()) ->
  egressMode p = EgressExternal -> poolSize p <= pc_Size (resolve cfg) -> w_pool w = None -> w_host w = h' ->
  exists w', EnsureNetwork p w = (w', Ok ()) /\ w_host w' = h' /\ same_reg w w'.
Proof.
  unfold SetupNetworkPool, EnsureNetwork, same_reg. cbn [Z.eqb negb].
  destruct (EnsurePool _ _ h) as [h1 [[]|e]] eqn:He; [|done]. intros [= <-] -> Hsz -> ->.
  rewrite (EnsurePool_ValidatePool (newHostEgress (pc_Uplink (resolve cfg)) (pc_TapGroupGID (resolve cfg)))
    (newHostEgress "" 0) (pc_Size (resolve cfg)) (poolSize p) h h1 eq_refl Hsz He). by eexists.
Qed.

(** ** Concrete runs *)

Module Demo.

Definition p : Settings :=
  MkSettings "/k" "/r" "" "/state" "" (MkLimits 0 0 0 0 0 0) EgressManaged 2 false (defaultJailerConfig "/state" "2").
Definition boot : BootEnv := MkBootEnv true true true true true true true.
Definition env (n : Z) : ProvEnv := MkProvEnv (Some [0; 0; 0; 0; 0; n]) 7 (Some 1000) true true true true boot true.
Definition opts (id : string) : CreateOptions := MkCreateOptions id "" "" [] 0.
Definition w0 : World SimHost := first_start fresh_host.
Definition r1 : World SimHost := (reserve p (opts "web") (env 1) w0).1.
Definition m1 : boxMeta := newMeta p (opts "web") "000000000001" 7 0 100000.
Definition b1 : World SimHost := (build p (opts "web") (env 1) m1 r1).1.
Definition w1 : World SimHost := (register (with_disk m1 1000, 0%nat, false) b1).1.
Definition r2 : World SimHost := (reserve p (opts "db") (env 2) w1).1.
Definition m2 : boxMeta := newMeta p (opts "db") "000000000002" 7 1 100001.

(** One box registered, another being created. *)
Lemma fc_reach : rtc (fc_step p) (w0, []) (r2, [m2]).
Proof.
  eapply rtc_l; [apply (fs_reserve p (opts "web") (env 1) w0 r1 m1 []); vm_compute; reflexivity|].
  eapply rtc_l; [apply (fs_register p (opts "web") (env 1) r1 b1 m1 (with_disk m1 1000, 0%nat, false) [] []);
    vm_compute; reflexivity|].
  eapply rtc_l; [apply (fs_reserve p (opts "db") (env 2) w1 r2 m2 []); vm_compute; reflexivity|apply rtc_refl].
Qed.

Definition pool_cfg : PoolConfig := MkPoolConfig 2 0 "eth0".
Definition set_up : SimHost := (SetupNetworkPool 0 pool_cfg fresh_host).1.
Definition external : Settings :=
  MkSettings "/k" "/r" "" "/state" "" (MkLimits 0 0 0 0 0 0) EgressExternal 2 false (defaultJailerConfig "/state" "2").

Definition files : OpFiles := (<["000000000001" := MkBoxFiles (Some m1) None]> (<["000000000002" := MkBoxFiles (Some m2) None]> ∅), ∅).
Definition op_host : OpHost := MkOpHost (fun _ => true) (fun t => String.eqb t "000000000002") (fun _ => true) (fun _ => true).

Lemma files_filed : filed m_Token files.1.
Proof.
  intros t b m. unfold files. cbn [fst]. rewrite !lookup_insert, lookup_empty.
  repeat case_decide; intros [= <-] [= <-]; subst; reflexivity.
Qed.

End Demo.

Lemma DestroyAllVMs_spec_witness :
  exists s' errs, DestroyAllVMs Demo.op_host Demo.files = (s', ([destroyedStatus Demo.m2], errs)) /\
    s'.1 !! "000000000001" = Demo.files.1 !! "000000000001".
Proof.
  assert (Hd : DestroyAllVMs Demo.op_host Demo.files =
    ((DestroyAllVMs Demo.op_host Demo.files).1, ([destroyedStatus Demo.m2], [ErrHalting "000000000001"])))
    by (vm_compute; reflexivity).
  do 2 eexists. split; [exact Hd|].
  destruct (DestroyAllVMs_spec Demo.op_host Demo.files _ _ _ Demo.files_filed Hd) as (_ & _ & _ & Hk).
  apply (Hk Demo.m1); [|reflexivity|reflexivity].
  apply elem_of_load_metas; [exact Demo.files_filed|]. split; [discriminate|]. exists (MkBoxFiles (Some Demo.m1) None).
  split; vm_compute; reflexivity.
Defined.

Lemma jails_are_exclusive_witness :
  m_UID Demo.m2 <> m_UID (with_disk Demo.m1 1000) /\
  exists mac tap mac' tap', fc_Nics (machineConfig Demo.p Demo.m2) = [(mac, tap)] /\
    fc_Nics (machineConfig Demo.p (with_disk Demo.m1 1000)) = [(mac', tap')] /\ tap <> tap' /\ mac <> mac'.
Proof.
  destruct (jails_are_exclusive Demo.p fresh_host Demo.r2 [Demo.m2] Demo.m2 (with_disk Demo.m1 1000) [] [] []
    ltac:(vm_compute; discriminate) Demo.fc_reach ltac:(vm_compute; reflexivity)) as (Hu & _ & _ & _ & _ & Hn).
  split; [exact Hu|]. apply Hn. discriminate.
Defined.

Lemma setup_serves_external_spoke_witness :
  exists w', EnsureNetwork Demo.external (first_start Demo.set_up) = (w', Ok ()) /\ w_host w' = Demo.set_up.
Proof.
  assert (Hs : SetupNetworkPool 0 Demo.pool_cfg fresh_host = (Demo.set_up, Ok ())) by (vm_compute; reflexivity).
  assert (Hp : poolSize Demo.external <= pc_Size (resolve Demo.pool_cfg)) by (vm_compute; discriminate).
  destruct (setup_serves_external_spoke Demo.pool_cfg fresh_host Demo.set_up Demo.external (first_start Demo.set_up)
    Hs eq_refl Hp eq_refl eq_refl) as (w' & He & Hh & _).
  exists w'. split; [exact He|exact Hh].
Defined.

(** ** Where the code parts from its comments *)

(** The slot and the user id of a box are free before its VMM is stopped: a box
    created in between runs with the same TAP and the same user. *)
Example slot_reused_under_running_vmm :
  let w := (deregister 0 Demo.w1).1 in
  let w := (Provision Demo.p (Demo.opts "db") (Demo.env 2) w).1 in
  (fun v => (vm_token v, fc_UID (vm_cfg v), fc_Nics (vm_cfg v))) <$> w_vms w =
  [("000000000002", 100000, [("AA:FC:00:00:00:00", "llmboxfc0")]);
   ("000000000001", 100000, [("AA:FC:00:00:00:00", "llmboxfc0")])].
Proof. vm_compute. reflexivity. Qed.

(** A spoke that dies between the boot and the saving of the metadata leaves a VM
    that nothing accounts for: after the restart its slot and user id are given
    to the next box while it still runs. *)
Example crash_during_boot_leaks_slot :
  let w := (bootMachine Demo.p Demo.boot Demo.m1 Demo.r1).1 in
  let w := NewProvisioner Demo.p (fun _ => true) (fun _ => true) (w_disk w) (w_chroots w) (w_vms w) (w_pids w) (w_host w) in
  let w := (Provision Demo.p (Demo.opts "db") (Demo.env 2) w).1 in
  ((fun i => (m_BoxID (i_meta i), m_NetIndex (i_meta i), m_UID (i_meta i))) <$> omap (inst w) (List_ Demo.p w),
   (fun v => (vm_token v, fc_UID (vm_cfg v))) <$> w_vms w) =
  ([("db", 0, 100000)], [("000000000002", 100000); ("000000000001", 100000)]).
Proof. vm_compute. reflexivity. Qed.

(** [Find] takes a prefix of a token, even the empty one, for a handle: with two
    boxes it returns whichever the map lists first. *)
Example Find_matches_prefixes :
  let w := (Provision Demo.p (Demo.opts "db") (Demo.env 2) Demo.w1).1 in
  (Find Demo.p "0000" w, Find Demo.p "" w, Find Demo.p "000000000001" w, Find Demo.p "db" w, length (List_ Demo.p w)) =
  (Ok 0%nat, Ok 0%nat, Ok 0%nat, Ok 1%nat, 2%nat).
Proof. vm_compute. reflexivity. Qed.
