(* ===== verification/Docker.v ===== *)
(** * The Docker backend (internal/spoke/docker)

    Boxes as containers of a Docker daemon, each on a network of its own, reached
    over a socket in a host directory bind-mounted into it.  The daemon is the
    class [DockerAPI], with the documented effect of each call on what it holds
    as [DockerLaws]; [SimDocker] is a daemon that obeys them.  What the rest of
    the host answers (the random source, the file system, the clock) is an
    argument of each operation. *)

From S2P Require Import Prelude GoStrings Sandbox Sha256 Mvmnet Microvm.

Local Open Scope Z_scope.
Local Open Scope go_scope.

(** ** What crosses the Docker API *)

(** An error of the daemon: [errdefs.IsNotFound] or another. *)
Inductive DErr := DNotFound | DFailed (msg : string).

Abbreviation Labels := (gmap string string).

Record DeviceRequest := MkDeviceRequest {
  dq_Count : Z;
  dq_DeviceIDs : list string;
  dq_Capabilities : list (list string);
}.

Record Mount := MkMount { mt_Type : string; mt_Source : string; mt_Target : string }.

Record ContainerConfig := MkContainerConfig {
  cc_Image : string;
  cc_Hostname : string;
  cc_Entrypoint : list string;
  cc_Labels : Labels;
  cc_User : string;
  cc_WorkingDir : string;
  cc_Env : list string;
}.

Record HostConfig := MkHostConfig {
  hc_RestartPolicy : string;
  hc_SecurityOpt : list string;
  hc_Mounts : list Mount;
  hc_Memory : Z;
  hc_NanoCPUs : Z;
  hc_PidsLimit : option Z;
  hc_DeviceRequests : list DeviceRequest;
}.

Record Summary := MkSummary {
  sm_ID : string;
  sm_Names : list string;
  sm_Labels : Labels;
  sm_Image : string;
  sm_State : string;
  sm_Status : string;
  sm_Created : Z;
}.

(** The calls the provisioner makes ([dockerAPI]).  A list filter is a set of
    labels with their values; listings include stopped containers.  A pull
    yields whether its progress could be read to the end. *)
Class DockerAPI (D : Type) := {
  ContainerList : list (string * string) -> go D DErr (list Summary);
  ContainerCreate : ContainerConfig -> HostConfig -> go D DErr string;
  ContainerStart : string -> go D DErr ();
  ContainerStop : string -> go D DErr ();
  ContainerRemove : bool -> string -> go D DErr ();
  ContainerRename : string -> string -> go D DErr ();
  ImagePull : string -> string -> go D DErr bool;
  NetworkCreate : string -> Labels -> go D DErr ();
  NetworkConnect : string -> string -> go D DErr ();
  NetworkDisconnect : string -> string -> go D DErr ();
  NetworkRemove : string -> go D DErr ();
}.

(** ** Constants *)

Definition ManagedLabel : string := "com.llmbox.managed".
Definition BoxIDLabel : string := "com.llmbox.box-id".
Definition DescriptionLabel : string := "com.llmbox.description".
Definition GenerationLabel : string := "com.llmbox.generation".
Definition socketLabel : string := "com.llmbox.socket".
Definition NamespaceLabel : string := "com.llmbox.namespace".
Definition DefaultImage : string := "ghcr.io/clems4ever/llmbox-box:latest".
Definition DefaultSocketDir : string := "/run/llmbox/boxsockets".
Definition socketMountTarget : string := "/run/llmbox".
Definition socketFileName : string := "control.sock".
Definition apiSocketName : string := "boxapi.sock".
Definition boxHome : string := "/root".
Definition boxWorkdir : string := "/workspace".
Definition pendingPrefix : string := "llmbox-pending-".
Definition readyPrefix : string := "llmbox-".
Definition defaultBridgeNetwork : string := "bridge".
Definition socketWait : Z := 30 * Second.

(** ** The provisioner *)

(** The configuration; [pv_registryAuths] holds the credentials by registry host,
    [pv_ports] says whether a port service is there. *)
Record Provisioner := MkProvisioner {
  pv_defaultImage : string;
  pv_socketDir : string;
  pv_peers : list string;
  pv_namespace : string;
  pv_limits : Limits;
  pv_boxGPUs : list DeviceRequest;
  pv_registryAuths : gmap string string;
  pv_ports : bool;
}.

(** A box-port server: the box it acts for and its socket. *)
Record ApiServer := MkApiServer { as_BoxID : string; as_Path : string }.

(** The daemon, the directories of the boxes by socket token (does the directory
    hold the paused marker? the empty token is the socket directory itself) and
    the running box-port servers by generation. *)
Record World (D : Type) := MkWorld {
  dw_d : D;
  dw_dirs : gmap string bool;
  dw_api : gmap string ApiServer;
}.
Arguments MkWorld {D}.
Arguments dw_d {D}.
Arguments dw_dirs {D}.
Arguments dw_api {D}.

Record dockerInstance := MkInstance { di_box : Box; di_containerID : string; di_socketToken : string }.

Inductive DockerError :=
| ErrInvalidBoxID | ErrRandom | ErrMkdir | ErrPull | ErrCreate (e : DErr) | ErrServe
| ErrNetCreate (e : DErr) | ErrNetConnect (e : DErr) | ErrNetDetach (e : DErr) | ErrRename (e : DErr)
| ErrStart (e : DErr) | ErrWait (e : waitError) | ErrList (e : DErr) | ErrNotFound (id : string)
| ErrMarker | ErrStop (e : DErr) | ErrRemove (e : DErr).

Definition NewProvisioner (defaultImage socketDir : string) (peers : list string) (ports : bool) : Provisioner :=
  MkProvisioner (if String.eqb defaultImage "" then DefaultImage else defaultImage)
    (if String.eqb socketDir "" then DefaultSocketDir else socketDir)
    peers "" (MkLimits 0 0 0 0 0 0) [] ∅ ports.

Definition SetPerBoxLimits (l : Limits) (p : Provisioner) : Provisioner :=
  MkProvisioner (pv_defaultImage p) (pv_socketDir p) (pv_peers p) (pv_namespace p) l (pv_boxGPUs p) (pv_registryAuths p) (pv_ports p).
Definition SetRegistryAuths (auths : gmap string string) (p : Provisioner) : Provisioner :=
  MkProvisioner (pv_defaultImage p) (pv_socketDir p) (pv_peers p) (pv_namespace p) (pv_limits p) (pv_boxGPUs p) auths (pv_ports p).
Definition SetNamespace (ns : string) (p : Provisioner) : Provisioner :=
  MkProvisioner (pv_defaultImage p) (pv_socketDir p) (pv_peers p) ns (pv_limits p) (pv_boxGPUs p) (pv_registryAuths p) (pv_ports p).

(** ** GPUs *)

Definition splitGPUList (list_ : string) : list string :=
  filter (fun part => part <> "") (TrimSpace <$> Split list_ ",").

(** The error is the text of the specification. *)
Definition parseGPUs (spec : string) : res string (list DeviceRequest) :=
  let spec := TrimSpace spec in
  let req count ids := MkDeviceRequest count ids [["gpu"]] in
  let select r :=
    if (dq_Count r =? 0) && (length (dq_DeviceIDs r) =? 0)%nat then Err spec else Ok [r] in
  if String.eqb spec "" then Ok []
  else if String.eqb spec "all" then select (req (-1) [])
  else
    match CutPrefix spec "device=" with
    | Some rest => select (req 0 (splitGPUList rest))
    | None =>
        if negb (ContainsByte spec ",") then
          match Atoi spec with
          | Some n => if n <=? 0 then Err spec else select (req n [])
          | None => select (req 0 [spec])
          end
        else select (req 0 (splitGPUList spec))
    end.

Definition SetBoxGPUs (spec : string) (p : Provisioner) : res string Provisioner :=
  let! reqs := parseGPUs spec in
  Ok (MkProvisioner (pv_defaultImage p) (pv_socketDir p) (pv_peers p) (pv_namespace p) (pv_limits p) reqs
        (pv_registryAuths p) (pv_ports p)).

(** ** Views of containers *)

Definition managedFilter (p : Provisioner) : list (string * string) :=
  (ManagedLabel, "true") :: (if String.eqb (pv_namespace p) "" then [] else [(NamespaceLabel, pv_namespace p)]).

Definition phaseOf (name : string) : string := if HasPrefix name pendingPrefix then "pending" else "ready".

(** A label that is not there reads as the empty string. *)
Definition label (ls : Labels) (k : string) : string := default "" (ls !! k).

Definition boxFromSummary (c : Summary) : Box :=
  let name := match sm_Names c with [] => "" | n :: _ => default n (CutPrefix n "/") end in
  MkBox (label (sm_Labels c) GenerationLabel) name (label (sm_Labels c) BoxIDLabel)
    (label (sm_Labels c) DescriptionLabel) "" (sm_Image c) (sm_State c) (sm_Status c) (phaseOf name) "" (sm_Created c) 0.

Definition pausedMarkerExists (dirs : gmap string bool) (socketToken : string) : bool :=
  default false (dirs !! socketToken).

Definition set_State (s : string) (b : Box) : Box :=
  MkBox (box_InstanceID b) (box_Name b) (box_BoxID b) (box_Description b) (box_Spoke b) (box_Image b) s
    (box_Status b) (box_Phase b) (box_LastError b) (box_Created b) (box_LastSeen b).

(** The body of the loop of [List]. *)
Definition instance_of (dirs : gmap string bool) (c : Summary) : dockerInstance :=
  let token := label (sm_Labels c) socketLabel in
  let b := boxFromSummary c in
  MkInstance (if negb (String.eqb token "") && pausedMarkerExists dirs token then set_State StatePaused b else b)
    (sm_ID c) token.

Definition boxNetworkName (id : string) : string := "llmboxnet-" +:+ String.substring 0 12 id.

(** The test of [Find]. *)
Definition answers_to (idOrName : string) (i : dockerInstance) : bool :=
  let b := di_box i in
  (negb (String.eqb (box_BoxID b) "") && String.eqb (box_BoxID b) idOrName) ||
  (negb (String.eqb (box_InstanceID b) "") && String.eqb (box_InstanceID b) idOrName) ||
  String.eqb (box_Name b) idOrName ||
  String.eqb (box_Name b) (pendingPrefix +:+ idOrName) ||
  String.eqb (box_Name b) (readyPrefix +:+ idOrName).

Definition socketPath (p : Provisioner) (i : dockerInstance) : string :=
  path_Join [pv_socketDir p; di_socketToken i; socketFileName].
Definition pausedMarkerPath (p : Provisioner) (i : dockerInstance) : string :=
  path_Join [pv_socketDir p; di_socketToken i; "paused"].

(** Eight random bytes in hexadecimal. *)
Definition newSocketToken (rnd : option (list Z)) : option string := hex_encode <$> rnd.
Definition newGenerationToken (rnd : option (list Z)) : option string := hex_encode <$> rnd.

(** ** What a container is created with *)

Definition box_labels (p : Provisioner) (opts : CreateOptions) (token generation : string) : Labels :=
  let ls : Labels := <[GenerationLabel := generation]> (<[socketLabel := token]> {[ManagedLabel := "true"]}) in
  let ls := if String.eqb (pv_namespace p) "" then ls else <[NamespaceLabel := pv_namespace p]> ls in
  let ls := if String.eqb (co_BoxID opts) "" then ls else <[BoxIDLabel := co_BoxID opts]> ls in
  if String.eqb (co_Description opts) "" then ls else <[DescriptionLabel := co_Description opts]> ls.

Definition container_config (p : Provisioner) (opts : CreateOptions) (token generation : string) : ContainerConfig :=
  MkContainerConfig (pv_defaultImage p) (co_BoxID opts)
    ["tini"; "-g"; "--"; "llmbox-guest"; "--socket"; path_Join [socketMountTarget; socketFileName]]
    (box_labels p opts token generation) "0:0" boxWorkdir ["HOME=" +:+ boxHome].

Definition host_config (p : Provisioner) (token : string) : HostConfig :=
  let l := pv_limits p in
  MkHostConfig "unless-stopped" ["no-new-privileges"]
    [MkMount "bind" (path_Join [pv_socketDir p; token]) socketMountTarget]
    (if 0 <? lim_MemoryBytes l then lim_MemoryBytes l else 0)
    (if 0 <? lim_NanoCPUs l then lim_NanoCPUs l else 0)
    (if 0 <? lim_PidsLimit l then Some (lim_PidsLimit l) else None)
    (pv_boxGPUs p).

Definition network_labels (p : Provisioner) : Labels :=
  let ls : Labels := {[ManagedLabel := "true"]} in
  if String.eqb (pv_namespace p) "" then ls else <[NamespaceLabel := pv_namespace p]> ls.

(** ** Waiting for the control socket *)

(** What the polling loop of [waitForSocket] meets: is the socket there at round
    [k], the clock after that round, has the context ended by then? *)
Record WaitEnv := MkWaitEnv {
  we_stat : nat -> bool;
  we_clock : nat -> Z;
  we_done : nat -> bool;
  we_start : Z;
}.

Definition pollPeriod : Z := 20 * Millisecond.

(** The rounds that fit the timeout, and the last one. *)
Definition wait_rounds : nat := Z.to_nat (socketWait / pollPeriod) + 2.

Definition waitForSocket (env : WaitEnv) : res waitError () :=
  default (Err WaitTimeout)
    (wait_for wait_rounds (we_stat env) (we_clock env) (we_done env) (we_start env) socketWait).

(** What the host answers to one [Provision].  [pe_rest] is what [os.RemoveAll]
    leaves of the directory when it fails (see [removed]). *)
Record ProvEnv := MkProvEnv {
  pe_token : option (list Z);
  pe_generation : option (list Z);
  pe_mkdir : bool;
  pe_serve : bool;
  pe_wait : WaitEnv;
  pe_now : Z;
  pe_rest : option bool;
}.

(** The directories after a removal: [None] is one that succeeds, [Some marker]
    one that fails and keeps the marker, if it was there, or not. *)
Definition removed (rest : option bool) (token : string) (dirs : gmap string bool) : gmap string bool :=
  match rest with
  | None => delete token dirs
  | Some marker => alter (andb marker) token dirs
  end.

Section Operations.
Context {D : Type} `{DockerAPI D}.

(** The registry host of an image reference ([reference.ParseNormalizedNamed] and
    [reference.Domain]) and the encoding of credentials. *)
Context (refDomain : string -> option string) (EncodeAuthConfig : string -> option string).
Implicit Types (p : Provisioner) (w : World D).

(** A call of the daemon whose error is wrapped by [f]. *)
Definition call {A} (f : DErr -> DockerError) (m : go D DErr A) : go (World D) DockerError A :=
  fun w =>
    match m (dw_d w) with
    | (d, Ok a) => (MkWorld d (dw_dirs w) (dw_api w), Ok a)
    | (d, Err e) => (MkWorld d (dw_dirs w) (dw_api w), Err (f e))
    end.

(** A call whose not-found error means that the box is gone. *)
Definition gone_or (i : dockerInstance) (f : DErr -> DockerError) (e : DErr) : DockerError :=
  match e with
  | DNotFound => ErrNotFound (box_BoxID (di_box i))
  | DFailed _ => f e
  end.

Definition set_dirs (dirs : gmap string bool) w : World D := MkWorld (dw_d w) dirs (dw_api w).
Definition set_api (api : gmap string ApiServer) w : World D := MkWorld (dw_d w) (dw_dirs w) api.

(** [os.MkdirAll] and [os.RemoveAll] of the directory of a box.  The code ignores
    whether the removal succeeds: one that fails leaves the directory, and the
    paused marker that was in it or not. *)
Definition mkdir_all (token : string) w : World D := set_dirs (<[token := pausedMarkerExists (dw_dirs w) token]> (dw_dirs w)) w.
Definition remove_all (rest : option bool) (token : string) w : World D := set_dirs (removed rest token (dw_dirs w)) w.

Definition List_ p : go (World D) DockerError (list dockerInstance) :=
  let* cs := call ErrList (ContainerList (managedFilter p)) in
  fun w => (w, Ok (instance_of (dw_dirs w) <$> cs)).

Definition Find p (idOrName : string) : go (World D) DockerError dockerInstance :=
  let* insts := List_ p in
  match first_match (answers_to idOrName) insts with
  | Some i => go_ret i
  | None => go_fail (ErrNotFound idOrName)
  end.

(** *** The box-port servers *)

Definition startBoxAPI p (serve : bool) (generation boxID token : string) : go (World D) DockerError () :=
  fun w =>
    if negb (pv_ports p) then (w, Ok ())
    else if serve then
      (set_api (<[generation := MkApiServer boxID (path_Join [pv_socketDir p; token; apiSocketName])]> (dw_api w)) w, Ok ())
    else (w, Err ErrServe).

Definition stopBoxAPI (generation : string) w : World D := set_api (delete generation (dw_api w)) w.
Definition stopAllBoxAPIs w : World D := set_api ∅ w.
Definition Close w : World D := stopAllBoxAPIs w.

(** [serve] says for which instances a socket can be made. *)
Definition RecoverBoxAPIs p (serve : dockerInstance -> bool) : go (World D) DockerError () :=
  if negb (pv_ports p) then go_ret ()
  else
    let* insts := List_ p in
    for_each insts (fun di =>
      if String.eqb (di_socketToken di) "" then go_ret ()
      else go_ignore (startBoxAPI p (serve di) (box_InstanceID (di_box di)) (box_BoxID (di_box di)) (di_socketToken di))).

(** *** Networks *)

Definition setupBoxNetwork p (id : string) : go (World D) DockerError () :=
  let name := boxNetworkName id in
  let* _ := call ErrNetCreate (NetworkCreate name (network_labels p)) in
  let* _ := call ErrNetConnect (NetworkConnect name id) in
  let* _ := for_each (pv_peers p) (fun peer => go_ignore (call ErrNetConnect (NetworkConnect name peer))) in
  call ErrNetDetach (NetworkDisconnect defaultBridgeNetwork id).

Definition removeBoxNetwork p (id : string) : go (World D) DockerError () :=
  let name := boxNetworkName id in
  let* _ := for_each (pv_peers p) (fun peer => go_ignore (call ErrNetDetach (NetworkDisconnect name peer))) in
  go_ignore (call ErrRemove (NetworkRemove name)).

(** *** Images *)

Definition registryAuthFor p (ref : string) : option string :=
  if bool_decide (pv_registryAuths p = ∅) then None
  else
    match refDomain ref with
    | None => None
    | Some host => pv_registryAuths p !! host
    end.

Definition pullImage p (ref : string) : go (World D) DockerError () :=
  let pull (auth : string) :=
    let* complete := call (fun _ => ErrPull) (ImagePull ref auth) in
    if complete : bool then go_ret () else go_fail ErrPull in
  match registryAuthFor p ref with
  | None => pull ""
  | Some auth =>
      match EncodeAuthConfig auth with
      | None => go_fail ErrPull
      | Some encoded => pull encoded
      end
  end.

(** *** Provision *)

(** Creating the container, pulling its image when it is missing. *)
Definition create_container p (cfg : ContainerConfig) (hostCfg : HostConfig) : go (World D) DockerError string :=
  fun w =>
    match call ErrCreate (ContainerCreate cfg hostCfg) w with
    | (w', Err (ErrCreate DNotFound)) =>
        (let* _ := pullImage p (cc_Image cfg) in call ErrCreate (ContainerCreate cfg hostCfg)) w'
    | r => r
    end.

Definition cleanup p (rest : option bool) (generation id token : string) w : World D :=
  let w := stopBoxAPI generation w in
  let w := (call ErrRemove (ContainerRemove true id) w).1 in
  let w := (removeBoxNetwork p id w).1 in
  remove_all rest token w.

(** From the created container to the running box. *)
Definition launch p (opts : CreateOptions) (env : ProvEnv) (generation id token : string) : go (World D) DockerError () :=
  let* _ := startBoxAPI p (pe_serve env) generation (co_BoxID opts) token in
  let* _ := setupBoxNetwork p id in
  let* _ := call ErrRename (ContainerRename id (pendingPrefix +:+ generation)) in
  let* _ := call ErrStart (ContainerStart id) in
  match waitForSocket (pe_wait env) with
  | Ok _ => go_ret ()
  | Err e => go_fail (ErrWait e)
  end.

Definition new_instance p (opts : CreateOptions) (now : Z) (generation id token : string) : dockerInstance :=
  MkInstance (MkBox generation (pendingPrefix +:+ generation) (co_BoxID opts) (co_Description opts) ""
    (pv_defaultImage p) "running" "" "pending" "" now 0) id token.

Definition Provision p (opts : CreateOptions) (env : ProvEnv) : go (World D) DockerError dockerInstance :=
  if negb (String.eqb (co_BoxID opts) "") && negb (ValidBoxID (co_BoxID opts)) then go_fail ErrInvalidBoxID
  else
    match newSocketToken (pe_token env), newGenerationToken (pe_generation env) with
    | Some token, Some generation =>
        if negb (pe_mkdir env) then go_fail ErrMkdir
        else fun w =>
          (let* id := go_cleanup (create_container p (container_config p opts token generation) (host_config p token))
                        (remove_all (pe_rest env) token) in
           let* _ := go_cleanup (launch p opts env generation id token) (cleanup p (pe_rest env) generation id token) in
           go_ret (new_instance p opts (pe_now env) generation id token)) (mkdir_all token w)
    | _, _ => go_fail ErrRandom
    end.

(** *** Instances *)

Definition Meta (i : dockerInstance) : Box := di_box i.

Definition MarkReady (i : dockerInstance) : go (World D) DockerError () :=
  call ErrRename (ContainerRename (di_containerID i) (readyPrefix +:+ box_InstanceID (di_box i))).

(** Whether the marker can be written is [ok]; it can only be in a directory that
    exists. *)
Definition Pause (ok : bool) (i : dockerInstance) : go (World D) DockerError () :=
  fun w =>
    if negb (ok && bool_decide (is_Some (dw_dirs w !! di_socketToken i))) then (w, Err ErrMarker)
    else
      go_cleanup (call (gone_or i ErrStop) (ContainerStop (di_containerID i)))
        (fun w => set_dirs (<[di_socketToken i := false]> (dw_dirs w)) w)
        (set_dirs (<[di_socketToken i := true]> (dw_dirs w)) w).

(** Whether the marker can be removed, when it is there, is [ok]. *)
Definition Resume (env : WaitEnv) (ok : bool) (i : dockerInstance) : go (World D) DockerError () :=
  let* _ := call (gone_or i ErrStart) (ContainerStart (di_containerID i)) in
  match waitForSocket env with
  | Err e => go_fail (ErrWait e)
  | Ok _ => fun w =>
      if pausedMarkerExists (dw_dirs w) (di_socketToken i) then
        if ok then (set_dirs (<[di_socketToken i := false]> (dw_dirs w)) w, Ok ()) else (w, Err ErrMarker)
      else (w, Ok ())
  end.

Definition Destroy p (rest : option bool) (i : dockerInstance) : go (World D) DockerError () :=
  let id := di_containerID i in
  let* _ := call (gone_or i ErrStop) (ContainerStop id) in
  let* _ := call (gone_or i ErrRemove) (ContainerRemove false id) in
  let* _ := removeBoxNetwork p id in
  fun w =>
    let w := stopBoxAPI (box_InstanceID (di_box i)) w in
    (if String.eqb (di_socketToken i) "" then w else remove_all rest (di_socketToken i) w, Ok ()).

(** ** Start-up *)

(** [newBackend]: the provisioner of the options, and the servers of the boxes
    that outlived the last process.  A failed recovery is only logged. *)
Definition newBackend (opts : Options) (auths : gmap string string) (ports : bool)
    (serve : dockerInstance -> bool) (d : D) (dirs : gmap string bool) : res string (Provisioner * World D) :=
  let p := SetRegistryAuths auths
             (SetPerBoxLimits (opt_Limits opts)
                (NewProvisioner (opt_DefaultImage opts) (opt_SocketDir opts) (opt_Peers opts) ports)) in
  let! p := SetBoxGPUs (opt_GPUs opts) p in
  let p := SetNamespace (opt_Namespace opts) p in
  Ok (p, (RecoverBoxAPIs p serve (MkWorld d dirs ∅)).1).
End Operations.

(** ** What a daemon holds, and what its calls do *)

Record Ctr := MkCtr {
  ct_Name : string;
  ct_Config : ContainerConfig;
  ct_Host : HostConfig;
  ct_Running : bool;
  ct_Nets : gset string;
}.

Definition ct_Labels (c : Ctr) : Labels := cc_Labels (ct_Config c).

Definition set_Name (n : string) (c : Ctr) : Ctr := MkCtr n (ct_Config c) (ct_Host c) (ct_Running c) (ct_Nets c).
Definition set_Running (r : bool) (c : Ctr) : Ctr := MkCtr (ct_Name c) (ct_Config c) (ct_Host c) r (ct_Nets c).
Definition set_Nets (ns : gset string) (c : Ctr) : Ctr := MkCtr (ct_Name c) (ct_Config c) (ct_Host c) (ct_Running c) ns.
Definition join (n : string) (c : Ctr) : Ctr := set_Nets ({[n]} ∪ ct_Nets c) c.
Definition leave (n : string) (c : Ctr) : Ctr := set_Nets (ct_Nets c ∖ {[n]}) c.

(** Containers by id, networks by name, and the ids handed out so far. *)
Record Daemon := MkDaemon {
  dm_ctrs : gmap string Ctr;
  dm_nets : gmap string Labels;
  dm_used : gset string;
}.

Definition alter_ctr (f : Ctr -> Ctr) (id : string) (dm : Daemon) : Daemon :=
  MkDaemon (alter f id (dm_ctrs dm)) (dm_nets dm) (dm_used dm).
Definition add_ctr (id : string) (c : Ctr) (dm : Daemon) : Daemon :=
  MkDaemon (<[id := c]> (dm_ctrs dm)) (dm_nets dm) ({[id]} ∪ dm_used dm).
Definition del_ctr (id : string) (dm : Daemon) : Daemon :=
  MkDaemon (delete id (dm_ctrs dm)) (dm_nets dm) (dm_used dm).
Definition add_net (n : string) (ls : Labels) (dm : Daemon) : Daemon :=
  MkDaemon (dm_ctrs dm) (<[n := ls]> (dm_nets dm)) (dm_used dm).
Definition del_net (n : string) (dm : Daemon) : Daemon :=
  MkDaemon (dm_ctrs dm) (delete n (dm_nets dm)) (dm_used dm).

(** A container id: 64 hexadecimal digits. *)
Definition is_hex (c : ascii) : bool := is_digit c || (Ascii.leb "a" c && Ascii.leb c "f").
Definition isID (s : string) : bool := Nat.eqb (String.length s) 64 && string_forallb is_hex s.

Definition labelled (fs : list (string * string)) (c : Ctr) : bool :=
  forallb (fun kv => bool_decide (ct_Labels c !! kv.1 = Some kv.2)) fs.

(** A listing names each container with the labels once, by its id and name. *)
Definition listing (fs : list (string * string)) (dm : Daemon) (l : list Summary) : Prop :=
  NoDup (sm_ID <$> l) /\
  (forall s, s ∈ l -> exists c, dm_ctrs dm !! sm_ID s = Some c /\ labelled fs c = true /\
     sm_Names s = ["/" +:+ ct_Name c] /\ sm_Labels s = ct_Labels c) /\
  (forall id c, dm_ctrs dm !! id = Some c -> labelled fs c = true -> id ∈ sm_ID <$> l).

(** What a daemon keeps: ids handed out are ids, names are unique and no id is
    one, a container is on networks that exist, and the default bridge does. *)
Record daemon_wf (dm : Daemon) : Prop := {
  wf_used : forall id, is_Some (dm_ctrs dm !! id) -> id ∈ dm_used dm;
  wf_ids : forall id, id ∈ dm_used dm -> isID id = true;
  wf_names : forall id id' c c', dm_ctrs dm !! id = Some c -> dm_ctrs dm !! id' = Some c' ->
    ct_Name c = ct_Name c' -> id = id';
  wf_named : forall id c, dm_ctrs dm !! id = Some c -> ct_Name c ∉ dm_used dm;
  wf_nets : forall id c n, dm_ctrs dm !! id = Some c -> n ∈ ct_Nets c -> is_Some (dm_nets dm !! n);
  wf_bridge : is_Some (dm_nets dm !! defaultBridgeNetwork);
}.

(** The container an argument of a network call refers to, by its id or its name. *)
Definition refers (dm : Daemon) (x id : string) : Prop :=
  exists c, dm_ctrs dm !! id = Some c /\ (x = id \/ x = ct_Name c).

(** The documented effect of the calls.  A start or a stop that fails can leave
    the container either way; a removal that fails can still have removed it;
    everything else that fails changes nothing. *)
Class DockerLaws (D : Type) `{DockerAPI D} := {
  obs : D -> Daemon;
  obs_wf d : daemon_wf (obs d);
  List_law fs d d' r : ContainerList fs d = (d', r) ->
    obs d' = obs d /\ match r with Ok l => listing fs (obs d) l | Err _ => True end;
  Create_law cfg hc d d' r : ContainerCreate cfg hc d = (d', r) ->
    match r with
    | Ok id => id ∉ dm_used (obs d) /\ exists name,
        obs d' = add_ctr id (MkCtr name cfg hc false {[defaultBridgeNetwork]}) (obs d)
    | Err _ => obs d' = obs d
    end;
  Start_law id d d' r : ContainerStart id d = (d', r) ->
    match r with
    | Ok _ => is_Some (dm_ctrs (obs d) !! id) /\ obs d' = alter_ctr (set_Running true) id (obs d)
    | Err _ => exists run, obs d' = alter_ctr (set_Running run) id (obs d)
    end;
  Stop_law id d d' r : ContainerStop id d = (d', r) ->
    match r with
    | Ok _ => is_Some (dm_ctrs (obs d) !! id) /\ obs d' = alter_ctr (set_Running false) id (obs d)
    | Err DNotFound => dm_ctrs (obs d) !! id = None /\ obs d' = obs d
    | Err _ => exists run, obs d' = alter_ctr (set_Running run) id (obs d)
    end;
  Remove_law force id d d' r : ContainerRemove force id d = (d', r) ->
    match r with
    | Ok _ => is_Some (dm_ctrs (obs d) !! id) /\ obs d' = del_ctr id (obs d)
    | Err DNotFound => dm_ctrs (obs d) !! id = None /\ obs d' = obs d
    | Err _ => obs d' = obs d \/ obs d' = del_ctr id (obs d)
    end;
  Rename_law id n d d' r : ContainerRename id n d = (d', r) ->
    match r with
    | Ok _ => is_Some (dm_ctrs (obs d) !! id) /\ obs d' = alter_ctr (set_Name n) id (obs d)
    | Err _ => obs d' = obs d
    end;
  Pull_law ref auth d d' r : ImagePull ref auth d = (d', r) -> obs d' = obs d;
  NetCreate_law n ls d d' r : NetworkCreate n ls d = (d', r) ->
    match r with
    | Ok _ => dm_nets (obs d) !! n = None /\ obs d' = add_net n ls (obs d)
    | Err _ => obs d' = obs d
    end;
  Connect_law n x d d' r : NetworkConnect n x d = (d', r) ->
    match r with
    | Ok _ => exists id, refers (obs d) x id /\ obs d' = alter_ctr (join n) id (obs d)
    | Err _ => obs d' = obs d
    end;
  Disconnect_law n x d d' r : NetworkDisconnect n x d = (d', r) ->
    match r with
    | Ok _ => exists id, refers (obs d) x id /\ obs d' = alter_ctr (leave n) id (obs d)
    | Err _ => obs d' = obs d
    end;
  NetRemove_law n d d' r : NetworkRemove n d = (d', r) ->
    match r with
    | Ok _ => obs d' = del_net n (obs d)
    | Err _ => obs d' = obs d
    end;
}.

(** A daemon that is up: a forced removal of a container, the forced
    disconnection of one that is on the network and the removal of a network
    nobody is on, the default bridge apart, succeed. *)
Class DockerUp (D : Type) `{DockerLaws D} := {
  Remove_up id d : is_Some (dm_ctrs (obs d) !! id) -> (ContainerRemove true id d).2 = Ok ();
  Disconnect_up n x id c d : refers (obs d) x id -> dm_ctrs (obs d) !! id = Some c -> n ∈ ct_Nets c ->
    (NetworkDisconnect n x d).2 = Ok ();
  NetRemove_up n d : is_Some (dm_nets (obs d) !! n) -> n <> defaultBridgeNetwork ->
    (forall id c, dm_ctrs (obs d) !! id = Some c -> n ∉ ct_Nets c) -> (NetworkRemove n d).2 = Ok ();
}.

(** ** Which containers an operation touches *)

(** [c'] is [c] but for its place on the network [n], which only a peer changes. *)
Definition kept (p : Provisioner) (n : string) (c c' : Ctr) : Prop :=
  leave n c' = leave n c /\ (c' = c \/ ct_Name c ∈ pv_peers p).

(** From [dm] to [dm'] only the container [id], its network and the peers' places
    on that network have changed. *)
Record touch (p : Provisioner) (id : string) (dm dm' : Daemon) : Prop := {
  touch_ctrs : forall jd, jd <> id -> option_Forall2 (kept p (boxNetworkName id)) (dm_ctrs dm !! jd) (dm_ctrs dm' !! jd);
  touch_self : forall c', dm_ctrs dm' !! id = Some c' -> exists c, dm_ctrs dm !! id = Some c /\ ct_Config c' = ct_Config c;
  touch_nets : delete (boxNetworkName id) (dm_nets dm') = delete (boxNetworkName id) (dm_nets dm);
  touch_used : dm_used dm' = dm_used dm;
}.

#[export] Instance kept_refl p n : Reflexive (kept p n).
Proof. intros c. split; auto. Qed.
#[export] Instance kept_trans p n : Transitive (kept p n).
Proof.
  intros c1 c2 c3 [H1 Hp1] [H2 Hp2]. split; [congruence|].
  assert (Hn : ct_Name c2 = ct_Name c1) by (injection H1; auto). rewrite Hn in Hp2.
  destruct Hp1 as [->|]; [|by right]. destruct Hp2 as [->|]; auto.
Qed.

#[export] Instance touch_refl p id : Reflexive (touch p id).
Proof. intros dm. split; [intros jd _; reflexivity|eauto|done|done]. Qed.
#[export] Instance touch_trans p id : Transitive (touch p id).
Proof.
  intros d1 d2 d3 H1 H2. split.
  - intros jd Hne. etrans; [by apply (touch_ctrs _ _ _ _ H1)|by apply (touch_ctrs _ _ _ _ H2)].
  - intros c' Hc. destruct (touch_self _ _ _ _ H2 _ Hc) as (c2 & Hc2 & ->).
    destruct (touch_self _ _ _ _ H1 _ Hc2) as (c1 & Hc1 & ->). eauto.
  - by rewrite (touch_nets _ _ _ _ H2), (touch_nets _ _ _ _ H1).
  - by rewrite (touch_used _ _ _ _ H2), (touch_used _ _ _ _ H1).
Qed.

(** Elementary changes. *)
Lemma touch_alter_self p id f dm :
  (forall c, ct_Config (f c) = ct_Config c) -> touch p id dm (alter_ctr f id dm).
Proof.
  intros Hf. split; try done; cbn [dm_ctrs alter_ctr].
  - intros jd Hne. rewrite lookup_alter_ne by done. reflexivity.
  - intros c'. rewrite lookup_alter_eq. destruct (dm_ctrs dm !! id) as [c|]; [|done]. intros [= <-]. eauto.
Qed.

Lemma touch_alter_peer p id jd f dm :
  (forall c, leave (boxNetworkName id) (f c) = leave (boxNetworkName id) c) -> (forall c, ct_Config (f c) = ct_Config c) ->
  (forall c, dm_ctrs dm !! jd = Some c -> jd <> id -> ct_Name c ∈ pv_peers p) -> touch p id dm (alter_ctr f jd dm).
Proof.
  intros Hl Hf Hp. destruct (decide (jd = id)) as [->|Hne]; [by apply touch_alter_self|].
  split; try done; cbn [dm_ctrs alter_ctr].
  - intros kd Hk. destruct (decide (kd = jd)) as [->|]; [|by rewrite lookup_alter_ne].
    rewrite lookup_alter_eq. destruct (dm_ctrs dm !! jd) as [c|]; [|by constructor].
    constructor. split; [done|]. right. by apply Hp.
  - intros c'. rewrite lookup_alter_ne by done. eauto.
Qed.

Lemma touch_del p id dm : touch p id dm (del_ctr id dm).
Proof.
  split; try done; cbn [dm_ctrs del_ctr].
  - intros jd Hne. rewrite lookup_delete_ne by done. reflexivity.
  - intros c'. by rewrite lookup_delete_eq.
Qed.

Lemma touch_net p id f dm :
  delete (boxNetworkName id) f = delete (boxNetworkName id) (dm_nets dm) -> touch p id dm (MkDaemon (dm_ctrs dm) f (dm_used dm)).
Proof. intros Hf. split; [intros jd _; reflexivity|eauto|done|done]. Qed.

Lemma leave_join n c : leave n (join n c) = leave n c.
Proof. unfold leave, join, set_Nets. cbn [ct_Nets ct_Name ct_Config ct_Host ct_Running]. f_equal. set_solver. Qed.
Lemma leave_leave n c : leave n (leave n c) = leave n c.
Proof. unfold leave, set_Nets. cbn [ct_Nets ct_Name ct_Config ct_Host ct_Running]. f_equal. set_solver. Qed.
Lemma leave_id n c : n ∉ ct_Nets c -> leave n c = c.
Proof. intros Hn. destruct c. unfold leave, set_Nets. cbn in *. f_equal. set_solver. Qed.
Lemma elem_of_leave n m c : m ∈ ct_Nets (leave n c) <-> m ∈ ct_Nets c /\ m <> n.
Proof. unfold leave, set_Nets. cbn [ct_Nets]. set_solver. Qed.

Section Touch.
Context {D : Type} `{DockerLaws D}.
Implicit Types (p : Provisioner) (w : World D).

Definition wobs w : Daemon := obs (dw_d w).

Definition touches {E A} p (id : string) (m : go (World D) E A) : Prop :=
  forall w, id ∈ dm_used (wobs w) -> touch p id (wobs w) (wobs (m w).1).

Lemma touches_ret {E A} p id (a : A) : touches (E := E) p id (go_ret a).
Proof. intros w _. reflexivity. Qed.
Lemma touches_fail {E A} p id (e : E) : touches (A := A) p id (go_fail e).
Proof. intros w _. reflexivity. Qed.

Lemma touches_bind {E A B} p id (m : go (World D) E A) (k : A -> go (World D) E B) :
  touches p id m -> (forall a, touches p id (k a)) -> touches p id (go_bind m k).
Proof.
  intros Hm Hk w Hu. unfold go_bind. specialize (Hm w Hu). destruct (m w) as [w' [a|e]]; cbn [fst] in *; [|done].
  etrans; [exact Hm|]. apply Hk. by rewrite (touch_used _ _ _ _ Hm).
Qed.

Lemma touches_ignore {E E' A} p id (m : go (World D) E A) : touches p id m -> touches (E := E') p id (go_ignore m).
Proof. intros Hm w. apply Hm. Qed.

Lemma touches_for_each {E A} p id (l : list A) (f : A -> go (World D) E ()) :
  (forall x, x ∈ l -> touches p id (f x)) -> touches p id (for_each l f).
Proof.
  induction l as [|x l IH]; intros Hf; [apply touches_ret|]. simpl.
  apply touches_bind; [apply Hf; set_solver|]. intros []. apply IH. set_solver.
Qed.

Lemma touches_cleanup {E A} p id (m : go (World D) E A) (f : World D -> World D) :
  touches p id m -> touches (E := E) p id (fun w => (f w, Ok ())) -> touches p id (go_cleanup m f).
Proof.
  intros Hm Hf w Hu. unfold go_cleanup. specialize (Hm w Hu). destruct (m w) as [w' [a|e]]; cbn [fst] in *; [done|].
  etrans; [exact Hm|]. apply (Hf w'). by rewrite (touch_used _ _ _ _ Hm).
Qed.

(** The effect of a wrapped call is that of the call. *)
Lemma call_spec {A} f (m : go D DErr A) w w' r :
  call f m w = (w', r) ->
  dw_dirs w' = dw_dirs w /\ dw_api w' = dw_api w /\
  exists r0, m (dw_d w) = (dw_d w', r0) /\ match r0 with Ok a => r = Ok a | Err e => r = Err (f e) end.
Proof. unfold call. destruct (m (dw_d w)) as [d [a|e]]; intros [= <- <-];
  (split; [done|]; split; [done|]; eexists; split; [reflexivity|done]). Qed.

Lemma touches_call {A} p id f (m : go D DErr A) :
  (forall d d' r, id ∈ dm_used (obs d) -> m d = (d', r) -> touch p id (obs d) (obs d')) -> touches p id (call f m).
Proof.
  intros Hm w Hu. destruct (call f m w) as [w' r] eqn:Hc. apply call_spec in Hc as (_ & _ & r0 & Hd & _).
  by eapply Hm.
Qed.

Lemma touches_start p id f : touches p id (call f (ContainerStart id)).
Proof.
  apply touches_call. intros d d' r Hu Hc. apply Start_law in Hc.
  destruct r; [destruct Hc as [_ ->]|destruct Hc as [run ->]]; by apply touch_alter_self.
Qed.

Lemma touches_stop p id f : touches p id (call f (ContainerStop id)).
Proof.
  apply touches_call. intros d d' r Hu Hc. apply Stop_law in Hc.
  destruct r as [|[|]]; [destruct Hc as [_ ->]|destruct Hc as [_ ->]|destruct Hc as [run ->]];
    [by apply touch_alter_self|done|by apply touch_alter_self].
Qed.

Lemma touches_remove p id f force : touches p id (call f (ContainerRemove force id)).
Proof.
  apply touches_call. intros d d' r Hu Hc. apply Remove_law in Hc.
  destruct r as [|[|]]; [destruct Hc as [_ ->]|destruct Hc as [_ ->]|destruct Hc as [->| ->]];
    first [apply touch_del|done].
Qed.

Lemma touches_rename p id f n : touches p id (call f (ContainerRename id n)).
Proof.
  apply touches_call. intros d d' r Hu Hc. apply Rename_law in Hc.
  destruct r; [destruct Hc as [_ ->]|rewrite Hc; done]. by apply touch_alter_self.
Qed.

Lemma touches_netcreate p id f ls : touches p id (call f (NetworkCreate (boxNetworkName id) ls)).
Proof.
  apply touches_call. intros d d' r Hu Hc. apply NetCreate_law in Hc.
  destruct r; [destruct Hc as [_ ->]|rewrite Hc; done]. apply touch_net. by rewrite delete_insert_eq.
Qed.

Lemma touches_netremove p id f : touches p id (call f (NetworkRemove (boxNetworkName id))).
Proof.
  apply touches_call. intros d d' r Hu Hc. apply NetRemove_law in Hc.
  destruct r; rewrite Hc; [|done]. apply touch_net. by rewrite delete_delete_eq.
Qed.

(** A network call on the box itself or on one of its peers. *)
Definition peers_ok p : Prop := Forall (fun x => isID x = false) (pv_peers p).

Lemma refers_used d id jd : id ∈ dm_used (obs d) -> refers (obs d) id jd -> jd = id.
Proof. intros Hu (c & Hc & [->| ->]); [done|]. by destruct (wf_named _ (obs_wf d) _ _ Hc). Qed.

Lemma refers_name d x jd : isID x = false -> refers (obs d) x jd -> exists c, dm_ctrs (obs d) !! jd = Some c /\ ct_Name c = x.
Proof.
  intros Hid (c & Hc & [->| ->]); [|eauto]. exfalso.
  assert (isID jd = true) by (apply (wf_ids _ (obs_wf d)), (wf_used _ (obs_wf d)); eauto). congruence.
Qed.

(** What a network call on [x] does, for the box or a peer. *)
Lemma touch_member p id x jd f d :
  id ∈ dm_used (obs d) -> refers (obs d) x jd -> x = id \/ (x ∈ pv_peers p /\ isID x = false) ->
  (forall c, leave (boxNetworkName id) (f c) = leave (boxNetworkName id) c) -> (forall c, ct_Config (f c) = ct_Config c) ->
  touch p id (obs d) (alter_ctr f jd (obs d)).
Proof.
  intros Hu Hr Hx Hl Hf. apply touch_alter_peer; [done|done|]. intros c Hc Hne.
  destruct Hx as [->|[Hin Hid]]; [by destruct Hne; eapply refers_used|].
  destruct (refers_name _ _ _ Hid Hr) as (c' & Hc' & Hn). assert (c' = c) as -> by congruence. by rewrite Hn.
Qed.

Lemma touches_connect p id x f : x = id \/ (x ∈ pv_peers p /\ isID x = false) ->
  touches p id (call f (NetworkConnect (boxNetworkName id) x)).
Proof.
  intros Hx. apply touches_call. intros d d' r Hu Hc. apply Connect_law in Hc.
  destruct r; [|rewrite Hc; done]. destruct Hc as (jd & Hr & ->).
  eapply touch_member; [done..|apply leave_join|done].
Qed.

Lemma touches_disconnect p id x f : x = id \/ (x ∈ pv_peers p /\ isID x = false) ->
  touches p id (call f (NetworkDisconnect (boxNetworkName id) x)).
Proof.
  intros Hx. apply touches_call. intros d d' r Hu Hc. apply Disconnect_law in Hc.
  destruct r; [|rewrite Hc; done]. destruct Hc as (jd & Hr & ->).
  eapply touch_member; [done..|apply leave_leave|done].
Qed.

Lemma touches_detach p id f : touches p id (call f (NetworkDisconnect defaultBridgeNetwork id)).
Proof.
  apply touches_call. intros d d' r Hu Hc. apply Disconnect_law in Hc.
  destruct r; [|rewrite Hc; done]. destruct Hc as (jd & Hr & ->).
  rewrite (refers_used _ _ _ Hu Hr). by apply touch_alter_self.
Qed.

Lemma touches_local {A} p id (m : go (World D) DockerError A) :
  (forall w, dw_d (m w).1 = dw_d w) -> touches p id m.
Proof. intros Hm w _. unfold wobs. by rewrite Hm. Qed.

Lemma startBoxAPI_local p serve g b t w : dw_d (startBoxAPI p serve g b t w).1 = dw_d w.
Proof. unfold startBoxAPI. by repeat case_match. Qed.
End Touch.

#[export] Hint Resolve touches_ret touches_fail touches_start touches_stop touches_remove touches_rename
  touches_netcreate touches_netremove touches_detach touches_ignore : llmbox.

(** Go through the calls of an operation. *)
Ltac touching :=
  repeat first
    [ solve [eauto with llmbox]
    | apply touches_bind; [|intros ?]
    | apply touches_cleanup
    | apply touches_ignore
    | apply touches_local; intros ?; apply startBoxAPI_local
    | case_match ].

Section Effects.
Context {D : Type} `{DockerLaws D}.
Implicit Types (p : Provisioner) (w : World D).

Lemma for_peers p id (f : string -> go (World D) DockerError ()) :
  peers_ok p -> (forall x, x ∈ pv_peers p /\ isID x = false -> touches p id (f x)) -> touches p id (for_each (pv_peers p) f).
Proof. intros Hp Hf. apply touches_for_each. intros x Hx. apply Hf. split; [done|]. by eapply Forall_forall in Hp. Qed.

Lemma touches_setup p id : peers_ok p -> touches p id (setupBoxNetwork (D := D) p id).
Proof.
  intros Hp. unfold setupBoxNetwork. touching; [apply touches_connect; auto|].
  apply for_peers; [done|]. intros x Hx. apply touches_ignore, touches_connect. auto.
Qed.

Lemma touches_removeNetwork p id : peers_ok p -> touches p id (removeBoxNetwork (D := D) p id).
Proof.
  intros Hp. unfold removeBoxNetwork. touching.
  apply for_peers; [done|]. intros x Hx. apply touches_ignore, touches_disconnect. auto.
Qed.

#[local] Hint Resolve touches_setup touches_removeNetwork : llmbox.

Lemma touches_launch p opts env g id t : peers_ok p -> touches p id (launch (D := D) p opts env g id t).
Proof. intros Hp. unfold launch. touching. Qed.

Lemma touches_cleaning p rest g id t : peers_ok p -> touches (E := DockerError) p id (fun w : World D => (cleanup p rest g id t w, Ok ())).
Proof.
  intros Hp w Hu. unfold cleanup. cbn [fst].
  assert (H1 : touch p id (wobs w) (wobs (call ErrRemove (ContainerRemove true id) (stopBoxAPI g w)).1))
    by exact (touches_remove p id ErrRemove true (stopBoxAPI g w) Hu).
  change (touch p id (wobs w) (wobs (removeBoxNetwork p id (call ErrRemove (ContainerRemove true id) (stopBoxAPI g w)).1).1)).
  etrans; [exact H1|]. apply touches_removeNetwork; [done|]. by rewrite (touch_used _ _ _ _ H1).
Qed.

Lemma touches_MarkReady p i : touches p (di_containerID i) (MarkReady (D := D) i).
Proof. unfold MarkReady. touching. Qed.

Lemma touches_Pause p ok i : touches p (di_containerID i) (Pause (D := D) ok i).
Proof.
  intros w Hu. unfold Pause. destruct (negb _); [reflexivity|].
  change (wobs w) with (wobs (set_dirs (<[di_socketToken i:=true]> (dw_dirs w)) w)).
  apply touches_cleanup; [touching|intros w' _; reflexivity|done].
Qed.

Lemma touches_Resume p env ok i : touches p (di_containerID i) (Resume (D := D) env ok i).
Proof.
  unfold Resume. apply touches_bind; [touching|]. intros _. destruct (waitForSocket env); [|touching].
  apply touches_local. intros w. by repeat case_match.
Qed.

Lemma touches_Destroy p rest i : peers_ok p -> touches p (di_containerID i) (Destroy (D := D) p rest i).
Proof.
  intros Hp. unfold Destroy. do 3 (apply touches_bind; [eauto with llmbox|intros _]).
  apply touches_local. intros w. cbn zeta. by destruct (String.eqb _ _).
Qed.
End Effects.

(** ** The stages of a creation *)

(** The container of a fresh box, before anything else happened to it. *)
Definition created (p : Provisioner) (opts : CreateOptions) (token generation name : string) : Ctr :=
  MkCtr name (container_config p opts token generation) (host_config p token) false {[defaultBridgeNetwork]}.

Section Creation.
Context {D : Type} `{DockerLaws D} (refDomain EncodeAuthConfig : string -> option string).
Implicit Types (p : Provisioner) (w : World D).

Lemma pullImage_obs p ref w w' r :
  pullImage refDomain EncodeAuthConfig p ref w = (w', r) ->
  wobs w' = wobs w /\ dw_dirs w' = dw_dirs w /\ dw_api w' = dw_api w /\ (r = Ok () \/ r = Err ErrPull).
Proof.
  assert (Hpull : forall auth, go_bind (call (fun _ => ErrPull) (ImagePull ref auth))
      (fun complete : bool => if complete then go_ret () else go_fail ErrPull) w = (w', r) ->
      wobs w' = wobs w /\ dw_dirs w' = dw_dirs w /\ dw_api w' = dw_api w /\ (r = Ok () \/ r = Err ErrPull)).
  { intros auth. unfold go_bind. destruct (call _ _ w) as [w1 r1] eqn:Hc.
    apply call_spec in Hc as (Hd & Ha & r0 & Hm & Hr). apply Pull_law in Hm. unfold wobs.
    destruct r0 as [[]|e]; subst r1; intros [= <- <-]; auto 6. }
  unfold pullImage. destruct (registryAuthFor _ _ _) as [auth|]; [|apply Hpull].
  destruct (EncodeAuthConfig auth); [apply Hpull|]. intros [= <- <-]. auto 6.
Qed.

Lemma create_container_spec p cfg hc w w' r :
  create_container refDomain EncodeAuthConfig p cfg hc w = (w', r) ->
  dw_dirs w' = dw_dirs w /\ dw_api w' = dw_api w /\
  match r with
  | Ok id => id ∉ dm_used (wobs w) /\ exists name, wobs w' = add_ctr id (MkCtr name cfg hc false {[defaultBridgeNetwork]}) (wobs w)
  | Err _ => wobs w' = wobs w
  end.
Proof.
  assert (Hone : forall v v' s, call ErrCreate (ContainerCreate cfg hc) v = (v', s) ->
    dw_dirs v' = dw_dirs v /\ dw_api v' = dw_api v /\
    match s with
    | Ok id => id ∉ dm_used (wobs v) /\ exists name, wobs v' = add_ctr id (MkCtr name cfg hc false {[defaultBridgeNetwork]}) (wobs v)
    | Err _ => wobs v' = wobs v
    end).
  { intros v v' s Hc. apply call_spec in Hc as (Hd & Ha & r0 & Hm & Hr). apply Create_law in Hm.
    split; [done|]. split; [done|]. destruct r0; subst s; exact Hm. }
  unfold create_container. destruct (call _ _ w) as [w1 r1] eqn:Hc. pose proof (Hone _ _ _ Hc) as H1.
  destruct r1 as [id|e]; [by intros [= <- <-]|]. destruct H1 as (Hd1 & Ha1 & Ho1).
  assert (Hretry : go_bind (pullImage refDomain EncodeAuthConfig p (cc_Image cfg))
      (fun _ => call ErrCreate (ContainerCreate cfg hc)) w1 = (w', r) ->
      dw_dirs w' = dw_dirs w /\ dw_api w' = dw_api w /\
      match r with
      | Ok id => id ∉ dm_used (wobs w) /\ exists name, wobs w' = add_ctr id (MkCtr name cfg hc false {[defaultBridgeNetwork]}) (wobs w)
      | Err _ => wobs w' = wobs w
      end).
  { unfold go_bind. destruct (pullImage _ _ _ _ w1) as [w2 r2] eqn:Hp.
    apply pullImage_obs in Hp as (Ho2 & Hd2 & Ha2 & _). destruct r2 as [[]|e2].
    - intros Hcall. apply Hone in Hcall. by rewrite Hd2, Ha2, Hd1, Ha1, Ho2, Ho1 in Hcall.
    - intros [= <- <-]. by rewrite Hd2, Ha2, Hd1, Ha1, Ho2, Ho1. }
  destruct e as [| | | |[]| | | | | | | | | | | |]; try (intros [= <- <-]; done). exact Hretry.
Qed.

(** Either nothing was created, or a fresh container was and the rest of the
    creation went through or was cleaned up. *)
Lemma Provision_stages p opts env w w' r :
  Provision refDomain EncodeAuthConfig p opts env w = (w', r) ->
  (exists e, r = Err e /\ wobs w' = wobs w /\ dw_api w' = dw_api w /\
     (dw_dirs w' = dw_dirs w \/ exists token, newSocketToken (pe_token env) = Some token /\
        dw_dirs w' = removed (pe_rest env) token (<[token := pausedMarkerExists (dw_dirs w) token]> (dw_dirs w)))) \/
  (exists token generation id name w1,
     (co_BoxID opts = "" \/ ValidBoxID (co_BoxID opts) = true) /\
     newSocketToken (pe_token env) = Some token /\ newGenerationToken (pe_generation env) = Some generation /\
     id ∉ dm_used (wobs w) /\ wobs w1 = add_ctr id (created p opts token generation name) (wobs w) /\
     dw_api w1 = dw_api w /\ dw_dirs w1 = <[token := pausedMarkerExists (dw_dirs w) token]> (dw_dirs w) /\
     match launch p opts env generation id token w1 with
     | (w2, Ok _) => w' = w2 /\ r = Ok (new_instance p opts (pe_now env) generation id token)
     | (w2, Err e) => w' = cleanup p (pe_rest env) generation id token w2 /\ r = Err e
     end).
Proof.
  unfold Provision. destruct (negb _ && _) eqn:Hv; [intros [= <- <-]; left; eauto 7|].
  destruct (newSocketToken _) as [token|] eqn:Ht; [|intros [= <- <-]; left; eauto 7].
  destruct (newGenerationToken _) as [generation|] eqn:Hg; [|intros [= <- <-]; left; eauto 7].
  destruct (negb (pe_mkdir env)); [intros [= <- <-]; left; eauto 7|].
  unfold go_bind at 1, go_cleanup at 1. destruct (create_container _ _ _ _ _ _) as [w1 [id|e]] eqn:Hc;
    apply create_container_spec in Hc as (Hd & Ha & Ho).
  - destruct Ho as [Hfresh [name Ho]]. unfold go_bind, go_cleanup. intros Hl. right.
    exists token, generation, id, name, w1. split_and!; try done.
    { destruct (String.eqb_spec (co_BoxID opts) ""); [by left|right]. by destruct (ValidBoxID (co_BoxID opts)). }
    destruct (launch _ _ _ _ _ _ _) as [w2 [[]|e]]; by injection Hl as <- <-.
  - intros [= <- <-]. left. exists e. split_and!; [done|done|done|]. right. exists token. split; [done|].
    cbn [dw_dirs remove_all set_dirs]. by rewrite Hd.
Qed.
End Creation.

(** ** Several spokes on one daemon *)

(** The containers a provisioner lists, finds and acts on. *)
Definition in_scope (p : Provisioner) (c : Ctr) : bool := labelled (managedFilter p) c.

(** What a provisioner does to the containers of others: nothing, but for the
    networks its peers are on.  What it creates is its own. *)
Record guarantee (p : Provisioner) (dm dm' : Daemon) : Prop := {
  g_others : forall id c, dm_ctrs dm !! id = Some c -> in_scope p c = false ->
    exists c', dm_ctrs dm' !! id = Some c' /\ (c' = c \/ (ct_Name c ∈ pv_peers p /\ c' = set_Nets (ct_Nets c') c));
  g_old : forall id c', dm_ctrs dm' !! id = Some c' -> id ∈ dm_used dm ->
    exists c, dm_ctrs dm !! id = Some c /\ ct_Config c' = ct_Config c;
  g_new : forall id c', dm_ctrs dm' !! id = Some c' -> id ∉ dm_used dm -> in_scope p c' = true;
  g_used : dm_used dm ⊆ dm_used dm';
}.

Lemma in_scope_config p c c' : ct_Config c' = ct_Config c -> in_scope p c' = in_scope p c.
Proof. unfold in_scope, labelled, ct_Labels. by intros ->. Qed.

Lemma guarantee_refl p dm : daemon_wf dm -> guarantee p dm dm.
Proof. intros Hwf. split; [eauto|eauto| |done]. intros id c Hc Hn. destruct Hn. by eapply wf_used. Qed.

Lemma guarantee_trans p d1 d2 d3 : guarantee p d1 d2 -> guarantee p d2 d3 -> guarantee p d1 d3.
Proof.
  intros H1 H2. split.
  - intros id c Hc Hs. destruct (g_others _ _ _ H1 _ _ Hc Hs) as (c2 & Hc2 & Hor).
    assert (Hs2 : in_scope p c2 = false /\ ct_Name c2 = ct_Name c /\ set_Nets (ct_Nets c2) c = c2).
    { destruct Hor as [->|[_ ->]]; [split_and!; [done|done|by destruct c]|done]. }
    destruct Hs2 as (Hs2 & Hn2 & Heq). destruct (g_others _ _ _ H2 _ _ Hc2 Hs2) as (c3 & Hc3 & Hor3).
    exists c3. split; [done|]. destruct Hor3 as [->|[Hp Hc3']]; [done|]. right. rewrite <- Hn2. split; [done|].
    rewrite Hc3', <- Heq. done.
  - intros id c3 Hc3 Hu. destruct (g_old _ _ _ H2 _ _ Hc3) as (c2 & Hc2 & ->); [by apply (g_used _ _ _ H1)|].
    by eapply g_old.
  - intros id c3 Hc3 Hu. destruct (decide (id ∈ dm_used d2)) as [Hu2|Hu2]; [|by eapply g_new].
    destruct (g_old _ _ _ H2 _ _ Hc3 Hu2) as (c2 & Hc2 & Hcfg). rewrite (in_scope_config _ _ _ Hcfg).
    by apply (g_new _ _ _ H1) with id.
  - etrans; [exact (g_used _ _ _ H1)|exact (g_used _ _ _ H2)].
Qed.

(** Touching a container of one's own. *)
Lemma touch_guarantee p id dm dm' :
  daemon_wf dm -> touch p id dm dm' -> (forall c, dm_ctrs dm !! id = Some c -> in_scope p c = true) -> guarantee p dm dm'.
Proof.
  intros Hwf Ht Hs.
  assert (Hne : forall jd c', jd <> id -> dm_ctrs dm' !! jd = Some c' ->
    exists c, dm_ctrs dm !! jd = Some c /\ kept p (boxNetworkName id) c c').
  { intros jd c' Hj Hc. pose proof (touch_ctrs _ _ _ _ Ht jd Hj) as Hk. rewrite Hc in Hk. inversion Hk; eauto. }
  assert (Hold : forall jd c', dm_ctrs dm' !! jd = Some c' -> exists c, dm_ctrs dm !! jd = Some c /\ ct_Config c' = ct_Config c).
  { intros jd c' Hc. destruct (decide (jd = id)) as [->|Hj]; [by eapply touch_self|].
    destruct (Hne _ _ Hj Hc) as (c & Hc0 & [Heq _]). exists c. split; [done|]. by injection Heq. }
  split.
  - intros jd c Hc Hout. assert (Hj : jd <> id) by (intros ->; specialize (Hs _ Hc); congruence).
    pose proof (touch_ctrs _ _ _ _ Ht jd Hj) as Hk. rewrite Hc in Hk. destruct (dm_ctrs dm' !! jd) as [c'|] eqn:Hc'; [|inversion Hk].
    inversion Hk as [? ? Hkept|]; subst. destruct Hkept as [Heq Hor]. exists c'. split; [done|]. destruct Hor as [->|Hp]; [by left|right]. split; [done|].
    destruct c, c'. injection Heq as -> -> -> -> _. done.
  - intros jd c' Hc _. by apply Hold.
  - intros jd c' Hc Hn. destruct Hn. destruct (Hold _ _ Hc) as (c & Hc0 & _). eapply wf_used; eauto.
  - by rewrite (touch_used _ _ _ _ Ht).
Qed.

Lemma box_labels_lookup p opts t g :
  let ls := box_labels p opts t g in
  ls !! ManagedLabel = Some "true" /\ ls !! socketLabel = Some t /\ ls !! GenerationLabel = Some g /\
  label ls BoxIDLabel = co_BoxID opts /\ label ls DescriptionLabel = co_Description opts /\
  label ls NamespaceLabel = pv_namespace p /\ (pv_namespace p <> "" -> ls !! NamespaceLabel = Some (pv_namespace p)).
Proof.
  cbn zeta. unfold box_labels, label. repeat case_match; bools; split_and!; intros;
    simpl_map; try done; try congruence;
    repeat first [rewrite lookup_insert_eq | rewrite lookup_insert_ne by done | rewrite lookup_singleton_eq
                 | rewrite lookup_singleton_ne by done]; cbn; congruence.
Qed.

Lemma created_in_scope p opts t g name : in_scope p (created p opts t g name) = true.
Proof.
  destruct (box_labels_lookup p opts t g) as (Hm & _ & _ & _ & _ & _ & Hn).
  unfold in_scope, labelled, managedFilter, ct_Labels. cbn [created ct_Config container_config cc_Labels forallb fst snd].
  rewrite bool_decide_eq_true_2 by done. destruct (String.eqb_spec (pv_namespace p) ""); [done|].
  cbn [forallb fst snd]. by rewrite bool_decide_eq_true_2 by auto.
Qed.

Lemma create_guarantee p id c dm :
  daemon_wf dm -> id ∉ dm_used dm -> in_scope p c = true -> guarantee p dm (add_ctr id c dm).
Proof.
  intros Hwf Hf Hs. assert (Hnone : dm_ctrs dm !! id = None).
  { destruct (dm_ctrs dm !! id) eqn:Hc; [|done]. destruct Hf. eapply wf_used; eauto. }
  split; cbn [dm_ctrs add_ctr dm_used].
  - intros jd c0 Hc _. exists c0. split; [|by left]. rewrite lookup_insert_ne; [done|congruence].
  - intros jd c' Hc Hu. rewrite lookup_insert_ne in Hc by set_solver. eauto.
  - intros jd c' Hc Hu. destruct (decide (id = jd)) as [->|]; [rewrite lookup_insert_eq in Hc; by injection Hc as <-|].
    rewrite lookup_insert_ne in Hc by done. destruct Hu. eapply wf_used; eauto.
  - set_solver.
Qed.

(** An operation of a provisioner, with what the host answers. *)
Inductive op :=
| OpList | OpFind (x : string) | OpProvision (opts : CreateOptions) (env : ProvEnv)
| OpMarkReady (i : dockerInstance) | OpPause (ok : bool) (i : dockerInstance)
| OpResume (env : WaitEnv) (ok : bool) (i : dockerInstance) | OpDestroy (rest : option bool) (i : dockerInstance)
| OpRecover (serve : dockerInstance -> bool) | OpClose.

(** The instance an operation is called on. *)
Definition op_on (o : op) : option dockerInstance :=
  match o with
  | OpMarkReady i | OpPause _ i | OpResume _ _ i | OpDestroy _ i => Some i
  | _ => None
  end.

Definition handles_of {A} (f : A -> list dockerInstance) (r : res DockerError A) : list dockerInstance :=
  match r with Ok a => f a | Err _ => [] end.

Section Spokes.
Context {D : Type} `{DockerLaws D} (refDomain EncodeAuthConfig : string -> option string).
Implicit Types (p : Provisioner) (w : World D).

(** Running an operation yields the handles its caller gets. *)
Definition run p (o : op) w : World D * list dockerInstance :=
  match o with
  | OpList => let '(w', r) := List_ p w in (w', handles_of id r)
  | OpFind x => let '(w', r) := Find p x w in (w', handles_of (fun i => [i]) r)
  | OpProvision opts env => let '(w', r) := Provision refDomain EncodeAuthConfig p opts env w in (w', handles_of (fun i => [i]) r)
  | OpMarkReady i => ((MarkReady i w).1, [])
  | OpPause ok i => ((Pause ok i w).1, [])
  | OpResume env ok i => ((Resume env ok i w).1, [])
  | OpDestroy rest i => ((Destroy p rest i w).1, [])
  | OpRecover serve => ((RecoverBoxAPIs p serve w).1, [])
  | OpClose => (Close w, [])
  end.

(** What one spoke holds besides the daemon: its directories, its servers and the
    handles it was given. *)
Record Side := MkSide {
  sd_dirs : gmap string bool;
  sd_api : gmap string ApiServer;
  sd_handles : list dockerInstance;
}.

Record System := MkSystem { sy_d : D; sy_side : nat -> Side }.

Definition upd_side (k : nat) (sd : Side) (f : nat -> Side) : nat -> Side := fun j => if decide (j = k) then sd else f j.

Context (ps : nat -> Provisioner).

(** Spoke [k] runs one operation, on an instance it was given at any time before.
    The operations of the spokes are taken one after the other. *)
Inductive spoke_step (k : nat) : System -> System -> Prop :=
| spoke_runs o s w' new :
    (forall i, op_on o = Some i -> i ∈ sd_handles (sy_side s k)) ->
    run (ps k) o (MkWorld (sy_d s) (sd_dirs (sy_side s k)) (sd_api (sy_side s k))) = (w', new) ->
    spoke_step k s (MkSystem (dw_d w')
      (upd_side k (MkSide (dw_dirs w') (dw_api w') (sd_handles (sy_side s k) ++ new)) (sy_side s))).

Definition any_step (s s' : System) : Prop := exists k, spoke_step k s s'.

(** The handles of a provisioner are to containers of its own, or of none. *)
Definition owned_handle p (dm : Daemon) (i : dockerInstance) : Prop :=
  di_containerID i ∈ dm_used dm /\ forall c, dm_ctrs dm !! di_containerID i = Some c -> in_scope p c = true.

Lemma List_obs p w w' r : List_ p w = (w', r) ->
  wobs w' = wobs w /\ dw_dirs w' = dw_dirs w /\ dw_api w' = dw_api w /\
  match r with
  | Ok l => exists cs, listing (managedFilter p) (wobs w) cs /\ l = instance_of (dw_dirs w) <$> cs
  | Err _ => True
  end.
Proof.
  unfold List_, go_bind. destruct (call _ _ w) as [w1 r1] eqn:Hc.
  apply call_spec in Hc as (Hd & Ha & r0 & Hm & Hr). apply List_law in Hm as [Ho Hl].
  destruct r0 as [cs|e]; subst r1; intros [= <- <-]; split_and!; try done. exists cs. by rewrite Hd.
Qed.

Lemma Find_obs p x w w' r : Find p x w = (w', r) ->
  wobs w' = wobs w /\ match r with Ok i => exists cs, listing (managedFilter p) (wobs w) cs /\
    i ∈ instance_of (dw_dirs w) <$> cs /\ answers_to x i = true | Err _ => True end.
Proof.
  unfold Find, go_bind. destruct (List_ p w) as [w1 r1] eqn:Hl. apply List_obs in Hl as (Ho & _ & _ & Hr).
  destruct r1 as [l|e]; [|by intros [= <- <-]]. destruct Hr as (cs & Hcs & ->).
  destruct (first_match _ _) as [i|] eqn:Hf; intros [= <- <-]; split; try done.
  apply first_match_elem in Hf as [??]. eauto.
Qed.

Lemma listed_owned p (dm : Daemon) dirs cs i :
  daemon_wf dm -> listing (managedFilter p) dm cs -> i ∈ instance_of dirs <$> cs -> owned_handle p dm i.
Proof.
  intros Hwf (_ & Hin & _) (s & -> & Hs)%list_elem_of_fmap. destruct (Hin s Hs) as (c & Hc & Hl & _). cbn.
  split; [eapply wf_used; eauto|]. intros c' Hc'. cbn in Hc'. assert (c' = c) as -> by congruence. done.
Qed.

Lemma Recover_obs p serve w : wobs (RecoverBoxAPIs p serve w).1 = wobs w.
Proof.
  unfold RecoverBoxAPIs. destruct (negb _); [done|]. unfold go_bind.
  destruct (List_ p w) as [w1 [l|e]] eqn:Hl; apply List_obs in Hl as (Ho & _); [|done]. rewrite <- Ho.
  cut (forall l v, wobs (for_each l (fun di => if String.eqb (di_socketToken di) "" then go_ret ()
      else go_ignore (E' := DockerError) (startBoxAPI p (serve di) (box_InstanceID (di_box di)) (box_BoxID (di_box di)) (di_socketToken di))) v).1 = wobs v).
  { intros Hall. apply Hall. }
  clear. intros l. induction l as [|i l IH]; intros v; [done|]. cbn [for_each]. unfold go_bind at 1.
  destruct (String.eqb _ _); [apply IH|]. unfold go_ignore. rewrite IH. unfold wobs. by rewrite startBoxAPI_local.
Qed.

(** A creation touches a fresh container of the provisioner's own. *)
Lemma Provision_guarantee p opts env w w' r :
  peers_ok p -> Provision refDomain EncodeAuthConfig p opts env w = (w', r) ->
  guarantee p (wobs w) (wobs w') /\ Forall (owned_handle p (wobs w')) (handles_of (fun i => [i]) r).
Proof.
  intros Hp Hr. apply Provision_stages in Hr as [(e & -> & -> & _)|Hr].
  { split; [apply guarantee_refl, obs_wf|constructor]. }
  destruct Hr as (t & g & id & name & w1 & _ & _ & _ & Hf & Ho & _ & _ & Hl).
  assert (Hg : guarantee p (wobs w) (wobs w1)).
  { rewrite Ho. apply create_guarantee; [apply obs_wf|done|apply created_in_scope]. }
  assert (Hu : id ∈ dm_used (wobs w1)) by (rewrite Ho; cbn; set_solver).
  assert (Hself : forall c, dm_ctrs (wobs w1) !! id = Some c -> in_scope p c = true).
  { rewrite Ho. cbn [add_ctr dm_ctrs]. intros c. rewrite lookup_insert_eq. intros [= <-]. apply created_in_scope. }
  pose proof (touches_launch p opts env g id t Hp w1 Hu) as Ht.
  assert (Hfin : touch p id (wobs w1) (wobs w') /\ Forall (fun i => di_containerID i = id) (handles_of (fun i => [i]) r)).
  { destruct (launch _ _ _ _ _ _ _) as [w2 [[]|e]]; cbn [fst] in Ht; destruct Hl as [-> ->]; [by split; [|repeat constructor]|].
    split; [|constructor]. etrans; [exact Ht|]. apply (touches_cleaning p _ g id t Hp w2). by rewrite (touch_used _ _ _ _ Ht). }
  destruct Hfin as [Htouch Hid]. split.
  - eapply guarantee_trans; [exact Hg|]. eapply touch_guarantee; [apply obs_wf|done|done].
  - eapply Forall_impl; [exact Hid|]. intros i <-. split; [by rewrite (touch_used _ _ _ _ Htouch)|].
    intros c' Hc'. destruct (touch_self _ _ _ _ Htouch _ Hc') as (c & Hc & Hcfg).
    rewrite (in_scope_config _ _ _ Hcfg). by apply Hself.
Qed.

Lemma run_guarantee p o w w' new :
  peers_ok p -> (forall i, op_on o = Some i -> owned_handle p (wobs w) i) -> run p o w = (w', new) ->
  guarantee p (wobs w) (wobs w') /\ Forall (owned_handle p (wobs w')) new.
Proof.
  intros Hp Hon Hr.
  assert (Hinst : forall (m : go (World D) DockerError ()) i, op_on o = Some i -> touches p (di_containerID i) m ->
    guarantee p (wobs w) (wobs (m w).1)).
  { intros m i Hi Hm. destruct (Hon i Hi) as [Hu Hs]. eapply touch_guarantee; [apply obs_wf|by apply Hm|done]. }
  assert (Hsame : wobs w' = wobs w -> guarantee p (wobs w) (wobs w')) by (intros ->; apply guarantee_refl, obs_wf).
  destruct o; cbn [run op_on] in *.
  - destruct (List_ p w) as [w1 r] eqn:Hl. injection Hr as <- <-. apply List_obs in Hl as (Ho & _ & _ & Hl).
    split; [auto|]. destruct r as [l|e]; [|constructor]. destruct Hl as (cs & Hcs & ->). cbn.
    apply Forall_forall. intros i Hi. eapply listed_owned; [apply obs_wf| |done]. by rewrite Ho.
  - destruct (Find p x w) as [w1 r] eqn:Hl. injection Hr as <- <-. apply Find_obs in Hl as (Ho & Hl).
    split; [auto|]. destruct r as [i|e]; [|constructor]. destruct Hl as (cs & Hcs & Hi & _). cbn.
    constructor; [|constructor]. eapply listed_owned; [apply obs_wf| |done]. by rewrite Ho.
  - destruct (Provision _ _ p opts env w) as [w1 r] eqn:Hl. injection Hr as <- <-. by eapply Provision_guarantee.
  - injection Hr as <- <-. split; [|constructor]. eapply Hinst; [done|apply touches_MarkReady].
  - injection Hr as <- <-. split; [|constructor]. eapply Hinst; [done|apply touches_Pause].
  - injection Hr as <- <-. split; [|constructor]. eapply Hinst; [done|apply touches_Resume].
  - injection Hr as <- <-. split; [|constructor]. eapply Hinst; [done|by apply touches_Destroy].
  - injection Hr as <- <-. split; [|constructor]. apply Hsame. apply Recover_obs.
  - injection Hr as <- <-. split; [|constructor]. by apply Hsame.
Qed.

(** The handles of every spoke, whatever the spokes did. *)
Definition sides_ok (s : System) : Prop :=
  forall k, Forall (owned_handle (ps k) (obs (sy_d s))) (sd_handles (sy_side s k)).

Lemma owned_handle_kept p q (dm dm' : Daemon) i :
  guarantee q dm dm' -> owned_handle p dm i -> owned_handle p dm' i.
Proof.
  intros Hg [Hu Hs]. split; [by apply (g_used _ _ _ Hg)|]. intros c' Hc'.
  destruct (g_old _ _ _ Hg _ _ Hc' Hu) as (c & Hc & Hcfg). rewrite (in_scope_config _ _ _ Hcfg). by apply Hs.
Qed.

Lemma spoke_step_guarantee k s s' :
  (forall k, peers_ok (ps k)) -> sides_ok s -> spoke_step k s s' ->
  guarantee (ps k) (obs (sy_d s)) (obs (sy_d s')) /\ sides_ok s'.
Proof.
  intros Hp Hok Hs. destruct Hs as [o s w' new Hon Hr].
  assert (Hmine : forall i, op_on o = Some i -> owned_handle (ps k) (obs (sy_d s)) i).
  { intros i Hi. apply Hon in Hi. specialize (Hok k). rewrite Forall_forall in Hok. by apply Hok. }
  destruct (run_guarantee (ps k) o (MkWorld (sy_d s) (sd_dirs (sy_side s k)) (sd_api (sy_side s k))) w' new (Hp k) Hmine Hr)
    as [Hg Hnew].
  split; [exact Hg|]. intros j. cbn [sy_d sy_side]. unfold upd_side.
  assert (Hold : forall j, Forall (owned_handle (ps j) (obs (dw_d w'))) (sd_handles (sy_side s j))).
  { intros j'. eapply Forall_impl; [apply Hok|]. intros i. by eapply owned_handle_kept. }
  case_decide as Hj; [|apply Hold]. subst j. cbn [sd_handles]. apply Forall_app. split; [apply Hold|exact Hnew].
Qed.

Lemma any_steps_sides s s' : (forall k, peers_ok (ps k)) -> sides_ok s -> rtc any_step s s' -> sides_ok s'.
Proof. intros Hp Hok Hr. induction Hr as [|s1 s2 s3 [k Hs] _ IH]; [done|]. apply IH. by eapply spoke_step_guarantee. Qed.
End Spokes.

(** Containers of another namespace, and containers that are nobody's box. *)
Lemma other_namespace p q c :
  pv_namespace p <> "" -> pv_namespace q <> "" -> pv_namespace p <> pv_namespace q ->
  in_scope q c = true -> in_scope p c = false.
Proof.
  unfold in_scope, labelled, managedFilter. intros Hp Hq Hne Hs.
  apply String.eqb_neq in Hp, Hq. rewrite Hp, Hq in *. cbn [forallb fst snd] in *.
  rewrite !andb_true_r in *. bools. apply andb_false_iff. right. apply bool_decide_eq_false_2. congruence.
Qed.

Lemma unmanaged p c : ct_Labels c !! ManagedLabel <> Some "true" -> in_scope p c = false.
Proof. intros Hn. unfold in_scope, labelled, managedFilter. cbn [forallb fst snd]. by rewrite bool_decide_eq_false_2. Qed.

(** C11: Spokes that share a Docker daemon leave each other's boxes alone.  After
    any operations of any spokes, whatever the daemon answered, an operation of
    spoke [k] changes no container outside its scope, a box of a spoke with
    another namespace or a container that is not managed: it is neither started,
    stopped, renamed nor removed; if the spoke is configured with its name as a
    peer, it can join or leave networks.  Whatever spoke [k] lists, finds or
    holds a handle to is in its scope, or gone. *)
Theorem spokes_keep_apart {D} `{DockerLaws D} refDomain EncodeAuthConfig (ps : nat -> Provisioner) (s0 s s' : System (D := D)) k :
  (forall j, peers_ok (ps j)) -> (forall j, sd_handles (sy_side s0 j) = []) ->
  rtc (any_step refDomain EncodeAuthConfig ps) s0 s -> spoke_step refDomain EncodeAuthConfig ps k s s' ->
  (forall id c, dm_ctrs (obs (sy_d s)) !! id = Some c ->
     (exists j, in_scope (ps j) c = true /\ pv_namespace (ps j) <> pv_namespace (ps k) /\
        pv_namespace (ps j) <> "" /\ pv_namespace (ps k) <> "") \/
     ct_Labels c !! ManagedLabel <> Some "true" ->
     exists c', dm_ctrs (obs (sy_d s')) !! id = Some c' /\
       (c' = c \/ (ct_Name c ∈ pv_peers (ps k) /\ c' = set_Nets (ct_Nets c') c))) /\
  (forall i c, i ∈ sd_handles (sy_side s' k) -> dm_ctrs (obs (sy_d s')) !! di_containerID i = Some c -> in_scope (ps k) c = true).
Proof.
  intros Hp H0' Hr Hs.
  assert (Hok : sides_ok ps s).
  { eapply any_steps_sides; [done| |done]. intros j. rewrite H0'. constructor. }
  destruct (spoke_step_guarantee _ _ _ _ _ _ Hp Hok Hs) as [Hg Hok']. split.
  - intros id c Hc Hout. eapply g_others; [exact Hg|done|].
    destruct Hout as [(j & Hj & Hne & Hnj & Hnk)|Hm]; [by apply (other_namespace (ps k) (ps j)); auto|by apply unmanaged].
  - intros i c Hi Hc. specialize (Hok' k). rewrite Forall_forall in Hok'. by apply (proj2 (Hok' i Hi)).
Qed.

(** ** What a creation leaves behind *)

Lemma boxNetworkName_bridge id : boxNetworkName id <> defaultBridgeNetwork.
Proof. discriminate. Qed.

(** Computations that leave the directories and the servers alone. *)
Definition quiet {D E A} (m : go (World D) E A) : Prop :=
  forall w, dw_dirs (m w).1 = dw_dirs w /\ dw_api (m w).1 = dw_api w.

Section Quiet.
Context {D : Type} `{DockerLaws D}.

Lemma quiet_ret {E A} (a : A) : quiet (D := D) (E := E) (go_ret a).
Proof. intros w. done. Qed.
Lemma quiet_fail {E A} (e : E) : quiet (D := D) (A := A) (go_fail e).
Proof. intros w. done. Qed.
Lemma quiet_call {A} f (m : go D DErr A) : quiet (call f m).
Proof. intros w. destruct (call f m w) as [w' r] eqn:Hc. by apply call_spec in Hc as (Hd & Ha & _). Qed.
Lemma quiet_ignore {E E' A} (m : go (World D) E A) : quiet m -> quiet (E := E') (go_ignore m).
Proof. intros Hm w. apply Hm. Qed.
Lemma quiet_bind {E A B} (m : go (World D) E A) (k : A -> go (World D) E B) :
  quiet m -> (forall a, quiet (k a)) -> quiet (go_bind m k).
Proof.
  intros Hm Hk w. unfold go_bind. destruct (Hm w) as [Hd Ha]. destruct (m w) as [w' [a|e]]; [|done].
  cbn [fst] in *. rewrite <- Hd, <- Ha. apply Hk.
Qed.
Lemma quiet_for_each {E A} (l : list A) (f : A -> go (World D) E ()) : (forall x, quiet (f x)) -> quiet (for_each l f).
Proof. intros Hf. induction l as [|x l IH]; [apply quiet_ret|]. by apply quiet_bind. Qed.

Lemma quiet_removeNetwork p id : quiet (removeBoxNetwork (D := D) p id).
Proof.
  unfold removeBoxNetwork. apply quiet_bind; [|intros _; apply quiet_ignore, quiet_call].
  apply quiet_for_each. intros x. apply quiet_ignore, quiet_call.
Qed.

Lemma quiet_setup p id : quiet (setupBoxNetwork (D := D) p id).
Proof.
  unfold setupBoxNetwork. repeat (apply quiet_bind; [|intros ?]); try apply quiet_call.
  apply quiet_for_each. intros x. apply quiet_ignore, quiet_call.
Qed.

Lemma launch_local p opts env g id t (w : World D) :
  let w' := (launch p opts env g id t w).1 in
  dw_dirs w' = dw_dirs w /\ (dw_api w' = dw_api w \/
    dw_api w' = <[g := MkApiServer (co_BoxID opts) (path_Join [pv_socketDir p; t; apiSocketName])]> (dw_api w)).
Proof.
  cbn zeta. unfold launch. set (rest := fun _ : () => _). unfold go_bind.
  assert (Hrest : quiet (rest ())).
  { unfold rest. apply quiet_bind; [apply quiet_setup|]. intros _. repeat (apply quiet_bind; [apply quiet_call|intros _]).
    destruct (waitForSocket _); [apply quiet_ret|apply quiet_fail]. }
  destruct (startBoxAPI p _ g _ t w) as [w0 r0] eqn:Hs.
  assert (Hs' : dw_dirs w0 = dw_dirs w /\ (dw_api w0 = dw_api w \/
    dw_api w0 = <[g := MkApiServer (co_BoxID opts) (path_Join [pv_socketDir p; t; apiSocketName])]> (dw_api w))).
  { unfold startBoxAPI in Hs. destruct (pv_ports p), (pe_serve env); injection Hs as <- _; cbn; auto. }
  destruct r0 as [[]|e]; [|done]. destruct (Hrest w0) as [-> ->]. done.
Qed.
End Quiet.

Section Outcome.
Context {D : Type} `{DockerLaws D}.
Implicit Types (p : Provisioner) (w : World D).

(** A wrapped call that succeeded. *)
Lemma call_ok {A} f (m : go D DErr A) w w' a :
  call f m w = (w', Ok a) -> m (dw_d w) = (dw_d w', Ok a) /\ dw_dirs w' = dw_dirs w /\ dw_api w' = dw_api w.
Proof. intros Hc. apply call_spec in Hc as (Hd & Ha & [a'|e] & Hm & [= ->]). done. Qed.

Lemma alter_lookup f id c dm : dm_ctrs dm !! id = Some c -> dm_ctrs (alter_ctr f id dm) !! id = Some (f c).
Proof. intros Hc. cbn [alter_ctr dm_ctrs]. by rewrite lookup_alter_eq, Hc. Qed.

(** Connecting a peer leaves the box, already on its network, as it is. *)
Lemma connect_peer_box n id x f w c :
  n ∈ ct_Nets c -> dm_ctrs (wobs w) !! id = Some c ->
  dm_ctrs (wobs (call f (NetworkConnect n x) w).1) !! id = Some c /\
  dm_nets (wobs (call f (NetworkConnect n x) w).1) = dm_nets (wobs w).
Proof.
  intros Hn Hc. destruct (call f (NetworkConnect n x) w) as [w' r] eqn:Hcall.
  apply call_spec in Hcall as (_ & _ & r0 & Hm & _). apply Connect_law in Hm. unfold wobs in *. cbn [fst].
  destruct r0; [|by rewrite Hm]. destruct Hm as (jd & _ & ->). split; [|done].
  destruct (decide (jd = id)) as [->|Hne]; [|cbn; by rewrite lookup_alter_ne].
  rewrite (alter_lookup _ _ c) by done. f_equal. destruct c. unfold join, set_Nets. cbn in *. f_equal. set_solver.
Qed.

Lemma setup_ok p id w w' c :
  id ∈ dm_used (wobs w) -> dm_ctrs (wobs w) !! id = Some c -> ct_Nets c = {[defaultBridgeNetwork]} ->
  setupBoxNetwork p id w = (w', Ok ()) ->
  dm_nets (wobs w) !! boxNetworkName id = None /\
  dm_ctrs (wobs w') !! id = Some (set_Nets {[boxNetworkName id]} c) /\
  dm_nets (wobs w') !! boxNetworkName id = Some (network_labels p) /\
  dw_dirs w' = dw_dirs w /\ dw_api w' = dw_api w.
Proof.
  intros Hu Hc Hb. set (n := boxNetworkName id). unfold setupBoxNetwork. fold n. unfold go_bind at 1.
  destruct (call ErrNetCreate _ w) as [w1 [[]|e]] eqn:H1; [|done]. unfold go_bind at 1.
  destruct (call ErrNetConnect _ w1) as [w2 [[]|e]] eqn:H2; [|done]. unfold go_bind at 1.
  apply call_ok in H1 as (H1 & Hd1 & Ha1), H2 as (H2 & Hd2 & Ha2).
  apply NetCreate_law in H1 as [Hfresh H1]. apply Connect_law in H2 as (jd & Hr & H2).
  assert (Hu1 : id ∈ dm_used (obs (dw_d w1))) by (rewrite H1; exact Hu).
  rewrite (refers_used _ _ _ Hu1 Hr), H1 in H2. clear Hr jd.
  assert (I2 : dm_ctrs (wobs w2) !! id = Some (join n c) /\ dm_nets (wobs w2) !! n = Some (network_labels p) /\
    dw_dirs w2 = dw_dirs w /\ dw_api w2 = dw_api w).
  { unfold wobs. rewrite H2, Hd2, Hd1, Ha2, Ha1. split_and!; [by apply alter_lookup| |done|done].
    cbn. by rewrite lookup_insert_eq. }
  destruct (for_each_ignore (E' := DockerError) (fun v => dm_ctrs (wobs v) !! id = Some (join n c) /\
      dm_nets (wobs v) !! n = Some (network_labels p) /\ dw_dirs v = dw_dirs w /\ dw_api v = dw_api w)
      (fun peer => call ErrNetConnect (NetworkConnect n peer)) (pv_peers p)) with (s := w2) as (w3 & H3 & I3); [|done|].
  { intros x v _ (Hcv & Hnv & Hdv & Hav).
    destruct (connect_peer_box n id x ErrNetConnect v (join n c)) as [Hc' Hn']; [cbn; set_solver|done|].
    destruct (quiet_call ErrNetConnect (NetworkConnect n x) v) as [Hd' Ha']. rewrite Hn', Hd', Ha'. done. }
  rewrite H3. clear H3. destruct I3 as (Hc3 & Hn3 & Hd3 & Ha3).
  intros H4. apply call_ok in H4 as (H4 & Hd4 & Ha4). apply Disconnect_law in H4 as (jd & Hr & H4).
  assert (Hu3 : id ∈ dm_used (obs (dw_d w3))) by (eapply wf_used; [apply obs_wf|by eexists]).
  rewrite (refers_used _ _ _ Hu3 Hr) in H4. unfold wobs. rewrite H4, Hd4, Ha4. split_and!; [done| |done|done|done].
  rewrite (alter_lookup _ _ (join n c)) by done. f_equal. unfold leave, join, set_Nets. cbn. f_equal.
  rewrite Hb. assert (n <> defaultBridgeNetwork) by apply boxNetworkName_bridge. set_solver.
Qed.

Lemma launch_ok p opts env g id t name w w' :
  id ∈ dm_used (wobs w) -> dm_ctrs (wobs w) !! id = Some (created p opts t g name) ->
  launch p opts env g id t w = (w', Ok ()) ->
  dm_nets (wobs w) !! boxNetworkName id = None /\
  dm_ctrs (wobs w') !! id =
    Some (MkCtr (pendingPrefix +:+ g) (container_config p opts t g) (host_config p t) true {[boxNetworkName id]}) /\
  dm_nets (wobs w') !! boxNetworkName id = Some (network_labels p) /\
  dw_dirs w' = dw_dirs w /\
  dw_api w' = (if pv_ports p then <[g := MkApiServer (co_BoxID opts) (path_Join [pv_socketDir p; t; apiSocketName])]> (dw_api w)
               else dw_api w) /\
  waitForSocket (pe_wait env) = Ok ().
Proof.
  intros Hu Hc. unfold launch. unfold go_bind at 1.
  destruct (startBoxAPI p _ g _ t w) as [w0 [[]|e]] eqn:H0'; [|done].
  assert (Hapi : wobs w0 = wobs w /\ dw_dirs w0 = dw_dirs w /\
    dw_api w0 = (if pv_ports p then <[g := MkApiServer (co_BoxID opts) (path_Join [pv_socketDir p; t; apiSocketName])]> (dw_api w)
               else dw_api w)).
  { unfold startBoxAPI in H0'. destruct (pv_ports p), (pe_serve env); by injection H0' as <-. }
  destruct Hapi as (Ho0 & Hd0 & Ha0). clear H0'. rewrite <- Ho0 in Hu, Hc. unfold go_bind at 1.
  destruct (setupBoxNetwork p id w0) as [w1 [[]|e]] eqn:H1; [|done].
  destruct (setup_ok p id w0 w1 _ Hu Hc eq_refl H1) as (Hfresh & Hc1 & Hn1 & Hd1 & Ha1). clear H1. unfold go_bind at 1.
  destruct (call ErrRename _ w1) as [w2 [[]|e]] eqn:H2; [|done]. unfold go_bind.
  apply call_ok in H2 as (H2 & Hd2 & Ha2). apply Rename_law in H2 as [_ H2].
  destruct (call ErrStart _ w2) as [w3 [[]|e]] eqn:H3; [|done].
  apply call_ok in H3 as (H3 & Hd3 & Ha3). apply Start_law in H3 as [_ H3].
  destruct (waitForSocket _) as [[]|e]; [|done]. intros [= <-]. unfold wobs in *.
  rewrite Hd3, Hd2, Hd1, Hd0, Ha3, Ha2, Ha1, Ha0. rewrite <- Ho0. split_and!; try done.
  - rewrite H3, H2. erewrite alter_lookup by (by apply alter_lookup). done.
  - by rewrite H3, H2.
Qed.
End Outcome.

Section CleanUp.
Context {D : Type} `{DockerUp D}.
Implicit Types (p : Provisioner) (w : World D).

(** Forcing a container out. *)
Lemma remove_gone f id w : dm_ctrs (wobs (call f (ContainerRemove true id) w).1) !! id = None.
Proof.
  destruct (call f _ w) as [w' r] eqn:Hc. apply call_spec in Hc as (_ & _ & r0 & Hm & _). cbn [fst].
  pose proof Hm as Hlaw. apply Remove_law in Hlaw. unfold wobs.
  destruct (dm_ctrs (obs (dw_d w)) !! id) as [c|] eqn:Hc.
  - pose proof (Remove_up id (dw_d w)) as Hup. rewrite Hm, Hc in Hup. cbn [snd] in Hup. rewrite Hup in Hlaw by eauto.
    destruct Hlaw as [_ ->]. cbn. by rewrite lookup_delete_eq.
  - destruct r0 as [|[]]; [destruct Hlaw as [_ ->]|by destruct Hlaw as [_ ->]|destruct Hlaw as [->| ->]]; try done;
      cbn; by rewrite lookup_delete_eq.
Qed.

(** Who is on a network, among the containers with the names [l]. *)
Definition members_in (n : string) (l : list string) (dm : Daemon) : Prop :=
  forall id c, dm_ctrs dm !! id = Some c -> n ∈ ct_Nets c -> ct_Name c ∈ l.

(** Disconnecting a peer takes it off the network. *)
Lemma disconnect_member n x l f w :
  isID x = false -> members_in n (x :: l) (wobs w) ->
  members_in n l (wobs (call f (NetworkDisconnect n x) w).1) /\
  dom (dm_ctrs (wobs (call f (NetworkDisconnect n x) w).1)) = dom (dm_ctrs (wobs w)) /\
  dm_nets (wobs (call f (NetworkDisconnect n x) w).1) = dm_nets (wobs w).
Proof.
  intros Hx Hm. destruct (call f _ w) as [w' r] eqn:Hc. apply call_spec in Hc as (_ & _ & r0 & Hcall & _). cbn [fst].
  pose proof Hcall as Hlaw. apply Disconnect_law in Hlaw. unfold wobs in *.
  assert (Heff : obs (dw_d w') = obs (dw_d w) \/ exists jd, refers (obs (dw_d w)) x jd /\ r0 = Ok () /\
    obs (dw_d w') = alter_ctr (leave n) jd (obs (dw_d w))).
  { destruct r0 as [[]|]; [right|by left]. destruct Hlaw as (jd & ? & ?). eauto. }
  split.
  - intros kd c' Hk Hn.
    assert (Hback : exists c, dm_ctrs (obs (dw_d w)) !! kd = Some c /\ ct_Name c' = ct_Name c /\ n ∈ ct_Nets c).
    { destruct Heff as [Heq|(jd & _ & _ & Heq)]; rewrite Heq in Hk; [eauto|]. cbn in Hk.
      destruct (decide (jd = kd)) as [->|]; [|rewrite lookup_alter_ne in Hk by done; eauto].
      rewrite lookup_alter_eq in Hk. destruct (dm_ctrs (obs (dw_d w)) !! kd) as [c|]; [|done]. injection Hk as <-.
      apply elem_of_leave in Hn as [? _]. eauto. }
    destruct Hback as (c & Hkc & Hname & Hnc). rewrite Hname.
    assert (Hin : ct_Name c ∈ x :: l) by by eapply Hm.
    apply elem_of_cons in Hin as [Heqx|?]; [|done]. exfalso.
    assert (Href : refers (obs (dw_d w)) x kd) by (exists c; auto).
    pose proof (Disconnect_up n x kd c (dw_d w) Href Hkc Hnc) as Hup. rewrite Hcall in Hup. cbn in Hup. subst r0.
    destruct Hlaw as (jd & Hr & Heq). destruct (refers_name _ _ _ Hx Hr) as (cj & Hj & Hnj).
    assert (jd = kd) as -> by (eapply wf_names; [apply obs_wf|done|done|congruence]).
    rewrite Heq in Hk. cbn in Hk. rewrite lookup_alter_eq, Hkc in Hk. injection Hk as <-.
    by apply elem_of_leave in Hn as [_ ?].
  - destruct Heff as [->|(jd & _ & _ & ->)]; [done|]. cbn. by rewrite dom_alter_L.
Qed.

Lemma disconnect_all n l f w :
  Forall (fun x => isID x = false) l -> members_in n l (wobs w) ->
  exists w', for_each l (fun peer => go_ignore (E' := DockerError) (call f (NetworkDisconnect n peer))) w = (w', Ok ()) /\
    members_in n [] (wobs w') /\ dom (dm_ctrs (wobs w')) = dom (dm_ctrs (wobs w)) /\
    dm_nets (wobs w') = dm_nets (wobs w) /\ dw_dirs w' = dw_dirs w /\ dw_api w' = dw_api w.
Proof.
  revert w. induction l as [|x l IH]; intros w Hall Hm; [by exists w|]. inversion Hall; subst.
  cbn [for_each]. unfold go_bind, go_ignore at 1.
  destruct (disconnect_member n x l f w) as (H1' & H2' & H3'); [done..|].
  destruct (quiet_call f (NetworkDisconnect n x) w) as [Hd Ha].
  destruct (IH (call f (NetworkDisconnect n x) w).1) as (w' & -> & Hm' & Hdom & Hn & Hd' & Ha'); [done..|].
  exists w'. rewrite Hdom, Hn, Hd', Ha'. done.
Qed.

(** Removing the network of a box that is gone. *)
Lemma removeBoxNetwork_gone p id w :
  peers_ok p -> members_in (boxNetworkName id) (pv_peers p) (wobs w) -> dm_ctrs (wobs w) !! id = None ->
  exists w', removeBoxNetwork p id w = (w', Ok ()) /\ members_in (boxNetworkName id) [] (wobs w') /\
    dm_ctrs (wobs w') !! id = None /\ dm_nets (wobs w') !! boxNetworkName id = None /\
    dw_dirs w' = dw_dirs w /\ dw_api w' = dw_api w.
Proof.
  intros Hp Hm Hid. unfold removeBoxNetwork, go_bind.
  destruct (disconnect_all (boxNetworkName id) (pv_peers p) ErrNetDetach w Hp Hm) as (w1 & -> & Hm1 & Hdom & Hn1 & Hd1 & Ha1).
  unfold go_ignore. destruct (call ErrRemove _ w1) as [w2 r] eqn:Hc. apply call_spec in Hc as (Hd2 & Ha2 & r0 & Hcall & _).
  pose proof Hcall as Hlaw. apply NetRemove_law in Hlaw. exists w2. cbn [fst].
  assert (Hctrs : dm_ctrs (wobs w2) = dm_ctrs (wobs w1)) by (unfold wobs; destruct r0; by rewrite Hlaw).
  split_and!; [done|unfold members_in; by rewrite Hctrs| | |congruence|congruence].
  - rewrite Hctrs. apply not_elem_of_dom. rewrite Hdom. by apply not_elem_of_dom.
  - destruct (dm_nets (wobs w1) !! boxNetworkName id) as [ls|] eqn:Hls.
    + pose proof (NetRemove_up (boxNetworkName id) (dw_d w1)) as Hup. unfold wobs in *. rewrite Hcall, Hls in Hup.
      cbn [snd] in Hup. rewrite Hup in Hlaw; [rewrite Hlaw; cbn; by rewrite lookup_delete_eq|by eexists|apply boxNetworkName_bridge|].
      intros jd c Hj Hin. specialize (Hm1 _ _ Hj Hin). by apply not_elem_of_nil in Hm1.
    + unfold wobs in *. destruct r0; rewrite Hlaw; [|done]. cbn. by rewrite lookup_delete_eq.
Qed.

(** A clean-up takes the container away, whatever its network name is shared with. *)
Lemma cleanup_local p rest g id t w :
  peers_ok p -> id ∈ dm_used (wobs w) ->
  dm_ctrs (wobs (cleanup p rest g id t w)) !! id = None /\
  dw_dirs (cleanup p rest g id t w) = removed rest t (dw_dirs w) /\ dw_api (cleanup p rest g id t w) = delete g (dw_api w).
Proof.
  intros Hp Hu. unfold cleanup. set (w0 := stopBoxAPI g w).
  pose proof (remove_gone ErrRemove id w0) as Hgone.
  pose proof (touches_remove p id ErrRemove true w0 Hu) as Ht.
  destruct (quiet_call ErrRemove (ContainerRemove true id) w0) as [Hd Ha].
  set (w1 := (call ErrRemove (ContainerRemove true id) w0).1) in *.
  assert (Hu1 : id ∈ dm_used (wobs w1)) by by rewrite (touch_used _ _ _ _ Ht).
  pose proof (touches_removeNetwork p id Hp w1 Hu1) as Hn. destruct (quiet_removeNetwork p id w1) as [Hd' Ha'].
  set (w2 := (removeBoxNetwork p id w1).1) in *. split_and!.
  - apply eq_None_not_Some. intros [c Hc]. destruct (touch_self _ _ _ _ Hn _ Hc) as (c0 & Hc0 & _). congruence.
  - cbn [remove_all set_dirs dw_dirs]. by rewrite Hd', Hd.
  - cbn [remove_all set_dirs dw_api]. by rewrite Ha', Ha.
Qed.

Lemma cleanup_gone p rest g id t w :
  peers_ok p -> id ∈ dm_used (wobs w) ->
  (forall jd c, jd <> id -> dm_ctrs (wobs w) !! jd = Some c -> boxNetworkName id ∈ ct_Nets c -> ct_Name c ∈ pv_peers p) ->
  members_in (boxNetworkName id) [] (wobs (cleanup p rest g id t w)) /\
  dm_nets (wobs (cleanup p rest g id t w)) !! boxNetworkName id = None.
Proof.
  intros Hp Hu Hm. unfold cleanup. set (w0 := stopBoxAPI g w).
  pose proof (remove_gone ErrRemove id w0) as Hgone.
  pose proof (touches_remove p id ErrRemove true w0 Hu) as Ht.
  destruct (removeBoxNetwork_gone p id (call ErrRemove (ContainerRemove true id) w0).1) as (w' & -> & ? & ? & ? & Hd' & Ha');
    [done| |done|].
  - intros jd c Hj Hin. destruct (decide (jd = id)) as [->|Hne]; [congruence|].
    pose proof (touch_ctrs _ _ _ _ Ht jd Hne) as Hk. rewrite Hj in Hk. change (wobs w0) with (wobs w) in Hk.
    destruct (dm_ctrs (wobs w) !! jd) as [c0|] eqn:Hc0; [|inversion Hk]. inversion Hk as [? ? Hkept|]; subst.
    destruct Hkept as [Heq Hor]. assert (Hname : ct_Name c = ct_Name c0) by by injection Heq. rewrite Hname.
    destruct Hor as [->|]; [|done]. by eapply Hm.
  - cbn [fst]. split_and!; done.
Qed.
End CleanUp.

Section Provisioned.
Context {D : Type} `{DockerLaws D} (refDomain EncodeAuthConfig : string -> option string).
Implicit Types (p : Provisioner) (w : World D).

(** What a touch leaves of the containers, when the network is new. *)
Lemma touch_fresh p id c0 dm dm' :
  daemon_wf dm -> id ∉ dm_used dm -> dm_nets dm !! boxNetworkName id = None -> touch p id (add_ctr id c0 dm) dm' ->
  forall jd c, dm_ctrs dm !! jd = Some c -> exists c', dm_ctrs dm' !! jd = Some c' /\ boxNetworkName id ∉ ct_Nets c /\
    leave (boxNetworkName id) c' = c /\ (c' = c \/ ct_Name c ∈ pv_peers p).
Proof.
  intros Hwf Hf Hn Ht jd c Hc.
  assert (Hne : jd <> id) by (intros ->; apply Hf; eapply wf_used; eauto).
  assert (Hnc : boxNetworkName id ∉ ct_Nets c).
  { intros Hin. destruct (wf_nets _ Hwf _ _ _ Hc Hin). congruence. }
  pose proof (touch_ctrs _ _ _ _ Ht jd Hne) as Hk. cbn [add_ctr dm_ctrs] in Hk. rewrite lookup_insert_ne, Hc in Hk by done.
  destruct (dm_ctrs dm' !! jd) as [c'|]; [|inversion Hk]. inversion Hk as [? ? Hkept|]; subst. destruct Hkept as [Heq Hor].
  rewrite (leave_id _ c Hnc) in Heq. eauto.
Qed.

(** A touch of a fresh container that is gone again, with its network. *)
Lemma touch_undone p id c0 dm dm' :
  daemon_wf dm -> id ∉ dm_used dm -> dm_nets dm !! boxNetworkName id = None -> touch p id (add_ctr id c0 dm) dm' ->
  dm_ctrs dm' !! id = None -> members_in (boxNetworkName id) [] dm' -> dm_nets dm' !! boxNetworkName id = None ->
  dm_ctrs dm' = dm_ctrs dm /\ dm_nets dm' = dm_nets dm.
Proof.
  intros Hwf Hf Hn Ht Hid Hm Hn'. split.
  - apply map_eq. intros jd. destruct (dm_ctrs dm !! jd) as [c|] eqn:Hc.
    + destruct (touch_fresh _ _ _ _ _ Hwf Hf Hn Ht jd c Hc) as (c' & Hc' & _ & Heq & _). rewrite Hc'. f_equal.
      rewrite <- Heq, leave_id; [done|]. intros Hin. specialize (Hm _ _ Hc' Hin). by apply not_elem_of_nil in Hm.
    + destruct (decide (jd = id)) as [->|Hne]; [done|].
      pose proof (touch_ctrs _ _ _ _ Ht jd Hne) as Hk. cbn [add_ctr dm_ctrs] in Hk. rewrite lookup_insert_ne, Hc in Hk by done.
      inversion Hk. done.
  - pose proof (touch_nets _ _ _ _ Ht) as Hd. cbn [add_ctr dm_nets] in Hd. by rewrite !delete_id in Hd.
Qed.

Lemma Provision_ok p opts env w w' i :
  peers_ok p ->
  Provision refDomain EncodeAuthConfig p opts env w = (w', Ok i) ->
  exists token generation id,
    newSocketToken (pe_token env) = Some token /\ newGenerationToken (pe_generation env) = Some generation /\
    i = new_instance p opts (pe_now env) generation id token /\ id ∉ dm_used (wobs w) /\
    dm_used (wobs w') = {[id]} ∪ dm_used (wobs w) /\
    dm_ctrs (wobs w') !! id = Some (MkCtr (pendingPrefix +:+ generation) (container_config p opts token generation)
      (host_config p token) true {[boxNetworkName id]}) /\
    (forall jd, jd <> id -> is_Some (dm_ctrs (wobs w') !! jd) -> is_Some (dm_ctrs (wobs w) !! jd)) /\
    (forall jd c, dm_ctrs (wobs w) !! jd = Some c -> exists c', dm_ctrs (wobs w') !! jd = Some c' /\
       boxNetworkName id ∉ ct_Nets c /\ leave (boxNetworkName id) c' = c /\ (c' = c \/ ct_Name c ∈ pv_peers p)) /\
    dm_nets (wobs w) !! boxNetworkName id = None /\
    dm_nets (wobs w') = <[boxNetworkName id := network_labels p]> (dm_nets (wobs w)) /\
    dw_dirs w' = <[token := pausedMarkerExists (dw_dirs w) token]> (dw_dirs w) /\
    dw_api w' = (if pv_ports p then <[generation := MkApiServer (co_BoxID opts) (path_Join [pv_socketDir p; token; apiSocketName])]> (dw_api w)
                 else dw_api w) /\
    (co_BoxID opts = "" \/ ValidBoxID (co_BoxID opts) = true) /\ waitForSocket (pe_wait env) = Ok ().
Proof.
  intros Hp Hr. apply Provision_stages in Hr as [(e & [=] & _)|Hr].
  destruct Hr as (t & g & id & name & w1 & Hv & Htok & Hgen & Hf & Ho & Ha & Hd & Hl).
  assert (Hu : id ∈ dm_used (wobs w1)) by (rewrite Ho; cbn; set_solver).
  assert (Hc1 : dm_ctrs (wobs w1) !! id = Some (created p opts t g name)) by (rewrite Ho; cbn; by rewrite lookup_insert_eq).
  pose proof (touches_launch p opts env g id t Hp w1 Hu) as Ht.
  destruct (launch _ _ _ _ _ _ _) as [w2 [[]|e]] eqn:Hlaunch; destruct Hl as [-> [= ->]]. cbn [fst] in Ht.
  destruct (launch_ok _ _ _ _ _ _ _ _ _ Hu Hc1 Hlaunch) as (Hfresh & Hc2 & Hn2 & Hd2 & Ha2 & Hwait).
  rewrite Ho in Ht. rewrite Ho in Hfresh. cbn [add_ctr dm_nets] in Hfresh.
  exists t, g, id. rewrite Hd2, Hd, Ha2, Ha. split_and!; try done.
  - by rewrite (touch_used _ _ _ _ Ht).
  - intros jd Hne Hsome. pose proof (touch_ctrs _ _ _ _ Ht jd Hne) as Hk. cbn [add_ctr dm_ctrs] in Hk.
    rewrite lookup_insert_ne in Hk by done. destruct Hsome as [c' Hc']. rewrite Hc' in Hk. inversion Hk; eauto.
  - by apply (touch_fresh _ _ _ _ _ (obs_wf (dw_d w)) Hf Hfresh Ht).
  - pose proof (touch_nets _ _ _ _ Ht) as Hdel. cbn [add_ctr dm_nets] in Hdel. rewrite (delete_id (dm_nets (wobs w))) in Hdel by done.
    by rewrite <- Hdel, insert_delete_id.
Qed.

(** The directories after a failed creation that made one for a fresh token. *)
Lemma removed_fresh rest t (dirs : gmap string bool) : dirs !! t = None ->
  removed rest t (<[t := pausedMarkerExists dirs t]> dirs) = match rest with None => dirs | Some _ => <[t := false]> dirs end.
Proof.
  intros Hn. unfold pausedMarkerExists. rewrite Hn. destruct rest as [m|]; cbn.
  - apply map_eq. intros k. destruct (decide (t = k)) as [<-|Hne].
    + rewrite lookup_alter_eq, lookup_insert_eq. cbn. by rewrite andb_false_r.
    + by rewrite lookup_alter_ne.
  - by rewrite delete_insert_eq, delete_id.
Qed.

(** A failed creation: no container was made, or one that is gone again; if its
    network name was new, the daemon is as before. *)
Lemma Provision_err `{!DockerUp D} p opts env w w' e :
  peers_ok p -> Provision refDomain EncodeAuthConfig p opts env w = (w', Err e) ->
  (wobs w' = wobs w \/ exists id c0, id ∉ dm_used (wobs w) /\ touch p id (add_ctr id c0 (wobs w)) (wobs w') /\
     dm_ctrs (wobs w') !! id = None /\
     (dm_nets (wobs w) !! boxNetworkName id = None ->
        dm_ctrs (wobs w') = dm_ctrs (wobs w) /\ dm_nets (wobs w') = dm_nets (wobs w))) /\
  ((forall t, newSocketToken (pe_token env) = Some t -> dw_dirs w !! t = None) ->
     dw_dirs w' = dw_dirs w \/
     (is_Some (pe_rest env) /\ exists t, newSocketToken (pe_token env) = Some t /\ dw_dirs w' = <[t := false]> (dw_dirs w))) /\
  ((forall g, newGenerationToken (pe_generation env) = Some g -> dw_api w !! g = None) -> dw_api w' = dw_api w).
Proof.
  assert (Hrm : forall t, newSocketToken (pe_token env) = Some t -> dw_dirs w !! t = None ->
    dw_dirs w' = removed (pe_rest env) t (<[t := pausedMarkerExists (dw_dirs w) t]> (dw_dirs w)) ->
    dw_dirs w' = dw_dirs w \/
    (is_Some (pe_rest env) /\ exists t, newSocketToken (pe_token env) = Some t /\ dw_dirs w' = <[t := false]> (dw_dirs w))).
  { intros t Ht Hn ->. rewrite removed_fresh by done. destruct (pe_rest env); [right; eauto|by left]. }
  intros Hp Hr. apply Provision_stages in Hr as [(e' & _ & Hsame & -> & Hd)|Hr].
  { split_and!; [by left| |done]. intros Hdirs. destruct Hd as [->|(t & Ht & Hd)]; [by left|]. by apply (Hrm t); auto. }
  destruct Hr as (t & g & id & name & w1 & _ & Htok & Hgen & Hf & Ho & Ha & Hd & Hl).
  assert (Hu : id ∈ dm_used (wobs w1)) by (rewrite Ho; cbn; set_solver).
  pose proof (touches_launch p opts env g id t Hp w1 Hu) as Ht.
  pose proof (launch_local p opts env g id t w1) as [Hd2 Ha2].
  destruct (launch _ _ _ _ _ _ _) as [w2 [[]|e2]]; destruct Hl as [-> Hl]; [done|]. cbn [fst] in *. clear Hl.
  pose proof (touch_used _ _ _ _ Ht) as Hused. assert (Hu2 : id ∈ dm_used (wobs w2)) by by rewrite Hused.
  assert (Hall : touch p id (wobs w1) (wobs (cleanup p (pe_rest env) g id t w2))).
  { etrans; [exact Ht|]. by apply (touches_cleaning p _ g id t Hp w2). }
  destruct (cleanup_local p (pe_rest env) g id t w2 Hp Hu2) as (Hid & Hdel & Hapi').
  rewrite Ho in Ht, Hall. split_and!.
  - right. exists id, (created p opts t g name). split_and!; try done. intros Hfresh.
    destruct (cleanup_gone p (pe_rest env) g id t w2 Hp Hu2) as (Hm & Hn);
      [|exact (touch_undone _ _ _ _ _ (obs_wf (dw_d w)) Hf Hfresh Hall Hid Hm Hn)].
    intros jd c Hne Hj Hin. pose proof (touch_ctrs _ _ _ _ Ht jd Hne) as Hk. cbn [add_ctr dm_ctrs] in Hk.
    rewrite lookup_insert_ne, Hj in Hk by done. destruct (dm_ctrs (wobs w) !! jd) as [c0|] eqn:Hc0; [|inversion Hk].
    destruct (touch_fresh _ _ _ _ _ (obs_wf (dw_d w)) Hf Hfresh Ht jd c0 Hc0) as (c' & Hc' & Hn0 & Heq & Hor).
    assert (c' = c) as -> by (unfold wobs in *; congruence).
    destruct Hor as [->|Hpeer]; [done|]. by rewrite <- Heq in Hpeer.
  - intros Hdirs. apply (Hrm t); [done|by apply Hdirs|]. by rewrite Hdel, Hd2, Hd.
  - intros Hapi. rewrite Hapi'. destruct Ha2 as [->| ->]; rewrite ?delete_insert_eq, Ha; by apply delete_id, Hapi.
Qed.
End Provisioned.

(** What a new box must look like, value by value: the container the daemon
    runs, with the spoke's image, the guest agent as its process, the labels, and
    the limits that are configured (a limit of zero or less is none). *)
Record new_box (p : Provisioner) (opts : CreateOptions) (token generation : string) (c : Ctr) : Prop := {
  nb_name : ct_Name c = "llmbox-pending-" +:+ generation;
  nb_running : ct_Running c = true;
  nb_image : cc_Image (ct_Config c) = pv_defaultImage p;
  nb_process : cc_Hostname (ct_Config c) = co_BoxID opts /\ cc_User (ct_Config c) = "0:0" /\
    cc_WorkingDir (ct_Config c) = "/workspace" /\ cc_Env (ct_Config c) = ["HOME=/root"] /\
    cc_Entrypoint (ct_Config c) = ["tini"; "-g"; "--"; "llmbox-guest"; "--socket"; "/run/llmbox/control.sock"];
  nb_marks : ct_Labels c !! "com.llmbox.managed" = Some "true" /\ ct_Labels c !! "com.llmbox.generation" = Some generation /\
    ct_Labels c !! "com.llmbox.socket" = Some token;
  nb_labels : forall k v, (k, v) ∈ [("com.llmbox.namespace", pv_namespace p); ("com.llmbox.box-id", co_BoxID opts);
      ("com.llmbox.description", co_Description opts)] ->
    ct_Labels c !! k = if decide (v = "") then None else Some v;
  nb_privileges : hc_SecurityOpt (ct_Host c) = ["no-new-privileges"];
  nb_restart : hc_RestartPolicy (ct_Host c) = "unless-stopped";
  nb_mounts : hc_Mounts (ct_Host c) = [MkMount "bind" (path_Join [pv_socketDir p; token]) "/run/llmbox"];
  nb_memory : hc_Memory (ct_Host c) = Z.max 0 (lim_MemoryBytes (pv_limits p));
  nb_cpus : hc_NanoCPUs (ct_Host c) = Z.max 0 (lim_NanoCPUs (pv_limits p));
  nb_pids : hc_PidsLimit (ct_Host c) = if decide (0 < lim_PidsLimit (pv_limits p)) then Some (lim_PidsLimit (pv_limits p)) else None;
  nb_gpus : hc_DeviceRequests (ct_Host c) = pv_boxGPUs p;
}.

Lemma box_labels_spec p opts token generation :
  let ls := box_labels p opts token generation in
  (ls !! ManagedLabel = Some "true" /\ ls !! GenerationLabel = Some generation /\ ls !! socketLabel = Some token) /\
  (forall k v, (k, v) ∈ [(NamespaceLabel, pv_namespace p); (BoxIDLabel, co_BoxID opts); (DescriptionLabel, co_Description opts)] ->
    ls !! k = if decide (v = "") then None else Some v).
Proof.
  unfold box_labels. set (ls := <[GenerationLabel := generation]> _).
  destruct (String.eqb_spec (pv_namespace p) "") as [->|H1], (String.eqb_spec (co_BoxID opts) "") as [->|H2],
    (String.eqb_spec (co_Description opts) "") as [->|H3]; (split; [repeat split|]);
    intros; rewrite ?elem_of_cons, ?elem_of_nil in *;
    repeat match goal with H : _ \/ _ |- _ => destruct H | H : False |- _ => destruct H end; simplify_eq;
    try case_decide; try done.
Qed.

Lemma launched_new_box p opts token generation n :
  new_box p opts token generation (MkCtr (pendingPrefix +:+ generation) (container_config p opts token generation)
    (host_config p token) true {[n]}).
Proof.
  destruct (box_labels_spec p opts token generation) as [Hm Hl].
  split; try done; cbn [ct_Host host_config hc_Memory hc_NanoCPUs hc_PidsLimit].
  - destruct (Z.ltb_spec 0 (lim_MemoryBytes (pv_limits p))); lia.
  - destruct (Z.ltb_spec 0 (lim_NanoCPUs (pv_limits p))); lia.
  - destruct (Z.ltb_spec 0 (lim_PidsLimit (pv_limits p))); case_decide; done || lia.
Qed.


(** ** Boxes do not share networks *)

Definition managed (c : Ctr) : Prop := ct_Labels c !! ManagedLabel = Some "true".

(** Every box is on its own network only, and named as a box; the networks are
    named differently. *)
Definition isolated (dm : Daemon) : Prop :=
  (forall id c, dm_ctrs dm !! id = Some c -> managed c ->
    ct_Nets c = {[boxNetworkName id]} /\ HasPrefix (ct_Name c) readyPrefix = true) /\
  (forall id id' c c', dm_ctrs dm !! id = Some c -> dm_ctrs dm !! id' = Some c' -> managed c -> managed c' ->
    boxNetworkName id = boxNetworkName id' -> id = id').

(** Boxes that were there as they are stay isolated. *)
Lemma isolated_sub dm dm' :
  isolated dm -> (forall id c', dm_ctrs dm' !! id = Some c' -> managed c' -> exists c, dm_ctrs dm !! id = Some c /\ managed c /\
    ct_Nets c' = ct_Nets c /\ (HasPrefix (ct_Name c) readyPrefix = true -> HasPrefix (ct_Name c') readyPrefix = true)) ->
  isolated dm'.
Proof.
  intros [Hi Hd] Hs. split.
  - intros id c' Hc' Hm. destruct (Hs id c' Hc' Hm) as (c & Hc & Hmc & -> & Hn). destruct (Hi id c Hc Hmc) as [-> ?]. auto.
  - intros id id' c c' Hc Hc' Hm Hm'. destruct (Hs _ _ Hc Hm) as (? & ? & ? & _), (Hs _ _ Hc' Hm') as (? & ? & ? & _). eauto.
Qed.

(** Peers are named, and not as boxes are. *)
Definition peers_foreign (p : Provisioner) : Prop :=
  Forall (fun x => isID x = false /\ HasPrefix x readyPrefix = false) (pv_peers p).

Lemma peers_foreign_ok p : peers_foreign p -> peers_ok p.
Proof. intros Hp. eapply Forall_impl; [exact Hp|]. by intros x [? _]. Qed.

(** What operations on an instance do to its container. *)
Definition steady (id : string) (dm dm' : Daemon) : Prop :=
  forall c', dm_ctrs dm' !! id = Some c' -> exists c, dm_ctrs dm !! id = Some c /\ ct_Nets c' = ct_Nets c /\
    (HasPrefix (ct_Name c) readyPrefix = true -> HasPrefix (ct_Name c') readyPrefix = true).

#[export] Instance steady_refl id : Reflexive (steady id).
Proof. intros dm c' Hc. eauto. Qed.
#[export] Instance steady_trans id : Transitive (steady id).
Proof.
  intros d1 d2 d3 H1 H2 c3 Hc3. destruct (H2 _ Hc3) as (c2 & Hc2 & -> & Hp2).
  destruct (H1 _ Hc2) as (c1 & Hc1 & -> & Hp1). exists c1. auto.
Qed.

Lemma steady_alter id f dm :
  (forall c, ct_Nets (f c) = ct_Nets c /\ (HasPrefix (ct_Name c) readyPrefix = true -> HasPrefix (ct_Name (f c)) readyPrefix = true)) ->
  steady id dm (alter_ctr f id dm).
Proof.
  intros Hf c'. cbn [alter_ctr dm_ctrs]. rewrite lookup_alter_eq. destruct (dm_ctrs dm !! id) as [c|]; [|done].
  intros [= <-]. exists c. by destruct (Hf c).
Qed.

Lemma steady_del id dm dm' : dm_ctrs dm' !! id = None -> steady id dm dm'.
Proof. intros Hn c' Hc. congruence. Qed.

Lemma foreign_kept p n c c' :
  peers_foreign p -> kept p n c c' -> HasPrefix (ct_Name c) readyPrefix = true -> c' = c.
Proof.
  intros Hp [_ [->|Hpeer]] HP; [done|]. exfalso. unfold peers_foreign in Hp. rewrite Forall_forall in Hp.
  destruct (Hp _ Hpeer). congruence.
Qed.

(** What an operation on [id] leaves of another box. *)
Lemma touch_box p id dm dm' jd c' :
  peers_foreign p -> touch p id dm dm' -> isolated dm -> jd <> id -> dm_ctrs dm' !! jd = Some c' -> managed c' ->
  dm_ctrs dm !! jd = Some c'.
Proof.
  intros Hp Ht [Hi _] Hne Hc' Hm. pose proof (touch_ctrs _ _ _ _ Ht jd Hne) as Hk. rewrite Hc' in Hk.
  destruct (dm_ctrs dm !! jd) as [c|] eqn:Hc; [|inversion Hk]. inversion Hk as [? ? Hkept|]; subst.
  assert (Hcfg : ct_Config c' = ct_Config c) by (destruct Hkept as [Heq _]; by injection Heq).
  destruct (Hi jd c Hc) as [_ HP]; [unfold managed, ct_Labels in *; by rewrite <- Hcfg|].
  by rewrite (foreign_kept _ _ _ _ Hp Hkept HP).
Qed.

Lemma touch_isolated p id dm dm' :
  peers_foreign p -> touch p id dm dm' -> steady id dm dm' -> isolated dm -> isolated dm'.
Proof.
  intros Hp Ht Hst Hi. eapply isolated_sub; [exact Hi|]. intros jd c' Hc' Hm. destruct (decide (jd = id)) as [->|Hne].
  - destruct (Hst _ Hc') as (c & Hc & Hn & Hpre). destruct (touch_self _ _ _ _ Ht _ Hc') as (c2 & Hc2 & Hcfg).
    assert (c2 = c) as -> by congruence. exists c. unfold managed, ct_Labels in *. rewrite <- Hcfg. auto.
  - exists c'. split; [by eapply touch_box|]. auto.
Qed.

Section Isolation.
Context {D : Type} `{DockerUp D} (refDomain EncodeAuthConfig : string -> option string).
Implicit Types (p : Provisioner) (w : World D).

Lemma steady_call {A} id f (m : go D DErr A) w :
  (forall d d' r, m d = (d', r) -> steady id (obs d) (obs d')) -> steady id (wobs w) (wobs (call f m w).1).
Proof.
  intros Hm. destruct (call f m w) as [w' r] eqn:Hc. apply call_spec in Hc as (_ & _ & r0 & Hd & _). by eapply Hm.
Qed.

Lemma steady_start id f w : steady id (wobs w) (wobs (call f (ContainerStart id) w).1).
Proof.
  apply steady_call. intros d d' r Hc. apply Start_law in Hc.
  destruct r; [destruct Hc as [_ ->]|destruct Hc as [run ->]]; by apply steady_alter.
Qed.

Lemma steady_stop id f w : steady id (wobs w) (wobs (call f (ContainerStop id) w).1).
Proof.
  apply steady_call. intros d d' r Hc. apply Stop_law in Hc.
  destruct r as [|[|]]; [destruct Hc as [_ ->]|destruct Hc as [_ ->]|destruct Hc as [run ->]];
    [by apply steady_alter|done|by apply steady_alter].
Qed.

Lemma steady_MarkReady i w : steady (di_containerID i) (wobs w) (wobs (MarkReady i w).1).
Proof.
  apply steady_call. intros d d' r Hc. apply Rename_law in Hc.
  destruct r; [destruct Hc as [_ ->]|rewrite Hc; done]. apply steady_alter. intros c. split; [done|]. intros _.
  cbn [set_Name ct_Name]. apply HasPrefix_spec. eexists. reflexivity.
Qed.

Lemma steady_Pause ok i w : steady (di_containerID i) (wobs w) (wobs (Pause ok i w).1).
Proof.
  unfold Pause. destruct (negb _); [reflexivity|]. unfold go_cleanup. set (w1 := set_dirs _ w).
  pose proof (steady_stop (di_containerID i) (gone_or i ErrStop) w1) as Hs. destruct (call _ _ w1) as [w2 [[]|e]]; exact Hs.
Qed.

Lemma steady_Resume env ok i w : steady (di_containerID i) (wobs w) (wobs (Resume env ok i w).1).
Proof.
  unfold Resume, go_bind. pose proof (steady_start (di_containerID i) (gone_or i ErrStart) w) as Hs.
  destruct (call _ _ w) as [w2 [[]|e]]; [|done]. cbn [fst] in Hs.
  destruct (waitForSocket env); [|done]. by repeat case_match.
Qed.

Lemma steady_Destroy p rest i w :
  peers_ok p -> di_containerID i ∈ dm_used (wobs w) -> steady (di_containerID i) (wobs w) (wobs (Destroy p rest i w).1).
Proof.
  intros Hp Hu. unfold Destroy. unfold go_bind at 1. set (id := di_containerID i) in *.
  pose proof (steady_stop id (gone_or i ErrStop) w) as Hs. pose proof (touches_stop p id (gone_or i ErrStop) w Hu) as Ht.
  destruct (call _ (ContainerStop id) w) as [w1 [[]|e]]; cbn [fst] in *; [|done]. etrans; [exact Hs|].
  assert (Hu1 : id ∈ dm_used (wobs w1)) by by rewrite (touch_used _ _ _ _ Ht). unfold go_bind at 1.
  pose proof (touches_remove p id (gone_or i ErrRemove) false w1 Hu1) as Ht2.
  destruct (call _ (ContainerRemove false id) w1) as [w2 r2] eqn:Hr. cbn [fst] in Ht2.
  apply call_spec in Hr as (_ & _ & r0 & Hm & Hr). apply Remove_law in Hm. destruct r0 as [[]|e]; subst r2.
  - destruct Hm as [_ Hm]. unfold go_bind. pose proof (touches_removeNetwork p id Hp w2) as Hn.
    rewrite (touch_used _ _ _ _ Ht2) in Hn. specialize (Hn Hu1).
    assert (Hgone : dm_ctrs (wobs w2) !! id = None) by (unfold wobs; rewrite Hm; cbn; by rewrite lookup_delete_eq).
    assert (Hgone' : dm_ctrs (wobs (removeBoxNetwork p id w2).1) !! id = None).
    { apply eq_None_not_Some. intros [c Hc]. destruct (touch_self _ _ _ _ Hn _ Hc) as (c0 & Hc0 & _). congruence. }
    destruct (removeBoxNetwork p id w2) as [w3 [[]|e]]; cbn [fst] in *; apply steady_del; [|done].
    cbn zeta. destruct (String.eqb _ _); exact Hgone'.
  - cbn [fst]. unfold wobs. destruct e; [by destruct Hm as [_ ->]|]. destruct Hm as [->| ->]; [done|].
    apply steady_del. cbn. by rewrite lookup_delete_eq.
Qed.

Lemma Provision_isolated p opts env w w' r :
  peers_foreign p -> Provision refDomain EncodeAuthConfig p opts env w = (w', r) -> isolated (wobs w) -> isolated (wobs w').
Proof.
  intros Hp Hr Hi. pose proof (peers_foreign_ok _ Hp) as Hp'. destruct r as [i|e].
  - destruct (Provision_ok _ _ _ _ _ _ _ _ Hp' Hr) as
      (t & g & id & _ & _ & _ & _ & Hu & Hc & Hback & Hkeep & _ & Hn & _).
    assert (Hold : forall jd c', jd <> id -> dm_ctrs (wobs w') !! jd = Some c' -> managed c' ->
      dm_ctrs (wobs w) !! jd = Some c' /\ boxNetworkName id <> boxNetworkName jd).
    { intros jd c' Hne Hc' Hm. destruct (Hback jd Hne (mk_is_Some _ _ Hc')) as [c Hc0].
      destruct (Hkeep jd c Hc0) as (c2 & Hc2 & Hnot & Heq & Hor). assert (c2 = c') as -> by congruence. subst c.
      destruct (proj1 Hi _ _ Hc0 Hm) as [HN HP]. rewrite HN in Hnot. split; [|intros Heq; apply Hnot; by rewrite Heq, elem_of_singleton].
      rewrite (foreign_kept p (boxNetworkName id) (leave (boxNetworkName id) c') c' Hp); [done| |done].
      split; [|destruct Hor as [Heq|]; [left; congruence|by right]]. unfold leave, set_Nets. cbn. f_equal. set_solver. }
    split.
    + intros jd c' Hc' Hm. destruct (decide (jd = id)) as [->|Hne].
      { rewrite Hc in Hc'. injection Hc' as <-. split; [done|]. apply HasPrefix_spec. by exists ("pending-" +:+ g). }
      destruct (Hold jd c' Hne Hc' Hm) as [Hc0 _]. by apply (proj1 Hi).
    + intros jd kd c c' Hj Hk Hm Hm' Heq. destruct (decide (jd = id)) as [->|Hne], (decide (kd = id)) as [->|Hne']; [done| | |].
      * by destruct (Hold kd c' Hne' Hk Hm') as [_ []].
      * by destruct (Hold jd c Hne Hj Hm) as [_ []].
      * eapply (proj2 Hi); [by apply Hold|by apply Hold|done..].
  - destruct (Provision_err _ _ _ _ _ _ _ _ Hp' Hr) as ([->|(id & c0 & Hf & Ht & Hid & _)] & _); [done|].
    eapply isolated_sub; [exact Hi|]. intros jd c' Hc' Hm. destruct (decide (jd = id)) as [->|Hne]; [congruence|].
    exists c'. split; [|auto].
    pose proof (touch_ctrs _ _ _ _ Ht jd Hne) as Hk. cbn [add_ctr dm_ctrs] in Hk. rewrite lookup_insert_ne, Hc' in Hk by done.
    destruct (dm_ctrs (wobs w) !! jd) as [c|] eqn:Hc; [|inversion Hk]. inversion Hk as [? ? Hkept|]; subst.
    assert (Hcfg : ct_Config c' = ct_Config c) by (destruct Hkept as [Heq _]; by injection Heq).
    destruct (proj1 Hi jd c Hc) as [_ HP]; [unfold managed, ct_Labels in *; by rewrite <- Hcfg|].
    by rewrite (foreign_kept _ _ _ _ Hp Hkept HP).
Qed.

Lemma run_isolated p o w w' new :
  peers_foreign p -> (forall i, op_on o = Some i -> di_containerID i ∈ dm_used (wobs w)) ->
  run refDomain EncodeAuthConfig p o w = (w', new) -> isolated (wobs w) -> isolated (wobs w').
Proof.
  intros Hp Hon Hr Hi. pose proof (peers_foreign_ok _ Hp) as Hp'.
  assert (Hinst : forall (m : go (World D) DockerError ()) i, op_on o = Some i -> touches p (di_containerID i) m ->
    steady (di_containerID i) (wobs w) (wobs (m w).1) -> isolated (wobs (m w).1)).
  { intros m i Hoi Hm Hs. eapply touch_isolated; eauto. }
  destruct o; cbn [run op_on] in *.
  - destruct (List_ p w) as [w1 r] eqn:Hl. injection Hr as <- <-. by apply List_obs in Hl as (-> & _).
  - destruct (Find p x w) as [w1 r] eqn:Hl. injection Hr as <- <-. by apply Find_obs in Hl as (-> & _).
  - destruct (Provision _ _ p opts env w) as [w1 r] eqn:Hl. injection Hr as <- <-. by eapply Provision_isolated.
  - injection Hr as <- <-. eapply Hinst; [done|apply touches_MarkReady|apply steady_MarkReady].
  - injection Hr as <- <-. eapply Hinst; [done|apply touches_Pause|apply steady_Pause].
  - injection Hr as <- <-. eapply Hinst; [done|apply touches_Resume|apply steady_Resume].
  - injection Hr as <- <-. eapply Hinst; [done|by apply touches_Destroy|]. apply steady_Destroy; auto.
  - injection Hr as <- <-. by rewrite Recover_obs.
  - by injection Hr as <- <-.
Qed.
End Isolation.

(** C12: On a daemon that is up and starts without boxes, whatever the spokes that
    share it do, each operation run to its end before the next, every box is on
    its own network and no other, so no two boxes of any spokes share one and
    none is on the default bridge.  The peers the operators configure are given
    by names that are not a box's, and the daemon's calls do what Docker
    documents; nothing is assumed of the ids it hands out, two that share their
    first twelve digits included.  A spoke that dies inside a creation, between
    the creation of the container and its detachment from the bridge, is not
    covered. *)
Theorem boxes_share_no_network {D} `{DockerUp D} refDomain EncodeAuthConfig (ps : nat -> Provisioner) (s0 s : System (D := D)) :
  (forall j, peers_foreign (ps j)) -> (forall j, sd_handles (sy_side s0 j) = []) ->
  (forall id c, dm_ctrs (obs (sy_d s0)) !! id = Some c -> ~ managed c) ->
  rtc (any_step refDomain EncodeAuthConfig ps) s0 s ->
  forall id c, dm_ctrs (obs (sy_d s)) !! id = Some c -> managed c ->
    ct_Nets c = {[boxNetworkName id]} /\ defaultBridgeNetwork ∉ ct_Nets c /\
    forall id' c', dm_ctrs (obs (sy_d s)) !! id' = Some c' -> managed c' -> id' <> id -> ct_Nets c ∩ ct_Nets c' = ∅.
Proof.
  intros Hp Hh H0' Hr.
  assert (Hinv : sides_ok ps s /\ isolated (obs (sy_d s))).
  { assert (Hs0 : sides_ok ps s0) by (intros j; rewrite Hh; constructor).
    assert (Hi0 : isolated (obs (sy_d s0))) by (split; [intros id c Hc Hm|intros id id' c c' Hc _ Hm]; by destruct (H0' id c Hc)).
    clear Hh H0'. induction Hr as [|s1 s2 s3 [k Hs] _ IH]; [done|].
    destruct (spoke_step_guarantee _ _ _ _ _ _ (fun k => peers_foreign_ok _ (Hp k)) Hs0 Hs) as [_ Hs2].
    apply IH; [done|]. destruct Hs as [o s1 w' new Hon Hrun]. cbn [sy_d].
    eapply (run_isolated _ _ _ _ (MkWorld (sy_d s1) (sd_dirs (sy_side s1 k)) (sd_api (sy_side s1 k))));
      [apply (Hp k)| |exact Hrun|done].
    intros i Hi. specialize (Hs0 k). rewrite Forall_forall in Hs0. apply (Hs0 i (Hon i Hi)). }
  destruct Hinv as (_ & Hi & Hd). intros id c Hc Hm. destruct (Hi _ _ Hc Hm) as [HN _]. split_and!; [done| |].
  - rewrite HN, elem_of_singleton. intros Heq. by apply (boxNetworkName_bridge id).
  - intros id' c' Hc' Hm' Hne. destruct (Hi _ _ Hc' Hm') as [HN' _]. rewrite HN, HN'. apply disjoint_intersection_L.
    intros n Hn1 Hn2. apply elem_of_singleton in Hn1, Hn2. subst n. destruct Hne. by eapply Hd.
Qed.

(** ** Instances *)

Section Instances.
Context {D : Type} `{DockerLaws D}.
Implicit Types (p : Provisioner) (w : World D).

(** Who [List] shows, and in which state. *)
Lemma List_shows p w w' l i :
  List_ p w = (w', Ok l) -> i ∈ l ->
  exists c s, dm_ctrs (wobs w) !! di_containerID i = Some c /\ in_scope p c = true /\ sm_Labels s = ct_Labels c /\
    box_InstanceID (di_box i) = label (ct_Labels c) GenerationLabel /\ box_BoxID (di_box i) = label (ct_Labels c) BoxIDLabel /\
    box_Name (di_box i) = ct_Name c /\ di_socketToken i = label (ct_Labels c) socketLabel /\
    box_State (di_box i) = (if pausedMarkerExists (dw_dirs w) (di_socketToken i) && negb (String.eqb (di_socketToken i) "")
                            then StatePaused else sm_State s).
Proof.
  intros Hl Hi. apply List_obs in Hl as (_ & _ & _ & cs & (_ & Hin & _) & ->).
  apply list_elem_of_fmap in Hi as (s & -> & Hs). destruct (Hin s Hs) as (c & Hc & Hlab & Hn & Hls). exists c, s.
  unfold instance_of, boxFromSummary. rewrite Hn, Hls. cbn [di_containerID di_box di_socketToken].
  assert (Hname : default ("/" +:+ ct_Name c) (CutPrefix ("/" +:+ ct_Name c) "/") = ct_Name c) by by destruct (ct_Name c).
  rewrite Hname. destruct (String.eqb_spec (label (ct_Labels c) socketLabel) ""); cbn [negb andb];
    [rewrite andb_false_r|rewrite andb_true_r; destruct (pausedMarkerExists _ _)]; by split_and!.
Qed.

(** A box that was paused is listed as paused until it is resumed, whatever the
    state of its container; a pause that fails leaves no marker. *)
Lemma Pause_spec ok i w w' r :
  Pause ok i w = (w', r) ->
  match r with
  | Ok _ => pausedMarkerExists (dw_dirs w') (di_socketToken i) = true /\
      exists c, dm_ctrs (wobs w) !! di_containerID i = Some c /\ dm_ctrs (wobs w') !! di_containerID i = Some (set_Running false c)
  | Err ErrMarker => w' = w
  | Err e => pausedMarkerExists (dw_dirs w') (di_socketToken i) = false /\
      (e = ErrNotFound (box_BoxID (di_box i)) -> dm_ctrs (wobs w') !! di_containerID i = None)
  end.
Proof.
  unfold Pause. destruct (negb _); [by intros [= <- <-]|]. unfold go_cleanup.
  destruct (call _ _ _) as [w1 r1] eqn:Hc. apply call_spec in Hc as (Hd & Ha & r0 & Hm & Hr). apply Stop_law in Hm.
  unfold wobs. destruct r0 as [[]|e]; subst r1; intros [= <- <-].
  - destruct Hm as [[c Hc] Hm]. split; [rewrite Hd; cbn; unfold pausedMarkerExists; by rewrite lookup_insert_eq|].
    exists c. split; [done|]. rewrite Hm. by apply alter_lookup.
  - assert (Hmark : pausedMarkerExists (<[di_socketToken i := false]> (dw_dirs w1)) (di_socketToken i) = false)
      by (unfold pausedMarkerExists; by rewrite lookup_insert_eq).
    destruct e; cbn [gone_or]; (split; [exact Hmark|]); [|done]. intros _. destruct Hm as [Hn Hm]. cbn in *. by rewrite Hm.
Qed.

Lemma Resume_spec env ok i w w' r :
  Resume env ok i w = (w', r) ->
  match r with
  | Ok _ => pausedMarkerExists (dw_dirs w') (di_socketToken i) = false /\ waitForSocket env = Ok () /\
      exists c, dm_ctrs (wobs w) !! di_containerID i = Some c /\ dm_ctrs (wobs w') !! di_containerID i = Some (set_Running true c)
  | Err _ => dw_dirs w' = dw_dirs w
  end.
Proof.
  unfold Resume, go_bind. destruct (call _ _ w) as [w1 r1] eqn:Hc. apply call_spec in Hc as (Hd & Ha & r0 & Hm & Hr).
  apply Start_law in Hm. unfold wobs. destruct r0 as [[]|e]; subst r1; [|intros [= <- <-]; done].
  destruct Hm as [[c Hc] Hm]. destruct (waitForSocket env) as [[]|e]; [|intros [= <- <-]; done].
  destruct (pausedMarkerExists (dw_dirs w1) _) eqn:Hmark; [destruct ok|]; intros [= <- <-]; [| done|].
  - split; [unfold pausedMarkerExists; cbn; by rewrite lookup_insert_eq|]. split; [done|]. exists c. split; [done|].
    cbn. rewrite Hm. by apply alter_lookup.
  - split; [done|]. split; [done|]. exists c. split; [done|]. rewrite Hm. by apply alter_lookup.
Qed.

(** Destroying a box: the container and its server are gone, and its directory
    unless its removal fails; on a daemon that is up, its network too. *)
Lemma docker_Destroy_spec `{!DockerUp D} p rest i w w' :
  peers_ok p -> di_containerID i ∈ dm_used (wobs w) ->
  members_in (boxNetworkName (di_containerID i)) (pv_peers p) (del_ctr (di_containerID i) (wobs w)) ->
  Destroy p rest i w = (w', Ok ()) ->
  dm_ctrs (wobs w') !! di_containerID i = None /\ dm_nets (wobs w') !! boxNetworkName (di_containerID i) = None /\
  dw_api w' = delete (box_InstanceID (di_box i)) (dw_api w) /\
  dw_dirs w' = (if String.eqb (di_socketToken i) "" then dw_dirs w else removed rest (di_socketToken i) (dw_dirs w)).
Proof.
  intros Hp Hu Hmem. unfold Destroy. unfold go_bind at 1. set (id := di_containerID i) in *.
  destruct (call _ (ContainerStop id) w) as [w1 [[]|e]] eqn:H1'; [|done]. unfold go_bind at 1.
  destruct (call _ (ContainerRemove false id) w1) as [w2 [[]|e]] eqn:H2'; [|done]. unfold go_bind.
  apply call_ok in H1' as (Hs & Hd1 & Ha1), H2' as (Hr & Hd2 & Ha2).
  apply Stop_law in Hs as [_ Hs]. apply Remove_law in Hr as [_ Hr]. rewrite Hs in Hr.
  assert (Hctrs : dm_ctrs (wobs w2) = dm_ctrs (del_ctr id (wobs w))).
  { unfold wobs. rewrite Hr. cbn [del_ctr alter_ctr dm_ctrs]. apply delete_alter_eq. }
  destruct (removeBoxNetwork_gone p id w2 Hp) as (w3 & -> & _ & Hg & Hn & Hd3 & Ha3).
  { unfold members_in. rewrite Hctrs. exact Hmem. }
  { rewrite Hctrs. cbn. by rewrite lookup_delete_eq. }
  intros [= <-]. destruct (String.eqb _ _); split_and!; cbn; try done; congruence.
Qed.
End Instances.

(** ** A daemon that obeys the laws *)

Lemma wf_alter f id dm :
  daemon_wf dm -> (forall c, dm_ctrs dm !! id = Some c ->
    (ct_Name (f c) = ct_Name c \/ (ct_Name (f c) ∉ dm_used dm /\ forall jd c', dm_ctrs dm !! jd = Some c' -> ct_Name c' <> ct_Name (f c))) /\
    (forall n, n ∈ ct_Nets (f c) -> n ∈ ct_Nets c \/ is_Some (dm_nets dm !! n))) ->
  daemon_wf (alter_ctr f id dm).
Proof.
  intros Hwf Hf.
  assert (Hback : forall jd c', dm_ctrs (alter_ctr f id dm) !! jd = Some c' -> exists c, dm_ctrs dm !! jd = Some c /\
    (c' = c \/ (jd = id /\ c' = f c))).
  { intros jd c'. cbn. destruct (decide (jd = id)) as [->|]; [|rewrite lookup_alter_ne by done; eauto].
    rewrite lookup_alter_eq. destruct (dm_ctrs dm !! id); [|done]. intros [= <-]. eauto. }
  destruct Hwf as [W1 W2 W4 W5 W6 W7]. split; try done.
  - intros jd [c' Hc']. destruct (Hback _ _ Hc') as (c & Hc & _). apply W1. eauto.
  - intros jd kd c c' Hc Hc' Hn. destruct (Hback _ _ Hc) as (c0 & Hc0 & Hor), (Hback _ _ Hc') as (c1 & Hc1 & Hor').
    destruct (decide (jd = kd)) as [|Hne]; [done|].
    destruct Hor as [->|[-> ->]], Hor' as [->|[-> ->]]; [eauto| | |done]; exfalso.
    + destruct (Hf _ Hc1) as [[Heq|[_ Hu]] _]; [apply Hne, (W4 _ _ _ _ Hc0 Hc1); congruence|by apply (Hu _ _ Hc0)].
    + destruct (Hf _ Hc0) as [[Heq|[_ Hu]] _]; [apply Hne, (W4 _ _ _ _ Hc0 Hc1); congruence|by apply (Hu _ _ Hc1)].
  - intros jd c' Hc'. destruct (Hback _ _ Hc') as (c & Hc & [->|[-> ->]]); [eauto|]. cbn.
    destruct (Hf _ Hc) as [[->|[? _]] _]; [eauto|done].
  - intros jd c' n Hc' Hin. destruct (Hback _ _ Hc') as (c & Hc & [->|[-> ->]]); [eauto|]. cbn.
    destruct (Hf _ Hc) as [_ Hn]. destruct (Hn n Hin); eauto.
Qed.

Lemma wf_del id dm : daemon_wf dm -> daemon_wf (del_ctr id dm).
Proof.
  intros Hwf. assert (Hback : forall jd c, dm_ctrs (del_ctr id dm) !! jd = Some c -> dm_ctrs dm !! jd = Some c).
  { intros jd c. cbn. rewrite lookup_delete_Some. naive_solver. }
  destruct Hwf as [W1 W2 W4 W5 W6 W7]. split; eauto.
  intros jd [c Hc]. apply W1. eauto.
Qed.

Lemma wf_add_net n ls dm : daemon_wf dm -> daemon_wf (add_net n ls dm).
Proof.
  intros [W1 W2 W4 W5 W6 W7]. split; try done; cbn.
  - intros id c m Hc Hm. destruct (decide (n = m)) as [->|]; [rewrite lookup_insert_eq; by eexists|].
    rewrite lookup_insert_ne by done. eauto.
  - destruct (decide (n = defaultBridgeNetwork)) as [->|]; [rewrite lookup_insert_eq; by eexists|]. by rewrite lookup_insert_ne.
Qed.

Lemma wf_del_net n dm :
  daemon_wf dm -> n <> defaultBridgeNetwork /\ map_Forall (fun _ c => n ∉ ct_Nets c) (dm_ctrs dm) -> daemon_wf (del_net n dm).
Proof.
  intros [W1 W2 W4 W5 W6 W7] [Hb Hn]. split; try done; cbn.
  - intros id c m Hc Hm. rewrite lookup_delete_ne; [eauto|]. intros ->. by apply (Hn _ _ Hc).
  - by rewrite lookup_delete_ne.
Qed.

(** When an id and a name can be given to a new container. *)
Definition can_add (id name : string) (dm : Daemon) : Prop :=
  isID id = true /\ isID name = false /\ id ∉ dm_used dm /\
  map_Forall (fun _ c => ct_Name c <> name /\ ct_Name c <> id) (dm_ctrs dm).

#[export] Instance can_add_dec id name dm : Decision (can_add id name dm).
Proof. unfold can_add. apply _. Defined.

Lemma wf_add_ctr id name cfg hc dm :
  daemon_wf dm -> can_add id name dm -> daemon_wf (add_ctr id (MkCtr name cfg hc false {[defaultBridgeNetwork]}) dm).
Proof.
  intros [W1 W2 W4 W5 W6 W7] (Hid & Hname & Hf & Hn).
  assert (Hlook : forall jd c, dm_ctrs (add_ctr id (MkCtr name cfg hc false {[defaultBridgeNetwork]}) dm) !! jd = Some c ->
    (jd = id /\ c = MkCtr name cfg hc false {[defaultBridgeNetwork]}) \/ (jd <> id /\ dm_ctrs dm !! jd = Some c)).
  { intros jd c. cbn. rewrite lookup_insert_Some. naive_solver. }
  split; cbn [add_ctr dm_used dm_nets]; try done.
  - intros jd [c Hc]. destruct (Hlook _ _ Hc) as [[-> _]|[_ Hc']]; [set_solver|]. apply elem_of_union_r, W1. eauto.
  - intros jd [->%elem_of_singleton|Hj]%elem_of_union; [done|auto].
  - intros jd kd c c' Hc Hc' Heq. destruct (Hlook _ _ Hc) as [[-> ->]|[_ H1]], (Hlook _ _ Hc') as [[-> ->]|[_ H2]]; cbn in *.
    + done.
    + exfalso. by apply (proj1 (Hn _ _ H2)).
    + exfalso. by apply (proj1 (Hn _ _ H1)).
    + eauto.
  - intros jd c Hc. destruct (Hlook _ _ Hc) as [[-> ->]|[_ H1]]; cbn [ct_Name].
    + intros [->%elem_of_singleton|Hu]%elem_of_union; [congruence|]. apply W2 in Hu. congruence.
    + intros [Heq%elem_of_singleton|Hu]%elem_of_union; [by apply (proj2 (Hn _ _ H1))|]. by eapply W5.
  - intros jd c n Hc Hin. destruct (Hlook _ _ Hc) as [[-> ->]|[_ H1]]; [|eauto]. cbn in Hin.
    apply elem_of_singleton in Hin as ->. done.
Qed.

(** The containers and networks, and the images pulled. *)
Record SimDocker := MkSim { sim_dm : Daemon; sim_images : gset string; sim_wf : daemon_wf sim_dm }.

(** The [k]-th id, and the name the daemon makes up for it. *)
Definition sim_id (k : nat) : string := hex_encode (be_bytes 6 (Z.of_nat k) [] ++ repeat 0 26).

Definition sim_List (fs : list (string * string)) : go SimDocker DErr (list Summary) := fun d =>
  (d, Ok ((fun kv => MkSummary kv.1 ["/" +:+ ct_Name kv.2] (ct_Labels kv.2) (cc_Image (ct_Config kv.2))
     (if ct_Running kv.2 then "running" else "exited") "" 0)
     <$> filter (fun kv => labelled fs kv.2 = true) (map_to_list (dm_ctrs (sim_dm d))))).

Definition sim_Create (cfg : ContainerConfig) (hc : HostConfig) : go SimDocker DErr string := fun d =>
  let id := sim_id (size (dm_used (sim_dm d))) in
  if decide (cc_Image cfg ∈ sim_images d) then
    match decide (can_add id ("c" +:+ id) (sim_dm d)) with
    | left Hadd => (MkSim _ (sim_images d) (wf_add_ctr _ _ cfg hc _ (sim_wf d) Hadd), Ok id)
    | right _ => (d, Err (DFailed "no id"))
    end
  else (d, Err DNotFound).

Lemma wf_running r id dm : daemon_wf dm -> daemon_wf (alter_ctr (set_Running r) id dm).
Proof. intros Hwf. apply wf_alter; [done|]. intros c _. split; [by left|by left]. Qed.

Definition sim_run (r : bool) (id : string) : go SimDocker DErr () := fun d =>
  match dm_ctrs (sim_dm d) !! id with
  | Some _ => (MkSim _ (sim_images d) (wf_running r id _ (sim_wf d)), Ok ())
  | None => (d, Err DNotFound)
  end.

Definition sim_Remove (force : bool) (id : string) : go SimDocker DErr () := fun d =>
  match dm_ctrs (sim_dm d) !! id with
  | Some c => if ct_Running c && negb force then (d, Err (DFailed "running"))
              else (MkSim _ (sim_images d) (wf_del id _ (sim_wf d)), Ok ())
  | None => (d, Err DNotFound)
  end.

Definition can_name (n : string) (dm : Daemon) : Prop :=
  n ∉ dm_used dm /\ map_Forall (fun _ c => ct_Name c <> n) (dm_ctrs dm).

#[export] Instance can_name_dec n dm : Decision (can_name n dm).
Proof. unfold can_name. apply _. Defined.

Lemma wf_rename n id dm : daemon_wf dm -> can_name n dm -> daemon_wf (alter_ctr (set_Name n) id dm).
Proof.
  intros Hwf [Hu Hn]. apply wf_alter; [done|]. intros c _. split; [right; split; [done|]|by left].
  intros jd c' Hc'. by apply (Hn _ _ Hc').
Qed.

Definition sim_Rename (id n : string) : go SimDocker DErr () := fun d =>
  match dm_ctrs (sim_dm d) !! id, decide (can_name n (sim_dm d)) with
  | Some _, left Hn => (MkSim _ (sim_images d) (wf_rename n id _ (sim_wf d) Hn), Ok ())
  | Some _, right _ => (d, Err (DFailed "name in use"))
  | None, _ => (d, Err DNotFound)
  end.

Definition sim_Pull (ref auth : string) : go SimDocker DErr bool := fun d =>
  (MkSim (sim_dm d) ({[ref]} ∪ sim_images d) (sim_wf d), Ok true).

Definition sim_NetCreate (n : string) (ls : Labels) : go SimDocker DErr () := fun d =>
  match dm_nets (sim_dm d) !! n with
  | Some _ => (d, Err (DFailed "network exists"))
  | None => (MkSim _ (sim_images d) (wf_add_net n ls _ (sim_wf d)), Ok ())
  end.

(** The container with a name, or with that id. *)
Definition sim_resolve (x : string) (dm : Daemon) : option string :=
  match dm_ctrs dm !! x with
  | Some _ => Some x
  | None => fst <$> first_match (fun kv => String.eqb (ct_Name kv.2) x) (map_to_list (dm_ctrs dm))
  end.

Lemma wf_join n id dm : daemon_wf dm -> is_Some (dm_nets dm !! n) -> daemon_wf (alter_ctr (join n) id dm).
Proof.
  intros Hwf Hn. apply wf_alter; [done|]. intros c _. split; [by left|]. intros m. unfold join. cbn.
  intros [->%elem_of_singleton|?]%elem_of_union; auto.
Qed.

Lemma wf_leave n id dm : daemon_wf dm -> daemon_wf (alter_ctr (leave n) id dm).
Proof.
  intros Hwf. apply wf_alter; [done|]. intros c _. split; [by left|]. intros m [? _]%elem_of_leave. by left.
Qed.

Definition sim_Connect (n x : string) : go SimDocker DErr () := fun d =>
  match decide (is_Some (dm_nets (sim_dm d) !! n)), sim_resolve x (sim_dm d) with
  | left Hn, Some id => (MkSim _ (sim_images d) (wf_join n id _ (sim_wf d) Hn), Ok ())
  | _, _ => (d, Err DNotFound)
  end.

Definition sim_Disconnect (n x : string) : go SimDocker DErr () := fun d =>
  match sim_resolve x (sim_dm d) with
  | Some id => (MkSim _ (sim_images d) (wf_leave n id _ (sim_wf d)), Ok ())
  | None => (d, Err DNotFound)
  end.

Definition sim_NetRemove (n : string) : go SimDocker DErr () := fun d =>
  match decide (n <> defaultBridgeNetwork /\ map_Forall (fun _ c => n ∉ ct_Nets c) (dm_ctrs (sim_dm d))) with
  | left Hn => (MkSim _ (sim_images d) (wf_del_net n _ (sim_wf d) Hn), Ok ())
  | right _ => (d, Err (DFailed "in use"))
  end.

#[export] Instance SimDocker_API : DockerAPI SimDocker := {
  ContainerList := sim_List;
  ContainerCreate := sim_Create;
  ContainerStart := sim_run true;
  ContainerStop := sim_run false;
  ContainerRemove := sim_Remove;
  ContainerRename := sim_Rename;
  ImagePull := sim_Pull;
  NetworkCreate := sim_NetCreate;
  NetworkConnect := sim_Connect;
  NetworkDisconnect := sim_Disconnect;
  NetworkRemove := sim_NetRemove;
}.

Lemma sim_resolve_refers x dm id : sim_resolve x dm = Some id -> refers dm x id.
Proof.
  unfold sim_resolve. destruct (dm_ctrs dm !! x) as [c|] eqn:Hx; [intros [= <-]; exists c; auto|].
  destruct (first_match _ _) as [[jd c]|] eqn:Hf; [|done]. intros [= <-].
  apply first_match_elem in Hf as [Hin%elem_of_map_to_list Hn]. bools. exists c. auto.
Qed.

Lemma sim_resolve_Some x dm id : refers dm x id -> is_Some (sim_resolve x dm).
Proof.
  intros (c & Hc & Hx). unfold sim_resolve. destruct (dm_ctrs dm !! x) eqn:Hd; [by eexists|].
  destruct Hx as [->|Hx]; [congruence|]. destruct (first_match _ _) eqn:Hf; [by eexists|].
  apply first_match_None in Hf. rewrite Forall_forall in Hf. exfalso.
  specialize (Hf (id, c) (proj2 (elem_of_map_to_list _ _ _) Hc)). cbn in Hf. by rewrite Hx, String.eqb_refl in Hf.
Qed.

Lemma sim_listing fs d l : (sim_List fs d).2 = Ok l -> listing fs (sim_dm d) l.
Proof.
  unfold sim_List. intros [= <-]. split_and!.
  - rewrite <- list_fmap_compose. change (compose sm_ID _) with (fst (A := string) (B := Ctr)).
    eapply sublist_NoDup; [exact (NoDup_fst_map_to_list (dm_ctrs (sim_dm d)))|]. apply fmap_sublist, sublist_filter.
  - intros s Hs. apply list_elem_of_fmap in Hs as ([id c] & -> & Hin). apply list_elem_of_filter in Hin as [Hl Hin].
    apply elem_of_map_to_list in Hin. exists c. done.
  - intros id c Hc Hl. rewrite <- list_fmap_compose. apply list_elem_of_fmap. exists (id, c). split; [done|].
    apply list_elem_of_filter. split; [done|]. by apply elem_of_map_to_list.
Qed.

#[export] Instance SimDocker_Laws : DockerLaws SimDocker.
Proof.
  refine {| obs := sim_dm; obs_wf := sim_wf |}; cbn.
  - intros fs d d' r Hc. pose proof (sim_listing fs d) as Hl. injection Hc as <- <-. split; [done|]. by apply Hl.
  - intros cfg hc d d' r. unfold sim_Create. case_decide as Him; [|by intros [= <- <-]].
    destruct (decide (can_add _ _ _)) as [Hadd|]; intros [= <- <-]; [|done]. split; [apply Hadd|]. eexists. reflexivity.
  - intros id d d' r. unfold sim_run. destruct (dm_ctrs (sim_dm d) !! id) eqn:Hc; intros [= <- <-]; [by split|].
    exists true. destruct d as [[cs ns u] im wf]. unfold alter_ctr. cbn in *. f_equal. symmetry. by apply alter_id; congruence.
  - intros id d d' r. unfold sim_run. destruct (dm_ctrs (sim_dm d) !! id) eqn:Hc; intros [= <- <-]; by split.
  - intros force id d d' r. unfold sim_Remove. destruct (dm_ctrs (sim_dm d) !! id) as [c|] eqn:Hc; [|by intros [= <- <-]].
    destruct (_ && _); intros [= <- <-]; [by left|by split].
  - intros id n d d' r. unfold sim_Rename. destruct (dm_ctrs (sim_dm d) !! id) as [c|] eqn:Hc; [|by intros [= <- <-]].
    destruct (decide _); intros [= <- <-]; [by split|done].
  - by intros ref auth d d' r [= <- <-].
  - intros n ls d d' r. unfold sim_NetCreate. destruct (dm_nets (sim_dm d) !! n) eqn:Hn; by intros [= <- <-].
  - intros n x d d' r. unfold sim_Connect. destruct (decide _); [|by intros [= <- <-]].
    destruct (sim_resolve x (sim_dm d)) as [id|] eqn:Hr; intros [= <- <-]; [|done].
    exists id. split; [by apply sim_resolve_refers|done].
  - intros n x d d' r. unfold sim_Disconnect.
    destruct (sim_resolve x (sim_dm d)) as [id|] eqn:Hr; intros [= <- <-]; [|done].
    exists id. split; [by apply sim_resolve_refers|done].
  - intros n d d' r. unfold sim_NetRemove. destruct (decide _); by intros [= <- <-].
Defined.

#[export] Instance SimDocker_Up : DockerUp SimDocker.
Proof.
  split; cbn.
  - intros id d [c Hc]. unfold sim_Remove. rewrite Hc. by rewrite andb_false_r.
  - intros n x id c d Hr _ _. unfold sim_Disconnect. destruct (sim_resolve_Some _ _ _ Hr) as [jd ->]. done.
  - intros n d _ Hb Hm. unfold sim_NetRemove. destruct (decide _) as [|Hn]; [done|]. destruct Hn. split; [done|].
    intros id c Hc. by apply (Hm id c).
Qed.

(** ** Concrete runs *)

Module Demo.

Lemma wf_empty : daemon_wf (MkDaemon ∅ {[defaultBridgeNetwork := ∅]} ∅).
Proof.
  split; cbn [dm_ctrs dm_nets dm_used].
  - intros id [c Hc]. by rewrite lookup_empty in Hc.
  - set_solver.
  - intros id id' c c' Hc. by rewrite lookup_empty in Hc.
  - intros id c Hc. by rewrite lookup_empty in Hc.
  - intros id c n Hc. by rewrite lookup_empty in Hc.
  - rewrite lookup_singleton_eq. by eexists.
Qed.

(** A daemon with the image [img] and a database container that is nobody's box. *)
Definition blank : SimDocker := MkSim _ {["img"; "postgres"]} wf_empty.
Definition db_config : ContainerConfig := MkContainerConfig "postgres" "" [] ∅ "" "" [].
Definition db_id : string := sim_id 0.
Definition d0 : SimDocker :=
  (sim_run true db_id (sim_Rename db_id "db" (sim_Create db_config (MkHostConfig "" [] [] 0 0 None []) blank).1).1).1.

(** Two spokes with namespaces of their own, which give their boxes the database. *)
Definition p (ns : string) : Provisioner :=
  SetNamespace ns (SetPerBoxLimits (MkLimits 1024 0 100 0 0 0) (NewProvisioner "img" "/socks" ["db"] true)).
Definition ps (k : nat) : Provisioner := if decide (k = 0)%nat then p "a" else p "b".

Definition no_domain (_ : string) : option string := None.
Definition no_auth (_ : string) : option string := None.

(** The guest's socket is there at once, or never. *)
Definition ready : WaitEnv := MkWaitEnv (fun _ => true) (fun _ => 0) (fun _ => false) 0.
Definition never : WaitEnv := MkWaitEnv (fun _ => false) (fun k => Z.of_nat k * pollPeriod) (fun _ => false) 0.
Definition env (n : Z) (wt : WaitEnv) : ProvEnv := MkProvEnv (Some [0; 0; n]) (Some [1; 1; n]) true true wt 7 None.
Definition opts (id : string) : CreateOptions := MkCreateOptions id "" "" [] 0.

Definition w0 : World SimDocker := MkWorld d0 ∅ ∅.
Definition web : World SimDocker * res DockerError dockerInstance := Provision no_domain no_auth (p "a") (opts "web") (env 1 ready) w0.
Definition lost : World SimDocker * res DockerError dockerInstance := Provision no_domain no_auth (p "a") (opts "web") (env 1 never) w0.

Definition s0 : System (D := SimDocker) := MkSystem d0 (fun _ => MkSide ∅ ∅ []).

Definition after (k : nat) (o : op) (s : System (D := SimDocker)) : System :=
  let r := run no_domain no_auth (ps k) o (MkWorld (sy_d s) (sd_dirs (sy_side s k)) (sd_api (sy_side s k))) in
  MkSystem (dw_d r.1) (upd_side k (MkSide (dw_dirs r.1) (dw_api r.1) (sd_handles (sy_side s k) ++ r.2)) (sy_side s)).

Lemma step_after k o s :
  (forall i, op_on o = Some i -> i ∈ sd_handles (sy_side s k)) -> spoke_step no_domain no_auth ps k s (after k o s).
Proof. intros Hon. unfold after. apply (spoke_runs _ _ _ _ o); [done|]. apply surjective_pairing. Qed.

Definition s1 : System := after 0 (OpProvision (opts "web") (env 1 ready)) s0.
Definition s2 : System := after 1 (OpProvision (opts "web") (env 2 ready)) s1.

Lemma spokes_reach1 : rtc (any_step no_domain no_auth ps) s0 s1.
Proof. eapply rtc_l; [|apply rtc_refl]. exists 0%nat. by apply step_after. Qed.
Lemma spokes_reach2 : rtc (any_step no_domain no_auth ps) s0 s2.
Proof. eapply rtc_r; [apply spokes_reach1|]. exists 1%nat. by apply step_after. Qed.

Lemma peers k : peers_foreign (ps k).
Proof. unfold ps. case_decide; repeat constructor. Qed.

Definition web_id : string := sim_id 1.
Definition web2_id : string := sim_id 2.
End Demo.

(** What the two runs of [Provision] leave, seen through the daemon. *)
Example docker_provision_runs :
  (is_ok Demo.web.2, is_ok Demo.lost.2,
   (fun c => (ct_Name c, ct_Running c, elements (ct_Nets c), hc_Memory (ct_Host c))) <$> dm_ctrs (wobs Demo.web.1) !! Demo.web_id,
   elements (dom (dm_nets (wobs Demo.lost.1)))) =
  (true, false, Some ("llmbox-pending-010101", true, ["llmboxnet-000000000001"], 1024), ["bridge"]).
Proof. vm_compute. reflexivity. Qed.

Lemma spokes_keep_apart_witness :
  exists c c', dm_ctrs (obs (sy_d Demo.s1)) !! Demo.web_id = Some c /\ in_scope (Demo.ps 0) c = true /\
    dm_ctrs (obs (sy_d Demo.s2)) !! Demo.web_id = Some c' /\ c' = c.
Proof.
  destruct (dm_ctrs (obs (sy_d Demo.s1)) !! Demo.web_id) as [c|] eqn:Hc; [|vm_compute in Hc; discriminate].
  assert (Hs : in_scope (Demo.ps 0) c = true) by (vm_compute in Hc; injection Hc as <-; vm_compute; reflexivity).
  assert (Hname : ct_Name c = "llmbox-pending-010101") by (vm_compute in Hc; injection Hc as <-; vm_compute; reflexivity).
  destruct (spokes_keep_apart Demo.no_domain Demo.no_auth Demo.ps Demo.s0 Demo.s1 Demo.s2 1
    (fun j => peers_foreign_ok _ (Demo.peers j)) (fun j => eq_refl) Demo.spokes_reach1
    ltac:(apply Demo.step_after; discriminate)) as [Hkeep _].
  destruct (Hkeep Demo.web_id c Hc) as (c' & Hc' & Hor).
  - left. exists 0%nat. split; [exact Hs|]. split; [discriminate|]. split; discriminate.
  - exists c, c'. split; [reflexivity|]. split; [exact Hs|]. split; [exact Hc'|].
    destruct Hor as [Heq|[Hp _]]; [exact Heq|]. rewrite Hname in Hp. exfalso. revert Hp. vm_compute.
    intros Hp. inversion Hp as [|? ? ? Hp']; subst. inversion Hp'.
Defined.


Lemma boxes_share_no_network_witness :
  exists c c', dm_ctrs (obs (sy_d Demo.s2)) !! Demo.web_id = Some c /\ dm_ctrs (obs (sy_d Demo.s2)) !! Demo.web2_id = Some c' /\
    ct_Nets c ∩ ct_Nets c' = ∅.
Proof.
  destruct (dm_ctrs (obs (sy_d Demo.s2)) !! Demo.web_id) as [c|] eqn:Hc; [|vm_compute in Hc; discriminate].
  destruct (dm_ctrs (obs (sy_d Demo.s2)) !! Demo.web2_id) as [c'|] eqn:Hc'; [|vm_compute in Hc'; discriminate].
  assert (Hm : managed c) by (vm_compute in Hc; injection Hc as <-; vm_compute; reflexivity).
  assert (Hm' : managed c') by (vm_compute in Hc'; injection Hc' as <-; vm_compute; reflexivity).
  exists c, c'. split; [reflexivity|]. split; [reflexivity|].
  assert (H0 : forall id c, dm_ctrs (obs (sy_d Demo.s0)) !! id = Some c -> ~ managed c).
  { intros id c0 Hid Hman. assert (Hall : map_Forall (fun _ c => ct_Labels c !! ManagedLabel = None) (dm_ctrs (obs (sy_d Demo.s0)))).
    { apply (bool_decide_unpack _). vm_compute. exact I. }
    specialize (Hall id c0 Hid). cbn in Hall. unfold managed in Hman. congruence. }
  destruct (boxes_share_no_network Demo.no_domain Demo.no_auth Demo.ps Demo.s0 Demo.s2 Demo.peers (fun j => eq_refl) H0
    Demo.spokes_reach2 Demo.web_id c Hc Hm) as (_ & _ & Hd).
  apply (Hd Demo.web2_id c' Hc' Hm'). discriminate.
Defined.

(** ** Smaller facts *)

(** Waiting for the socket ends by itself: with a clock that advances a polling
    period per round, the rounds allowed decide the outcome. *)
Lemma waitForSocket_decides env :
  we_start env <= we_clock env 0 -> (forall k, we_clock env k + pollPeriod <= we_clock env (S k)) ->
  wait_for wait_rounds (we_stat env) (we_clock env) (we_done env) (we_start env) socketWait = Some (waitForSocket env) /\
  (waitForSocket env = Ok () <-> exists k, we_stat env k = true /\
     forall j, (j < k)%nat -> we_clock env j <= we_start env + socketWait /\ we_done env j = false).
Proof.
  intros H0 Hs. destruct (wait_for_terminates (we_stat env) (we_clock env) (we_done env) (we_start env) socketWait pollPeriod)
    as (r & Hr & Hok); [done|done|done|done|].
  assert (Hw : wait_for wait_rounds (we_stat env) (we_clock env) (we_done env) (we_start env) socketWait = Some r) by by apply Hr.
  unfold waitForSocket. by rewrite Hw.
Qed.

(** A GPU specification that is accepted asks for nothing, for all GPUs, for a
    positive number of them, or for some by name. *)
Lemma parseGPUs_sound spec reqs :
  parseGPUs spec = Ok reqs ->
  (reqs = [] /\ TrimSpace spec = "") \/
  exists r, reqs = [r] /\ dq_Capabilities r = [["gpu"]] /\
    ((dq_DeviceIDs r = [] /\ (dq_Count r = -1 \/ 0 < dq_Count r)) \/ (dq_Count r = 0 /\ dq_DeviceIDs r <> [])).
Proof.
  unfold parseGPUs. set (t := TrimSpace spec). clearbody t.
  destruct (String.eqb_spec t ""); [intros [= <-]; auto|].
  destruct (String.eqb_spec t "all").
  { intros [= <-]. right. eexists. split; [done|]. split; [done|]. left. auto. }
  assert (Hids : forall ids, (if (0 =? 0) && (length ids =? 0)%nat then Err t else Ok [MkDeviceRequest 0 ids [["gpu"]]]) = Ok reqs ->
    exists r, reqs = [r] /\ dq_Capabilities r = [["gpu"]] /\
    ((dq_DeviceIDs r = [] /\ (dq_Count r = -1 \/ 0 < dq_Count r)) \/ (dq_Count r = 0 /\ dq_DeviceIDs r <> []))).
  { intros [|x ids] He; [done|]. injection He as <-. eexists. split; [done|]. split; [done|]. right. done. }
  destruct (CutPrefix t "device="); [intros He; right; by eapply Hids|].
  destruct (negb (ContainsByte t ",")); [|intros He; right; by eapply Hids].
  destruct (Atoi t) as [cnt|]; [|intros He; right; by eapply Hids].
  destruct (Z.leb_spec cnt 0); [done|]. cbn [dq_Count dq_DeviceIDs]. destruct (Z.eqb_spec cnt 0); [lia|].
  intros [= <-]. right. eexists. split; [done|]. split; [done|]. left. cbn. split; [done|right; lia].
Qed.

Section Servers.
Context {D : Type} `{DockerLaws D}.
Implicit Types (p : Provisioner) (w : World D).

(** After a restart the port API of every listed box with a socket directory is
    served again, for the box's own id. *)
Lemma RecoverBoxAPIs_spec p w cs i :
  pv_ports p = true -> List_ p w = (w, Ok cs) -> NoDup ((fun i => box_InstanceID (di_box i)) <$> cs) ->
  i ∈ cs -> di_socketToken i <> "" ->
  dw_api (RecoverBoxAPIs p (fun _ => true) w).1 !! box_InstanceID (di_box i) =
    Some (MkApiServer (box_BoxID (di_box i)) (path_Join [pv_socketDir p; di_socketToken i; apiSocketName])).
Proof.
  intros Hports Hl Hnd Hi Ht. unfold RecoverBoxAPIs. rewrite Hports. cbn [negb]. unfold go_bind. rewrite Hl. clear Hl.
  set (body := fun di => _).
  assert (Hkeep : forall l v g, g ∉ ((fun i => box_InstanceID (di_box i)) <$> l) -> dw_api (for_each l body v).1 !! g = dw_api v !! g).
  { intros l. induction l as [|j l IH]; intros v g Hg; [done|]. cbn [for_each]. unfold go_bind, body at 1.
    rewrite fmap_cons in Hg. apply not_elem_of_cons in Hg as [Hne Hg].
    destruct (String.eqb_spec (di_socketToken j) ""); [by apply IH|]. unfold go_ignore, startBoxAPI. rewrite Hports. cbn [negb fst].
    rewrite IH by done. cbn. by rewrite lookup_insert_ne. }
  revert w. induction cs as [|j l IH]; intros w; [by apply not_elem_of_nil in Hi|].
  rewrite fmap_cons in Hnd. apply NoDup_cons in Hnd as [Hj Hnd]. cbn [for_each]. unfold go_bind, body at 1.
  apply elem_of_cons in Hi as [<-|Hi].
  - destruct (String.eqb_spec (di_socketToken i) ""); [done|]. unfold go_ignore, startBoxAPI. rewrite Hports. cbn [negb fst].
    rewrite Hkeep by done. cbn. by rewrite lookup_insert_eq.
  - destruct (String.eqb_spec (di_socketToken j) ""); [by apply IH|]. unfold go_ignore. by apply IH.
Qed.

(** A box whose container is gone is only reported: its directory, server and
    network stay. *)
Lemma Destroy_gone p rest i w w' id :
  Destroy p rest i w = (w', Err (ErrNotFound id)) ->
  id = box_BoxID (di_box i) /\ dm_ctrs (wobs w') !! di_containerID i = None /\
  dm_nets (wobs w') = dm_nets (wobs w) /\ dw_dirs w' = dw_dirs w /\ dw_api w' = dw_api w.
Proof.
  unfold Destroy. unfold go_bind at 1. destruct (call _ _ w) as [w1 r1] eqn:H1.
  apply call_spec in H1 as (Hd1 & Ha1 & r0 & Hm1 & Hr1). apply Stop_law in Hm1.
  destruct r0 as [[]|[]]; subst r1; [|by intros [= <- <-]; destruct Hm1 as [? Hm1]; unfold wobs; rewrite Hm1|done].
  destruct Hm1 as [_ Hm1]. unfold go_bind at 1. destruct (call _ _ w1) as [w2 r2] eqn:H2.
  apply call_spec in H2 as (Hd2 & Ha2 & r0 & Hm2 & Hr2). apply Remove_law in Hm2.
  destruct r0 as [[]|[]]; subst r2; [| |done].
  - unfold go_bind, removeBoxNetwork, go_bind.
    destruct (for_each_ignore (E' := DockerError) (fun _ => True)
      (fun peer => call ErrNetDetach (NetworkDisconnect (boxNetworkName (di_containerID i)) peer)) (pv_peers p)) with (s := w2)
      as (w3 & H3 & _); [done|done|]. by rewrite H3.
  - intros [= <- <-]. destruct Hm2 as [Hnone Hm2]. unfold wobs. rewrite Hm2, Hd2, Ha2. split_and!; try done. by rewrite Hm1.
Qed.
End Servers.
