(* ===== verification/Spoke.v ===== *)
(** * The spoke process (internal/spoke/spoke.go) and its link (shared/cluster/spoke.go)

    What a spoke makes of its flags, how it starts, and how it stays connected:
    the enrollment handshake from the spoke's side, the credential file, and the
    reconnect loop with its back-off.  The hub on the other end is the model of
    [Enroll]; files, the network and the clock are arguments of each attempt. *)

From S2P Require Import Prelude GoStrings Sandbox Sha256 GuestProto Enroll Manager Mvmnet Microvm.

Local Open Scope Z_scope.
Local Open Scope go_scope.

(** ** Standard library *)

(** [path.Clean] of a rooted path: the kept components, innermost first. *)
Fixpoint clean_comps (comps acc : list string) : list string :=
  match comps with
  | [] => rev acc
  | c :: comps' =>
      if String.eqb c "" || String.eqb c "." then clean_comps comps' acc
      else if String.eqb c ".." then clean_comps comps' (tail acc)
      else clean_comps comps' (c :: acc)
  end.

Definition rooted (comps : list string) : string := "/" +:+ Join comps "/".
Definition Clean (s : string) : string := rooted (clean_comps (Split s "/") []).
Definition IsAbs (s : string) : bool := HasPrefix s "/".

(** The parts before and after the first colon. *)
Definition cut_colon (spec : string) : string * string :=
  match IndexByte spec ":" with
  | Some i => (String.substring 0 i spec, String.substring (S i) (String.length spec - S i) spec)
  | None => (spec, "")
  end.

(** ** Flags *)

Inductive flagError :=
| ErrEmptySource (spec : string) | ErrNoCwd (spec : string) | ErrRelativeDest (spec : string) | ErrNoSource (spec : string)
| ErrWalk (spec : string) | ErrUnsupported (spec : string)
| ErrPort (spec : string) | ErrDuplicatePort (port : Z)
| ErrScriptRead | ErrScriptEmpty | ErrNoPasswordFile | ErrPasswordRead | ErrCARead | ErrCAEmpty.

(** [cwd]: the working directory, an absolute path, if it can be found. *)
Definition parseCopySpec (cwd : option string) (spec : string) : res flagError (string * string) :=
  let '(src, dest) := cut_colon spec in
  if String.eqb src "" then Err (ErrEmptySource spec)
  else
    let dest :=
      if negb (String.eqb dest "") then Ok dest
      else if IsAbs src then Ok (Clean src)
      else match cwd with Some d => Ok (Clean (d +:+ "/" +:+ src)) | None => Err (ErrNoCwd spec) end in
    let! dest := dest in
    if negb (IsAbs dest) then Err (ErrRelativeDest spec) else Ok (src, Clean dest).

(** What a host path holds; directory entries are in the order of [WalkDir],
    [Unreadable] fails the walk. *)
Inductive Node := Regular (mode : Z) | Special | Unreadable | Directory (entries : list (string * Node)).

(** The regular files of a tree, each as its path below the root and its mode. *)
Fixpoint walk (rel : list string) (n : Node) : option (list (list string * Z)) :=
  match n with
  | Regular mode => Some [(rel, mode)]
  | Special => Some []
  | Unreadable => None
  | Directory entries =>
      (fix walk_entries (es : list (string * Node)) : option (list (list string * Z)) :=
         match es with
         | [] => Some []
         | (name, n') :: es' =>
             match walk (rel ++ [name]) n', walk_entries es' with
             | Some l, Some l' => Some (l ++ l')
             | _, _ => None
             end
         end) entries
  end.

Definition perm (mode : Z) : Z := Z.land mode 511.

(** One [--copy] flag.  [host] is what [os.Stat] finds, and whether the path
    itself is a symbolic link, which [WalkDir] does not follow; a source path is
    taken to be clean. *)
Definition copySpec (cwd : option string) (host : string -> option (bool * Node)) (spec : string) : res flagError (list CopyFile) :=
  let! sd := parseCopySpec cwd spec in
  let '(src, dest) := sd in
  match host src with
  | None => Err (ErrNoSource spec)
  | Some (_, Regular mode) => Ok [MkCopyFile src dest (perm mode)]
  | Some (link, Directory es) =>
      match walk [] (if link then Special else Directory es) with
      | None => Err (ErrWalk spec)
      | Some files =>
          Ok ((fun f => MkCopyFile (Join (src :: f.1) "/") (Clean (dest +:+ "/" +:+ Join f.1 "/")) (perm f.2)) <$> files)
      end
  | Some _ => Err (ErrUnsupported spec)
  end.

Fixpoint copyFiles (cwd : option string) (host : string -> option (bool * Node)) (specs : list string) : res flagError (list CopyFile) :=
  match specs with
  | [] => Ok []
  | spec :: specs' =>
      let! l := copySpec cwd host spec in
      let! l' := copyFiles cwd host specs' in
      Ok (l ++ l')
  end.

Fixpoint publish_loop (specs : list string) (seen : list Z) : res flagError (list PublishPort) :=
  match specs with
  | [] => Ok []
  | spec :: specs' =>
      let '(portStr, desc) := cut_colon spec in
      match Atoi (TrimSpace portStr) with
      | None => Err (ErrPort spec)
      | Some port =>
          if (port <? 1) || (65535 <? port) then Err (ErrPort spec)
          else if decide (port ∈ seen) then Err (ErrDuplicatePort port)
          else let! l := publish_loop specs' (port :: seen) in Ok (MkPublishPort port (TrimSpace desc) :: l)
      end
  end.

Definition parsePublishPorts (specs : list string) : res flagError (list PublishPort) := publish_loop specs [].

(** [initScript]: [read] is the content of a file, if it can be read. *)
Definition initScript (read : string -> option string) (path : string) : res flagError string :=
  if String.eqb path "" then Ok ""
  else match read path with
  | None => Err ErrScriptRead
  | Some data => if String.eqb (TrimSpace data) "" then Err ErrScriptEmpty else Ok data
  end.

(** [registries]: host, user and password of the one registry, if any. *)
Definition registries (read : string -> option string) (host username passwordFile : string) :
    res flagError (list (string * string * string)) :=
  if String.eqb host "" then Ok []
  else if String.eqb passwordFile "" then Err ErrNoPasswordFile
  else match read passwordFile with
  | None => Err ErrPasswordRead
  | Some data => Ok [(host, username, TrimSpace data)]
  end.

(** [hubTLS]: the CA text trusted, if any, and whether verification is skipped;
    [None] is the system's trust store.  [certs] tells whether a text holds
    certificates. *)
Definition hubTLS (read : string -> option string) (certs : string -> bool) (caFile : string) (insecure : bool) :
    res flagError (option (option string * bool)) :=
  if String.eqb caFile "" && negb insecure then Ok None
  else if String.eqb caFile "" then Ok (Some (None, insecure))
  else match read caFile with
  | None => Err ErrCARead
  | Some pem => if certs pem then Ok (Some (Some pem, insecure)) else Err ErrCAEmpty
  end.

(** ** The link to the hub *)

Record Credentials := MkCredentials { cr_Name : string; cr_Credential : string }.

#[export] Instance Credentials_eq_dec : EqDecision Credentials.
Proof. solve_decision. Defined.

(** The hub's frame in answer to an enrollment. *)
Inductive hubReply := Welcome (name credential : string) | ErrFrame | OtherFrame.

(** [Hub.enroll] and the refusal of [ConnectHandler]. *)
Definition hub_enroll (rnd : option (list Z)) (req : enrollReq) (now : Z) (db : ClusterDB) : ClusterDB * hubReply :=
  match authenticateEnroll rnd req now db with
  | (db', Ok (name, credential)) => (db', Welcome name credential)
  | (db', Err _) => (db', ErrFrame)
  end.

(** One attempt to connect: what happens at the hub before it, whether the dial,
    the request and the reply get through, the hub's random bytes and clock, what
    a failing write leaves of the credential file, and whether the process is told
    to stop during the attempt or the wait after it. *)
Record Attempt := MkAttempt {
  a_hub : ClusterDB -> ClusterDB;
  a_dial : bool;
  a_sent : bool;
  a_back : bool;
  a_rnd : option (list Z);
  a_now : Z;
  a_write : option string;
  a_stop : bool;
  a_stop_waiting : bool;
}.

Inductive linkError := ErrDialing | ErrSendingEnroll | ErrAwaiting | ErrEnrollRejected | ErrUnexpected | ErrSavingCreds | ErrServe.

#[export] Instance linkError_eq_dec : EqDecision linkError.
Proof. solve_decision. Defined.

(** The state a spoke and its hub keep: the hub's tables, the credential file and
    the credentials in memory. *)
Record Link := MkLink { lk_db : ClusterDB; lk_file : option string; lk_creds : option Credentials }.

(** The request of [enrollSpoke]. *)
Definition enroll_request (token : string) (creds : option Credentials) : enrollReq :=
  match creds with
  | Some c => MkEnrollReq "" (cr_Name c) (cr_Credential c)
  | None => MkEnrollReq token "" ""
  end.

Definition enrollSpoke (a : Attempt) (token : string) (creds : option Credentials) : go ClusterDB linkError Credentials := fun db =>
  if negb (a_sent a) then (db, Err ErrSendingEnroll)
  else
    let '(db', r) := hub_enroll (a_rnd a) (enroll_request token creds) (a_now a) db in
    if negb (a_back a) then (db', Err ErrAwaiting)
    else match r with
    | ErrFrame => (db', Err ErrEnrollRejected)
    | OtherFrame => (db', Err ErrUnexpected)
    | Welcome name credential =>
        (db', Ok (MkCredentials name (match creds with Some c => cr_Credential c | None => credential end)))
    end.

Section Process.
Context `{Json Credentials}.

(** [saveSpokeCreds] and [loadSpokeCreds]; a file that cannot be read is an
    argument of the start-up. *)
Definition saveSpokeCreds (a : Attempt) (c : Credentials) (file : option string) : option string * bool :=
  match marshal c with
  | None => (file, false)
  | Some data => match a_write a with None => (Some data, true) | Some left_ => (Some left_, false) end
  end.

Inductive credsError := ErrCredsRead | ErrCredsParse.

Definition loadSpokeCreds (readable : bool) (file : option string) : res credsError (option Credentials) :=
  match file with
  | None => Ok None
  | Some data =>
      if negb readable then Err ErrCredsRead
      else match unmarshal data with Some c => Ok (Some c) | None => Err ErrCredsParse end
  end.

(** [RunWithCaller] with the [save] callback of [runSpoke]; serving ends with
    [ErrServe] when the connection does. *)
Definition RunWithCaller (a : Attempt) (token : string) (lk : Link) : Link * linkError :=
  if negb (a_dial a) then (lk, ErrDialing)
  else match enrollSpoke a token (lk_creds lk) (lk_db lk) with
  | (db, Err e) => (MkLink db (lk_file lk) (lk_creds lk), e)
  | (db, Ok got) =>
      match lk_creds lk with
      | Some _ => (MkLink db (lk_file lk) (lk_creds lk), ErrServe)
      | None =>
          match saveSpokeCreds a got (lk_file lk) with
          | (file, true) => (MkLink db file (Some got), ErrServe)
          | (file, false) => (MkLink db file None, ErrSavingCreds)
          end
      end
  end.

(** ** The reconnect loop *)

Definition spokeReconnectMax : Z := 30 * Second.

(** What is seen of a round: the credentials it presented, how it ended and how
    long the loop waited after it. *)
Record Round := MkRound { r_creds : option Credentials; r_end : linkError; r_wait : Z }.

Inductive loopEnd := Running | Stopped | GaveUp.

Fixpoint reconnect_loop (token : string) (backoff : Z) (atts : list Attempt) (lk : Link) : Link * list Round * loopEnd :=
  match atts with
  | [] => (lk, [], Running)
  | a :: atts' =>
      let lk0 := MkLink (a_hub a (lk_db lk)) (lk_file lk) (lk_creds lk) in
      let '(lk1, e) := RunWithCaller a token lk0 in
      if a_stop a then (lk1, [MkRound (lk_creds lk) e 0], Stopped)
      else if bool_decide (lk_creds lk1 = None) && bool_decide (e = ErrEnrollRejected) then (lk1, [MkRound (lk_creds lk) e 0], GaveUp)
      else if a_stop_waiting a then (lk1, [MkRound (lk_creds lk) e backoff], Stopped)
      else
        let '(lk2, rs, fin) := reconnect_loop token (if backoff <? spokeReconnectMax then backoff * 2 else backoff) atts' lk1 in
        (lk2, MkRound (lk_creds lk) e backoff :: rs, fin)
  end.

(** ** Start-up *)

Record spokeOptions := MkSpokeOptions {
  o_token : string; o_backend : string; o_boxGPUs : string; o_initScriptPath : string; o_copyPaths : list string;
  o_publishPorts : list string; o_registry : string * string * string; o_tlsCAFile : string; o_tlsInsecure : bool;
  o_image : string; o_socketDir : string; o_namespace : string; o_limits : Limits; o_boxPeers : list string;
  o_chKernelImage : string; o_chRootfsImage : string; o_chStateDir : string; o_chGPUPassthrough : list string;
  o_chVGPUMdevs : list string; o_chBinary : string; o_chEgressMode : string; o_chDisableEgress : bool; o_chPoolSize : Z;
  o_chTapGroup : Z; o_fcKernelImage : string; o_fcRootfsImage : string; o_fcPayloadImage : string; o_fcStateDir : string;
  o_fcDisableEgress : bool; o_fcEgressMode : string; o_fcPoolSize : Z; o_fcJailerBin : string; o_fcFirecrackerBin : string;
  o_fcChrootBase : string; o_fcUIDMin : Z; o_fcUIDMax : Z; o_fcTapGroup : Z; o_fcCgroupVersion : string;
}.

(** The backend's options: the micro-VM fields come from the flags of the backend
    the spoke runs. *)
Definition backendOptions (o : spokeOptions) : Options :=
  let ch := String.eqb (o_backend o) "cloud-hypervisor" in
  let pick {A} (c f : A) : A := if ch then c else f in
  MkOptions (o_image o) (o_socketDir o) (o_boxPeers o) (o_limits o) (o_namespace o) (o_boxGPUs o)
    (o_chGPUPassthrough o) (o_chVGPUMdevs o) (pick (o_chKernelImage o) (o_fcKernelImage o))
    (pick (o_chRootfsImage o) (o_fcRootfsImage o)) (o_chBinary o) (o_fcPayloadImage o) (pick (o_chStateDir o) (o_fcStateDir o))
    (pick (o_chDisableEgress o) (o_fcDisableEgress o)) (pick (o_chEgressMode o) (o_fcEgressMode o))
    (pick (o_chPoolSize o) (o_fcPoolSize o)) (o_fcJailerBin o) (o_fcFirecrackerBin o) (o_fcChrootBase o)
    (o_fcUIDMin o) (o_fcUIDMax o) (pick (o_chTapGroup o) (o_fcTapGroup o)) (o_fcCgroupVersion o).

Inductive startError :=
| ErrFlag (e : flagError) | ErrBackend_ | ErrIsolation | ErrCreds (e : credsError) | ErrNoToken | ErrStateNotWritable.

(** The host at start-up: files, the backend and the isolation that could be
    built, and the state path. *)
Record StartEnv := MkStartEnv {
  se_read : string -> option string; se_cwd : option string; se_host : string -> option (bool * Node);
  se_certs : string -> bool; se_backend : string -> Options -> bool; se_isolation : bool;
  se_readable : bool; se_writable : bool;
}.

Definition lift_flag {A} (r : res flagError A) : res startError A := match r with Ok a => Ok a | Err e => Err (ErrFlag e) end.

(** [runSpoke] up to the loop: the manager's inputs and the saved credentials. *)
Definition startSpoke (o : spokeOptions) (env : StartEnv) (file : option string) :
    res startError (string * list CopyFile * list PublishPort * option Credentials) :=
  let '(host, user, pwfile) := o_registry o in
  let! _ := lift_flag (registries (se_read env) host user pwfile) in
  let! script := lift_flag (initScript (se_read env) (o_initScriptPath o)) in
  let! copies := lift_flag (copyFiles (se_cwd env) (se_host env) (o_copyPaths o)) in
  let! ports := lift_flag (parsePublishPorts (o_publishPorts o)) in
  if negb (se_backend env (o_backend o) (backendOptions o)) then Err ErrBackend_
  else if negb (se_isolation env) then Err ErrIsolation
  else match loadSpokeCreds (se_readable env) file with
  | Err e => Err (ErrCreds e)
  | Ok creds =>
      if bool_decide (creds = None) && String.eqb (o_token o) "" then Err ErrNoToken
      else if bool_decide (creds = None) && negb (se_writable env) then Err ErrStateNotWritable
      else
        let! _ := lift_flag (hubTLS (se_read env) (se_certs env) (o_tlsCAFile o) (o_tlsInsecure o)) in
        Ok (script, copies, ports, creds)
  end.

(** [runSpoke]. *)
Definition runSpoke (o : spokeOptions) (env : StartEnv) (atts : list Attempt) (db : ClusterDB) (file : option string) :
    res startError (Link * list Round * loopEnd) :=
  let! started := startSpoke o env file in
  let '(_, creds) := started in
  Ok (reconnect_loop (o_token o) Second atts (MkLink db file creds)).
End Process.

(** ** The reconnect loop: theorems *)

Section Loop.
Context `{JsonLaws Credentials}.
Implicit Types (a : Attempt) (atts : list Attempt) (lk : Link).

(** The wait after the [n]th round in a row. *)
Definition wait_after (n : nat) : Z := 2 ^ Z.min (Z.of_nat n) 5 * Second.

Lemma wait_after_next n :
  (if wait_after n <? spokeReconnectMax then wait_after n * 2 else wait_after n) = wait_after (S n).
Proof.
  unfold wait_after, spokeReconnectMax. destruct (Z.ltb_spec (2 ^ Z.min (Z.of_nat n) 5 * Second) (30 * Second)) as [Hlt|Hge].
  - assert (Hn : Z.of_nat n < 5).
    { destruct (Z.lt_ge_cases (Z.of_nat n) 5); [done|]. rewrite Z.min_r in Hlt by done. vm_compute in Hlt. done. }
    rewrite !Z.min_l by lia. rewrite Nat2Z.inj_succ, Z.pow_succ_r by lia. ring.
  - assert (Hn : 5 <= Z.of_nat n).
    { destruct (Z.lt_ge_cases (Z.of_nat n) 5) as [Hn|]; [|done]. exfalso. revert Hge. apply Z.lt_nge. rewrite Z.min_l by lia.
      apply Z.mul_lt_mono_pos_r; [done|]. apply Z.le_lt_trans with (2 ^ 4); [apply Z.pow_le_mono_r; lia|done]. }
    by rewrite !Z.min_r by lia.
Qed.

Lemma loop_waits token atts k lk lk' rs fin :
  reconnect_loop token (wait_after k) atts lk = (lk', rs, fin) ->
  forall n r, rs !! n = Some r -> r_wait r = wait_after (k + n) \/ r_wait r = 0.
Proof.
  revert k lk rs. induction atts as [|a atts IH]; intros k lk rs; cbn [reconnect_loop]; [by intros [= <- <- <-]|].
  destruct (RunWithCaller _ _ _) as [lk1 e]. destruct (a_stop a); [intros [= <- <- <-] [|n] r [= <-]; by right|].
  destruct (bool_decide _ && bool_decide _); [intros [= <- <- <-] [|n] r [= <-]; by right|].
  destruct (a_stop_waiting a); [intros [= <- <- <-] [|n] r [= <-]; left; by rewrite Nat.add_0_r|].
  rewrite wait_after_next. destruct (reconnect_loop _ _ atts lk1) as [[lk2 rs'] fin'] eqn:Hl. intros [= <- <- <-] [|n] r Hr.
  - injection Hr as <-. left. by rewrite Nat.add_0_r.
  - rewrite <- Nat.add_succ_comm. by apply (IH (S k) lk1 rs').
Qed.

(** The spoke waits one second, then twice as long after each round, never more
    than 32 seconds. *)
Theorem reconnect_backoff token atts lk lk' rs fin n r :
  reconnect_loop token Second atts lk = (lk', rs, fin) -> rs !! n = Some r ->
  0 <= r_wait r <= 32 * Second /\ (r_wait r = 0 \/ r_wait r = 2 ^ Z.min (Z.of_nat n) 5 * Second).
Proof.
  intros Hl Hr. change Second with (wait_after 0) in Hl.
  destruct (loop_waits _ _ _ _ _ _ _ Hl n r Hr) as [-> | ->]; [|by split; [done|left]].
  split; [|by right]. unfold wait_after. cbn [Nat.add]. split.
  - apply Z.mul_nonneg_nonneg; [apply Z.pow_nonneg|]; done.
  - apply Z.mul_le_mono_nonneg_r; [done|]. change 32 with (2 ^ 5). apply Z.pow_le_mono_r; lia.
Qed.

(** An attempt that gets through to the hub and back, and one the hub never
    sees. *)
Definition through a : Prop := a_dial a = true /\ a_sent a = true /\ a_back a = true.
Definition unseen a : Prop := a_dial a = false \/ a_sent a = false.

(** What others do at the hub leaves this token and this spoke alone, and nobody
    stops the process. *)
Definition undisturbed (h name : string) a : Prop :=
  (forall db, cdb_tokens (a_hub a db) !! h = cdb_tokens db !! h /\ cdb_spokes (a_hub a db) !! name = cdb_spokes db !! name) /\
  a_stop a = false /\ a_stop_waiting a = false.

Lemma authenticate_saved rnd name cred now (db : ClusterDB) t :
  name <> "" -> cred <> "" -> cdb_spokes db !! name = Some (hashSecret cred, t) ->
  authenticateEnroll rnd (MkEnrollReq "" name cred) now db = (db, Ok (name, "")).
Proof.
  intros Hn Hc Hs. unfold authenticateEnroll, reconnect. cbn. apply String.eqb_neq in Hn, Hc. rewrite Hn, Hc. cbn.
  rewrite Hs. cbn. unfold sameHash. by rewrite String.eqb_refl.
Qed.

(** An enrolled spoke: every attempt that gets through is served, and the loop
    goes on. *)
Lemma loop_enrolled token h name cred atts backoff file : forall (db : ClusterDB) t,
  name <> "" -> cred <> "" -> cdb_spokes db !! name = Some (hashSecret cred, t) -> Forall (undisturbed h name) atts ->
  let c := MkCredentials name cred in
  exists db' rs, reconnect_loop token backoff atts (MkLink db file (Some c)) = (MkLink db' file (Some c), rs, Running) /\
    length rs = length atts /\ Forall (fun r => r_creds r = Some c) rs /\
    forall i a r, atts !! i = Some a -> rs !! i = Some r -> through a -> r_end r = ErrServe.
Proof.
  revert backoff. induction atts as [|a atts IH]; intros backoff db t Hn Hc Hs Hu c; subst c.
  { exists db, []. split_and!; done. }
  apply Forall_cons in Hu as [(Hh & Hst & Hsw) Hu]. cbn [reconnect_loop lk_db lk_file lk_creds]. rewrite Hst, Hsw.
  destruct (Hh db) as [_ Hs']. rewrite Hs in Hs'.
  set (c := MkCredentials name cred) in *.
  assert (Hrun : exists e, RunWithCaller a token (MkLink (a_hub a db) file (Some c)) = (MkLink (a_hub a db) file (Some c), e) /\
    (through a -> e = ErrServe)).
  { unfold RunWithCaller, enrollSpoke, hub_enroll. cbn [lk_db lk_file lk_creds enroll_request].
    destruct (a_dial a) eqn:Hd; [|eexists; split; [done|intros (? & _); congruence]]. cbn [negb].
    destruct (a_sent a) eqn:Ha; [|eexists; split; [done|intros (_ & ? & _); congruence]]. cbn [negb].
    rewrite (authenticate_saved _ name cred _ _ t) by done.
    destruct (a_back a) eqn:Hb; [|eexists; split; [done|intros (_ & _ & ?); congruence]]. cbn. eauto. }
  destruct Hrun as (e & -> & He). cbn [lk_creds]. rewrite bool_decide_eq_false_2 by done. cbn [andb].
  destruct (IH (if backoff <? spokeReconnectMax then backoff * 2 else backoff) (a_hub a db) t Hn Hc Hs' Hu)
    as (db' & rs & -> & Hlen & Hcr & Hend).
  do 2 eexists. split; [done|]. split; [cbn; by rewrite Hlen|]. split; [by constructor|].
  intros [|i] a' r Ha' Hr; [injection Ha' as <-; injection Hr as <-; exact He|by apply (Hend i a')].
Qed.

(** Before the hub is reached, nothing changes. *)
Lemma loop_unseen token h name pre rest backoff file : forall (db : ClusterDB),
  Forall (undisturbed h name) pre -> Forall unseen pre ->
  exists db' b' rs, length rs = length pre /\ Forall (fun r => r_creds r = None) rs /\
    cdb_tokens db' !! h = cdb_tokens db !! h /\
    reconnect_loop token backoff (pre ++ rest) (MkLink db file None) =
    (let '(lk, rs', fin) := reconnect_loop token b' rest (MkLink db' file None) in (lk, rs ++ rs', fin)).
Proof.
  revert backoff. induction pre as [|a pre IH]; intros backoff db Hu Hs.
  { exists db, backoff, []. split_and!; try done. cbn. by destruct (reconnect_loop _ _ _ _) as [[]]. }
  apply Forall_cons in Hu as [(Hh & Hst & Hsw) Hu]. apply Forall_cons in Hs as [Ha Hs].
  assert (Hrun : exists e, RunWithCaller a token (MkLink (a_hub a db) file None) = (MkLink (a_hub a db) file None, e) /\ e <> ErrEnrollRejected).
  { unfold RunWithCaller, enrollSpoke. cbn [lk_db lk_file lk_creds]. destruct (a_dial a) eqn:Hd; [|by eexists].
    destruct (a_sent a) eqn:Hse; [destruct Ha; congruence|]. by eexists. }
  destruct Hrun as (e & Hrun & He). cbn [app reconnect_loop lk_db lk_file lk_creds]. rewrite Hrun, Hst, Hsw. cbn [lk_creds].
  rewrite (bool_decide_eq_false_2 (e = _)), andb_false_r by done.
  destruct (IH (if backoff <? spokeReconnectMax then backoff * 2 else backoff) (a_hub a db) Hu Hs) as (db' & b' & rs & Hl & Hc & Ht & ->).
  exists db', b', (MkRound None e backoff :: rs). split; [cbn; by rewrite Hl|]. split; [by constructor|].
  split; [destruct (Hh db) as [Ht' _]; congruence|]. by destruct (reconnect_loop _ _ rest _) as [[]].
Qed.

(** C22: A spoke started with a token of the hub's table gets in and stays in, as
    long as nobody at the hub takes or replaces that token or drops or regenerates
    that spoke, and nobody stops the process: however many attempts the hub never
    sees, the first it sees enrolls the spoke, if that one gets through both ways
    before the token expires, the hub's random source answers, and the credential
    file can be written and its JSON form reads back as itself (valid UTF-8); the
    credential is then on disk so that a restart finds it; from then on every
    attempt that gets through is served, always with the credential and never
    again with the token, and the loop never gives up. *)
Theorem spoke_enrolls_and_stays tok name backend exp bytes pre good post (db : ClusterDB) file lk rs fin :
  let h := hashSecret tok in
  let c := MkCredentials name (hex_encode bytes) in
  tok <> "" -> name <> "" -> bytes <> [] -> cdb_tokens db !! h = Some (MkJoinToken name backend exp) ->
  Forall (undisturbed h name) (pre ++ good :: post) -> Forall unseen pre ->
  through good -> a_rnd good = Some bytes -> a_now good <= exp -> a_write good = None ->
  clean c -> is_Some (marshal c) ->
  reconnect_loop tok Second (pre ++ good :: post) (MkLink db file None) = (lk, rs, fin) ->
  fin = Running /\ lk_creds lk = Some c /\ loadSpokeCreds true (lk_file lk) = Ok (Some c) /\
  length rs = length (pre ++ good :: post) /\
  (forall i r, rs !! i = Some r -> r_creds r = if (i <=? length pre)%nat then None else Some c) /\
  (forall i a r, (length pre <= i)%nat -> (pre ++ good :: post) !! i = Some a -> rs !! i = Some r -> through a -> r_end r = ErrServe).
Proof.
  intros h c Htok Hname Hby Hdb Hu Hun (Hd & Hs & Hb) Hrnd Hnow Hw Hcl [data Hm].
  assert (Hcred : hex_encode bytes <> "") by (by destruct bytes).
  apply Forall_app in Hu as [Hu1 [Hug Hu2]%Forall_cons].
  destruct (loop_unseen tok h name pre (good :: post) Second file db Hu1 Hun) as (db1 & b1 & rs1 & Hl1 & Hc1 & Ht1 & ->).
  destruct Hug as (Hh & Hst & Hsw). destruct (Hh db1) as [Ht2 _]. cbn [reconnect_loop lk_db lk_file lk_creds].
  assert (Hrun : RunWithCaller good tok (MkLink (a_hub good db1) file None) =
    (MkLink (MkClusterDB (delete h (cdb_tokens (a_hub good db1)))
       (<[name := (hashSecret (hex_encode bytes), a_now good)]> (cdb_spokes (a_hub good db1)))) (Some data) (Some c), ErrServe)).
  { unfold RunWithCaller, enrollSpoke, hub_enroll, authenticateEnroll, enrollWithJoinToken. rewrite Hd, Hs, Hb.
    cbn [negb lk_db lk_file lk_creds enroll_request er_JoinToken]. apply String.eqb_neq in Htok as ->. cbn [negb].
    unfold TakeJoinToken, SQLite_ClusterStore, SQLite_TakeJoinToken. cbn [or_store_err]. fold h.
    rewrite Ht2, Ht1, Hdb. unfold After. cbn [jt_ExpiresAt jt_Name]. destruct (Z.ltb_spec exp (a_now good)); [lia|].
    rewrite Hrnd. cbn. unfold saveSpokeCreds. fold c. by rewrite Hm, Hw. }
  rewrite Hrun, Hst, Hsw. cbn [lk_creds]. rewrite bool_decide_eq_false_2 by done. cbn [andb].
  edestruct (loop_enrolled tok h name (hex_encode bytes) post (if b1 <? spokeReconnectMax then b1 * 2 else b1) (Some data))
    as (db' & rs2 & -> & Hl2 & Hc2 & He2); [done|done|apply lookup_insert_eq|done|].
  intros [= <- <- <-]. cbn [lk_creds lk_file]. split_and!; [done|done| | | |].
  - unfold loadSpokeCreds. cbn [negb]. by rewrite (unmarshal_marshal c data).
  - rewrite !length_app. cbn. by rewrite Hl1, Hl2.
  - intros i r Hr. destruct (Nat.leb_spec i (length pre)) as [Hle|Hgt].
    + destruct (decide (i = length pre)) as [-> |Hne].
      * rewrite lookup_app_r, Hl1, Nat.sub_diag in Hr by lia. by injection Hr as <-.
      * rewrite lookup_app_l in Hr by lia. by apply (proj1 (Forall_lookup _ _) Hc1 i).
    + rewrite lookup_app_r, Hl1 in Hr by lia. replace (i - length pre)%nat with (S (i - length pre - 1)) in Hr by lia.
      by apply (proj1 (Forall_lookup _ _) Hc2 (i - length pre - 1)%nat).
  - intros i a r Hi Ha Hr Hth. rewrite lookup_app_r in Ha by lia. rewrite lookup_app_r, Hl1 in Hr by lia.
    destruct (i - length pre)%nat as [|k]; [by injection Hr as <-|]. by apply (He2 k a).
Qed.
End Loop.

(** ** Flags: theorems *)

Lemma publish_loop_ok specs seen l : publish_loop specs seen = Ok l ->
  Forall2 (fun spec p => Atoi (TrimSpace (cut_colon spec).1) = Some (pp_Port p) /\ 1 <= pp_Port p <= 65535 /\
                         pp_Description p = TrimSpace (cut_colon spec).2) specs l /\
  NoDup (pp_Port <$> l) /\ forall p, p ∈ l -> pp_Port p ∉ seen.
Proof.
  revert seen l. induction specs as [|spec specs IH]; intros seen l; cbn [publish_loop].
  { intros [= <-]. split_and!; [constructor|constructor|]. intros p Hp. by apply elem_of_nil in Hp. }
  destruct (cut_colon spec) as [ps desc] eqn:Hc. destruct (Atoi (TrimSpace ps)) as [port|] eqn:Hp; [|done].
  destruct (Z.ltb_spec port 1); [done|]. destruct (Z.ltb_spec 65535 port); [done|]. cbn [orb].
  destruct (decide (port ∈ seen)) as [|Hn]; [done|].
  destruct (publish_loop specs (port :: seen)) as [l'|] eqn:Hl; [|done]. intros [= <-].
  destruct (IH _ _ Hl) as (Hf & Hnd & Hseen). split_and!.
  - constructor; [|done]. rewrite Hc. cbn. split_and!; [done|lia|lia|done].
  - cbn. constructor; [|done]. intros (p & Heq & Hin)%list_elem_of_fmap. apply (Hseen p Hin). rewrite <- Heq. apply list_elem_of_here.
  - intros p [-> |Hin]%elem_of_cons; [done|]. specialize (Hseen p Hin). set_solver.
Qed.

Lemma publish_loop_complete specs ports seen :
  Forall2 (fun spec port => Atoi (TrimSpace (cut_colon spec).1) = Some port /\ 1 <= port <= 65535) specs ports ->
  NoDup ports -> (forall p, p ∈ ports -> p ∉ seen) -> exists l, publish_loop specs seen = Ok l.
Proof.
  intros Hf. revert seen. induction Hf as [|spec port specs ports [Ha Hr] _ IH]; intros seen Hnd Hs; cbn [publish_loop]; [eauto|].
  apply NoDup_cons in Hnd as [Hnin Hnd]. destruct (cut_colon spec) as [ps desc]. cbn [fst] in Ha. rewrite Ha.
  destruct (Z.ltb_spec port 1); [lia|]. destruct (Z.ltb_spec 65535 port); [lia|]. cbn [orb].
  rewrite decide_False by (apply Hs, list_elem_of_here).
  destruct (IH (port :: seen)) as [l ->]; [done| |by eexists].
  intros p Hp [-> |Hin]%elem_of_cons; [done|]. by apply (Hs p); [apply list_elem_of_further|].
Qed.

(** The ports a spoke publishes are accepted exactly when every flag starts with
    a port number between 1 and 65535 and no two agree; the specs keep their
    order, ports and trimmed descriptions. *)
Theorem parsePublishPorts_spec specs :
  ((exists l, parsePublishPorts specs = Ok l) <->
   exists ports, Forall2 (fun spec port => Atoi (TrimSpace (cut_colon spec).1) = Some port /\ 1 <= port <= 65535) specs ports /\
     NoDup ports) /\
  forall l, parsePublishPorts specs = Ok l ->
    NoDup (pp_Port <$> l) /\
    Forall2 (fun spec p => Atoi (TrimSpace (cut_colon spec).1) = Some (pp_Port p) /\ 1 <= pp_Port p <= 65535 /\
                           pp_Description p = TrimSpace (cut_colon spec).2) specs l.
Proof.
  unfold parsePublishPorts. split; [split|].
  - intros [l (Hf & Hnd & _)%publish_loop_ok]. exists (pp_Port <$> l). split; [|done]. apply Forall2_fmap_r.
    eapply Forall2_impl; [exact Hf|]. cbn. tauto.
  - intros (ports & Hf & Hnd). apply (publish_loop_complete specs ports); [done|done|]. intros p _ Hin. by apply elem_of_nil in Hin.
  - intros l (Hf & Hnd & _)%publish_loop_ok. done.
Qed.

(** *** Paths *)

(** A component of a clean path. *)
Definition canonical (c : string) : Prop := c <> "" /\ c <> "." /\ c <> ".." /\ ContainsByte c "/" = false.

Lemma split_acc_pieces c s acc : ContainsByte acc c = false -> Forall (fun p => ContainsByte p c = false) (split_acc c s acc).
Proof.
  revert acc. induction s as [|d s IH]; intros acc Ha; cbn [split_acc]; [by repeat constructor|].
  destruct (Ascii.eqb_spec d c) as [-> |Hne]; [constructor; [done|by apply IH]|]. apply IH.
  rewrite ContainsByte_app, Ha. cbn. destruct (Ascii.eqb_spec c d); [congruence|done].
Qed.

Lemma clean_comps_canonical comps acc : Forall (fun p => ContainsByte p "/" = false) comps -> Forall canonical acc ->
  Forall canonical (clean_comps comps acc).
Proof.
  intros Hc. revert acc. induction Hc as [|c comps Hc _ IH]; intros acc Ha; cbn [clean_comps]; [by apply Forall_rev|].
  destruct (String.eqb_spec c ""), (String.eqb_spec c "."); cbn [orb]; try by apply IH.
  destruct (String.eqb_spec c ".."); apply IH; [by destruct Ha|]. by constructor.
Qed.

Lemma clean_comps_id comps acc : Forall canonical comps -> clean_comps comps acc = rev acc ++ comps.
Proof.
  intros Hc. revert acc. induction Hc as [|c comps (H1 & H2 & H3 & _) _ IH]; intros acc; cbn [clean_comps]; [by rewrite app_nil_r|].
  apply String.eqb_neq in H1 as ->, H2 as ->, H3 as ->. cbn [orb]. rewrite IH. cbn. by rewrite <- app_assoc.
Qed.

Lemma Clean_canonical s : exists comps, Clean s = rooted comps /\ Forall canonical comps.
Proof. eexists. split; [done|]. apply clean_comps_canonical; [by apply split_acc_pieces|constructor]. Qed.

Lemma Split_rooted comps : Forall canonical comps ->
  Split (rooted comps) "/" = "" :: (if decide (comps = []) then [""] else comps).
Proof.
  intros Hc. unfold rooted. change ("/" +:+ Join comps "/") with ("" +:+ String "/" (Join comps "/")). rewrite Split_app. cbn.
  case_decide as Hd; [by subst|]. f_equal. apply Split_Join; [done|]. eapply Forall_impl; [exact Hc|]. by intros c (_ & _ & _ & ?).
Qed.

Lemma clean_comps_skip comps acc : clean_comps ("" :: comps) acc = clean_comps comps acc.
Proof. done. Qed.

(** Joining clean paths. *)
Lemma Clean_join d rel : Forall canonical d -> Forall canonical rel ->
  Clean (rooted d +:+ "/" +:+ Join rel "/") = rooted (d ++ rel).
Proof.
  intros Hd Hr. unfold Clean. change (rooted d +:+ "/" +:+ Join rel "/") with (rooted d +:+ String "/" (Join rel "/")).
  rewrite Split_app, Split_rooted by done.
  assert (Hrel : forall acc, clean_comps (Split (Join rel "/") "/") acc = rev acc ++ rel).
  { intros acc. destruct (decide (rel = [])) as [-> |Hne]; [cbn; by rewrite app_nil_r|].
    rewrite Split_Join; [by apply clean_comps_id|done|]. eapply Forall_impl; [exact Hr|]. by intros c (_ & _ & _ & ?). }
  f_equal. cbn [app]. rewrite clean_comps_skip. case_decide as Hc; [subst d; cbn [app]; by rewrite clean_comps_skip, Hrel|].
  assert (Hgo : forall acc, clean_comps (d ++ Split (Join rel "/") "/") acc = rev acc ++ d ++ rel).
  { clear Hc. induction Hd as [|c d (H1 & H2 & H3 & _) _ IH]; intros acc; cbn [app clean_comps]; [apply Hrel|].
    apply String.eqb_neq in H1 as ->, H2 as ->, H3 as ->. cbn [orb]. rewrite IH. cbn. by rewrite <- app_assoc. }
  apply Hgo.
Qed.

(** *** Trees *)

(** The regular files of a tree, by path and mode. *)
Inductive has_file : Node -> list string -> Z -> Prop :=
| hf_here mode : has_file (Regular mode) [] mode
| hf_below es name n p mode : (name, n) ∈ es -> has_file n p mode -> has_file (Directory es) (name :: p) mode.

Fixpoint readable (n : Node) : bool :=
  match n with
  | Unreadable => false
  | Directory es => forallb (fun e => readable e.2) es
  | _ => true
  end.

(** Induction over trees, with the hypothesis for every entry of a directory. *)
Lemma Node_tree_ind (P : Node -> Prop) :
  (forall m, P (Regular m)) -> P Special -> P Unreadable ->
  (forall es, (forall name n, (name, n) ∈ es -> P n) -> P (Directory es)) -> forall n, P n.
Proof.
  intros Hr Hs Hu Hd. fix IH 1. intros [m| | |es]; [apply Hr|exact Hs|exact Hu|].
  assert (Hall : Forall (fun e => P e.2) es) by (induction es as [|[nm n] es IHes]; constructor; [apply IH|exact IHes]).
  apply Hd. intros name n Hin. exact (proj1 (Forall_forall _ _) Hall (name, n) Hin).
Defined.

(** The walk finds exactly the regular files, and fails exactly on a tree with
    an unreadable part. *)
Lemma walk_spec n : forall rel,
  match walk rel n with
  | Some l => readable n = true /\ forall q mode, (q, mode) ∈ l <-> exists p, q = rel ++ p /\ has_file n p mode
  | None => readable n = false
  end.
Proof.
  induction n as [m| | |es IH] using Node_tree_ind; intros rel; cbn [walk readable]; [| |done|].
  - split; [done|]. intros q mode. rewrite list_elem_of_singleton. split.
    + intros [= -> ->]. exists []. rewrite app_nil_r. split; [done|constructor].
    + intros (p & -> & Hf). inversion Hf. by rewrite app_nil_r.
  - split; [done|]. intros q mode. split; [by intros ?%elem_of_nil|]. intros (p & _ & Hf). inversion Hf.
  - induction es as [|[nm n] es IHes]; cbn [forallb].
    { split; [done|]. intros q mode. split; [by intros ?%elem_of_nil|]. intros (p & _ & Hf). inversion Hf as [|? ? ? ? ? Hin]. by apply elem_of_nil in Hin. }
    specialize (IHes (fun name n' Hin => IH name n' (list_elem_of_further _ _ _ Hin))).
    pose proof (IH nm n (list_elem_of_here _ _) (rel ++ [nm])) as Hn. cbn [snd].
    destruct (walk (rel ++ [nm]) n) as [l|]; [|by rewrite Hn]. destruct Hn as [-> Hn]. cbn [andb].
    match type of IHes with match ?w with Some _ => _ | None => _ end => destruct w as [l'|] end; [|done].
    destruct IHes as [-> He]. split; [done|]. intros q mode. rewrite elem_of_app, Hn, He. split.
    + intros [(p & -> & Hf)|(p & -> & Hf)].
      * exists (nm :: p). rewrite <- app_assoc. split; [done|]. econstructor; [apply list_elem_of_here|done].
      * exists p. split; [done|]. inversion Hf as [|? name n' p' ? Hin Hf']; subst. econstructor; [by apply list_elem_of_further|done].
    + intros (p & -> & Hf). inversion Hf as [|? name n' p' ? Hin Hf']; subst. apply elem_of_cons in Hin as [[= -> ->]|Hin].
      * left. exists p'. by rewrite <- app_assoc.
      * right. exists (name :: p'). split; [done|]. by econstructor.
Qed.

Lemma parseCopySpec_ok cwd spec src dest : parseCopySpec cwd spec = Ok (src, dest) ->
  src = (cut_colon spec).1 /\ src <> "" /\ exists d, dest = rooted d /\ Forall canonical d.
Proof.
  unfold parseCopySpec. destruct (cut_colon spec) as [s d0]. destruct (String.eqb_spec s ""); [done|].
  match goal with |- context [res_bind ?m _] => destruct m as [d|] end; [|done]. cbn [res_bind].
  destruct (negb (IsAbs d)); [done|]. intros [= <- <-]. split_and!; [done|done|]. apply Clean_canonical.
Qed.

(** Every entry name on the way to a file is a path component. *)
Definition names_ok (n : Node) : Prop := forall p mode, has_file n p mode -> Forall canonical p.

(** Copying a directory into boxes takes exactly its regular files, each to the
    same place below the destination, an absolute clean path, with its permission
    bits. *)
Theorem copySpec_directory cwd host spec l es :
  host (cut_colon spec).1 = Some (false, Directory es) -> names_ok (Directory es) -> copySpec cwd host spec = Ok l ->
  readable (Directory es) = true /\
  exists d, Forall canonical d /\
    forall f, f ∈ l <-> exists p mode, has_file (Directory es) p mode /\
      f = MkCopyFile (Join ((cut_colon spec).1 :: p) "/") (rooted (d ++ p)) (Z.land mode 511).
Proof.
  intros Hh Hn. unfold copySpec. destruct (parseCopySpec cwd spec) as [[src dest]|] eqn:Hp; [|done]. cbn [res_bind].
  destruct (parseCopySpec_ok _ _ _ _ Hp) as (-> & _ & d & -> & Hd). rewrite Hh.
  pose proof (walk_spec (Directory es) []) as Hw. destruct (walk [] (Directory es)) as [files|]; [|done].
  destruct Hw as [Hr Hw]. intros [= <-]. split; [done|]. exists d. split; [done|]. intros f. rewrite list_elem_of_fmap. split.
  - intros ([q mode] & -> & Hin). apply Hw in Hin as (p & -> & Hf). exists p, mode. split; [done|]. cbn [fst snd app].
    by rewrite Clean_join by (try done; by eapply Hn).
  - intros (p & mode & Hf & ->). exists (p, mode). split; [cbn [fst snd]; by rewrite Clean_join by (try done; by eapply Hn)|].
    apply Hw. by exists p.
Qed.

(** ** Concrete runs *)

Module Demo.
#[export] Instance Credentials_countable : Countable Credentials :=
  inj_countable' (fun c => (cr_Name c, cr_Credential c)) (fun p => MkCredentials p.1 p.2) ltac:(by intros []).
Export Wire.

Definition calm (dial back : bool) (rnd : option (list Z)) : Attempt := MkAttempt id dial true back rnd 5 None false false.
Definition tok : string := "t".
Definition db0 : ClusterDB := MkClusterDB {[hashSecret tok := MkJoinToken "edge" "docker" 10]} ∅.
Definition pre : list Attempt := [calm false false None].
Definition good : Attempt := calm true true (Some [1; 2]).
Definition post : list Attempt := [calm false true None; calm true true None].
Definition tree : list (string * Node) := [("a", Regular 420); ("d", Directory [("b", Regular 511); ("s", Special)])].
End Demo.

Section Witnesses.
Import Demo.

Lemma reconnect_backoff_witness :
  exists r, (reconnect_loop tok Second (replicate 7 (calm false false None)) (MkLink db0 None None)).1.2 !! 6%nat = Some r /\
    r_wait r <= 32 * Second.
Proof.
  destruct (reconnect_loop tok Second (replicate 7 (calm false false None)) (MkLink db0 None None)) as [[lk rs] fin] eqn:Hl.
  assert (Hr : rs !! 6%nat = Some (MkRound None ErrDialing (32 * Second))) by (vm_compute in Hl; injection Hl as <- <- <-; reflexivity).
  eexists. split; [exact Hr|]. apply (reconnect_backoff tok _ _ lk rs fin 6 _ Hl Hr).
Defined.

Lemma spoke_enrolls_and_stays_witness :
  exists lk rs, reconnect_loop tok Second (pre ++ good :: post) (MkLink db0 None None) = (lk, rs, Running) /\
    loadSpokeCreds true (lk_file lk) = Ok (Some (MkCredentials "edge" "0102")).
Proof.
  destruct (reconnect_loop tok Second (pre ++ good :: post) (MkLink db0 None None)) as [[lk rs] fin] eqn:Hl.
  assert (Hu : Forall (undisturbed (hashSecret tok) "edge") (pre ++ good :: post)) by (repeat constructor).
  assert (Hp : Forall unseen pre) by (repeat constructor).
  assert (Hcl : clean (MkCredentials "edge" "0102")) by exact I.
  destruct (spoke_enrolls_and_stays tok "edge" "docker" 10 [1; 2] pre good post db0 None lk rs fin
    ltac:(discriminate) ltac:(discriminate) ltac:(discriminate) ltac:(apply lookup_singleton_eq) Hu Hp
    (conj eq_refl (conj eq_refl eq_refl)) eq_refl ltac:(vm_compute; discriminate) eq_refl Hcl ltac:(by eexists) Hl) as (-> & _ & Hf & _).
  exists lk, rs. split; [reflexivity|exact Hf].
Defined.

(** When the hub's welcome is lost on its way, the token is spent and the
    credential unknown: the next attempt is refused and the spoke gives up. *)
Example lost_welcome_burns_token :
  (reconnect_loop tok Second [calm true false (Some [1; 2]); calm true true (Some [3; 4])] (MkLink db0 None None)).2 = GaveUp.
Proof. vm_compute. reflexivity. Qed.
End Witnesses.

Lemma copySpec_directory_witness :
  exists l, copySpec None (fun _ => Some (false, Directory Demo.tree)) "/src:/dst" = Ok l /\
    MkCopyFile "/src/d/b" "/dst/d/b" 511 ∈ l.
Proof.
  set (host := fun _ : string => Some (false, Directory Demo.tree)).
  destruct (copySpec None host "/src:/dst") as [l|] eqn:Hl; [|vm_compute in Hl; discriminate].
  exists l. split; [reflexivity|].
  assert (Hn : names_ok (Directory Demo.tree)).
  { intros p mode Hf. inversion Hf as [|? ? ? ? ? Hin Hf2]; subst. apply elem_of_cons in Hin as [[= -> ->]|Hin].
    - inversion Hf2; subst. repeat constructor; discriminate.
    - apply list_elem_of_singleton in Hin as [= -> ->]. inversion Hf2 as [|? ? ? ? ? Hin2 Hf3]; subst.
      apply elem_of_cons in Hin2 as [[= -> ->]|[= -> ->]%list_elem_of_singleton]; inversion Hf3; subst. repeat constructor; discriminate. }
  destruct (copySpec_directory None host "/src:/dst" l Demo.tree eq_refl Hn Hl) as (_ & d & Hd & Hin).
  vm_compute in Hl. injection Hl as <-. apply list_elem_of_further, list_elem_of_here.
Defined.

(** A source that is a symbolic link to a directory is accepted and copies
    nothing. *)
Example copy_of_linked_directory_is_empty :
  copySpec None (fun _ => Some (true, Directory Demo.tree)) "/src:/dst" = Ok [].
Proof. reflexivity. Qed.
