(* ===== verification/Remote.v ===== *)
(** * Calls over the cluster connection (internal/shared/cluster)

    Many verb calls share one connection: each gets a correlation id and a
    one-slot channel, and a read loop routes every response to the call that
    waits for it.  The hub's [remoteSpoke] (remote.go) and the spoke's
    [HubCaller] (boxports.go) do this in the same way over one [Correlator].
    Also here: the spoke's dispatch of verbs to its box manager
    (dispatch.go). *)

From S2P Require Import Prelude GoStrings Regex Sandbox.

Local Open Scope Z_scope.

(** ** Correlation *)

(** A response frame. *)
Record frame := MkFrame { f_ID : Z; f_Payload : string; f_Error : string }.

(** A channel of capacity one. *)
Inductive chan := CEmpty | CFrame (f : frame) | CClosed.

Definition next_uint64 (n : Z) : Z := (n + 1) mod 2 ^ 64.

(** [nextID], [pending] and the channels made so far. *)
Record Correlator := MkCorrelator {
  co_nextID : Z;
  co_pending : gmap Z nat;
  co_chans : gmap nat chan;
}.

Definition newCorrelator : Correlator := MkCorrelator 0 ∅ ∅.

(** The locked part of [call]: a new id, a new channel, registered. *)
Definition register_call (c : Correlator) : Correlator * (Z * nat) :=
  let id := next_uint64 (co_nextID c) in
  let ch := fresh (dom (co_chans c)) in
  (MkCorrelator id (<[id := ch]> (co_pending c)) (<[ch := CEmpty]> (co_chans c)), (id, ch)).

(** After a failed send or a cancelled context. *)
Definition forget_call (id : Z) (c : Correlator) : Correlator :=
  MkCorrelator (co_nextID c) (delete id (co_pending c)) (co_chans c).

(** A response: its waiting channel is taken out of [pending] and gets the frame.
    [None] is a send that would block. *)
Definition deliver_response (f : frame) (c : Correlator) : option Correlator :=
  let pending' := delete (f_ID f) (co_pending c) in
  match co_pending c !! f_ID f with
  | None => Some (MkCorrelator (co_nextID c) pending' (co_chans c))
  | Some ch =>
      match co_chans c !! ch with
      | Some CEmpty => Some (MkCorrelator (co_nextID c) pending' (<[ch := CFrame f]> (co_chans c)))
      | _ => None
      end
  end.

(** Fail every pending call: close its channel. *)
Definition close_pending (c : Correlator) : Correlator :=
  let closing : gset nat := list_to_set (map_to_list (co_pending c)).*2 in
  MkCorrelator (co_nextID c) ∅
    (map_imap (fun ch v => Some (if decide (ch ∈ closing) then CClosed else v)) (co_chans c)).

Inductive CallError := ErrDisconnected | ErrClosedWith (cause : string) | ErrVerb (msg : string).

(** What the waiting call returns once its channel is ready; [None] while it
    waits. *)
Definition call_result (ch : nat) (c : Correlator) : option (res CallError string) :=
  match co_chans c !! ch with
  | Some (CFrame f) => Some (if negb (String.eqb (f_Error f) "") then Err (ErrVerb (f_Error f)) else Ok (f_Payload f))
  | Some CClosed => Some (Err ErrDisconnected)
  | _ => None
  end.

(** *** The hub's side *)

(** [rs_closed] is the cause once the connection is gone. *)
Record remoteSpoke := MkRemoteSpoke { rs_corr : Correlator; rs_closed : option string }.

Definition newRemoteSpoke : remoteSpoke := MkRemoteSpoke newCorrelator None.

Definition remote_call (r : remoteSpoke) : remoteSpoke * res CallError (Z * nat) :=
  match rs_closed r with
  | Some cause => (r, Err (ErrClosedWith cause))
  | None => let '(c, idch) := register_call (rs_corr r) in (MkRemoteSpoke c None, Ok idch)
  end.

Definition shutdown (cause : string) (r : remoteSpoke) : remoteSpoke :=
  match rs_closed r with
  | Some _ => r
  | None => MkRemoteSpoke (close_pending (rs_corr r)) (Some cause)
  end.

(** *** The spoke's side *)

(** [hc_tr]: attached to a connection. *)
Record HubCaller := MkHubCaller { hc_corr : Correlator; hc_tr : option nat }.

Definition NewHubCaller : HubCaller := MkHubCaller newCorrelator None.
Definition attach (tr : nat) (c : HubCaller) : HubCaller := MkHubCaller (hc_corr c) (Some tr).
Definition detach (c : HubCaller) : HubCaller := MkHubCaller (close_pending (hc_corr c)) None.

Definition hub_call (c : HubCaller) : HubCaller * res CallError (Z * nat) :=
  match hc_tr c with
  | None => (c, Err ErrDisconnected)
  | Some tr => let '(c', idch) := register_call (hc_corr c) in (MkHubCaller c' (Some tr), Ok idch)
  end.

(** ** The calls of a connection, in any order

    [owner] records the id each channel was made for. *)
Inductive corr_step : Correlator * gmap nat Z -> Correlator * gmap nat Z -> Prop :=
| cs_register c owner c' id ch :
    register_call c = (c', (id, ch)) -> co_nextID c + 1 < 2 ^ 64 ->
    corr_step (c, owner) (c', <[ch := id]> owner)
| cs_forget c owner id :
    corr_step (c, owner) (forget_call id c, owner)
| cs_response c owner f c' :
    deliver_response f c = Some c' -> corr_step (c, owner) (c', owner)
| cs_close c owner :
    corr_step (c, owner) (close_pending c, owner).

Record corr_inv (st : Correlator * gmap nat Z) : Prop := {
  ci_pending : forall id ch, co_pending st.1 !! id = Some ch ->
    st.2 !! ch = Some id /\ co_chans st.1 !! ch = Some CEmpty;
  ci_frame : forall ch f, co_chans st.1 !! ch = Some (CFrame f) -> st.2 !! ch = Some (f_ID f);
  ci_owner : forall ch id, st.2 !! ch = Some id -> 0 < id <= co_nextID st.1 /\ is_Some (co_chans st.1 !! ch);
  ci_inj : forall ch1 ch2 id, st.2 !! ch1 = Some id -> st.2 !! ch2 = Some id -> ch1 = ch2;
  ci_range : 0 <= co_nextID st.1 < 2 ^ 64;
}.

Lemma corr_inv_init : corr_inv (newCorrelator, ∅).
Proof. by constructor. Qed.

Lemma elem_of_waiting ch (c : Correlator) :
  ch ∈ (map_to_list (co_pending c)).*2 <-> exists id, co_pending c !! id = Some ch.
Proof.
  rewrite list_elem_of_fmap. split.
  - intros ([id ch'] & -> & Hin%elem_of_map_to_list). eauto.
  - intros [id Hid]. exists (id, ch). split; [done|]. by apply elem_of_map_to_list.
Qed.

Lemma lookup_close_pending ch c :
  co_chans (close_pending c) !! ch =
  if decide (ch ∈ (map_to_list (co_pending c)).*2) then (fun _ => CClosed) <$> co_chans c !! ch
  else co_chans c !! ch.
Proof.
  simpl. rewrite map_lookup_imap.
  destruct (co_chans c !! ch); simpl; rewrite ?elem_of_list_to_set; repeat case_decide; set_solver.
Qed.

Lemma register_fresh c c' id ch :
  register_call c = (c', (id, ch)) -> co_chans c !! ch = None.
Proof.
  intros [= _ _ <-]. apply not_elem_of_dom. apply is_fresh.
Qed.

Lemma corr_step_inv st st' : corr_step st st' -> corr_inv st -> corr_inv st'.
Proof.
  intros Hst [Hp Hf Ho Hi Hr].
  destruct Hst as [c owner c' id ch Hreg Hlt|c owner id|c owner f c' Hd|c owner]; simpl in *.
  - pose proof (register_fresh _ _ _ _ Hreg) as Hfr.
    assert (Hid : id = co_nextID c + 1 /\ c' =
      MkCorrelator id (<[id := ch]> (co_pending c)) (<[ch := CEmpty]> (co_chans c))).
    { unfold register_call, next_uint64 in Hreg. injection Hreg as <- <- <-.
      by rewrite Z.mod_small by lia. }
    destruct Hid as [Hid ->]. clear Hreg.
    assert (Hold : forall ch' id', owner !! ch' = Some id' -> ch' <> ch /\ id' <> id).
    { intros ch' id' Hin. destruct (Ho _ _ Hin) as [? [v Hv]]. split; [congruence|lia]. }
    constructor; simpl.
    + intros id' ch'. rewrite lookup_insert_Some. intros [[<- <-]|[_ Hin]]; [by rewrite !lookup_insert_eq|].
      destruct (Hp _ _ Hin) as [Hown Hem]. destruct (Hold _ _ Hown).
      by rewrite !lookup_insert_ne by done.
    + intros ch' f. rewrite !lookup_insert. case_decide as H1; [done|]. apply Hf.
    + intros ch' id'. rewrite !lookup_insert. case_decide as H1.
      * intros [= <-]. split; [lia|done].
      * intros Hin. destruct (Ho _ _ Hin). split; [lia|done].
    + intros ch1 ch2 id'. rewrite !lookup_insert_Some.
      intros [[<- <-]|[Hne1 H1]] [[<- Hid2]|[Hne2 H2]]; eauto.
      * by destruct (Hold _ _ H2).
      * subst id'. by destruct (Hold _ _ H1).
    + lia.
  - constructor; simpl; try done. intros id' ch'. rewrite lookup_delete_Some. intros [_ ?]. auto.
  - unfold deliver_response in Hd. destruct (co_pending c !! f_ID f) as [ch|] eqn:Hch.
    + destruct (Hp _ _ Hch) as [Hown Hem]. rewrite Hem in Hd. injection Hd as <-.
      constructor; simpl; try done.
      * intros id' ch'. rewrite lookup_delete_Some. intros [Hne Hin].
        destruct (Hp _ _ Hin) as [Hown' Hem']. split; [done|].
        rewrite lookup_insert_ne; [done|]. intros ->. congruence.
      * intros ch' f'. rewrite lookup_insert. case_decide; [by intros [= <-]; subst|apply Hf].
      * intros ch' id' Hin. destruct (Ho _ _ Hin) as [? ?]. split; [done|].
        rewrite lookup_insert. by case_decide.
    + injection Hd as <-. constructor; simpl; try done.
      intros id' ch'. rewrite lookup_delete_Some. intros [_ ?]. auto.
  - constructor; try done.
    + intros ch f. cbn [fst snd]. rewrite lookup_close_pending. case_decide; [|apply Hf].
      by destruct (co_chans c !! ch).
    + intros ch id Hin. destruct (Ho _ _ Hin) as [? [v Hv]]. split; [done|].
      cbn [fst snd]. rewrite lookup_close_pending. case_decide; rewrite Hv; by eexists.
Qed.

(** Responses reach the call they answer.  Over any interleaving of calls,
    cancellations, responses (to any id, in any order, even repeated) and
    disconnections, up to 2^64 - 1 calls on a connection: routing a response
    never blocks the read loop; a call that returns a response returns one with
    the id of its own request; two calls never share an id; and a disconnection
    fails every call still waiting. *)
Theorem responses_reach_their_call : forall c owner,
  rtc corr_step (newCorrelator, ∅) (c, owner) ->
  (forall f, is_Some (deliver_response f c)) /\
  (forall ch f, co_chans c !! ch = Some (CFrame f) -> owner !! ch = Some (f_ID f)) /\
  (forall ch1 ch2 id, owner !! ch1 = Some id -> owner !! ch2 = Some id -> ch1 = ch2) /\
  (forall id ch, co_pending c !! id = Some ch ->
     call_result ch c = None /\ call_result ch (close_pending c) = Some (Err ErrDisconnected)).
Proof.
  intros c owner Hst.
  assert (Hinv : corr_inv (c, owner)).
  { pose proof corr_inv_init as Hi. induction Hst; eauto using corr_step_inv. }
  destruct Hinv as [Hp Hf Ho Hi Hr]. simpl in *. split_and!; [|done|done|].
  - intros f. unfold deliver_response. destruct (co_pending c !! f_ID f) as [ch|] eqn:Hch; [|done].
    destruct (Hp _ _ Hch) as [_ ->]. done.
  - intros id ch Hin. destruct (Hp _ _ Hin) as [_ Hem]. unfold call_result.
    rewrite lookup_close_pending, decide_True by (apply elem_of_waiting; eauto). by rewrite Hem.
Qed.

Lemma responses_reach_their_call_witness :
  let c := (register_call newCorrelator).1 in
  let ch := (register_call newCorrelator).2.2 in
  (forall f, is_Some (deliver_response f c)) /\
  call_result ch c = None /\ call_result ch (close_pending c) = Some (Err ErrDisconnected).
Proof.
  intros c ch.
  destruct (responses_reach_their_call c (<[ch := 1]> ∅)) as (H1 & _ & _ & H4).
  - eapply rtc_l; [|apply rtc_refl]. apply (cs_register newCorrelator ∅ c 1 ch); reflexivity.
  - split; [exact H1|]. apply (H4 1 ch). reflexivity.
Defined.

(** Both sides step through the correlator. *)
Lemma remote_call_step r r' id ch owner :
  remote_call r = (r', Ok (id, ch)) -> co_nextID (rs_corr r) + 1 < 2 ^ 64 ->
  corr_step (rs_corr r, owner) (rs_corr r', <[ch := id]> owner).
Proof.
  unfold remote_call. destruct (rs_closed r); [done|].
  destruct (register_call (rs_corr r)) as [c idch] eqn:Hc. intros [= <- ->] Hlt. by constructor.
Qed.

Lemma hub_call_step c c' id ch owner :
  hub_call c = (c', Ok (id, ch)) -> co_nextID (hc_corr c) + 1 < 2 ^ 64 ->
  corr_step (hc_corr c, owner) (hc_corr c', <[ch := id]> owner).
Proof.
  unfold hub_call. destruct (hc_tr c); [|done].
  destruct (register_call (hc_corr c)) as [c1 idch] eqn:Hc. intros [= <- ->] Hlt. by constructor.
Qed.

(** After the connection is gone, no call waits: the pending ones are failed and
    later ones fail at once. *)
Lemma shutdown_final cause r :
  let r' := shutdown cause r in
  (exists cause', remote_call r' = (r', Err (ErrClosedWith cause'))) /\
  (rs_closed r = None -> co_pending (rs_corr r') = ∅).
Proof.
  unfold shutdown, remote_call. destruct (rs_closed r) eqn:Hc; cbn; rewrite ?Hc; split; by eauto.
Qed.

Lemma detach_final c : hub_call (detach c) = (detach c, Err ErrDisconnected).
Proof. reflexivity. Qed.

(** ** Dispatch of verbs on the spoke (dispatch.go) *)

(** [cluster.BoxManager]; errors are their messages. *)
Class BoxManager (M : Type) := {
  bm_Create : CreateOptions -> M -> M * res string CreateResult;
  bm_List : M -> res string (list Box);
  bm_Destroy : string -> M -> M * res string ();
  bm_Pause : string -> M -> M * res string ();
  bm_Resume : string -> M -> M * res string ();
  bm_Exec : string -> list string -> M -> M * res string ExecResult;
  bm_SetNetworkPolicy : string -> NetworkPolicy -> M -> M * res string ();
}.

(** A request frame after decoding: a verb with its payload, a payload that does
    not decode, or an unknown method. *)
Inductive Request :=
| RqCreate (opts : CreateOptions)
| RqList
| RqDestroy (idOrName : string)
| RqPause (idOrName : string)
| RqResume (idOrName : string)
| RqExec (idOrName : string) (cmd : list string)
| RqSetPolicy (boxID : string) (policy : NetworkPolicy)
| RqMalformed (err : string)
| RqUnknown (method : string).

Inductive Payload :=
| PlCreated (r : CreateResult)
| PlBoxes (l : list Box)
| PlExec (r : ExecResult)
| PlNone.

Definition invalid_box_id (id : string) : string := "invalid box id " +:+ id.

Section Dispatch.
Context {M : Type} `{BoxManager M}.

Definition void (r : M * res string ()) : M * res string Payload :=
  match r with
  | (m, Ok _) => (m, Ok PlNone)
  | (m, Err e) => (m, Err e)
  end.

Definition dispatch (req : Request) (m : M) : M * res string Payload :=
  match req with
  | RqCreate opts =>
      if negb (String.eqb (co_BoxID opts) "") && negb (ValidBoxID (co_BoxID opts))
      then (m, Err (invalid_box_id (co_BoxID opts)))
      else
        match bm_Create opts m with
        | (m', Ok r) => (m', Ok (PlCreated r))
        | (m', Err e) => (m', Err e)
        end
  | RqList => (m, match bm_List m with Ok l => Ok (PlBoxes l) | Err e => Err e end)
  | RqDestroy x => void (bm_Destroy x m)
  | RqPause x => void (bm_Pause x m)
  | RqResume x => void (bm_Resume x m)
  | RqExec x cmd =>
      match bm_Exec x cmd m with
      | (m', Ok r) => (m', Ok (PlExec r))
      | (m', Err e) => (m', Err e)
      end
  | RqSetPolicy b p => void (bm_SetNetworkPolicy b p m)
  | RqMalformed e => (m, Err e)
  | RqUnknown method => (m, Err ("unknown method " +:+ method))
  end.

(** Every state the spoke's manager goes through under requests from the wire. *)
Inductive served (m : M) : M -> Prop :=
| sv_refl : served m m
| sv_step m' req : served m m' -> served m (dispatch req m').1.

(** a spoke never provisions from a malformed name, whatever the hub sends:
    any property of the manager that its own verbs preserve, with creations
    restricted to an empty or valid box id, holds after any sequence of request
    frames, malformed and unknown ones included. *)
Theorem dispatch_guards_box_ids : forall (I : M -> Prop) m m',
  (forall opts x, co_BoxID opts = "" \/ hostname_label (co_BoxID opts) -> I x -> I (bm_Create opts x).1) ->
  (forall id x, I x -> I (bm_Destroy id x).1 /\ I (bm_Pause id x).1 /\ I (bm_Resume id x).1) ->
  (forall id cmd x, I x -> I (bm_Exec id cmd x).1) ->
  (forall b p x, I x -> I (bm_SetNetworkPolicy b p x).1) ->
  I m -> served m m' -> I m'.
Proof.
  intros I m m' Hcreate Hid Hexec Hpol Hm Hs. induction Hs as [|m' req Hs IH]; [done|].
  assert (Hvoid : forall r, I r.1 -> I (void r).1) by (intros [x [[]|e]] Hx; exact Hx).
  destruct req as [opts| |x|x|x|x cmd|b p|e|method]; simpl; try done;
    try (apply Hvoid; by first [apply Hid|apply Hpol]).
  - destruct (negb _ && negb _) eqn:Hv; [done|].
    assert (Hok : co_BoxID opts = "" \/ hostname_label (co_BoxID opts)).
    { destruct (String.eqb (co_BoxID opts) "") eqn:He; bools; [by left|right].
      simpl in Hv. apply boxIDRe_hostname_label. by bools. }
    specialize (Hcreate opts m' Hok IH). by destruct (bm_Create opts m') as [x [r|e]].
  - specialize (Hexec x cmd m' IH). by destruct (bm_Exec x cmd m') as [y [r|e]].
Qed.

End Dispatch.

(** A manager that only remembers the ids of its boxes. *)
Module NameList.

#[local] Instance mgr : BoxManager (list string) := {
  bm_Create opts m := (co_BoxID opts :: m, Ok (MkCreateResult (co_BoxID opts) false "" []));
  bm_List m := Ok [];
  bm_Destroy id m := (filter (fun x => x <> id) m, Ok ());
  bm_Pause id m := (m, Ok ());
  bm_Resume id m := (m, Ok ());
  bm_Exec id cmd m := (m, Err "no guest");
  bm_SetNetworkPolicy b p m := (m, Ok ());
}.

Definition named (id : string) : Prop := id = "" \/ hostname_label id.
Definition bad : CreateOptions := MkCreateOptions "a;b" "" "" [] 0.
Definition good : CreateOptions := MkCreateOptions "web" "" "" [] 0.

End NameList.

Lemma dispatch_guards_box_ids_witness :
  Forall NameList.named ["web"] /\ (dispatch (H := NameList.mgr) (RqCreate NameList.bad) ["web"]).1 = ["web"].
Proof.
  split; [|reflexivity].
  apply (dispatch_guards_box_ids (H := NameList.mgr) (Forall NameList.named) [] ["web"]).
  - intros opts x Hn Hx. by constructor.
  - intros id x Hx. simpl. split_and!; [by eapply Forall_sublist; [apply sublist_filter|]|done|done].
  - done.
  - done.
  - constructor.
  - exact (sv_step (H := NameList.mgr) [] (dispatch (H := NameList.mgr) (RqCreate NameList.good) []).1 (RqCreate NameList.bad)
      (sv_step (H := NameList.mgr) [] [] (RqCreate NameList.good) (sv_refl []))).
Defined.
