(* ===== verification/RemoteManager.v ===== *)
(** * The remote box manager (internal/shared/cluster: remote.go, dispatch.go, proto.go)

    [remoteSpoke] is a [BoxManager] whose verbs cross the connection: a request
    frame down, [handleRequest] in a goroutine of its own on the spoke, a response
    frame up to the waiting call.  [lstep] is one action of one goroutine of
    either side; [encoding/json] is a parameter.  A verb of the spoke's manager is
    one action. *)

From S2P Require Import Prelude GoStrings Sandbox Remote.

Local Open Scope Z_scope.

(** The verb methods of proto.go. *)
Definition methodCreate : string := "create".
Definition methodList : string := "list".
Definition methodDestroy : string := "destroy".
Definition methodPause : string := "pause".
Definition methodResume : string := "resume".
Definition methodExec : string := "exec".
Definition methodSetPolicy : string := "set_policy".

(** [encodePayload] and [decodePayload] on the payload types.  [destroyReq],
    [pauseReq] and [resumeReq] have the same JSON form. *)
Record codec := MkCodec {
  enc_createReq : CreateOptions -> string; dec_createReq : string -> res string CreateOptions;
  enc_empty : string;
  enc_idReq : string -> string; dec_idReq : string -> res string string;
  enc_execReq : string -> list string -> string; dec_execReq : string -> res string (string * list string);
  enc_setPolicyReq : string -> NetworkPolicy -> string; dec_setPolicyReq : string -> res string (string * NetworkPolicy);
  enc_createResp : CreateResult -> string; dec_createResp : string -> res string CreateResult;
  enc_listResp : list Box -> string; dec_listResp : string -> res string (list Box);
  enc_execResp : ExecResult -> string; dec_execResp : string -> res string ExecResult;
}.

(** A request frame. *)
Record reqFrame := MkReq { rq_ID : Z; rq_Method : string; rq_Payload : string }.

Section Remote.
Context (C : codec).

(** The method and payload each verb of [remoteSpoke] sends. *)
Definition call_frame (r : Request) (id : Z) : reqFrame :=
  match r with
  | RqCreate opts => MkReq id methodCreate (enc_createReq C opts)
  | RqList => MkReq id methodList (enc_empty C)
  | RqDestroy x => MkReq id methodDestroy (enc_idReq C x)
  | RqPause x => MkReq id methodPause (enc_idReq C x)
  | RqResume x => MkReq id methodResume (enc_idReq C x)
  | RqExec x cmd => MkReq id methodExec (enc_execReq C x cmd)
  | RqSetPolicy b p => MkReq id methodSetPolicy (enc_setPolicyReq C b p)
  | RqMalformed e => MkReq id "" e
  | RqUnknown method => MkReq id method ""
  end.

(** The decoding half of [dispatch]. *)
Definition decoded {A} (r : res string A) (k : A -> Request) : Request :=
  match r with Ok a => k a | Err e => RqMalformed e end.
Definition decode_request (f : reqFrame) : Request :=
  let m := rq_Method f in
  let p := rq_Payload f in
  if String.eqb m methodCreate then decoded (dec_createReq C p) RqCreate
  else if String.eqb m methodList then RqList
  else if String.eqb m methodDestroy then decoded (dec_idReq C p) RqDestroy
  else if String.eqb m methodPause then decoded (dec_idReq C p) RqPause
  else if String.eqb m methodResume then decoded (dec_idReq C p) RqResume
  else if String.eqb m methodExec then decoded (dec_execReq C p) (fun xc => RqExec xc.1 xc.2)
  else if String.eqb m methodSetPolicy then decoded (dec_setPolicyReq C p) (fun bp => RqSetPolicy bp.1 bp.2)
  else RqUnknown m.

(** The response payload; [nil] is the empty text. *)
Definition encode_payload (p : Payload) : string :=
  match p with
  | PlCreated r => enc_createResp C r
  | PlBoxes l => enc_listResp C l
  | PlExec r => enc_execResp C r
  | PlNone => ""
  end.

Definition response (id : Z) (r : res string Payload) : frame :=
  match r with
  | Ok p => MkFrame id (encode_payload p) ""
  | Err e => MkFrame id "" e
  end.

(** What the verbs of [remoteSpoke] make of the outcome of [call]. *)
Inductive RemoteError := ErrCall (e : CallError) | ErrDecode (msg : string).

Definition reply {A} (dec : string -> res string A) (r : res CallError string) : res RemoteError A :=
  match r with
  | Ok p => match dec p with Ok a => Ok a | Err e => Err (ErrDecode e) end
  | Err e => Err (ErrCall e)
  end.
Definition Create : res CallError string -> res RemoteError CreateResult := reply (dec_createResp C).
Definition List : res CallError string -> res RemoteError (list Box) := reply (dec_listResp C).
Definition Exec : res CallError string -> res RemoteError ExecResult := reply (dec_execResp C).
Definition void_verb (r : res CallError string) : res RemoteError () := reply (fun _ => Ok ()) r.

(** The result of the verb behind a request, as the caller of the [remoteSpoke]
    method sees it. *)
Definition mapped {E A B} (k : A -> B) (r : res E A) : res E B :=
  match r with Ok a => Ok (k a) | Err e => Err e end.
Definition remote_return (r : Request) (out : res CallError string) : res RemoteError Payload :=
  match r with
  | RqCreate _ => mapped PlCreated (Create out)
  | RqList => mapped PlBoxes (List out)
  | RqExec _ _ => mapped PlExec (Exec out)
  | _ => mapped (fun _ => PlNone) (void_verb out)
  end.

(** What is relied on of [encoding/json]: the arguments of a call decode to
    themselves (they do when their text is valid UTF-8).  Only the seven verbs
    are calls of the hub. *)
Definition json_keeps (r : Request) : Prop :=
  match r with
  | RqCreate opts => dec_createReq C (enc_createReq C opts) = Ok opts
  | RqList => True
  | RqDestroy x | RqPause x | RqResume x => dec_idReq C (enc_idReq C x) = Ok x
  | RqExec x cmd => dec_execReq C (enc_execReq C x cmd) = Ok (x, cmd)
  | RqSetPolicy b p => dec_setPolicyReq C (enc_setPolicyReq C b p) = Ok (b, p)
  | RqMalformed _ | RqUnknown _ => False
  end.

(** The same of a result on its way back. *)
Definition json_keeps_result (p : Payload) : Prop :=
  match p with
  | PlCreated r => dec_createResp C (enc_createResp C r) = Ok r
  | PlBoxes l => dec_listResp C (enc_listResp C l) = Ok l
  | PlExec r => dec_execResp C (enc_execResp C r) = Ok r
  | PlNone => True
  end.

Context {M : Type} `{BoxManager M}.

(** [handleRequest]. *)
Definition handleRequest (f : reqFrame) (m : M) : M * frame :=
  let '(m', r) := dispatch (decode_request f) m in (m', response (rq_ID f) r).

(** ** The connection *)

(** One served request: its id, the request and its outcome. *)
Record served_req := MkServed { sq_id : Z; sq_req : Request; sq_res : res string Payload }.

(** The two ends and the frames under way.  [lk_calls] and [lk_owner] record the
    request of each id and the id of each channel, [lk_hist] the requests in the
    order the spoke's manager served them. *)
Record link := MkLink {
  lk_hub : remoteSpoke;
  lk_mgr : M;
  lk_reqs : list reqFrame;
  lk_resps : list frame;
  lk_calls : gmap Z Request;
  lk_owner : gmap nat Z;
  lk_hist : list served_req;
}.

Definition new_link (m : M) : link := MkLink newRemoteSpoke m [] [] ∅ ∅ [].

Inductive laction :=
| LCall (r : Request) (sent : bool)   (* [call], up to its select *)
| LCancel (id : Z)                    (* its context ends *)
| LServe (i : nat) (sent : bool)      (* the goroutine of the i-th request under way *)
| LDeliver                            (* the hub's read loop takes a response *)
| LDown (cause : string).             (* the hub's read loop fails *)

Definition lk_call (r : Request) (sent : bool) (l : link) : option link :=
  if Z.leb (2 ^ 64 - 1) (co_nextID (rs_corr (lk_hub l))) then None
  else
    match remote_call (lk_hub l) with
    | (_, Err _) => Some l
    | (hub, Ok (id, ch)) =>
        let calls := <[id := r]> (lk_calls l) in
        let owner := <[ch := id]> (lk_owner l) in
        Some (if sent
              then MkLink hub (lk_mgr l) (lk_reqs l ++ [call_frame r id]) (lk_resps l) calls owner (lk_hist l)
              else MkLink (MkRemoteSpoke (forget_call id (rs_corr hub)) (rs_closed hub)) (lk_mgr l) (lk_reqs l)
                     (lk_resps l) calls owner (lk_hist l))
    end.

Definition lstep (a : laction) (l : link) : option link :=
  match a with
  | LCall r sent => lk_call r sent l
  | LCancel id =>
      Some (MkLink (MkRemoteSpoke (forget_call id (rs_corr (lk_hub l))) (rs_closed (lk_hub l))) (lk_mgr l) (lk_reqs l)
              (lk_resps l) (lk_calls l) (lk_owner l) (lk_hist l))
  | LServe i sent =>
      match lk_reqs l !! i with
      | None => None
      | Some f =>
          let '(m, resp) := handleRequest f (lk_mgr l) in
          Some (MkLink (lk_hub l) m (delete i (lk_reqs l)) (lk_resps l ++ if sent then [resp] else [])
                  (lk_calls l) (lk_owner l)
                  (lk_hist l ++ [MkServed (rq_ID f) (decode_request f) (dispatch (decode_request f) (lk_mgr l)).2]))
      end
  | LDeliver =>
      match rs_closed (lk_hub l), lk_resps l with
      | None, f :: q =>
          match deliver_response f (rs_corr (lk_hub l)) with
          | Some c => Some (MkLink (MkRemoteSpoke c None) (lk_mgr l) (lk_reqs l) q (lk_calls l) (lk_owner l) (lk_hist l))
          | None => None
          end
      | _, _ => None
      end
  | LDown cause =>
      Some (MkLink (shutdown cause (lk_hub l)) (lk_mgr l) (lk_reqs l) (lk_resps l) (lk_calls l) (lk_owner l) (lk_hist l))
  end.

Fixpoint lrun (acts : list laction) (l : link) : option link :=
  match acts with
  | [] => Some l
  | a :: acts' => match lstep a l with Some l' => lrun acts' l' | None => None end
  end.

(** A verb of the spoke's own manager, called directly: the manager after it and
    its result.  A creation under a malformed box id is refused before it. *)
Inductive performs (m : M) : Request -> M -> res string Payload -> Prop :=
| pf_create opts m' r :
    co_BoxID opts = "" \/ ValidBoxID (co_BoxID opts) = true ->
    bm_Create opts m = (m', r) -> performs m (RqCreate opts) m' (mapped PlCreated r)
| pf_create_refused opts :
    co_BoxID opts <> "" -> ValidBoxID (co_BoxID opts) = false ->
    performs m (RqCreate opts) m (Err (invalid_box_id (co_BoxID opts)))
| pf_list : performs m RqList m (mapped PlBoxes (bm_List m))
| pf_destroy x m' r : bm_Destroy x m = (m', r) -> performs m (RqDestroy x) m' (mapped (fun _ => PlNone) r)
| pf_pause x m' r : bm_Pause x m = (m', r) -> performs m (RqPause x) m' (mapped (fun _ => PlNone) r)
| pf_resume x m' r : bm_Resume x m = (m', r) -> performs m (RqResume x) m' (mapped (fun _ => PlNone) r)
| pf_exec x cmd m' r : bm_Exec x cmd m = (m', r) -> performs m (RqExec x cmd) m' (mapped PlExec r)
| pf_policy b p m' r :
    bm_SetNetworkPolicy b p m = (m', r) -> performs m (RqSetPolicy b p) m' (mapped (fun _ => PlNone) r).

(** The local manager, used directly: the calls of [h] one after the other
    from [m] end in [m'] with the recorded outcomes. *)
Inductive serves (m : M) : list served_req -> M -> Prop :=
| serves_nil : serves m [] m
| serves_snoc h m' id r m'' out :
    serves m h m' -> performs m' r m'' out -> serves m (h ++ [MkServed id r out]) m''.

(** The spoke decodes the call the hub made. *)
Lemma decode_call_frame r id : json_keeps r -> decode_request (call_frame r id) = r.
Proof. destruct r; simpl; try done; cbn; by intros ->. Qed.

(** Its dispatch calls the verb of that request. *)
Lemma dispatch_performs r m : json_keeps r -> performs m r (dispatch r m).1 (dispatch r m).2.
Proof.
  assert (Hv : forall q : M * res string (), void q = (q.1, mapped (fun _ => PlNone) q.2)) by (intros [? [[]|]]; done).
  destruct r as [opts| |x|x|x|x cmd|b p|e|method]; simpl; intros Hj; try done; rewrite ?Hv; simpl; try (constructor; apply surjective_pairing).
  - destruct (String.eqb_spec (co_BoxID opts) "") as [He|He]; [|destruct (ValidBoxID (co_BoxID opts)) eqn:Hid]; simpl.
    1,2: destruct (bm_Create opts m) as [m' [q|e]] eqn:Hc; simpl; [apply (pf_create _ _ _ (Ok q))|apply (pf_create _ _ _ (Err e))]; by auto.
    by apply pf_create_refused.
  - destruct (bm_Exec x cmd m) as [m' [q|e]] eqn:Hc; simpl; [apply (pf_exec _ _ _ _ (Ok q))|apply (pf_exec _ _ _ _ (Err e))]; done.
Qed.

Lemma call_frame_id r id : rq_ID (call_frame r id) = id.
Proof. by destruct r. Qed.
Lemma response_id id r : f_ID (response id r) = id.
Proof. by destruct r. Qed.

(** ** The invariant *)

Record link_inv (m0 : M) (l : link) : Prop := MkLinkInv {
  li_corr : corr_inv (rs_corr (lk_hub l), lk_owner l);
  li_calls : forall id r, lk_calls l !! id = Some r -> id <= co_nextID (rs_corr (lk_hub l)) /\ json_keeps r;
  li_reqs : forall f, f ∈ lk_reqs l -> exists r, lk_calls l !! rq_ID f = Some r /\ f = call_frame r (rq_ID f);
  li_ids : NoDup ((rq_ID <$> lk_reqs l) ++ (sq_id <$> lk_hist l));
  li_hist : forall e, e ∈ lk_hist l -> exists r, lk_calls l !! sq_id e = Some r /\ sq_req e = r;
  li_resps : forall f, f ∈ lk_resps l -> exists e, e ∈ lk_hist l /\ f = response (sq_id e) (sq_res e);
  li_chans : forall ch f, co_chans (rs_corr (lk_hub l)) !! ch = Some (CFrame f) ->
    exists e, e ∈ lk_hist l /\ f = response (sq_id e) (sq_res e);
  li_serves : serves m0 (lk_hist l) (lk_mgr l);
}.

Lemma new_link_inv m : link_inv m (new_link m).
Proof. by constructor; simpl; try set_solver; try apply NoDup_nil_2; try apply corr_inv_init; constructor. Qed.

(** A step of the hub's correlator that delivers no frame. *)
Lemma hub_step_inv m0 l hub owner :
  link_inv m0 l -> corr_inv (rs_corr hub, owner) ->
  co_nextID (rs_corr (lk_hub l)) <= co_nextID (rs_corr hub) ->
  (forall ch f, co_chans (rs_corr hub) !! ch = Some (CFrame f) -> co_chans (rs_corr (lk_hub l)) !! ch = Some (CFrame f)) ->
  link_inv m0 (MkLink hub (lk_mgr l) (lk_reqs l) (lk_resps l) (lk_calls l) owner (lk_hist l)).
Proof.
  intros I Hc Hn Hch. destruct I. constructor; simpl; auto.
  - intros id r Hl. destruct (li_calls0 _ _ Hl). split; [lia|done].
  - intros ch f Hf. eauto.
Qed.

Lemma forget_inv m0 l id :
  link_inv m0 l ->
  link_inv m0 (MkLink (MkRemoteSpoke (forget_call id (rs_corr (lk_hub l))) (rs_closed (lk_hub l))) (lk_mgr l)
    (lk_reqs l) (lk_resps l) (lk_calls l) (lk_owner l) (lk_hist l)).
Proof.
  intros I. apply hub_step_inv; simpl; auto; [|done].
  eapply corr_step_inv; [apply cs_forget|apply I].
Qed.

Lemma down_inv m0 l cause :
  link_inv m0 l ->
  link_inv m0 (MkLink (shutdown cause (lk_hub l)) (lk_mgr l)
    (lk_reqs l) (lk_resps l) (lk_calls l) (lk_owner l) (lk_hist l)).
Proof.
  intros I. unfold shutdown. destruct (rs_closed (lk_hub l)); [by destruct l|].
  apply hub_step_inv; cbn [rs_corr]; [done| | |].
  - eapply corr_step_inv; [apply cs_close|apply I].
  - done.
  - intros ch f. rewrite lookup_close_pending. case_decide; [|done]. by destruct (_ !! ch).
Qed.

Lemma call_inv m0 r (sent : bool) l l' : json_keeps r -> link_inv m0 l -> lk_call r sent l = Some l' -> link_inv m0 l'.
Proof.
  intros Hj I Hl. unfold lk_call in Hl. destruct (Z.leb_spec (2 ^ 64 - 1) (co_nextID (rs_corr (lk_hub l)))) as [|Hlt]; [done|].
  unfold remote_call in Hl. destruct (rs_closed (lk_hub l)); [by simplify_eq|].
  destruct (register_call (rs_corr (lk_hub l))) as [c [id ch]] eqn:Hreg.
  assert (Hstep : corr_step (rs_corr (lk_hub l), lk_owner l) (c, <[ch := id]> (lk_owner l))) by (constructor; [done|lia]).
  pose proof (corr_step_inv _ _ Hstep (li_corr _ _ I)) as Hc.
  pose proof (register_fresh _ _ _ _ Hreg) as Hfr.
  destruct (li_corr _ _ I) as [_ _ _ _ Hrange]. simpl in Hrange.
  assert (Hid : id = co_nextID (rs_corr (lk_hub l)) + 1 /\ co_nextID c = id /\ co_chans c = <[ch := CEmpty]> (co_chans (rs_corr (lk_hub l)))).
  { unfold register_call, next_uint64 in Hreg. injection Hreg as <- <- <-. simpl. rewrite Z.mod_small by lia. done. }
  destruct Hid as (Hid & Hnext & Hchans).
  assert (Hnew : lk_calls l !! id = None).
  { destruct (lk_calls l !! id) eqn:He; [|done]. apply (li_calls _ _ I) in He. lia. }
  assert (Hwhole : link_inv m0 (MkLink (MkRemoteSpoke c None) (lk_mgr l) (lk_reqs l ++ [call_frame r id]) (lk_resps l)
      (<[id := r]> (lk_calls l)) (<[ch := id]> (lk_owner l)) (lk_hist l))).
  { destruct I. constructor; simpl; auto.
    - intros id' r'. rewrite lookup_insert_Some. intros [[<- <-]|[_ Hl']]; [split; [lia|done]|]. destruct (li_calls0 _ _ Hl'). split; [lia|done].
    - intros f. rewrite elem_of_app, list_elem_of_singleton. intros [Hf| ->].
      + destruct (li_reqs0 f Hf) as (r' & Hr' & Hf'). exists r'. split; [|done]. rewrite lookup_insert_ne by congruence. done.
      + exists r. rewrite call_frame_id. by rewrite lookup_insert_eq.
    - rewrite fmap_app, <- app_assoc. simpl. rewrite call_frame_id, <- Permutation_middle. constructor; [|done].
      rewrite elem_of_app, !list_elem_of_fmap. intros [(f & -> & Hf)|(e & -> & He)].
      + destruct (li_reqs0 f Hf) as (r' & Hr' & _). congruence.
      + destruct (li_hist0 e He) as (r' & Hr' & _). congruence.
    - intros e He. destruct (li_hist0 e He) as (r' & Hr' & Hq). exists r'. split; [|done]. rewrite lookup_insert_ne by congruence. done.
    - intros ch' f. rewrite Hchans. rewrite lookup_insert. case_decide; [done|]. apply li_chans0. }
  destruct sent; simplify_eq/=; [done|].
  pose proof (forget_inv m0 _ (co_nextID (rs_corr (lk_hub l)) + 1) Hwhole) as Hf. destruct Hf. simpl in *. constructor; simpl; auto.
  - intros f Hf. apply li_reqs0. set_solver.
  - rewrite fmap_app, <- app_assoc in li_ids0. apply NoDup_app in li_ids0 as (H1 & H2 & H3).
    apply NoDup_app in H3 as (_ & _ & H3). apply NoDup_app. split_and!; auto. intros x Hx Hx2. eapply H2; [done|].
    apply elem_of_app. by right.
Qed.

Lemma serve_inv m0 i (sent : bool) l l' : link_inv m0 l -> lstep (LServe i sent) l = Some l' -> link_inv m0 l'.
Proof.
  intros I Hl. simpl in Hl. destruct (lk_reqs l !! i) as [f|] eqn:Hi; [|done].
  unfold handleRequest in Hl. destruct (dispatch (decode_request f) (lk_mgr l)) as [m r] eqn:Hd. simplify_eq.
  assert (Hp : lk_reqs l ≡ₚ f :: delete i (lk_reqs l)) by (by apply delete_Permutation).
  destruct I. destruct (li_reqs0 f) as (q & Hq & Hf); [by eapply list_elem_of_lookup_2|].
  constructor; simpl; auto.
  - intros g Hg. apply li_reqs0. rewrite Hp. by right.
  - rewrite fmap_app, app_assoc. simpl. rewrite <- Permutation_cons_append.
    rewrite Hp in li_ids0. done.
  - intros e. rewrite elem_of_app, list_elem_of_singleton. intros [He| ->]; [auto|]. simpl. exists q. split; [done|].
    rewrite Hf. apply decode_call_frame. by apply (li_calls0 (rq_ID f)).
  - intros g. rewrite elem_of_app. intros [Hg|Hg].
    + destruct (li_resps0 g Hg) as (e & He & ->). exists e. split; [|done]. apply elem_of_app. by left.
    + destruct sent; [|by apply not_elem_of_nil in Hg]. apply list_elem_of_singleton in Hg as ->.
      eexists. split; [apply elem_of_app; right; by apply list_elem_of_singleton|]. done.
  - intros ch g Hg. destruct (li_chans0 ch g Hg) as (e & He & ->). exists e. split; [|done]. apply elem_of_app. by left.
  - assert (Hdec : decode_request f = q) by (rewrite Hf; apply decode_call_frame; by apply (li_calls0 (rq_ID f))).
    assert (Hjq : json_keeps q) by (by apply (li_calls0 (rq_ID f))).
    pose proof (dispatch_performs q (lk_mgr l) Hjq) as Hs. rewrite Hdec, Hd in *. by eapply serves_snoc.
Qed.

Lemma deliver_inv m0 l l' : link_inv m0 l -> lstep LDeliver l = Some l' -> link_inv m0 l'.
Proof.
  intros I Hl. simpl in Hl. destruct (rs_closed (lk_hub l)); [done|]. destruct (lk_resps l) as [|f q] eqn:Hq; [done|].
  destruct (deliver_response f (rs_corr (lk_hub l))) as [c|] eqn:Hd; simplify_eq.
  assert (Hc : corr_inv (c, lk_owner l)).
  { eapply corr_step_inv; [by eapply (cs_response _ _ f)|apply I]. }
  destruct I. rewrite Hq in li_resps0.
  assert (Hn : co_nextID c = co_nextID (rs_corr (lk_hub l)) /\ forall ch g, co_chans c !! ch = Some (CFrame g) ->
     g = f \/ co_chans (rs_corr (lk_hub l)) !! ch = Some (CFrame g)).
  { unfold deliver_response in Hd. destruct (co_pending _ !! _); [|by simplify_eq/=; auto].
    destruct (co_chans _ !! n) as [[]|]; simplify_eq/=. split; [done|]. intros ch g. rewrite lookup_insert.
    case_decide; [|by auto]. intros [= <-]. by left. }
  destruct Hn as [Hn Hch]. constructor; simpl; auto.
  - rewrite Hn. done.
  - intros g Hg. apply li_resps0. by right.
  - intros ch g Hg. destruct (Hch _ _ Hg) as [->|Hg']; [|eauto]. apply li_resps0. by left.
Qed.

Lemma lrun_inv m0 acts l l' : (forall r sent, LCall r sent ∈ acts -> json_keeps r) -> link_inv m0 l -> lrun acts l = Some l' -> link_inv m0 l'.
Proof.
  revert l. induction acts as [|a acts IH]; simpl; intros l Hj I Hr; [by simplify_eq|].
  destruct (lstep a l) as [l1|] eqn:Hs; [|done]. apply (IH l1); [set_solver| |done].
  destruct a; simpl in Hs; [eapply call_inv; [eapply Hj; left|done..]|simplify_eq; by apply forget_inv|by eapply serve_inv
    |by eapply deliver_inv|simplify_eq; by apply down_inv].
Qed.

(** ** What the hub can rely on *)

(** The outcome a call makes of the outcome of its verb: an error without a
    message arrives as a success. *)
Definition call_outcome (r : res string Payload) : res CallError string :=
  match r with
  | Ok p => Ok (encode_payload p)
  | Err e => if String.eqb e "" then Ok "" else Err (ErrVerb e)
  end.

Lemma frame_outcome ch c id r :
  co_chans c !! ch = Some (CFrame (response id r)) -> call_result ch c = Some (call_outcome r).
Proof.
  unfold call_result. intros ->. destruct r as [p|e]; simpl; [done|]. by destruct (String.eqb_spec e "") as [->|].
Qed.

(** The result the hub's caller sees of a verb with result [out]. *)
Definition as_returned (out : res string Payload) : res RemoteError Payload :=
  match out with Ok p => Ok p | Err e => Err (ErrCall (ErrVerb e)) end.

Lemma performs_payload m r m' p : performs m r m' (Ok p) ->
  match r, p with
  | RqCreate _, PlCreated _ | RqList, PlBoxes _ | RqExec _ _, PlExec _ => True
  | RqDestroy _, PlNone | RqPause _, PlNone | RqResume _, PlNone | RqSetPolicy _ _, PlNone => True
  | _, _ => False
  end.
Proof.
  inversion 1; subst; repeat match goal with H : mapped _ ?x = Ok _ |- _ => destruct x; simplify_eq/= end; done.
Qed.

(** The tail of each verb of [remoteSpoke] gives back the result. *)
Lemma remote_return_outcome m r m' out :
  performs m r m' out -> out <> Err "" -> (forall p, out = Ok p -> json_keeps_result p) ->
  remote_return r (call_outcome out) = as_returned out.
Proof.
  intros Hp He Hk. destruct out as [p|e].
  - pose proof (performs_payload _ _ _ _ Hp) as Hty. specialize (Hk p eq_refl).
    destruct r, p; try done; simpl in Hk |- *; unfold Create, List, Exec, reply; by rewrite Hk.
  - simpl. destruct (String.eqb_spec e ""); [congruence|]. by destruct r.
Qed.

(** A served request was performed. *)
Lemma serves_performs m h m' id r out :
  serves m h m' -> MkServed id r out ∈ h -> exists m1 m2, performs m1 r m2 out.
Proof.
  induction 1 as [|h m1 id' r' m2 out' Hs IH Hp]; [by intros ?%not_elem_of_nil|].
  rewrite elem_of_app, list_elem_of_singleton. intros [Hin|Heq]; [by apply IH|]. simplify_eq. eauto.
Qed.

(** C9: the remote manager is the spoke's manager.  Whatever calls of its verbs
    the hub makes, concurrently and with cancellations and disconnections, and in
    whatever order the spoke's goroutines serve them: the spoke's manager is in
    the state that exactly these verbs ([Create], [List], [Destroy], [Pause],
    [Resume], [Exec], [SetNetworkPolicy], with the hub's own arguments) reach when
    called on it directly, one after the other in the order [lk_hist], a creation
    under a malformed box id refused before it; each call is served at most once;
    and a call that returns without the disconnection error returns to the hub's
    caller the result its own verb had there.  Assumed: each verb of the spoke's
    manager is one action, the arguments and the result survive encoding/json, at
    most 2^64 - 1 calls on a connection, and the verb's error, if any, has a
    message (an empty one is not seen as an error). *)
Theorem remote_manager_is_the_manager : forall m0 acts l,
  (forall r sent, LCall r sent ∈ acts -> json_keeps r) ->
  lrun acts (new_link m0) = Some l ->
  serves m0 (lk_hist l) (lk_mgr l) /\
  NoDup (sq_id <$> lk_hist l) /\
  (forall id r out, MkServed id r out ∈ lk_hist l -> lk_calls l !! id = Some r) /\
  (forall ch id r out,
     lk_owner l !! ch = Some id -> lk_calls l !! id = Some r ->
     call_result ch (rs_corr (lk_hub l)) = Some out ->
     out = Err ErrDisconnected \/
     exists res, MkServed id r res ∈ lk_hist l /\
       (res <> Err "" -> (forall p, res = Ok p -> json_keeps_result p) -> remote_return r out = as_returned res)).
Proof.
  intros m0 acts l Hj Hr. pose proof (lrun_inv _ _ _ _ Hj (new_link_inv m0) Hr) as I. destruct I. split_and!; [done| | |].
  - by apply NoDup_app in li_ids0 as (_ & _ & ?).
  - intros id r out Hin. destruct (li_hist0 _ Hin) as (r' & Hr' & Hq). simpl in *. congruence.
  - intros ch id r out Hown Hcall Hout. destruct (co_chans (rs_corr (lk_hub l)) !! ch) as [[|f|]|] eqn:Hch;
      unfold call_result in Hout; rewrite Hch in Hout; simplify_eq; [|by left].
    right. destruct (li_chans0 _ _ Hch) as ([id' q rs] & He & ->). simpl in *.
    destruct li_corr0 as [_ Hf _ _ _]. specialize (Hf _ _ Hch). simpl in Hf. rewrite response_id in Hf. simplify_eq.
    destruct (li_hist0 _ He) as (r' & Hr' & Hq). simpl in *. simplify_eq.
    exists rs. split; [done|]. intros Hne Hk. pose proof (frame_outcome _ _ _ _ Hch) as Ho. unfold call_result in Ho.
    rewrite Hch in Ho. injection Ho as ->. destruct (serves_performs _ _ _ _ _ _ li_serves0 He) as (m1 & m2 & Hp).
    by eapply remote_return_outcome.
Qed.

(** Delivering the response of another call. *)
Lemma deliver_other m0 l f q id ch :
  link_inv m0 l -> rs_closed (lk_hub l) = None -> lk_resps l = f :: q -> f_ID f <> id ->
  co_pending (rs_corr (lk_hub l)) !! id = Some ch ->
  exists l', lstep LDeliver l = Some l' /\ lk_resps l' = q /\ rs_closed (lk_hub l') = None /\ lk_mgr l' = lk_mgr l /\
    co_pending (rs_corr (lk_hub l')) !! id = Some ch.
Proof.
  intros I Hc Hq Hne Hp. destruct (li_corr _ _ I) as [Hpend _ _ _ _]. simpl in Hpend. simpl. rewrite Hc, Hq.
  unfold deliver_response. destruct (co_pending _ !! f_ID f) as [ch'|] eqn:Hf.
  - destruct (Hpend _ _ Hf) as [_ ->]. eexists. split; [done|]. simpl. by rewrite lookup_delete_ne by done.
  - eexists. split; [done|]. simpl. by rewrite lookup_delete_ne by done.
Qed.

Lemma deliver_all m0 l qs f ch :
  link_inv m0 l -> rs_closed (lk_hub l) = None -> lk_resps l = qs ++ [f] ->
  Forall (fun g => f_ID g <> f_ID f) qs -> co_pending (rs_corr (lk_hub l)) !! f_ID f = Some ch ->
  exists l', lrun (replicate (S (length qs)) LDeliver) l = Some l' /\ lk_mgr l' = lk_mgr l /\
    co_chans (rs_corr (lk_hub l')) !! ch = Some (CFrame f).
Proof.
  revert l. induction qs as [|g qs IH]; intros l I Hc Hq Hall Hp.
  - destruct (li_corr _ _ I) as [Hpend _ _ _ _]. simpl in Hpend. simpl. rewrite Hc, Hq. simpl.
    unfold deliver_response. rewrite Hp. destruct (Hpend _ _ Hp) as [_ ->]. eexists. split; [done|]. simpl.
    split; [done|]. by rewrite lookup_insert_eq.
  - apply Forall_cons in Hall as [Hg Hall].
    destruct (deliver_other _ _ g (qs ++ [f]) _ _ I Hc Hq Hg Hp) as (l1 & Hs & Hr1 & Hc1 & Hm1 & Hp1).
    destruct (IH l1) as (l' & Hl' & Hm & Hch); try done; [by eapply deliver_inv|].
    exists l'. change (replicate (S (length (g :: qs))) LDeliver) with (LDeliver :: replicate (S (length qs)) LDeliver).
    cbn [lrun]. rewrite Hs. split; [done|]. split; [congruence|done].
Qed.

(** A call on a live connection completes, whatever else is under way: once its
    own request is served and the responses ahead of its own are delivered, it
    returns the outcome of the verb on the manager. *)
Theorem call_completes : forall m0 acts l r,
  (forall q sent, LCall q sent ∈ acts -> json_keeps q) -> json_keeps r ->
  lrun acts (new_link m0) = Some l -> rs_closed (lk_hub l) = None -> co_nextID (rs_corr (lk_hub l)) < 2 ^ 64 - 1 ->
  exists l' ch out,
    lrun ([LCall r true; LServe (length (lk_reqs l)) true] ++ replicate (S (length (lk_resps l))) LDeliver) l = Some l' /\
    performs (lk_mgr l) r (lk_mgr l') out /\ call_result ch (rs_corr (lk_hub l')) = Some (call_outcome out).
Proof.
  intros m0 acts l r Hjs Hj Hr Hc Hn. pose proof (lrun_inv _ _ _ _ Hjs (new_link_inv m0) Hr) as I. clear Hr.
  destruct (lstep (LCall r true) l) as [l1|] eqn:H1; cycle 1.
  { simpl in H1. unfold lk_call, remote_call in H1. destruct (Z.leb_spec (2 ^ 64 - 1) (co_nextID (rs_corr (lk_hub l)))); [lia|].
    by rewrite Hc in H1. }
  pose proof (call_inv _ _ _ _ _ Hj I H1) as I1. cbn [app lrun]. rewrite H1. simpl in H1.
  unfold lk_call, remote_call in H1. destruct (Z.leb_spec (2 ^ 64 - 1) (co_nextID (rs_corr (lk_hub l)))); [done|].
  rewrite Hc in H1. destruct (register_call (rs_corr (lk_hub l))) as [c [id ch]] eqn:Hreg. injection H1 as <-.
  set (l1 := MkLink _ _ _ _ _ _ _) in *.
  assert (Hpend : co_pending c !! id = Some ch).
  { unfold register_call in Hreg. injection Hreg as <- <- <-. simpl. by rewrite lookup_insert_eq. }
  assert (Hi : lk_reqs l1 !! length (lk_reqs l) = Some (call_frame r id)) by (by apply list_lookup_middle).
  destruct (lstep (LServe (length (lk_reqs l)) true) l1) as [l2|] eqn:H2; cycle 1.
  { cbn [lstep] in H2. rewrite Hi in H2. by destruct (handleRequest _ _). }
  pose proof (serve_inv _ _ _ _ _ I1 H2) as I2. cbn [lstep] in H2. rewrite Hi in H2. unfold handleRequest in H2.
  rewrite decode_call_frame, call_frame_id in H2 by done. change (lk_mgr l1) with (lk_mgr l) in H2.
  destruct (dispatch r (lk_mgr l)) as [m rs] eqn:Hd. injection H2 as Hl2.
  destruct (deliver_all m0 l2 (lk_resps l) (response id rs) ch) as (l' & Hl' & Hm & Hch).
  - done.
  - by rewrite <- Hl2.
  - by rewrite <- Hl2.
  - rewrite Forall_forall. intros g Hg. destruct (li_resps _ _ I _ Hg) as (e & He & ->). rewrite !response_id. intros Heq.
    destruct (li_hist _ _ I _ He) as (r' & Hr' & _). apply (li_calls _ _ I) in Hr'.
    destruct (li_corr _ _ I) as [_ _ _ _ Hrange]. simpl in Hrange.
    unfold register_call, next_uint64 in Hreg. injection Hreg as _ Hid _. rewrite Z.mod_small in Hid by lia. lia.
  - rewrite response_id, <- Hl2. done.
  - exists l', ch, rs. split; [done|]. split; [pose proof (dispatch_performs r (lk_mgr l) Hj) as Hp; rewrite Hd in Hp; by rewrite Hm, <- Hl2|]. by eapply frame_outcome.
Qed.
End Remote.

(** ** A concrete connection *)

Module RemoteDemo.

(** A codec for the verbs that name a box. *)
Definition text_codec : codec :=
  MkCodec co_BoxID (fun s => Ok (MkCreateOptions s "" "" [] 0)) "" (fun x => x) (fun s => Ok s)
    (fun x _ => x) (fun s => Ok (s, [])) (fun b _ => b) (fun s => Err "no policy")
    cr_InstanceID (fun s => Ok (MkCreateResult s false "" [])) (fun _ => "") (fun _ => Ok []) (fun _ => "")
    (fun _ => Err "no exec").

Definition web : CreateOptions := MkCreateOptions "web" "" "" [] 0.
Definition acts : list laction :=
  [LCall (RqCreate web) true; LCall (RqDestroy "old") true; LServe 1 true; LCancel 2; LServe 0 true; LDeliver; LDeliver].

End RemoteDemo.

Lemma remote_manager_is_the_manager_witness :
  match lrun (H := NameList.mgr) RemoteDemo.text_codec RemoteDemo.acts (new_link ["old"]) with
  | Some l =>
      serves (H := NameList.mgr) ["old"] (lk_hist l) ["web"] /\
      sq_id <$> lk_hist l = [2; 1] /\ sq_req <$> lk_hist l = [RqDestroy "old"; RqCreate RemoteDemo.web] /\
      call_result 0 (rs_corr (lk_hub l)) = Some (Ok "web") /\
      remote_return RemoteDemo.text_codec (RqCreate RemoteDemo.web) (Ok "web") = Ok (PlCreated (MkCreateResult "web" false "" []))
  | None => False
  end.
Proof.
  destruct (lrun RemoteDemo.text_codec RemoteDemo.acts (new_link ["old"])) as [l|] eqn:Hr; [|by vm_compute in Hr].
  pose proof (remote_manager_is_the_manager (H := NameList.mgr) RemoteDemo.text_codec ["old"] RemoteDemo.acts l) as (H1 & H2 & _ & H3).
  - intros r sent Hin. unfold RemoteDemo.acts in Hin. rewrite !elem_of_cons, elem_of_nil in Hin.
    by destruct Hin as [[= -> _]|[[= -> _]|[?|[?|[?|[?|[?|[]]]]]]]].
  - exact Hr.
  - vm_compute in Hr. injection Hr as <-. split; [exact H1|]. split; [reflexivity|]. split; [reflexivity|]. split; [reflexivity|].
    destruct (H3 0%nat 1 (RqCreate RemoteDemo.web) (Ok "web")) as [?|(res & Hin & Hret)]; [reflexivity..|discriminate|].
    simpl in Hin. rewrite !elem_of_cons, elem_of_nil in Hin. destruct Hin as [Hin|[Hin|[]]]; [discriminate|].
    injection Hin as ->. apply Hret; [discriminate|]. intros p Hp. injection Hp as <-. reflexivity.
Defined.
