(* ===== verification/Registry.v ===== *)
(** * The hub's box registry and proxies (internal/hub/server.go, proxy.go, boxports.go)

    The server's state ([Server]) is the in-memory registry [byToken] of
    sessions, the box ids claimed by creations in flight, the stored box and
    proxy tables, the cluster registry of [Enroll] (settings, enrolled spokes,
    live connections), one remote manager per connection, and the trace of the
    [box.destroy] hook calls.  Here: the session and its stored form, routing to
    a spoke, resolving a box id, publishing ports as proxies, and the port and
    audit requests that arrive from spokes.  [Boxes] adds the life of a box.

    Go ranges over a map in an unspecified order; [map_to_list] stands for it
    where the result does not depend on it, and a theorem says that it does not.
    [time.Time] is in nanoseconds, and the zero [LastSeen] is [None]. *)

From S2P Require Import Prelude GoStrings Regex Sandbox Store Sha256 Enroll Remote.

Local Open Scope Z_scope.

(** ** Tokens as an order *)

Lemma ltb_compare a b : String.ltb a b = true <-> String.compare a b = Lt.
Proof. unfold String.ltb. destruct (String.compare a b); naive_solver. Qed.

Lemma ltb_leb a b : String.ltb a b = negb (String.leb b a).
Proof.
  unfold String.ltb, String.leb. rewrite (String.compare_antisym a b).
  by destruct (String.compare b a).
Qed.

Lemma ltb_irrefl a : String.ltb a a = false.
Proof. rewrite ltb_leb. destruct (String.leb_total a a) as [->| ->]; done. Qed.

Lemma ltb_total a b : a <> b -> String.ltb a b = true \/ String.ltb b a = true.
Proof.
  intros Hne. rewrite !ltb_leb. destruct (String.leb b a) eqn:E1, (String.leb a b) eqn:E2; auto.
  destruct Hne. by apply String.leb_antisym.
Qed.

Lemma ltb_trans a b c : String.ltb a b = true -> String.ltb b c = true -> String.ltb a c = true.
Proof.
  rewrite !ltb_leb, !negb_true_iff. intros H1 H2. apply not_true_iff_false. intros H3.
  assert (Hle : String.le b a).
  { transitivity c; unfold String.le; [|by rewrite H3].
    destruct (String.leb_total b c) as [-> | H]; [done|]. congruence. }
  unfold String.le in Hle. by rewrite H1 in Hle.
Qed.

(** ** Sessions *)

(** [BoxState] is a [Lifecycle]: a record without one ("" in an old database)
    is a running box, and the code only ever compares it with "terminated". *)
Record session := MkSession {
  ss_Token : string;
  ss_Generation : string;
  ss_CreatedAt : Z;
  ss_HookState : option (gmap string string);
  ss_BoxID : string;
  ss_Description : string;
  ss_SpokeName : string;
  ss_Phase : string;
  ss_InitError : string;
  ss_BoxState : Lifecycle;
  ss_LastSeen : option Z;
  ss_Name : string;
  ss_Image : string;
  ss_InstanceState : string;
}.

Definition terminated (s : session) : bool := bool_decide (ss_BoxState s = LifecycleTerminated).
Definition paused (s : session) : bool := String.eqb (ss_InstanceState s) StatePaused.

Definition persistLocked (s : session) : BoxRow :=
  MkBoxRow (ss_Token s) (ss_Generation s) (ss_BoxID s) (ss_SpokeName s) (ss_Description s)
    (ss_Phase s) (ss_InitError s) (ss_HookState s) (ss_BoxState s) (ss_CreatedAt s)
    (ss_Name s) (ss_Image s) (ss_InstanceState s) (ss_LastSeen s).

Definition sessionFromPersisted (ps : BoxRow) : session :=
  MkSession (br_Token ps) (br_InstanceID ps) (br_CreatedAt ps) (br_HookState ps) (br_BoxID ps)
    (br_Description ps) (br_Spoke ps) (br_Status ps) (br_LastError ps) (br_Lifecycle ps)
    (br_ObservedAt ps) (br_ObservedName ps) (br_ObservedImage ps) (br_ObservedState ps).

(** ** The server *)

Record Server (M : Type) := MkServer {
  sv_core : HubServer ClusterDB;
  sv_remotes : gmap nat M;
  sv_byToken : gmap string session;
  sv_pending : gset string;
  sv_boxes : BoxTable;
  sv_proxies : gmap string ProxyRecord;
  sv_audit : AuditTable;
  sv_proxyBaseDomain : string;
  sv_hooks : option (list string);
  sv_destroyed : list (string * string * gmap string string);
}.
Arguments MkServer {M}.
Arguments sv_core {M}.
Arguments sv_remotes {M}.
Arguments sv_byToken {M}.
Arguments sv_pending {M}.
Arguments sv_boxes {M}.
Arguments sv_proxies {M}.
Arguments sv_audit {M}.
Arguments sv_proxyBaseDomain {M}.
Arguments sv_hooks {M}.
Arguments sv_destroyed {M}.

Inductive HubError :=
| ErrNoDefaultSpoke | ErrNotConnected (spoke : string) | ErrRemote (msg : string)
| ErrBoxIDRequired | ErrInvalidID | ErrIDInUse (spoke : string) | ErrIDPending
| ErrHook | ErrToken | ErrCommand | ErrNoBox | ErrTerminated | ErrPaused
| ErrSpokeOffline (e : HubError)
| ErrProxyDisabled | ErrPort | ErrSlug | ErrNoProxy | ErrNotOnSpoke.

Section Server.
Context {M : Type} `{!BoxManager M}.
Implicit Types (s : Server M).

Definition with_remotes (r : gmap nat M) s : Server M :=
  MkServer (sv_core s) r (sv_byToken s) (sv_pending s) (sv_boxes s) (sv_proxies s) (sv_audit s)
    (sv_proxyBaseDomain s) (sv_hooks s) (sv_destroyed s).
Definition with_byToken (t : gmap string session) s : Server M :=
  MkServer (sv_core s) (sv_remotes s) t (sv_pending s) (sv_boxes s) (sv_proxies s) (sv_audit s)
    (sv_proxyBaseDomain s) (sv_hooks s) (sv_destroyed s).
Definition with_pending (p : gset string) s : Server M :=
  MkServer (sv_core s) (sv_remotes s) (sv_byToken s) p (sv_boxes s) (sv_proxies s) (sv_audit s)
    (sv_proxyBaseDomain s) (sv_hooks s) (sv_destroyed s).
Definition with_boxes (b : BoxTable) s : Server M :=
  MkServer (sv_core s) (sv_remotes s) (sv_byToken s) (sv_pending s) b (sv_proxies s) (sv_audit s)
    (sv_proxyBaseDomain s) (sv_hooks s) (sv_destroyed s).
Definition with_proxies (p : gmap string ProxyRecord) s : Server M :=
  MkServer (sv_core s) (sv_remotes s) (sv_byToken s) (sv_pending s) (sv_boxes s) p (sv_audit s)
    (sv_proxyBaseDomain s) (sv_hooks s) (sv_destroyed s).
Definition with_audit (a : AuditTable) s : Server M :=
  MkServer (sv_core s) (sv_remotes s) (sv_byToken s) (sv_pending s) (sv_boxes s) (sv_proxies s) a
    (sv_proxyBaseDomain s) (sv_hooks s) (sv_destroyed s).
Definition with_destroyed (l : list (string * string * gmap string string)) s : Server M :=
  MkServer (sv_core s) (sv_remotes s) (sv_byToken s) (sv_pending s) (sv_boxes s) (sv_proxies s)
    (sv_audit s) (sv_proxyBaseDomain s) (sv_hooks s) l.

(** ** Routing *)

(** [spoke]: the live connection of a spoke. *)
Definition spoke (name : string) s : res HubError nat :=
  let route name' :=
    match hs_hub (sv_core s) with
    | Some h => match Spoke name' h with Some c => Ok c | None => Err (ErrNotConnected name') end
    | None => Err (ErrNotConnected name')
    end in
  if String.eqb name "" then
    let def := DefaultSpoke (sv_core s) in
    if String.eqb def "" then Err ErrNoDefaultSpoke else route def
  else route name.

Definition spokeReachable (name : string) s : bool := is_ok (spoke name s).

Definition allSpokes s : gmap string nat :=
  match hs_hub (sv_core s) with Some h => hub_spokes h | None => ∅ end.

(** A verb sent over a connection; a connection without a remote end fails. *)
Definition rpc {A} (c : nat) (f : M -> M * res string A) s : Server M * res string A :=
  match sv_remotes s !! c with
  | Some m => let '(m', r) := f m in (with_remotes (<[c := m']> (sv_remotes s)) s, r)
  | None => (s, Err "spoke connection lost")
  end.

Definition rpc_List (c : nat) s : res string (list Box) :=
  match sv_remotes s !! c with
  | Some m => bm_List m
  | None => Err "spoke connection lost"
  end.

(** The spoke a stored record belongs to. *)
Definition resolveStored (name : string) s : string := resolveStoredSpoke name (sv_core s).

(** ** Resolving a box id *)

Record boxIDMatchRank := MkRank { rk_alive : bool; rk_reachable : bool }.

Definition rank_of s (c : session) : boxIDMatchRank :=
  MkRank (negb (terminated c)) (spokeReachable (ss_SpokeName c) s).

Definition betterBoxIDMatch (c : session) (cRank : boxIDMatchRank) (best : session) (bestRank : boxIDMatchRank) : bool :=
  if negb (Bool.eqb (rk_alive cRank) (rk_alive bestRank)) then rk_alive cRank
  else if negb (Bool.eqb (rk_reachable cRank) (rk_reachable bestRank)) then rk_reachable cRank
  else if negb (ss_CreatedAt c =? ss_CreatedAt best) then After (ss_CreatedAt c) (ss_CreatedAt best)
  else String.ltb (ss_Token c) (ss_Token best).

(** The loop over the matches, in the order the map was ranged over. *)
Definition pick_best s (best : session) (cs : list session) : session :=
  foldl (fun best c => if betterBoxIDMatch c (rank_of s c) best (rank_of s best) then c else best) best cs.

Definition box_id_matches (boxID : string) (sess : session) : bool :=
  negb (String.eqb (ss_BoxID sess) "") && EqualFold (ss_BoxID sess) boxID.

Definition lookup_in_order (order : list session) (boxID : string) s : option session :=
  match List.filter (box_id_matches boxID) order with
  | [] => None
  | best :: cs => Some (pick_best s best cs)
  end.

Definition lookupByBoxID (boxID : string) s : option session :=
  lookup_in_order ((map_to_list (sv_byToken s)).*2) boxID s.

(** ** Proxies *)

Definition ProxyEnabled s : bool := negb (String.eqb (sv_proxyBaseDomain s) "").

Definition newProxySlug (rnd : option (list Z)) : option string := hex_encode <$> rnd.

Definition findProxy (boxID : string) (port : Z) s : option ProxyRecord :=
  first_match (fun p => EqualFold (pr_BoxID p) boxID && (pr_Port p =? port)) (ListProxies (sv_proxies s)).

Definition createProxy (rnd : option (list Z)) (now : Z) (boxID : string) (port : Z)
    (createdBy description : string) s : Server M * res HubError ProxyRecord :=
  if negb (ProxyEnabled s) then (s, Err ErrProxyDisabled)
  else if (port <? 1) || (65535 <? port) then (s, Err ErrPort)
  else
    match lookupByBoxID boxID s with
    | None => (s, Err ErrNoBox)
    | Some sess =>
        if terminated sess then (s, Err ErrTerminated)
        else
          let mint s :=
            match newProxySlug rnd with
            | None => (s, Err ErrSlug)
            | Some slug =>
                let rec := MkProxyRecord slug boxID (ss_Generation sess) port (ss_SpokeName sess)
                  now createdBy description in
                (with_proxies (SaveProxy rec (sv_proxies s)) s, Ok rec)
            end in
          match findProxy boxID port s with
          | Some existing =>
              if String.eqb (pr_InstanceID existing) (ss_Generation sess) then (s, Ok existing)
              else mint (with_proxies (DeleteProxy (pr_Slug existing) (sv_proxies s)) s)
          | None => mint s
          end
    end.

Definition listProxies (boxID : string) s : list ProxyRecord :=
  let list := ListProxies (sv_proxies s) in
  if String.eqb boxID "" then list else List.filter (fun p => EqualFold (pr_BoxID p) boxID) list.

Definition deleteProxy (boxID : string) (port : Z) s : Server M * res HubError string :=
  match findProxy boxID port s with
  | None => (s, Err ErrNoProxy)
  | Some rec => (with_proxies (DeleteProxy (pr_Slug rec) (sv_proxies s)) s, Ok (pr_Slug rec))
  end.

Definition deleteProxyBySlug (slug : string) s : Server M :=
  with_proxies (DeleteProxy slug (sv_proxies s)) s.

Definition delete_slugs (l : list ProxyRecord) s : Server M :=
  foldl (fun s p => with_proxies (DeleteProxy (pr_Slug p) (sv_proxies s)) s) s l.

Definition deleteProxiesForBox (boxID : string) s : Server M :=
  if String.eqb boxID "" || negb (ProxyEnabled s) then s
  else delete_slugs (listProxies boxID s) s.

(** ** Requests from a spoke *)

Definition boxPortSession (spokeName boxID : string) s : res HubError session :=
  if String.eqb boxID "" then Err ErrBoxIDRequired
  else
    match lookupByBoxID boxID s with
    | None => Err ErrNotOnSpoke
    | Some sess =>
        if negb (String.eqb (resolveStored (ss_SpokeName sess) s) spokeName) then Err ErrNotOnSpoke
        else Ok sess
    end.

(** The record returned stands for the box-facing view of it (port, URL of the
    slug, description). *)
Definition OpenBoxPort (rnd : option (list Z)) (now : Z) (spokeName boxID : string) (port : Z)
    (description : string) s : Server M * res HubError ProxyRecord :=
  if negb (ProxyEnabled s) then (s, Err ErrProxyDisabled)
  else
    match boxPortSession spokeName boxID s with
    | Err e => (s, Err e)
    | Ok sess => createProxy rnd now (ss_BoxID sess) port ("box:" +:+ ss_BoxID sess) description s
    end.

Definition CloseBoxPort (spokeName boxID : string) (port : Z) s : Server M * res HubError () :=
  match boxPortSession spokeName boxID s with
  | Err e => (s, Err e)
  | Ok sess =>
      match deleteProxy (ss_BoxID sess) port s with
      | (s', Ok _) => (s', Ok ())
      | (s', Err e) => (s', Err e)
      end
  end.

Definition ListBoxPorts (spokeName boxID : string) s : res HubError (list ProxyRecord) :=
  match boxPortSession spokeName boxID s with
  | Err e => Err e
  | Ok sess => Ok (listProxies (ss_BoxID sess) s)
  end.

Definition RecordDNSAudit (spokeName boxID domain verdict : string) (at_ : Z) s : Server M * res HubError () :=
  match boxPortSession spokeName boxID s with
  | Err e => (s, Err e)
  | Ok sess => (with_audit (RecordDNSLookup (ss_BoxID sess) domain verdict at_ (sv_audit s)) s, Ok ())
  end.

(** ** The persisted form *)

Lemma session_roundtrip sess : sessionFromPersisted (persistLocked sess) = sess.
Proof. by destruct sess. Qed.

(** ** The order behind [lookupByBoxID] *)

Definition better s (c b : session) : bool := betterBoxIDMatch c (rank_of s c) b (rank_of s b).

Lemma betterBoxIDMatch_spec c rc b rb :
  betterBoxIDMatch c rc b rb = true <->
  (rk_alive rc = true /\ rk_alive rb = false) \/
  (rk_alive rc = rk_alive rb /\
    ((rk_reachable rc = true /\ rk_reachable rb = false) \/
     (rk_reachable rc = rk_reachable rb /\
       (ss_CreatedAt b < ss_CreatedAt c \/
        (ss_CreatedAt c = ss_CreatedAt b /\ String.ltb (ss_Token c) (ss_Token b) = true))))).
Proof.
  unfold betterBoxIDMatch, After. destruct rc as [ac rc], rb as [ab rb]; simpl.
  assert (Hb : forall x y : bool, Bool.eqb x y = false -> x = true <-> x = true /\ y = false)
    by (intros [] []; naive_solver).
  destruct (Bool.eqb ac ab) eqn:Ha; simpl.
  2:{ rewrite (Hb ac ab Ha). destruct ac, ab; naive_solver. }
  apply Bool.eqb_prop in Ha as ->. destruct (Bool.eqb rc rb) eqn:Hr; simpl.
  2:{ rewrite (Hb rc rb Hr). destruct ab, rc, rb; naive_solver. }
  apply Bool.eqb_prop in Hr as ->.
  assert (Ht : forall Q : Prop, (ab = true /\ ab = false) \/ (ab = ab /\
    ((rb = true /\ rb = false) \/ (rb = rb /\ Q))) <-> Q) by (intros Q; destruct ab, rb; (split; [intros [[? ?]|[_ [[? ?]|[_ ?]]]]; done|by auto 6])).
  rewrite Ht. destruct (Z.eqb_spec (ss_CreatedAt c) (ss_CreatedAt b)) as [He|He]; simpl.
  - rewrite He. split; [auto|]. intros [?|[_ ?]]; [lia|done].
  - rewrite Z.ltb_lt. split; [auto|]. intros [?|[? _]]; [done|lia].
Qed.

Lemma better_trans s a b c : better s a b = true -> better s b c = true -> better s a c = true.
Proof.
  unfold better. rewrite !betterBoxIDMatch_spec. intros H1 H2.
  destruct H1 as [[? ?]|[E1 H1]], H2 as [[? ?]|[E2 H2]]; [left; split; congruence..|].
  right. split; [congruence|].
  destruct H1 as [[? ?]|[F1 H1]], H2 as [[? ?]|[F2 H2]]; [left; split; congruence..|].
  right. split; [congruence|].
  destruct H1 as [?|[? ?]], H2 as [?|[? ?]]; [left; lia..|]. right. split; [lia|].
  by eapply ltb_trans.
Qed.

Lemma better_irrefl s a : better s a a = false.
Proof.
  apply not_true_iff_false. unfold better. rewrite betterBoxIDMatch_spec.
  intros [[? ?]|[_ [[? ?]|[_ [?|[_ Hl]]]]]]; [congruence|congruence|lia|]. by rewrite ltb_irrefl in Hl.
Qed.

Lemma better_total s a b : ss_Token a <> ss_Token b -> better s a b = true \/ better s b a = true.
Proof.
  unfold better. rewrite !betterBoxIDMatch_spec. intros Hne.
  destruct (rk_alive (rank_of s a)), (rk_alive (rank_of s b)); auto;
    destruct (rk_reachable (rank_of s a)), (rk_reachable (rank_of s b)); auto 6;
    (destruct (Z.lt_trichotomy (ss_CreatedAt a) (ss_CreatedAt b)) as [?|[?|?]]; [auto 8| |auto 8]);
    destruct (ltb_total _ _ Hne); auto 10.
Qed.

(** The loop returns a maximum of the matches. *)
Lemma pick_best_max s cs best :
  (forall a b, a ∈ best :: cs -> b ∈ best :: cs -> ss_Token a = ss_Token b -> a = b) ->
  pick_best s best cs ∈ best :: cs /\
  forall c, c ∈ best :: cs -> c = pick_best s best cs \/ better s (pick_best s best cs) c = true.
Proof.
  revert best. induction cs as [|c cs IH]; intros best Hinj; unfold pick_best; simpl.
  - split; [set_solver|]. intros c. set_solver.
  - fold (better s c best). set (b' := if better s c best then c else best).
    destruct (IH b') as [Hin Hmax].
    { intros x y Hx Hy. apply Hinj; unfold b' in *; destruct (better s c best); set_solver. }
    fold (pick_best s b' cs). set (r := pick_best s b' cs) in *.
    assert (Hb' : b' = r \/ better s r b' = true) by (apply Hmax; set_solver).
    split; [unfold b' in *; destruct (better s c best); set_solver|].
    intros x [->|[->|Hx]%elem_of_cons]%elem_of_cons; [| |apply Hmax; set_solver].
    + unfold b' in *. destruct (better s c best) eqn:Hcb; [|done].
      right. destruct Hb' as [<-|Hr]; [done|]. by eapply better_trans.
    + unfold b' in *. destruct (better s c best) eqn:Hcb; [done|].
      destruct (decide (ss_Token c = ss_Token best)) as [Ht|Ht].
      { rewrite (Hinj c best) by set_solver. done. }
      destruct (better_total s c best Ht) as [?|Hbc]; [congruence|].
      right. destruct Hb' as [<-|Hr]; [done|]. by eapply better_trans.
Qed.

(** Every session is registered under its own token. *)
Definition registry_keyed s : Prop :=
  forall tok sess, sv_byToken s !! tok = Some sess -> ss_Token sess = tok.

Lemma order_mem s order :
  order ≡ₚ (map_to_list (sv_byToken s)).*2 ->
  forall sess, sess ∈ order <-> exists tok, sv_byToken s !! tok = Some sess.
Proof.
  intros Hp sess. rewrite Hp, list_elem_of_fmap. split.
  - intros ([tok x] & -> & Hin%elem_of_map_to_list). eauto.
  - intros [tok Hin]. exists (tok, sess). split; [done|]. by apply elem_of_map_to_list.
Qed.

Lemma lookup_in_order_spec s boxID order :
  registry_keyed s -> order ≡ₚ (map_to_list (sv_byToken s)).*2 ->
  match lookup_in_order order boxID s with
  | None => forall tok sess, sv_byToken s !! tok = Some sess -> box_id_matches boxID sess = false
  | Some best =>
      sv_byToken s !! ss_Token best = Some best /\ box_id_matches boxID best = true /\
      forall tok c, sv_byToken s !! tok = Some c -> box_id_matches boxID c = true ->
        c = best \/ better s best c = true
  end.
Proof.
  intros Hk Hp. unfold lookup_in_order. pose proof (order_mem s order Hp) as Hmem.
  assert (Hf : forall x, x ∈ List.filter (box_id_matches boxID) order <->
    (exists tok, sv_byToken s !! tok = Some x) /\ box_id_matches boxID x = true).
  { intros x. rewrite <- Hmem, !list_elem_of_In, filter_In. done. }
  destruct (List.filter (box_id_matches boxID) order) as [|best cs].
  - intros tok sess Hs. apply not_true_iff_false. intros Hm.
    assert (sess ∈ []) by (apply Hf; eauto). set_solver.
  - destruct (pick_best_max s cs best) as [Hin Hmax].
    { intros a b [[ta Ha] _]%Hf [[tb Hb] _]%Hf Ht.
      pose proof (Hk _ _ Ha). pose proof (Hk _ _ Hb). congruence. }
    apply Hf in Hin as [[tok Htok] Hm]. split_and!; [|done|].
    + by rewrite (Hk _ _ Htok).
    + intros tok' c Hc Hcm. apply Hmax, Hf. eauto.
Qed.

Lemma lookupByBoxID_Some s boxID sess :
  lookupByBoxID boxID s = Some sess ->
  (exists tok, sv_byToken s !! tok = Some sess) /\ ss_BoxID sess <> "" /\ EqualFold (ss_BoxID sess) boxID = true.
Proof.
  unfold lookupByBoxID, lookup_in_order.
  destruct (List.filter _ _) as [|best cs] eqn:Hf; [done|]. intros [= <-].
  assert (Hin : pick_best s best cs ∈ best :: cs).
  { clear Hf. revert best. induction cs as [|c cs IH]; intros best; [set_solver|]. unfold pick_best. simpl.
    case_match; [specialize (IH c)|specialize (IH best)]; unfold pick_best in IH; set_solver. }
  rewrite <- Hf, list_elem_of_In, filter_In, <- list_elem_of_In in Hin. destruct Hin as [Hin Hm].
  apply (order_mem s) in Hin; [|done]. split; [done|].
  unfold box_id_matches in Hm. bools. done.
Qed.

(** C27: resolving a box id is deterministic and health-aware. Whatever order the
    registry (stored under its tokens) is ranged over, [lookupByBoxID] returns the
    same session: of those with the id up to case, the best in the order of
    [betterBoxIDMatch], which puts live boxes before tombstones, then reachable
    spokes before unreachable ones, then the newer, then the smaller token.  So a
    tombstone on a reachable spoke loses against a live box on an unreachable
    one, which is not what the comment of [lookupByBoxID] says.  It returns none
    only when no session has the id. *)
Theorem lookupByBoxID_deterministic : forall s boxID order,
  registry_keyed s -> order ≡ₚ (map_to_list (sv_byToken s)).*2 ->
  lookup_in_order order boxID s = lookupByBoxID boxID s /\
  match lookupByBoxID boxID s with
  | None => forall tok sess, sv_byToken s !! tok = Some sess -> box_id_matches boxID sess = false
  | Some best =>
      sv_byToken s !! ss_Token best = Some best /\ box_id_matches boxID best = true /\
      forall tok c, sv_byToken s !! tok = Some c -> box_id_matches boxID c = true -> c <> best ->
        if Bool.eqb (terminated c) (terminated best) then
          if Bool.eqb (spokeReachable (ss_SpokeName c) s) (spokeReachable (ss_SpokeName best) s) then
            ss_CreatedAt c < ss_CreatedAt best \/
            (ss_CreatedAt c = ss_CreatedAt best /\ String.ltb (ss_Token best) (ss_Token c) = true)
          else spokeReachable (ss_SpokeName best) s = true
        else terminated best = false
  end.
Proof.
  intros s boxID order Hk Hp.
  pose proof (lookup_in_order_spec s boxID order Hk Hp) as H1.
  pose proof (lookup_in_order_spec s boxID _ Hk (Permutation_refl _)) as H2.
  fold (lookupByBoxID boxID s) in H2. split.
  - destruct (lookup_in_order order boxID s) as [b1|], (lookupByBoxID boxID s) as [b2|].
    + destruct H1 as (R1 & M1 & X1), H2 as (R2 & M2 & X2).
      destruct (X1 _ _ R2 M2) as [->|L1]; [done|]. destruct (X2 _ _ R1 M1) as [->|L2]; [done|].
      pose proof (better_trans s _ _ _ L1 L2) as L. by rewrite better_irrefl in L.
    + destruct H1 as (R1 & M1 & _). by rewrite (H2 _ _ R1) in M1.
    + destruct H2 as (R2 & M2 & _). by rewrite (H1 _ _ R2) in M2.
    + done.
  - destruct (lookupByBoxID boxID s) as [b|]; [|done]. destruct H2 as (R & Hm & X).
    split_and!; [done..|]. intros tok c Hc Hcm Hne.
    destruct (X _ _ Hc Hcm) as [->|Hb]; [done|].
    unfold better in Hb. rewrite betterBoxIDMatch_spec in Hb. unfold rank_of in Hb. simpl in Hb.
    destruct (terminated b), (terminated c), (spokeReachable (ss_SpokeName b) s),
      (spokeReachable (ss_SpokeName c) s); naive_solver.
Qed.

(** ** Proxies *)

(** A proxy is stored under its slug, and a box and port have at most one. *)
Definition proxies_ok (t : gmap string ProxyRecord) : Prop :=
  (forall slug p, t !! slug = Some p -> pr_Slug p = slug) /\
  (forall k1 k2 p1 p2, t !! k1 = Some p1 -> t !! k2 = Some p2 ->
     EqualFold (pr_BoxID p1) (pr_BoxID p2) = true -> pr_Port p1 = pr_Port p2 -> k1 = k2).

Definition is_proxy_of (boxID : string) (port : Z) (p : ProxyRecord) : bool :=
  EqualFold (pr_BoxID p) boxID && (pr_Port p =? port).

Lemma ListProxies_elem (t : gmap string ProxyRecord) p :
  p ∈ ListProxies t <-> exists slug, t !! slug = Some p.
Proof.
  unfold ListProxies. rewrite list_elem_of_fmap. split.
  - intros ([k x] & -> & Hin%elem_of_map_to_list). eauto.
  - intros [k Hin]. exists (k, p). split; [done|]. by apply elem_of_map_to_list.
Qed.

Lemma findProxy_Some boxID port s p :
  proxies_ok (sv_proxies s) ->
  findProxy boxID port s = Some p <->
  sv_proxies s !! pr_Slug p = Some p /\ is_proxy_of boxID port p = true.
Proof.
  intros [Hk Hu]. unfold findProxy. fold (is_proxy_of boxID port). split.
  - intros [Hin Hp]%first_match_elem. apply ListProxies_elem in Hin as [k Hin].
    by rewrite (Hk _ _ Hin).
  - intros [Hin Hp]. destruct (first_match _ _) as [q|] eqn:Hq.
    + apply first_match_elem in Hq as [Hqin Hqp]. apply ListProxies_elem in Hqin as [k Hqin].
      unfold is_proxy_of in *. bools.
      assert (k = pr_Slug p) as ->; [|congruence].
      eapply Hu; [done|done| |congruence].
      eapply EqualFold_trans; [done|]. by rewrite EqualFold_sym.
    + exfalso. rewrite first_match_None, Forall_forall in Hq.
      rewrite Hq in Hp; [done|]. apply ListProxies_elem. eauto.
Qed.

Lemma findProxy_None boxID port s :
  findProxy boxID port s = None <->
  forall slug p, sv_proxies s !! slug = Some p -> is_proxy_of boxID port p = false.
Proof.
  unfold findProxy. fold (is_proxy_of boxID port). rewrite first_match_None, Forall_forall.
  setoid_rewrite ListProxies_elem. naive_solver.
Qed.

Lemma proxies_ok_delete slug t : proxies_ok t -> proxies_ok (DeleteProxy slug t).
Proof.
  unfold proxies_ok, DeleteProxy. intros [Hk Hu]. split.
  - intros k p Hp%lookup_delete_Some. naive_solver.
  - intros k1 k2 p1 p2 H1%lookup_delete_Some H2%lookup_delete_Some. naive_solver.
Qed.

Lemma proxies_ok_save rec t :
  proxies_ok t ->
  (forall slug p, t !! slug = Some p -> is_proxy_of (pr_BoxID rec) (pr_Port rec) p = false) ->
  proxies_ok (SaveProxy rec t).
Proof.
  unfold proxies_ok, SaveProxy, is_proxy_of. intros [Hk Hu] Hno. split.
  - intros k p [[<- <-]|[_ Hp]]%lookup_insert_Some; naive_solver.
  - intros k1 k2 p1 p2 [[<- <-]|[Hn1 H1]]%lookup_insert_Some [[<- <-]|[Hn2 H2]]%lookup_insert_Some He Hp.
    + done.
    + apply Hno in H2. rewrite EqualFold_sym, He, Hp, Z.eqb_refl in H2. done.
    + apply Hno in H1. rewrite He, Hp, Z.eqb_refl in H1. done.
    + by eapply Hu.
Qed.

(** What remains of a table when the proxy of a box and port is taken out. *)
Lemma delete_found boxID port s p :
  proxies_ok (sv_proxies s) -> findProxy boxID port s = Some p ->
  forall slug q, DeleteProxy (pr_Slug p) (sv_proxies s) !! slug = Some q <->
    sv_proxies s !! slug = Some q /\ is_proxy_of boxID port q = false.
Proof.
  intros Hok Hf slug q. pose proof Hf as [Hin Hp]%findProxy_Some; [|done].
  unfold DeleteProxy. rewrite lookup_delete_Some. split.
  - intros [Hne Hq]. split; [done|]. apply not_true_iff_false. intros Hqp.
    destruct Hne. destruct Hok as [Hk Hu]. unfold is_proxy_of in *. bools.
    eapply Hu; [done|done| |congruence]. eapply EqualFold_trans; [done|]. by rewrite EqualFold_sym.
  - intros [Hq Hnp]. split; [|done]. intros <-. congruence.
Qed.

Lemma lookupByBoxID_with_proxies boxID p s : lookupByBoxID boxID (with_proxies p s) = lookupByBoxID boxID s.
Proof. reflexivity. Qed.

(** Saving the proxy of a box and port into a table that has none for them. *)
Lemma findProxy_saved rec p s :
  proxies_ok p ->
  (forall slug q, p !! slug = Some q -> is_proxy_of (pr_BoxID rec) (pr_Port rec) q = false) ->
  findProxy (pr_BoxID rec) (pr_Port rec) (with_proxies (SaveProxy rec p) s) = Some rec.
Proof.
  intros Hok Hno. apply findProxy_Some; simpl; [by apply proxies_ok_save|].
  unfold SaveProxy. rewrite lookup_insert_eq. split; [done|].
  unfold is_proxy_of. by rewrite EqualFold_refl, Z.eqb_refl.
Qed.

(** A successful creation, seen from the tables. *)
Definition created s (boxID : string) (port : Z) s' (rec : ProxyRecord) : Prop :=
  s' = with_proxies (sv_proxies s') s /\ proxies_ok (sv_proxies s') /\
  ProxyEnabled s = true /\ 1 <= port <= 65535 /\ findProxy boxID port s' = Some rec /\
  (exists sess, lookupByBoxID boxID s = Some sess /\ terminated sess = false /\
     pr_InstanceID rec = ss_Generation sess) /\
  forall slug q, slug <> pr_Slug rec ->
    sv_proxies s' !! slug = Some q <-> sv_proxies s !! slug = Some q /\ is_proxy_of boxID port q = false.

Lemma createProxy_Ok rnd now boxID port by_ desc s s' rec :
  proxies_ok (sv_proxies s) -> createProxy rnd now boxID port by_ desc s = (s', Ok rec) ->
  created s boxID port s' rec.
Proof.
  intros Hok. unfold createProxy. destruct (ProxyEnabled s) eqn:Hen; [simpl|done].
  destruct ((port <? 1) || (65535 <? port)) eqn:Hport; [done|]. bools.
  destruct (lookupByBoxID boxID s) as [sess|] eqn:Hl; [|done].
  destruct (terminated sess) eqn:Ht; [done|].
  destruct (findProxy boxID port s) as [old|] eqn:Hf.
  - pose proof (delete_found _ _ _ _ Hok Hf) as Hdel.
    destruct (String.eqb_spec (pr_InstanceID old) (ss_Generation sess)) as [Hg|Hg].
    + intros [= <- <-]. unfold created. split_and!; try done; [by destruct s|eauto|].
      intros slug q Hne. split; [|naive_solver]. intros Hq. apply Hdel.
      unfold DeleteProxy. by rewrite lookup_delete_ne.
    + destruct (newProxySlug rnd) as [slug|]; [|done]. intros [= <- <-].
      set (rec := MkProxyRecord _ _ _ _ _ _ _ _).
      assert (Hno : forall k q, DeleteProxy (pr_Slug old) (sv_proxies s) !! k = Some q ->
        is_proxy_of (pr_BoxID rec) (pr_Port rec) q = false) by (intros k q; apply Hdel).
      unfold created. simpl. split_and!; try done.
      * by apply proxies_ok_save; [apply proxies_ok_delete|].
      * by apply (findProxy_saved rec); [apply proxies_ok_delete|].
      * eauto.
      * intros k q Hne. unfold SaveProxy. rewrite lookup_insert_ne by done. apply Hdel.
  - destruct (newProxySlug rnd) as [slug|]; [|done]. intros [= <- <-].
    set (rec := MkProxyRecord _ _ _ _ _ _ _ _). pose proof (proj1 (findProxy_None _ _ _) Hf) as Hno.
    unfold created. simpl. split_and!; try done.
    + by apply (proxies_ok_save rec).
    + by apply (findProxy_saved rec).
    + eauto.
    + intros k q Hne. unfold SaveProxy. rewrite lookup_insert_ne by done. naive_solver.
Qed.

Lemma createProxy_Err rnd now boxID port by_ desc s s' e :
  proxies_ok (sv_proxies s) -> createProxy rnd now boxID port by_ desc s = (s', Err e) ->
  s' = with_proxies (sv_proxies s') s /\ proxies_ok (sv_proxies s') /\
  (rnd <> None -> s' = s) /\
  forall slug q, is_proxy_of boxID port q = false ->
    sv_proxies s' !! slug = Some q <-> sv_proxies s !! slug = Some q.
Proof.
  intros Hok.
  assert (Hself : s = with_proxies (sv_proxies s) s) by by destruct s.
  unfold createProxy. destruct (ProxyEnabled s); simpl; [|by intros [= <- <-]].
  destruct ((port <? 1) || (65535 <? port)); [by intros [= <- <-]|].
  destruct (lookupByBoxID boxID s) as [sess|]; [|by intros [= <- <-]].
  destruct (terminated sess); [by intros [= <- <-]|].
  destruct (findProxy boxID port s) as [old|] eqn:Hf.
  - destruct (String.eqb (pr_InstanceID old) (ss_Generation sess)); [done|].
    destruct rnd as [b|]; simpl; [done|]. intros [= <- <-].
    split_and!; [done|by apply proxies_ok_delete|done|].
    intros slug q Hq. simpl. rewrite (delete_found _ _ _ _ Hok Hf). naive_solver.
  - destruct rnd as [b|]; simpl; [done|]. by intros [= <- <-].
Qed.

(** publishing a port is idempotent and tied to the box's incarnation. It
    succeeds only with proxying on, a port between 1 and 65535 and a live box;
    the record then names the box's current generation and is the one proxy of
    the box and port, repeating the request (whoever repeats it) returns the
    same record and changes nothing, and the proxies of other boxes and ports
    stay. A failure leaves them too, and everything else when the random source
    works. *)
Theorem createProxy_spec : forall rnd now boxID port by_ desc s,
  proxies_ok (sv_proxies s) ->
  match createProxy rnd now boxID port by_ desc s with
  | (s', Err e) =>
      proxies_ok (sv_proxies s') /\ (rnd <> None -> s' = s) /\
      forall slug q, is_proxy_of boxID port q = false ->
        sv_proxies s' !! slug = Some q <-> sv_proxies s !! slug = Some q
  | (s', Ok rec) =>
      created s boxID port s' rec /\
      forall rnd' now' by' desc', createProxy rnd' now' boxID port by' desc' s' = (s', Ok rec)
  end.
Proof.
  intros rnd now boxID port by_ desc s Hok.
  destruct (createProxy rnd now boxID port by_ desc s) as [s' [rec|e]] eqn:He.
  - pose proof (createProxy_Ok _ _ _ _ _ _ _ _ _ Hok He) as Hc. split; [done|].
    destruct Hc as (Hs & _ & Hen & Hport & Hf & (sess & Hl & Ht & Hg) & _).
    intros rnd' now' by' desc'. unfold createProxy. rewrite Hf, Hs, lookupByBoxID_with_proxies, Hl.
    change (ProxyEnabled (with_proxies (sv_proxies s') s)) with (ProxyEnabled s).
    rewrite Hen, Ht, Hg, String.eqb_refl. simpl.
    replace ((port <? 1) || (65535 <? port)) with false by (symmetry; apply orb_false_iff; split; lia).
    done.
  - apply createProxy_Err in He as (_ & ? & ? & ?); auto.
Qed.

(** ** Requests from a spoke *)

Inductive port_request :=
| PortOpen (rnd : option (list Z)) (now port : Z) (description : string)
| PortClose (port : Z)
| PortList
| PortAudit (domain verdict : string) (at_ : Z).

Definition serve_port (sp boxID : string) (req : port_request) s : Server M * res HubError (list ProxyRecord) :=
  match req with
  | PortOpen rnd now port desc =>
      match OpenBoxPort rnd now sp boxID port desc s with
      | (s', Ok rec) => (s', Ok [rec])
      | (s', Err e) => (s', Err e)
      end
  | PortClose port =>
      match CloseBoxPort sp boxID port s with
      | (s', Ok _) => (s', Ok [])
      | (s', Err e) => (s', Err e)
      end
  | PortList => (s, ListBoxPorts sp boxID s)
  | PortAudit domain verdict at_ =>
      match RecordDNSAudit sp boxID domain verdict at_ s with
      | (s', Ok _) => (s', Ok [])
      | (s', Err e) => (s', Err e)
      end
  end.

(** The slug a request would draw is not in use. *)
Definition fresh_slug (req : port_request) s : Prop :=
  match req with
  | PortOpen (Some b) _ _ _ => sv_proxies s !! hex_encode b = None
  | _ => True
  end.

Lemma createProxy_slug rnd now boxID port by_ desc s s' rec :
  proxies_ok (sv_proxies s) -> createProxy rnd now boxID port by_ desc s = (s', Ok rec) ->
  sv_proxies s !! pr_Slug rec = Some rec \/ exists b, rnd = Some b /\ pr_Slug rec = hex_encode b.
Proof.
  intros Hok. unfold createProxy. destruct (ProxyEnabled s); [simpl|done].
  destruct ((port <? 1) || (65535 <? port)); [done|].
  destruct (lookupByBoxID boxID s) as [sess|]; [|done].
  destruct (terminated sess); [done|].
  destruct (findProxy boxID port s) as [old|] eqn:Hf; [case_match|];
    try (destruct rnd as [b|]; simpl; [|done]; intros [= <- <-]; simpl; eauto).
  intros [= <- <-]. apply findProxy_Some in Hf; naive_solver.
Qed.

Lemma boxPortSession_Ok sp boxID s sess :
  boxPortSession sp boxID s = Ok sess ->
  boxID <> "" /\ lookupByBoxID boxID s = Some sess /\ resolveStored (ss_SpokeName sess) s = sp /\
  EqualFold (ss_BoxID sess) boxID = true /\ ss_BoxID sess <> "".
Proof.
  unfold boxPortSession. destruct (String.eqb_spec boxID ""); [done|].
  destruct (lookupByBoxID boxID s) as [x|] eqn:Hl; [|done].
  destruct (String.eqb_spec (resolveStored (ss_SpokeName x) s) sp); simpl; [|done].
  intros [= <-]. apply lookupByBoxID_Some in Hl. naive_solver.
Qed.

(** The error a spoke gets for a box that is not its own. *)
Definition refusal (boxID : string) (req : port_request) s : HubError :=
  match req with
  | PortOpen _ _ _ _ =>
      if negb (ProxyEnabled s) then ErrProxyDisabled
      else if String.eqb boxID "" then ErrBoxIDRequired else ErrNotOnSpoke
  | _ => if String.eqb boxID "" then ErrBoxIDRequired else ErrNotOnSpoke
  end.

Definition on_spoke (sp boxID : string) s : bool :=
  match lookupByBoxID boxID s with
  | Some sess => String.eqb (resolveStored (ss_SpokeName sess) s) sp
  | None => false
  end.

Lemma serve_port_refused sp boxID req s :
  on_spoke sp boxID s = false -> serve_port sp boxID req s = (s, Err (refusal boxID req s)).
Proof.
  intros Hon.
  assert (Hs : boxPortSession sp boxID s = Err (if String.eqb boxID "" then ErrBoxIDRequired else ErrNotOnSpoke)).
  { unfold boxPortSession, on_spoke in *. destruct (String.eqb boxID ""); [done|].
    destruct (lookupByBoxID boxID s); [|done]. by rewrite Hon. }
  destruct req; simpl; unfold OpenBoxPort, CloseBoxPort, ListBoxPorts, RecordDNSAudit; rewrite Hs; try done.
  by destruct (ProxyEnabled s).
Qed.

(** What a request may change: the proxies and the audit rows of one box. *)
Definition confined (boxID : string) s s' : Prop :=
  s' = with_audit (sv_audit s') (with_proxies (sv_proxies s') s) /\ proxies_ok (sv_proxies s') /\
  (forall slug q, EqualFold (pr_BoxID q) boxID = false ->
     sv_proxies s' !! slug = Some q <-> sv_proxies s !! slug = Some q) /\
  (forall b d v, EqualFold b boxID = false -> sv_audit s' !! (b, d, v) = sv_audit s !! (b, d, v)).

Lemma confined_refl boxID s : proxies_ok (sv_proxies s) -> confined boxID s s.
Proof. intros Hok. split_and!; [by destruct s|done..]. Qed.

Lemma not_proxy_of boxID boxID' port q :
  EqualFold boxID' boxID = true -> EqualFold (pr_BoxID q) boxID = false -> is_proxy_of boxID' port q = false.
Proof.
  intros He Hq. apply not_true_iff_false. unfold is_proxy_of. intros Hp. bools.
  rewrite (EqualFold_trans _ _ _ H He) in Hq. done.
Qed.

Lemma OpenBoxPort_confined rnd now sp boxID port desc s s' r :
  proxies_ok (sv_proxies s) -> fresh_slug (PortOpen rnd now port desc) s ->
  OpenBoxPort rnd now sp boxID port desc s = (s', r) ->
  confined boxID s s' /\ forall rec, r = Ok rec -> EqualFold (pr_BoxID rec) boxID = true.
Proof.
  intros Hok Hfresh. unfold OpenBoxPort. destruct (ProxyEnabled s); simpl; [|intros [= <- <-]; by split; [apply confined_refl|]].
  destruct (boxPortSession sp boxID s) as [sess|e] eqn:Hb; [|intros [= <- <-]; by split; [apply confined_refl|]].
  apply boxPortSession_Ok in Hb as (_ & _ & _ & He & _). intros Hc.
  destruct r as [rec|e].
  - pose proof (createProxy_slug _ _ _ _ _ _ _ _ _ Hok Hc) as Hslug.
    apply createProxy_Ok in Hc as (Hs & Hok' & _ & _ & Hf & _ & Hoth); [|done].
    apply findProxy_Some in Hf as [Hin Hp]; [|done].
    assert (Hrec : EqualFold (pr_BoxID rec) boxID = true).
    { unfold is_proxy_of in Hp. bools. by eapply EqualFold_trans. }
    split; [|by intros ? [= <-]].
    split_and!; [rewrite Hs; by destruct s|done| |by rewrite Hs].
    intros slug q Hq. pose proof (not_proxy_of _ _ port q He Hq) as Hnp.
    destruct (decide (slug = pr_Slug rec)) as [->|Hne]; [|rewrite Hoth; naive_solver].
    split; intros Hx; [simplify_eq; congruence|].
    destruct Hslug as [Hr|(b & -> & Hr)]; [simplify_eq; congruence|]. simpl in Hfresh. congruence.
  - split; [|done]. apply createProxy_Err in Hc as (Hs & Hok' & _ & Hoth); [|done].
    split_and!; [rewrite Hs; by destruct s|done| |by rewrite Hs].
    intros slug q Hq. apply Hoth. by eapply not_proxy_of.
Qed.

Lemma CloseBoxPort_confined sp boxID port s s' r :
  proxies_ok (sv_proxies s) -> CloseBoxPort sp boxID port s = (s', r) -> confined boxID s s'.
Proof.
  intros Hok. unfold CloseBoxPort.
  destruct (boxPortSession sp boxID s) as [sess|e] eqn:Hb; [|intros [= <- <-]; by apply confined_refl].
  apply boxPortSession_Ok in Hb as (_ & _ & _ & He & _). unfold deleteProxy.
  destruct (findProxy (ss_BoxID sess) port s) as [p|] eqn:Hf; [|intros [= <- <-]; by apply confined_refl].
  intros [= <- <-]. split_and!; [done|by apply proxies_ok_delete| |done].
  intros slug q Hq. simpl. rewrite (delete_found _ _ _ _ Hok Hf).
  pose proof (not_proxy_of _ _ port q He Hq). naive_solver.
Qed.

Lemma RecordDNSAudit_confined sp boxID d v at_ s s' r :
  proxies_ok (sv_proxies s) -> RecordDNSAudit sp boxID d v at_ s = (s', r) -> confined boxID s s'.
Proof.
  intros Hok. unfold RecordDNSAudit.
  destruct (boxPortSession sp boxID s) as [sess|e] eqn:Hb; [|intros [= <- <-]; by apply confined_refl].
  apply boxPortSession_Ok in Hb as (_ & _ & _ & He & _). intros [= <- <-].
  split_and!; [by destruct s|done|done|]. intros b d' v' Hb. simpl.
  assert (b <> ss_BoxID sess) by (intros ->; congruence).
  unfold RecordDNSLookup. case_match; rewrite lookup_insert_ne; congruence.
Qed.

(** A spoke acts only on its own boxes. A port or audit request from a spoke
    for a box that does not run on it is refused with an error that does not
    tell whether the box exists, and changes nothing. In any case a request
    leaves the registry and every proxy and audit row of other boxes as they
    are, and returns only proxies of the box it names. *)
Lemma box_port_requests_scoped : forall sp boxID req s,
  proxies_ok (sv_proxies s) -> fresh_slug req s ->
  (on_spoke sp boxID s = false -> serve_port sp boxID req s = (s, Err (refusal boxID req s))) /\
  confined boxID s (serve_port sp boxID req s).1 /\
  forall l, (serve_port sp boxID req s).2 = Ok l -> Forall (fun p => EqualFold (pr_BoxID p) boxID = true) l.
Proof.
  intros sp boxID req s Hok Hfresh. split; [apply serve_port_refused|].
  destruct req as [rnd now port desc|port| |d v at_]; simpl.
  - destruct (OpenBoxPort _ _ _ _ _ _ _) as [s' r] eqn:Ho.
    apply OpenBoxPort_confined in Ho as [Hc Hr]; [|done..].
    destruct r; simpl; split; try done. intros l [= <-]. constructor; auto.
  - destruct (CloseBoxPort _ _ _ _) as [s' r] eqn:Ho. apply CloseBoxPort_confined in Ho; [|done].
    destruct r; simpl; split; try done. by intros l [= <-].
  - split; [by apply confined_refl|]. unfold ListBoxPorts.
    destruct (boxPortSession sp boxID s) as [sess|e] eqn:Hb; [|done].
    apply boxPortSession_Ok in Hb as (_ & _ & _ & He & Hn). intros l [= <-].
    unfold listProxies. destruct (String.eqb_spec (ss_BoxID sess) ""); [done|].
    apply Forall_forall. intros p Hp. rewrite list_elem_of_In, filter_In in Hp.
    destruct Hp as [_ Hp]. by eapply EqualFold_trans.
  - destruct (RecordDNSAudit _ _ _ _ _ _) as [s' r] eqn:Ho. apply RecordDNSAudit_confined in Ho; [|done].
    destruct r; simpl; split; try done. by intros l [= <-].
Qed.

End Server.

(** ** Concrete instances *)

Module RegistryDemo.

(** A remote manager that answers nothing. *)
#[export] Instance silent : BoxManager () := {
  bm_Create _ m := (m, Err "");
  bm_List _ := Err "";
  bm_Destroy _ m := (m, Err "");
  bm_Pause _ m := (m, Err "");
  bm_Resume _ m := (m, Err "");
  bm_Exec _ _ m := (m, Err "");
  bm_SetNetworkPolicy _ _ m := (m, Err "");
}.

Definition sess (tok id sp : string) (created : Z) (st : Lifecycle) : session :=
  MkSession tok ("gen-" +:+ tok) created None id "" sp "ready" "" st None "" "" "".

Definition reg : gmap string session :=
  <["t1" := sess "t1" "web" "edge" 5 LifecycleTerminated]>
  (<["t2" := sess "t2" "web" "away" 4 LifecycleRunning]>
  (<["t3" := sess "t3" "web" "edge" 3 LifecycleRunning]>
  (<["t4" := sess "t4" "db" "edge" 3 LifecycleRunning]> ∅))).

Definition srv : Server () :=
  MkServer (MkHubServer emptyClusterDB ∅ (Some (MkHub {["edge" := 0%nat]} ∅))) ∅ reg ∅ ∅ ∅ ∅
    "proxy.example" None [].

Lemma reg_keyed : registry_keyed srv.
Proof.
  intros tok x. unfold srv, reg. simpl.
  repeat (intros [[<- <-]|[_ H]]%lookup_insert_Some; [done|revert H]). by rewrite lookup_empty.
Qed.

End RegistryDemo.

Lemma lookupByBoxID_deterministic_witness :
  ss_Token <$> lookupByBoxID "WEB" RegistryDemo.srv = Some "t3" /\
  ss_Token <$> lookup_in_order (reverse ((map_to_list RegistryDemo.reg).*2)) "WEB" RegistryDemo.srv = Some "t3".
Proof.
  split; [vm_compute; reflexivity|].
  pose proof (lookupByBoxID_deterministic RegistryDemo.srv "WEB"
    (reverse ((map_to_list RegistryDemo.reg).*2)) RegistryDemo.reg_keyed (reverse_Permutation _)) as [H _].
  rewrite H. vm_compute. reflexivity.
Defined.

(** A tombstone on a reachable spoke and a live box on an unreachable one: the box
    id resolves to the unreachable spoke. *)
Theorem live_unreachable_wins :
  let t := RegistryDemo.sess "t1" "web" "edge" 5 LifecycleTerminated in
  let l := RegistryDemo.sess "t2" "web" "away" 4 LifecycleRunning in
  let s : Server () := MkServer (MkHubServer emptyClusterDB ∅ (Some (MkHub {["edge" := 0%nat]} ∅))) ∅
    (<["t1" := t]> {["t2" := l]}) ∅ ∅ ∅ ∅ "" None [] in
  spokeReachable "edge" s = true /\ spokeReachable "away" s = false /\ lookupByBoxID "web" s = Some l.
Proof. vm_compute. done. Qed.

Lemma createProxy_spec_witness :
  match createProxy (Some [1; 2]) 7 "web" 8080 "me" "site" RegistryDemo.srv with
  | (s', Ok rec) => pr_InstanceID rec = "gen-t3" /\
      createProxy None 9 "web" 8080 "you" "" s' = (s', Ok rec)
  | _ => False
  end.
Proof.
  pose proof (createProxy_spec (Some [1; 2]) 7 "web" 8080 "me" "site" RegistryDemo.srv) as H.
  destruct (createProxy _ _ _ _ _ _ _) as [s' [rec|e]] eqn:He.
  - destruct H as [_ H]; [by split|]. split; [|apply H].
    vm_compute in He. by injection He as <- <-.
  - by vm_compute in He.
Defined.

Example port_requests_of_two_spokes :
  serve_port "away" "db" (PortOpen (Some [1]) 7 80 "") RegistryDemo.srv = (RegistryDemo.srv, Err ErrNotOnSpoke) /\
  is_ok (serve_port "edge" "db" (PortOpen (Some [1]) 7 80 "") RegistryDemo.srv).2 = true.
Proof.
  split; [|vm_compute; reflexivity].
  apply (box_port_requests_scoped "away" "db" (PortOpen (Some [1]) 7 80 "") RegistryDemo.srv);
    [by split|reflexivity|vm_compute; reflexivity].
Defined.
