(* ===== verification/BoxApi.v ===== *)
(** * The port API inside a box (internal/spoke/boxapi) and its way to the hub

    Each box has a socket of its own; what arrives on it is an HTTP request of
    the box's workload to publish, close or list ports.  The handler is bound to
    the box's id and forwards to a [PortService]; the service in use is the
    spoke's [HubCaller] over its connection, on which the hub serves the request
    under the spoke's authenticated name ([remoteSpoke.dispatchSpokeRequest]).
    The decoding of a body is a parameter. *)

From S2P Require Import Prelude GoStrings Sandbox Store Sha256 Enroll Remote Registry.

Local Open Scope Z_scope.

(** ** The interface to the hub *)

Class PortService (S E I : Type) := {
  svc_OpenBoxPort : string -> Z -> string -> S -> S * res E I;
  svc_CloseBoxPort : string -> Z -> S -> S * res E ();
  svc_ListBoxPorts : string -> S -> S * res E (list I);
}.

(** ** The handler *)

Inductive endpoint := EpOpen | EpClose | EpList.

(** The outcome of decoding the body of a request, up to 64 KiB of it, into the
    request type of the endpoint: the fields (zero when absent; other fields are
    ignored), an empty body, or an error. *)
Inductive Decoded := Fields (port : Z) (description : string) | NoBody | Malformed.

Record HttpRequest := MkHttpRequest { hq_Method : string; hq_Path : string; hq_Body : string }.

Inductive ApiBody {E I : Type} :=
| BodyPort (i : I) | BodyPorts (l : list I) | BodyEmpty
| BodyNoBox | BodyBadPort (port : Z) | BodyBadJSON | BodyError (e : E) | BodyNoRoute.
Arguments ApiBody : clear implicits.

Definition checkBox (boxID : string) : bool := negb (String.eqb boxID "").
Definition checkPort (port : Z) : bool := (1 <=? port) && (port <=? 65535).

Section Handler.
Context {S E I : Type} `{PortService S E I} (Decode : endpoint -> string -> Decoded).

(** The functions given to [jsonEndpoint]: the new state, the status and the body. *)
Definition open_port (boxID : string) (port : Z) (description : string) (s : S) : S * (Z * ApiBody E I) :=
  if negb (checkBox boxID) then (s, (400, BodyNoBox))
  else if negb (checkPort port) then (s, (400, BodyBadPort port))
  else
    match svc_OpenBoxPort boxID port description s with
    | (s', Ok info) => (s', (200, BodyPort info))
    | (s', Err e) => (s', (502, BodyError e))
    end.

Definition close_port (boxID : string) (port : Z) (s : S) : S * (Z * ApiBody E I) :=
  if negb (checkBox boxID) then (s, (400, BodyNoBox))
  else if negb (checkPort port) then (s, (400, BodyBadPort port))
  else
    match svc_CloseBoxPort boxID port s with
    | (s', Ok _) => (s', (200, BodyEmpty))
    | (s', Err e) => (s', (502, BodyError e))
    end.

Definition list_ports (boxID : string) (s : S) : S * (Z * ApiBody E I) :=
  if negb (checkBox boxID) then (s, (400, BodyNoBox))
  else
    match svc_ListBoxPorts boxID s with
    | (s', Ok ports) => (s', (200, BodyPorts ports))
    | (s', Err e) => (s', (502, BodyError e))
    end.

(** [jsonEndpoint]; an empty body decodes to zero fields. *)
Definition jsonEndpoint (ep : endpoint) (body : string) (fn : Z -> string -> S -> S * (Z * ApiBody E I)) (s : S) :
    S * (Z * ApiBody E I) :=
  match Decode ep body with
  | Malformed => (s, (400, BodyBadJSON))
  | NoBody => fn 0 "" s
  | Fields port description => fn port description s
  end.

Definition route (path : string) : option endpoint :=
  if String.eqb path "/v1/open_port" then Some EpOpen
  else if String.eqb path "/v1/close_port" then Some EpClose
  else if String.eqb path "/v1/list_ports" then Some EpList
  else None.

(** [NewHandler]: the routes of one box.  Other paths and methods are the mux's
    404 and 405; its redirect of paths that are not clean is left out. *)
Definition NewHandler (boxID : string) (r : HttpRequest) (s : S) : S * (Z * ApiBody E I) :=
  match route (hq_Path r) with
  | None => (s, (404, BodyNoRoute))
  | Some ep =>
      if negb (String.eqb (hq_Method r) "POST") then (s, (405, BodyNoRoute))
      else
        jsonEndpoint ep (hq_Body r)
          (match ep with
           | EpOpen => open_port boxID
           | EpClose => fun port _ => close_port boxID port
           | EpList => fun _ _ => list_ports boxID
           end) s
  end.
End Handler.

(** ** The hub behind the spoke's connection *)

(** The requests on the wire ([openBoxPortReq] and the like). *)
Inductive SpokeReq :=
| OpenReq (boxID : string) (port : Z) (description : string)
| CloseReq (boxID : string) (port : Z)
| ListReq (boxID : string)
| AuditReq (boxID domain verdict : string) (unixSec : Z).

Section Hub.
Context {M : Type} `{BoxManager M}.

(** What a call can end in: the spoke is not connected, the hub offers no port
    service, or its error. *)
Inductive LinkError := LinkDown | LinkNoService | LinkHub (e : HubError).

(** [dispatchSpokeRequest] on the connection of spoke [name]; [rnd] and [now] are
    the hub's random bytes and clock. *)
Definition dispatchSpokeRequest (ports : bool) (name : string) (rnd : option (list Z)) (now : Z) (r : SpokeReq)
    (s : Server M) : Server M * res LinkError (list ProxyRecord) :=
  if negb ports then (s, Err LinkNoService)
  else
    let '(s', out) :=
      match r with
      | OpenReq boxID port description => serve_port name boxID (PortOpen rnd now port description) s
      | CloseReq boxID port => serve_port name boxID (PortClose port) s
      | ListReq boxID => serve_port name boxID PortList s
      | AuditReq boxID domain verdict unixSec => serve_port name boxID (PortAudit domain verdict (unixSec * Second)) s
      end in
    (s', match out with Ok l => Ok l | Err e => Err (LinkHub e) end).

(** The spoke's side: its name at the hub, whether a connection is attached, the
    hub, and what the hub's random source and clock give to each of the calls to
    come. *)
Record Link := MkLink {
  lk_name : string;
  lk_up : bool;
  lk_hub : Server M;
  lk_rnd : nat -> option (list Z);
  lk_now : nat -> Z;
  lk_calls : nat;
}.

(** [HubCaller.call] with the hub's answer. *)
Definition hub_request (r : SpokeReq) (l : Link) : Link * res LinkError (list ProxyRecord) :=
  if negb (lk_up l) then (l, Err LinkDown)
  else
    let '(s', out) := dispatchSpokeRequest true (lk_name l) (lk_rnd l (lk_calls l)) (lk_now l (lk_calls l)) r (lk_hub l) in
    (MkLink (lk_name l) (lk_up l) s' (lk_rnd l) (lk_now l) (S (lk_calls l)), out).

Definition HubCaller_OpenBoxPort (boxID : string) (port : Z) (description : string) (l : Link) : Link * res LinkError ProxyRecord :=
  match hub_request (OpenReq boxID port description) l with
  | (l', Ok (rec :: _)) => (l', Ok rec)
  | (l', Ok []) => (l', Err LinkNoService)
  | (l', Err e) => (l', Err e)
  end.

Definition HubCaller_CloseBoxPort (boxID : string) (port : Z) (l : Link) : Link * res LinkError () :=
  match hub_request (CloseReq boxID port) l with
  | (l', Ok _) => (l', Ok ())
  | (l', Err e) => (l', Err e)
  end.

Definition HubCaller_ListBoxPorts (boxID : string) (l : Link) : Link * res LinkError (list ProxyRecord) :=
  hub_request (ListReq boxID) l.

#[export] Instance Link_PortService : PortService Link LinkError ProxyRecord := {
  svc_OpenBoxPort := HubCaller_OpenBoxPort;
  svc_CloseBoxPort := HubCaller_CloseBoxPort;
  svc_ListBoxPorts := HubCaller_ListBoxPorts;
}.

(** The records a response shows to the box. *)
Definition shown (b : ApiBody LinkError ProxyRecord) : list ProxyRecord :=
  match b with
  | BodyPort i => [i]
  | BodyPorts l => l
  | _ => []
  end.

(** One call reaches only the box it names, on the spoke it comes from. *)
Definition reaches_only (boxID : string) (l l' : Link) : Prop :=
  lk_name l' = lk_name l /\ confined boxID (lk_hub l) (lk_hub l') /\
  (on_spoke (lk_name l) boxID (lk_hub l) = false -> lk_hub l' = lk_hub l).

Definition req_box (r : SpokeReq) : string :=
  match r with OpenReq b _ _ | CloseReq b _ | ListReq b | AuditReq b _ _ _ => b end.

(** The slug the hub would draw next is free. *)
Definition slug_free (l : Link) : Prop :=
  forall b, lk_rnd l (lk_calls l) = Some b -> sv_proxies (lk_hub l) !! hex_encode b = None.

Lemma hub_request_scoped r l :
  proxies_ok (sv_proxies (lk_hub l)) -> slug_free l ->
  reaches_only (req_box r) l (hub_request r l).1 /\
  (forall out, (hub_request r l).2 = Ok out ->
     lk_up l = true /\ on_spoke (lk_name l) (req_box r) (lk_hub l) = true /\
     Forall (fun p => EqualFold (pr_BoxID p) (req_box r) = true) out) /\
  (lk_up l = false -> (hub_request r l).1 = l).
Proof.
  intros Hok Hfree. unfold hub_request. destruct (lk_up l) eqn:Hup; cbn [negb].
  2:{ split; [|done]. split; [done|]. split; [by apply confined_refl|done]. }
  set (preq := match r with
               | OpenReq _ port d => PortOpen (lk_rnd l (lk_calls l)) (lk_now l (lk_calls l)) port d
               | CloseReq _ port => PortClose port
               | ListReq _ => PortList
               | AuditReq _ d v t => PortAudit d v (t * Second)
               end).
  assert (Hfresh : fresh_slug preq (lk_hub l)).
  { destruct r; try done. cbn. destruct (lk_rnd l (lk_calls l)) eqn:Hr; [|done]. by apply Hfree. }
  destruct (box_port_requests_scoped (lk_name l) (req_box r) preq (lk_hub l) Hok Hfresh) as (Href & Hconf & Hout).
  assert (Hd : dispatchSpokeRequest true (lk_name l) (lk_rnd l (lk_calls l)) (lk_now l (lk_calls l)) r (lk_hub l) =
    ((serve_port (lk_name l) (req_box r) preq (lk_hub l)).1,
     match (serve_port (lk_name l) (req_box r) preq (lk_hub l)).2 with Ok x => Ok x | Err e => Err (LinkHub e) end)).
  { unfold dispatchSpokeRequest. cbn [negb]. destruct r; cbn [req_box preq]; by destruct (serve_port _ _ _ _). }
  rewrite Hd. clear Hd. destruct (serve_port (lk_name l) (req_box r) preq (lk_hub l)) as [s' out] eqn:Hs. cbn [fst snd] in *.
  split; [|split; [|done]].
  - split; [done|]. split; [done|]. intros Hoff. by injection (Href Hoff) as -> _.
  - intros o Ho. destruct out as [x|e]; [|done]. injection Ho as <-. split; [done|]. split; [|by apply Hout].
    destruct (on_spoke _ _ _) eqn:Hon; [done|]. by specialize (Href eq_refl).
Qed.
End Hub.

(** ** What a request on a box's socket can do *)

Section Scope.
Context {M : Type} `{BoxManager M}.
Implicit Types (l : Link (M := M)).

(** The outcome of a request on the socket of [boxID]. *)
Definition own_box (boxID : string) l (out : Link (M := M) * (Z * ApiBody LinkError ProxyRecord)) : Prop :=
  let '(l', (status, body)) := out in
  reaches_only boxID l l' /\
  Forall (fun p => EqualFold (pr_BoxID p) boxID = true) (shown body) /\
  (status = 200 -> boxID <> "" /\ lk_up l = true /\ on_spoke (lk_name l) boxID (lk_hub l) = true) /\
  (status <> 200 -> status <> 502 -> l' = l) /\
  (status <> 200 -> shown body = []).

Lemma own_box_refused boxID l status body :
  proxies_ok (sv_proxies (lk_hub l)) -> status <> 200 -> shown body = [] -> own_box boxID l (l, (status, body)).
Proof.
  intros Hok Hs Hb. split_and!; try done; [split; [done|split; [by apply confined_refl|done]]|rewrite Hb; constructor].
Qed.

(** A forwarded request, answered 200 with some records or 502. *)
Lemma own_box_call r l status body :
  proxies_ok (sv_proxies (lk_hub l)) -> slug_free l -> req_box r <> "" ->
  match (hub_request r l).2 with
  | Ok out => status = 200 -> shown body ⊆ out
  | Err _ => status = 502
  end ->
  (status = 502 /\ shown body = []) \/ status = 200 ->
  own_box (req_box r) l ((hub_request r l).1, (status, body)).
Proof.
  intros Hok Hfree Hne Hres Hst. destruct (hub_request_scoped r l Hok Hfree) as (Hr & Hout & _).
  split_and!; [done| |intros ->|intros; naive_solver|naive_solver].
  - destruct Hst as [[_ ->]| ->]; [constructor|]. destruct (hub_request r l).2 as [out|e]; [|done].
    destruct (Hout out eq_refl) as (_ & _ & Hall). apply Forall_forall. intros p Hp. rewrite Forall_forall in Hall.
    by apply Hall, Hres.
  - destruct (hub_request r l).2 as [out|e]; [|done]. destruct (Hout out eq_refl) as (? & ? & _). done.
Qed.

(** What a request asks for: the call it should make, or the status it should be
    refused with. *)
Definition asked (Decode : endpoint -> string -> Decoded) (boxID : string) (r : HttpRequest) : Z + SpokeReq :=
  let on ep (call : Z -> string -> Z + SpokeReq) :=
    if negb (String.eqb (hq_Method r) "POST") then inl 405
    else match Decode ep (hq_Body r) with
         | Malformed => inl 400
         | Fields port description => if String.eqb boxID "" then inl 400 else call port description
         | NoBody => if String.eqb boxID "" then inl 400 else call 0 ""
         end in
  let in_range (port : Z) (q : SpokeReq) : Z + SpokeReq := if (port <? 1) || (65535 <? port) then inl 400 else inr q in
  if String.eqb (hq_Path r) "/v1/open_port" then on EpOpen (fun port d => in_range port (OpenReq boxID port d))
  else if String.eqb (hq_Path r) "/v1/close_port" then on EpClose (fun port _ => in_range port (CloseReq boxID port))
  else if String.eqb (hq_Path r) "/v1/list_ports" then on EpList (fun _ _ => inr (ListReq boxID))
  else inl 404.

(** The hub answers an open request with the one proxy. *)
Lemma open_answers_one boxID port d l out : (hub_request (OpenReq boxID port d) l).2 = Ok out -> exists rec, out = [rec].
Proof.
  unfold hub_request. destruct (negb (lk_up l)); [done|]. unfold dispatchSpokeRequest, serve_port. cbn [negb].
  destruct (OpenBoxPort _ _ _ _ _ _ _) as [s' [rec|e]]; cbn; [intros [= <-]; eauto|done].
Qed.

Lemma asked_served Decode boxID r l :
  match asked Decode boxID r with
  | inl status => (NewHandler Decode boxID r l).1 = l /\ (NewHandler Decode boxID r l).2.1 = status
  | inr call =>
      (NewHandler Decode boxID r l).1 = (hub_request call l).1 /\
      (NewHandler Decode boxID r l).2.1 = if is_ok (hub_request call l).2 then 200 else 502
  end.
Proof.
  assert (Hport : forall port, checkPort port = negb ((port <? 1) || (65535 <? port))).
  { intros port. unfold checkPort. rewrite negb_orb, !Z.ltb_antisym, !negb_involutive. done. }
  unfold asked, NewHandler, route, jsonEndpoint, open_port, close_port, list_ports, checkBox. cbn [svc_OpenBoxPort svc_CloseBoxPort svc_ListBoxPorts Link_PortService].
  destruct (String.eqb (hq_Path r) "/v1/open_port"); [|destruct (String.eqb (hq_Path r) "/v1/close_port");
    [|destruct (String.eqb (hq_Path r) "/v1/list_ports"); [|done]]];
  (destruct (negb (String.eqb (hq_Method r) "POST")); [done|]);
  (destruct (Decode _ _) as [port d| |]; [| |done]); (destruct (String.eqb boxID ""); [done|]); cbn [negb]; rewrite ?Hport, ?negb_involutive.
  all: try (destruct ((_ <? 1) || _); [done|]).
  all: unfold HubCaller_OpenBoxPort, HubCaller_CloseBoxPort, HubCaller_ListBoxPorts.
  all: try match goal with |- context [hub_request (OpenReq ?b ?p ?d) ?k] =>
    pose proof (open_answers_one b p d k) as Ho; destruct (hub_request (OpenReq b p d) k) as [l' [out|e]];
      [destruct (Ho out eq_refl) as [rec ->]|]; done end.
  all: match goal with |- context [hub_request ?q ?k] => by destruct (hub_request q k) as [l' [out|e]] end.
Qed.

End Scope.

(** ** A concrete run *)

Module ApiDemo.
(** The hub of [RegistryDemo], seen from the spoke "edge", which runs "db". *)
Definition link (up : bool) : Link (M := ()) :=
  MkLink "edge" up RegistryDemo.srv (fun _ => Some [1]) (fun _ => 7) 0.

(** The bodies these requests carry. *)
Definition decode (_ : endpoint) (body : string) : Decoded :=
  if String.eqb body "" then NoBody else if String.eqb body "80" then Fields 80 "site" else Malformed.

Definition open80 : HttpRequest := MkHttpRequest "POST" "/v1/open_port" "80".
End ApiDemo.

