(* ===== verification/Boxes.v ===== *)
(** * The life of a box on the hub (internal/hub/server.go, gc.go, hooks/hooks.go)

    Creating a box (claiming its id, running the hooks, launching it on a spoke,
    registering it), folding the spokes' inventories into the records, pausing
    and resuming, destroying, and purging the boxes of departed spokes, over the
    state of [Registry].  [createBox] is split where the source releases its
    lock or calls out, so that the interleavings of concurrent creations are
    sequences of the same phases.  Store failures, which these operations only
    log, are not modelled. *)

From S2P Require Import Prelude GoStrings Regex Sandbox Store Sha256 Enroll Remote Registry.

Local Open Scope Z_scope.

(** ** Hooks (hooks/hooks.go) *)

(** What one run of a hook executable answers: its state, and the files it asks
    for, [None] for one that does not decode. *)
Record HookResponse := MkHookResponse { hr_State : string; hr_Files : list (option InjectFile) }.

Fixpoint collect_files (acc : list InjectFile) (l : list (option InjectFile)) : list InjectFile * bool :=
  match l with
  | [] => (acc, true)
  | None :: _ => (acc, false)
  | Some f :: l' => collect_files (acc ++ [f]) l'
  end.

(** [Runner.OnCreate]: files, state, and whether every hook succeeded; [run] is
    the run of an executable on the event, [None] when it fails. *)
Fixpoint OnCreate_loop (run : string -> option HookResponse) (execs : list string)
    (files : list InjectFile) (state : gmap string string) : list InjectFile * gmap string string * bool :=
  match execs with
  | [] => (files, state, true)
  | h :: execs' =>
      match run h with
      | None => (files, state, false)
      | Some resp =>
          let state' := if String.eqb (hr_State resp) "" then state else <[h := hr_State resp]> state in
          match collect_files files (hr_Files resp) with
          | (files', false) => (files', state', false)
          | (files', true) => OnCreate_loop run execs' files' state'
          end
      end
  end.

Definition OnCreate (run : string -> option HookResponse) (execs : list string) :
    list InjectFile * gmap string string * bool := OnCreate_loop run execs [] ∅.

(** [Runner.OnDestroy]: the runs it makes, each hook with its own state. *)
Definition OnDestroy (execs : list string) (state : gmap string string) : list (string * string) :=
  omap (fun h => (fun st => (h, st)) <$> state !! h) execs.

Definition syncTerminateGrace : Z := Minute.

(** The text by which a not-found error is recognised after it crossed the wire. *)
Definition ErrBoxNotFound_text : string := "no managed box matches".
Definition IsNotFound (err : string) : bool := Contains err ErrBoxNotFound_text.

Section Boxes.
Context {M : Type} `{!BoxManager M}.
Implicit Types (s : Server M).

Definition runDestroyHooks (boxID desc : string) (state : option (gmap string string)) s : Server M :=
  let st := default ∅ state in
  match sv_hooks s with
  | None => s
  | Some _ =>
      if decide (st = ∅) then s else with_destroyed (sv_destroyed s ++ [(boxID, desc, st)]) s
  end.

(** A removed or tombstoned session: replay its hooks, drop its proxies. *)
Definition tear_down s (tb : string * option (gmap string string)) : Server M :=
  deleteProxiesForBox tb.1 (runDestroyHooks tb.1 "" tb.2 s).

Definition delete_records (toks : list string) s : Server M :=
  with_boxes (foldl (fun t tok => DeleteBox tok t) (sv_boxes s) toks) s.

(** ** Box ids *)

Definition holds_id (boxID : string) (sess : session) : bool :=
  EqualFold (ss_BoxID sess) boxID && negb (terminated sess).

Definition reserveBoxID (boxID : string) s : Server M * res HubError () :=
  if String.eqb boxID "" then (s, Ok ())
  else
    let key := ToLower boxID in
    match first_match (holds_id boxID) ((map_to_list (sv_byToken s)).*2) with
    | Some sess => (s, Err (ErrIDInUse (ss_SpokeName sess)))
    | None =>
        if decide (key ∈ sv_pending s) then (s, Err ErrIDPending)
        else (with_pending ({[key]} ∪ sv_pending s) s, Ok ())
    end.

Definition releaseBoxID (boxID : string) s : Server M :=
  if String.eqb boxID "" then s else with_pending (sv_pending s ∖ {[ToLower boxID]}) s.

Definition dropTerminatedRecords (boxID keepToken : string) s : Server M :=
  if String.eqb boxID "" then s
  else
    let drop (kv : string * session) : Prop :=
      kv.1 <> keepToken /\ EqualFold (ss_BoxID kv.2) boxID = true /\ terminated kv.2 = true in
    let dropped := (filter drop (map_to_list (sv_byToken s))).*1 in
    delete_records dropped (with_byToken (filter (fun kv => ~ drop kv) (sv_byToken s)) s).

(** ** Folding in a spoke's inventory *)

Definition find_live (sess : session) (boxes : list Box) : option Box :=
  first_match (fun b => negb (String.eqb (box_InstanceID b) "") && String.eqb (ss_Generation sess) (box_InstanceID b)) boxes.

Definition observe (now : Z) (b : Box) (sess : session) : session :=
  MkSession (ss_Token sess) (ss_Generation sess) (ss_CreatedAt sess) (ss_HookState sess) (ss_BoxID sess)
    (ss_Description sess) (ss_SpokeName sess) (ss_Phase sess) (ss_InitError sess) LifecycleRunning (Some now)
    (box_Name b) (box_Image b) (box_State b).

Definition entomb (sess : session) : session :=
  MkSession (ss_Token sess) (ss_Generation sess) (ss_CreatedAt sess) (ss_HookState sess) (ss_BoxID sess)
    (ss_Description sess) (ss_SpokeName sess) (ss_Phase sess) (ss_InitError sess) LifecycleTerminated
    (ss_LastSeen sess) (ss_Name sess) (ss_Image sess) (ss_InstanceState sess).

(** The new state of a session, if the listing changes it. *)
Definition synced (now : Z) (boxes : list Box) (sess : session) : option session :=
  match find_live sess boxes with
  | Some b => Some (observe now b sess)
  | None =>
      if terminated sess || (now - ss_CreatedAt sess <? syncTerminateGrace) then None
      else Some (entomb sess)
  end.

(** Is the session found gone by this listing? *)
Definition torn_by (now : Z) (boxes : list Box) (sess : session) : bool :=
  match find_live sess boxes with
  | Some _ => false
  | None => negb (terminated sess || (now - ss_CreatedAt sess <? syncTerminateGrace))
  end.

(** The sessions of a spoke, as collected under the lock. *)
Definition sync_snapshot (spokeName : string) s : list (string * session) :=
  filter (fun kv => resolveStored (ss_SpokeName kv.2) s = spokeName) (map_to_list (sv_byToken s)).

(** One iteration: the session object [kv.2] was collected earlier, so it may
    have left the registry since; its stored record is written all the same. *)
Definition sync_one (now : Z) (boxes : list Box)
    (acc : Server M * list (string * option (gmap string string))) (kv : string * session) :
    Server M * list (string * option (gmap string string)) :=
  let '(s, torn) := acc in
  let cur := sv_byToken s !! kv.1 in
  let sess := default kv.2 cur in
  match synced now boxes sess with
  | None => (s, torn)
  | Some sess' =>
      let reg := match cur with Some _ => <[kv.1 := sess']> (sv_byToken s) | None => sv_byToken s end in
      (with_boxes (PutBox (persistLocked sess') (sv_boxes s)) (with_byToken reg s),
       if torn_by now boxes sess then torn ++ [(ss_BoxID sess, ss_HookState sess)] else torn)
  end.

Definition sync_sessions (now : Z) (boxes : list Box) (snap : list (string * session)) s : Server M :=
  let '(s1, torn) := foldl (sync_one now boxes) (s, []) snap in
  foldl tear_down s1 torn.

Definition syncSpokeInventory (now : Z) (spokeName : string) (boxes : list Box) s : Server M :=
  sync_sessions now boxes (sync_snapshot spokeName s) s.

Definition syncSpoke (now : Z) (name : string) (c : nat) s : Server M :=
  match rpc_List c s with
  | Err _ => s
  | Ok boxes => syncSpokeInventory now name boxes s
  end.

(** [reconcileProxies]: does the listing of its spoke keep the proxy? *)
Definition proxy_alive (boxes : list Box) (p : ProxyRecord) : bool :=
  existsb (fun b =>
    if negb (String.eqb (pr_InstanceID p) "") then HasPrefix (pr_InstanceID p) (box_InstanceID b)
    else negb (String.eqb (box_BoxID b) "") && EqualFold (box_BoxID b) (pr_BoxID p)) boxes.

Definition reconcileProxies (boxesBySpoke : gmap string (list Box)) s : Server M :=
  foldl (fun s p =>
    match boxesBySpoke !! resolveStored (pr_Spoke p) s with
    | None => s
    | Some boxes =>
        if proxy_alive boxes p then s
        else with_proxies (DeleteProxy (pr_Slug p) (sv_proxies s)) s
    end) s (ListProxies (sv_proxies s)).

Definition list_spokes s : gmap string (list Box) :=
  omap (fun c => match rpc_List c s with Ok boxes => Some boxes | Err _ => None end) (allSpokes s).

Definition syncSpokes (now : Z) s : Server M :=
  let boxesBySpoke := list_spokes s in
  reconcileProxies boxesBySpoke
    (foldl (fun s kv => syncSpokeInventory now kv.1 kv.2 s) s (map_to_list boxesBySpoke)).

(** ** Creating a box *)

(** Validation, routing, and the claim on the id. *)
Definition createBox_begin (opts : CreateOptions) s : Server M * res HubError (string * nat) :=
  if String.eqb (co_BoxID opts) "" then (s, Err ErrBoxIDRequired)
  else if negb (ValidBoxID (co_BoxID opts)) then (s, Err ErrInvalidID)
  else
    let go spokeName :=
      match spoke spokeName s with
      | Err e => (s, Err e)
      | Ok c =>
          match reserveBoxID (co_BoxID opts) s with
          | (s', Err e) => (s', Err e)
          | (s', Ok _) => (s', Ok (spokeName, c))
          end
      end in
    if String.eqb (co_SpokeName opts) "" then
      let def := DefaultSpoke (sv_core s) in
      if String.eqb def "" then (s, Err ErrNoDefaultSpoke) else go def
    else go (co_SpokeName opts).

Definition with_files (files : list InjectFile) (opts : CreateOptions) : CreateOptions :=
  MkCreateOptions (co_BoxID opts) (co_Description opts) (co_SpokeName opts) (co_Files opts ++ files)
    (co_DiskBytes opts).

(** The hooks and the launch on the spoke. *)
Definition createBox_launch (run : string -> option HookResponse) (opts : CreateOptions) (c : nat) s :
    Server M * res HubError (option (gmap string string) * CreateResult) :=
  let launch files hookState :=
    match rpc c (bm_Create (with_files files opts)) s with
    | (s', Err e) => (runDestroyHooks (co_BoxID opts) (co_Description opts) hookState s', Err (ErrRemote e))
    | (s', Ok r) => (s', Ok (hookState, r))
    end in
  match sv_hooks s with
  | None => launch [] None
  | Some execs =>
      match OnCreate run execs with
      | (_, state, false) => (runDestroyHooks (co_BoxID opts) (co_Description opts) (Some state) s, Err ErrHook)
      | (files, state, true) => launch files (Some state)
      end
  end.

(** The session token and the registration. *)
Definition createBox_register (rnd : option (list Z)) (now : Z) (opts : CreateOptions) (spokeName : string)
    (c : nat) (hookState : option (gmap string string)) (r : CreateResult) s :
    Server M * res HubError session :=
  match hex_encode <$> rnd with
  | None =>
      (runDestroyHooks (co_BoxID opts) (co_Description opts) hookState
         (rpc c (bm_Destroy (cr_InstanceID r)) s).1, Err ErrToken)
  | Some tok =>
      let hash := sha256_hex tok in
      let sess := MkSession hash (cr_InstanceID r) now hookState (co_BoxID opts) (co_Description opts)
        spokeName (if cr_InitScriptFailed r then PhaseBroken else "ready") (cr_InitScriptOutput r)
        LifecycleRunning (Some now) "" "" "" in
      (with_byToken (<[hash := sess]> (sv_byToken s)) s, Ok sess)
  end.

(** [rnds] are the draws for the slugs, one per port. *)
Definition publishConfiguredPorts (rnds : nat -> option (list Z)) (now : Z) (sess : session)
    (ports : list PublishPort) s : Server M :=
  if String.eqb (ss_BoxID sess) "" || negb (ProxyEnabled s) then s
  else foldl (fun s '(i, p) =>
         (createProxy (rnds i) now (ss_BoxID sess) (pp_Port p)
            ("spoke:" +:+ resolveStored (ss_SpokeName sess) s) (pp_Description p) s).1)
       s (zip (seq 0 (length ports)) ports).

(** Everything after the registration. *)
Definition createBox_finish (rnds : nat -> option (list Z)) (now : Z) (spokeName : string) (c : nat)
    (r : CreateResult) (sess : session) s : Server M :=
  let s1 := with_boxes (PutBox (persistLocked sess) (sv_boxes s)) s in
  let s2 := dropTerminatedRecords (ss_BoxID sess) (ss_Token sess) s1 in
  publishConfiguredPorts rnds now sess (cr_PublishPorts r) (syncSpoke now spokeName c s2).

Definition createBox (run : string -> option HookResponse) (rnd : option (list Z))
    (rnds : nat -> option (list Z)) (now now' : Z) (opts : CreateOptions) s :
    Server M * res HubError session :=
  match createBox_begin opts s with
  | (s1, Err e) => (s1, Err e)
  | (s1, Ok (spokeName, c)) =>
      match createBox_launch run opts c s1 with
      | (s2, Err e) => (releaseBoxID (co_BoxID opts) s2, Err e)
      | (s2, Ok (hookState, r)) =>
          match createBox_register rnd now opts spokeName c hookState r s2 with
          | (s3, Err e) => (releaseBoxID (co_BoxID opts) s3, Err e)
          | (s3, Ok sess) =>
              (releaseBoxID (co_BoxID opts) (createBox_finish rnds now' spokeName c r sess s3), Ok sess)
          end
      end
  end.

(** ** Destroying a box *)

Definition idMatchesBox (boxID generation idOrName : string) : bool :=
  if String.eqb idOrName "" then false
  else if negb (String.eqb boxID "") && String.eqb boxID idOrName then true
  else negb (String.eqb generation "") && String.eqb generation idOrName.

Definition boxMatchesSession (sess : session) (idOrName : string) : bool :=
  idMatchesBox (ss_BoxID sess) (ss_Generation sess) idOrName.

(** The first connected spoke whose listing has the box. *)
Definition spokeHostingBox (idOrName : string) s : option nat :=
  snd <$> first_match (fun kv =>
    match rpc_List kv.2 s with
    | Err _ => false
    | Ok boxes => existsb (fun b => idMatchesBox (box_BoxID b) (box_InstanceID b) idOrName) boxes
    end) (map_to_list (allSpokes s)).

(** Drop the sessions a test selects: registry and records; the result is also
    the sessions dropped. *)
Definition drop_sessions (test : session -> bool) s : Server M * list (string * session) :=
  let dropped := filter (fun kv => test kv.2 = true) (map_to_list (sv_byToken s)) in
  (delete_records dropped.*1 (with_byToken (filter (fun kv => test kv.2 = false) (sv_byToken s)) s), dropped).

(** The end of [destroyBox]: forget every session the identifier names, replay
    the hooks of the live ones, drop the proxies. *)
Definition forget_box (idOrName : string) s : Server M :=
  let '(s1, dropped) := drop_sessions (fun sess => boxMatchesSession sess idOrName) s in
  let torn := (fun kv => (ss_BoxID kv.2, ss_HookState kv.2)) <$>
    filter (fun kv => terminated kv.2 = false) dropped in
  deleteProxiesForBox idOrName (foldl tear_down s1 torn).

(** Destroy on the spoke behind a connection, then forget. *)
Definition destroy_on (c : nat) (idOrName : string) s : Server M * res HubError () :=
  match rpc c (bm_Destroy idOrName) s with
  | (s1, Err e) => if IsNotFound e then (forget_box idOrName s1, Ok ()) else (s1, Err (ErrRemote e))
  | (s1, Ok _) => (forget_box idOrName s1, Ok ())
  end.

(** [destroyBox], the registry being ranged over in the order [order] to find
    the session. *)
Definition destroyBox_in_order (order : list session) (idOrName : string) s : Server M * res HubError () :=
  match first_match (fun sess => boxMatchesSession sess idOrName) order with
  | Some sess =>
      if terminated sess then (forget_box idOrName s, Ok ())
      else
        match spoke (ss_SpokeName sess) s with
        | Err e => (s, Err (ErrSpokeOffline e))
        | Ok c => destroy_on c idOrName s
        end
  | None =>
      match spokeHostingBox idOrName s with
      | None => (forget_box idOrName s, Ok ())
      | Some c => destroy_on c idOrName s
      end
  end.

Definition destroyBox (idOrName : string) s : Server M * res HubError () :=
  destroyBox_in_order ((map_to_list (sv_byToken s)).*2) idOrName s.

(** ** Verbs on a box *)

Definition on_live_box {A} (boxID : string) s (k : session -> nat -> Server M * res HubError A) :
    Server M * res HubError A :=
  match lookupByBoxID boxID s with
  | None => (s, Err ErrNoBox)
  | Some sess =>
      if terminated sess then (s, Err ErrTerminated)
      else
        match spoke (ss_SpokeName sess) s with
        | Err e => (s, Err e)
        | Ok c => k sess c
        end
  end.

Definition boxExec (boxID command : string) s : Server M * res HubError ExecResult :=
  if String.eqb (TrimSpace command) "" then (s, Err ErrCommand)
  else
    match lookupByBoxID boxID s with
    | None => (s, Err ErrNoBox)
    | Some sess =>
        if terminated sess then (s, Err ErrTerminated)
        else if paused sess then (s, Err ErrPaused)
        else
          match spoke (ss_SpokeName sess) s with
          | Err e => (s, Err e)
          | Ok c =>
              match rpc c (bm_Exec (ss_BoxID sess) ["/bin/sh"; "-c"; command]) s with
              | (s', Ok r) => (s', Ok r)
              | (s', Err e) => (s', Err (ErrRemote e))
              end
          end
    end.

Definition pauseBox (now : Z) (boxID : string) s : Server M * res HubError () :=
  on_live_box boxID s (fun sess c =>
    match rpc c (bm_Pause (ss_BoxID sess)) s with
    | (s', Err e) => (s', Err (ErrRemote e))
    | (s', Ok _) => (syncSpoke now (ss_SpokeName sess) c s', Ok ())
    end).

Definition resumeBox (now : Z) (boxID : string) s : Server M * res HubError () :=
  on_live_box boxID s (fun sess c =>
    match rpc c (bm_Resume (ss_BoxID sess)) s with
    | (s', Err e) => (s', Err (ErrRemote e))
    | (s', Ok _) => (syncSpoke now (ss_SpokeName sess) c s', Ok ())
    end).

(** ** Purging *)

Definition pruneSessions (reapedIDs : list string) s : Server M :=
  let '(s1, dropped) := drop_sessions (fun sess =>
    negb (String.eqb (ss_Generation sess) "") && bool_decide (ss_Generation sess ∈ reapedIDs)) s in
  foldl tear_down s1 ((fun kv => (ss_BoxID kv.2, ss_HookState kv.2)) <$> dropped).

Definition knownSpokeNames s : gset string := dom (cdb_spokes (hs_store (sv_core s))).

Definition pruneProxiesForDepartedSpokes (known : gset string) s : Server M :=
  if negb (ProxyEnabled s) then s
  else delete_slugs (filter (fun p => resolveStored (pr_Spoke p) s ∉ known) (ListProxies (sv_proxies s))) s.

Definition PruneDepartedSpokes s : Server M * list string :=
  match hs_hub (sv_core s) with
  | None => (s, [])
  | Some _ =>
      let known := knownSpokeNames s in
      let '(s1, dropped) := drop_sessions (fun sess =>
        negb (bool_decide (resolveStored (ss_SpokeName sess) s ∈ known))) s in
      let s2 := foldl (fun s kv => runDestroyHooks (ss_BoxID kv.2) "" (ss_HookState kv.2) s) s1 dropped in
      (pruneProxiesForDepartedSpokes known s2,
       filter (fun id => id <> "") ((fun kv => ss_BoxID kv.2) <$> dropped))
  end.

Definition Restore s : Server M * nat :=
  let reg := foldl (fun t ps => <[br_Token ps := sessionFromPersisted ps]> t) (sv_byToken s)
    (ListBoxes (sv_boxes s)) in
  ((PruneDepartedSpokes (with_byToken reg s)).1, size reg).

(** ** Listing *)

(** Newest first, then by token. *)
Definition record_le (a b : BoxRow) : Prop :=
  br_CreatedAt b < br_CreatedAt a \/ (br_CreatedAt a = br_CreatedAt b /\ String.le (br_Token a) (br_Token b)).

#[export] Instance record_le_dec : RelDecision record_le.
Proof. intros a b. unfold record_le. apply _. Defined.

Definition boxRecords s : list BoxRow :=
  merge_sort record_le (persistLocked <$> (map_to_list (sv_byToken s)).*2).

Definition shortInstanceID (id : string) : string := String.substring 0 12 id.

Definition boxFromRecord (ps : BoxRow) (connected : gset string) s : Box :=
  let sp := resolveStored (br_Spoke ps) s in
  let observed := if String.eqb (br_ObservedState ps) "" then "running" else br_ObservedState ps in
  let '(state, status) :=
    match br_Lifecycle ps with
    | LifecycleTerminated => ("terminated", "gone from its spoke")
    | LifecycleRunning =>
        if decide (sp ∈ connected) then (observed, observed) else (StateUnreachable, "spoke offline")
    end in
  MkBox (shortInstanceID (br_InstanceID ps)) (br_ObservedName ps) (br_BoxID ps) (br_Description ps) sp
    (br_ObservedImage ps) state status (if String.eqb (br_Status ps) PhaseBroken then PhaseBroken else "")
    (br_LastError ps) (br_CreatedAt ps / Second)
    (match br_ObservedAt ps with Some t => t / Second | None => 0 end).

Definition connectedSpokeSet s : gset string := dom (allSpokes s).

Definition listBoxes s : list Box :=
  (fun ps => boxFromRecord ps (connectedSpokeSet s) s) <$> boxRecords s.

(** ** What the helpers leave alone *)

(** The registry, the records, the claims and the cluster state are the same. *)
Definition quiet s s' : Prop :=
  sv_byToken s' = sv_byToken s /\ sv_boxes s' = sv_boxes s /\ sv_pending s' = sv_pending s /\
  sv_core s' = sv_core s /\ sv_proxyBaseDomain s' = sv_proxyBaseDomain s /\ sv_hooks s' = sv_hooks s.

#[export] Instance quiet_preorder : PreOrder quiet.
Proof.
  split; [by intros s|]. unfold quiet. intros a b c (-> & -> & -> & -> & -> & ->). done.
Qed.

Lemma foldl_quiet {A} (f : Server M -> A -> Server M) l s :
  (forall s x, quiet s (f s x)) -> quiet s (foldl f s l).
Proof. intros Hf. revert s. induction l as [|x l IH]; intros s; simpl; [done|]. etrans; [apply Hf|apply IH]. Qed.

Lemma foldl_keeps {A B} (g : Server M -> B) (f : Server M -> A -> Server M) l s :
  (forall s x, g (f s x) = g s) -> g (foldl f s l) = g s.
Proof. intros Hf. revert s. induction l as [|x l IH]; intros s; simpl; [done|]. by rewrite IH. Qed.

Lemma runDestroyHooks_quiet b d st s : quiet s (runDestroyHooks b d st s).
Proof. unfold runDestroyHooks. repeat case_match; done. Qed.

Lemma runDestroyHooks_proxies b d st s : sv_proxies (runDestroyHooks b d st s) = sv_proxies s.
Proof. unfold runDestroyHooks. repeat case_match; done. Qed.

Lemma delete_slugs_quiet l s : quiet s (delete_slugs l s).
Proof. unfold delete_slugs. by apply foldl_quiet. Qed.

Lemma deleteProxiesForBox_quiet b s : quiet s (deleteProxiesForBox b s).
Proof. unfold deleteProxiesForBox. case_match; [done|]. apply delete_slugs_quiet. Qed.

Lemma tear_down_quiet s tb : quiet s (tear_down s tb).
Proof. unfold tear_down. etrans; [apply runDestroyHooks_quiet|apply deleteProxiesForBox_quiet]. Qed.

Lemma tear_downs_quiet l s : quiet s (foldl tear_down s l).
Proof. apply foldl_quiet, tear_down_quiet. Qed.

Lemma rpc_quiet {A} c (f : M -> M * res string A) s : quiet s (rpc c f s).1.
Proof. unfold rpc. case_match; [|done]. by destruct (f m). Qed.

Lemma createProxy_quiet rnd now b p by_ d s : quiet s (createProxy rnd now b p by_ d s).1.
Proof. unfold createProxy. repeat case_match; done. Qed.

Lemma publish_quiet rnds now sess ports s : quiet s (publishConfiguredPorts rnds now sess ports s).
Proof.
  unfold publishConfiguredPorts. case_match; [done|]. apply foldl_quiet.
  intros s' [i q]. apply createProxy_quiet.
Qed.

Lemma reconcileProxies_quiet m s : quiet s (reconcileProxies m s).
Proof. unfold reconcileProxies. apply foldl_quiet. intros s' q. repeat case_match; done. Qed.

(** The same for the claim that the proxy table is well formed. *)
Lemma foldl_proxies_ok {A} (f : Server M -> A -> Server M) l s :
  (forall s x, proxies_ok (sv_proxies s) -> proxies_ok (sv_proxies (f s x))) ->
  proxies_ok (sv_proxies s) -> proxies_ok (sv_proxies (foldl f s l)).
Proof. intros Hf. revert s. induction l as [|x l IH]; intros s; simpl; auto. Qed.

Lemma delete_slugs_ok l s : proxies_ok (sv_proxies s) -> proxies_ok (sv_proxies (delete_slugs l s)).
Proof. apply foldl_proxies_ok. intros s' q. simpl. apply proxies_ok_delete. Qed.

Lemma deleteProxiesForBox_ok b s : proxies_ok (sv_proxies s) -> proxies_ok (sv_proxies (deleteProxiesForBox b s)).
Proof. unfold deleteProxiesForBox. case_match; [done|]. apply delete_slugs_ok. Qed.

Lemma tear_downs_ok l s : proxies_ok (sv_proxies s) -> proxies_ok (sv_proxies (foldl tear_down s l)).
Proof.
  apply foldl_proxies_ok. intros s' tb Hok. unfold tear_down. apply deleteProxiesForBox_ok.
  by rewrite runDestroyHooks_proxies.
Qed.

Lemma rpc_proxies {A} c (f : M -> M * res string A) s : sv_proxies (rpc c f s).1 = sv_proxies s.
Proof. unfold rpc. case_match; [|done]. by destruct (f m). Qed.

Lemma createProxy_ok rnd now b p by_ d s :
  proxies_ok (sv_proxies s) -> proxies_ok (sv_proxies (createProxy rnd now b p by_ d s).1).
Proof.
  intros Hok. destruct (createProxy rnd now b p by_ d s) as [s' [rec|e]] eqn:He.
  - by apply createProxy_Ok in He as (_ & ? & _).
  - by apply createProxy_Err in He as (_ & ? & _).
Qed.

(** ** Dropping sessions *)

Lemma foldl_delete_lookup (ks : list string) (t : BoxTable) k :
  foldl (fun t tok => DeleteBox tok t) t ks !! k = if decide (k ∈ ks) then None else t !! k.
Proof.
  unfold DeleteBox. revert t. induction ks as [|x ks IH]; intros t; cbn [foldl].
  - by rewrite decide_False by apply not_elem_of_nil.
  - rewrite IH. destruct (decide (k = x)) as [->|Hne].
    + rewrite lookup_delete_eq, (decide_True (P := x ∈ x :: ks)) by set_solver. by case_decide.
    + rewrite lookup_delete_ne by done. repeat case_decide; set_solver.
Qed.

Lemma elem_of_filter_keys (P : string * session -> Prop) `{!forall x, Decision (P x)}
    (m : gmap string session) k :
  k ∈ (filter P (map_to_list m)).*1 <-> exists v, m !! k = Some v /\ P (k, v).
Proof.
  rewrite list_elem_of_fmap. split.
  - intros ([k' v] & -> & [HP Hin]%list_elem_of_filter). apply elem_of_map_to_list in Hin. eauto.
  - intros (v & Hin & HP). exists (k, v). split; [done|].
    apply list_elem_of_filter. split; [done|]. by apply elem_of_map_to_list.
Qed.

(** The records are the stored form of the registry, session by session. *)
Definition mirrored s : Prop := sv_boxes s = persistLocked <$> sv_byToken s /\ registry_keyed s.

Lemma mirrored_quiet s s' : quiet s s' -> mirrored s -> mirrored s'.
Proof. unfold quiet, mirrored, registry_keyed. intros (-> & -> & _). done. Qed.

Lemma mirrored_drop (P : string * session -> Prop) `{!forall x, Decision (P x)} s :
  mirrored s ->
  mirrored (delete_records (filter P (map_to_list (sv_byToken s))).*1
    (with_byToken (filter (fun kv => ~ P kv) (sv_byToken s)) s)).
Proof.
  intros [Hm Hk]. split.
  - simpl. rewrite Hm. apply map_eq. intros k. rewrite foldl_delete_lookup, !lookup_fmap, map_lookup_filter.
    destruct (sv_byToken s !! k) as [v|] eqn:Hv; simpl; [|by case_decide].
    destruct (decide (P (k, v))) as [HP|HP].
    + rewrite decide_True by (apply elem_of_filter_keys; eauto).
      by rewrite option_guard_False by naive_solver.
    + rewrite decide_False by (rewrite elem_of_filter_keys; naive_solver).
      by rewrite option_guard_True by done.
  - intros tok sess Hin. simpl in Hin. apply map_lookup_filter_Some in Hin as [Hin _]. by apply Hk.
Qed.

Lemma drop_sessions_eq test s :
  drop_sessions test s =
  (delete_records (filter (fun kv => test kv.2 = true) (map_to_list (sv_byToken s))).*1
     (with_byToken (filter (fun kv => ~ test kv.2 = true) (sv_byToken s)) s),
   filter (fun kv => test kv.2 = true) (map_to_list (sv_byToken s))).
Proof.
  unfold drop_sessions. do 3 f_equal. apply map_filter_ext. intros k v _. simpl. by rewrite not_true_iff_false.
Qed.

Lemma mirrored_drop_sessions test s : mirrored s -> mirrored (drop_sessions test s).1.
Proof. rewrite drop_sessions_eq. apply (mirrored_drop (fun kv => test kv.2 = true)). Qed.

Lemma mirrored_dropTerminated boxID keep s : mirrored s -> mirrored (dropTerminatedRecords boxID keep s).
Proof. intros Hm. unfold dropTerminatedRecords. case_match; [done|]. by apply mirrored_drop. Qed.

(** ** Folding in an inventory *)

(** A session keeps its identity through a sync. *)
Definition same_box (a b : session) : Prop :=
  ss_Token a = ss_Token b /\ ss_Generation a = ss_Generation b /\ ss_CreatedAt a = ss_CreatedAt b /\
  ss_HookState a = ss_HookState b /\ ss_BoxID a = ss_BoxID b /\ ss_SpokeName a = ss_SpokeName b /\
  ss_Phase a = ss_Phase b.

Lemma synced_same now boxes sess sess' : synced now boxes sess = Some sess' -> same_box sess' sess.
Proof. unfold synced. repeat case_match; intros; simplify_eq; done. Qed.

Lemma sync_one_mirrored now boxes s torn kv sess :
  mirrored s -> sv_byToken s !! kv.1 = Some sess -> mirrored (sync_one now boxes (s, torn) kv).1.
Proof.
  intros [Hm Hk] Hin. unfold sync_one. rewrite Hin. simpl.
  destruct (synced now boxes sess) as [sess'|] eqn:Hs; [|done]. simpl.
  assert (Ht : ss_Token sess' = kv.1).
  { apply synced_same in Hs as [-> _]. by apply Hk. }
  split; simpl.
  - unfold PutBox. simpl. by rewrite Ht, Hm, fmap_insert.
  - intros tok x. simpl. intros [[<- <-]|[_ ?]]%lookup_insert_Some; auto.
Qed.

(** What a listing makes of one session. *)
Definition after_sync (now : Z) (boxes : list Box) (sess : session) : session :=
  default sess (synced now boxes sess).

Definition torn_list (now : Z) (boxes : list Box) (snap : list (string * session)) :
    list (string * option (gmap string string)) :=
  (fun kv => (ss_BoxID kv.2, ss_HookState kv.2)) <$> filter (fun kv => torn_by now boxes kv.2 = true) snap.

Lemma torn_not_synced now boxes sess : synced now boxes sess = None -> torn_by now boxes sess = false.
Proof. unfold synced, torn_by. repeat case_match; intros; simplify_eq; done. Qed.

(** The loop over sessions that are all still registered. *)
Lemma sync_fold now boxes snap : forall s torn,
  NoDup snap.*1 -> (forall kv, kv ∈ snap -> sv_byToken s !! kv.1 = Some kv.2) ->
  let r := foldl (sync_one now boxes) (s, torn) snap in
  r.2 = torn ++ torn_list now boxes snap /\
  sv_proxies r.1 = sv_proxies s /\ sv_destroyed r.1 = sv_destroyed s /\ sv_pending r.1 = sv_pending s /\
  sv_core r.1 = sv_core s /\ sv_hooks r.1 = sv_hooks s /\ sv_proxyBaseDomain r.1 = sv_proxyBaseDomain s /\
  (forall k, sv_byToken r.1 !! k =
     (fun v => if decide (k ∈ snap.*1) then after_sync now boxes v else v) <$> sv_byToken s !! k) /\
  (mirrored s -> mirrored r.1).
Proof.
  induction snap as [|[k v] snap IH]; intros s torn Hnd Hin; cbn [foldl fst snd].
  - unfold torn_list. rewrite app_nil_r. split_and!; try done.
    intros k. destruct (sv_byToken s !! k); simpl; [|done]. done.
  - cbn [fmap list_fmap fst] in Hnd. apply NoDup_cons in Hnd as [Hk Hnd].
    assert (Hv : sv_byToken s !! k = Some v) by (apply (Hin (k, v)); set_solver).
    assert (Hstep : exists s1, sync_one now boxes (s, torn) (k, v) = (s1, torn ++ torn_list now boxes [(k, v)]) /\
      sv_byToken s1 = <[k := after_sync now boxes v]> (sv_byToken s) /\
      sv_proxies s1 = sv_proxies s /\ sv_destroyed s1 = sv_destroyed s /\ sv_pending s1 = sv_pending s /\
      sv_core s1 = sv_core s /\ sv_hooks s1 = sv_hooks s /\ sv_proxyBaseDomain s1 = sv_proxyBaseDomain s).
    { unfold sync_one, after_sync, torn_list. simpl. rewrite Hv. simpl.
      destruct (synced now boxes v) as [v'|] eqn:Hs.
      - eexists. split; [f_equal|split_and!; done]. rewrite filter_cons. cbn [snd].
        destruct (torn_by now boxes v); simpl; [done|by rewrite app_nil_r].
      - eexists. split; [f_equal|split_and!; try done].
        + rewrite filter_cons. cbn [snd]. rewrite (torn_not_synced _ _ _ Hs). simpl. by rewrite app_nil_r.
        + simpl. by rewrite insert_id. }
    destruct Hstep as (s1 & Hs1 & Hb & Hp & Hd & Hpe & Hc & Hh & Hpd).
    assert (Hm1 : mirrored s -> mirrored s1).
    { intros Hm. pose proof (sync_one_mirrored now boxes s torn (k, v) v Hm Hv) as H. by rewrite Hs1 in H. }
    rewrite Hs1. specialize (IH s1 (torn ++ torn_list now boxes [(k, v)]) Hnd).
    destruct IH as (IHt & IHp & IHd & IHpe & IHc & IHh & IHpd & IHb & IHm).
    { intros [k' v'] Hin'. simpl. rewrite Hb, lookup_insert_ne.
      - apply (Hin (k', v')). set_solver.
      - intros ->. apply Hk. apply list_elem_of_fmap. by exists (k', v'). }
    split_and!; try congruence; [| |auto].
    + rewrite IHt, <- app_assoc. f_equal. unfold torn_list. rewrite <- fmap_app, <- filter_app. done.
    + intros k'. rewrite IHb, Hb. cbn [fmap list_fmap fst].
      destruct (decide (k' = k)) as [->|Hne].
      * rewrite lookup_insert_eq, Hv. simpl. rewrite decide_False by done.
        by rewrite decide_True by set_solver.
      * rewrite lookup_insert_ne by done. destruct (sv_byToken s !! k') as [x|]; simpl; [|done].
        f_equal. destruct (decide (k' ∈ snap.*1)).
        -- by rewrite decide_True by set_solver.
        -- by rewrite decide_False by set_solver.
Qed.

Lemma snapshot_NoDup sp s : NoDup (sync_snapshot sp s).*1.
Proof.
  unfold sync_snapshot. eapply sublist_NoDup; [apply (NoDup_fst_map_to_list (sv_byToken s))|].
  apply fmap_sublist, sublist_filter.
Qed.

Lemma snapshot_elem sp s k v :
  (k, v) ∈ sync_snapshot sp s <-> sv_byToken s !! k = Some v /\ resolveStored (ss_SpokeName v) s = sp.
Proof. unfold sync_snapshot. rewrite list_elem_of_filter, elem_of_map_to_list. simpl. naive_solver. Qed.

Lemma snapshot_keys sp s k v :
  sv_byToken s !! k = Some v -> k ∈ (sync_snapshot sp s).*1 <-> resolveStored (ss_SpokeName v) s = sp.
Proof.
  intros Hv. rewrite list_elem_of_fmap. split.
  - intros ([k' v'] & -> & [Hin Hr]%snapshot_elem). simpl in *. by simplify_eq.
  - intros Hr. exists (k, v). split; [done|]. by apply snapshot_elem.
Qed.

(** [syncSpokeInventory] on every part of the state. *)
Lemma syncSpokeInventory_facts now sp boxes s :
  let s' := syncSpokeInventory now sp boxes s in
  let torn := torn_list now boxes (sync_snapshot sp s) in
  (forall k, sv_byToken s' !! k =
     (fun v => if decide (resolveStored (ss_SpokeName v) s = sp) then after_sync now boxes v else v) <$>
       sv_byToken s !! k) /\
  (mirrored s -> mirrored s') /\ (proxies_ok (sv_proxies s) -> proxies_ok (sv_proxies s')) /\
  sv_pending s' = sv_pending s /\ sv_core s' = sv_core s /\ sv_hooks s' = sv_hooks s /\
  (exists s1, s' = foldl tear_down s1 torn /\ sv_proxies s1 = sv_proxies s /\
     sv_destroyed s1 = sv_destroyed s /\ sv_hooks s1 = sv_hooks s /\ sv_proxyBaseDomain s1 = sv_proxyBaseDomain s).
Proof.
  intros s' torn. unfold s', syncSpokeInventory, sync_sessions.
  destruct (sync_fold now boxes (sync_snapshot sp s) s [] (snapshot_NoDup sp s))
    as (Ht & Hp & Hd & Hpe & Hc & Hh & Hpd & Hb & Hm).
  { intros [k v] [? _]%snapshot_elem. done. }
  destruct (foldl (sync_one now boxes) (s, []) (sync_snapshot sp s)) as [s1 torn'].
  cbn [fst snd] in *. simpl in Ht. subst torn'. fold torn.
  pose proof (tear_downs_quiet torn s1) as Hq. pose proof (tear_downs_ok torn s1) as Hok.
  destruct Hq as (Qb & Qx & Qp & Qc & _ & Qh). split_and!; try congruence.
  - intros k. rewrite Qb, Hb. destruct (sv_byToken s !! k) as [v|] eqn:Hv; simpl; [|done]. f_equal.
    destruct (decide (resolveStored (ss_SpokeName v) s = sp)) as [Hr|Hr].
    + by rewrite decide_True by (by eapply snapshot_keys).
    + rewrite decide_False; [done|]. rewrite snapshot_keys by done. done.
  - intros Hms. eapply mirrored_quiet; [apply tear_downs_quiet|auto].
  - rewrite <- Hp. done.
  - exists s1. done.
Qed.

(** ** The invariant of the registry *)

Definition good s : Prop := mirrored s /\ proxies_ok (sv_proxies s).

Lemma good_quiet s s' : quiet s s' -> proxies_ok (sv_proxies s') -> good s -> good s'.
Proof. intros Hq Hp [Hm _]. split; [|done]. by eapply mirrored_quiet. Qed.

Lemma good_pending p s : good (with_pending p s) <-> good s.
Proof. done. Qed.

Lemma good_rpc {A} c (f : M -> M * res string A) s : good s -> good (rpc c f s).1.
Proof. intros Hg. eapply good_quiet; [apply rpc_quiet| |done]. rewrite rpc_proxies. apply Hg. Qed.

Lemma good_hooks b d st s : good s -> good (runDestroyHooks b d st s).
Proof.
  intros Hg. eapply good_quiet; [apply runDestroyHooks_quiet| |done].
  rewrite runDestroyHooks_proxies. apply Hg.
Qed.

Lemma good_tear_downs l s : good s -> good (foldl tear_down s l).
Proof. intros Hg. eapply good_quiet; [apply tear_downs_quiet| |done]. apply tear_downs_ok, Hg. Qed.

Lemma good_deleteProxiesForBox b s : good s -> good (deleteProxiesForBox b s).
Proof.
  intros Hg. eapply good_quiet; [apply deleteProxiesForBox_quiet| |done]. apply deleteProxiesForBox_ok, Hg.
Qed.

Lemma good_createProxy rnd now b p by_ d s : good s -> good (createProxy rnd now b p by_ d s).1.
Proof. intros Hg. eapply good_quiet; [apply createProxy_quiet| |done]. apply createProxy_ok, Hg. Qed.

Lemma good_inventory now sp boxes s : good s -> good (syncSpokeInventory now sp boxes s).
Proof.
  intros [Hm Hp]. destruct (syncSpokeInventory_facts now sp boxes s) as (_ & ? & ? & _). split; auto.
Qed.

Lemma good_syncSpoke now name c s : good s -> good (syncSpoke now name c s).
Proof. unfold syncSpoke. case_match; [apply good_inventory|done]. Qed.

Lemma good_foldl {A} (f : Server M -> A -> Server M) l s :
  (forall s x, good s -> good (f s x)) -> good s -> good (foldl f s l).
Proof. intros Hf. revert s. induction l as [|x l IH]; intros s; simpl; auto. Qed.

Lemma good_delete_proxy slug s : good s -> good (with_proxies (DeleteProxy slug (sv_proxies s)) s).
Proof. intros Hg. eapply good_quiet; [| |done]; [done|]. apply proxies_ok_delete, Hg. Qed.

Lemma good_publish rnds now sess ports s : good s -> good (publishConfiguredPorts rnds now sess ports s).
Proof.
  unfold publishConfiguredPorts. case_match; [done|]. apply good_foldl.
  intros s' [i p]. apply good_createProxy.
Qed.

Lemma good_syncSpokes now s : good s -> good (syncSpokes now s).
Proof.
  intros Hg. unfold syncSpokes, reconcileProxies. apply good_foldl.
  - intros s' p Hg'. repeat case_match; auto using good_delete_proxy.
  - apply good_foldl; [|done]. intros s' kv. apply good_inventory.
Qed.

Lemma good_drop test s : good s -> good (drop_sessions test s).1.
Proof. intros [Hm Hp]. split; [by apply mirrored_drop_sessions|]. by rewrite drop_sessions_eq. Qed.

#[local] Hint Resolve good_rpc good_hooks good_tear_downs good_deleteProxiesForBox good_syncSpoke good_drop
  good_publish good_createProxy good_delete_proxy : llmbox.

Lemma good_begin opts s : good s -> good (createBox_begin opts s).1.
Proof. unfold createBox_begin, reserveBoxID. intros Hg. repeat case_match; simplify_eq; done. Qed.

Lemma good_launch run opts c s : good s -> good (createBox_launch run opts c s).1.
Proof.
  intros Hg. unfold createBox_launch.
  assert (Hl : forall files st, good (match rpc c (bm_Create (with_files files opts)) s with
    | (s', Err e) => (runDestroyHooks (co_BoxID opts) (co_Description opts) st s', Err (ErrRemote e))
    | (s', Ok r) => (s', Ok (st, r)) end).1).
  { intros files st. pose proof (good_rpc c (bm_Create (with_files files opts)) s Hg) as H.
    destruct (rpc c _ s) as [s' [r|e]]; simpl in *; auto with llmbox. }
  destruct (sv_hooks s); [|apply Hl]. destruct (OnCreate run l) as [[files st] []]; [apply Hl|].
  simpl. auto with llmbox.
Qed.

Lemma register_stored rnd now opts sp c st r s s' sess :
  good s -> createBox_register rnd now opts sp c st r s = (s', Ok sess) ->
  good (with_boxes (PutBox (persistLocked sess) (sv_boxes s')) s').
Proof.
  intros [[Hm Hk] Hp]. unfold createBox_register. destruct rnd as [b|]; simpl; [|done].
  intros [= <- <-]. split; [|done]. split; simpl.
  - unfold PutBox. simpl. by rewrite Hm, fmap_insert.
  - intros tok x. simpl. intros [[<- <-]|[_ ?]]%lookup_insert_Some; auto.
Qed.

Lemma good_dropTerminated b keep s : good s -> good (dropTerminatedRecords b keep s).
Proof.
  intros [Hm Hp]. split; [by apply mirrored_dropTerminated|]. unfold dropTerminatedRecords. by case_match.
Qed.

Lemma good_release b s : good s -> good (releaseBoxID b s).
Proof. intros Hg. unfold releaseBoxID. by case_match. Qed.

Lemma good_createBox run rnd rnds now now' opts s : good s -> good (createBox run rnd rnds now now' opts s).1.
Proof.
  intros Hg. unfold createBox.
  pose proof (good_begin opts s Hg) as H1. destruct (createBox_begin opts s) as [s1 [[sp c]|e]]; [|done].
  pose proof (good_launch run opts c s1 H1) as H2.
  destruct (createBox_launch run opts c s1) as [s2 [[st r]|e]]; [|by apply good_release].
  destruct (createBox_register rnd now opts sp c st r s2) as [s3 [sess|e]] eqn:Hr.
  - apply good_release. unfold createBox_finish. apply good_publish, good_syncSpoke, good_dropTerminated.
    by eapply register_stored.
  - apply good_release. unfold createBox_register in Hr. destruct rnd as [b|]; simpl in Hr; [done|].
    injection Hr as <- <-. by apply good_hooks, good_rpc.
Qed.

Lemma good_forget idOrName s : good s -> good (forget_box idOrName s).
Proof.
  intros Hg. unfold forget_box.
  match goal with |- context [drop_sessions ?t s] => pose proof (good_drop t s Hg) as Hd;
    destruct (drop_sessions t s) as [s1 l] end.
  auto with llmbox.
Qed.

Lemma good_destroyBox order x s : good s -> good (destroyBox_in_order order x s).1.
Proof.
  intros Hg.
  assert (Hd : forall c, good (destroy_on c x s).1).
  { intros c. unfold destroy_on. pose proof (good_rpc c (bm_Destroy x) s Hg) as H.
    destruct (rpc c _ s) as [s' [r|e]]; simpl in *; [by apply good_forget|].
    destruct (IsNotFound e); [by apply good_forget|done]. }
  unfold destroyBox_in_order. repeat case_match; try done; solve [by apply good_forget | apply Hd].
Qed.

Lemma good_on_live_box {A} boxID s (k : session -> nat -> Server M * res HubError A) :
  good s -> (forall sess c, good (k sess c).1) -> good (on_live_box boxID s k).1.
Proof. intros Hg Hk. unfold on_live_box. repeat case_match; simpl; auto. Qed.

Lemma good_pauseBox now boxID s : good s -> good (pauseBox now boxID s).1.
Proof.
  intros Hg. apply good_on_live_box; [done|]. intros sess c.
  pose proof (good_rpc c (bm_Pause (ss_BoxID sess)) s Hg) as H.
  destruct (rpc c _ s) as [s' [r|e]]; simpl in *; auto with llmbox.
Qed.

Lemma good_resumeBox now boxID s : good s -> good (resumeBox now boxID s).1.
Proof.
  intros Hg. apply good_on_live_box; [done|]. intros sess c.
  pose proof (good_rpc c (bm_Resume (ss_BoxID sess)) s Hg) as H.
  destruct (rpc c _ s) as [s' [r|e]]; simpl in *; auto with llmbox.
Qed.

Lemma good_boxExec boxID cmd s : good s -> good (boxExec boxID cmd s).1.
Proof.
  intros Hg. unfold boxExec. repeat case_match; simpl; try done;
    match goal with H : rpc ?c ?f ?s = _ |- _ => pose proof (good_rpc c f s Hg) as Hr; by rewrite H in Hr end.
Qed.

Lemma good_pruneSessions ids s : good s -> good (pruneSessions ids s).
Proof.
  intros Hg. unfold pruneSessions.
  match goal with |- context [drop_sessions ?t s] => pose proof (good_drop t s Hg) as Hd;
    destruct (drop_sessions t s) as [s1 l] end.
  auto with llmbox.
Qed.

Lemma good_PruneDepartedSpokes s : good s -> good (PruneDepartedSpokes s).1.
Proof.
  intros Hg. unfold PruneDepartedSpokes. case_match; [|done].
  match goal with |- context [drop_sessions ?t s] => pose proof (good_drop t s Hg) as Hd;
    destruct (drop_sessions t s) as [s1 l] end.
  cbn [fst] in *. unfold pruneProxiesForDepartedSpokes.
  assert (Hf : good (foldl (fun s kv => runDestroyHooks (ss_BoxID kv.2) "" (ss_HookState kv.2) s) s1 l))
    by (apply good_foldl; auto with llmbox).
  case_match; [done|]. eapply good_quiet; [apply delete_slugs_quiet| |done]. apply delete_slugs_ok, Hf.
Qed.

(** ** Restarts *)

(** What happens to a running hub: its own operations, and changes of the world
    around it (spokes enrolled, dropped, connecting and leaving, boxes coming and
    going on them). *)
Inductive hub_op :=
| HoCreate (run : string -> option HookResponse) (rnd : option (list Z)) (rnds : nat -> option (list Z))
    (now now' : Z) (opts : CreateOptions)
| HoSync (now : Z)
| HoDestroy (idOrName : string)
| HoPause (now : Z) (boxID : string)
| HoResume (now : Z) (boxID : string)
| HoExec (boxID command : string)
| HoReap (ids : list string)
| HoPrune
| HoProxy (rnd : option (list Z)) (now : Z) (boxID : string) (port : Z) (by_ desc : string)
| HoUnproxy (slug : string)
| HoWorld (core : HubServer ClusterDB) (remotes : gmap nat M).

Definition hub_step s (o : hub_op) : Server M :=
  match o with
  | HoCreate run rnd rnds now now' opts => (createBox run rnd rnds now now' opts s).1
  | HoSync now => syncSpokes now s
  | HoDestroy x => (destroyBox x s).1
  | HoPause now x => (pauseBox now x s).1
  | HoResume now x => (resumeBox now x s).1
  | HoExec x cmd => (boxExec x cmd s).1
  | HoReap ids => pruneSessions ids s
  | HoPrune => (PruneDepartedSpokes s).1
  | HoProxy rnd now x port by_ desc => (createProxy rnd now x port by_ desc s).1
  | HoUnproxy slug => deleteProxyBySlug slug s
  | HoWorld core remotes =>
      MkServer core remotes (sv_byToken s) (sv_pending s) (sv_boxes s) (sv_proxies s) (sv_audit s)
        (sv_proxyBaseDomain s) (sv_hooks s) (sv_destroyed s)
  end.

Definition hub_run (ops : list hub_op) s : Server M := foldl hub_step s ops.

(** A hub process that has just started over the stored tables. *)
Definition restarted s : Server M :=
  MkServer (sv_core s) ∅ ∅ ∅ (sv_boxes s) (sv_proxies s) (sv_audit s) (sv_proxyBaseDomain s) (sv_hooks s) [].

Lemma good_hub_run ops s : good s -> good (hub_run ops s).
Proof.
  apply good_foldl. clear s. intros s o Hg.
  destruct o; simpl; auto using good_createBox, good_syncSpokes, good_pauseBox, good_resumeBox, good_boxExec,
    good_pruneSessions, good_PruneDepartedSpokes, good_createProxy.
  - by apply good_destroyBox.
  - by apply good_delete_proxy.
Qed.

Lemma foldl_restore l : forall (t : gmap string session) k,
  (forall a b, a ∈ l -> b ∈ l -> br_Token a = br_Token b -> a = b) ->
  forall x, foldl (fun t ps => <[br_Token ps := sessionFromPersisted ps]> t) t l !! k = Some x <->
    (exists ps, ps ∈ l /\ br_Token ps = k /\ x = sessionFromPersisted ps) \/
    (t !! k = Some x /\ k ∉ br_Token <$> l).
Proof.
  induction l as [|ps l IH]; intros t k Hinj x; cbn [foldl].
  - split; [|set_solver]. right. split; [done|]. apply not_elem_of_nil.
  - rewrite IH by (intros a b Ha Hb; apply Hinj; set_solver).
    rewrite fmap_cons, not_elem_of_cons, lookup_insert_Some. split.
    + intros [(p & Hp & Hk & ->)|[[[Hk <-]|[Hne Hx]] Hnot]].
      * left. exists p. set_solver.
      * left. exists ps. set_solver.
      * right. split; [done|]. split; [congruence|done].
    + intros [(p & [->|Hp]%elem_of_cons & Hk & ->)|[Hx [Hne Hnot]]].
      * destruct (decide (k ∈ br_Token <$> l)) as [Hin|Hin]; [|right; auto].
        left. apply list_elem_of_fmap in Hin as (q & Hq & Hql). exists q.
        rewrite (Hinj q ps) by (set_solver || congruence). rewrite (Hinj q ps) in Hql by (set_solver || congruence).
        done.
      * left. exists p. done.
      * right. split; [right; split; [congruence|done]|done].
Qed.

(** The stored form of a registry rebuilds it. *)
Lemma restore_mirrored s :
  mirrored s ->
  foldl (fun t ps => <[br_Token ps := sessionFromPersisted ps]> t) ∅ (ListBoxes (sv_boxes s)) = sv_byToken s.
Proof.
  intros [Hm Hk]. apply map_eq. intros k. apply option_eq. intros x.
  assert (Hmem : forall ps, ps ∈ ListBoxes (sv_boxes s) <->
    exists tok sess, sv_byToken s !! tok = Some sess /\ ps = persistLocked sess).
  { intros ps. unfold ListBoxes. rewrite list_elem_of_fmap. split.
    - intros ([tok p] & -> & Hin%elem_of_map_to_list). rewrite Hm, lookup_fmap_Some in Hin.
      destruct Hin as (sess & <- & Hin). eauto.
    - intros (tok & sess & Hin & ->). exists (tok, persistLocked sess). split; [done|].
      apply elem_of_map_to_list. by rewrite Hm, lookup_fmap, Hin. }
  rewrite foldl_restore.
  - rewrite lookup_empty. split.
    + intros [(ps & Hps & <- & ->)|[? _]]; [|done]. apply Hmem in Hps as (tok & sess & Hin & ->).
      rewrite session_roundtrip. simpl. by rewrite (Hk _ _ Hin).
    + intros Hin. left. exists (persistLocked x). rewrite session_roundtrip. split_and!; [|by apply Hk|done].
      apply Hmem. eauto.
  - intros a b (ta & sa & Ha & ->)%Hmem (tb & sb & Hb & ->)%Hmem Heq. simpl in Heq.
    rewrite (Hk _ _ Ha), (Hk _ _ Hb) in Heq. congruence.
Qed.

Lemma drop_sessions_byToken test s :
  sv_byToken (drop_sessions test s).1 = filter (fun kv => test kv.2 = false) (sv_byToken s).
Proof. done. Qed.

Lemma drop_sessions_core test s :
  sv_core (drop_sessions test s).1 = sv_core s /\ sv_proxies (drop_sessions test s).1 = sv_proxies s /\
  sv_proxyBaseDomain (drop_sessions test s).1 = sv_proxyBaseDomain s /\
  sv_hooks (drop_sessions test s).1 = sv_hooks s /\ sv_destroyed (drop_sessions test s).1 = sv_destroyed s /\
  sv_pending (drop_sessions test s).1 = sv_pending s.
Proof. done. Qed.

(** Purging keeps exactly the sessions of enrolled spokes. *)
Lemma PruneDepartedSpokes_byToken s h :
  hs_hub (sv_core s) = Some h ->
  sv_byToken (PruneDepartedSpokes s).1 =
  filter (fun kv => resolveStored (ss_SpokeName kv.2) s ∈ knownSpokeNames s) (sv_byToken s).
Proof.
  intros Hh. unfold PruneDepartedSpokes. rewrite Hh.
  match goal with |- context [drop_sessions ?t s] => pose proof (drop_sessions_byToken t s) as Hb;
    destruct (drop_sessions t s) as [s1 l] end.
  cbn [fst] in *. unfold pruneProxiesForDepartedSpokes.
  match goal with |- context [foldl ?f s1 l] => assert (Hq : quiet s1 (foldl f s1 l)) by
    (apply foldl_quiet; intros; apply runDestroyHooks_quiet); destruct Hq as [Hq _];
    set (s2 := foldl f s1 l) in * end.
  transitivity (sv_byToken s2).
  - case_match; [done|]. apply delete_slugs_quiet.
  - rewrite Hq, Hb. apply map_filter_ext. intros k v _. simpl.
    by rewrite negb_false_iff, bool_decide_eq_true.
Qed.

(** ** Tearing boxes down *)

(** The [box.destroy] calls made for the given boxes. *)
Definition hook_calls (hooks : option (list string)) (l : list (string * option (gmap string string))) :
    list (string * string * gmap string string) :=
  match hooks with
  | None => []
  | Some _ => (fun tb => (tb.1, "", default ∅ tb.2)) <$> filter (fun tb => default ∅ tb.2 <> ∅) l
  end.

Lemma runDestroyHooks_log b d st s :
  sv_destroyed (runDestroyHooks b d st s) =
  sv_destroyed s ++ match sv_hooks s with
    | None => [] | Some _ => if decide (default ∅ st = ∅) then [] else [(b, d, default ∅ st)] end.
Proof. unfold runDestroyHooks. repeat case_match; simpl; rewrite ?app_nil_r; done. Qed.

Lemma deleteProxiesForBox_log b s : sv_destroyed (deleteProxiesForBox b s) = sv_destroyed s.
Proof. unfold deleteProxiesForBox. case_match; [done|]. by apply foldl_keeps. Qed.

Lemma tear_downs_log l : forall s,
  sv_destroyed (foldl tear_down s l) = sv_destroyed s ++ hook_calls (sv_hooks s) l.
Proof.
  induction l as [|tb l IH]; intros s; cbn [foldl].
  - unfold hook_calls. case_match; by rewrite app_nil_r.
  - rewrite IH. pose proof (tear_down_quiet s tb) as (_ & _ & _ & _ & _ & ->).
    unfold tear_down. rewrite deleteProxiesForBox_log, runDestroyHooks_log.
    rewrite <- app_assoc. f_equal. unfold hook_calls. destruct (sv_hooks s); [|done].
    rewrite filter_cons. destruct (decide (default ∅ tb.2 = ∅)) as [He|He].
    + by rewrite decide_False by naive_solver.
    + by rewrite decide_True by done.
Qed.

Lemma foldl_log_mono {A} (f : Server M -> A -> Server M) l s x :
  (forall s a, exists t, sv_destroyed (f s a) = sv_destroyed s ++ t) ->
  x ∈ sv_destroyed s -> x ∈ sv_destroyed (foldl f s l) <-> True.
Proof.
  intros Hf. revert s. induction l as [|a l IH]; intros s Hx; cbn [foldl]; [done|].
  apply IH. destruct (Hf s a) as [t ->]. set_solver.
Qed.

(** Is the proxy one of the box, as far as the clean-up of the box goes? *)
Definition cleaned (domain : string) (boxID : string) (p : ProxyRecord) : bool :=
  negb (String.eqb boxID "") && negb (String.eqb domain "") && EqualFold (pr_BoxID p) boxID.

Lemma delete_slugs_lookup l : forall s slug,
  sv_proxies (delete_slugs l s) !! slug = if decide (slug ∈ pr_Slug <$> l) then None else sv_proxies s !! slug.
Proof.
  unfold delete_slugs. induction l as [|p l IH]; intros s slug; cbn [foldl].
  - by rewrite decide_False by apply not_elem_of_nil.
  - rewrite IH. simpl. unfold DeleteProxy. destruct (decide (slug = pr_Slug p)) as [->|Hne].
    + rewrite lookup_delete_eq, (decide_True (P := pr_Slug p ∈ pr_Slug p :: _)) by set_solver. by case_decide.
    + rewrite lookup_delete_ne by done. repeat case_decide; set_solver.
Qed.

Lemma deleteProxiesForBox_lookup b s slug p :
  proxies_ok (sv_proxies s) ->
  sv_proxies (deleteProxiesForBox b s) !! slug = Some p <->
  sv_proxies s !! slug = Some p /\ cleaned (sv_proxyBaseDomain s) b p = false.
Proof.
  intros [Hk _]. unfold deleteProxiesForBox, cleaned, ProxyEnabled.
  destruct (String.eqb_spec b "") as [->|Hb]; simpl; [naive_solver|].
  destruct (String.eqb (sv_proxyBaseDomain s) ""); simpl; [naive_solver|].
  rewrite delete_slugs_lookup. unfold listProxies. destruct (String.eqb_spec b ""); [done|].
  assert (Hin : slug ∈ pr_Slug <$> List.filter (fun p => EqualFold (pr_BoxID p) b) (ListProxies (sv_proxies s)) <->
    exists q, sv_proxies s !! slug = Some q /\ EqualFold (pr_BoxID q) b = true).
  { rewrite list_elem_of_fmap. split.
    - intros (q & -> & Hq). rewrite list_elem_of_In, filter_In, <- list_elem_of_In in Hq.
      destruct Hq as [[k Hq]%ListProxies_elem He]. exists q. by rewrite (Hk _ _ Hq).
    - intros (q & Hq & He). exists q. split; [by rewrite (Hk _ _ Hq)|].
      rewrite list_elem_of_In, filter_In, <- list_elem_of_In. split; [|done].
      apply ListProxies_elem. eauto. }
  case_decide as Hd; rewrite Hin in Hd.
  - split; [done|]. intros [Hp He]. destruct Hd as (q & Hq & Hqe). congruence.
  - split; [|naive_solver]. intros Hp. split; [done|]. apply not_true_iff_false. naive_solver.
Qed.

Lemma tear_downs_lookup l : forall s slug p,
  proxies_ok (sv_proxies s) ->
  sv_proxies (foldl tear_down s l) !! slug = Some p <->
  sv_proxies s !! slug = Some p /\ Forall (fun tb => cleaned (sv_proxyBaseDomain s) tb.1 p = false) l.
Proof.
  induction l as [|tb l IH]; intros s slug p Hok; cbn [foldl].
  - split; [|naive_solver]. intros ?. split; [done|constructor].
  - assert (Hok1 : proxies_ok (sv_proxies (tear_down s tb))) by (by apply (tear_downs_ok [tb] s)).
    rewrite IH by done. pose proof (tear_down_quiet s tb) as (_ & _ & _ & _ & -> & _).
    unfold tear_down. rewrite deleteProxiesForBox_lookup by (by rewrite runDestroyHooks_proxies).
    rewrite runDestroyHooks_proxies, Forall_cons.
    pose proof (runDestroyHooks_quiet tb.1 "" tb.2 s) as (_ & _ & _ & _ & -> & _). naive_solver.
Qed.

(** What a listing means for one record, by the box found for it. *)
Definition sync_facts (now : Z) (boxes : list Box) (sess sess' : session) : Prop :=
  same_box sess' sess /\
  match find_live sess boxes with
  | Some b => terminated sess' = false /\ ss_LastSeen sess' = Some now /\ ss_Name sess' = box_Name b /\
      ss_Image sess' = box_Image b /\ ss_InstanceState sess' = box_State b
  | None =>
      (now - ss_CreatedAt sess < Minute -> sess' = sess) /\
      (Minute <= now - ss_CreatedAt sess -> terminated sess' = true)
  end.

Lemma after_sync_facts now boxes sess : sync_facts now boxes sess (after_sync now boxes sess).
Proof.
  unfold sync_facts, after_sync. split.
  - destruct (synced now boxes sess) eqn:Hs; [by apply synced_same in Hs|done].
  - unfold synced. destruct (find_live sess boxes); [done|]. unfold syncTerminateGrace.
    destruct (terminated sess) eqn:Ht; simpl; [done|].
    destruct (Z.ltb_spec (now - ss_CreatedAt sess) Minute); simpl; split; intros; try done; lia.
Qed.

Lemma find_live_same sess sess' boxes : same_box sess' sess -> find_live sess' boxes = find_live sess boxes.
Proof. unfold find_live. by intros (_ & -> & _). Qed.

Lemma torn_once now boxes sess : torn_by now boxes (after_sync now boxes sess) = false.
Proof.
  destruct (after_sync_facts now boxes sess) as [Hs Ho]. unfold torn_by.
  rewrite (find_live_same _ _ _ Hs). destruct (find_live sess boxes); [done|].
  destruct Ho as [H1 H2]. unfold syncTerminateGrace. apply negb_false_iff.
  destruct (Z.ltb_spec (now - ss_CreatedAt (after_sync now boxes sess)) Minute); [by rewrite orb_true_r|].
  rewrite H2; [done|]. destruct Hs as (_ & _ & Hc & _). lia.
Qed.

(** The same listing finds nobody else gone. *)
Lemma sync_again now sp boxes s :
  let s' := syncSpokeInventory now sp boxes s in
  sv_destroyed (syncSpokeInventory now sp boxes s') = sv_destroyed s'.
Proof.
  intros s'. destruct (syncSpokeInventory_facts now sp boxes s) as (Hb & _ & _ & _ & Hc & _). fold s' in Hb, Hc.
  destruct (syncSpokeInventory_facts now sp boxes s') as (_ & _ & _ & _ & _ & _ & (s2 & -> & _ & Hd2 & _ & _)).
  rewrite tear_downs_log, Hd2.
  replace (torn_list now boxes (sync_snapshot sp s')) with (@nil (string * option (gmap string string))).
  { unfold hook_calls. case_match; by rewrite app_nil_r. }
  unfold torn_list. symmetry.
  rewrite <- (fmap_nil (fun kv : string * session => (ss_BoxID kv.2, ss_HookState kv.2))). f_equal.
  assert (Hrs : forall n, resolveStored n s' = resolveStored n s) by (intros n; unfold resolveStored; by rewrite Hc).
  apply elem_of_nil_inv. intros [k v] [Ht Hin]%list_elem_of_filter. simpl in Ht.
  apply snapshot_elem in Hin as [Hin Hr]. rewrite Hrs in Hr. rewrite Hb in Hin.
  destruct (sv_byToken s !! k) as [w|] eqn:Hw; [|done]. simpl in Hin. injection Hin as <-.
  case_decide as Hd; [by rewrite torn_once in Ht|done].
Qed.

Lemma torn_by_died now boxes sess :
  torn_by now boxes sess = negb (terminated sess) && terminated (after_sync now boxes sess).
Proof.
  unfold torn_by, after_sync, synced. destruct (find_live sess boxes); simpl; [by rewrite andb_false_r|].
  destruct (terminated sess) eqn:Ht; simpl; [done|].
  destruct (now - ss_CreatedAt sess <? syncTerminateGrace); simpl; [|done]. by rewrite Ht.
Qed.

(** The box of the record is in the listing. *)
Definition listed_as (sess : session) (boxes : list Box) (b : Box) : Prop :=
  b ∈ boxes /\ box_InstanceID b <> "" /\ box_InstanceID b = ss_Generation sess.

(** What becomes of a record whose spoke gave the listing. *)
Definition sync_outcome (now : Z) (boxes : list Box) (sess sess' : session) : Prop :=
  same_box sess' sess /\
  ((exists b, listed_as sess boxes b /\ terminated sess' = false /\ ss_LastSeen sess' = Some now /\
      ss_Name sess' = box_Name b /\ ss_Image sess' = box_Image b /\ ss_InstanceState sess' = box_State b) \/
   ((forall b, ~ listed_as sess boxes b) /\
      (now - ss_CreatedAt sess < Minute -> sess' = sess) /\
      (Minute <= now - ss_CreatedAt sess -> terminated sess' = true))).

Lemma after_sync_outcome now boxes sess : sync_outcome now boxes sess (after_sync now boxes sess).
Proof.
  destruct (after_sync_facts now boxes sess) as [Hs Hf]. split; [done|].
  unfold find_live in Hf. destruct (first_match _ boxes) as [b|] eqn:Hm.
  - left. exists b. apply first_match_elem in Hm as [Hin Hb]. bools. done.
  - right. split; [|done]. intros b (Hin & Hne & Hg). rewrite first_match_None, Forall_forall in Hm.
    specialize (Hm b Hin). rewrite Hg, String.eqb_refl, andb_true_r in Hm. bools. congruence.
Qed.

(** The records of a spoke that were alive in [s] and are tombstones in [s']. *)
Definition died (sp : string) s s' : list (string * option (gmap string string)) :=
  (fun kv => (ss_BoxID kv.2, ss_HookState kv.2)) <$>
    filter (fun kv => match sv_byToken s' !! kv.1 with
                      | Some x => negb (terminated kv.2) && terminated x
                      | None => false
                      end = true) (sync_snapshot sp s).

(** C10: the hub converges on what a spoke reports. After a listing of a spoke is
    folded in, each of its records whose box is listed is running with the
    reported metadata, each whose box is missing is a tombstone once it is a
    minute old (younger ones are left alone), and the records of other spokes
    are untouched; no record appears or disappears. Exactly the records that
    died have their hook state replayed and their proxies dropped, and folding
    in the same listing again replays nothing. *)
Theorem sync_converges : forall now sp boxes s,
  proxies_ok (sv_proxies s) ->
  let s' := syncSpokeInventory now sp boxes s in
  (forall tok, is_Some (sv_byToken s' !! tok) <-> is_Some (sv_byToken s !! tok)) /\
  (forall tok sess, sv_byToken s !! tok = Some sess ->
     exists sess', sv_byToken s' !! tok = Some sess' /\
       if decide (resolveStored (ss_SpokeName sess) s = sp) then sync_outcome now boxes sess sess'
       else sess' = sess) /\
  sv_destroyed s' = sv_destroyed s ++ hook_calls (sv_hooks s) (died sp s s') /\
  (forall slug p, sv_proxies s' !! slug = Some p <->
     sv_proxies s !! slug = Some p /\ Forall (fun tb => cleaned (sv_proxyBaseDomain s) tb.1 p = false) (died sp s s')) /\
  sv_destroyed (syncSpokeInventory now sp boxes s') = sv_destroyed s'.
Proof.
  intros now sp boxes s Hok s'.
  destruct (syncSpokeInventory_facts now sp boxes s) as (Hb & _ & _ & _ & Hc & Hh & (s1 & Hs1 & Hp1 & Hd1 & Hh1 & Hb1)).
  fold s' in Hb, Hc, Hh, Hs1.
  assert (Hdied : died sp s s' = torn_list now boxes (sync_snapshot sp s)).
  { unfold died, torn_list. f_equal. apply filter_ext_elem. intros [k v] [Hv Hr]%snapshot_elem. simpl.
    rewrite Hb, Hv. simpl. rewrite decide_True by done. by rewrite torn_by_died. }
  rewrite Hdied. split_and!.
  - intros tok. rewrite Hb, fmap_is_Some. done.
  - intros tok sess Hs. rewrite Hb, Hs. eexists. split; [done|].
    case_decide; [apply after_sync_outcome|done].
  - by rewrite Hs1, tear_downs_log, Hd1, Hh1.
  - intros slug p. rewrite Hs1, tear_downs_lookup by (by rewrite Hp1). by rewrite Hp1, Hb1.
  - by apply sync_again.
Qed.

(** ** Concurrent creations *)

(** A creation in flight: what it has obtained so far, and how far its end
    ([createBox_finish]) has come. *)
Inductive ending := EnRegistered | EnStored | EnDropped | EnSynced | EnPublished.
Inductive phase :=
| PhClaimed
| PhLaunched (st : option (gmap string string)) (r : CreateResult)
| PhRegistered (en : ending) (r : CreateResult) (sess : session).

Record thread := MkThread { th_opts : CreateOptions; th_spoke : string; th_conn : nat; th_phase : phase }.

Definition th_key (t : thread) : string := ToLower (co_BoxID (th_opts t)).

Definition at_phase (t : thread) (ph : phase) : thread :=
  MkThread (th_opts t) (th_spoke t) (th_conn t) ph.

(** The listing of a spoke reports none of its tombstones alive again. *)
Definition no_revival (sp : string) (boxes : list Box) s : Prop :=
  forall tok sess, sv_byToken s !! tok = Some sess -> resolveStored (ss_SpokeName sess) s = sp ->
    terminated sess = true -> find_live sess boxes = None.

(** One phase of one creation, or one other operation, at a time. *)
Inductive race_step : Server M * list thread -> Server M * list thread -> Prop :=
| rs_begin opts s s' sp c ts :
    createBox_begin opts s = (s', Ok (sp, c)) ->
    race_step (s, ts) (s', MkThread opts sp c PhClaimed :: ts)
| rs_launch run t s s' st r ts1 ts2 :
    th_phase t = PhClaimed -> createBox_launch run (th_opts t) (th_conn t) s = (s', Ok (st, r)) ->
    race_step (s, ts1 ++ t :: ts2) (s', ts1 ++ at_phase t (PhLaunched st r) :: ts2)
| rs_launch_fails run t s s' e ts1 ts2 :
    th_phase t = PhClaimed -> createBox_launch run (th_opts t) (th_conn t) s = (s', Err e) ->
    race_step (s, ts1 ++ t :: ts2) (releaseBoxID (co_BoxID (th_opts t)) s', ts1 ++ ts2)
| rs_register rnd now t st r s s' sess ts1 ts2 :
    th_phase t = PhLaunched st r ->
    createBox_register rnd now (th_opts t) (th_spoke t) (th_conn t) st r s = (s', Ok sess) ->
    race_step (s, ts1 ++ t :: ts2) (s', ts1 ++ at_phase t (PhRegistered EnRegistered r sess) :: ts2)
| rs_register_fails rnd now t st r s s' e ts1 ts2 :
    th_phase t = PhLaunched st r ->
    createBox_register rnd now (th_opts t) (th_spoke t) (th_conn t) st r s = (s', Err e) ->
    race_step (s, ts1 ++ t :: ts2) (releaseBoxID (co_BoxID (th_opts t)) s', ts1 ++ ts2)
| rs_store t r sess s ts1 ts2 :
    th_phase t = PhRegistered EnRegistered r sess ->
    race_step (s, ts1 ++ t :: ts2)
      (with_boxes (PutBox (persistLocked sess) (sv_boxes s)) s, ts1 ++ at_phase t (PhRegistered EnStored r sess) :: ts2)
| rs_drop t r sess s ts1 ts2 :
    th_phase t = PhRegistered EnStored r sess ->
    race_step (s, ts1 ++ t :: ts2)
      (dropTerminatedRecords (ss_BoxID sess) (ss_Token sess) s, ts1 ++ at_phase t (PhRegistered EnDropped r sess) :: ts2)
| rs_own_sync now boxes t r sess s ts1 ts2 :
    th_phase t = PhRegistered EnDropped r sess -> no_revival (th_spoke t) boxes s ->
    race_step (s, ts1 ++ t :: ts2)
      (syncSpokeInventory now (th_spoke t) boxes s, ts1 ++ at_phase t (PhRegistered EnSynced r sess) :: ts2)
| rs_no_listing t r sess s ts1 ts2 :
    th_phase t = PhRegistered EnDropped r sess ->
    race_step (s, ts1 ++ t :: ts2) (s, ts1 ++ at_phase t (PhRegistered EnSynced r sess) :: ts2)
| rs_publish rnds now t r sess s ts1 ts2 :
    th_phase t = PhRegistered EnSynced r sess ->
    race_step (s, ts1 ++ t :: ts2)
      (publishConfiguredPorts rnds now sess (cr_PublishPorts r) s, ts1 ++ at_phase t (PhRegistered EnPublished r sess) :: ts2)
| rs_release t r sess s ts1 ts2 :
    th_phase t = PhRegistered EnPublished r sess ->
    race_step (s, ts1 ++ t :: ts2) (releaseBoxID (co_BoxID (th_opts t)) s, ts1 ++ ts2)
| rs_sync now sp boxes s ts : no_revival sp boxes s -> race_step (s, ts) (syncSpokeInventory now sp boxes s, ts)
| rs_destroy order x s ts : race_step (s, ts) ((destroyBox_in_order order x s).1, ts)
| rs_prune s ts : race_step (s, ts) ((PruneDepartedSpokes s).1, ts)
| rs_reap ids s ts : race_step (s, ts) (pruneSessions ids s, ts)
| rs_world core remotes s ts : race_step (s, ts) (hub_step s (HoWorld core remotes), ts).

(** The end of a creation, undisturbed, is [createBox_finish]. *)
Lemma finish_in_steps rnds now t r sess s ts1 ts2 :
  th_phase t = PhRegistered EnRegistered r sess ->
  let s2 := dropTerminatedRecords (ss_BoxID sess) (ss_Token sess) (with_boxes (PutBox (persistLocked sess) (sv_boxes s)) s) in
  (forall boxes, rpc_List (th_conn t) s2 = Ok boxes -> no_revival (th_spoke t) boxes s2) ->
  rtc race_step (s, ts1 ++ t :: ts2)
    (releaseBoxID (co_BoxID (th_opts t)) (createBox_finish rnds now (th_spoke t) (th_conn t) r sess s), ts1 ++ ts2).
Proof.
  intros Hph s2 Hno.
  eapply rtc_l; [by eapply rs_store|]. eapply rtc_l; [by eapply rs_drop|].
  unfold createBox_finish. fold s2. unfold syncSpoke. destruct (rpc_List (th_conn t) s2) as [boxes|e] eqn:Hl.
  - eapply rtc_l; [eapply rs_own_sync; [done|by apply Hno]|].
    eapply rtc_l; [by eapply rs_publish|]. eapply rtc_l; [by eapply rs_release|]. apply rtc_refl.
  - eapply rtc_l; [by eapply rs_no_listing|].
    eapply rtc_l; [by eapply rs_publish|]. eapply rtc_l; [by eapply rs_release|]. apply rtc_refl.
Qed.

(** The token is registered to a live box with the id. *)
Definition live_as s (tok id : string) : Prop :=
  exists sess, sv_byToken s !! tok = Some sess /\ terminated sess = false /\ ToLower (ss_BoxID sess) = id.

(** No box becomes live, and the claims stay. *)
Definition shrinks s s' : Prop :=
  (forall tok id, live_as s' tok id -> live_as s tok id) /\ sv_pending s' = sv_pending s.

#[export] Instance shrinks_preorder : PreOrder shrinks.
Proof.
  split; [by intros s|]. intros a b c [H1 P1] [H2 P2]. split; [auto|congruence].
Qed.

Lemma quiet_shrinks s s' : quiet s s' -> shrinks s s'.
Proof. intros (Hb & _ & Hp & _). split; [|done]. unfold live_as. by rewrite Hb. Qed.

Lemma filter_shrinks (P : string * session -> Prop) `{!forall x, Decision (P x)} s s' :
  sv_byToken s' = filter P (sv_byToken s) -> sv_pending s' = sv_pending s -> shrinks s s'.
Proof.
  intros Hb Hp. split; [|done]. intros tok id (sess & Hs & Ht). rewrite Hb in Hs.
  apply map_lookup_filter_Some in Hs as [Hs _]. by exists sess.
Qed.

Lemma sync_shrinks now sp boxes s : no_revival sp boxes s -> shrinks s (syncSpokeInventory now sp boxes s).
Proof.
  intros Hno. destruct (syncSpokeInventory_facts now sp boxes s) as (Hb & _ & _ & Hp & _).
  split; [|done]. intros tok id (sess' & Hs & Ht & Hid). rewrite Hb in Hs.
  destruct (sv_byToken s !! tok) as [sess|] eqn:Hv; simplify_eq/=. exists sess. split; [done|].
  case_decide as Hd; [|done].
  destruct (after_sync_facts now boxes sess) as [Hsame Ho].
  split; [|by destruct Hsame as (_ & _ & _ & _ & -> & _)].
  apply not_true_iff_false. intros Htt. rewrite (Hno _ _ Hv Hd Htt) in Ho.
  destruct Ho as [H1 H2]. destruct (Z.lt_ge_cases (now - ss_CreatedAt sess) Minute) as [Hl|Hl].
  - rewrite H1 in Ht by done. congruence.
  - rewrite H2 in Ht by done. done.
Qed.

Lemma forget_shrinks x s : shrinks s (forget_box x s).
Proof.
  unfold forget_box.
  match goal with |- context [drop_sessions ?t s] => pose proof (drop_sessions_byToken t s) as Hb;
    pose proof (drop_sessions_core t s) as Hc; destruct (drop_sessions t s) as [s1 l] end.
  cbn [fst] in *. transitivity s1; [eapply filter_shrinks; [done|apply Hc]|].
  apply quiet_shrinks. etrans; [apply tear_downs_quiet|apply deleteProxiesForBox_quiet].
Qed.

Lemma destroy_shrinks order x s : shrinks s (destroyBox_in_order order x s).1.
Proof.
  assert (Hd : forall c, shrinks s (destroy_on c x s).1).
  { intros c. unfold destroy_on. pose proof (quiet_shrinks _ _ (rpc_quiet c (bm_Destroy x) s)) as H.
    destruct (rpc c _ s) as [s' [r|e]]; simpl in *; [etrans; [done|apply forget_shrinks]|].
    destruct (IsNotFound e); [etrans; [done|apply forget_shrinks]|done]. }
  unfold destroyBox_in_order. repeat case_match; try done; solve [apply forget_shrinks | apply Hd].
Qed.

Lemma reap_shrinks ids s : shrinks s (pruneSessions ids s).
Proof.
  unfold pruneSessions.
  match goal with |- context [drop_sessions ?t s] => pose proof (drop_sessions_byToken t s) as Hb;
    pose proof (drop_sessions_core t s) as Hc; destruct (drop_sessions t s) as [s1 l] end.
  cbn [fst] in *. transitivity s1; [eapply filter_shrinks; [done|apply Hc]|].
  apply quiet_shrinks, tear_downs_quiet.
Qed.

Lemma prune_shrinks s : shrinks s (PruneDepartedSpokes s).1.
Proof.
  unfold PruneDepartedSpokes. case_match; [|done].
  match goal with |- context [drop_sessions ?t s] => pose proof (drop_sessions_byToken t s) as Hb;
    pose proof (drop_sessions_core t s) as Hc; destruct (drop_sessions t s) as [s1 l] end.
  cbn [fst] in *. transitivity s1; [eapply filter_shrinks; [done|apply Hc]|].
  apply quiet_shrinks. unfold pruneProxiesForDepartedSpokes.
  match goal with |- context [foldl ?f s1 l] => assert (Hq : quiet s1 (foldl f s1 l)) by
    (apply foldl_quiet; intros; apply runDestroyHooks_quiet) end.
  case_match; [done|]. etrans; [exact Hq|]. apply delete_slugs_quiet.
Qed.

Lemma launch_quiet run opts c s : quiet s (createBox_launch run opts c s).1.
Proof.
  unfold createBox_launch.
  assert (Hl : forall files st, quiet s (match rpc c (bm_Create (with_files files opts)) s with
    | (s', Err e) => (runDestroyHooks (co_BoxID opts) (co_Description opts) st s', Err (ErrRemote e))
    | (s', Ok r) => (s', Ok (st, r)) end).1).
  { intros files st. pose proof (rpc_quiet c (bm_Create (with_files files opts)) s) as H.
    destruct (rpc c _ s) as [s' [r|e]]; simpl in *; [done|]. etrans; [done|apply runDestroyHooks_quiet]. }
  destruct (sv_hooks s); [|apply Hl]. destruct (OnCreate run l) as [[files st] []]; [apply Hl|].
  apply runDestroyHooks_quiet.
Qed.

Lemma dropTerminated_shrinks b tok s : shrinks s (dropTerminatedRecords b tok s).
Proof.
  unfold dropTerminatedRecords. destruct (String.eqb b ""); [done|]. eapply filter_shrinks; done.
Qed.

(** The id of a creation that has not registered its box yet. *)
Definition unregistered (t : thread) : Prop :=
  match th_phase t with PhRegistered _ _ _ => False | _ => True end.

Definition ids_ok (x : Server M * list thread) : Prop :=
  let '(s, ts) := x in
  (forall id t1 t2, id <> "" -> live_as s t1 id -> live_as s t2 id -> t1 = t2) /\
  NoDup (th_key <$> ts) /\
  (forall t, t ∈ ts -> th_key t ∈ sv_pending s /\ co_BoxID (th_opts t) <> "") /\
  (forall t tok, t ∈ ts -> unregistered t -> ~ live_as s tok (th_key t)).

Lemma ids_ok_shrinks s s' ts : shrinks s s' -> ids_ok (s, ts) -> ids_ok (s', ts).
Proof.
  intros [Hl Hp] (H1 & H2 & H3 & H4). split_and!; [naive_solver|done| |naive_solver].
  intros t Ht. rewrite Hp. auto.
Qed.

(** A creation ends: its claim goes with it. *)
Lemma ids_ok_release s t ts1 ts2 :
  ids_ok (s, ts1 ++ t :: ts2) -> ids_ok (releaseBoxID (co_BoxID (th_opts t)) s, ts1 ++ ts2).
Proof.
  intros (H1 & H2 & H3 & H4).
  destruct (H3 t ltac:(set_solver)) as [_ Hne]. unfold releaseBoxID.
  destruct (String.eqb_spec (co_BoxID (th_opts t)) ""); [done|].
  rewrite fmap_app, fmap_cons in H2. pose proof H2 as Hnd.
  apply NoDup_app in Hnd as (N1 & N12 & N2). apply NoDup_cons in N2 as [Nt N2].
  split_and!; [done| | |].
  - rewrite fmap_app. apply NoDup_app. split_and!; [done| |done]. set_solver.
  - intros t' Ht'. simpl. split; [|apply H3; set_solver].
    assert (Hk : th_key t' <> th_key t).
    { intros Hk. apply elem_of_app in Ht' as [Ht'|Ht'].
      - apply (N12 (th_key t')); [apply list_elem_of_fmap; eauto|]. set_solver.
      - apply Nt. rewrite <- Hk. apply list_elem_of_fmap. eauto. }
    apply elem_of_difference. split; [apply H3; set_solver|]. rewrite elem_of_singleton. done.
  - intros t' tok Ht' Hu. apply H4; [set_solver|done].
Qed.

(** A creation moves on without registering. *)
Lemma ids_ok_phase s s' t ph ts1 ts2 :
  shrinks s s' -> (unregistered (at_phase t ph) -> unregistered t) ->
  ids_ok (s, ts1 ++ t :: ts2) -> ids_ok (s', ts1 ++ at_phase t ph :: ts2).
Proof.
  intros Hs Hu H%(ids_ok_shrinks _ _ _ Hs). destruct H as (H1 & H2 & H3 & H4).
  assert (Hkey : th_key <$> (ts1 ++ at_phase t ph :: ts2) = th_key <$> (ts1 ++ t :: ts2)) by by rewrite !fmap_app.
  split_and!; [done|by rewrite Hkey| |].
  - intros t' [Ht'|[->|Ht']%elem_of_cons]%elem_of_app; [apply H3; set_solver| |apply H3; set_solver].
    apply (H3 t). set_solver.
  - intros t' tok [Ht'|[->|Ht']%elem_of_cons]%elem_of_app Hu'; [apply H4; set_solver| |apply H4; set_solver].
    apply (H4 t tok); [set_solver|by apply Hu].
Qed.

Lemma live_as_insert s tok sess t id :
  live_as (with_byToken (<[tok := sess]> (sv_byToken s)) s) t id ->
  (t = tok /\ ToLower (ss_BoxID sess) = id) \/ live_as s t id.
Proof.
  intros (x & Hx & Ht & Hid). simpl in Hx. apply lookup_insert_Some in Hx as [[<- <-]|[_ Hx]]; [auto|].
  right. by exists x.
Qed.

Lemma ids_ok_register s tok sess t ph ts1 ts2 :
  ss_BoxID sess = co_BoxID (th_opts t) -> unregistered t -> ~ unregistered (at_phase t ph) ->
  ids_ok (s, ts1 ++ t :: ts2) ->
  ids_ok (with_byToken (<[tok := sess]> (sv_byToken s)) s, ts1 ++ at_phase t ph :: ts2).
Proof.
  intros Hid Hu Hr (H1 & H2 & H3 & H4).
  assert (Hkey : th_key <$> (ts1 ++ at_phase t ph :: ts2) = th_key <$> (ts1 ++ t :: ts2)) by by rewrite !fmap_app.
  assert (Hnone : forall tk, ~ live_as s tk (ToLower (ss_BoxID sess))).
  { intros tk. rewrite Hid. apply (H4 t tk); [set_solver|done]. }
  split_and!; [|by rewrite Hkey| |].
  - intros id a b Hne Ha%live_as_insert Hb%live_as_insert.
    destruct Ha as [[-> Ha]|Ha], Hb as [[-> Hb]|Hb]; [done| | |by eapply H1].
    + subst id. by destruct (Hnone b).
    + subst id. by destruct (Hnone a).
  - intros t' [Ht'|[->|Ht']%elem_of_cons]%elem_of_app; [apply H3; set_solver| |apply H3; set_solver].
    apply (H3 t). set_solver.
  - intros t' tk Ht' Hu' Hl%live_as_insert.
    rewrite fmap_app, fmap_cons in H2. apply NoDup_app in H2 as (_ & N12 & N2). apply NoDup_cons in N2 as [Nt _].
    apply elem_of_app in Ht' as [Ht'|[->|Ht']%elem_of_cons]; [|done|].
    + destruct Hl as [[_ Hl]|Hl]; [|apply (H4 t' tk); [set_solver|done..]].
      apply (N12 (th_key t')); [apply list_elem_of_fmap; eauto|].
      rewrite <- Hl, Hid. apply elem_of_cons. by left.
    + destruct Hl as [[_ Hl]|Hl]; [|apply (H4 t' tk); [set_solver|done..]].
      apply Nt. replace (th_key t) with (th_key t'); [apply list_elem_of_fmap; eauto|].
      rewrite <- Hl, Hid. done.
Qed.

Lemma begin_claims opts s s' sp c :
  createBox_begin opts s = (s', Ok (sp, c)) ->
  co_BoxID opts <> "" /\ ToLower (co_BoxID opts) ∉ sv_pending s /\
  s' = with_pending ({[ToLower (co_BoxID opts)]} ∪ sv_pending s) s /\
  forall tok, ~ live_as s tok (ToLower (co_BoxID opts)).
Proof.
  unfold createBox_begin, reserveBoxID. intros Hb.
  destruct (String.eqb_spec (co_BoxID opts) ""); [done|].
  assert (Hfin : forall tok,
    first_match (holds_id (co_BoxID opts)) ((map_to_list (sv_byToken s)).*2) = None ->
    ~ live_as s tok (ToLower (co_BoxID opts))).
  { intros tok Hf (sess & Hs & Ht & Hid). rewrite first_match_None, Forall_forall in Hf.
    specialize (Hf sess). unfold holds_id, EqualFold in Hf. rewrite Hid, String.eqb_refl, Ht in Hf.
    discriminate Hf. apply list_elem_of_fmap. exists (tok, sess). split; [done|]. by apply elem_of_map_to_list. }
  repeat case_match; simplify_eq; split_and!; auto.
Qed.

Lemma race_step_ok x y : race_step x y -> ids_ok x -> ids_ok y.
Proof.
  intros Hstep Hok. destruct Hstep as
    [opts s s' sp c ts Hb|run t s s' st r ts1 ts2 Hph Hl|run t s s' e ts1 ts2 Hph Hl
    |rnd now t st r s s' sess ts1 ts2 Hph Hr|rnd now t st r s s' e ts1 ts2 Hph Hr
    |t r sess s ts1 ts2 Hph|t r sess s ts1 ts2 Hph|now boxes t r sess s ts1 ts2 Hph Hno|t r sess s ts1 ts2 Hph
    |rnds now t r sess s ts1 ts2 Hph|t r sess s ts1 ts2 Hph|now sp boxes s ts Hno|order x s ts|s ts|ids s ts|core remotes s ts].
  - apply begin_claims in Hb as (Hne & Hfr & -> & Hnl). destruct Hok as (H1 & H2 & H3 & H4). split_and!.
    + done.
    + rewrite fmap_cons. apply NoDup_cons. split; [|done]. intros (t & Ht & Hin)%list_elem_of_fmap.
      apply H3 in Hin as [Hin _]. unfold th_key at 1 in Ht. simpl in Ht. congruence.
    + intros t [->|Ht]%elem_of_cons; simpl; [split; [set_solver|done]|]. apply H3 in Ht. set_solver.
    + intros t tok [->|Ht]%elem_of_cons Hu; [apply Hnl|by apply H4].
  - pose proof (launch_quiet run (th_opts t) (th_conn t) s) as Hq. rewrite Hl in Hq.
    eapply ids_ok_phase; [by apply quiet_shrinks| |done]. unfold unregistered. by rewrite Hph.
  - pose proof (launch_quiet run (th_opts t) (th_conn t) s) as Hq. rewrite Hl in Hq.
    apply ids_ok_release. eapply ids_ok_shrinks; [by apply quiet_shrinks|done].
  - unfold createBox_register in Hr. destruct rnd as [b|]; simpl in Hr; [|done]. injection Hr as <- <-.
    apply ids_ok_register; try done; [unfold unregistered; by rewrite Hph|]. intros [].
  - unfold createBox_register in Hr. destruct rnd as [b|]; simpl in Hr; [done|]. injection Hr as <- <-.
    apply ids_ok_release. eapply ids_ok_shrinks; [|done]. apply quiet_shrinks.
    etrans; [apply (rpc_quiet (th_conn t) (bm_Destroy (cr_InstanceID r)) s)|apply runDestroyHooks_quiet].
  - eapply ids_ok_phase; [|intros []|done]. by split.
  - eapply ids_ok_phase; [|intros []|done]. apply dropTerminated_shrinks.
  - eapply ids_ok_phase; [|intros []|done]. by apply sync_shrinks.
  - eapply ids_ok_phase; [|intros []|done]. done.
  - eapply ids_ok_phase; [|intros []|done]. apply quiet_shrinks, publish_quiet.
  - by apply ids_ok_release.
  - eapply ids_ok_shrinks; [by apply sync_shrinks|done].
  - eapply ids_ok_shrinks; [apply destroy_shrinks|done].
  - eapply ids_ok_shrinks; [apply prune_shrinks|done].
  - eapply ids_ok_shrinks; [apply reap_shrinks|done].
  - done.
Qed.

(** No two live registered boxes have the same id, up to case. *)
Definition live_ids_distinct s : Prop :=
  forall tok1 tok2 b1 b2,
    sv_byToken s !! tok1 = Some b1 -> sv_byToken s !! tok2 = Some b2 ->
    terminated b1 = false -> terminated b2 = false -> ss_BoxID b1 <> "" ->
    EqualFold (ss_BoxID b1) (ss_BoxID b2) = true -> tok1 = tok2.

Lemma live_ids_distinct_as s :
  live_ids_distinct s <-> (forall id t1 t2, id <> "" -> live_as s t1 id -> live_as s t2 id -> t1 = t2).
Proof.
  split.
  - intros Hd id t1 t2 Hne (b1 & H1 & T1 & I1) (b2 & H2 & T2 & I2). apply (Hd t1 t2 b1 b2); try done.
    + intros He. rewrite He in I1. by subst id.
    + apply EqualFold_spec. congruence.
  - intros Hd tok1 tok2 b1 b2 H1 H2 T1 T2 Hne Hf. apply EqualFold_spec in Hf.
    apply (Hd (ToLower (ss_BoxID b1))); [by destruct (ss_BoxID b1)|by exists b1|exists b2; by rewrite Hf].
Qed.

(** C6: box ids are unique across the hub.  From a registry whose live boxes have
    distinct ids (a new hub's is empty) and with no creation in flight, under any
    interleaving of concurrent creations, syncs, destructions and purges, and
    whatever the spokes do: no two registered live boxes have the same id up to
    case, and no two creations in flight have one, as long as no listing reports a
    box alive that the hub had recorded as gone.  A creation is interleaved at
    its claim, its launch, its registration and each part of its end (the stored
    record, the tombstones it replaces, its sync, its ports, its release); a sync,
    a destruction and a purge are one step each. *)
Theorem live_box_ids_unique : forall s0 s ts,
  live_ids_distinct s0 -> rtc race_step (s0, []) (s, ts) ->
  live_ids_distinct s /\ NoDup (th_key <$> ts) /\
  (forall t tok b, t ∈ ts -> unregistered t -> sv_byToken s !! tok = Some b -> terminated b = false ->
     ToLower (ss_BoxID b) <> th_key t).
Proof.
  intros s0 s ts He Hr.
  assert (Hok : ids_ok (s, ts)).
  { revert Hr. generalize (s, ts). intros y Hr. remember (s0, []) as x eqn:Hx.
    assert (Hx0 : ids_ok x).
    { subst x. split_and!; try (intros *; set_solver); [by apply live_ids_distinct_as|constructor]. }
    clear Hx He. induction Hr; eauto using race_step_ok. }
  destruct Hok as (H1 & H2 & _ & H4). split_and!; [by apply live_ids_distinct_as|done|].
  intros t tok b Ht Hu Hb Hl Heq. apply (H4 t tok Ht Hu). by exists b.
Qed.

(** ** Destroying *)

(** The live sessions an identifier names. *)
Definition live_matches (x : string) s : list (string * option (gmap string string)) :=
  (fun kv => (ss_BoxID kv.2, ss_HookState kv.2)) <$>
    filter (fun kv => terminated kv.2 = false)
      (filter (fun kv => boxMatchesSession kv.2 x = true) (map_to_list (sv_byToken s))).

(** The identifier names the session's box. *)
Definition named (x : string) (sess : session) : Prop := x <> "" /\ (ss_BoxID sess = x \/ ss_Generation sess = x).

Lemma idMatchesBox_spec b g x : idMatchesBox b g x = true <-> x <> "" /\ (b = x \/ g = x).
Proof.
  unfold idMatchesBox. destruct (String.eqb_spec x "") as [->|Hx]; [naive_solver|].
  destruct (String.eqb_spec b x) as [->|Hb].
  - destruct (String.eqb_spec x ""); [done|]. naive_solver.
  - rewrite andb_false_r. destruct (String.eqb_spec g x) as [->|Hg]; [|rewrite andb_false_r; naive_solver].
    destruct (String.eqb_spec x ""); naive_solver.
Qed.

Lemma boxMatches_named sess x : boxMatchesSession sess x = true <-> named x sess.
Proof. apply idMatchesBox_spec. Qed.

Definition forgotten (x : string) s s' : Prop :=
  (forall tok sess, sv_byToken s' !! tok = Some sess <->
     sv_byToken s !! tok = Some sess /\ ~ named x sess) /\
  (mirrored s -> mirrored s') /\
  sv_destroyed s' = sv_destroyed s ++ hook_calls (sv_hooks s) (live_matches x s) /\
  (forall slug p, sv_proxies s' !! slug = Some p <->
     sv_proxies s !! slug = Some p /\ cleaned (sv_proxyBaseDomain s) x p = false /\
     Forall (fun tb => cleaned (sv_proxyBaseDomain s) tb.1 p = false) (live_matches x s)).

Lemma forget_box_spec x s : proxies_ok (sv_proxies s) -> forgotten x s (forget_box x s).
Proof.
  intros Hok. unfold forgotten, forget_box.
  destruct (drop_sessions _ s) as [s1 l] eqn:Hd.
  pose proof (drop_sessions_core (fun sess => boxMatchesSession sess x) s) as Hc.
  pose proof (drop_sessions_byToken (fun sess => boxMatchesSession sess x) s) as Hb.
  pose proof (mirrored_drop_sessions (fun sess => boxMatchesSession sess x) s) as Hm.
  rewrite Hd in Hc, Hb, Hm. cbn [fst] in *. destruct Hc as (_ & Hp & Hdom & Hh & Hde & _).
  assert (Hl : l = filter (fun kv => boxMatchesSession kv.2 x = true) (map_to_list (sv_byToken s))).
  { unfold drop_sessions in Hd. by injection Hd as _ <-. }
  subst l. fold (live_matches x s).
  pose proof (tear_downs_quiet (live_matches x s) s1) as Hq.
  pose proof (deleteProxiesForBox_quiet x (foldl tear_down s1 (live_matches x s))) as Hq2.
  split_and!.
  - intros tok sess. destruct Hq2 as [-> _], Hq as [-> _].
    by rewrite Hb, map_lookup_filter_Some, <- boxMatches_named, not_true_iff_false.
  - intros Hms. eapply mirrored_quiet; [etrans; [apply tear_downs_quiet|apply deleteProxiesForBox_quiet]|auto].
  - by rewrite deleteProxiesForBox_log, tear_downs_log, Hde, Hh.
  - intros slug p. rewrite deleteProxiesForBox_lookup by (apply tear_downs_ok; by rewrite Hp).
    rewrite tear_downs_lookup by (by rewrite Hp). destruct Hq as (_ & _ & _ & _ & -> & _).
    rewrite Hp, Hdom. naive_solver.
Qed.

(** The connection of the named spoke; a record without a name belongs to the
    default spoke. *)
Definition connected_as (name : string) (c : nat) s : Prop :=
  exists h, hs_hub (sv_core s) = Some h /\ hub_spokes h !! name = Some c.
Definition home (sess : session) s : string :=
  if decide (ss_SpokeName sess = "") then default "" (hs_settings (sv_core s) !! defaultSpokeSettingKey) else ss_SpokeName sess.

(** The spoke behind the connection holds the box: a live record the identifier
    names is of that spoke, or no record is named and the spoke lists the box. *)
Definition hosting (x : string) (c : nat) s : Prop :=
  (exists tok sess, sv_byToken s !! tok = Some sess /\ named x sess /\ terminated sess = false /\
     connected_as (home sess s) c s) \/
  ((forall tok sess, sv_byToken s !! tok = Some sess -> ~ named x sess) /\
   exists name m boxes b, connected_as name c s /\ sv_remotes s !! c = Some m /\ bm_List m = Ok boxes /\ b ∈ boxes /\
     x <> "" /\ (box_BoxID b = x \/ box_InstanceID b = x)).

Lemma spoke_connected sess c s : spoke (ss_SpokeName sess) s = Ok c -> connected_as (home sess s) c s.
Proof.
  unfold spoke, connected_as, home, DefaultSpoke, Spoke.
  destruct (String.eqb_spec (ss_SpokeName sess) "") as [He|He]; [rewrite decide_True by done|rewrite decide_False by done];
    intros Hc; repeat case_match; simplify_eq; eauto.
Qed.

Lemma spokeHostingBox_Some x s c : spokeHostingBox x s = Some c ->
  exists name m boxes b, connected_as name c s /\ sv_remotes s !! c = Some m /\ bm_List m = Ok boxes /\ b ∈ boxes /\
    x <> "" /\ (box_BoxID b = x \/ box_InstanceID b = x).
Proof.
  unfold spokeHostingBox. destruct (first_match _ _) as [[name c']|] eqn:Hf; [|done]. intros [= ->].
  apply first_match_elem in Hf as [Hin Hx]. apply elem_of_map_to_list in Hin. unfold allSpokes in Hin.
  destruct (hs_hub (sv_core s)) as [h|] eqn:Hh; [|done]. cbn [snd] in Hx. unfold rpc_List in Hx.
  destruct (sv_remotes s !! c) as [m|] eqn:Hm; [|done]. destruct (bm_List m) as [boxes|] eqn:Hl; [|done].
  apply existsb_exists in Hx as (b & Hb & Hid). apply idMatchesBox_spec in Hid. apply list_elem_of_In in Hb.
  exists name, m, boxes, b. split_and!; try done; [by exists h|by apply Hid..].
Qed.

Lemma spokeHostingBox_None x s : spokeHostingBox x s = None ->
  forall name c m boxes b, connected_as name c s -> sv_remotes s !! c = Some m -> bm_List m = Ok boxes -> b ∈ boxes ->
    ~ (x <> "" /\ (box_BoxID b = x \/ box_InstanceID b = x)).
Proof.
  unfold spokeHostingBox. destruct (first_match _ _) eqn:Hf; [done|]. intros _ name c m boxes b (h & Hh & Hc) Hm Hl Hb Hid.
  rewrite first_match_None, Forall_forall in Hf. specialize (Hf (name, c)). unfold rpc_List in Hf. cbn [snd] in Hf.
  rewrite Hm, Hl in Hf. apply not_true_iff_false in Hf.
  - apply Hf, existsb_exists. exists b. split; [by apply list_elem_of_In|by apply idMatchesBox_spec].
  - apply elem_of_map_to_list. unfold allSpokes. by rewrite Hh.
Qed.

(** The verb was sent to the spoke that holds the box, and to no other; [answer]
    is what came back. *)
Definition sent_destroy (x : string) s s' (answer : res string () -> Prop) : Prop :=
  exists c m, hosting x c s /\ sv_remotes s !! c = Some m /\
    sv_remotes s' = <[c := (bm_Destroy x m).1]> (sv_remotes s) /\ answer (bm_Destroy x m).2.

(** Why the box is taken to be gone, and what was asked of the spokes. *)
Definition gone_evidence (x : string) s s' : Prop :=
  (sv_remotes s' = sv_remotes s /\
     exists tok sess, sv_byToken s !! tok = Some sess /\ named x sess /\ terminated sess = true) \/
  sent_destroy x s s' (fun r => match r with Ok _ => True | Err e => IsNotFound e = true end) \/
  (sv_remotes s' = sv_remotes s /\
     (forall tok sess, sv_byToken s !! tok = Some sess -> ~ named x sess) /\
     forall name c m boxes b, connected_as name c s -> sv_remotes s !! c = Some m -> bm_List m = Ok boxes -> b ∈ boxes ->
       ~ (x <> "" /\ (box_BoxID b = x \/ box_InstanceID b = x))).

(** A failure: the spoke of the box is not there, or it answered with an error. *)
Definition destroy_failed (x : string) s s' : Prop :=
  quiet s s' /\ sv_proxies s' = sv_proxies s /\ sv_destroyed s' = sv_destroyed s /\
  (sv_remotes s' = sv_remotes s \/ sent_destroy x s s' (fun r => exists e, r = Err e /\ IsNotFound e = false)).

Lemma forget_box_remotes x s : sv_remotes (forget_box x s) = sv_remotes s.
Proof.
  assert (Hp : forall b s, sv_remotes (deleteProxiesForBox b s) = sv_remotes s).
  { intros b s0. unfold deleteProxiesForBox. case_match; [done|]. by apply (foldl_keeps sv_remotes). }
  unfold forget_box. destruct (drop_sessions _ s) as [s1 l] eqn:Hd. rewrite Hp, (foldl_keeps sv_remotes).
  - unfold drop_sessions in Hd. by injection Hd as <- _.
  - intros s0 tb. unfold tear_down. rewrite Hp. unfold runDestroyHooks. by repeat case_match.
Qed.

Lemma rpc_log {A} c (f : M -> M * res string A) s :
  sv_destroyed (rpc c f s).1 = sv_destroyed s /\ sv_hooks (rpc c f s).1 = sv_hooks s.
Proof. unfold rpc. case_match; [|done]. by destruct (f m). Qed.

Lemma rpc_forgotten {A} x c (f : M -> M * res string A) s s' :
  forgotten x (rpc c f s).1 s' -> forgotten x s s'.
Proof.
  unfold rpc. case_match; [|done]. destruct (f m) as [m' r]. simpl. done.
Qed.

Lemma rpc_lost {A} c (f : M -> M * res string A) s s' r :
  rpc c f s = (s', r) ->
  (exists m, sv_remotes s !! c = Some m /\ (f m).2 = r) \/ (s' = s /\ r = Err "spoke connection lost").
Proof.
  unfold rpc. case_match eqn:Hm; [|intros [= <- <-]; by right].
  destruct (f _) as [m' r'] eqn:Hf. intros [= <- <-]. left. eexists. split; [done|]. by rewrite Hf.
Qed.

Lemma destroy_on_spec c x s :
  proxies_ok (sv_proxies s) -> hosting x c s ->
  match destroy_on c x s with
  | (s', Ok _) => forgotten x s s' /\ gone_evidence x s s'
  | (s', Err _) => destroy_failed x s s'
  end.
Proof.
  intros Hok Hhost. unfold destroy_on.
  pose proof (rpc_quiet c (bm_Destroy x) s) as Hq. pose proof (rpc_proxies c (bm_Destroy x) s) as Hp.
  pose proof (rpc_forgotten x c (bm_Destroy x) s) as Hf. pose proof (rpc_log c (bm_Destroy x) s) as [Hd _].
  assert (Hrem : forall m, sv_remotes s !! c = Some m ->
    sv_remotes (rpc c (bm_Destroy x) s).1 = <[c := (bm_Destroy x m).1]> (sv_remotes s)).
  { intros m Hm. unfold rpc. rewrite Hm. by destruct (bm_Destroy x m). }
  destruct (rpc c (bm_Destroy x) s) as [s' r] eqn:Hr. cbn [fst] in *.
  assert (Hok' : proxies_ok (sv_proxies s')) by by rewrite Hp.
  apply rpc_lost in Hr as [(m & Hm & Hr)|[-> ->]]; [|vm_compute (IsNotFound _); split_and!; by try left].
  assert (Hsent : forall P : res string () -> Prop, P r -> sent_destroy x s s' P /\ sent_destroy x s (forget_box x s') P).
  { intros P HP. split; exists c, m; rewrite ?forget_box_remotes, Hr; auto. }
  destruct r as [u|e]; [split; [by apply Hf, forget_box_spec|right; left; by apply Hsent]|].
  destruct (IsNotFound e) eqn:He; [|split_and!; try done; right; apply Hsent; eauto].
  split; [by apply Hf, forget_box_spec|]. right; left. by apply Hsent.
Qed.


(** ** Creating *)

(** The hook state a creation gathers. *)
Definition gathered (run : string -> option HookResponse) s : option (gmap string string) :=
  (fun execs => (OnCreate run execs).1.2) <$> sv_hooks s.

Definition replayed (opts : CreateOptions) (st : option (gmap string string)) :
    list (string * string * gmap string string) :=
  if decide (default ∅ st = ∅) then [] else [(co_BoxID opts, co_Description opts, default ∅ st)].

Lemma runDestroyHooks_replayed opts run s s' :
  sv_hooks s' = sv_hooks s ->
  sv_destroyed (runDestroyHooks (co_BoxID opts) (co_Description opts) (gathered run s) s') =
  sv_destroyed s' ++ replayed opts (gathered run s).
Proof.
  intros Hh. rewrite runDestroyHooks_log, Hh. f_equal. unfold gathered, replayed.
  destruct (sv_hooks s); simpl; [done|]. by rewrite decide_True.
Qed.

Lemma launch_spec run opts c s :
  match createBox_launch run opts c s with
  | (s', Ok (st, r)) => st = gathered run s /\ sv_destroyed s' = sv_destroyed s /\ sv_proxies s' = sv_proxies s
  | (s', Err _) => sv_destroyed s' = sv_destroyed s ++ replayed opts (gathered run s) /\
      sv_proxies s' = sv_proxies s
  end.
Proof.
  unfold createBox_launch.
  assert (Hl : forall files st, st = gathered run s ->
    match match rpc c (bm_Create (with_files files opts)) s with
    | (s', Err e) => (runDestroyHooks (co_BoxID opts) (co_Description opts) st s', Err (ErrRemote e))
    | (s', Ok r) => (s', Ok (st, r)) end with
    | (s', Ok (st, r)) => st = gathered run s /\ sv_destroyed s' = sv_destroyed s /\ sv_proxies s' = sv_proxies s
    | (s', Err _) => sv_destroyed s' = sv_destroyed s ++ replayed opts (gathered run s) /\
        sv_proxies s' = sv_proxies s end).
  { intros files st ->. pose proof (rpc_log c (bm_Create (with_files files opts)) s) as [H1 H2].
    pose proof (rpc_proxies c (bm_Create (with_files files opts)) s) as H3.
    destruct (rpc c _ s) as [s' [r|e]]; cbn [fst] in *; [done|].
    by rewrite runDestroyHooks_replayed, runDestroyHooks_proxies, H1. }
  pose proof (eq_refl (gathered run s)) as Hg. unfold gathered in Hg at 2.
  destruct (sv_hooks s) as [execs|] eqn:Hh; simpl in Hg; [|by apply Hl].
  destruct (OnCreate run execs) as [[files st] [|]]; simpl in Hg; [by apply Hl|].
  rewrite <- Hg. by rewrite runDestroyHooks_replayed, runDestroyHooks_proxies.
Qed.

(** The whole claim of a failed creation is undone. *)
Lemma release_claim (b : string) (p : gset string) :
  ToLower b ∉ p -> ({[ToLower b]} ∪ p) ∖ {[ToLower b]} = p.
Proof. intros Hn. set_solver. Qed.

(** The registered session after the last phase. *)
Lemma finish_registered rnds now sp c r sess s :
  sv_byToken s !! ss_Token sess = Some sess ->
  let s' := createBox_finish rnds now sp c r sess s in
  sv_pending s' = sv_pending s /\
  (exists sess', sv_byToken s' !! ss_Token sess = Some sess' /\ same_box sess' sess) /\
  (forall tok x', sv_byToken s' !! tok = Some x' ->
     exists x, sv_byToken s !! tok = Some x /\ same_box x' x /\
       (tok <> ss_Token sess -> ss_BoxID sess <> "" -> EqualFold (ss_BoxID x) (ss_BoxID sess) = true ->
        terminated x = false)).
Proof.
  intros Hreg. unfold createBox_finish. set (s1 := with_boxes _ s).
  set (s2 := dropTerminatedRecords (ss_BoxID sess) (ss_Token sess) s1).
  assert (H2 : sv_pending s2 = sv_pending s /\ sv_byToken s2 !! ss_Token sess = Some sess /\
    forall tok x, sv_byToken s2 !! tok = Some x -> sv_byToken s !! tok = Some x /\
      (tok <> ss_Token sess -> ss_BoxID sess <> "" -> EqualFold (ss_BoxID x) (ss_BoxID sess) = true ->
       terminated x = false)).
  { unfold s2, dropTerminatedRecords. destruct (String.eqb_spec (ss_BoxID sess) "") as [He|He].
    - split_and!; [done..|]. intros tok x Hx. split; [done|]. done.
    - simpl. split_and!; [done| |].
      + apply map_lookup_filter_Some. split; [done|]. simpl. naive_solver.
      + intros tok x [Hx Hn]%map_lookup_filter_Some. simpl in Hn. split; [done|].
        intros Hne _ Hf. destruct (terminated x); [|done]. destruct Hn. done. }
  destruct H2 as (Hp2 & Hr2 & Hx2).
  assert (H3 : let s3 := syncSpoke now sp c s2 in sv_pending s3 = sv_pending s2 /\
    forall tok, exists g, (forall x, same_box (g x) x) /\ sv_byToken s3 !! tok = g <$> sv_byToken s2 !! tok).
  { unfold syncSpoke. destruct (rpc_List c s2) as [boxes|].
    - destruct (syncSpokeInventory_facts now sp boxes s2) as (Hb & _ & _ & Hp & _). split; [done|].
      intros tok. eexists. split; [|by rewrite Hb]. intros x. simpl.
      case_decide; [apply after_sync_facts|done].
    - split; [done|]. intros tok. exists id. split; [done|]. by rewrite option_fmap_id. }
  destruct H3 as [Hp3 H3]. set (s3 := syncSpoke now sp c s2) in *.
  destruct (publish_quiet rnds now sess (cr_PublishPorts r) s3) as (Hq & _ & Hqp & _).
  split_and!.
  - congruence.
  - destruct (H3 (ss_Token sess)) as (g & Hg & Ht). rewrite Hq, Ht, Hr2. simpl. eauto.
  - intros tok x' Hx'. rewrite Hq in Hx'. destruct (H3 tok) as (g & Hg & Ht). rewrite Ht in Hx'.
    destruct (sv_byToken s2 !! tok) as [x|] eqn:Hx; simplify_eq/=. exists x.
    destruct (Hx2 _ _ Hx) as [? ?]. done.
Qed.

(** A claim made by [createBox_begin] and released leaves the server as it was. *)
Definition claimed (opts : CreateOptions) s : Server M :=
  with_pending ({[ToLower (co_BoxID opts)]} ∪ sv_pending s) s.

Lemma release_claimed opts s s' :
  co_BoxID opts <> "" -> ToLower (co_BoxID opts) ∉ sv_pending s -> sv_pending s' = sv_pending (claimed opts s) ->
  let s'' := releaseBoxID (co_BoxID opts) s' in
  sv_pending s'' = sv_pending s /\ sv_byToken s'' = sv_byToken s' /\ sv_boxes s'' = sv_boxes s' /\
  sv_proxies s'' = sv_proxies s' /\ sv_destroyed s'' = sv_destroyed s'.
Proof.
  intros Hne Hfr Hp. unfold releaseBoxID. destruct (String.eqb_spec (co_BoxID opts) ""); [done|]. simpl.
  rewrite Hp. split_and!; try done. by apply release_claim.
Qed.

(** The registration either fails and replays the hooks, or adds the session. *)
Lemma register_spec rnd now opts sp c run r s0 s :
  sv_hooks s = sv_hooks s0 ->
  match createBox_register rnd now opts sp c (gathered run s0) r s with
  | (s', Err _) => quiet s s' /\ sv_proxies s' = sv_proxies s /\
      sv_destroyed s' = sv_destroyed s ++ replayed opts (gathered run s0)
  | (s', Ok sess) => s' = with_byToken (<[ss_Token sess := sess]> (sv_byToken s)) s /\
      ss_BoxID sess = co_BoxID opts /\ ss_HookState sess = gathered run s0
  end.
Proof.
  intros Hh. unfold createBox_register. destruct rnd as [b|]; simpl; [done|].
  destruct (rpc_log c (bm_Destroy (cr_InstanceID r)) s) as [H1 H2].
  split_and!.
  - etrans; [apply (rpc_quiet c (bm_Destroy (cr_InstanceID r)) s)|apply runDestroyHooks_quiet].
  - by rewrite runDestroyHooks_proxies, rpc_proxies.
  - rewrite runDestroyHooks_replayed by congruence. by rewrite H1.
Qed.

(** C24: creating a box registers it or leaves no trace. A failure leaves the
    registry, the records, the proxies and the claims as they were, and the
    state any create hook returned is replayed to the destroy hooks. A success
    had a valid, unused id; the box is registered under its token with the hook
    state the hooks returned, it is the only session with its id (a tombstone
    of that id is gone), and the claim on the id is released. *)
Theorem createBox_spec : forall run rnd rnds now now' opts s,
  match createBox run rnd rnds now now' opts s with
  | (s', Err _) =>
      sv_byToken s' = sv_byToken s /\ sv_boxes s' = sv_boxes s /\ sv_proxies s' = sv_proxies s /\
      sv_pending s' = sv_pending s /\
      sv_destroyed s' = sv_destroyed s ++
        (if is_ok (createBox_begin opts s).2 then replayed opts (gathered run s) else [])
  | (s', Ok sess) =>
      ValidBoxID (co_BoxID opts) = true /\ ss_BoxID sess = co_BoxID opts /\
      ss_HookState sess = gathered run s /\ sv_pending s' = sv_pending s /\
      (exists sess', sv_byToken s' !! ss_Token sess = Some sess' /\ same_box sess' sess) /\
      (forall tok x, sv_byToken s' !! tok = Some x -> EqualFold (ss_BoxID x) (co_BoxID opts) = true ->
         tok = ss_Token sess) /\
      (forall tok x, sv_byToken s !! tok = Some x -> EqualFold (ss_BoxID x) (co_BoxID opts) = true ->
         terminated x = true)
  end.
Proof.
  intros run rnd rnds now now' opts s. unfold createBox.
  destruct (createBox_begin opts s) as [s1 [[sp c]|e]] eqn:Hb; cbn [snd is_ok].
  2:{ unfold createBox_begin, reserveBoxID in Hb. rewrite app_nil_r. repeat case_match; simplify_eq; done. }
  assert (Hv : ValidBoxID (co_BoxID opts) = true).
  { unfold createBox_begin in Hb. repeat case_match; simplify_eq; bools; done. }
  apply begin_claims in Hb as (Hne & Hfr & -> & Hnl). fold (claimed opts s).
  pose proof (launch_quiet run opts c (claimed opts s)) as (Qb & Qx & Qp & _ & _ & Qh).
  pose proof (launch_spec run opts c (claimed opts s)) as Hl.
  destruct (createBox_launch run opts c (claimed opts s)) as [s2 [[st r]|e]]; cbn [fst] in *.
  2:{ destruct (release_claimed opts s s2 Hne Hfr Qp) as (-> & -> & -> & -> & ->), Hl as [-> ->]. done. }
  destruct Hl as (-> & Hd & Hp). pose proof (register_spec rnd now opts sp c run r (claimed opts s) s2 Qh) as Hr.
  destruct (createBox_register _ _ _ _ _ _ _ s2) as [s3 [sess|e]].
  2:{ destruct Hr as ((Rb & Rx & Rp & _) & Rpr & Rd).
      destruct (release_claimed opts s s3 Hne Hfr ltac:(congruence)) as (-> & -> & -> & -> & ->).
      rewrite Rb, Rx, Rpr, Rd, Qb, Qx, Hp, Hd. done. }
  destruct Hr as (-> & Hid & Hst). set (s3 := with_byToken _ s2).
  destruct (finish_registered rnds now' sp c r sess s3) as (Fp & Freg & Fall).
  { simpl. by rewrite lookup_insert_eq. }
  destruct (release_claimed opts s _ Hne Hfr (eq_trans Fp Qp)) as (-> & -> & _).
  assert (Hnone : forall tok x, sv_byToken s !! tok = Some x ->
    EqualFold (ss_BoxID x) (co_BoxID opts) = true -> terminated x = true).
  { intros tok x Hx Hf. apply not_false_iff_true. intros Ht. apply (Hnl tok).
    exists x. split_and!; [done..|]. by apply EqualFold_spec. }
  split_and!; try done. intros tok x' Hx' Hf. apply Fall in Hx' as (x & Hx & Hsame & Hterm).
  destruct Hsame as (_ & _ & _ & _ & Hidx & _).
  destruct (decide (tok = ss_Token sess)) as [|Hn]; [done|]. exfalso.
  simpl in Hx. rewrite lookup_insert_ne in Hx by (by apply not_eq_sym). rewrite Qb in Hx.
  rewrite Hidx in Hf. rewrite (Hnone _ _ Hx Hf), Hid in Hterm. discriminate Hterm; done.
Qed.

(** ** Departed spokes *)

(** The proxies a purge keeps. *)
Lemma pruneProxies_lookup known s slug p :
  ProxyEnabled s = true -> proxies_ok (sv_proxies s) ->
  sv_proxies (pruneProxiesForDepartedSpokes known s) !! slug = Some p <->
  sv_proxies s !! slug = Some p /\ resolveStored (pr_Spoke p) s ∈ known.
Proof.
  intros Hen [Hk _]. unfold pruneProxiesForDepartedSpokes. rewrite Hen. simpl. rewrite delete_slugs_lookup.
  assert (Hin : slug ∈ pr_Slug <$> filter (fun p => resolveStored (pr_Spoke p) s ∉ known) (ListProxies (sv_proxies s)) <->
    exists q, sv_proxies s !! slug = Some q /\ resolveStored (pr_Spoke q) s ∉ known).
  { rewrite list_elem_of_fmap. split.
    - intros (q & -> & [Hn [k Hq]%ListProxies_elem]%list_elem_of_filter). exists q. by rewrite (Hk _ _ Hq).
    - intros (q & Hq & Hn). exists q. split; [by rewrite (Hk _ _ Hq)|].
      apply list_elem_of_filter. split; [done|]. apply ListProxies_elem. eauto. }
  case_decide as Hd; rewrite Hin in Hd.
  - split; [done|]. intros [Hx Hkn]. destruct Hd as (q & Hq & Hn). congruence.
  - split; [|naive_solver]. intros Hx. split; [done|].
    destruct (decide (resolveStored (pr_Spoke p) s ∈ known)); [done|]. naive_solver.
Qed.

(** Replaying the hooks of a list of sessions. *)
Definition replay_all s (l : list (string * session)) : Server M :=
  foldl (fun s kv => runDestroyHooks (ss_BoxID kv.2) "" (ss_HookState kv.2) s) s l.

Lemma replay_all_quiet l s : quiet s (replay_all s l) /\ sv_proxies (replay_all s l) = sv_proxies s.
Proof.
  split; [apply foldl_quiet; intros; apply runDestroyHooks_quiet|].
  apply (foldl_keeps sv_proxies). intros. apply runDestroyHooks_proxies.
Qed.

Lemma replay_all_log kv l : forall s,
  kv ∈ l -> is_Some (sv_hooks s) -> default ∅ (ss_HookState kv.2) <> ∅ ->
  (ss_BoxID kv.2, "", default ∅ (ss_HookState kv.2)) ∈ sv_destroyed (replay_all s l).
Proof.
  unfold replay_all. induction l as [|kv' l IH]; intros s Hl Hho Hst; [set_solver|].
  cbn [foldl]. apply elem_of_cons in Hl as [<-|Hl].
  - rewrite (foldl_log_mono (fun s kv => runDestroyHooks (ss_BoxID kv.2) "" (ss_HookState kv.2) s)); [done| |].
    + intros s0 x. rewrite runDestroyHooks_log. eauto.
    + rewrite runDestroyHooks_log. destruct (sv_hooks s); [|by destruct Hho].
      rewrite decide_False by done. set_solver.
  - apply IH; [done| |done].
    by destruct (runDestroyHooks_quiet (ss_BoxID kv'.2) "" (ss_HookState kv'.2) s) as (_ & _ & _ & _ & _ & ->).
Qed.

Lemma pruneProxies_log known s : sv_destroyed (pruneProxiesForDepartedSpokes known s) = sv_destroyed s.
Proof.
  unfold pruneProxiesForDepartedSpokes. case_match; [done|]. unfold delete_slugs. by rewrite (foldl_keeps sv_destroyed).
Qed.

(** [PruneDepartedSpokes] as its three parts. *)
Lemma PruneDepartedSpokes_parts s h :
  hs_hub (sv_core s) = Some h ->
  let test sess := negb (bool_decide (resolveStored (ss_SpokeName sess) s ∈ knownSpokeNames s)) in
  (PruneDepartedSpokes s).1 =
  pruneProxiesForDepartedSpokes (knownSpokeNames s) (replay_all (drop_sessions test s).1 (drop_sessions test s).2).
Proof. intros Hh test. unfold PruneDepartedSpokes. by rewrite Hh. Qed.

(** purging removes exactly what belongs to spokes that are no longer
    enrolled. A session stays if and only if its spoke is enrolled, connected or
    not; the records follow; the hook state of every purged session is replayed;
    with proxying on, exactly the proxies of enrolled spokes stay. *)
Theorem PruneDepartedSpokes_spec : forall s h,
  hs_hub (sv_core s) = Some h -> mirrored s -> proxies_ok (sv_proxies s) ->
  let s' := (PruneDepartedSpokes s).1 in
  let known n := resolveStored n s ∈ knownSpokeNames s in
  (forall tok sess, sv_byToken s' !! tok = Some sess <->
     sv_byToken s !! tok = Some sess /\ known (ss_SpokeName sess)) /\
  mirrored s' /\
  (forall slug p, ProxyEnabled s = true ->
     sv_proxies s' !! slug = Some p <-> sv_proxies s !! slug = Some p /\ known (pr_Spoke p)) /\
  (forall tok sess, sv_byToken s !! tok = Some sess -> ~ known (ss_SpokeName sess) ->
     is_Some (sv_hooks s) -> default ∅ (ss_HookState sess) <> ∅ ->
     (ss_BoxID sess, "", default ∅ (ss_HookState sess)) ∈ sv_destroyed s').
Proof.
  intros s h Hh Hm Hok s' known. split_and!.
  - intros tok sess. unfold s'. by rewrite (PruneDepartedSpokes_byToken s h Hh), map_lookup_filter_Some.
  - by apply good_PruneDepartedSpokes.
  - intros slug p Hen. unfold s'. rewrite (PruneDepartedSpokes_parts s h Hh).
    set (test := fun sess => negb _). set (s2 := replay_all _ _).
    destruct (replay_all_quiet (drop_sessions test s).2 (drop_sessions test s).1) as [(_ & _ & _ & Qc & Qd & _) Qp].
    fold s2 in Qc, Qd, Qp. rewrite pruneProxies_lookup.
    + rewrite Qp. unfold known, resolveStored. by rewrite Qc.
    + unfold ProxyEnabled in *. by rewrite Qd.
    + by rewrite Qp.
  - intros tok sess Hs Hn Hho Hst. unfold s'. rewrite (PruneDepartedSpokes_parts s h Hh), pruneProxies_log.
    apply (replay_all_log (tok, sess)); [|done|done]. apply list_elem_of_filter.
    split; [|by apply elem_of_map_to_list]. simpl. apply negb_true_iff. by apply bool_decide_eq_false.
Qed.

End Boxes.

(** ** Concrete runs *)

Module BoxesDemo.

(** A spoke that keeps its boxes in a list. *)
#[export] Instance listed : BoxManager (list Box) := {
  bm_Create opts m :=
    (m ++ [MkBox ("i-" +:+ co_BoxID opts) "n" (co_BoxID opts) "" "" "img" "running" "" "" "" 0 0],
     Ok (MkCreateResult ("i-" +:+ co_BoxID opts) false "" [MkPublishPort 80 "site"]));
  bm_List m := Ok m;
  bm_Destroy x m := (filter (fun b => box_BoxID b <> x /\ box_InstanceID b <> x) m, Ok ());
  bm_Pause _ m := (m, Ok ());
  bm_Resume _ m := (m, Ok ());
  bm_Exec _ _ m := (m, Ok (MkExecResult "" "" 0));
  bm_SetNetworkPolicy _ _ m := (m, Ok ());
}.

Definition old_box : Box := MkBox "g1" "n" "web" "" "" "img" "running" "" "" "" 0 0.
Definition tomb : session :=
  MkSession "t1" "g1" 0 (Some {["hook" := "x"]}) "web" "" "edge" "ready" "" LifecycleTerminated None "" "" "".

(** Two connected spokes, "edge" on connection 0 and "away" on connection 1. *)
Definition core : HubServer ClusterDB :=
  MkHubServer (MkClusterDB ∅ {["edge" := ("h", 0); "away" := ("h", 0)]}) ∅
    (Some (MkHub {["edge" := 0%nat; "away" := 1%nat]} ∅)).

Definition empty_srv : Server (list Box) :=
  MkServer core {[0%nat := []; 1%nat := []]} ∅ ∅ ∅ ∅ ∅ "proxy.example" (Some ["hook"]) [].

(** The box "web" of "edge" was recorded as gone. *)
Definition srv : Server (list Box) :=
  MkServer core {[0%nat := []; 1%nat := []]} {["t1" := tomb]} ∅ {["t1" := persistLocked tomb]} ∅ ∅
    "proxy.example" (Some ["hook"]) [].

Definition run (h : string) : option HookResponse := Some (MkHookResponse "state" []).
Definition opts (id sp : string) : CreateOptions := MkCreateOptions id "" sp [] 0.
Definition rnds (i : nat) : option (list Z) := Some [Z.of_nat i].

(** A creation of "web" on "away", up to its registration, with [between] run
    after the claim. *)
Definition registered (between : Server (list Box) -> Server (list Box)) :
    Server (list Box) * res HubError session :=
  let s1 := between (createBox_begin (opts "web" "away") srv).1 in
  match createBox_launch run (opts "web" "away") 1 s1 with
  | (s2, Ok (st, r)) => createBox_register (Some [7]) Hour (opts "web" "away") "away" 1 st r s2
  | (s2, Err e) => (s2, Err e)
  end.

(** The same, to its end. *)
Definition finished (between : Server (list Box) -> Server (list Box)) : Server (list Box) :=
  match registered between with
  | (s3, Ok sess) =>
      releaseBoxID "web" (createBox_finish rnds Hour "away" 1 (MkCreateResult "i-web" false "" []) sess s3)
  | (s3, Err _) => s3
  end.

Definition live_ids (s : Server (list Box)) : list string :=
  (fun kv => ss_BoxID kv.2) <$> filter (fun kv => terminated kv.2 = false) (map_to_list (sv_byToken s)).

(** A box "web" created on "edge". *)
Definition one_box : Server (list Box) :=
  (createBox run (Some [7]) rnds 0 0 (opts "web" "edge") empty_srv).1.

Definition tok : string := sha256_hex (hex_encode [7]).

End BoxesDemo.

#[local] Existing Instance BoxesDemo.listed.

(** a spoke that reports a box alive again breaks the uniqueness of ids:
    when the inventory that revives the tombstone of "web" is folded in between
    the claim on "web" and the registration of the new box, the hub ends up with
    two live boxes "web". Without it, one is left. *)
Theorem revival_duplicates_id :
  BoxesDemo.live_ids (BoxesDemo.finished (syncSpokeInventory Hour "edge" [BoxesDemo.old_box])) = ["web"; "web"] /\
  BoxesDemo.live_ids (BoxesDemo.finished id) = ["web"].
Proof. split; vm_compute; reflexivity. Qed.

(** destroying a box by an id that a tombstone and a live box share depends
    on the order in which the registry is ranged over. Both sessions are there
    between the registration of a recreated box and the removal of the old
    tombstone; met first, the tombstone makes the hub forget the live box
    without destroying it, and the box keeps running on its spoke. *)
Theorem destroy_depends_on_order : exists s o1 o2 s1 s2,
  s = (BoxesDemo.registered id).1 /\
  o1 ≡ₚ (map_to_list (sv_byToken s)).*2 /\ o2 ≡ₚ (map_to_list (sv_byToken s)).*2 /\
  destroyBox_in_order o1 "web" s = (s1, Ok ()) /\ destroyBox_in_order o2 "web" s = (s2, Ok ()) /\
  map_to_list (sv_byToken s1) = [] /\ map_to_list (sv_byToken s2) = [] /\
  length <$> sv_remotes s1 !! 1%nat = Some 1%nat /\ length <$> sv_remotes s2 !! 1%nat = Some 0%nat.
Proof.
  set (l := (map_to_list (sv_byToken (BoxesDemo.registered id).1)).*2).
  set (o1 := filter (fun x => terminated x = true) l ++ filter (fun x => ~ terminated x = true) l).
  set (o2 := filter (fun x => ~ terminated x = true) l ++ filter (fun x => terminated x = true) l).
  exists (BoxesDemo.registered id).1, o1, o2,
    (destroyBox_in_order o1 "web" (BoxesDemo.registered id).1).1,
    (destroyBox_in_order o2 "web" (BoxesDemo.registered id).1).1.
  assert (Hp : o1 ≡ₚ l) by exact (filter_app_complement (fun x => terminated x = true) l).
  assert (Hp2 : o2 ≡ₚ l) by (unfold o2; rewrite Permutation_app_comm; exact Hp).
  split; [reflexivity|]. split; [exact Hp|]. split; [exact Hp2|]. clear Hp Hp2. subst o1 o2 l.
  do 5 (split; [vm_compute; reflexivity|]). vm_compute. reflexivity.
Qed.

(** a sync can bring a destroyed box back. The sync collects the sessions,
    then writes their records without looking whether they are still
    registered: a box destroyed in between gets its record back, and the next
    start of the hub restores it. *)
Theorem sync_resurrects_destroyed :
  let s := BoxesDemo.one_box in
  let boxes := [MkBox "i-web" "n" "web" "" "" "img" "running" "" "" "" 0 0] in
  let snap := sync_snapshot "edge" s in
  let s1 := (destroyBox "web" s).1 in
  let s2 := sync_sessions Minute boxes snap s1 in
  (destroyBox "web" s).2 = Ok () /\ map_to_list (sv_boxes s1) = [] /\
  map_to_list (sv_byToken s2) = [] /\
  (br_BoxID ∘ snd) <$> map_to_list (sv_boxes s2) = ["web"] /\
  BoxesDemo.live_ids (Restore (restarted s2)).1 = ["web"].
Proof. cbv zeta. split_and!; vm_compute; reflexivity. Qed.

Lemma sync_converges_witness :
  let s := BoxesDemo.one_box in
  proxies_ok (sv_proxies s) /\
  sv_destroyed (syncSpokeInventory Hour "edge" [] s) = [("web", "", {["hook" := "state"]})] /\
  sv_destroyed (syncSpokeInventory Hour "edge" [] (syncSpokeInventory Hour "edge" [] s)) =
  sv_destroyed (syncSpokeInventory Hour "edge" [] s).
Proof.
  intros s.
  assert (Hok : proxies_ok (sv_proxies s)).
  { apply good_createBox. split; [split; [reflexivity|]|split]; intros *; done. }
  split; [exact Hok|]. split; [vm_compute; reflexivity|].
  exact (proj2 (proj2 (proj2 (proj2 (sync_converges Hour "edge" [] s Hok))))).
Defined.

Lemma live_box_ids_unique_witness :
  exists (s0 s : Server (list Box)) ts,
    rtc race_step (s0, []) (s, ts) /\ BoxesDemo.live_ids s = ["web"] /\
    th_key <$> ts = ["db"; "web"] /\ live_ids_distinct s /\ NoDup (th_key <$> ts).
Proof.
  pose (o := BoxesDemo.opts "web" "edge"). pose (o' := BoxesDemo.opts "db" "edge").
  pose (nohooks := MkServer BoxesDemo.core {[0%nat := []]} ∅ ∅ ∅ ∅ ∅ "" None [] : Server (list Box)).
  pose (s1 := (createBox_begin o nohooks).1). pose (s2 := (createBox_launch BoxesDemo.run o 0 s1).1).
  pose (r := MkCreateResult "i-web" false "" [MkPublishPort 80 "site"]).
  pose (sess := MkSession BoxesDemo.tok "i-web" 0 None "web" "" "edge" "ready" "" LifecycleRunning (Some 0) "" "" "").
  pose (s3 := with_byToken (<[BoxesDemo.tok := sess]> (sv_byToken s2)) s2).
  pose (s4 := (createBox_begin o' s3).1).
  pose (t := MkThread o "edge" 0 PhClaimed). pose (t' := MkThread o' "edge" 0 PhClaimed).
  assert (Hr : rtc race_step (nohooks, []) (s4, [t'; at_phase t (PhRegistered EnRegistered r sess)])).
  { eapply rtc_l; [apply (rs_begin o nohooks s1 "edge" 0 []); vm_compute; reflexivity|].
    eapply rtc_l; [apply (rs_launch BoxesDemo.run t s1 s2 None r [] []); vm_compute; reflexivity|].
    eapply rtc_l; [apply (rs_register (Some [7]) 0 (at_phase t (PhLaunched None r)) None r s2 s3 sess [] []); vm_compute; reflexivity|].
    eapply rtc_l; [|apply rtc_refl]. apply (rs_begin o' s3 s4 "edge" 0). vm_compute. reflexivity. }
  exists nohooks, s4, [t'; at_phase t (PhRegistered EnRegistered r sess)].
  split; [exact Hr|]. split; [vm_compute; reflexivity|]. split; [reflexivity|].
  destruct (live_box_ids_unique nohooks s4 _ ltac:(intros tok1 tok2 b1 b2 H; vm_compute in H; discriminate) Hr) as (H1 & H2 & _).
  split; [exact H1|exact H2].
Defined.


(** A hub whose only box belongs to a spoke that is no longer enrolled. *)
Lemma PruneDepartedSpokes_spec_witness :
  let sess := MkSession "t" "g" 0 (Some {["hook" := "x"]}) "web" "" "edge" "ready" "" LifecycleRunning None "" "" "" in
  let s : Server (list Box) := MkServer (MkHubServer (MkClusterDB ∅ {["away" := ("h", 0)]}) ∅ (Some NewHub)) ∅
    {["t" := sess]} ∅ {["t" := persistLocked sess]} ∅ ∅ "proxy.example" (Some ["hook"]) [] in
  mirrored (PruneDepartedSpokes s).1 /\ sv_byToken (PruneDepartedSpokes s).1 !! "t" = None /\
  sv_destroyed (PruneDepartedSpokes s).1 = [("web", "", {["hook" := "x"]})].
Proof.
  intros sess s. split; [|split; vm_compute; reflexivity].
  apply (PruneDepartedSpokes_spec s NewHub).
  - reflexivity.
  - split; [vm_compute; reflexivity|]. intros tok x Hx. simpl in Hx. apply lookup_singleton_Some in Hx as [<- <-]. reflexivity.
  - split; intros *; done.
Defined.
