(* ===== verification/Hooks.v ===== *)
(** * The hook protocol (hookproto, internal/hub/hooks)

    A hook is an executable the hub runs with a request on its standard input;
    package hookproto is the other end.  Here: the files a hook can return, one
    run of a hook by [Runner.run], and the loop of a hook written with
    [hookproto.Serve].  [encoding/json] is a parameter. *)

From S2P Require Import Prelude GoStrings Sandbox Registry Boxes.
From Stdlib Require Import Ascii.

Local Open Scope Z_scope.

(** ** base64.StdEncoding *)

Definition b64_chars : list ascii :=
  String.list_ascii_of_string "ABCDEFGHIJKLMNOPQRSTUVWXYZabcdefghijklmnopqrstuvwxyz0123456789+/".
Definition b64_digit (d : Z) : ascii := nth (Z.to_nat d) b64_chars "A"%char.

Fixpoint index_of (c : ascii) (l : list ascii) : option Z :=
  match l with
  | [] => None
  | d :: l' => if Ascii.eqb d c then Some 0 else Z.succ <$> index_of c l'
  end.
Definition b64_value (c : ascii) : option Z := index_of c b64_chars.

Definition byte_z (c : ascii) : Z := Z.of_N (N_of_ascii c).
Definition z_byte (z : Z) : ascii := ascii_of_N (Z.to_N z).

Fixpoint EncodeToString (l : list ascii) : list ascii :=
  match l with
  | a :: b :: c :: l' =>
      b64_digit (byte_z a / 4) :: b64_digit (byte_z a mod 4 * 16 + byte_z b / 16) ::
      b64_digit (byte_z b mod 16 * 4 + byte_z c / 64) :: b64_digit (byte_z c mod 64) :: EncodeToString l'
  | [a; b] =>
      [b64_digit (byte_z a / 4); b64_digit (byte_z a mod 4 * 16 + byte_z b / 16); b64_digit (byte_z b mod 16 * 4); "="%char]
  | [a] => [b64_digit (byte_z a / 4); b64_digit (byte_z a mod 4 * 16); "="; "="]%char
  | [] => []
  end.

(** Quanta of four; padding ends the text; the bits left over are not checked. *)
Fixpoint decode_quanta (l : list ascii) : option (list ascii) :=
  match l with
  | [] => Some []
  | a :: b :: c :: d :: l' =>
      match b64_value a, b64_value b with
      | Some va, Some vb =>
          let x := z_byte (va * 4 + vb / 16) in
          match b64_value c, b64_value d with
          | Some vc, Some vd =>
              match decode_quanta l' with
              | Some rest => Some (x :: z_byte (vb mod 16 * 16 + vc / 4) :: z_byte (vc mod 4 * 64 + vd) :: rest)
              | None => None
              end
          | Some vc, None =>
              if Ascii.eqb d "=" then match l' with [] => Some [x; z_byte (vb mod 16 * 16 + vc / 4)] | _ => None end else None
          | None, _ =>
              if Ascii.eqb c "=" && Ascii.eqb d "=" then match l' with [] => Some [x] | _ => None end else None
          end
      | _, _ => None
      end
  | _ => None
  end.
Definition is_newline (c : ascii) : bool := Ascii.eqb c "010" || Ascii.eqb c "013".
Definition DecodeString (l : list ascii) : option (list ascii) := decode_quanta (filter (fun c => is_newline c = false) l).

Lemma b64_digit_value d : 0 <= d < 64 -> b64_value (b64_digit d) = Some d /\ is_newline (b64_digit d) = false.
Proof.
  intros Hd. assert (Hall : forallb (fun d => bool_decide (b64_value (b64_digit d) = Some d) && negb (is_newline (b64_digit d))) (seqZ 0 64) = true)
    by (by vm_compute).
  rewrite forallb_forall in Hall. specialize (Hall d). rewrite <- list_elem_of_In, elem_of_seqZ in Hall.
  specialize (Hall ltac:(lia)). apply andb_true_iff in Hall as [H1 H2]. apply bool_decide_eq_true in H1. apply negb_true_iff in H2. done.
Qed.

Lemma byte_z_range c : 0 <= byte_z c < 256.
Proof. unfold byte_z. pose proof (N_ascii_bounded c). lia. Qed.
Lemma z_byte_z c : z_byte (byte_z c) = c.
Proof. unfold z_byte, byte_z. rewrite N2Z.id. apply ascii_N_embedding. Qed.

(** The three bytes of a quantum. *)
Lemma quantum_1 a b : 0 <= a < 256 -> 0 <= b < 256 -> (a / 4) * 4 + (a mod 4 * 16 + b / 16) / 16 = a.
Proof.
  intros Ha Hb. assert (b / 16 < 16) by (apply Z.div_lt_upper_bound; lia). assert (0 <= b / 16) by (apply Z.div_pos; lia).
  rewrite Z.add_comm with (n := a mod 4 * 16), Z.div_add by lia. rewrite (Z.div_small (b / 16)) by lia.
  pose proof (Z.div_mod a 4). lia.
Qed.
Lemma quantum_2 a b c : 0 <= b < 256 -> 0 <= c < 256 ->
  (a mod 4 * 16 + b / 16) mod 16 * 16 + (b mod 16 * 4 + c / 64) / 4 = b.
Proof.
  intros Hb Hc. assert (b / 16 < 16) by (apply Z.div_lt_upper_bound; lia). assert (0 <= b / 16) by (apply Z.div_pos; lia).
  assert (c / 64 < 4) by (apply Z.div_lt_upper_bound; lia). assert (0 <= c / 64) by (apply Z.div_pos; lia).
  rewrite (Z.add_comm (a mod 4 * 16)), Z.mod_add by lia. rewrite (Z.mod_small (b / 16)) by lia.
  rewrite (Z.add_comm (b mod 16 * 4)), Z.div_add by lia. rewrite (Z.div_small (c / 64)) by lia.
  pose proof (Z.div_mod b 16). lia.
Qed.
Lemma quantum_3 b c : 0 <= c < 256 -> (b mod 16 * 4 + c / 64) mod 4 * 64 + c mod 64 = c.
Proof.
  intros Hc. assert (c / 64 < 4) by (apply Z.div_lt_upper_bound; lia). assert (0 <= c / 64) by (apply Z.div_pos; lia).
  rewrite (Z.add_comm (b mod 16 * 4)), Z.mod_add by lia. rewrite (Z.mod_small (c / 64)) by lia.
  pose proof (Z.div_mod c 64). lia.
Qed.

(** The digits are in range. *)
Lemma sextets a b c : 0 <= a < 256 -> 0 <= b < 256 -> 0 <= c < 256 ->
  0 <= a / 4 < 64 /\ 0 <= a mod 4 * 16 + b / 16 < 64 /\ 0 <= b mod 16 * 4 + c / 64 < 64 /\ 0 <= c mod 64 < 64.
Proof.
  intros Ha Hb Hc. pose proof (Z.mod_pos_bound a 4). pose proof (Z.mod_pos_bound b 16). pose proof (Z.mod_pos_bound c 64).
  pose proof (Z.div_lt_upper_bound a 4 64). pose proof (Z.div_pos a 4).
  pose proof (Z.div_lt_upper_bound b 16 16). pose proof (Z.div_pos b 16).
  pose proof (Z.div_lt_upper_bound c 64 4). pose proof (Z.div_pos c 64). lia.
Qed.

Lemma decode_encode_quanta n : forall l, (length l <= n)%nat ->
  filter (fun c => is_newline c = false) (EncodeToString l) = EncodeToString l /\ decode_quanta (EncodeToString l) = Some l.
Proof.
  induction n as [|n IH]; intros l Hl; [by destruct l; [|simpl in Hl; lia]|].
  assert (H0 : 0 <= 0 < 256) by lia.
  destruct l as [|a [|b [|c l]]]; [done|..]; pose proof (byte_z_range a) as Ha.
  - destruct (sextets (byte_z a) 0 0 Ha H0 H0) as (S1 & S2 & _). cbn [EncodeToString].
    rewrite Z.add_0_r in S2. destruct (b64_digit_value _ S1) as [V1 N1], (b64_digit_value _ S2) as [V2 N2].
    split; [by rewrite !filter_cons, !decide_True by done|]. cbn [decode_quanta]. rewrite V1, V2. cbn.
    do 2 f_equal. rewrite <- (z_byte_z a) at 3. f_equal. pose proof (quantum_1 (byte_z a) 0 Ha H0) as Q. by rewrite Z.add_0_r in Q.
  - pose proof (byte_z_range b) as Hb. destruct (sextets (byte_z a) (byte_z b) 0 Ha Hb H0) as (S1 & S2 & S3 & _). cbn [EncodeToString].
    rewrite Z.add_0_r in S3.
    destruct (b64_digit_value _ S1) as [V1 N1], (b64_digit_value _ S2) as [V2 N2], (b64_digit_value _ S3) as [V3 N3].
    split; [by rewrite !filter_cons, !decide_True by done|]. cbn [decode_quanta]. rewrite V1, V2, V3. cbn.
    pose proof (quantum_2 (byte_z a) (byte_z b) 0 Hb H0) as Q. rewrite Z.add_0_r in Q. rewrite Q, quantum_1 by done. by rewrite !z_byte_z.
  - pose proof (byte_z_range b) as Hb. pose proof (byte_z_range c) as Hc.
    destruct (sextets (byte_z a) (byte_z b) (byte_z c) Ha Hb Hc) as (S1 & S2 & S3 & S4). cbn [EncodeToString].
    destruct (b64_digit_value _ S1) as [V1 N1], (b64_digit_value _ S2) as [V2 N2], (b64_digit_value _ S3) as [V3 N3], (b64_digit_value _ S4) as [V4 N4].
    destruct (IH l) as [If Id]; [simpl in Hl; lia|].
    split; [by rewrite !filter_cons, !decide_True, If by done|]. cbn [decode_quanta]. rewrite V1, V2, V3, V4, Id.
    rewrite quantum_1, quantum_2, quantum_3 by done. by rewrite !z_byte_z.
Qed.

Lemma DecodeString_encoded l : DecodeString (EncodeToString l) = Some l.
Proof. unfold DecodeString. destruct (decode_encode_quanta (length l) l (le_n _)) as [-> ?]. done. Qed.

(** ** Files *)

(** [hookproto.File]. *)
Record hookFile := MkHookFile {
  hf_Path : string; hf_Content : string; hf_ContentBase64 : string; hf_Mode : string; hf_UID : Z; hf_GID : Z }.

Definition Bytes (f : hookFile) : res string string :=
  if negb (String.eqb (hf_ContentBase64 f) "") then
    match DecodeString (String.list_ascii_of_string (hf_ContentBase64 f)) with
    | Some b => Ok (String.string_of_list_ascii b)
    | None => Err ("decoding base64 content for " +:+ hf_Path f)
    end
  else Ok (hf_Content f).

(** [strconv.ParseInt(s, 8, 64)]. *)
Fixpoint octal_digits (s : string) (acc : Z) : option Z :=
  match s with
  | "" => Some acc
  | String c s' =>
      let d := byte_z c - 48 in
      if (0 <=? d) && (d <? 8) then octal_digits s' (8 * acc + d) else None
  end.
Definition ParseInt8 (s : string) : option Z :=
  let '(neg, ds) := match s with
                    | String c s' => if Ascii.eqb c "-" then (true, s') else if Ascii.eqb c "+" then (false, s') else (false, s)
                    | "" => (false, s)
                    end in
  if String.eqb ds "" then None
  else match octal_digits ds 0 with
  | None => None
  | Some n => let v := if neg : bool then - n else n in if (- 2 ^ 63 <=? v) && (v <? 2 ^ 63) then Some v else None
  end.

Definition FileMode (f : hookFile) : res string Z :=
  if String.eqb (hf_Mode f) "" then Ok 384
  else match ParseInt8 (hf_Mode f) with
  | Some m => Ok m
  | None => Err ("parsing mode " +:+ hf_Mode f)
  end.

(** What [OnCreate] makes of a file: its content, then its mode. *)
Definition inject_file (f : hookFile) : option InjectFile :=
  match Bytes f with
  | Err _ => None
  | Ok content =>
      match FileMode f with
      | Err _ => None
      | Ok mode => Some (MkInjectFile (hf_Path f) content mode (hf_UID f) (hf_GID f))
      end
  end.

(** ** One run *)

Definition EventBoxCreate : string := "box.create".
Definition EventBoxDestroy : string := "box.destroy".

Record hookRequest := MkHookRequest { hq_Event : string; hq_BoxID : string; hq_Description : string; hq_State : string }.
Record hookAnswer := MkHookAnswer { ha_Files : list hookFile; ha_State : string }.

(** What [cmd.Run] leaves: its error (the executable could not be started, or its
    exit status), the standard output ([None] is an empty one) and the standard
    error. *)
Record process (W : Type) := MkProcess { ps_err : option string; ps_stdout : option W; ps_stderr : string }.
Arguments MkProcess {W}.
Arguments ps_err {W}.
Arguments ps_stdout {W}.
Arguments ps_stderr {W}.

Lemma drop_end_while_keeps f c s : f c = false -> drop_end_while f (String c s) <> "".
Proof. intros Hf. simpl. destruct (drop_end_while f s); [by rewrite Hf|done]. Qed.

Section Protocol.
Context {W : Type} (enc_req : hookRequest -> W) (dec_req : W -> option hookRequest)
  (enc_resp : hookAnswer -> W) (dec_resp : W -> option hookAnswer).

(** [Runner.run] of the executable at a path: [exec] is what the process does with
    its standard input. *)
Definition run (exec : string -> W -> process W) (path : string) (req : hookRequest) : res string hookAnswer :=
  let p := exec path (enc_req req) in
  match ps_err p with
  | Some err =>
      let msg := TrimSpace (ps_stderr p) in
      Err (if negb (String.eqb msg "") then err +:+ ": " +:+ msg else err)
  | None =>
      match ps_stdout p with
      | None => Ok (MkHookAnswer [] "")
      | Some out => match dec_resp out with Some resp => Ok resp | None => Err "decoding response" end
      end
  end.

(** [hookproto.Serve] and [hookproto.Main]. *)
Definition Serve (h : hookRequest -> res string hookAnswer) (stdin : W) : res string W :=
  match dec_req stdin with
  | None => Err "decoding hook request"
  | Some req => match h req with Err e => Err e | Ok resp => Ok (enc_resp resp) end
  end.
Definition Main (h : hookRequest -> res string hookAnswer) (stdin : W) : process W :=
  match Serve h stdin with
  | Ok out => MkProcess None (Some out) ""
  | Err e => MkProcess (Some "exit status 1") None ("hook: " +:+ e +:+ String "010" "")
  end.

(** The answer of a hook at creation, as [OnCreate] takes it. *)
Definition create_run (exec : string -> W -> process W) (boxID description path : string) : option HookResponse :=
  match run exec path (MkHookRequest EventBoxCreate boxID description "") with
  | Ok resp => Some (MkHookResponse (ha_State resp) (inject_file <$> ha_Files resp))
  | Err _ => None
  end.

(** [Runner.OnDestroy]: every hook with a state runs; the first error is returned. *)
Fixpoint destroy_loop (exec : string -> W -> process W) (boxID description : string) (state : gmap string string)
    (execs : list string) (firstErr : option string) : option string :=
  match execs with
  | [] => firstErr
  | h :: execs' =>
      let firstErr' :=
        match state !! h with
        | None => firstErr
        | Some st =>
            match run exec h (MkHookRequest EventBoxDestroy boxID description st), firstErr with
            | Err e, None => Some ("hook " +:+ h +:+ ": " +:+ e)
            | _, _ => firstErr
            end
        end in
      destroy_loop exec boxID description state execs' firstErr'
  end.

(** The documented behaviour of [encoding/json] on these types. *)
Context (Hreq : forall r, dec_req (enc_req r) = Some r) (Hresp : forall p, dec_resp (enc_resp p) = Some p).

(** The hub and a hook written with package hookproto understand each other: the
    hub gets the handler's answer, or its error after the exit status.  (A run of a
    hook writes its own output only through [Serve].) *)
Theorem hook_run_calls_handler : forall exec path h req,
  (forall stdin, exec path stdin = Main h stdin) ->
  run exec path req =
  match h req with
  | Ok resp => Ok resp
  | Err e => Err ("exit status 1: " +:+ TrimSpace ("hook: " +:+ e +:+ String "010" ""))
  end.
Proof.
  intros exec path h req He. unfold run. rewrite He. unfold Main, Serve. rewrite Hreq.
  destruct (h req) as [resp|e]; cbn [ps_err ps_stdout ps_stderr negb]; [by rewrite Hresp|].
  destruct (String.eqb_spec (TrimSpace ("hook: " +:+ e +:+ String "010" "")) "") as [Ht|Ht]; [|done]. exfalso.
  revert Ht. unfold TrimSpace. by apply drop_end_while_keeps.
Qed.

(** A creation whose hooks all succeed with files that decode. *)
Lemma OnCreate_all run execs files answers :
  NoDup execs ->
  Forall2 (fun h a => run h = Some (MkHookResponse (fst a) (Some <$> snd a))) execs answers ->
  forall state, (forall h, h ∈ execs -> state !! h = None) ->
  exists state', OnCreate_loop run execs files state = (files ++ concat (snd <$> answers), state', true) /\
    (forall h, h ∉ execs -> state' !! h = state !! h) /\
    Forall2 (fun h a => state' !! h = if String.eqb (fst a) "" then None else Some (fst a)) execs answers.
Proof.
  intros Hnd Hall. revert files Hnd. induction Hall as [|h [st fs] execs answers Hr Hall IH]; intros files Hnd state Hst.
  - exists state. rewrite app_nil_r. done.
  - apply NoDup_cons in Hnd as [Hn Hnd]. cbn [OnCreate_loop]. rewrite Hr. cbn [hr_State hr_Files].
    assert (Hc : forall acc l, collect_files acc (Some <$> l) = (acc ++ l, true)).
    { intros acc l. revert acc. induction l as [|f l IHl]; intros acc; simpl; [by rewrite app_nil_r|]. by rewrite IHl, <- app_assoc. }
    rewrite Hc. simpl in *. set (state1 := if String.eqb st "" then state else <[h := st]> state).
    destruct (IH (files ++ fs) Hnd state1) as (state' & He & Hout & Hin).
    { intros h' Hh'. unfold state1. destruct (String.eqb st ""); [apply Hst; by right|].
      rewrite lookup_insert_ne by congruence. apply Hst. by right. }
    exists state'. rewrite He, <- app_assoc. split_and!; [done| |].
    + intros h' Hh'. rewrite not_elem_of_cons in Hh'. destruct Hh' as [Hne Hh']. rewrite Hout by done. unfold state1.
      destruct (String.eqb st ""); [done|]. by rewrite lookup_insert_ne.
    + constructor; [|done]. simpl. rewrite Hout by done. unfold state1. destruct (String.eqb st "") eqn:Hs; [apply Hst; by left|].
      apply lookup_insert_eq.
Qed.

Lemma destroy_loop_none exec handlers boxID desc state execs (answers : list hookAnswer) :
  (forall h stdin, exec h stdin = Main (handlers h) stdin) ->
  Forall2 (fun h a => state !! h = if String.eqb (ha_State a) "" then None else Some (ha_State a)) execs answers ->
  forall firstErr, destroy_loop exec boxID desc state execs firstErr = None <->
    firstErr = None /\
    Forall2 (fun h a => ha_State a <> "" -> is_ok (handlers h (MkHookRequest EventBoxDestroy boxID desc (ha_State a))) = true) execs answers.
Proof.
  intros Hmain. induction 1 as [|h a execs answers Hst Hall IH]; intros firstErr; [naive_solver|].
  cbn [destroy_loop]. rewrite IH, Forall2_cons, Hst. destruct (String.eqb_spec (ha_State a) "") as [He|He]; [naive_solver|].
  rewrite (hook_run_calls_handler exec h (handlers h)) by done.
  destruct (handlers h _); destruct firstErr; simpl; naive_solver.
Qed.

Lemma omap_inject fs : Forall (fun f => is_Some (inject_file f)) fs -> Some <$> omap inject_file fs = inject_file <$> fs.
Proof. induction 1 as [|f fs [x Hx] Hfs IH]; [done|]. cbn. rewrite Hx. cbn. by f_equal. Qed.

(** Every hook gets its own state back: with hooks written with package
    hookproto, a creation they all answer collects their files in order, and the
    destruction of the box reports an error exactly when one of those that
    returned a state fails on the request with that very state. *)
Theorem hooks_get_their_state_back : forall exec handlers execs answers boxID desc,
  NoDup execs -> (forall h stdin, exec h stdin = Main (handlers h) stdin) ->
  Forall2 (fun h a => handlers h (MkHookRequest EventBoxCreate boxID desc "") = Ok a /\
             Forall (fun f => is_Some (inject_file f)) (ha_Files a)) execs answers ->
  exists files state, OnCreate (create_run exec boxID desc) execs = (files, state, true) /\
    Some <$> files = concat ((fun a => inject_file <$> ha_Files a) <$> answers) /\
    (destroy_loop exec boxID desc state execs None = None <->
     Forall2 (fun h a => ha_State a <> "" -> is_ok (handlers h (MkHookRequest EventBoxDestroy boxID desc (ha_State a))) = true) execs answers).
Proof.
  intros exec handlers execs answers boxID desc Hnd Hmain Hall.
  destruct (OnCreate_all (create_run exec boxID desc) execs [] ((fun a => (ha_State a, omap inject_file (ha_Files a))) <$> answers) Hnd)
    with (state := ∅ : gmap string string) as (state & Hc & _ & Hst).
  - apply Forall2_fmap_r. eapply Forall2_impl; [exact Hall|]. intros h a [Ha Hf]. unfold create_run.
    rewrite (hook_run_calls_handler exec h (handlers h)), Ha by done. simpl. by rewrite omap_inject.
  - intros h _. apply lookup_empty.
  - eexists _, state. unfold OnCreate. rewrite Hc. split; [done|]. split.
    + clear -Hall. simpl. induction Hall as [|h a execs answers [_ Hf] Hall IH]; [done|].
      simpl. rewrite fmap_app, omap_inject by done. by f_equal.
    + apply Forall2_fmap_r in Hst. rewrite (destroy_loop_none exec handlers boxID desc state execs answers Hmain Hst). naive_solver.
Qed.

End Protocol.

(** Three octal digits. *)
Definition octal3 (m : Z) : string :=
  String (digit_byte (m / 64)) (String (digit_byte (m / 8 mod 8)) (String (digit_byte (m mod 8)) "")).

Lemma octal3_parses m : 0 <= m < 512 -> ParseInt8 (octal3 m) = Some m.
Proof.
  intros Hm. assert (Hall : forallb (fun m => bool_decide (ParseInt8 (octal3 m) = Some m)) (seqZ 0 512) = true) by (by vm_compute).
  rewrite forallb_forall in Hall. specialize (Hall m). rewrite <- list_elem_of_In, elem_of_seqZ in Hall.
  specialize (Hall ltac:(lia)). by apply bool_decide_eq_true in Hall.
Qed.

(** A file given as base64 text with an octal mode is injected with those bytes
    and that mode. *)
Theorem binary_file_injected : forall path bytes m uid gid,
  bytes <> [] -> 0 <= m < 512 ->
  inject_file (MkHookFile path "" (String.string_of_list_ascii (EncodeToString bytes)) (octal3 m) uid gid) =
  Some (MkInjectFile path (String.string_of_list_ascii bytes) m uid gid).
Proof.
  intros path bytes m uid gid Hne Hm. unfold inject_file, Bytes, FileMode. cbn [hf_ContentBase64 hf_Mode hf_Path hf_UID hf_GID].
  assert (He : String.eqb (String.string_of_list_ascii (EncodeToString bytes)) "" = false).
  { destruct bytes as [|a [|b [|c l]]]; done. }
  rewrite He. cbn [negb]. rewrite String.list_ascii_of_string_of_list_ascii, DecodeString_encoded.
  change (String.eqb (octal3 m) "") with false. cbn [negb]. by rewrite octal3_parses.
Qed.
