(* ===== verification/AuditLog.v ===== *)
(** * The DNS audit trail (internal/spoke/audit_forwarder.go, internal/hub/dns_audit.go,
      internal/hub/store/dns_audit_store.go)

    A lookup recorded by the resolver of a spoke is buffered, forwarded over the
    spoke's connection, counted by the hub, and listed for the administrator. *)

From S2P Require Import Prelude GoStrings Sandbox Dnsd Store Timestamps Enroll Remote Registry BoxApi Boxes.

Local Open Scope Z_scope.

(** ** The forwarder of a spoke *)

Definition verdict_string (v : Verdict) : string :=
  match v with VerdictAllowed => "allowed" | VerdictBlocked => "blocked" | VerdictError => "error" | VerdictRefused => "refused" end.

Definition auditDomain (qname : string) : string := TrimSuffix (ToLower qname) ".".

(** The capacity of the channel. *)
Definition audit_buffer : nat := 512.

(** The channel [events]. *)
Record dnsAuditForwarder := MkForwarder { fw_events : list Event }.
Definition newDNSAuditForwarder : dnsAuditForwarder := MkForwarder [].

(** [Record] never blocks: a full buffer drops the event. *)
Definition Record_ (ev : Event) (f : dnsAuditForwarder) : dnsAuditForwarder :=
  if Nat.ltb (length (fw_events f)) audit_buffer then MkForwarder (fw_events f ++ [ev]) else f.

Section Forward.
Context {M : Type} `{!BoxManager M}.

(** [HubCaller.RecordDNSAudit]: whole seconds travel. *)
Definition HubCaller_RecordDNSAudit (boxID domain verdict : string) (at_ : Z) (l : Link (M:=M)) : Link * res LinkError () :=
  match hub_request (AuditReq boxID domain verdict (at_ / Second)) l with
  | (l', Ok _) => (l', Ok ())
  | (l', Err e) => (l', Err e)
  end.

Definition forward (ev : Event) (l : Link (M:=M)) : Link :=
  (HubCaller_RecordDNSAudit (ev_BoxID ev) (auditDomain (ev_QName ev)) (verdict_string (ev_Verdict ev)) (ev_Time ev) l).1.

(** One turn of [run]: the oldest event is sent, whatever the outcome. *)
Definition run_turn (f : dnsAuditForwarder) (l : Link (M:=M)) : dnsAuditForwarder * Link :=
  match fw_events f with
  | [] => (f, l)
  | ev :: evs => (MkForwarder evs, forward ev l)
  end.
End Forward.

(** ** The listing *)

Definition defaultDNSAuditLimit : Z := 500.

Record DNSAuditEntry := MkAuditEntry {
  ae_BoxID : string; ae_Domain : string; ae_Verdict : string; ae_Hits : Z; ae_FirstSeen : Z; ae_LastSeen : Z }.

Record DNSAuditFilter := MkAuditFilter { af_BoxID : string; af_Verdict : string; af_Domain : string; af_Limit : Z }.

(** SQLite's [LIKE] on ASCII text: [%] any text, [_] any byte, letters without case. *)
Fixpoint like (pat : string) : string -> bool :=
  match pat with
  | "" => fun s => String.eqb s ""
  | String c pat' =>
      if Ascii.eqb c "%" then
        fix any s := like pat' s || match s with "" => false | String _ s' => any s' end
      else if Ascii.eqb c "_" then
        fun s => match s with "" => false | String _ s' => like pat' s' end
      else
        fun s => match s with "" => false | String d s' => Ascii.eqb (lower_byte c) (lower_byte d) && like pat' s' end
  end.

Definition entry_of (kv : string * string * string * AuditRow) : DNSAuditEntry :=
  let '(b, d, v, row) := kv in MkAuditEntry b d v (au_hits row) (au_first_seen row) (au_last_seen row).

(** The conditions of the query. *)
Definition selected (f : DNSAuditFilter) (e : DNSAuditEntry) : bool :=
  (String.eqb (af_BoxID f) "" || String.eqb (ae_BoxID e) (af_BoxID f)) &&
  (String.eqb (af_Verdict f) "" || String.eqb (ae_Verdict e) (af_Verdict f)) &&
  (String.eqb (af_Domain f) "" || like ("%" +:+ af_Domain f +:+ "%") (ae_Domain e)).

(** [ORDER BY last_seen DESC], on the stored texts. *)
Definition seen_after (a b : DNSAuditEntry) : Prop := String.le (encodeTime (ae_LastSeen b)) (encodeTime (ae_LastSeen a)).
#[export] Instance seen_after_dec : RelDecision seen_after := fun a b => _.

Definition audit_limit (f : DNSAuditFilter) : Z := if af_Limit f <=? 0 then defaultDNSAuditLimit else af_Limit f.

Definition ListDNSAudit (f : DNSAuditFilter) (t : AuditTable) : list DNSAuditEntry :=
  take (Z.to_nat (audit_limit f)) (merge_sort seen_after (List.filter (selected f) (entry_of <$> map_to_list t))).

(** The rows of the handler's answer: [LastSeen] in seconds. *)
Record dnsAuditEntryView := MkAuditView { av_BoxID : string; av_Domain : string; av_Verdict : string; av_Hits : Z; av_LastSeen : Z }.
Definition handleListDNSAudit (f : DNSAuditFilter) (t : AuditTable) : list dnsAuditEntryView :=
  (fun e => MkAuditView (ae_BoxID e) (ae_Domain e) (ae_Verdict e) (ae_Hits e) (ae_LastSeen e / Second)) <$> ListDNSAudit f t.

Example like_examples :
  (like "%Hub%" "api.github.com", like "%a_b%" "x.a-b.c", like "%hub%" "example.com", like "" "x") = (true, true, false, false).
Proof. reflexivity. Qed.

(** ** The forwarder keeps the order *)

Section Forwarding.
Context {M : Type} `{!BoxManager M}.

Inductive fw_op := FwRecord (ev : Event) | FwTurn.

(** The forwarder, the connection, and the events sent so far. *)
Definition fw_step (x : dnsAuditForwarder * Link (M:=M) * list Event) (o : fw_op) : dnsAuditForwarder * Link * list Event :=
  let '(f, l, sent) := x in
  match o with
  | FwRecord ev => (Record_ ev f, l, sent)
  | FwTurn => let '(f', l') := run_turn f l in (f', l', sent ++ take 1 (fw_events f))
  end.
Definition fw_run (ops : list fw_op) x : dnsAuditForwarder * Link (M:=M) * list Event := foldl fw_step x ops.

Definition recorded (ops : list fw_op) : list Event := omap (fun o => match o with FwRecord ev => Some ev | FwTurn => None end) ops.

(** The lookups waiting, by the order of records and turns alone, and a buffer
    that is never full when a lookup is recorded. *)
Definition backlog (ops : list fw_op) : nat := foldl (fun n o => match o with FwRecord _ => S n | FwTurn => pred n end) 0%nat ops.
Definition never_full (ops : list fw_op) : Prop :=
  forall ops1 ev ops2, ops = ops1 ++ FwRecord ev :: ops2 -> (backlog ops1 < audit_buffer)%nat.

Lemma backlog_snoc ops o : backlog (ops ++ [o]) = match o with FwRecord _ => S (backlog ops) | FwTurn => pred (backlog ops) end.
Proof. unfold backlog. rewrite foldl_snoc. done. Qed.

Lemma forwarder_order ops l0 :
  let '(f, l, sent) := fw_run ops (newDNSAuditForwarder, l0, []) in
  sublist (sent ++ fw_events f) (recorded ops) /\ (length (fw_events f) <= audit_buffer)%nat /\
  (never_full ops -> sent ++ fw_events f = recorded ops /\ length (fw_events f) = backlog ops) /\
  l = foldl (fun l ev => forward ev l) l0 sent.
Proof.
  unfold fw_run. induction ops as [|o ops IH] using rev_ind; [simpl; split_and!; [done|lia|done|done]|].
  rewrite foldl_snoc, backlog_snoc. destruct (foldl _ _ ops) as [[f l] sent]. destruct IH as (Hs & Hlen & Heq & ->).
  assert (Hpre : never_full (ops ++ [o]) -> never_full ops).
  { intros Hn ops1 ev ops2 ->. apply (Hn ops1 ev (ops2 ++ [o])). by rewrite <- app_assoc. }
  unfold recorded in *. rewrite omap_app. destruct o as [ev|]; cbn [fw_step omap list_omap].
  - unfold Record_. destruct (Nat.ltb_spec (length (fw_events f)) audit_buffer) as [Hl|Hl]; cbn [fw_events].
    + rewrite app_assoc. split_and!; [by apply sublist_app|rewrite length_app; cbn; lia| |done].
      intros Hn. destruct (Heq (Hpre Hn)) as [-> <-]. split; [done|]. rewrite length_app. cbn. lia.
    + split_and!; [by apply sublist_inserts_r|done| |done]. intros Hn.
      destruct (Heq (Hpre Hn)) as [_ Hb]. specialize (Hn ops ev [] eq_refl). lia.
  - unfold run_turn. destruct (fw_events f) as [|ev evs] eqn:He; cbn [take fw_events]; rewrite !app_nil_r.
    + rewrite app_nil_r in *. rewrite He, app_nil_r. split_and!; [done|cbn; lia| |done].
      intros Hn. destruct (Heq (Hpre Hn)) as [-> <-]. done.
    + rewrite take_0, <- app_assoc. cbn [app]. split_and!; [done|cbn in Hlen; lia| |by rewrite foldl_snoc].
      intros Hn. destruct (Heq (Hpre Hn)) as [-> <-]. done.
Qed.

(** ** What the hub makes of a forwarded event *)

(** The key and the instant counted for an event of spoke [sp]. *)
Definition lookup_of (sp : string) (s : Server M) (ev : Event) : option (string * string * string * Z) :=
  match boxPortSession sp (ev_BoxID ev) s with
  | Err _ => None
  | Ok sess => Some (ss_BoxID sess, auditDomain (ev_QName ev), verdict_string (ev_Verdict ev), ev_Time ev / Second * Second)
  end.

Lemma boxPortSession_audit sp boxID t (s : Server M) : boxPortSession sp boxID (with_audit t s) = boxPortSession sp boxID s.
Proof. done. Qed.

Lemma forward_hub ev (l : Link (M:=M)) : lk_up l = true ->
  let l' := forward ev l in
  lk_name l' = lk_name l /\ lk_up l' = true /\
  lk_hub l' = with_audit (record_lookups (option_list (lookup_of (lk_name l) (lk_hub l) ev)) (sv_audit (lk_hub l))) (lk_hub l).
Proof.
  intros Hup. unfold forward, HubCaller_RecordDNSAudit, hub_request, dispatchSpokeRequest, serve_port, RecordDNSAudit, lookup_of.
  rewrite Hup. cbn [negb]. destruct (boxPortSession _ _ _) as [sess|e]; cbn; [done|]. by destruct (lk_hub l).
Qed.

Lemma with_audit_twice a b (s : Server M) : with_audit a (with_audit b s) = with_audit a s.
Proof. done. Qed.

Lemma forwards_hub evs : forall (l : Link (M:=M)), lk_up l = true ->
  let l' := foldl (fun l ev => forward ev l) l evs in
  lk_hub l' = with_audit (record_lookups (omap (lookup_of (lk_name l) (lk_hub l)) evs) (sv_audit (lk_hub l))) (lk_hub l).
Proof.
  induction evs as [|ev evs IH]; intros l Hup; cbn [foldl omap list_omap]; [by destruct (lk_hub l)|].
  destruct (forward_hub ev l Hup) as (Hn & Hu & Hh). cbv zeta in *. rewrite (IH _ Hu), Hn, Hh.
  assert (Hl : forall ev', lookup_of (lk_name l) (with_audit (record_lookups (option_list (lookup_of (lk_name l) (lk_hub l) ev)) (sv_audit (lk_hub l))) (lk_hub l)) ev' = lookup_of (lk_name l) (lk_hub l) ev')
    by (intros; unfold lookup_of; by rewrite boxPortSession_audit).
  rewrite (list_omap_ext _ (lookup_of (lk_name l) (lk_hub l)) evs evs) by (by apply Forall_Forall2_diag, Forall_true; intros; rewrite Hl).
  rewrite with_audit_twice. f_equal. cbn [sv_audit with_audit]. unfold record_lookups.
  destruct (lookup_of (lk_name l) (lk_hub l) ev); cbn; [|done]. done.
Qed.

End Forwarding.

(** ** The listing *)

(** Without wildcards, [LIKE %w%] is the search for a substring. *)
Lemma like_percent p s : like (String "%" p) s = like p s || match s with "" => false | String _ s' => like (String "%" p) s' end.
Proof. by destruct s. Qed.

Lemma like_all s : like "%" s = true.
Proof. induction s as [|c s IH]; rewrite like_percent; [done|]. rewrite IH. apply orb_true_r. Qed.

Definition no_wildcard (w : string) : Prop := ContainsByte w "%" = false /\ ContainsByte w "_" = false.

Lemma like_prefix w : no_wildcard w -> forall s, like (w +:+ "%") s = HasPrefix (ToLower s) (ToLower w).
Proof.
  induction w as [|c w IH]; intros [Hp Hu] s.
  - change ("" +:+ "%") with "%". rewrite like_all. by destruct (ToLower s).
  - cbn [ContainsByte] in Hp, Hu. apply orb_false_iff in Hp as [Hp1 Hp2], Hu as [Hu1 Hu2].
    change (String c w +:+ "%") with (String c (w +:+ "%")). cbn [like].
    rewrite Ascii.eqb_sym, Hp1, (Ascii.eqb_sym c), Hu1. destruct s as [|d s]; [done|]. by rewrite IH.
Qed.

Lemma like_contains w : no_wildcard w -> forall s, like ("%" +:+ w +:+ "%") s = Contains (ToLower s) (ToLower w).
Proof.
  intros Hw s. change ("%" +:+ w +:+ "%") with (String "%" (w +:+ "%")).
  induction s as [|d s IH]; rewrite like_percent, like_prefix by done; [by destruct (ToLower w)|].
  change (Contains (ToLower (String d s)) (ToLower w)) with (HasPrefix (ToLower (String d s)) (ToLower w) || Contains (ToLower s) (ToLower w)).
  by rewrite IH.
Qed.

#[export] Instance seen_after_total : Total seen_after.
Proof. intros a b. unfold seen_after. destruct (String.le_total (encodeTime (ae_LastSeen b)) (encodeTime (ae_LastSeen a))); auto. Qed.
#[export] Instance seen_after_trans : Transitive seen_after.
Proof. intros a b c Hab Hbc. unfold seen_after in *. by etrans. Qed.

(** The entries listed are those selected, newest first, and when some are left
    out, the limit is reached and none of them is newer than a listed one. *)
Lemma ListDNSAudit_spec f t :
  let l := ListDNSAudit f t in
  (forall e, e ∈ l -> selected f e = true /\ t !! (ae_BoxID e, ae_Domain e, ae_Verdict e) = Some (MkAuditRow (ae_Hits e) (ae_FirstSeen e) (ae_LastSeen e))) /\
  StronglySorted seen_after l /\ Z.of_nat (length l) <= audit_limit f /\
  (forall k row, t !! k = Some row -> selected f (entry_of (k, row)) = true ->
     entry_of (k, row) ∈ l \/ (Z.of_nat (length l) = audit_limit f /\ Forall (fun e => seen_after e (entry_of (k, row))) l)).
Proof.
  intros l. set (all := List.filter (selected f) (entry_of <$> map_to_list t)).
  assert (Hpos : 0 < audit_limit f) by (unfold audit_limit, defaultDNSAuditLimit; destruct (Z.leb_spec (af_Limit f) 0); lia).
  assert (Hall : forall e, e ∈ all <-> selected f e = true /\ exists k row, t !! k = Some row /\ e = entry_of (k, row)).
  { intros e. unfold all. rewrite list_elem_of_In, filter_In, <- list_elem_of_In, list_elem_of_fmap. split.
    - intros [([k row] & -> & Hin%elem_of_map_to_list) Hs]. eauto.
    - intros [Hs (k & row & Hk & ->)]. split; [|done]. exists (k, row). split; [done|]. by apply elem_of_map_to_list. }
  pose proof (merge_sort_Permutation seen_after all) as Hperm.
  assert (Hsort : StronglySorted seen_after (merge_sort seen_after all)) by (apply Sorted_StronglySorted; [apply _|apply Sorted_merge_sort; apply _]).
  rewrite <- (take_drop (Z.to_nat (audit_limit f)) (merge_sort seen_after all)) in Hsort, Hperm.
  change (take (Z.to_nat (audit_limit f)) (merge_sort seen_after all)) with l in Hsort, Hperm.
  assert (Hlen : (length l <= Z.to_nat (audit_limit f))%nat) by (unfold l, ListDNSAudit; rewrite length_take; lia).
  split_and!.
  - intros e He. assert (Hin : e ∈ all) by (rewrite <- Hperm; set_solver). apply Hall in Hin as [Hs ([[b d] v] & row & Hk & ->)].
    split; [done|]. cbn. rewrite Hk. by destruct row.
  - by apply StronglySorted_app_1_l in Hsort.
  - lia.
  - intros k row Hk Hs. assert (Hin : entry_of (k, row) ∈ all) by (apply Hall; eauto).
    rewrite <- Hperm, elem_of_app in Hin. destruct Hin as [Hin|Hin]; [by left|right]. split.
    + unfold l, ListDNSAudit. fold all. rewrite length_take.
      assert (Hd : (0 < length (drop (Z.to_nat (audit_limit f)) (merge_sort seen_after all)))%nat) by (destruct (drop _ _); [by apply elem_of_nil in Hin|cbn; lia]).
      rewrite length_drop in Hd. lia.
    + apply Forall_forall. intros e He. by eapply StronglySorted_app_1_elem_of.
Qed.

(** ** From the resolver to the administrator *)

Section Trail.
Context {M : Type} `{!BoxManager M}.

(** A lookup of a year the texts can order. *)
Definition dated (ev : Event) : Prop := 0 <= ev_Time ev < max_seconds * Second.

Lemma dated_seconds ev : dated ev -> 0 <= ev_Time ev / Second < max_seconds.
Proof. intros [H0 H1]. split; [apply Z.div_pos; [done|by vm_compute]|]. apply Z.div_lt_upper_bound; [by vm_compute|]. lia. Qed.

(** The rows of forwarded lookups carry whole seconds. *)
Lemma rows_whole sp (s : Server M) evs k row : Forall dated evs ->
  record_lookups (omap (lookup_of sp s) evs) ∅ !! k = Some row ->
  exists n, au_last_seen row = n * Second /\ 0 <= n < max_seconds.
Proof.
  intros Hd. rewrite RecordDNSLookup_counts. unfold audit_summary, times_of.
  set (ts := (filter _ _).*2). destruct (head ts); [|done]. destruct (last ts) as [t|] eqn:Hl; [|done]. intros [= <-]. cbn.
  apply last_Some_elem_of in Hl. unfold ts in Hl. apply list_elem_of_fmap in Hl as ([k' t'] & -> & Hin).
  apply list_elem_of_filter in Hin as [_ Hin]. apply list_elem_of_omap in Hin as (ev & Hev & Hlk).
  unfold lookup_of in Hlk. destruct (boxPortSession _ _ _); [|done]. injection Hlk as <- <-. cbn.
  exists (ev_Time ev / Second). split; [done|]. apply dated_seconds. by eapply Forall_forall in Hd.
Qed.

(** The counted lookups of a box, domain and verdict, in order, in seconds. *)
Definition hits_of sp (s : Server M) (evs : list Event) (k : string * string * string) : list Z :=
  (fun t => t / Second) <$> times_of k (omap (lookup_of sp s) evs).
Definition view_key (v : dnsAuditEntryView) : string * string * string := (av_BoxID v, av_Domain v, av_Verdict v).

Lemma row_hits sp (s : Server M) evs k row :
  record_lookups (omap (lookup_of sp s) evs) ∅ !! k = Some row <->
  exists n first, au_hits row = Z.of_nat (length (hits_of sp s evs k)) /\ last (hits_of sp s evs k) = Some n /\
    head (times_of k (omap (lookup_of sp s) evs)) = Some first /\ au_first_seen row = first /\
    last (times_of k (omap (lookup_of sp s) evs)) = Some (au_last_seen row) /\ au_last_seen row / Second = n.
Proof.
  rewrite RecordDNSLookup_counts. unfold hits_of, audit_summary. rewrite length_fmap, fmap_last. set (ts := times_of _ _).
  destruct row as [h f l]. cbn. split.
  - destruct (head ts) as [a|]; [|done]. destruct (last ts) as [b|]; [|done]. intros [= <- <- <-]. exists (b / Second), a. done.
  - intros (n & a & -> & _ & -> & -> & -> & _). done.
Qed.

Lemma hits_row sp (s : Server M) evs k n : last (hits_of sp s evs k) = Some n ->
  exists row, record_lookups (omap (lookup_of sp s) evs) ∅ !! k = Some row /\ au_last_seen row / Second = n.
Proof.
  intros Hl. pose proof Hl as Hl'. unfold hits_of in Hl'. rewrite fmap_last in Hl'.
  destruct (last (times_of k (omap (lookup_of sp s) evs))) as [t|] eqn:Ht; [|done]. injection Hl' as <-.
  destruct (head (times_of k (omap (lookup_of sp s) evs))) as [a|] eqn:Hh.
  - exists (MkAuditRow (Z.of_nat (length (hits_of sp s evs k))) a t). split; [|done]. apply row_hits. exists (t / Second), a. done.
  - destruct (times_of k _); [by rewrite last_nil in Ht|done].
Qed.

(** Rows of whole seconds are ordered by their seconds. *)
Definition whole (e : DNSAuditEntry) : Prop := exists n, ae_LastSeen e = n * Second /\ 0 <= n < max_seconds.

Lemma seen_after_whole a b : whole a -> whole b -> seen_after a b -> ae_LastSeen b / Second <= ae_LastSeen a / Second.
Proof.
  intros (n & Ha & Hn) (m & Hb & Hm). unfold seen_after. rewrite Ha, Hb, encodeTime_le, !Z.div_mul by done. done.
Qed.

Lemma StronglySorted_fmap_on {A B} (f : A -> B) (P : A -> Prop) (R : A -> A -> Prop) (S : B -> B -> Prop) l :
  (forall x y, P x -> P y -> R x y -> S (f x) (f y)) -> Forall P l -> StronglySorted R l -> StronglySorted S (f <$> l).
Proof.
  intros Hf. induction 1 as [|x l Hx Hl IH]; cbn; [constructor|]. intros [Hs Hall]%StronglySorted_inv. constructor; [auto|].
  apply Forall_fmap. apply Forall_forall. intros y Hy. apply Hf; [done| |].
  - by eapply Forall_forall in Hl.
  - by eapply Forall_forall in Hall.
Qed.

(** C29: the audit view shows what the resolver saw.  Whatever the interleaving of
    lookups and forwarding, however many there are, the forwarder sends a
    subsequence of the recorded lookups in order, never blocking the resolver, and
    loses none as long as fewer than 512 wait whenever one is recorded.  With the
    hub reached over an open connection and no earlier rows, every row the
    administrator is shown matches the filter, its hits are exactly the forwarded
    lookups of that box, domain (lowercased, without the root dot) and verdict the
    hub accepts from this spoke, and its time is the second of the last one; the
    rows are newest first; and a matching key is missing only when the limit is
    reached by rows that are at least as recent.  The hub's registry does not
    change meanwhile and no other spoke reports: what the hub accepts is decided by
    the registry at the start.  The lookups are of the years 1970 to 9999, whose
    stored texts sort by time. *)
Theorem audit_trail_is_exact : forall ops (l0 : Link (M:=M)) flt,
  lk_up l0 = true -> sv_audit (lk_hub l0) = ∅ -> Forall dated (recorded ops) ->
  let '(f, l, sent) := fw_run ops (newDNSAuditForwarder, l0, []) in
  let sp := lk_name l0 in
  let s := lk_hub l0 in
  let views := handleListDNSAudit flt (sv_audit (lk_hub l)) in
  sublist (sent ++ fw_events f) (recorded ops) /\
  (never_full ops -> sent ++ fw_events f = recorded ops) /\
  (forall v, v ∈ views ->
     av_Hits v = Z.of_nat (length (hits_of sp s sent (view_key v))) /\ last (hits_of sp s sent (view_key v)) = Some (av_LastSeen v) /\
     (af_BoxID flt = "" \/ av_BoxID v = af_BoxID flt) /\ (af_Verdict flt = "" \/ av_Verdict v = af_Verdict flt) /\
     (no_wildcard (af_Domain flt) -> Contains (ToLower (av_Domain v)) (ToLower (af_Domain flt)) = true)) /\
  StronglySorted (fun a b => av_LastSeen b <= av_LastSeen a) views /\ Z.of_nat (length views) <= audit_limit flt /\
  (forall b d v n, last (hits_of sp s sent (b, d, v)) = Some n -> selected flt (MkAuditEntry b d v 0 0 0) = true ->
     (exists view, view ∈ views /\ view_key view = (b, d, v)) \/
     (Z.of_nat (length views) = audit_limit flt /\ Forall (fun view => n <= av_LastSeen view) views)).
Proof.
  intros ops l0 flt Hup Hnone Hdated. pose proof (forwarder_order ops l0) as Hf.
  destruct (fw_run ops _) as [[f l] sent]. destruct Hf as (Hsub & _ & Hall & ->). intros sp s views.
  assert (Htab : sv_audit (lk_hub (foldl (fun l ev => forward ev l) l0 sent)) = record_lookups (omap (lookup_of sp s) sent) ∅)
    by (by rewrite (forwards_hub sent l0 Hup), Hnone).
  assert (Hsd : Forall dated sent).
  { apply Forall_forall. intros ev Hev. eapply Forall_forall; [exact Hdated|]. apply (sublist_subseteq _ _ Hsub). set_solver. }
  split; [done|]. split; [apply Hall|]. unfold views, handleListDNSAudit. rewrite Htab. set (t := record_lookups _ _).
  pose proof (ListDNSAudit_spec flt t) as (Hin & Hsort & Hlen & Hcompl). set (es := ListDNSAudit flt t) in *.
  assert (Hwhole : Forall whole es).
  { apply Forall_forall. intros e He. destruct (Hin e He) as [_ Hk]. by apply (rows_whole sp s sent) in Hk. }
  split_and!.
  - intros v (e & -> & He)%list_elem_of_fmap. destruct (Hin e He) as [Hsel Hk].
    apply row_hits in Hk as (n & first & Hh & Hl & _ & _ & _ & Hn). cbn in Hh, Hn. unfold view_key. cbn.
    unfold selected in Hsel. rewrite !andb_true_iff, !orb_true_iff, !String.eqb_eq in Hsel. destruct Hsel as [[Hb Hv] Hd].
    rewrite Hl, Hn. split_and!; [done|done|naive_solver|naive_solver|].
    intros Hw. destruct Hd as [->|Hd]; [by destruct (string_map lower_byte (ae_Domain e))|]. by rewrite like_contains in Hd.
  - apply (StronglySorted_fmap_on _ whole seen_after); [|done|done]. intros a b Ha Hb Hab. cbn. by apply seen_after_whole.
  - by rewrite length_fmap.
  - intros b d v n Hl Hsel. destruct (hits_row _ _ _ _ _ Hl) as (row & Hk & Hn). fold t in Hk.
    destruct (Hcompl _ _ Hk) as [Hel|[Hfull Hrec]]; [done| |].
    + left. eexists. split; [by apply list_elem_of_fmap_2|]. done.
    + right. rewrite length_fmap. split; [done|]. apply Forall_fmap, Forall_forall. intros e He. cbn.
      assert (Hwr : whole (entry_of (b, d, v, row))) by (by apply (rows_whole sp s sent) in Hk).
      rewrite <- Hn. change (au_last_seen row) with (ae_LastSeen (entry_of (b, d, v, row))). apply seen_after_whole; [|done|].
      * by eapply Forall_forall in Hwhole.
      * by eapply (proj1 (Forall_forall _ _)) in Hrec.
Qed.
End Trail.

(** Two lookups of "db" on "edge" and one of a box that is not there. *)
Module AuditDemo.
#[export] Existing Instance RegistryDemo.silent.
Definition event (box name : string) (v : Verdict) (t : Z) : Event := MkEvent box name 1 v [] t.
Definition ops : list fw_op :=
  [FwRecord (event "db" "GitHub.com." VerdictBlocked (5 * Second)); FwRecord (event "ghost" "x." VerdictBlocked (6 * Second)); FwTurn;
   FwRecord (event "db" "github.com." VerdictBlocked (7 * Second + 3)); FwTurn; FwTurn; FwTurn].
Definition filter_hub : DNSAuditFilter := MkAuditFilter "" "blocked" "HUB" 0.
End AuditDemo.

Lemma audit_trail_is_exact_witness : exists f l sent v,
  fw_run AuditDemo.ops (newDNSAuditForwarder, ApiDemo.link true, []) = (f, l, sent) /\
  handleListDNSAudit AuditDemo.filter_hub (sv_audit (lk_hub l)) = [v] /\ v = MkAuditView "db" "github.com" "blocked" 2 7 /\
  av_Hits v = Z.of_nat (length (hits_of "edge" RegistryDemo.srv sent (view_key v))).
Proof.
  pose proof (audit_trail_is_exact AuditDemo.ops (ApiDemo.link true) AuditDemo.filter_hub eq_refl eq_refl) as Htrail.
  destruct (fw_run AuditDemo.ops _) as [[f l] sent] eqn:Hrun. exists f, l, sent, (MkAuditView "db" "github.com" "blocked" 2 7).
  assert (Hv : handleListDNSAudit AuditDemo.filter_hub (sv_audit (lk_hub l)) = [MkAuditView "db" "github.com" "blocked" 2 7]).
  { apply (f_equal (fun x => handleListDNSAudit AuditDemo.filter_hub (sv_audit (lk_hub x.1.2)))) in Hrun.
    cbn [fst snd] in Hrun. rewrite <- Hrun. vm_compute. reflexivity. }
  split; [reflexivity|]. split; [exact Hv|]. split; [reflexivity|].
  destruct Htrail as (_ & _ & Hviews & _).
  { repeat constructor; vm_compute; congruence. }
  apply Hviews. rewrite Hv. left.
Defined.

(** ** Destroying a box keeps its rows *)

Section Outlives.
Context {M : Type} `{!BoxManager M}.
Implicit Types (s : Server M).

Lemma delete_slugs_audit l s : sv_audit (delete_slugs l s) = sv_audit s.
Proof. unfold delete_slugs. apply (foldl_keeps sv_audit). done. Qed.

Lemma deleteProxiesForBox_audit b s : sv_audit (deleteProxiesForBox b s) = sv_audit s.
Proof. unfold deleteProxiesForBox. destruct (_ || _); [done|]. apply delete_slugs_audit. Qed.

Lemma tear_down_audit s tb : sv_audit (tear_down s tb) = sv_audit s.
Proof. unfold tear_down, runDestroyHooks. rewrite deleteProxiesForBox_audit. destruct (sv_hooks s); [|done]. by case_decide. Qed.

Lemma forget_box_audit x s : sv_audit (forget_box x s) = sv_audit s.
Proof. unfold forget_box, drop_sessions. rewrite deleteProxiesForBox_audit, (foldl_keeps sv_audit _ _ _ tear_down_audit). done. Qed.

Lemma destroy_on_audit c x s : sv_audit (destroy_on c x s).1 = sv_audit s.
Proof.
  unfold destroy_on, rpc. destruct (sv_remotes s !! c) as [m|]; [|by destruct (IsNotFound _); cbn [fst]; rewrite ?forget_box_audit].
  destruct (bm_Destroy x m) as [m' [?|e]]; [|destruct (IsNotFound e)]; cbn [fst]; by rewrite ?forget_box_audit.
Qed.

(** The rows of a box are documented to be dropped when it is destroyed; no
    outcome of a destruction drops any, so a later box with the same id is shown
    with the lookups of the earlier one. *)
Theorem destroy_keeps_audit : forall order x s, sv_audit (destroyBox_in_order order x s).1 = sv_audit s.
Proof.
  intros order x s. unfold destroyBox_in_order.
  destruct (first_match _ order) as [sess|].
  - destruct (terminated sess); [apply forget_box_audit|]. destruct (spoke _ s); [apply destroy_on_audit|done].
  - destruct (spokeHostingBox x s); [apply destroy_on_audit|apply forget_box_audit].
Qed.
End Outlives.
