(* ===== verification/Ingress.v ===== *)
(** * The proxy front door (internal/hub/proxy.go, http.go, config/config.go)

    A request whose Host is [<slug>.<base domain>] is the proxy's; the rest goes
    to the hub's own routes.  Here: the host names of proxies ([proxyURL],
    [proxySlugFromHost], and the check of the configured base domain), and the
    decision [handleProxy] takes for a request: answered, sent to the sign-in
    page, or forwarded to a port of a box.  The script put into forwarded pages is
    in [Watcher]; the forwarding itself (the reverse proxy) is not modelled. *)

From S2P Require Import Prelude GoStrings Regex Sandbox Store Sha256 Enroll Auth Remote Registry.

Local Open Scope Z_scope.

(** ** net.SplitHostPort, net.JoinHostPort, url.QueryEscape *)

(** The parts before and after the first, and the last, occurrence of a byte. *)
Fixpoint split_first (c : ascii) (s : string) : option (string * string) :=
  match s with
  | "" => None
  | String d s' =>
      if Ascii.eqb d c then Some ("", s')
      else match split_first c s' with Some (a, b) => Some (String d a, b) | None => None end
  end.

Fixpoint split_last (c : ascii) (s : string) : option (string * string) :=
  match s with
  | "" => None
  | String d s' =>
      match split_last c s' with
      | Some (a, b) => Some (String d a, b)
      | None => if Ascii.eqb d c then Some ("", s') else None
      end
  end.

Definition SplitHostPort (hostport : string) : option (string * string) :=
  match split_last ":" hostport with
  | None => None
  | Some (before, port) =>
      match hostport with
      | String "[" rest =>
          match split_first "]" rest with
          | None => None
          | Some (host, after) =>
              if negb (Nat.eqb (String.length host + 2) (String.length before)) then None
              else if ContainsByte rest "[" || ContainsByte after "]" then None
              else Some (host, port)
          end
      | _ =>
          if ContainsByte before ":" then None
          else if ContainsByte hostport "[" || ContainsByte hostport "]" then None
          else Some (before, port)
      end
  end.

Definition JoinHostPort (host port : string) : string :=
  if ContainsByte host ":" then "[" +:+ host +:+ "]:" +:+ port else host +:+ ":" +:+ port.

Example SplitHostPort_plain : SplitHostPort "a.b:80" = Some ("a.b", "80").
Proof. reflexivity. Qed.
Example SplitHostPort_v6 : SplitHostPort "[::1]:80" = Some ("::1", "80").
Proof. reflexivity. Qed.
Example SplitHostPort_bad : SplitHostPort "a:b:80" = None /\ SplitHostPort "[::1]" = None /\ SplitHostPort "a.b" = None.
Proof. done. Qed.

Definition upper_hex (d : Z) : ascii := ascii_of_nat (Z.to_nat (if d <? 10 then 48 + d else 55 + d)).

Definition unreserved (c : ascii) : bool :=
  is_lower c || is_upper c || is_digit c || Ascii.eqb c "-" || Ascii.eqb c "_" || Ascii.eqb c "." || Ascii.eqb c "~".

Fixpoint QueryEscape (s : string) : string :=
  match s with
  | "" => ""
  | String c s' =>
      if unreserved c then String c (QueryEscape s')
      else if Ascii.eqb c " " then String "+" (QueryEscape s')
      else
        let n := Z.of_nat (nat_of_ascii c) in
        String "%" (String (upper_hex (n / 16)) (String (upper_hex (n mod 16)) (QueryEscape s')))
  end.

(** ** Configuration *)

(** [validateBareDomain]: is the value a bare domain? *)
Definition validateBareDomain (v : string) : bool :=
  negb (ContainsByte v " " || ContainsByte v "009" || ContainsByte v "013" || ContainsByte v "010")
  && negb (Contains v "://") && negb (ContainsByte v "/") && negb (ContainsByte v "*")
  && negb (ContainsByte v ":") && negb (HasPrefix v "." || HasSuffix v ".").

Definition domainCovers (parent host : string) : bool :=
  let parent := ToLower parent in
  let host := ToLower host in
  String.eqb host parent || HasSuffix host ("." +:+ parent).

(** ** Host names *)

(** What the handlers read of the server besides the registry: the public URL,
    and [url.Parse(publicURL).Port()], "" when it has none. *)
Record Public := MkPublic { pb_URL : string; pb_Port : string }.

Definition scheme (pb : Public) : string := if HasPrefix (pb_URL pb) "http://" then "http" else "https".

Definition proxy_host (pb : Public) (domain slug : string) : string :=
  let host := slug +:+ "." +:+ domain in
  if String.eqb (pb_Port pb) "" then host else JoinHostPort host (pb_Port pb).

Definition proxyURL (pb : Public) (domain slug : string) : string :=
  if String.eqb domain "" then ""
  else scheme pb +:+ "://" +:+ proxy_host pb domain slug +:+ "/".

Definition proxySlugFromHost (domain host : string) : option string :=
  if String.eqb domain "" then None
  else
    let host := match SplitHostPort host with Some (h, _) => h | None => host end in
    let host := ToLower (TrimSuffix host ".") in
    let suffix := "." +:+ ToLower domain in
    if negb (HasSuffix host suffix) then None
    else
      let label := TrimSuffix host suffix in
      if String.eqb label "" || ContainsByte label "." then None else Some label.

(** ** Requests *)

Record ProxyRequest := MkProxyRequest {
  px_Method : string;
  px_Host : string;
  px_Path : string;
  px_URI : string;
  px_Upgrade : string;
  px_Accept : string;
  px_Cookie : option string;
}.

Definition proxyAuthCheckPath : string := "/.llmbox/proxy-auth-check".

Definition isBrowserNavigation (r : ProxyRequest) : bool :=
  if negb (String.eqb (px_Method r) "GET") then false
  else if EqualFold (px_Upgrade r) "websocket" then false
  else Contains (px_Accept r) "text/html".

Definition signInURL (pb : Public) (r : ProxyRequest) : string :=
  pb_URL pb +:+ "/signin?return=" +:+ QueryEscape (scheme pb +:+ "://" +:+ px_Host r +:+ px_URI r).

(** [None] when the request may proceed, or the status to answer. *)
Definition proxyAuthorized (auth : option Authenticator) (db : IdentityDB) (now : Z) (r : ProxyRequest) : option Z :=
  match auth with
  | None => None
  | Some _ =>
      match CurrentLogin (px_Cookie r) now db with
      | None => Some 401
      | Some ls => if negb (is_CanAdmin ls) then Some 403 else None
      end
  end.

Inductive outcome :=
| PxStatus (code : Z)
| PxRedirect (url : string)
| PxForward (conn : nat) (boxID : string) (port : Z) (watched : bool).

Lemma CurrentLogin_Some cookie now db ls : CurrentLogin cookie now db = Some ls ->
  exists v, cookie = Some v /\ id_sessions db !! sha256_hex v = Some ls /\ now <= is_ExpiresAt ls.
Proof.
  unfold CurrentLogin, GetIdentitySession. destruct cookie as [v|]; [|done].
  destruct (id_sessions db !! sha256_hex v) as [ls'|] eqn:Hls; [|done].
  destruct (After now (is_ExpiresAt ls')) eqn:Ha; [done|]. intros [= ->]. exists v. unfold After in Ha. bools. done.
Qed.

Section HandleProxy.
Context {M : Type}.
Implicit Types (s : Server M).

(** [readable]: can the store read the proxy record?  [dials c]: does the manager
    behind a connection implement [DialBox]? *)
Definition handleProxy (pb : Public) (auth : option Authenticator) (readable : bool) (dials : nat -> bool) (db : IdentityDB)
    (now : Z) (r : ProxyRequest) (slug : string) s : outcome :=
  if negb readable then PxStatus 500
  else match GetProxy slug (sv_proxies s) with
  | None => PxStatus 404
  | Some rec =>
      if String.eqb (px_Path r) proxyAuthCheckPath then
        PxStatus (match proxyAuthorized auth db now r with None => 204 | Some _ => 401 end)
      else
        match proxyAuthorized auth db now r with
        | Some code =>
            if (code =? 401) && bool_decide (is_Some auth) && isBrowserNavigation r
            then PxRedirect (signInURL pb r) else PxStatus code
        | None =>
            match spoke (pr_Spoke rec) s with
            | Err _ => PxStatus 502
            | Ok c =>
                if negb (dials c) then PxStatus 502
                else PxForward c (pr_BoxID rec) (pr_Port rec) (bool_decide (is_Some auth) && isBrowserNavigation r)
            end
        end
  end.

(** The dispatch by host in [APIHandler]; [None] is the hub's own routes. *)
Definition route (pb : Public) (auth : option Authenticator) (readable : bool) (dials : nat -> bool) (db : IdentityDB)
    (now : Z) (r : ProxyRequest) s : option outcome :=
  if negb (ProxyEnabled s) then None
  else
    match proxySlugFromHost (sv_proxyBaseDomain s) (px_Host r) with
    | Some slug => Some (handleProxy pb auth readable dials db now r slug s)
    | None => None
    end.

(** C33: with sign-in configured, a proxied box is reached by administrators
    only. A request is forwarded only if its Host names a stored proxy, its
    cookie is that of an unexpired session with the admin right, and then to
    that proxy's box and port over the live connection of its spoke.  A redirect
    answers only a GET without a session that asks for an HTML document and is no
    WebSocket handshake, and goes to the page [/signin] below the public URL, with
    the address asked for, escaped, as its return target.  The session-check path
    is never forwarded and says yes to an administrator's session alone. *)
Theorem proxy_serves_admins_only : forall pb a readable dials db now r s o,
  route pb (Some a) readable dials db now r s = Some o ->
  match o with
  | PxForward c box port _ =>
      exists slug rec ls v, proxySlugFromHost (sv_proxyBaseDomain s) (px_Host r) = Some slug /\
        sv_proxies s !! slug = Some rec /\ pr_BoxID rec = box /\ pr_Port rec = port /\
        spoke (pr_Spoke rec) s = Ok c /\
        px_Cookie r = Some v /\ id_sessions db !! sha256_hex v = Some ls /\
        now <= is_ExpiresAt ls /\ is_CanAdmin ls = true /\ px_Path r <> proxyAuthCheckPath
  | PxRedirect url =>
      CurrentLogin (px_Cookie r) now db = None /\ px_Method r = "GET" /\ ToLower (px_Upgrade r) <> "websocket" /\
      Contains (px_Accept r) "text/html" = true /\ px_Path r <> proxyAuthCheckPath /\
      url = pb_URL pb +:+ "/signin?return=" +:+
              QueryEscape ((if HasPrefix (pb_URL pb) "http://" then "http" else "https") +:+ "://" +:+ px_Host r +:+ px_URI r)
  | PxStatus code =>
      code ∈ [204; 401; 403; 404; 500; 502] /\
      (code = 204 -> px_Path r = "/.llmbox/proxy-auth-check" /\
         exists ls v, px_Cookie r = Some v /\ id_sessions db !! sha256_hex v = Some ls /\ now <= is_ExpiresAt ls /\ is_CanAdmin ls = true)
  end.
Proof.
  intros pb a readable dials db now r s o. unfold route. destruct (negb (ProxyEnabled s)); [done|].
  destruct (proxySlugFromHost _ _) as [slug|] eqn:Hslug; [|done]. intros [= <-].
  assert (Hst : forall code, code <> 204 -> code ∈ [401; 403; 404; 500; 502] ->
    code ∈ [204; 401; 403; 404; 500; 502] /\ (code = 204 -> px_Path r = "/.llmbox/proxy-auth-check" /\
      exists ls v, px_Cookie r = Some v /\ id_sessions db !! sha256_hex v = Some ls /\ now <= is_ExpiresAt ls /\ is_CanAdmin ls = true))
    by (intros code Hne Hin; split; [set_solver|done]).
  unfold handleProxy. destruct readable; cbn [negb]; [|by apply Hst; [|set_solver]].
  destruct (GetProxy slug (sv_proxies s)) as [rec|] eqn:Hrec; [|by apply Hst; [|set_solver]].
  unfold proxyAuthorized. destruct (CurrentLogin (px_Cookie r) now db) as [ls|] eqn:Hl.
  - apply CurrentLogin_Some in Hl as (v & Hv & Hls & Hexp).
    destruct (String.eqb_spec (px_Path r) proxyAuthCheckPath) as [Hpath|Hpath].
    + destruct (is_CanAdmin ls) eqn:Hadm; simpl; [|by apply Hst; [|set_solver]]. split; [set_solver|]. intros _. split; [done|]. by exists ls, v.
    + destruct (is_CanAdmin ls) eqn:Hadm; simpl; [|by apply Hst; [|set_solver]].
      destruct (spoke (pr_Spoke rec) s) as [c|] eqn:Hc; [|by apply Hst; [|set_solver]].
      destruct (dials c); simpl; [|by apply Hst; [|set_solver]]. by exists slug, rec, ls, v.
  - destruct (String.eqb_spec (px_Path r) proxyAuthCheckPath) as [Hpath|Hpath]; [by apply Hst; [|set_solver]|].
    simpl. destruct (isBrowserNavigation r) eqn:Hn; [|by apply Hst; [|set_solver]].
    unfold isBrowserNavigation in Hn. destruct (String.eqb_spec (px_Method r) "GET"); [|done]. cbn [negb] in Hn.
    destruct (EqualFold (px_Upgrade r) "websocket") eqn:Hw; [done|].
    split_and!; try done. intros Hw'. unfold EqualFold in Hw. by rewrite Hw' in Hw.
Qed.

End HandleProxy.

(** ** Host names: theorems *)

Lemma split_last_None s c : ContainsByte s c = false -> split_last c s = None.
Proof.
  induction s as [|d s IH]; cbn [ContainsByte split_last]; [done|]. intros Hc.
  apply orb_false_iff in Hc as [Hd Hs]. rewrite IH by done. by rewrite Ascii.eqb_sym, Hd.
Qed.

Lemma split_last_app s c t : ContainsByte t c = false -> split_last c (s +:+ String c t) = Some (s, t).
Proof.
  intros Ht. induction s as [|d s IH].
  - change ("" +:+ String c t) with (String c t). cbn [split_last].
    rewrite split_last_None by done. by rewrite Ascii.eqb_refl.
  - rewrite sapp_cons. cbn [split_last]. by rewrite IH.
Qed.

(** No byte of the host or the port means anything to the parser. *)
Definition plain (s : string) : Prop :=
  ContainsByte s ":" = false /\ ContainsByte s "[" = false /\ ContainsByte s "]" = false.

Lemma plain_app s t : plain s -> plain t -> plain (s +:+ t).
Proof. unfold plain. rewrite !ContainsByte_app. intros (-> & -> & ->) (-> & -> & ->). done. Qed.

Lemma plain_no_bracket s : plain s -> forall r, s <> String "[" r.
Proof. intros (_ & Hb & _) r ->. cbn [ContainsByte] in Hb. by rewrite Ascii.eqb_refl in Hb. Qed.

Lemma SplitHostPort_portless host : plain host -> SplitHostPort host = None.
Proof. intros (Hc & _). unfold SplitHostPort. by rewrite split_last_None. Qed.

Lemma SplitHostPort_join host port :
  host <> "" -> plain host -> plain port -> SplitHostPort (JoinHostPort host port) = Some (host, port).
Proof.
  intros Hne Hh Hp. unfold JoinHostPort. destruct Hh as (Hc & Hb1 & Hb2). rewrite Hc.
  change (":" +:+ port) with (String ":" port). unfold SplitHostPort.
  rewrite split_last_app by apply Hp. rewrite Hc, !ContainsByte_app, Hb1, Hb2.
  cbn [ContainsByte]. destruct Hp as (_ & -> & ->). cbn [Ascii.eqb orb Bool.eqb].
  destruct host as [|d host]; [done|]. rewrite sapp_cons.
  destruct d as [[] [] [] [] [] [] [] []]; try done.
Qed.

Lemma HasSuffix_app_dot s t : t <> "" -> HasSuffix t "." = false -> HasSuffix (s +:+ t) "." = false.
Proof.
  intros Hne Ht. apply not_true_iff_false. intros [q Hq]%HasSuffix_spec.
  apply not_true_iff_false in Ht. apply Ht, HasSuffix_spec. clear Ht.
  revert q Hq. induction s as [|d s IH]; intros q Hq; [by exists q|].
  rewrite sapp_cons in Hq. destruct q as [|e q].
  - exfalso. change ("" +:+ ".") with (String "." "") in Hq. injection Hq as _ Hq. by destruct s, t.
  - rewrite sapp_cons in Hq. injection Hq as _ Hq. by apply (IH q).
Qed.

Lemma proxySlugFromHost_spec domain slug :
  domain <> "" -> HasSuffix domain "." = false -> plain domain ->
  slug <> "" -> ToLower slug = slug -> ContainsByte slug "." = false -> plain slug ->
  forall host, (host = slug +:+ "." +:+ domain \/
                exists port, plain port /\ host = JoinHostPort (slug +:+ "." +:+ domain) port) ->
  proxySlugFromHost domain host = Some slug.
Proof.
  intros Hd Hdot Hpd Hs Hlow Hsdot Hps host Hhost. unfold proxySlugFromHost.
  destruct (String.eqb_spec domain ""); [done|].
  set (h := slug +:+ "." +:+ domain) in *.
  assert (Hph : plain h) by (apply plain_app; [done|]; by apply (plain_app ".")).
  assert (Hsplit : match SplitHostPort host with Some (h', _) => h' | None => host end = h).
  { destruct Hhost as [->|(port & Hport & ->)].
    - by rewrite SplitHostPort_portless.
    - rewrite SplitHostPort_join; [done| |done|done]. unfold h. by destruct slug. }
  rewrite Hsplit, TrimSuffix_other.
  2:{ unfold h. rewrite <- sapp_assoc. by apply HasSuffix_app_dot. }
  unfold h. rewrite !ToLower_app, Hlow. change (ToLower ".") with ".".
  rewrite (proj2 (HasSuffix_spec _ _)) by eauto. cbn [negb].
  rewrite TrimSuffix_suffix, Hsdot. by destruct slug.
Qed.

(** The bytes of a slug are lower-case hexadecimal digits. *)
Lemma hex_digit_ok d : 0 <= d < 16 ->
  lower_byte (hex_digit d) = hex_digit d /\ Ascii.eqb "." (hex_digit d) = false /\
  Ascii.eqb ":" (hex_digit d) = false /\ Ascii.eqb "[" (hex_digit d) = false /\ Ascii.eqb "]" (hex_digit d) = false.
Proof.
  intros Hd. assert (Hin : d ∈ seqZ 0 16) by (apply elem_of_seqZ; lia). clear Hd.
  revert d Hin. apply Forall_forall. vm_compute. repeat constructor.
Qed.

Lemma hex_encode_ok l :
  Forall (fun b => 0 <= b < 256) l ->
  ToLower (hex_encode l) = hex_encode l /\ ContainsByte (hex_encode l) "." = false /\ plain (hex_encode l).
Proof.
  induction 1 as [|b l Hb _ (IH1 & IH2 & IH3 & IH4 & IH5)]; [done|].
  destruct (hex_digit_ok (b / 16)) as (A1 & A2 & A3 & A4 & A5).
  { split; [apply Z.div_pos; lia|apply Z.div_lt_upper_bound; lia]. }
  destruct (hex_digit_ok (b mod 16)) as (B1 & B2 & B3 & B4 & B5); [apply Z.mod_pos_bound; lia|].
  unfold plain. cbn [hex_encode ContainsByte]. rewrite !ToLower_cons, A1, B1, IH1.
  rewrite A2, A3, A4, A5, B2, B3, B4, B5, IH2, IH3, IH4, IH5. done.
Qed.

(** C34: an advertised proxy URL leads to its proxy. For a base domain the
    configuration accepts, the host of the URL handed out for a freshly drawn
    slug, with the port of the public URL when it has one, is recognised as a
    proxy host with exactly that slug; the port is the digits of a URL's port,
    and the domain has no IPv6 brackets. *)
Theorem proxy_url_routes_back : forall pb domain b slug,
  validateBareDomain domain = true -> domain <> "" ->
  ContainsByte domain "[" = false -> ContainsByte domain "]" = false ->
  plain (pb_Port pb) -> b <> [] -> Forall (fun x => 0 <= x < 256) b ->
  newProxySlug (Some b) = Some slug ->
  proxyURL pb domain slug = scheme pb +:+ "://" +:+ proxy_host pb domain slug +:+ "/" /\
  proxySlugFromHost domain (proxy_host pb domain slug) = Some slug.
Proof.
  intros pb domain b slug Hv Hne Hb1 Hb2 Hport Hb Hbytes [= <-].
  destruct (hex_encode_ok b Hbytes) as (Hlow & Hdot & Hplain).
  unfold validateBareDomain in Hv. bools.
  split.
  - unfold proxyURL. by destruct (String.eqb_spec domain "").
  - apply (proxySlugFromHost_spec domain (hex_encode b)); try done.
    + by destruct b.
    + unfold proxy_host. destruct (String.eqb (pb_Port pb) ""); eauto.
Qed.

Lemma proxy_url_routes_back_witness :
  proxySlugFromHost "Proxy.example.com" (proxy_host (MkPublic "https://hub:8443" "8443") "Proxy.example.com" "0aff") =
  Some "0aff".
Proof.
  apply (proxy_url_routes_back (MkPublic "https://hub:8443" "8443") "Proxy.example.com" [10; 255] "0aff").
  - reflexivity.
  - done.
  - reflexivity.
  - reflexivity.
  - done.
  - done.
  - repeat constructor; lia.
  - reflexivity.
Defined.

Module IngressDemo.

Definition rec : ProxyRecord := MkProxyRecord "0aff" "web" "g" 80 "edge" 0 "" "".
Definition srv : Server () :=
  MkServer (MkHubServer emptyClusterDB ∅ (Some (MkHub {["edge" := 0%nat]} ∅))) ∅ ∅ ∅ ∅ {["0aff" := rec]} ∅
    "proxy.example" None [].
Definition req : ProxyRequest :=
  MkProxyRequest "GET" "0aff.proxy.example" "/" "/" "" "text/html" (Some "cookie").
Definition db : IdentityDB :=
  MkIdentityDB {[sha256_hex "cookie" := MkIdentitySession "a@b" "google" "csrf" 100 true]} ∅.
Definition auth : Authenticator := MkAuthenticator {["google"]} 100 {["a@b"]} "".

End IngressDemo.

Lemma proxy_serves_admins_only_witness :
  route (MkPublic "https://hub" "") (Some IngressDemo.auth) true (fun _ => true) IngressDemo.db 5 IngressDemo.req
    IngressDemo.srv = Some (PxForward 0 "web" 80 true) /\
  exists rec, sv_proxies IngressDemo.srv !! "0aff" = Some rec /\ pr_BoxID rec = "web".
Proof.
  assert (H : route (MkPublic "https://hub" "") (Some IngressDemo.auth) true (fun _ => true) IngressDemo.db 5 IngressDemo.req
    IngressDemo.srv = Some (PxForward 0 "web" 80 true)) by (vm_compute; reflexivity).
  split; [exact H|]. destruct (proxy_serves_admins_only _ _ _ _ _ _ _ _ _ H) as (slug & rec & ls & v & Hs & Hr & Hb & _).
  exists rec. assert (slug = "0aff") as -> by (vm_compute in Hs; congruence). split; [exact Hr|exact Hb].
Defined.
