(* ===== verification/Upstream.v ===== *)
(** * The edges of the resolver (internal/spoke/dnsd, internal/spoke/spoke.go)

    The upstream address from the command line, the forwarding of allowed queries,
    the client's address from the transport, and the start of the isolation.  The
    text of IP addresses ([net/netip]) is an interface with laws; the DNS exchange
    and the listeners are arguments. *)

From S2P Require Import Prelude GoStrings Sandbox Dnsd Ingress.

Local Open Scope Z_scope.
Local Open Scope go_scope.

(** [netip.ParseAddr], [Addr.String] and [netip.ParseAddrPort]: addresses are
    written without brackets, slashes and spaces, and read back. *)
Class AddrText := {
  ParseAddr : string -> option Addr;
  AddrString : Addr -> string;
  ParseAddrPort : string -> option (Addr * Z);
  ParseAddr_plain s a : ParseAddr s = Some a -> ContainsByte s "[" = false /\ ContainsByte s "]" = false;
  AddrString_plain s a : ParseAddr s = Some a ->
    AddrString a <> "" /\ ContainsByte (AddrString a) "[" = false /\ ContainsByte (AddrString a) "]" = false /\
    ContainsByte (AddrString a) "/" = false /\ Forall (fun c => is_space c = false) (String.list_ascii_of_string (AddrString a));
}.

Section Edges.
Context `{AddrText}.

Definition defaultDNSPort : string := "53".

Definition validPort (p : string) : bool :=
  match Atoi p with Some n => (1 <=? n) && (n <=? 65535) | None => false end.

Definition NormalizeUpstream (raw : string) : res string string :=
  let s := TrimSpace raw in
  if String.eqb s "" then Err "dns upstream is empty"
  else if ContainsByte s "/" || ContainsByte s " " then Err ("invalid dns upstream " +:+ raw)
  else
    match SplitHostPort s with
    | Some (host, port) =>
        if String.eqb host "" || negb (validPort port) then Err ("invalid dns upstream " +:+ raw) else Ok s
    | None =>
        match ParseAddr s with
        | Some ip => Ok (JoinHostPort (AddrString ip) defaultDNSPort)
        | None => Ok (JoinHostPort s defaultDNSPort)
        end
    end.

(** ** Forwarding *)

(** [Resolve]: [exchange] is an exchange over a transport with the upstream. *)
Definition Resolve (exchange : string -> string -> Msg -> res string Msg) (Truncated : Msg -> bool) (upstream : string) (q : Msg) : res string Msg :=
  match exchange "udp" upstream q with
  | Err e => Err e
  | Ok resp =>
      if Truncated resp then
        match exchange "tcp" upstream q with Ok tcpResp => Ok tcpResp | Err _ => Ok resp end
      else Ok resp
  end.

(** ** The client's address *)

(** A transport address; the text of the IP of the two usual kinds, or the whole. *)
Inductive netAddr := UDPAddr (ip : string) | TCPAddr (ip : string) | OtherAddr (s : string).

Definition clientAddr (addr : netAddr) : Addr :=
  let ipStr := match addr with
               | UDPAddr ip | TCPAddr ip => Some ip
               | OtherAddr s => fst <$> SplitHostPort s
               end in
  match ipStr with
  | None => AddrZero
  | Some t => match ParseAddr t with Some ip => Unmap ip | None => AddrZero end
  end.

(** ** Starting the isolation *)

Record isolationConfig := MkIsolationConfig { ic_ListenAddr : string; ic_DNSAddr : Addr; ic_Upstream : string }.

(** [buildIsolation]; [start] is the outcome of building and starting the enforcer. *)
Definition buildIsolation (networkIsolation : bool) (dnsListen dnsUpstream : string) (start : isolationConfig -> option string) :
    res string (option isolationConfig) :=
  if negb networkIsolation then Ok None
  else
    match ParseAddrPort dnsListen with
    | None => Err ("--dns-listen " +:+ dnsListen)
    | Some (ip, _) =>
        match NormalizeUpstream dnsUpstream with
        | Err e => Err ("--dns-upstream: " +:+ e)
        | Ok upstream =>
            let cfg := MkIsolationConfig dnsListen ip upstream in
            match start cfg with Some e => Err e | None => Ok (Some cfg) end
        end
    end.

(** ** Theorems *)

Lemma atoi_digits_plain s : forall acc n, atoi_digits s acc = Some n -> plain s /\ ContainsByte s "/" = false /\ ContainsByte s " " = false.
Proof.
  induction s as [|c s IH]; intros acc n; cbn [atoi_digits]; [done|]. destruct (is_digit c) eqn:Hd; [|done].
  intros (( H1 & H2 & H3) & H4 & H5)%IH. unfold plain. cbn [ContainsByte]. rewrite H1, H2, H3, H4, H5.
  destruct c as [[] [] [] [] [] [] [] []]; try discriminate Hd; done.
Qed.

Lemma validPort_plain p : validPort p = true -> p <> "" /\ plain p /\ ContainsByte p "/" = false /\ ContainsByte p " " = false.
Proof.
  unfold validPort, Atoi. destruct p as [|c p]; [done|]. intros Hv. split; [done|].
  destruct (Ascii.eqb_spec c "-") as [->|Hm]; [|destruct (Ascii.eqb_spec c "+") as [->|Hp]].
  - destruct (String.eqb p ""); [done|]. destruct (atoi_digits p 0) as [n|] eqn:Ha; [|done]. by apply atoi_digits_plain in Ha.
  - destruct (String.eqb p ""); [done|]. destruct (atoi_digits p 0) as [n|] eqn:Ha; [|done]. by apply atoi_digits_plain in Ha.
  - cbn [String.eqb] in Hv. destruct (atoi_digits (String c p) 0) as [n|] eqn:Ha; [|done]. by apply atoi_digits_plain in Ha.
Qed.

Lemma split_first_app a c b : ContainsByte a c = false -> split_first c (a +:+ String c b) = Some (a, b).
Proof.
  induction a as [|d a IH]; [intros _; change ("" +:+ String c b) with (String c b); cbn [split_first]; by rewrite Ascii.eqb_refl|]. cbn [ContainsByte]. intros [Hd Ha]%orb_false_iff.
  rewrite sapp_cons. cbn [split_first]. rewrite Ascii.eqb_sym, Hd. by rewrite IH.
Qed.

(** A host without brackets and a plain port are found again, IPv6 hosts included. *)
Lemma SplitHostPort_JoinHostPort host port :
  host <> "" -> ContainsByte host "[" = false -> ContainsByte host "]" = false -> plain port ->
  SplitHostPort (JoinHostPort host port) = Some (host, port).
Proof.
  intros Hne Hb1 Hb2 Hp. destruct (ContainsByte host ":") eqn:Hc; [|by apply SplitHostPort_join].
  unfold JoinHostPort. rewrite Hc. destruct Hp as (Hp1 & Hp2 & Hp3). unfold SplitHostPort.
  replace ("[" +:+ host +:+ "]:" +:+ port) with (("[" +:+ host +:+ "]") +:+ String ":" port) by (rewrite !sapp_assoc; reflexivity).
  rewrite split_last_app by done. rewrite sapp_assoc. change ("[" +:+ (host +:+ "]") +:+ String ":" port) with (String "[" ((host +:+ "]") +:+ String ":" port)).
  cbv iota. rewrite sapp_assoc. change ("]" +:+ String ":" port) with (String "]" (String ":" port)). rewrite split_first_app by done.
  rewrite slength_app. change (String.length "[") with 1%nat. rewrite slength_app. change (String.length "]") with 1%nat.
  replace (Nat.eqb (String.length host + 2) (1 + (String.length host + 1))) with true by (symmetry; apply Nat.eqb_eq; lia).
  rewrite ContainsByte_app, Hb1. cbn [ContainsByte negb]. rewrite Hp2, Hp3. done.
Qed.

(** An accepted upstream is a host and a port that can be dialled, if it was given
    with a port or without brackets; a port that was given is kept. *)
Theorem NormalizeUpstream_dialable : forall raw s,
  NormalizeUpstream raw = Ok s ->
  (is_Some (SplitHostPort (TrimSpace raw)) \/ (ContainsByte (TrimSpace raw) "[" = false /\ ContainsByte (TrimSpace raw) "]" = false)) ->
  exists host port, SplitHostPort s = Some (host, port) /\ host <> "" /\ validPort port = true /\
    (forall h p, SplitHostPort (TrimSpace raw) = Some (h, p) -> h = host /\ p = port).
Proof.
  intros raw s. unfold NormalizeUpstream. set (t := TrimSpace raw). destruct (String.eqb_spec t "") as [|Hne]; [done|].
  destruct (_ || _); [done|]. destruct (SplitHostPort t) as [[host port]|] eqn:Hs.
  - destruct (String.eqb_spec host "") as [|Hh]; [done|]. destruct (validPort port) eqn:Hp; [|done]. intros [= <-] _.
    exists host, port. split_and!; try done. naive_solver.
  - intros Hok [[? ?]|[Hb1 Hb2]]; [done|].
    assert (Hport : plain defaultDNSPort) by done.
    destruct (ParseAddr t) as [ip|] eqn:Hp; injection Hok as <-.
    + destruct (AddrString_plain _ _ Hp) as (Hn & H1 & H2 & _). exists (AddrString ip), defaultDNSPort.
      split; [by apply SplitHostPort_JoinHostPort|]. split_and!; done.
    + exists t, defaultDNSPort. split; [by apply SplitHostPort_JoinHostPort|]. split_and!; done.
Qed.

(** A bracketed address without a port is accepted although no dial can succeed. *)
Theorem NormalizeUpstream_accepts_malformed :
  NormalizeUpstream "[::1]" = Ok "[[::1]]:53" /\ SplitHostPort "[[::1]]:53" = None.
Proof.
  split; [|reflexivity]. unfold NormalizeUpstream. change (TrimSpace "[::1]") with "[::1]".
  change (SplitHostPort "[::1]") with (@None (string * string)). cbn [String.eqb Ascii.eqb ContainsByte orb].
  destruct (ParseAddr "[::1]") as [a|] eqn:Hp; [|reflexivity]. apply ParseAddr_plain in Hp as [Hb _]. discriminate Hb.
Qed.

(** A truncated answer never replaces a complete one, and a failing TCP retry still
    leaves the truncated one. *)
Theorem Resolve_answers : forall exchange Truncated upstream q r,
  Resolve exchange Truncated upstream q = Ok r ->
  exchange "udp" upstream q = Ok r /\ (Truncated r = true -> ~ exists r', exchange "tcp" upstream q = Ok r') \/
  (exists u, exchange "udp" upstream q = Ok u /\ Truncated u = true) /\ exchange "tcp" upstream q = Ok r.
Proof.
  intros exchange Truncated upstream q r. unfold Resolve. destruct (exchange "udp" upstream q) as [u|]; [|done].
  destruct (Truncated u) eqn:Ht; [|intros [= <-]; left; split; [done|congruence]].
  destruct (exchange "tcp" upstream q) as [v|]; intros [= <-]; [right; eauto|]. left. split; [done|]. intros _ [r' Hr']. done.
Qed.

(** Isolation that was asked for and reported started runs with a resolver that can
    be dialled; it is off only when it was not asked for. *)
Theorem buildIsolation_spec : forall on listen upstream start r,
  buildIsolation on listen upstream start = Ok r ->
  (on = false <-> r = None) /\
  (forall cfg, r = Some cfg -> ic_ListenAddr cfg = listen /\ start cfg = None /\ NormalizeUpstream upstream = Ok (ic_Upstream cfg) /\
     fst <$> ParseAddrPort listen = Some (ic_DNSAddr cfg)).
Proof.
  intros [] listen upstream start r; unfold buildIsolation; cbn [negb]; [|intros [= <-]; done].
  destruct (ParseAddrPort listen) as [[ip p]|]; [|done]. destruct (NormalizeUpstream upstream) as [u|]; [|done].
  destruct (start _) eqn:Hs; [done|]. intros [= <-]. split; [done|]. intros cfg [= <-]. done.
Qed.

End Edges.
