(* ===== verification/Pipes.v ===== *)
(** * Raw byte pipes (internal/guest/guest.go, internal/hub/terminal.go,
      internal/spoke/firecracker/vsock.go, internal/spoke/cloudhypervisor/vsock.go)

    [splice] (and [spliceConn], its copy in the hub) relays bytes between two
    connections with one goroutine per direction; [dialVsock] (the same code in both
    micro-VM backends) reads the hypervisor's reply through a buffered reader that
    becomes the connection. *)

From S2P Require Import Prelude GoStrings Ingress.

Local Open Scope Z_scope.

(** ** Splicing two connections *)

(** A connection as the relay sees it: what its peer sent and was not read yet,
    whether the peer has finished sending, whether it still takes bytes, what it was
    given, and whether the relay closed it.  [cn_sent] is all the peer ever sent. *)
Record conn := MkConn {
  cn_in : string; cn_eof : bool; cn_broken : bool; cn_out : string; cn_closed : bool; cn_sent : string }.

(** A goroutine [cp(dst, src)]: inside [io.Copy], about to close the one and then the
    other, finished. *)
Inductive copier := CpRead | CpWrite (buf : string) | CpCloseDst | CpCloseSrc | CpDone.

Definition copy_buffer : Z := 32 * 1024.

Definition close (c : conn) : conn := MkConn (cn_in c) (cn_eof c) (cn_broken c) (cn_out c) true (cn_sent c).
Definition take_in (rest : string) (c : conn) : conn := MkConn rest (cn_eof c) (cn_broken c) (cn_out c) (cn_closed c) (cn_sent c).
Definition give (s : string) (c : conn) : conn := MkConn (cn_in c) (cn_eof c) (cn_broken c) (cn_out c +:+ s) (cn_closed c) (cn_sent c).

(** One step of the goroutine from [src] to [dst]. *)
Inductive cp_step : conn * conn * copier -> conn * conn * copier -> Prop :=
| CpGot src dst chunk rest : cn_closed src = false -> cn_in src = chunk +:+ rest -> chunk <> "" ->
    Z.of_nat (String.length chunk) <= copy_buffer ->
    cp_step (src, dst, CpRead) (take_in rest src, dst, CpWrite chunk)
| CpEnd src dst : cn_closed src = true \/ (cn_in src = "" /\ cn_eof src = true) ->
    cp_step (src, dst, CpRead) (src, dst, CpCloseDst)
| CpPut src dst buf : cn_closed dst = false -> cn_broken dst = false ->
    cp_step (src, dst, CpWrite buf) (src, give buf dst, CpRead)
| CpFail src dst p q : (cn_closed dst = true /\ p = "") \/ cn_broken dst = true ->
    cp_step (src, dst, CpWrite (p +:+ q)) (src, give p dst, CpCloseDst)
| CpShut src dst : cp_step (src, dst, CpCloseDst) (src, close dst, CpCloseSrc)
| CpShutSrc src dst : cp_step (src, dst, CpCloseSrc) (close src, dst, CpDone).

(** What the peer of a connection does meanwhile. *)
Inductive peer_step : conn -> conn -> Prop :=
| PeerSends c s : cn_eof c = false -> peer_step c (MkConn (cn_in c +:+ s) false (cn_broken c) (cn_out c) (cn_closed c) (cn_sent c +:+ s))
| PeerEnds c : peer_step c (MkConn (cn_in c) true (cn_broken c) (cn_out c) (cn_closed c) (cn_sent c))
| PeerGone c : peer_step c (MkConn (cn_in c) true true (cn_out c) (cn_closed c) (cn_sent c)).

(** The relay: both connections and both goroutines. *)
Record relay := MkRelay { ry_a : conn; ry_b : conn; ry_ab : copier; ry_ba : copier }.
Definition splice_start (a b : conn) : relay := MkRelay a b CpRead CpRead.

(** The steps of [splice] itself, and all steps. *)
Inductive copies : relay -> relay -> Prop :=
| StAB a b p q a' b' p' : cp_step (a, b, p) (a', b', p') -> copies (MkRelay a b p q) (MkRelay a' b' p' q)
| StBA a b p q a' b' q' : cp_step (b, a, q) (b', a', q') -> copies (MkRelay a b p q) (MkRelay a' b' p q').
Inductive relay_step : relay -> relay -> Prop :=
| StCopy r r' : copies r r' -> relay_step r r'
| StPeerA a b p q a' : peer_step a a' -> relay_step (MkRelay a b p q) (MkRelay a' b p q)
| StPeerB a b p q b' : peer_step b b' -> relay_step (MkRelay a b p q) (MkRelay a b' p q).

Definition fresh_conn : conn := MkConn "" false false "" false "".

(** ** What is relayed *)

Definition in_flight (p : copier) : string := match p with CpWrite buf => buf | _ => "" end.
Definition copying (p : copier) : bool := match p with CpRead | CpWrite _ => true | _ => false end.

(** One direction: while its goroutine copies, what was sent is what was delivered,
    what is in flight and what is unread; afterwards it is a prefix. *)
Definition direction_ok (src dst : conn) (p : copier) : Prop :=
  (copying p = true -> cn_sent src = cn_out dst +:+ in_flight p +:+ cn_in src) /\
  (exists rest, cn_sent src = cn_out dst +:+ rest) /\
  (p = CpCloseSrc \/ p = CpDone -> cn_closed dst = true) /\ (p = CpDone -> cn_closed src = true).

Definition relay_ok (r : relay) : Prop := direction_ok (ry_a r) (ry_b r) (ry_ab r) /\ direction_ok (ry_b r) (ry_a r) (ry_ba r).

Lemma cp_step_ok src dst p src' dst' p' q :
  cp_step (src, dst, p) (src', dst', p') -> direction_ok src dst p -> direction_ok dst src q ->
  direction_ok src' dst' p' /\ direction_ok dst' src' q.
Proof.
  intros Hs (H1 & [rest H2] & H3 & H4) (K1 & [krest K2] & K3 & K4).
  inversion Hs as [s d chunk r Hc Hin Hne Hl|s d He|s d buf Hc Hb|s d u v Hf|s d|s d]; subst; unfold direction_ok;
    cbn [cn_in cn_out cn_sent cn_closed take_in give close copying in_flight] in *.
  - specialize (H1 eq_refl). rewrite Hin in H1. split; split_and!; eauto; naive_solver.
  - split; split_and!; eauto; naive_solver.
  - specialize (H1 eq_refl). split; split_and!; [intros _; by rewrite sapp_assoc|exists (cn_in src'); by rewrite sapp_assoc|naive_solver..|by eauto|naive_solver|naive_solver].
  - specialize (H1 eq_refl). rewrite sapp_assoc in H1. split; split_and!; [done|exists (v +:+ cn_in src'); by rewrite sapp_assoc|naive_solver..|by eauto|naive_solver|naive_solver].
  - split; split_and!; eauto; naive_solver.
  - split; split_and!; eauto; naive_solver.
Qed.

Lemma peer_step_ok c c' d p q : peer_step c c' -> direction_ok c d p -> direction_ok d c q -> direction_ok c' d p /\ direction_ok d c' q.
Proof.
  intros Hs (H1 & [rest H2] & H3) (K1 & K2 & K3). destruct Hs as [c s He|c|c]; unfold direction_ok; cbn; split_and!; eauto; try tauto.
  - intros Hc. rewrite (H1 Hc). by rewrite !sapp_assoc.
  - exists (rest +:+ s). by rewrite H2, sapp_assoc.
Qed.

Lemma relay_step_ok r r' : relay_step r r' -> relay_ok r -> relay_ok r'.
Proof.
  unfold relay_ok. intros [s s' [a b p q a' b' p' Hc|a b p q a' b' q' Hc]|a b p q a' Hp|a b p q b' Hp] [H1 H2]; cbn in *.
  - by apply (cp_step_ok a b p a' b' p' q).
  - apply and_comm. by apply (cp_step_ok b a q b' a' q' p).
  - by apply (peer_step_ok a).
  - apply and_comm. by apply (peer_step_ok b).
Qed.

Lemma relay_reachable_ok r : rtc relay_step (splice_start fresh_conn fresh_conn) r -> relay_ok r.
Proof.
  assert (H0 : relay_ok (splice_start fresh_conn fresh_conn)) by (split; (split_and!; [done|by exists ""|naive_solver..])).
  revert H0. generalize (splice_start fresh_conn fresh_conn). intros r0 H0 Hst. induction Hst; eauto using relay_step_ok.
Qed.

(** Steps left once both connections are closed. *)
Definition cp_weight (p : copier) : nat := match p with CpWrite _ => 4 | CpRead => 3 | CpCloseDst => 2 | CpCloseSrc => 1 | CpDone => 0 end.
Definition weight (r : relay) : nat := cp_weight (ry_ab r) + cp_weight (ry_ba r).
Definition shut (r : relay) : Prop := cn_closed (ry_a r) = true /\ cn_closed (ry_b r) = true.

Lemma cp_step_shut src dst p src' dst' p' : cn_closed src = true -> cn_closed dst = true -> cp_step (src, dst, p) (src', dst', p') ->
  cn_closed src' = true /\ cn_closed dst' = true /\ (cp_weight p' < cp_weight p)%nat.
Proof. intros Hs Hd Hst. inversion Hst; subst; cbn; split_and!; try done; try congruence; lia. Qed.

Lemma copies_shut r r' : shut r -> copies r r' -> shut r' /\ (weight r' < weight r)%nat.
Proof.
  intros Hs Hc. destruct Hc as [a b p q a' b' p' Hc|a b p q a' b' q' Hc]; destruct Hs as [Ha Hb]; unfold shut, weight in *; cbn in *.
  - destruct (cp_step_shut _ _ _ _ _ _ Ha Hb Hc) as (? & ? & ?). split; [done|lia].
  - destruct (cp_step_shut _ _ _ _ _ _ Hb Ha Hc) as (? & ? & ?). split; [done|lia].
Qed.

Lemma cp_step_exists src dst p : cn_closed src = true -> cn_closed dst = true -> p <> CpDone -> exists x, cp_step (src, dst, p) x.
Proof.
  intros Hs Hd Hp. destruct p as [|buf| | |].
  - eexists. apply CpEnd. by left.
  - eexists. apply (CpFail src dst "" buf). by left.
  - eexists. apply CpShut.
  - eexists. apply CpShutSrc.
  - done.
Qed.

Lemma copies_exists r : shut r -> weight r <> 0%nat -> exists r', copies r r'.
Proof.
  destruct r as [a b p q]. intros [Ha Hb] Hw. cbn in *. destruct (decide (cp_weight p = 0%nat)) as [Hp|Hp].
  - destruct (cp_step_exists b a q) as [[[b' a'] q'] Hs]; [done|done|intros ->; unfold weight in Hw; cbn in Hw; lia|].
    eexists. by eapply StBA.
  - destruct (cp_step_exists a b p) as [[[a' b'] p'] Hs]; [done|done|by intros ->|]. eexists. by eapply StAB.
Qed.

Lemma shut_returns n : forall r, (weight r <= n)%nat -> shut r -> exists r', rtc copies r r' /\ ry_ab r' = CpDone /\ ry_ba r' = CpDone.
Proof.
  induction n as [|n IH]; intros r Hw Hs.
  - exists r. split; [apply rtc_refl|]. destruct r as [a b [] []]; unfold weight in Hw; cbn in *; try lia; done.
  - destruct (decide (weight r = 0%nat)) as [H0|H0]; [apply IH; [lia|done]|].
    destruct (copies_exists r Hs H0) as [r1 Hr1]. destruct (copies_shut _ _ Hs Hr1) as [Hs1 Hlt].
    destruct (IH r1) as (r2 & Hr2 & Hd); [lia|done|]. exists r2. split; [by eapply rtc_l|done].
Qed.

(** A relay delivers to each side a prefix of what the other sent, in order; while
    a direction copies, only what is in flight or unread is missing.  Once one
    direction has finished, both connections are closed, every further step of the
    other brings it nearer to its end, and it can reach it: [splice] returns. *)
Theorem splice_relays : forall r,
  rtc relay_step (splice_start fresh_conn fresh_conn) r ->
  (exists x, cn_sent (ry_a r) = cn_out (ry_b r) +:+ x) /\ (exists x, cn_sent (ry_b r) = cn_out (ry_a r) +:+ x) /\
  (ry_ab r = CpRead -> cn_in (ry_a r) = "" -> cn_out (ry_b r) = cn_sent (ry_a r)) /\
  (ry_ba r = CpRead -> cn_in (ry_b r) = "" -> cn_out (ry_a r) = cn_sent (ry_b r)) /\
  (ry_ab r = CpDone \/ ry_ba r = CpDone ->
     shut r /\ (forall r', copies r r' -> (weight r' < weight r)%nat) /\
     exists r', rtc copies r r' /\ ry_ab r' = CpDone /\ ry_ba r' = CpDone).
Proof.
  intros r Hr. apply relay_reachable_ok in Hr as [(A1 & A2 & A3 & A4) (B1 & B2 & B3 & B4)]. split_and!; try done.
  - intros Hp Hin. rewrite Hp, Hin in A1. rewrite A1 by done. cbn. by rewrite !sapp_nil_r.
  - intros Hp Hin. rewrite Hp, Hin in B1. rewrite B1 by done. cbn. by rewrite !sapp_nil_r.
  - intros Hd. assert (Hs : shut r) by (unfold shut; naive_solver). split; [done|]. split; [|by apply (shut_returns (weight r))].
    intros r' Hc. by apply copies_shut in Hc as [_ ?].
Qed.

(** ** The handshake over a hypervisor's socket *)

(** What the other end sends, as the reads of the socket will find it: one non-empty
    piece at a time, then an error (the end, or the deadline). *)
Fixpoint split_at (n : nat) (s : string) : string * string :=
  match n, s with
  | S n', String c s' => let '(x, y) := split_at n' s' in (String c x, y)
  | _, _ => ("", s)
  end.

Definition raw_read (n : nat) (pieces : list string) : option (string * list string) :=
  match pieces with
  | [] => None
  | c :: cs => let '(x, y) := split_at n c in Some (x, if String.eqb y "" then cs else y :: cs)
  end.

(** [bufio.Reader] with its default size. *)
Record bufReader := MkBufReader { br_buf : string; br_src : list string }.
Definition bufio_size : Z := 4096.
Definition buffered (r : bufReader) : Z := Z.of_nat (String.length (br_buf r)).
Definition newline : ascii := "010".

(** [ReadString]: a full buffer without a line end is moved to the result. *)
Fixpoint read_string (fuel : nat) (acc : string) (r : bufReader) : option (string * bufReader) :=
  match split_first newline (br_buf r) with
  | Some (line, rest) => Some (acc +:+ line +:+ String newline "", MkBufReader rest (br_src r))
  | None =>
      match fuel with
      | O => None
      | S fuel' =>
          if bufio_size <=? buffered r then read_string fuel' (acc +:+ br_buf r) (MkBufReader "" (br_src r))
          else
            match raw_read (Z.to_nat (bufio_size - buffered r)) (br_src r) with
            | None => None
            | Some (x, src') => read_string fuel' acc (MkBufReader (br_buf r +:+ x) src')
            end
      end
  end.

Definition concat_pieces (l : list string) : string := foldr (fun s t => s +:+ t) "" l.
(** The bytes still to come. *)
Definition pending (r : bufReader) : string := br_buf r +:+ concat_pieces (br_src r).

(** Two rounds per byte suffice. *)
Definition read_fuel (r : bufReader) : nat := String.length (br_buf r) + 2 * String.length (concat_pieces (br_src r)).

(** [dialVsock]: what it writes, and the connection; [dialed] is the socket when it
    could be dialled, [wrote] whether the write went through. *)
Definition dialVsock (dialed : option (list string)) (wrote : bool) (udsPath : string) (port : Z) : string * res string bufReader :=
  match dialed with
  | None => ("", Err ("dialling vsock uds " +:+ udsPath))
  | Some pieces =>
      let hello := "CONNECT " +:+ Itoa port +:+ String newline "" in
      if negb wrote then (hello, Err "writing vsock CONNECT")
      else
        let br := MkBufReader "" pieces in
        (hello,
         match read_string (read_fuel br) "" br with
         | None => Err "reading vsock CONNECT reply"
         | Some (line, br') =>
             if negb (HasPrefix line "OK ") then Err ("vsock connect to port " +:+ Itoa port +:+ " rejected: " +:+ TrimSpace line)
             else Ok br'
         end)
  end.

(** [bufConn.Read] into [n] bytes, [n > 0]. *)
Definition bufConn_Read (n : nat) (r : bufReader) : option (string * bufReader) :=
  if String.eqb (br_buf r) "" then
    if bufio_size <=? Z.of_nat n then
      match raw_read n (br_src r) with None => None | Some (x, src') => Some (x, MkBufReader "" src') end
    else
      match raw_read (Z.to_nat bufio_size) (br_src r) with
      | None => None
      | Some (b, src') => let '(x, y) := split_at n b in Some (x, MkBufReader y src')
      end
  else let '(x, y) := split_at n (br_buf r) in Some (x, MkBufReader y (br_src r)).

Example dialVsock_early_bytes :
  dialVsock (Some ["OK 10"; String "050" (String newline "hel"); "lo"]) true "/v" 5000 =
  ("CONNECT 5000" +:+ String newline "", Ok (MkBufReader "hel" ["lo"])).
Proof. reflexivity. Qed.

Lemma split_at_joins n s : let '(x, y) := split_at n s in x +:+ y = s.
Proof.
  revert s. induction n as [|n IH]; intros [|c s]; try done. cbn [split_at]. specialize (IH s).
  destruct (split_at n s) as [x y]. rewrite sapp_cons. by rewrite IH.
Qed.

Lemma split_at_progress n s : (0 < n)%nat -> s <> "" -> (split_at n s).1 <> "".
Proof. destruct n as [|n], s as [|c s]; try done; [lia|]. intros _ _. cbn. by destruct (split_at n s). Qed.

Definition pieces_ok (l : list string) : Prop := Forall (fun s => s <> "") l.

Lemma raw_read_spec n l : (0 < n)%nat -> pieces_ok l ->
  match raw_read n l with
  | None => l = []
  | Some (x, l') => x <> "" /\ pieces_ok l' /\ concat_pieces l = x +:+ concat_pieces l'
  end.
Proof.
  intros Hn Hl. unfold raw_read. destruct l as [|c cs]; [done|]. apply Forall_cons in Hl as [Hc Hcs].
  pose proof (split_at_joins n c) as Ha. pose proof (split_at_progress n c Hn Hc) as Hp. destruct (split_at n c) as [x y]. cbn in Hp.
  split; [done|]. destruct (String.eqb_spec y "") as [->|Hy].
  - rewrite sapp_nil_r in Ha. by subst.
  - split; [by constructor|]. cbn [concat_pieces foldr]. rewrite <- Ha. by rewrite sapp_assoc.
Qed.

Lemma split_first_skip c a b : split_first c a = None ->
  split_first c (a +:+ b) = match split_first c b with Some (x, y) => Some (a +:+ x, y) | None => None end.
Proof.
  induction a as [|d a IH]; [intros _; change ("" +:+ b) with b; by destruct (split_first c b) as [[??]|]|].
  rewrite sapp_cons. cbn [split_first]. destruct (Ascii.eqb d c); [done|]. destruct (split_first c a) as [[??]|]; [done|].
  intros _. rewrite IH by done. by destruct (split_first c b) as [[??]|].
Qed.

Lemma split_first_found c a b x y : split_first c a = Some (x, y) -> split_first c (a +:+ b) = Some (x, y +:+ b).
Proof.
  revert x y. induction a as [|d a IH]; intros x y; [done|]. rewrite sapp_cons. cbn [split_first].
  destruct (Ascii.eqb d c); [intros [= <- <-]; done|]. destruct (split_first c a) as [[u v]|]; [|done].
  intros [= <- <-]. by rewrite (IH u v).
Qed.

Lemma slength_zero s : s <> "" -> (0 < String.length s)%nat.
Proof. destruct s; [done|cbn; lia]. Qed.

Lemma read_string_spec fuel : forall acc r, (read_fuel r <= fuel)%nat -> pieces_ok (br_src r) ->
  match read_string fuel acc r, split_first newline (pending r) with
  | Some (s, r'), Some (line, rest) => s = acc +:+ line +:+ String newline "" /\ pending r' = rest /\ pieces_ok (br_src r')
  | None, None => True
  | _, _ => False
  end.
Proof.
  unfold pending. induction fuel as [|fuel IH]; intros acc [buf src] Hf Hok; cbn [read_string br_buf br_src] in *.
  - unfold read_fuel in Hf. cbn [br_buf br_src] in Hf. destruct buf; [|cbn [String.length] in Hf; lia].
    destruct (concat_pieces src); [done|cbn [String.length] in Hf; lia].
  - destruct (split_first newline buf) as [[line rest]|] eqn:Hs.
    + rewrite (split_first_found _ _ _ _ _ Hs). done.
    + rewrite (split_first_skip _ _ _ Hs). unfold buffered, bufio_size. cbn [br_buf].
      destruct (Z.leb_spec 4096 (Z.of_nat (String.length buf))) as [Hfull|Hroom].
      * specialize (IH (acc +:+ buf) (MkBufReader "" src)). unfold read_fuel in *. cbn [br_buf br_src] in *.
        change (String.length "") with 0%nat in IH. specialize (IH ltac:(lia) Hok). rewrite sapp_nil_l in IH.
        destruct (read_string fuel _ _) as [[s r']|], (split_first newline (concat_pieces src)) as [[line rest]|]; try done.
        by rewrite !sapp_assoc in *.
      * pose proof (raw_read_spec (Z.to_nat (4096 - Z.of_nat (String.length buf))) src ltac:(lia) Hok) as Hr.
        destruct (raw_read _ src) as [[x src']|]; [|by subst].
        destruct Hr as (Hx & Hok' & Hcat). pose proof (slength_zero x Hx).
        specialize (IH acc (MkBufReader (buf +:+ x) src')). unfold read_fuel in *. cbn [br_buf br_src] in *.
        rewrite Hcat, slength_app in Hf. rewrite slength_app in IH. specialize (IH ltac:(lia) Hok').
        rewrite Hcat. rewrite sapp_assoc, (split_first_skip _ _ _ Hs) in IH. done.
Qed.

(** The dial succeeds exactly when the reply's first line starts with OK, and the
    connection then yields the very bytes that follow that line, none lost and none
    of the line left. *)
Theorem dialVsock_spec : forall pieces udsPath port, pieces_ok pieces ->
  let out := (dialVsock (Some pieces) true udsPath port).2 in
  match split_first newline (concat_pieces pieces) with
  | None => out = Err "reading vsock CONNECT reply"
  | Some (line, rest) =>
      if HasPrefix (line +:+ String newline "") "OK " then exists c, out = Ok c /\ pending c = rest /\ pieces_ok (br_src c)
      else exists e, out = Err e
  end.
Proof.
  intros pieces uds port Hok out. unfold out, dialVsock. cbn [negb snd].
  pose proof (read_string_spec (read_fuel (MkBufReader "" pieces)) "" (MkBufReader "" pieces) (le_n _) Hok) as Hr.
  unfold pending in Hr. cbn [br_buf br_src] in Hr. rewrite sapp_nil_l in Hr.
  destruct (read_string _ _ _) as [[s r']|], (split_first newline (concat_pieces pieces)) as [[line rest]|]; try done.
  destruct Hr as (-> & Hp & Hok'). rewrite sapp_nil_l. destruct (HasPrefix _ "OK "); cbn [negb]; eauto.
Qed.

(** Reading the connection: the bytes come in order, and its end is reported only
    when all were read. *)
Theorem bufConn_Read_spec : forall n c, (0 < n)%nat -> pieces_ok (br_src c) ->
  match bufConn_Read n c with
  | None => pending c = ""
  | Some (x, c') => x <> "" /\ pending c = x +:+ pending c' /\ pieces_ok (br_src c')
  end.
Proof.
  intros n [buf src] Hn Hok. unfold bufConn_Read, pending, bufio_size. cbn [br_buf br_src] in *. destruct (String.eqb_spec buf "") as [->|Hne].
  - destruct (4096 <=? Z.of_nat n).
    + pose proof (raw_read_spec n src Hn Hok) as Hr. destruct (raw_read n src) as [[x src']|]; [|by subst].
      destruct Hr as (Hx & Hok' & ->). done.
    + pose proof (raw_read_spec (Z.to_nat 4096) src ltac:(lia) Hok) as Hr. destruct (raw_read _ src) as [[b src']|]; [|by subst].
      destruct Hr as (Hx & Hok' & ->). pose proof (split_at_joins n b) as Ha. pose proof (split_at_progress n b Hn Hx) as Hp.
      destruct (split_at n b) as [x y]. cbn in *. split_and!; try done. rewrite <- Ha. by rewrite sapp_assoc, sapp_nil_l.
  - pose proof (split_at_joins n buf) as Ha. pose proof (split_at_progress n buf Hn Hne) as Hp.
    destruct (split_at n buf) as [x y]. cbn in *. split_and!; try done. rewrite <- Ha. by rewrite sapp_assoc.
Qed.
