(* ===== verification/Config.v ===== *)
(** * The hub's configuration (internal/hub/config/config.go)

    Loading, defaults, secrets read from files, and the validation that ties the
    base domain of the proxies, the cookie domain and the public URL together.
    The YAML decoder, [url.Parse] and the file system are arguments. *)

From S2P Require Import Prelude GoStrings Ingress.

Local Open Scope Z_scope.
Local Open Scope go_scope.

Definition DefaultHTTPAddr : string := ":8080".
Definition DefaultPublicURL : string := "http://localhost:8080".
Definition DefaultStateFile : string := "llmbox-sessions.db".
Definition DefaultSessionTTL : Z := Hour.

Record ProxyConfig := MkProxyConfig { px_BaseDomain : string }.
Record TLSConfig := MkTLSConfig { tl_Enabled : bool; tl_CertFile : string; tl_KeyFile : string }.
Record AdminConfig := MkAdminConfig { ad_Emails : list string }.

(** [GoogleConfig] and [GitHubConfig] have the same fields. *)
Record ProviderConfig := MkProviderConfig {
  pc_Enabled : bool;
  pc_ClientID : string;
  pc_ClientSecretFile : string;
  pc_RedirectURL : string;
  pc_ClientSecret : string;
}.

Record AuthConfig := MkAuthConfig {
  au_SessionTTL : Z;
  au_Google : ProviderConfig;
  au_GitHub : ProviderConfig;
  au_Admin : AdminConfig;
  au_CookieDomain : string;
}.

Record Config := MkConfig {
  cf_HTTPAddr : string;
  cf_PublicURL : string;
  cf_StateFile : string;
  cf_Hooks : list string;
  cf_Auth : AuthConfig;
  cf_Proxy : ProxyConfig;
  cf_TLS : TLSConfig;
}.

Definition zeroProvider : ProviderConfig := MkProviderConfig false "" "" "" "".
Definition zeroConfig : Config :=
  MkConfig "" "" "" [] (MkAuthConfig 0 zeroProvider zeroProvider (MkAdminConfig []) "") (MkProxyConfig "") (MkTLSConfig false "" "").

Inductive configError :=
| ErrReadConfig (path : string) | ErrParse (path : string)
| ErrNoSecretPath (field : string) | ErrSecretRead (field : string)
| ErrTLSFiles | ErrNoClientID (provider : string) | ErrNoClientSecret (provider : string)
| ErrBareDomain (field v : string) | ErrCookieOutsidePublic | ErrCookieOutsideBase.

(** [strings.TrimRight(s, "/")]. *)
Definition TrimRightSlash (s : string) : string := drop_end_while (fun c => Ascii.eqb c "/") s.

Definition or_default (v d : string) : string := if String.eqb v "" then d else v.

(** The default redirect URL of an enabled provider. *)
Definition provider_defaults (publicURL callback : string) (p : ProviderConfig) : ProviderConfig :=
  if pc_Enabled p && String.eqb (pc_RedirectURL p) ""
  then MkProviderConfig (pc_Enabled p) (pc_ClientID p) (pc_ClientSecretFile p) (TrimRightSlash publicURL +:+ callback) (pc_ClientSecret p)
  else p.

Definition applyDefaults (c : Config) : Config :=
  let public := or_default (cf_PublicURL c) DefaultPublicURL in
  let a := cf_Auth c in
  MkConfig (or_default (cf_HTTPAddr c) DefaultHTTPAddr) public (or_default (cf_StateFile c) DefaultStateFile) (cf_Hooks c)
    (MkAuthConfig (if au_SessionTTL a =? 0 then DefaultSessionTTL else au_SessionTTL a)
       (provider_defaults public "/auth/google/callback" (au_Google a))
       (provider_defaults public "/auth/github/callback" (au_GitHub a)) (au_Admin a) (au_CookieDomain a))
    (cf_Proxy c) (cf_TLS c).

Definition Default : Config := applyDefaults zeroConfig.

(** What reading a path yields. *)
Inductive FileAt := Absent | UnreadableFile | Content (data : string).

(** What the package uses: the files, the decoder with [KnownFields(true)] ([None]
    an error other than the end of the input, [Some None] a file without a
    document) and [url.Parse]: the host and its name without the port. *)
Class ConfigEnv := {
  file_at : string -> FileAt;
  yaml_Decode : string -> option (option Config);
  url_Parse : string -> option (string * string);
}.

Section Load.
Context `{ConfigEnv}.

Definition secretFromFile (field path : string) : res configError string :=
  if String.eqb path "" then Err (ErrNoSecretPath field)
  else match file_at path with Content data => Ok (TrimSpace data) | _ => Err (ErrSecretRead field) end.

Definition resolve_provider (field : string) (p : ProviderConfig) : res configError ProviderConfig :=
  if pc_Enabled p then
    let! secret := secretFromFile field (pc_ClientSecretFile p) in
    Ok (MkProviderConfig (pc_Enabled p) (pc_ClientID p) (pc_ClientSecretFile p) (pc_RedirectURL p) secret)
  else Ok p.

Definition resolveSecrets (c : Config) : res configError Config :=
  let a := cf_Auth c in
  let! google := resolve_provider "auth.google.client_secret_file" (au_Google a) in
  let! github := resolve_provider "auth.github.client_secret_file" (au_GitHub a) in
  Ok (MkConfig (cf_HTTPAddr c) (cf_PublicURL c) (cf_StateFile c) (cf_Hooks c)
       (MkAuthConfig (au_SessionTTL a) google github (au_Admin a) (au_CookieDomain a)) (cf_Proxy c) (cf_TLS c)).

Definition validate_provider (name : string) (p : ProviderConfig) : res configError () :=
  if negb (pc_Enabled p) then Ok ()
  else if String.eqb (pc_ClientID p) "" then Err (ErrNoClientID name)
  else if String.eqb (pc_ClientSecret p) "" then Err (ErrNoClientSecret name)
  else Ok ().

Definition check_bare (field v : string) : res configError () :=
  if validateBareDomain v then Ok () else Err (ErrBareDomain field v).

(** Whether the cookie set by the host of the public URL would be refused. *)
Definition outside_public (cookie publicURL : string) : bool :=
  match url_Parse publicURL with
  | Some (host, hostname) => negb (String.eqb host "") && negb (domainCovers cookie hostname)
  | None => false
  end.

Definition validate (c : Config) : res configError () :=
  let tls := cf_TLS c in
  let base := px_BaseDomain (cf_Proxy c) in
  let cookie := au_CookieDomain (cf_Auth c) in
  if tl_Enabled tls && (String.eqb (tl_CertFile tls) "" || String.eqb (tl_KeyFile tls) "") then Err ErrTLSFiles
  else
    let! _ := validate_provider "google" (au_Google (cf_Auth c)) in
    let! _ := validate_provider "github" (au_GitHub (cf_Auth c)) in
    let! _ := (if String.eqb base "" then Ok () else check_bare "proxy.base_domain" base) in
    if String.eqb cookie "" then Ok ()
    else
      let! _ := check_bare "auth.cookie_domain" cookie in
      if outside_public cookie (cf_PublicURL c) then Err ErrCookieOutsidePublic
      else if negb (String.eqb base "") && negb (domainCovers cookie base) then Err ErrCookieOutsideBase
      else Ok ().

Definition Load (path : string) : res configError Config :=
  match file_at path with
  | Content data =>
      match yaml_Decode data with
      | None => Err (ErrParse path)
      | Some doc =>
          let! c := resolveSecrets (applyDefaults (default zeroConfig doc)) in
          let! _ := validate c in
          Ok c
      end
  | _ => Err (ErrReadConfig path)
  end.

Definition LoadConfig (path : string) (explicit : bool) : res configError Config :=
  if negb explicit && match file_at path with Absent => true | _ => false end then Ok Default else Load path.
End Load.

(** ** Defaults *)

Lemma or_default_ne v d : d <> "" -> or_default v d <> "".
Proof. unfold or_default. by destruct (String.eqb_spec v ""). Qed.

Lemma or_default_idem v d : d <> "" -> or_default (or_default v d) d = or_default v d.
Proof. intros Hd. unfold or_default at 1. by destruct (String.eqb_spec (or_default v d) "") as [He|]; [apply or_default_ne in He|]. Qed.

Lemma provider_defaults_idem u cb p :
  cb <> "" -> provider_defaults u cb (provider_defaults u cb p) = provider_defaults u cb p.
Proof.
  intros Hcb. unfold provider_defaults at 2 3. destruct (pc_Enabled p && String.eqb (pc_RedirectURL p) "") eqn:He.
  - unfold provider_defaults. cbn [pc_Enabled pc_RedirectURL]. destruct (String.eqb_spec (TrimRightSlash u +:+ cb) "") as [E|]; [|by rewrite andb_false_r].
    destruct (TrimRightSlash u), cb; done.
  - unfold provider_defaults. by rewrite He.
Qed.

Lemma applyDefaults_idem c : applyDefaults (applyDefaults c) = applyDefaults c.
Proof.
  unfold applyDefaults. cbn [cf_HTTPAddr cf_PublicURL cf_StateFile cf_Hooks cf_Auth cf_Proxy cf_TLS au_SessionTTL au_Google au_GitHub au_Admin au_CookieDomain].
  rewrite !or_default_idem, !provider_defaults_idem by done. f_equal. f_equal.
  destruct (Z.eqb_spec (au_SessionTTL (cf_Auth c)) 0) as [|Hne]; [done|]. by apply Z.eqb_neq in Hne as ->.
Qed.

(** ** What a loaded configuration guarantees *)

(** An enabled provider can complete a sign-in. *)
Definition usable `{ConfigEnv} (p : ProviderConfig) : Prop := pc_Enabled p = true ->
  pc_ClientID p <> "" /\ pc_RedirectURL p <> "" /\ pc_ClientSecret p <> "" /\
  exists data, file_at (pc_ClientSecretFile p) = Content data /\ pc_ClientSecret p = TrimSpace data.

(** The domains a login spans. *)
Definition cookie_spans `{ConfigEnv} (c : Config) : Prop :=
  let cookie := au_CookieDomain (cf_Auth c) in
  let base := px_BaseDomain (cf_Proxy c) in
  (base <> "" -> validateBareDomain base = true) /\
  (cookie <> "" -> validateBareDomain cookie = true /\
     (forall host name, url_Parse (cf_PublicURL c) = Some (host, name) -> host <> "" -> domainCovers cookie name = true) /\
     (base <> "" -> forall slug, domainCovers cookie (slug +:+ "." +:+ base) = true)).

Lemma domainCovers_sub parent host slug : domainCovers parent host = true -> domainCovers parent (slug +:+ "." +:+ host) = true.
Proof.
  unfold domainCovers. rewrite !ToLower_app. intros Hc. apply orb_true_iff. right. apply HasSuffix_spec.
  apply orb_true_iff in Hc as [He%String.eqb_eq|[q Hq]%HasSuffix_spec].
  - exists (ToLower slug). by rewrite He.
  - exists (ToLower slug +:+ ToLower "." +:+ q). rewrite Hq. by rewrite !sapp_assoc.
Qed.

Section Guarantees.
Context `{ConfigEnv}.

Lemma validate_provider_ok name p : validate_provider name p = Ok () -> pc_Enabled p = true -> pc_ClientID p <> "" /\ pc_ClientSecret p <> "".
Proof.
  unfold validate_provider. intros Hv He. rewrite He in Hv. cbn [negb] in Hv.
  destruct (String.eqb_spec (pc_ClientID p) ""); [done|]. by destruct (String.eqb_spec (pc_ClientSecret p) "").
Qed.

Lemma resolve_provider_ok field p p' :
  resolve_provider field p = Ok p' ->
  pc_Enabled p' = pc_Enabled p /\ pc_ClientID p' = pc_ClientID p /\ pc_RedirectURL p' = pc_RedirectURL p /\
  (pc_Enabled p = true -> exists data, file_at (pc_ClientSecretFile p') = Content data /\ pc_ClientSecret p' = TrimSpace data).
Proof.
  unfold resolve_provider, secretFromFile. destruct (pc_Enabled p) eqn:He; [|intros [= <-]; by rewrite He].
  destruct (String.eqb _ ""); [done|]. destruct (file_at _) as [| |data] eqn:Hf; try done. intros [= <-]. cbn. eauto 6.
Qed.

Lemma provider_defaults_redirect u cb p : cb <> "" -> pc_Enabled (provider_defaults u cb p) = true -> pc_RedirectURL (provider_defaults u cb p) <> "".
Proof.
  intros Hcb. unfold provider_defaults. destruct (pc_Enabled p) eqn:He; cbn [andb]; [|congruence].
  destruct (String.eqb_spec (pc_RedirectURL p) ""); [cbn|done]. intros _. by destruct (TrimRightSlash u), cb.
Qed.

Lemma validate_cookie c : validate c = Ok () -> cookie_spans c.
Proof.
  unfold validate, cookie_spans. destruct (_ && _); [done|]. destruct (validate_provider "google" _) as [[]|]; [|done].
  destruct (validate_provider "github" _) as [[]|]; [|done]. cbn [res_bind]. unfold check_bare.
  set (base := px_BaseDomain _). set (cookie := au_CookieDomain _).
  destruct (String.eqb_spec base "") as [Hb|Hb]; [|destruct (validateBareDomain base) eqn:Hvb; [|done]]; cbn [res_bind negb andb].
  all: destruct (String.eqb_spec cookie "") as [Hc|Hc]; [by split|]; destruct (validateBareDomain cookie) eqn:Hvc; [|done]; cbn [res_bind].
  all: destruct (outside_public cookie _) eqn:Ho; [done|].
  all: assert (Hpub : forall host name, url_Parse (cf_PublicURL c) = Some (host, name) -> host <> "" -> domainCovers cookie name = true)
    by (intros host name Hu Hh; unfold outside_public in Ho; rewrite Hu in Ho; apply String.eqb_neq in Hh; rewrite Hh in Ho; by destruct (domainCovers cookie name)).
  - by split.
  - destruct (domainCovers cookie base) eqn:Hd; [|done]. intros _. split; [done|]. intros _. split; [done|]. split; [done|].
    intros _ slug. by apply domainCovers_sub.
Qed.


(** A file without a document means the defaults, which is also what a missing
    file means unless it was named. *)
Lemma empty_file_is_default path data :
  file_at path = Content data -> yaml_Decode data = Some None -> Load path = Ok Default.
Proof. intros Hf Hd. unfold Load. rewrite Hf, Hd. reflexivity. Qed.

Lemma LoadConfig_absent path explicit :
  file_at path = Absent -> LoadConfig path explicit = if explicit then Err (ErrReadConfig path) else Ok Default.
Proof. intros Hf. unfold LoadConfig, Load. rewrite Hf. by destruct explicit. Qed.
End Guarantees.

(** A hub with sign-in, proxies and a shared cookie. *)
Definition sim_config : Config :=
  MkConfig "" "https://hub.example.com:8443" "" []
    (MkAuthConfig 0 (MkProviderConfig true "id" "/run/secrets/google" "" "") zeroProvider (MkAdminConfig ["a@b.c"]) "example.com")
    (MkProxyConfig "proxy.example.com") (MkTLSConfig false "" "").

Definition sim_env : ConfigEnv := {|
  file_at p := if String.eqb p "llmbox.yaml" then Content "doc" else if String.eqb p "/run/secrets/google" then Content " s3cret " else Absent;
  yaml_Decode _ := Some (Some sim_config);
  url_Parse _ := Some ("hub.example.com:8443", "hub.example.com");
|}.


(** A cookie domain beside the base domain is refused. *)
Example cookie_beside_base :
  @validate sim_env (MkConfig "" "https://hub.example.com:8443" "" []
    (MkAuthConfig 0 zeroProvider zeroProvider (MkAdminConfig []) "hub.example.com") (MkProxyConfig "proxy.example.com") (MkTLSConfig false "" ""))
  = Err ErrCookieOutsideBase.
Proof. reflexivity. Qed.
