(* ===== verification/Providers.v ===== *)
(** * The sign-in providers (internal/hub/auth/auth.go)

    [auth.New] builds the authenticator from the configuration; the two resolvers
    turn the token of a completed handshake into an identity.  The OIDC library
    (discovery and the verification of ID tokens), the HTTP client and the JSON
    decoder are an interface, [IdentityServices]. *)

From S2P Require Import Prelude GoStrings Store Sha256 Auth Ingress Config.

Local Open Scope Z_scope.
Local Open Scope go_scope.

(** ** Providers *)

Record oauth2Config := MkOauth2Config {
  oc_ClientID : string; oc_ClientSecret : string; oc_AuthURL : string; oc_TokenURL : string;
  oc_RedirectURL : string; oc_Scopes : list string }.

(** [identityResolver]: the implementation a provider has. *)
Inductive identityResolver :=
| oidcResolver (clientID : string)
| githubResolver (oauth2 : oauth2Config) (apiBase : string).

Record provider := MkProvider {
  pv_name : string; pv_label : string; pv_oauth2 : oauth2Config; pv_resolver : identityResolver }.

(** The authenticator of Auth.v with what the provider table holds. *)
Record authenticator := MkAuthn { an_auth : Authenticator; an_providers : gmap string provider; an_order : list string }.

Definition googleIssuer : string := "https://accounts.google.com".
Definition githubEndpoint : string * string :=
  ("https://github.com/login/oauth/authorize", "https://github.com/login/oauth/access_token").
Definition githubAPIBase : string := "https://api.github.com".

(** A token response: the access token, and [Extra("id_token")] when it is a string. *)
Record oauthToken := MkOauthToken { tk_Access : string; tk_IDToken : option string }.

(** A verified ID token: its nonce, and its claims when they decode. *)
Record idToken := MkIdToken { it_Nonce : string; it_Claims : option idClaims }.

(** An HTTP response: the status code and text, and the body. *)
Record httpResponse := MkHttpResponse { hr_Code : Z; hr_Status : string; hr_Body : string }.

Class IdentityServices := {
  oidc_NewProvider : string -> res string (string * string);
  oidc_Verify : string -> string -> res string idToken;
  http_Get : string -> string -> res string httpResponse;
  json_Emails : string -> option (list githubEmail);
}.

(** [io.LimitReader]. *)
Fixpoint LimitReader (s : string) (n : Z) : string :=
  match s with
  | "" => ""
  | String c s' => if n <=? 0 then "" else String c (LimitReader s' (n - 1))
  end.

Section Providers.
Context `{IdentityServices}.

Definition google_provider (cfg : ProviderConfig) (endpoint : string * string) : provider :=
  MkProvider "google" "Google"
    (MkOauth2Config (pc_ClientID cfg) (pc_ClientSecret cfg) endpoint.1 endpoint.2 (pc_RedirectURL cfg) ["openid"; "email"])
    (oidcResolver (pc_ClientID cfg)).

Definition github_provider (cfg : ProviderConfig) : provider :=
  let oauthCfg := MkOauth2Config (pc_ClientID cfg) (pc_ClientSecret cfg) githubEndpoint.1 githubEndpoint.2
                    (pc_RedirectURL cfg) ["user:email"] in
  MkProvider "github" "GitHub" oauthCfg (githubResolver oauthCfg githubAPIBase).

(** The providers in the order they are added. *)
Definition enabled_providers (cfg : AuthConfig) : res string (list provider) :=
  let! google :=
    (if pc_Enabled (au_Google cfg) then
       match oidc_NewProvider googleIssuer with
       | Err e => Err ("discovering Google OIDC provider: " +:+ e)
       | Ok endpoint => Ok [google_provider (au_Google cfg) endpoint]
       end
     else Ok []) in
  Ok (google ++ (if pc_Enabled (au_GitHub cfg) then [github_provider (au_GitHub cfg)] else [])).

(** [auth.New]. *)
Definition auth_New (cfg : AuthConfig) : res string (option authenticator) :=
  let! ps := enabled_providers cfg in
  match ps with
  | [] => Ok None
  | _ =>
      let table := foldl (fun t p => <[pv_name p := p]> t) ∅ ps in
      Ok (Some (MkAuthn
        (MkAuthenticator (dom table) (au_SessionTTL cfg) (lowerSet (ad_Emails (au_Admin cfg))) (TrimSpace (au_CookieDomain cfg)))
        table (pv_name <$> ps)))
  end.

(** ** Resolvers *)

Definition oidcVerifier_verify (clientID rawIDToken nonce : string) : res string idClaims :=
  match oidc_Verify clientID rawIDToken with
  | Err e => Err e
  | Ok idt =>
      if negb (String.eqb (it_Nonce idt) nonce) then Err "oidc nonce mismatch"
      else match it_Claims idt with None => Err "decoding claims" | Some c => Ok c end
  end.

Definition oidcResolver_resolve (clientID : string) (tok : oauthToken) (nonce : string) : res string idClaims :=
  match tk_IDToken tok with
  | None => Err "no id_token in token response"
  | Some rawID => if String.eqb rawID "" then Err "no id_token in token response" else oidcVerifier_verify clientID rawID nonce
  end.

Definition githubResolver_resolve (apiBase : string) (tok : oauthToken) : res string idClaims :=
  match http_Get (TrimRightSlash apiBase +:+ "/user/emails") (tk_Access tok) with
  | Err e => Err e
  | Ok resp =>
      if negb (hr_Code resp =? 200) then
        Err ("github /user/emails returned " +:+ hr_Status resp +:+ ": " +:+ TrimSpace (LimitReader (hr_Body resp) 512))
      else
        match json_Emails (LimitReader (hr_Body resp) (Z.shiftl 1 20)) with
        | None => Err "decoding github emails"
        | Some emails =>
            match github_claims emails with
            | Some c => Ok c
            | None => Err "github account exposes no primary email (grant the user:email scope)"
            end
        end
  end.

Definition resolver_resolve (r : identityResolver) (tok : oauthToken) (nonce : string) : res string idClaims :=
  match r with
  | oidcResolver clientID => oidcResolver_resolve clientID tok nonce
  | githubResolver _ apiBase => githubResolver_resolve apiBase tok
  end.

(** [p.resolver.resolve] of the provider the handlers looked up. *)
Definition resolve (a : authenticator) (name : string) (tok : oauthToken) (nonce : string) : option idClaims :=
  match an_providers a !! name with
  | None => None
  | Some p => match resolver_resolve (pv_resolver p) tok nonce with Ok c => Some c | Err _ => None end
  end.

End Providers.

(** ** What [auth.New] builds *)

Section New.
Context `{IdentityServices}.

(** The settings of an enabled provider. *)
Definition configured (cfg : AuthConfig) (p : provider) : Prop :=
  (pc_Enabled (au_Google cfg) = true /\ exists endpoint, oidc_NewProvider googleIssuer = Ok endpoint /\ p = google_provider (au_Google cfg) endpoint) \/
  (pc_Enabled (au_GitHub cfg) = true /\ p = github_provider (au_GitHub cfg)).

Lemma enabled_providers_ok cfg ps :
  enabled_providers cfg = Ok ps ->
  NoDup (pv_name <$> ps) /\ (forall p, p ∈ ps <-> configured cfg p) /\
  (pv_name <$> ps = (if pc_Enabled (au_Google cfg) then ["google"] else []) ++ (if pc_Enabled (au_GitHub cfg) then ["github"] else [])).
Proof.
  unfold enabled_providers, configured.
  destruct (pc_Enabled (au_Google cfg)), (oidc_NewProvider googleIssuer) as [ep|] eqn:Hd, (pc_Enabled (au_GitHub cfg));
    cbn [res_bind app]; intros [= <-]; (split; [by apply (bool_decide_unpack _)|]); (split; [|done]); intros p; set_solver.
Qed.

Lemma foldl_provider_table ps : NoDup (pv_name <$> ps) ->
  forall (t : gmap string provider) n p, (forall q, q ∈ ps -> t !! pv_name q = None) ->
  foldl (fun t p => <[pv_name p := p]> t) t ps !! n = Some p <-> t !! n = Some p \/ (p ∈ ps /\ pv_name p = n).
Proof.
  induction ps as [|q ps IH]; intros Hnd t n p Ht; cbn [foldl]; [set_solver|].
  rewrite fmap_cons, NoDup_cons, list_elem_of_fmap in Hnd. destruct Hnd as [Hq Hnd]. rewrite IH; [|done|].
  - rewrite lookup_insert_Some, elem_of_cons. specialize (Ht q (list_elem_of_here _ _)).
    assert (pv_name q = n -> t !! n = None) by congruence. split; [|naive_solver].
    intros [[[<- <-]|[Hne Hp]]|[Hp Hn]]; [by right; split; [left|]|by left|by right; split; [right|]].
  - intros q' Hq'. rewrite lookup_insert_ne by (intros Heq; apply Hq; eauto). apply Ht. by right.
Qed.

(** The authenticator has exactly the enabled providers, each with its settings,
    Google first; there is none when no provider is enabled; and only the
    discovery of Google can fail. *)
Theorem auth_New_spec : forall cfg,
  match auth_New cfg with
  | Err _ => pc_Enabled (au_Google cfg) = true /\ exists e, oidc_NewProvider googleIssuer = Err e
  | Ok None => pc_Enabled (au_Google cfg) = false /\ pc_Enabled (au_GitHub cfg) = false
  | Ok (Some a) =>
      an_order a <> [] /\
      an_order a = (if pc_Enabled (au_Google cfg) then ["google"] else []) ++ (if pc_Enabled (au_GitHub cfg) then ["github"] else []) /\
      (forall n p, an_providers a !! n = Some p <-> configured cfg p /\ pv_name p = n) /\
      au_providers (an_auth a) = list_to_set (an_order a) /\
      au_sessionTTL (an_auth a) = au_SessionTTL cfg /\ au_adminEmails (an_auth a) = lowerSet (ad_Emails (au_Admin cfg)) /\
      au_cookieDomain (an_auth a) = TrimSpace (au_CookieDomain cfg)
  end.
Proof.
  intros cfg. unfold auth_New. destruct (enabled_providers cfg) as [ps|e] eqn:Hps; cbn [res_bind].
  - destruct (enabled_providers_ok _ _ Hps) as (Hnd & Hin & Hord). destruct ps as [|p0 ps0] eqn:Hcase.
    + destruct (pc_Enabled (au_Google cfg)), (pc_Enabled (au_GitHub cfg)); done.
    + cbn [an_auth an_order an_providers au_providers au_sessionTTL au_adminEmails au_cookieDomain]. assert (Hne : pv_name <$> ps <> []) by (by rewrite Hcase). rewrite <- Hcase in *. clear Hcase Hps.
      assert (Hlk : forall n p, foldl (fun (t : gmap string provider) p => <[pv_name p := p]> t) ∅ ps !! n = Some p <-> configured cfg p /\ pv_name p = n).
      { intros n p. rewrite foldl_provider_table by (done || intros; apply lookup_empty). rewrite lookup_empty, Hin. naive_solver. }
      split_and!; [done|done|exact Hlk| |done|done|done].
      apply set_eq. intros n. rewrite elem_of_dom, elem_of_list_to_set, list_elem_of_fmap. split.
      * intros [p [Hp Hn]%Hlk]. exists p. split; [done|]. by apply Hin.
      * intros (p & -> & Hp). exists p. apply Hlk. split; [by apply Hin|done].
  - revert Hps. unfold enabled_providers. destruct (pc_Enabled (au_Google cfg)); [|by destruct (pc_Enabled (au_GitHub cfg))].
    destruct (oidc_NewProvider googleIssuer) as [|e']; [by destruct (pc_Enabled (au_GitHub cfg))|]. eauto.
Qed.

(** ** Who is served *)

(** A configured provider vouches for an address: Google in an ID token that
    verifies for the configured client, GitHub by listing it as the primary
    address of the account, in both cases marked verified. *)
Definition vouched (Exchange : string -> string -> string -> option oauthToken) (cfg : AuthConfig) (email : string) : Prop :=
  exists code verifier tok,
  (pc_Enabled (au_Google cfg) = true /\ Exchange "google" code verifier = Some tok /\
   exists raw idt domain, tk_IDToken tok = Some raw /\ oidc_Verify (pc_ClientID (au_Google cfg)) raw = Ok idt /\
     it_Claims idt = Some (MkClaims email true domain)) \/
  (pc_Enabled (au_GitHub cfg) = true /\ Exchange "github" code verifier = Some tok /\
   exists resp emails, http_Get "https://api.github.com/user/emails" (tk_Access tok) = Ok resp /\ hr_Code resp = 200 /\
     json_Emails (LimitReader (hr_Body resp) (Z.shiftl 1 20)) = Some emails /\
     first_match ge_Primary emails = Some (MkGithubEmail email true true)).

Lemma attested_vouched Exchange cfg a email :
  auth_New cfg = Ok (Some a) -> attested Exchange (resolve a) email -> vouched Exchange cfg email.
Proof.
  intros Hnew (n & code & verifier & nonce & tok & claims & He & Hr & Hv & <-).
  pose proof (auth_New_spec cfg) as Hspec. rewrite Hnew in Hspec. destruct Hspec as (_ & _ & Hlk & _).
  exists code, verifier, tok. unfold resolve in Hr. destruct (an_providers a !! n) as [p|] eqn:Hp; [|done].
  apply Hlk in Hp as [[(Hen & ep & _ & ->)|[Hen ->]] <-]; cbn in Hr, He; [left|right]; (split; [done|]); (split; [done|]).
  - unfold oidcResolver_resolve, oidcVerifier_verify in Hr. destruct (tk_IDToken tok) as [raw|]; [|done].
    destruct (String.eqb raw ""); [done|]. destruct (oidc_Verify _ raw) as [idt|] eqn:Hver; [|done].
    destruct (negb _); [done|]. destruct (it_Claims idt) as [[e v d]|] eqn:Hc; [|done]. injection Hr as <-. cbn in Hv. subst v.
    exists raw, idt, d. done.
  - unfold githubResolver_resolve in Hr. change (TrimRightSlash githubAPIBase +:+ "/user/emails") with "https://api.github.com/user/emails" in Hr.
    destruct (http_Get _ _) as [resp|]; [|done]. destruct (Z.eqb_spec (hr_Code resp) 200) as [Hs|]; [|done]. cbn [negb] in Hr.
    destruct (json_Emails _) as [emails|] eqn:Hj; [|done]. exists resp, emails. split_and!; try done.
    unfold github_claims in Hr. destruct (first_match ge_Primary emails) as [[e pr v]|] eqn:Hf; [|done]. injection Hr as <-.
    cbn in Hv. subst v. apply first_match_Some in Hf as (? & ? & _ & Hpr & _). cbn in Hpr. by subst pr.
Qed.

(** C4: the API serves only known callers.  With the authenticator [auth.New]
    builds, in every state the sign-in handlers can reach, a request is served
    either as an API key that is stored and unexpired, or as the owner of an
    unexpired login session that echoed the session's CSRF token; and then the
    session's address is on the configured admin list and an enabled provider
    vouched for it. *)
Theorem served_callers_are_known : forall url_Parse Exchange AuthCodeURL cfg a keys db now r principal,
  auth_New cfg = Ok (Some a) ->
  rtc (auth_step url_Parse Exchange (resolve a) AuthCodeURL (an_auth a)) (MkIdentityDB ∅ ∅) db ->
  requireAPIAuth (Some (an_auth a)) keys db now r = Ok principal ->
  (exists key rec, bearerToken r = Some key /\ keys !! HashSecret key = Some rec /\
     now <= ak_ExpiresAt rec /\ principal = "apikey:" +:+ ak_Name rec) \/
  (exists cookie s, bearerToken r = None /\ rq_Cookie r = Some cookie /\
     id_sessions db !! sha256_hex cookie = Some s /\ now <= is_ExpiresAt s /\
     rq_CSRF r = is_CSRFToken s /\ principal = is_Email s /\
     ToLower (TrimSpace principal) ∈ lowerSet (ad_Emails (au_Admin cfg)) /\ vouched Exchange cfg principal).
Proof.
  intros url_Parse Exchange AuthCodeURL cfg a keys db now r principal Hnew Hreach Hserved.
  destruct (requireAPIAuth_sound _ _ _ _ _ _ _ _ _ _ Hreach Hserved) as [Hkey|(cookie & s & Hb & Hc & Hs & Hx & Hcsrf & Hp & Hadm & Hatt)];
    [by left|right].
  exists cookie, s. split_and!; try done; [|by apply (attested_vouched _ _ a)].
  pose proof (auth_New_spec cfg) as Hspec. rewrite Hnew in Hspec. destruct Hspec as (_ & _ & _ & _ & _ & <- & _).
  unfold isAdmin in Hadm. destruct (String.eqb principal ""); [done|]. by apply bool_decide_eq_true in Hadm.
Qed.

End New.

(** An administrator signs in with GitHub. *)
Module ProvidersDemo.

#[export] Instance services : IdentityServices := {|
  oidc_NewProvider _ := Err "offline";
  oidc_Verify _ _ := Err "offline";
  http_Get url tok := Ok (MkHttpResponse 200 "200 OK" tok);
  json_Emails s := Some [MkGithubEmail "old@b.c" false true; MkGithubEmail s true true];
|}.

Definition cfg : AuthConfig :=
  MkAuthConfig Hour zeroProvider (MkProviderConfig true "id" "/secret" "https://hub/auth/github/callback" "s") (MkAdminConfig [" A@B.c "]) " example.com ".
Definition authn : authenticator := match auth_New cfg with Ok (Some a) => a | _ => MkAuthn (MkAuthenticator ∅ 0 ∅ "") ∅ [] end.

Definition parse (s : string) : option URL := Some (MkURL "" "" "").
Definition exchange (provider code verifier : string) : option oauthToken := Some (MkOauthToken code None).
Definition code_url (provider state nonce verifier : string) : string := "https://github.com/" +:+ state.
Definition db1 : IdentityDB :=
  (HandleLogin parse code_url (an_auth authn) "github" "/admin" (Some (seqZ 1 32)) (Some (seqZ 2 32)) "pkce" 0 (MkIdentityDB ∅ ∅)).1.
Definition db2 : IdentityDB :=
  (HandleCallback exchange (resolve authn) (an_auth authn) "github" "" (base64url (seqZ 1 32)) "a@b.c" (Some (seqZ 3 32)) (Some (seqZ 4 32)) 1 1 db1).1.

End ProvidersDemo.

Import ProvidersDemo.

Lemma served_callers_are_known_witness : exists principal,
  requireAPIAuth (Some (an_auth authn)) ∅ db2 2 (Auth.MkRequest "" (base64url (seqZ 4 32)) (Some (base64url (seqZ 3 32)))) = Ok principal /\
  principal = "a@b.c" /\ ToLower (TrimSpace principal) ∈ lowerSet (ad_Emails (au_Admin cfg)).
Proof.
  exists "a@b.c". split; [vm_compute; reflexivity|]. split; [reflexivity|].
  destruct (served_callers_are_known parse exchange code_url cfg authn ∅ db2 2
    (Auth.MkRequest "" (base64url (seqZ 4 32)) (Some (base64url (seqZ 3 32)))) "a@b.c")
    as [(key & rec & Hb & _)|(cookie & s & _ & _ & _ & _ & _ & _ & Hin & _)].
  - vm_compute. reflexivity.
  - eapply rtc_l; [apply (StepLogin parse exchange (resolve authn) code_url (an_auth authn) _ "github" "/admin" (Some (seqZ 1 32)) (Some (seqZ 2 32)) "pkce" 0)|].
    eapply rtc_l; [apply (StepCallback parse exchange (resolve authn) code_url (an_auth authn) _ "github" "" (base64url (seqZ 1 32)) "a@b.c" (Some (seqZ 3 32)) (Some (seqZ 4 32)) 1 1)|].
    apply rtc_refl.
  - vm_compute. reflexivity.
  - discriminate Hb.
  - exact Hin.
Defined.
