(* ===== verification/Watcher.v ===== *)
(** * The session watcher of proxied pages (internal/hub/proxy_watcher.go)

    The script put into the HTML documents a box serves, and where it is put.
    Text is bytes; UTF-8 decoding and encoding are those of [unicode/utf8], the
    lower case of runes above 127 is an argument. *)

From S2P Require Import Prelude GoStrings Ingress.

Local Open Scope Z_scope.

(** ** unicode/utf8 *)

Definition byte_val (c : ascii) : Z := Z.of_N (N_of_ascii c).
Definition byte_of (z : Z) : ascii := ascii_of_N (Z.to_N z).
Definition RuneError : Z := 65533.

Definition within (lo hi b : Z) : bool := (lo <=? b) && (b <=? hi).
Definition cont (b : Z) : bool := within 128 191 b.

(** The second bytes allowed after the first of a three- or four-byte sequence. *)
Definition second3 (b0 b1 : Z) : bool :=
  if b0 =? 224 then within 160 191 b1 else if b0 =? 237 then within 128 159 b1 else within 225 239 b0 && cont b1.
Definition second4 (b0 b1 : Z) : bool :=
  if b0 =? 240 then within 144 191 b1 else if b0 =? 244 then within 128 143 b1 else within 241 243 b0 && cont b1.

(** [bytes.Map] and the JSON encoder go through a text rune by rune; a byte that
    starts no rune is [bad]. *)
Fixpoint map_runes (g : Z -> string) (bad s : string) : string :=
  match s with
  | "" => ""
  | String c0 s1 =>
      let b0 := byte_val c0 in
      if b0 <? 128 then g b0 +:+ map_runes g bad s1
      else
        match s1 with
        | "" => bad
        | String c1 s2 =>
            let b1 := byte_val c1 in
            if within 194 223 b0 && cont b1 then g ((b0 - 192) * 64 + (b1 - 128)) +:+ map_runes g bad s2
            else
              match s2 with
              | "" => bad +:+ map_runes g bad s1
              | String c2 s3 =>
                  let b2 := byte_val c2 in
                  if second3 b0 b1 && cont b2 then g (((b0 - 224) * 64 + (b1 - 128)) * 64 + (b2 - 128)) +:+ map_runes g bad s3
                  else
                    match s3 with
                    | "" => bad +:+ map_runes g bad s1
                    | String c3 s4 =>
                        let b3 := byte_val c3 in
                        if second4 b0 b1 && cont b2 && cont b3
                        then g ((((b0 - 240) * 64 + (b1 - 128)) * 64 + (b2 - 128)) * 64 + (b3 - 128)) +:+ map_runes g bad s4
                        else bad +:+ map_runes g bad s1
                    end
              end
        end
  end.

(** [utf8.AppendRune]. *)
Definition AppendRune (r : Z) : string :=
  let tail := fun k => byte_of (128 + (r / 64 ^ k) mod 64) in
  if (0 <=? r) && (r <=? 127) then String (byte_of r) ""
  else if (0 <=? r) && (r <=? 2047) then String (byte_of (192 + r / 64)) (String (tail 0) "")
  else if (r <? 0) || (r >? 1114111) || within 55296 57343 r then String "239" (String "191" (String "189" ""))
  else if r <=? 65535 then String (byte_of (224 + r / 4096)) (String (tail 1) (String (tail 0) ""))
  else String (byte_of (240 + r / 262144)) (String (tail 2) (String (tail 1) (String (tail 0) ""))).

Definition is_ascii (s : string) : bool := string_forallb (fun c => byte_val c <? 128) s.

Section Watcher.
(** [unicode.ToLower] above 127. *)
Context (lower_rune : Z -> Z).

Definition unicode_ToLower (r : Z) : Z := if r <? 128 then byte_val (lower_byte (byte_of r)) else lower_rune r.

(** [bytes.ToLower]. *)
Definition bytes_ToLower (s : string) : string :=
  map_runes (fun r => AppendRune (unicode_ToLower r)) (AppendRune (unicode_ToLower RuneError)) s.

(** ** Splicing *)

Fixpoint Index (s sub : string) : option nat :=
  if HasPrefix s sub then Some O
  else match s with "" => None | String _ s' => S <$> Index s' sub end.

(** [s[:n]] and [s[n:]] together; [None] is the panic of [n > len(s)]. *)
Fixpoint slice_at (n : nat) (s : string) : option (string * string) :=
  match n, s with
  | O, _ => Some ("", s)
  | S _, "" => None
  | S n', String c s' => match slice_at n' s' with Some (a, b) => Some (String c a, b) | None => None end
  end.

Definition splice_index (lower : string) : nat :=
  match Index lower "</head>" with
  | Some at_ => at_
  | None => default O (Index lower "</body>")
  end.

Definition insertBeforeTag (body script : string) : option string :=
  match slice_at (splice_index (bytes_ToLower body)) body with
  | Some (a, b) => Some (a +:+ script +:+ b)
  | None => None
  end.

Record Response := MkResponse {
  rs_StatusCode : Z;
  rs_ContentType : string;
  rs_ContentEncoding : string;
  rs_ContentLengthHeader : string;
  rs_ContentLength : Z;
  rs_Body : option string;
}.

Inductive injected := InjectPanics | InjectError (resp : Response) | Injected (resp : Response).

Definition media_type (ct : string) : string :=
  match IndexByte ct ";" with Some i => String.substring 0 i ct | None => ct end.

(** Whether a response is a page the watcher goes into. *)
Definition watched (resp : Response) : bool :=
  negb ((rs_StatusCode resp <? 200) || (rs_StatusCode resp >=? 300)) &&
  EqualFold (TrimSpace (media_type (rs_ContentType resp))) "text/html" && String.eqb (rs_ContentEncoding resp) "".

(** [rs_Body] is [None] when reading it fails. *)
Definition injectSessionWatcher (resp : Response) (script : string) : injected :=
  if negb (watched resp) then Injected resp
  else
    match rs_Body resp with
    | None => InjectError resp
    | Some body =>
        match insertBeforeTag body script with
        | None => InjectPanics
        | Some out =>
            let n := Z.of_nat (String.length out) in
            Injected (MkResponse (rs_StatusCode resp) (rs_ContentType resp) (rs_ContentEncoding resp) (Itoa n) n (Some out))
        end
    end.
End Watcher.

(** ** The script *)

Definition quoted (s : string) : string := String "034" (s +:+ String "034" "").
Definition hex4 (r : Z) : string :=
  let d := fun k => upper_hex ((r / 16 ^ k) mod 16) in ToLower (String (d 3) (String (d 2) (String (d 1) (String (d 0) "")))).
Definition backslash (s : string) : string := String "092" s.

(** [json.Marshal] of a string, with the escaping of HTML. *)
Definition json_rune (r : Z) : string :=
  if r <? 128 then
    if r =? 34 then backslash (String "034" "")
    else if r =? 92 then backslash (backslash "")
    else if r =? 8 then backslash "b" else if r =? 12 then backslash "f" else if r =? 10 then backslash "n"
    else if r =? 13 then backslash "r" else if r =? 9 then backslash "t"
    else if (r <? 32) || (r =? 60) || (r =? 62) || (r =? 38) then backslash ("u" +:+ hex4 r)
    else String (byte_of r) ""
  else if (r =? 8232) || (r =? 8233) then backslash ("u" +:+ hex4 r)
  else AppendRune r.

Definition json_Marshal (s : string) : string := quoted (map_runes json_rune (backslash "ufffd") s).

Definition defaultProxyAuthCheckInterval : Z := 15 * Second.

Definition sessionWatcherScript (interval : Z) (pb : Public) (r : ProxyRequest) : string :=
  let interval := if interval <=? 0 then defaultProxyAuthCheckInterval else interval in
  "<script>(function(){
try{
var signInURL=" +:+ json_Marshal (signInURL pb r) +:+ ",checkPath=" +:+ json_Marshal proxyAuthCheckPath +:+ ",intervalMS=" +:+ Itoa (interval / Millisecond) +:+ ",redirecting=false;
function toSignIn(){if(redirecting)return;redirecting=true;window.location.href=signInURL;}
function check(){fetch(checkPath,{credentials:" +:+ quoted "same-origin" +:+ ",cache:" +:+ quoted "no-store" +:+ ",headers:{" +:+ quoted "X-Requested-With" +:+ ":" +:+ quoted "llmbox-session-watcher" +:+ "}}).then(function(resp){if(resp.status===401)toSignIn();}).catch(function(){});}
setInterval(check,intervalMS);
window.addEventListener(" +:+ quoted "focus" +:+ ",check);
document.addEventListener(" +:+ quoted "visibilitychange" +:+ ",function(){if(!document.hidden)check();});
}catch(e){}
})();</script>".

(** ** Splicing into plain text *)

Lemma byte_of_val c : byte_of (byte_val c) = c.
Proof. unfold byte_of, byte_val. rewrite N2Z.id. apply ascii_N_embedding. Qed.

Lemma byte_val_range c : 0 <= byte_val c < 256.
Proof. unfold byte_val. pose proof (N_ascii_bounded c). lia. Qed.

Lemma lower_ascii c : byte_val c < 128 -> byte_val (lower_byte c) < 128.
Proof. intros Hc. destruct c as [[] [] [] [] [] [] [] []]; vm_compute in Hc |- *; congruence. Qed.

Lemma bytes_ToLower_ascii lr s : is_ascii s = true -> bytes_ToLower lr s = ToLower s.
Proof.
  unfold bytes_ToLower. induction s as [|c s IH]; [done|]. unfold is_ascii. cbn [string_forallb]. intros Hs. bools.
  cbn [map_runes]. replace (byte_val c <? 128) with true by lia. rewrite ToLower_cons. rewrite IH by done.
  unfold unicode_ToLower. replace (byte_val c <? 128) with true by lia. rewrite byte_of_val.
  unfold AppendRune. pose proof (byte_val_range (lower_byte c)). pose proof (lower_ascii c ltac:(lia)).
  replace (_ && _) with true by lia. rewrite byte_of_val. by rewrite sapp_cons.
Qed.

Lemma slice_at_spec n s : (n <= String.length s)%nat -> exists a b, slice_at n s = Some (a, b) /\ s = a +:+ b /\ String.length a = n.
Proof.
  revert s. induction n as [|n IH]; intros s Hn; [by exists "", s|]. destruct s as [|c s]; cbn in *; [lia|].
  destruct (IH s) as (a & b & -> & -> & Hl); [lia|]. exists (String c a), b. cbn. by rewrite sapp_cons, Hl.
Qed.

Lemma Index_bound s sub i : Index s sub = Some i -> (i + String.length sub <= String.length s)%nat.
Proof.
  revert i. induction s as [|c s IH]; intros i; cbn [Index]; destruct (HasPrefix _ sub) eqn:Hp.
  1, 3: intros [= <-]; apply HasPrefix_spec in Hp as [q Hq]; rewrite Hq, slength_app; lia.
  - done.
  - destruct (Index s sub) as [j|]; [|done]. intros [= <-]. specialize (IH j eq_refl). cbn. lia.
Qed.


Lemma ToLower_length s : String.length (ToLower s) = String.length s.
Proof. induction s as [|c s IH]; [done|]. rewrite ToLower_cons. cbn. by rewrite IH. Qed.

(** The first place where a tag starts. *)
Definition before_first (tag s a b : string) : Prop :=
  s = a +:+ b /\ HasPrefix b tag = true /\
  forall a' b', s = a' +:+ b' -> HasPrefix b' tag = true -> (String.length a <= String.length a')%nat.

Lemma Index_spec s tag :
  match Index s tag with
  | Some i => exists a b, before_first tag s a b /\ String.length a = i
  | None => forall a b, s = a +:+ b -> HasPrefix b tag = false
  end.
Proof.
  induction s as [|c s IH]; cbn [Index]; destruct (HasPrefix _ tag) eqn:Hp.
  1, 3: eexists "", _; split; [split; [reflexivity|]; split; [exact Hp|]; intros; cbn; lia|done].
  - intros a b Hab. destruct a, b; try done.
  - destruct (Index s tag) as [i|]; cbn.
    + destruct IH as (a & b & (-> & Hb & Hmin) & Hl). exists (String c a), b. split; [|cbn; by rewrite Hl]. split; [by rewrite sapp_cons|].
      split; [done|]. intros [|c' a'] b' Hab Hb'; [rewrite sapp_nil_l in Hab; congruence|]. rewrite sapp_cons in Hab.
      injection Hab as -> Hab. cbn. specialize (Hmin _ _ Hab Hb'). lia.
    + intros [|c' a] b Hab; [rewrite sapp_nil_l in Hab; congruence|]. rewrite sapp_cons in Hab. injection Hab as -> Hab. by eapply IH.
Qed.

Lemma sapp_length_inj a b a' b' : a +:+ b = a' +:+ b' -> String.length a = String.length a' -> a = a' /\ b = b'.
Proof.
  revert a'. induction a as [|c a IH]; intros [|c' a'] He Hl; try done. rewrite !sapp_cons in He. injection He as -> He.
  injection Hl as Hl. by destruct (IH a' He Hl) as [-> ->].
Qed.

(** Where the script goes in a page: before the first closing head tag, else
    before the first closing body tag, else at the start. *)
Definition spliced (body script out : string) : Prop :=
  exists a b, body = a +:+ b /\ out = a +:+ script +:+ b /\
    (before_first "</head>" (ToLower body) (ToLower a) (ToLower b) \/
     Contains (ToLower body) "</head>" = false /\
       (before_first "</body>" (ToLower body) (ToLower a) (ToLower b) \/ Contains (ToLower body) "</body>" = false /\ a = "")).

Lemma Index_None_Contains s tag : Index s tag = None -> Contains s tag = false.
Proof.
  induction s as [|c s IH]; cbn [Index Contains]; destruct (HasPrefix _ tag); try done.
  destruct (Index s tag); [done|]. intros _. by apply IH.
Qed.

Lemma insertBeforeTag_ascii lr body script :
  is_ascii body = true -> exists out, insertBeforeTag lr body script = Some out /\ spliced body script out.
Proof.
  intros Ha. unfold insertBeforeTag. rewrite bytes_ToLower_ascii by done. unfold splice_index.
  assert (Hcut : forall tag i, Index (ToLower body) tag = Some i -> exists a b, slice_at i body = Some (a, b) /\ body = a +:+ b /\
    before_first tag (ToLower body) (ToLower a) (ToLower b)).
  { intros tag i Hi. pose proof (Index_spec (ToLower body) tag) as Hs. rewrite Hi in Hs. destruct Hs as (a' & b' & Hb & Hl).
    assert (Hle := Index_bound _ _ _ Hi). rewrite ToLower_length in Hle.
    destruct (slice_at_spec i body) as (a & b & Hsl & -> & Hla); [lia|]. exists a, b. split; [done|]. split; [done|].
    rewrite ToLower_app in Hb. destruct (sapp_length_inj (ToLower a) (ToLower b) a' b') as [<- <-]; [by destruct Hb|by rewrite ToLower_length, Hla|].
    by rewrite ToLower_app. }
  destruct (Index (ToLower body) "</head>") as [i|] eqn:Hh.
  - destruct (Hcut _ _ Hh) as (a & b & -> & Hab & Hbf). eexists. split; [done|]. exists a, b. auto.
  - apply Index_None_Contains in Hh. destruct (Index (ToLower body) "</body>") as [i|] eqn:Hb.
    + change (default 0%nat (Some i)) with i. destruct (Hcut _ _ Hb) as (a & b & -> & Hab & Hbf).
      eexists. split; [done|]. exists a, b. auto 6.
    + apply Index_None_Contains in Hb. cbn [slice_at default]. eexists. split; [done|]. exists "", body. split; [done|]. split; [done|]. right. split; [done|]. by right.
Qed.

(** ** The script stays a script *)

Fixpoint count_byte (c : ascii) (s : string) : nat :=
  match s with
  | "" => O
  | String d s' => ((if Ascii.eqb c d then 1 else 0) + count_byte c s')%nat
  end.

Lemma count_byte_app c s t : count_byte c (s +:+ t) = (count_byte c s + count_byte c t)%nat.
Proof. induction s as [|d s IH]; [done|]. rewrite sapp_cons. cbn. rewrite IH. lia. Qed.

Lemma count_high c z : 128 <= z < 256 -> Ascii.eqb "<" (byte_of z) = false \/ c <> "<"%char.
Proof.
  intros Hz. left. assert (Hall : forallb (fun z => negb (Ascii.eqb "<" (byte_of z))) (seqZ 128 128) = true) by (vm_compute; reflexivity).
  rewrite forallb_forall in Hall. specialize (Hall z). rewrite <- list_elem_of_In, elem_of_seqZ in Hall. specialize (Hall ltac:(lia)). by bools.
Qed.

Lemma high_byte z : 128 <= z < 256 -> Ascii.eqb "<" (byte_of z) = false.
Proof. intros Hz. by destruct (count_high "<" z Hz). Qed.

Lemma json_rune_no_lt r : 0 <= r < 2097152 -> count_byte "<" (json_rune r) = O.
Proof.
  intros Hr. destruct (Z.ltb_spec r 128).
  - assert (Hall : forallb (fun r => Nat.eqb (count_byte "<" (json_rune r)) 0) (seqZ 0 128) = true) by (vm_compute; reflexivity).
    rewrite forallb_forall in Hall. specialize (Hall r). rewrite <- list_elem_of_In, elem_of_seqZ in Hall. specialize (Hall ltac:(lia)).
    by apply Nat.eqb_eq in Hall.
  - unfold json_rune. replace (r <? 128) with false by lia. destruct (_ || _) eqn:Hu.
    { apply orb_true_iff in Hu as [->%Z.eqb_eq| ->%Z.eqb_eq]; reflexivity. }
    unfold AppendRune. replace ((0 <=? r) && (r <=? 127)) with false by lia.
    assert (Ht : forall k, 128 <= 128 + (r / 64 ^ k) mod 64 < 256) by (intros k; pose proof (Z.mod_pos_bound (r / 64 ^ k) 64); lia).
    assert (Hd : forall k m, 0 < k -> r < k * m -> 0 <= r / k < m) by (intros k m Hk Hm; split; [apply Z.div_pos; lia|apply Z.div_lt_upper_bound; lia]).
    destruct ((0 <=? r) && (r <=? 2047)) eqn:H2; [|destruct ((r <? 0) || _ || _) eqn:H3; [done|destruct (Z.leb_spec r 65535)]];
      cbn [count_byte]; rewrite !high_byte; try done; try apply Ht.
    + pose proof (Hd 64 32 ltac:(lia)). lia.
    + pose proof (Hd 4096 16 ltac:(lia)). lia.
    + pose proof (Hd 262144 8 ltac:(lia)). lia.
Qed.

Lemma map_runes_count g bad s :
  (forall r, 0 <= r < 2097152 -> count_byte "<" (g r) = O) -> count_byte "<" bad = O -> count_byte "<" (map_runes g bad s) = O.
Proof.
  intros Hg Hbad. induction s as [s IH] using (induction_ltof1 _ String.length). unfold ltof in IH.
  destruct s as [|c0 s1]; [done|]. cbn [map_runes]. pose proof (byte_val_range c0).
  destruct (Z.ltb_spec (byte_val c0) 128); [rewrite count_byte_app, Hg, IH; [done|cbn; lia|lia]|].
  assert (Hbad1 : count_byte "<" (bad +:+ map_runes g bad s1) = O) by (rewrite count_byte_app, Hbad, IH; [done|cbn; lia]).
  destruct s1 as [|c1 s2]; [done|]. pose proof (byte_val_range c1).
  destruct (within 194 223 (byte_val c0) && cont (byte_val c1)) eqn:E2.
  { rewrite count_byte_app, Hg, IH; [done|cbn; lia|]. unfold cont, within in E2. bools. lia. }
  destruct s2 as [|c2 s3]; [done|]. pose proof (byte_val_range c2).
  destruct (second3 _ _ && cont _) eqn:E3.
  { rewrite count_byte_app, Hg, IH; [done|cbn; lia|]. unfold second3, cont, within in E3.
    repeat match type of E3 with context [if ?b then _ else _] => destruct b eqn:? end; bools; lia. }
  destruct s3 as [|c3 s4]; [done|]. pose proof (byte_val_range c3).
  destruct (second4 _ _ && cont _ && cont _) eqn:E4; [|done].
  rewrite count_byte_app, Hg, IH; [done|cbn; lia|]. unfold second4, cont, within in E4.
  repeat match type of E4 with context [if ?b then _ else _] => destruct b eqn:? end; bools; lia.
Qed.

Lemma json_Marshal_no_lt s : count_byte "<" (json_Marshal s) = O.
Proof.
  unfold json_Marshal, quoted. cbn [count_byte]. rewrite count_byte_app, map_runes_count; [done|apply json_rune_no_lt|done].
Qed.

Lemma digits_no_lt fuel n acc : 0 <= n -> count_byte "<" acc = O -> count_byte "<" (digits_of fuel n acc) = O.
Proof.
  revert n acc. induction fuel as [|fuel IH]; intros n acc Hn Ha; [done|]. cbn [digits_of].
  assert (Hd : count_byte "<" (String (digit_byte (n mod 10)) acc) = O).
  { cbn [count_byte]. rewrite Ha. assert (Hall : forallb (fun d => negb (Ascii.eqb "<" (digit_byte d))) (seqZ 0 10) = true) by (vm_compute; reflexivity).
    rewrite forallb_forall in Hall. specialize (Hall (n mod 10)). rewrite <- list_elem_of_In, elem_of_seqZ in Hall.
    pose proof (Z.mod_pos_bound n 10). specialize (Hall ltac:(lia)). bools. by destruct (Ascii.eqb _ _). }
  destruct (n <? 10); [done|]. apply IH; [|done]. apply Z.div_pos; lia.
Qed.

Lemma HasSuffix_right s t p : HasSuffix t p = true -> HasSuffix (s +:+ t) p = true.
Proof. rewrite !HasSuffix_spec. intros [q ->]. exists (s +:+ q). by rewrite sapp_assoc. Qed.

(** Whatever the host and the path of the request, the values put into the script
    contain no opening bracket: the element has its own start tag and end tag and
    no other, and nothing of the request is read as markup. *)
Lemma script_has_own_tags interval pb r :
  count_byte "<" (sessionWatcherScript interval pb r) = 2%nat /\
  HasPrefix (sessionWatcherScript interval pb r) "<script>" = true /\ HasSuffix (sessionWatcherScript interval pb r) "</script>" = true.
Proof.
  unfold sessionWatcherScript. set (n := (if interval <=? 0 then _ else _) / Millisecond).
  assert (Hn : 0 <= n) by (apply Z.div_pos; [destruct (Z.leb_spec interval 0); unfold defaultProxyAuthCheckInterval, Second, Millisecond, Nanosecond; lia|done]).
  assert (Hi : count_byte "<" (Itoa n) = O) by (unfold Itoa; replace (n <? 0) with false by lia; by apply digits_no_lt).
  split.
  - rewrite !count_byte_app, !json_Marshal_no_lt, Hi. reflexivity.
  - split; [reflexivity|]. repeat (reflexivity || apply HasSuffix_right).
Qed.

(** A response that is no page is passed on; into an ASCII page goes the one
    script element, whose values cannot be read as markup, before the first
    closing head tag, and the length of the result is announced. *)
Theorem watcher_injection lr interval pb r resp body :
  rs_Body resp = Some body -> is_ascii body = true ->
  let script := sessionWatcherScript interval pb r in
  count_byte "<" script = 2%nat /\
  if watched resp then
    exists out, spliced body script out /\
      injectSessionWatcher lr resp script =
        Injected (MkResponse (rs_StatusCode resp) (rs_ContentType resp) (rs_ContentEncoding resp)
          (Itoa (Z.of_nat (String.length out))) (Z.of_nat (String.length out)) (Some out))
  else injectSessionWatcher lr resp script = Injected resp.
Proof.
  intros Hb Ha script. split; [apply script_has_own_tags|]. unfold injectSessionWatcher. destruct (watched resp); [|done]. cbn [negb].
  rewrite Hb. destruct (insertBeforeTag_ascii lr body script Ha) as (out & -> & Hs). by exists out.
Qed.

Definition page (body : string) : Response := MkResponse 200 "text/html; charset=utf-8" "" "" 0 (Some body).

Lemma watcher_injection_witness :
  exists out, spliced "<html><HEAD></HEAD><body>" (sessionWatcherScript 0 (MkPublic "https://hub" "") (MkProxyRequest "GET" "x.y" "/" "/" "" "text/html" None)) out.
Proof.
  destruct (watcher_injection id 0 (MkPublic "https://hub" "") (MkProxyRequest "GET" "x.y" "/" "/" "" "text/html" None)
    (page "<html><HEAD></HEAD><body>") "<html><HEAD></HEAD><body>" eq_refl eq_refl) as [_ Hw].
  change (watched (page "<html><HEAD></HEAD><body>")) with true in Hw. destruct Hw as (out & Hs & _). exists out. exact Hs.
Defined.

(** The place is found in the lower-cased text, whose length differs from the
    page's when the page is not UTF-8: a short page in Latin-1 makes the slice
    panic, a longer one gets the script at a wrong place. *)
Definition latin1_e : ascii := "233".
Fixpoint accents (n : nat) (s : string) : string := match n with O => s | S n' => String latin1_e (accents n' s) end.

Example latin1_page_panics : injectSessionWatcher id (page (accents 4 "</head>")) "<script></script>" = InjectPanics.
Proof. vm_compute. reflexivity. Qed.

Example latin1_page_misplaces :
  insertBeforeTag id (accents 2 "</head><body></body>") "<script></script>" = Some (accents 2 "</he<script></script>ad><body></body>").
Proof. vm_compute. reflexivity. Qed.
