(* ===== verification/Api.v ===== *)
(** * The box-control API (internal/shared/api, internal/hub/backend.go)

    The operations of a hub as an interface ([call]), the JSON-over-HTTP handler
    that serves an implementation, the client that is an implementation over a
    transport, and the hub's own implementation [apiBackend] over the registry.
    JSON coding of the wire structs and the text of durations are classes. *)

From S2P Require Import Prelude GoStrings Sandbox Store Sha256 Enroll Auth Remote Registry Boxes Ingress Config.

Local Open Scope Z_scope.
Local Open Scope go_scope.

(** ** The data of the API *)

Record BoxSession := MkBoxSession { bs_BoxID : string; bs_Generation : string; bs_Description : string }.
Record ProxyInfo := MkProxyInfo {
  pi_BoxID : string; pi_Port : Z; pi_URL : string; pi_Slug : string; pi_Spoke : string; pi_Description : string }.
Record ProxyPing := MkProxyPing { pg_OK : bool; pg_Status : Z; pg_LatencyMs : Z; pg_Error : string }.
Record SpokeStatus := MkSpokeStatus { st_Name : string; st_Connected : bool; st_Default : bool; st_EnrolledAt : Z }.
Record BoxView := MkBoxView { bv_Box : Box }.
Record SpokeEnrollment := MkSpokeEnrollment { se_Name : string; se_Token : string; se_Command : string }.
Record TokenInfo := MkTokenInfo { ti_ID : string; ti_Name : string; ti_Backend : string; ti_Command : string; ti_ExpiresAt : Z }.

Definition TokenPlaceholder : string := "<one-time-token>".

(** The methods of [Backend] with their arguments; the index is the result. *)
Inductive call : Type -> Type :=
| CallCreateBox (opts : CreateOptions) : call BoxSession
| CallLookupByBoxID (boxID : string) : call (BoxSession * bool)
| CallListBoxes : call (list BoxView)
| CallSpokeStatuses : call (list SpokeStatus)
| CallCreateSpoke (name backend : string) (ttl : Z) : call SpokeEnrollment
| CallDropSpoke (name : string) : call ()
| CallSetDefaultSpoke (name : string) : call ()
| CallListJoinTokens : call (list TokenInfo)
| CallRevokeJoinToken (id : string) : call ()
| CallRegenerateJoinToken (id : string) : call SpokeEnrollment
| CallDestroyBox (boxID : string) : call ()
| CallPauseBox (boxID : string) : call ()
| CallResumeBox (boxID : string) : call ()
| CallBoxExec (boxID command : string) : call ExecResult
| CallProxyEnabled : call bool
| CallCreateProxy (boxID : string) (port : Z) (description : string) : call ProxyInfo
| CallDeleteProxy (boxID : string) (port : Z) : call ()
| CallListProxies (boxID : string) : call (list ProxyInfo)
| CallPingProxy (boxID : string) (port : Z) : call ProxyPing.

(** An implementation: a call on behalf of a principal, on a state; an error is
    its text. *)
Definition Backend (S : Type) : Type := forall A, string -> call A -> go S string A.

(** ** The wire *)

Definition PathCreateBox : string := "/api/v1/create-box".
Definition PathLookupBox : string := "/api/v1/lookup-box".
Definition PathListBoxes : string := "/api/v1/list-boxes".
Definition PathSpokeStatuses : string := "/api/v1/spoke-statuses".
Definition PathCreateSpoke : string := "/api/v1/create-spoke".
Definition PathDropSpoke : string := "/api/v1/drop-spoke".
Definition PathSetDefaultSpoke : string := "/api/v1/set-default-spoke".
Definition PathListJoinTokens : string := "/api/v1/list-join-tokens".
Definition PathRevokeJoinToken : string := "/api/v1/revoke-join-token".
Definition PathRegenerateJoinToken : string := "/api/v1/regenerate-join-token".
Definition PathDestroyBox : string := "/api/v1/destroy-box".
Definition PathPauseBox : string := "/api/v1/pause-box".
Definition PathResumeBox : string := "/api/v1/resume-box".
Definition PathBoxExec : string := "/api/v1/box-exec".
Definition PathProxyEnabled : string := "/api/v1/proxy-enabled".
Definition PathCreateProxy : string := "/api/v1/create-proxy".
Definition PathDeleteProxy : string := "/api/v1/delete-proxy".
Definition PathListProxies : string := "/api/v1/list-proxies".
Definition PathPingProxy : string := "/api/v1/ping-proxy".

Record createSpokeRequest := MkCreateSpokeRequest { cq_Name : string; cq_Backend : string; cq_TTL : string }.
Record boxExecRequest := MkBoxExecRequest { xq_BoxID : string; xq_Command : string }.
Record createProxyRequest := MkCreateProxyRequest { pq_BoxID : string; pq_Port : Z; pq_Description : string }.
Record boxPortRequest := MkBoxPortRequest { bq_BoxID : string; bq_Port : Z }.
Record lookupBoxResponse := MkLookupBoxResponse { lr_Session : BoxSession; lr_Found : bool }.

(** The struct types of the wire: [WText] are the requests with one text field
    (a box id, a name or a token id) and the error response, [WBoxPort] the
    requests with a box id and a port. *)
Inductive wty :=
| WEmpty | WText | WCreateBoxRequest | WCreateSpokeRequest | WBoxExecRequest | WCreateProxyRequest | WBoxPort
| WSession | WLookup | WBoxes | WSpokes | WSpoke | WTokens | WResult | WEnabled | WProxy | WProxies | WPing.

Definition wval (t : wty) : Type :=
  match t with
  | WEmpty => () | WText => string | WCreateBoxRequest => CreateOptions | WCreateSpokeRequest => createSpokeRequest
  | WBoxExecRequest => boxExecRequest | WCreateProxyRequest => createProxyRequest | WBoxPort => boxPortRequest
  | WSession => BoxSession | WLookup => lookupBoxResponse | WBoxes => list BoxView | WSpokes => list SpokeStatus
  | WSpoke => SpokeEnrollment | WTokens => list TokenInfo | WResult => ExecResult | WEnabled => bool
  | WProxy => ProxyInfo | WProxies => list ProxyInfo | WPing => ProxyPing
  end.

(** The zero value a request without a body decodes to. *)
Definition wzero (t : wty) : option (wval t) :=
  match t with
  | WEmpty => Some () | WText => Some ""
  | WCreateBoxRequest => Some (MkCreateOptions "" "" "" [] 0)
  | WCreateSpokeRequest => Some (MkCreateSpokeRequest "" "" "")
  | WBoxExecRequest => Some (MkBoxExecRequest "" "")
  | WCreateProxyRequest => Some (MkCreateProxyRequest "" 0 "")
  | WBoxPort => Some (MkBoxPortRequest "" 0)
  | _ => None
  end.

(** [encoding/json] on these structs, and the text form of durations. *)
Class Wire := {
  w_encode : forall t, wval t -> option string;
  w_decode : forall t, string -> option (wval t);
  Duration_String : Z -> string;
  ParseDuration : string -> option Z;
}.

(** Decoding undoes encoding of the values JSON carries ([clean] excludes text
    that is not UTF-8, which the encoder rewrites, and years past 9999, which it
    refuses); a document is never empty; parsing undoes the text of a duration. *)
Class WireLaws `{Wire} := {
  w_clean : forall t, wval t -> Prop;
  decode_encode : forall t v, w_clean t v -> exists b, w_encode t v = Some b /\ b <> "" /\ w_decode t b = Some v;
  ParseDuration_String : forall d, ParseDuration (Duration_String d) = Some d;
  Duration_String_ne : forall d, Duration_String d <> "";
}.

(** The parts of a request and of a response that are used. *)
Record httpRequest := MkHttpRequest { hq_Method : string; hq_Path : string; hq_Headers : Auth.Request; hq_Body : string }.
Record httpResponse := MkHttpResponse { hr_StatusCode : Z; hr_Body : string }.

Definition StatusText (code : Z) : string :=
  if code =? 200 then "OK" else if code =? 400 then "Bad Request" else if code =? 401 then "Unauthorized"
  else if code =? 403 then "Forbidden" else if code =? 404 then "Not Found" else if code =? 405 then "Method Not Allowed"
  else if code =? 500 then "Internal Server Error" else "".

(** [Response.Status]. *)
Definition status_line (code : Z) : string := Itoa code +:+ " " +:+ StatusText code.

Section Handler.
Context `{Wire} {S : Type}.

(** An encoding error leaves the body empty. *)
Definition writeJSON (t : wty) (status : Z) (v : wval t) : httpResponse := MkHttpResponse status (default "" (w_encode t v)).
Definition writeError (status : Z) (msg : string) : httpResponse := writeJSON WText status msg.

Definition jsonHandler (Req Resp : wty) (fn : wval Req -> go S string (wval Resp)) (r : httpRequest) : S -> S * httpResponse :=
  fun s =>
    match (if String.eqb (hq_Body r) "" then wzero Req else w_decode Req (hq_Body r)) with
    | None => (s, writeError 400 "decoding request")
    | Some req =>
        match fn req s with
        | (s', Err e) => (s', writeError 500 e)
        | (s', Ok resp) => (s', writeJSON Resp 200 resp)
        end
    end.

(** The function of the create-spoke route. *)
Definition serve_create_spoke (b : Backend S) (p : string) (req : createSpokeRequest) : go S string SpokeEnrollment :=
  fun s =>
    match (if String.eqb (cq_TTL req) "" then Some 0 else ParseDuration (cq_TTL req)) with
    | None => (s, Err ("invalid ttl " +:+ cq_TTL req))
    | Some ttl => b _ p (CallCreateSpoke (cq_Name req) (cq_Backend req) ttl) s
    end.

(** The result of a lookup with its flag as one struct. *)
Definition serve_lookup (b : Backend S) (p : string) (boxID : string) : go S string lookupBoxResponse :=
  let* r := b _ p (CallLookupByBoxID boxID) in go_ret (MkLookupBoxResponse r.1 r.2).

(** The routes of [NewHandler]; [p] is the principal of the context. *)
Definition routes (b : Backend S) (p : string) : list (string * (httpRequest -> S -> S * httpResponse)) :=
  [(PathCreateBox, jsonHandler WCreateBoxRequest WSession (fun opts => b _ p (CallCreateBox opts)));
   (PathLookupBox, jsonHandler WText WLookup (serve_lookup b p));
   (PathListBoxes, jsonHandler WEmpty WBoxes (fun _ => b _ p CallListBoxes));
   (PathSpokeStatuses, jsonHandler WEmpty WSpokes (fun _ => b _ p CallSpokeStatuses));
   (PathCreateSpoke, jsonHandler WCreateSpokeRequest WSpoke (serve_create_spoke b p));
   (PathDropSpoke, jsonHandler WText WEmpty (fun name => b _ p (CallDropSpoke name)));
   (PathSetDefaultSpoke, jsonHandler WText WEmpty (fun name => b _ p (CallSetDefaultSpoke name)));
   (PathListJoinTokens, jsonHandler WEmpty WTokens (fun _ => b _ p CallListJoinTokens));
   (PathRevokeJoinToken, jsonHandler WText WEmpty (fun id => b _ p (CallRevokeJoinToken id)));
   (PathRegenerateJoinToken, jsonHandler WText WSpoke (fun id => b _ p (CallRegenerateJoinToken id)));
   (PathDestroyBox, jsonHandler WText WEmpty (fun id => b _ p (CallDestroyBox id)));
   (PathPauseBox, jsonHandler WText WEmpty (fun id => b _ p (CallPauseBox id)));
   (PathResumeBox, jsonHandler WText WEmpty (fun id => b _ p (CallResumeBox id)));
   (PathBoxExec, jsonHandler WBoxExecRequest WResult (fun q => b _ p (CallBoxExec (xq_BoxID q) (xq_Command q))));
   (PathProxyEnabled, jsonHandler WEmpty WEnabled (fun _ => b _ p CallProxyEnabled));
   (PathCreateProxy, jsonHandler WCreateProxyRequest WProxy
      (fun q => b _ p (CallCreateProxy (pq_BoxID q) (pq_Port q) (pq_Description q))));
   (PathDeleteProxy, jsonHandler WBoxPort WEmpty (fun q => b _ p (CallDeleteProxy (bq_BoxID q) (bq_Port q))));
   (PathListProxies, jsonHandler WText WProxies (fun id => b _ p (CallListProxies id)));
   (PathPingProxy, jsonHandler WBoxPort WPing (fun q => b _ p (CallPingProxy (bq_BoxID q) (bq_Port q))))].

(** [http.ServeMux] on patterns with a method and a fixed path. *)
Definition NewHandler (b : Backend S) (p : string) (r : httpRequest) : S -> S * httpResponse :=
  match first_match (fun rt => String.eqb rt.1 (hq_Path r)) (routes b p) with
  | None => fun s => (s, MkHttpResponse 404 "404 page not found")
  | Some rt => if String.eqb (hq_Method r) "POST" then rt.2 r else fun s => (s, MkHttpResponse 405 "Method Not Allowed")
  end.

(** ** The hub's gate ([requireAPIAuth] around the handler in [APIHandler]) *)

(** The message of a refusal. *)
Definition refusal (db : IdentityDB) (now code : Z) (r : Auth.Request) : string :=
  match bearerToken r with
  | Some _ => "invalid or expired API key"
  | None =>
      if code =? 403 then
        match CurrentLogin (rq_Cookie r) now db with
        | Some ls => if negb (is_CanAdmin ls) then "not an administrator" else "invalid or missing X-CSRF-Token header"
        | None => ""
        end
      else "authentication required: pass an API key as a bearer token, or sign in"
  end.

Definition serve_api (a : option Authenticator) (keys : KeyTable) (db : IdentityDB) (now : Z) (b : Backend S) (r : httpRequest)
    : S -> S * httpResponse :=
  match requireAPIAuth a keys db now (hq_Headers r) with
  | Err code => fun s => (s, writeError code (refusal db now code (hq_Headers r)))
  | Ok principal => NewHandler b principal r
  end.
End Handler.

(** ** The client *)

(** [base] only selects the server; the transport is the connection to it. *)
Record Client := MkClient { cl_base : string; cl_apiKey : string }.

Definition NewClient (baseURL : string) : Client := MkClient (TrimRightSlash baseURL) "".
Definition SetAPIKey (key : string) (c : Client) : Client := MkClient (cl_base c) key.

Section Client.
Context `{Wire} {S : Type} (transport : string -> httpRequest -> S -> S * option httpResponse).

Definition post (Req Resp : wty) (c : Client) (path : string) (req : wval Req) : go S string (wval Resp) :=
  fun s =>
    match w_encode Req req with
    | None => (s, Err "encoding request")
    | Some body =>
        let auth := if String.eqb (cl_apiKey c) "" then "" else "Bearer " +:+ cl_apiKey c in
        match transport (cl_base c +:+ path) (MkHttpRequest "POST" path (Auth.MkRequest auth "" None) body) s with
        | (s', None) => (s', Err ("calling " +:+ path))
        | (s', Some resp) =>
            if hr_StatusCode resp =? 200 then
              match w_decode Resp (hr_Body resp) with
              | Some v => (s', Ok v)
              | None => (s', Err ("decoding response from " +:+ path))
              end
            else
              let msg := default "" (w_decode WText (hr_Body resp)) in
              (s', Err (if String.eqb msg "" then status_line (hr_StatusCode resp) else msg))
        end
    end.

(** The two methods without an error: a failure is a miss. *)
Definition or_miss {A B} (miss : B) (f : A -> B) (m : go S string A) : go S string B :=
  fun s => match m s with (s', Ok a) => (s', Ok (f a)) | (s', Err _) => (s', Ok miss) end.

Definition ClientBackend (c : Client) : Backend S := fun A _ k =>
  match k in call A return go S string A with
  | CallCreateBox opts => post WCreateBoxRequest WSession c PathCreateBox opts
  | CallLookupByBoxID boxID =>
      or_miss (MkBoxSession "" "" "", false) (fun r => (lr_Session r, lr_Found r)) (post WText WLookup c PathLookupBox boxID)
  | CallListBoxes => post WEmpty WBoxes c PathListBoxes ()
  | CallSpokeStatuses => post WEmpty WSpokes c PathSpokeStatuses ()
  | CallCreateSpoke name backend ttl =>
      post WCreateSpokeRequest WSpoke c PathCreateSpoke
        (MkCreateSpokeRequest name backend (if 0 <? ttl then Duration_String ttl else ""))
  | CallDropSpoke name => post WText WEmpty c PathDropSpoke name
  | CallSetDefaultSpoke name => post WText WEmpty c PathSetDefaultSpoke name
  | CallListJoinTokens => post WEmpty WTokens c PathListJoinTokens ()
  | CallRevokeJoinToken id => post WText WEmpty c PathRevokeJoinToken id
  | CallRegenerateJoinToken id => post WText WSpoke c PathRegenerateJoinToken id
  | CallDestroyBox boxID => post WText WEmpty c PathDestroyBox boxID
  | CallPauseBox boxID => post WText WEmpty c PathPauseBox boxID
  | CallResumeBox boxID => post WText WEmpty c PathResumeBox boxID
  | CallBoxExec boxID command => post WBoxExecRequest WResult c PathBoxExec (MkBoxExecRequest boxID command)
  | CallProxyEnabled => or_miss false id (post WEmpty WEnabled c PathProxyEnabled ())
  | CallCreateProxy boxID port description => post WCreateProxyRequest WProxy c PathCreateProxy (MkCreateProxyRequest boxID port description)
  | CallDeleteProxy boxID port => post WBoxPort WEmpty c PathDeleteProxy (MkBoxPortRequest boxID port)
  | CallListProxies boxID => post WText WProxies c PathListProxies boxID
  | CallPingProxy boxID port => post WBoxPort WPing c PathPingProxy (MkBoxPortRequest boxID port)
  end.
End Client.

(** ** The client over the handler is the backend *)

(** The request as the client sends it: a non-positive lifetime is left out. *)
Definition as_sent {A} (k : call A) : call A :=
  match k in call A return call A with
  | CallCreateSpoke name backend ttl => CallCreateSpoke name backend (Z.max 0 ttl)
  | k => k
  end.

(** What the wire has to carry for a call, and for its result. *)
Definition call_clean `{WireLaws} {A} (k : call A) : Prop :=
  match k with
  | CallCreateBox opts => w_clean WCreateBoxRequest opts
  | CallLookupByBoxID t | CallDropSpoke t | CallSetDefaultSpoke t | CallRevokeJoinToken t | CallRegenerateJoinToken t
  | CallDestroyBox t | CallPauseBox t | CallResumeBox t | CallListProxies t => w_clean WText t
  | CallListBoxes | CallSpokeStatuses | CallListJoinTokens | CallProxyEnabled => w_clean WEmpty ()
  | CallCreateSpoke name backend ttl =>
      w_clean WCreateSpokeRequest (MkCreateSpokeRequest name backend (if 0 <? ttl then Duration_String ttl else ""))
  | CallBoxExec boxID command => w_clean WBoxExecRequest (MkBoxExecRequest boxID command)
  | CallCreateProxy boxID port description => w_clean WCreateProxyRequest (MkCreateProxyRequest boxID port description)
  | CallDeleteProxy boxID port | CallPingProxy boxID port => w_clean WBoxPort (MkBoxPortRequest boxID port)
  end.

Definition carried `{WireLaws} (t : wty) (r : res string (wval t)) : Prop :=
  match r with Ok v => w_clean t v | Err e => w_clean WText e /\ e <> "" end.

(** The two calls without an error have none to carry. *)
Definition result_clean `{WireLaws} {A} (k : call A) : res string A -> Prop :=
  match k in call A return res string A -> Prop with
  | CallCreateBox _ => carried WSession
  | CallLookupByBoxID _ => fun r => match r with Ok v => w_clean WLookup (MkLookupBoxResponse v.1 v.2) | Err _ => False end
  | CallListBoxes => carried WBoxes
  | CallSpokeStatuses => carried WSpokes
  | CallCreateSpoke _ _ _ | CallRegenerateJoinToken _ => carried WSpoke
  | CallDropSpoke _ | CallSetDefaultSpoke _ | CallRevokeJoinToken _ | CallDestroyBox _ | CallPauseBox _ | CallResumeBox _
  | CallDeleteProxy _ _ => carried WEmpty
  | CallListJoinTokens => carried WTokens
  | CallBoxExec _ _ => carried WResult
  | CallProxyEnabled => fun r => match r with Ok v => w_clean WEnabled v | Err _ => False end
  | CallCreateProxy _ _ _ => carried WProxy
  | CallListProxies _ => carried WProxies
  | CallPingProxy _ _ => carried WPing
  end.

Lemma substring_drop s t : String.substring (String.length s) (String.length (s +:+ t) - String.length s) (s +:+ t) = t.
Proof.
  rewrite slength_app. replace (_ + _ - _)%nat with (String.length t) by lia.
  pose proof (substring_mid s t "") as Hm. by rewrite sapp_nil_r in Hm.
Qed.

Lemma bearer_of_key key csrf cookie :
  TrimSpace key = key -> bearerToken (Auth.MkRequest ("Bearer " +:+ key) csrf cookie) = Some key.
Proof.
  intros Ht. unfold bearerToken. cbn [rq_Authorization]. pose proof (substring_drop "Bearer " key) as Hs.
  replace (Nat.ltb _ _) with false by (symmetry; apply Nat.ltb_ge; rewrite slength_app; lia). rewrite Hs, Ht.
  replace (String.substring 0 _ _) with "Bearer "; [done|]. symmetry. apply (substring_mid "" "Bearer " key).
Qed.

Section RoundTrip.
Context `{WireLaws} {S : Type} (a : option Authenticator) (keys : KeyTable) (db : IdentityDB) (now : Z) (b : Backend S).

(** A transport that delivers to the hub. *)
Definition delivered (url : string) (r : httpRequest) : S -> S * option httpResponse :=
  fun s => let '(s', resp) := serve_api a keys db now b r s in (s', Some resp).

Context (c : Client) (rec : APIKeyRecord).
Hypothesis Hkey : cl_apiKey c <> "" /\ TrimSpace (cl_apiKey c) = cl_apiKey c.
Hypothesis Hauth : Authenticate (cl_apiKey c) now keys = Some rec.
Abbreviation principal := ("apikey:" +:+ ak_Name rec).

Lemma post_served Req Resp path (req : wval Req) (fn : wval Req -> go S string (wval Resp)) s s' r :
  w_clean Req req ->
  first_match (fun rt => String.eqb rt.1 path) (routes b principal) = Some (path, jsonHandler Req Resp fn) ->
  fn req s = (s', r) -> carried Resp r -> post delivered Req Resp c path req s = (s', r).
Proof.
  intros Hreq Hrt Hfn Hr. destruct (decode_encode Req req Hreq) as (body & He & Hne & Hd). unfold post. rewrite He.
  destruct Hkey as [Hk Ht]. apply String.eqb_neq in Hk. rewrite Hk. unfold delivered, serve_api, requireAPIAuth.
  cbn [hq_Headers]. rewrite bearer_of_key, Hauth by done. unfold NewHandler. cbn [hq_Path hq_Method]. rewrite Hrt. cbn [snd].
  cbn [String.eqb Ascii.eqb Bool.eqb]. unfold jsonHandler. cbn [hq_Body]. apply String.eqb_neq in Hne. rewrite Hne, Hd, Hfn.
  destruct r as [v|e]; cbn [carried] in Hr; unfold writeError, writeJSON; cbn [hr_StatusCode hr_Body].
  - destruct (decode_encode Resp v Hr) as (b' & -> & _ & Hv). change (default "" (Some b')) with b'. by rewrite Hv.
  - destruct Hr as [Hc He']. destruct (decode_encode WText e Hc) as (b' & -> & _ & Hv). change (default "" (Some b')) with b'.
    rewrite Hv. change (default "" (Some e)) with e. apply String.eqb_neq in He'. by rewrite He'.
Qed.

(** C30: A client with a valid API key is the hub's backend: over a transport that
    delivers, every call has the effect and the result, errors with their text
    included, of the same call made by the principal of the key, for the values
    JSON can carry. *)
Theorem client_refines_backend A (k : call A) p s s' r :
  call_clean k -> b A principal (as_sent k) s = (s', r) -> result_clean k r ->
  ClientBackend delivered c A p k s = (s', r).
Proof.
  destruct k; cbn [as_sent call_clean result_clean ClientBackend]; intros Hc Hb Hr;
    try (match goal with |- post _ ?Req ?Resp _ ?path ?req _ = _ => eapply (post_served Req Resp path req) end;
         [exact Hc|reflexivity|exact Hb|exact Hr]).
  - destruct r as [v|]; [|done]. unfold or_miss.
    erewrite (post_served WText WLookup); [|exact Hc|reflexivity| |].
    2: { unfold serve_lookup, go_bind. rewrite Hb. reflexivity. }
    2: exact Hr.
    destruct v; reflexivity.
  - eapply (post_served WCreateSpokeRequest WSpoke); [exact Hc|reflexivity| |exact Hr]. unfold serve_create_spoke. cbn [cq_TTL cq_Name cq_Backend].
    destruct (Z.ltb_spec 0 ttl).
    + destruct (String.eqb_spec (Duration_String ttl) "") as [He|]; [by apply Duration_String_ne in He|].
      rewrite ParseDuration_String. by rewrite Z.max_r in Hb by lia.
    + cbn [String.eqb]. by rewrite Z.max_l in Hb by lia.
  - destruct r as [v|]; [|done]. unfold or_miss. erewrite (post_served WEmpty WEnabled); [|exact Hc|reflexivity|exact Hb|exact Hr]. reflexivity.
Qed.
End RoundTrip.

(** Without a valid credential no call reaches the backend. *)
Lemma refused_calls_do_nothing `{Wire} {S} a keys db now (b : Backend S) r s :
  is_ok (requireAPIAuth a keys db now (hq_Headers r)) = false ->
  exists code, serve_api a keys db now b r s = (s, writeError code (refusal db now code (hq_Headers r))) /\ code ∈ [401; 403].
Proof.
  unfold serve_api, requireAPIAuth. intros Hn.
  repeat match type of Hn with context [match ?x with _ => _ end] => destruct x end; try done;
    (eexists; split; [reflexivity|set_solver]).
Qed.

(** ** The hub's backend (hub/backend.go) *)

Definition spokeConnectURL (publicURL : string) : string :=
  let u :=
    match CutPrefix publicURL "https://" with
    | Some rest => "wss://" +:+ rest
    | None => match CutPrefix publicURL "http://" with Some rest => "ws://" +:+ rest | None => publicURL end
    end in
  TrimRightSlash u +:+ "/spoke/connect".

Definition spokeRunCommand (publicURL token backend : string) : string :=
  "llmbox-spoke " +:+ backend +:+ " --hub " +:+ spokeConnectURL publicURL +:+ " --token " +:+ token.

(** What a call of the hub takes from its surroundings: the clock, random bytes,
    the hook executables, the managers that can dial a box, the HTTP probe of a
    port (its status, or none, and the milliseconds it took), and the texts of
    errors. *)
Record HubEnv := MkHubEnv {
  he_now : Z;
  he_synced : Z;
  he_rnd : option (list Z);
  he_rnds : nat -> option (list Z);
  he_run : string -> option HookResponse;
  he_public : Public;
  he_dials : nat -> bool;
  he_probe : nat -> string -> Z -> option Z * Z;
  he_text : HubError -> string;
  he_enroll_text : EnrollError -> string;
}.

Section Hub.
Context {M : Type} `{!BoxManager M} (env : HubEnv).
Implicit Types (s : Server M).

Definition with_core (core : HubServer ClusterDB) s : Server M :=
  MkServer core (sv_remotes s) (sv_byToken s) (sv_pending s) (sv_boxes s) (sv_proxies s) (sv_audit s)
    (sv_proxyBaseDomain s) (sv_hooks s) (sv_destroyed s).

(** Errors as the text the API carries. *)
Definition hub_err {A} (r : Server M * res HubError A) : Server M * res string A :=
  (r.1, match r.2 with Ok a => Ok a | Err e => Err (he_text env e) end).
Definition enroll_err {A} (r : res EnrollError A) : res string A :=
  match r with Ok a => Ok a | Err e => Err (he_enroll_text env e) end.

(** An operation on the enrollment tables, and one on the whole core. *)
Definition on_store {A} (f : ClusterDB -> ClusterDB * res EnrollError A) : go (Server M) string A := fun s =>
  let core := sv_core s in
  let '(db, r) := f (hs_store core) in
  (with_core (MkHubServer db (hs_settings core) (hs_hub core)) s, enroll_err r).
Definition on_core {A} (f : HubServer ClusterDB -> HubServer ClusterDB * res EnrollError A) : go (Server M) string A := fun s =>
  let '(core, r) := f (sv_core s) in (with_core core s, enroll_err r).

Definition or_docker (backend : string) : string := if String.eqb backend "" then "docker" else backend.

Definition SpokeStatuses s : res EnrollError (list SpokeStatus) :=
  match hs_hub (sv_core s) with
  | None => Ok []
  | Some h =>
      match ListSpokes (hs_store (sv_core s)) with
      | None => Err ErrStore
      | Some enrolled =>
          Ok ((fun rec => MkSpokeStatus (sp_Name rec) (bool_decide (is_Some (hub_spokes h !! sp_Name rec)))
                 (String.eqb (sp_Name rec) (DefaultSpoke (sv_core s))) (sp_EnrolledAt rec)) <$> enrolled)
      end
  end.

Definition proxyInfo (rec : ProxyRecord) s : ProxyInfo :=
  MkProxyInfo (pr_BoxID rec) (pr_Port rec) (proxyURL (he_public env) (sv_proxyBaseDomain s) (pr_Slug rec)) (pr_Slug rec)
    (pr_Spoke rec) (pr_Description rec).

Definition pingProxy (boxID : string) (port : Z) s : ProxyPing :=
  match findProxy boxID port s with
  | None => MkProxyPing false 0 0 ("no proxy for box " +:+ boxID +:+ " port " +:+ Itoa port)
  | Some rec =>
      match spoke (pr_Spoke rec) s with
      | Err _ => MkProxyPing false 0 0 "the box's spoke is not available"
      | Ok c =>
          if negb (he_dials env c) then MkProxyPing false 0 0 "this box's spoke does not support proxying"
          else
            match he_probe env c (pr_BoxID rec) (pr_Port rec) with
            | (None, ms) => MkProxyPing false 0 ms "the box is not reachable on this port"
            | (Some status, ms) => MkProxyPing true status ms ""
            end
      end
  end.

Definition backend_CreateSpoke (name backend : string) (ttl : Z) : go (Server M) string SpokeEnrollment :=
  let backend := or_docker backend in
  if negb (String.eqb backend "docker") && negb (String.eqb backend "firecracker") then go_fail ("invalid backend " +:+ backend)
  else
    let ttl := if ttl <=? 0 then defaultAdminTokenTTL else ttl in
    let* token := on_store (createSpoke (he_rnd env) name backend ttl (he_now env)) in
    go_ret (MkSpokeEnrollment name token (spokeRunCommand (pb_URL (he_public env)) token backend)).

Definition backend_ListJoinTokens : go (Server M) string (list TokenInfo) := fun s =>
  match ListJoinTokens (hs_store (sv_core s)) with
  | None => (s, Err (he_enroll_text env ErrStore))
  | Some tokens =>
      (s, Ok ((fun t => MkTokenInfo (ji_ID t) (ji_Name t) (or_docker (ji_Backend t))
                (spokeRunCommand (pb_URL (he_public env)) TokenPlaceholder (or_docker (ji_Backend t))) (ji_ExpiresAt t)) <$> tokens))
  end.

Definition backend_RegenerateJoinToken (id : string) : go (Server M) string SpokeEnrollment :=
  let* r := on_store (regenerateJoinToken (he_rnd env) id (he_now env)) in
  let '(name, backend, token) := r in
  go_ret (MkSpokeEnrollment name token (spokeRunCommand (pb_URL (he_public env)) token (or_docker backend))).

Definition backend_CreateProxy (principal boxID : string) (port : Z) (description : string) : go (Server M) string ProxyInfo := fun s =>
  match createProxy (he_rnd env) (he_now env) boxID port principal description s with
  | (s', Err e) => (s', Err (he_text env e))
  | (s', Ok rec) => (s', Ok (proxyInfo rec s'))
  end.

Definition apiBackend : Backend (Server M) := fun A principal k =>
  match k in call A return go (Server M) string A with
  | CallCreateBox opts => fun s =>
      match createBox (he_run env) (he_rnd env) (he_rnds env) (he_now env) (he_synced env) opts s with
      | (s', Err e) => (s', Err (he_text env e))
      | (s', Ok sess) => (s', Ok (MkBoxSession (ss_BoxID sess) (ss_Generation sess) ""))
      end
  | CallLookupByBoxID boxID => fun s =>
      (s, Ok (match lookupByBoxID boxID s with
              | None => (MkBoxSession "" "" "", false)
              | Some sess => (MkBoxSession (ss_BoxID sess) (ss_Generation sess) (ss_Description sess), true)
              end))
  | CallListBoxes => fun s => (s, Ok (MkBoxView <$> listBoxes s))
  | CallSpokeStatuses => fun s => (s, enroll_err (SpokeStatuses s))
  | CallCreateSpoke name backend ttl => backend_CreateSpoke name backend ttl
  | CallDropSpoke name => on_core (dropSpoke name)
  | CallSetDefaultSpoke name => on_core (chooseDefaultSpoke name)
  | CallListJoinTokens => backend_ListJoinTokens
  | CallRevokeJoinToken id => on_store (revokeJoinToken id)
  | CallRegenerateJoinToken id => backend_RegenerateJoinToken id
  | CallDestroyBox boxID => fun s => hub_err (destroyBox boxID s)
  | CallPauseBox boxID => fun s => hub_err (pauseBox (he_now env) boxID s)
  | CallResumeBox boxID => fun s => hub_err (resumeBox (he_now env) boxID s)
  | CallBoxExec boxID command => fun s => hub_err (boxExec boxID command s)
  | CallProxyEnabled => fun s => (s, Ok (ProxyEnabled s))
  | CallCreateProxy boxID port description => backend_CreateProxy principal boxID port description
  | CallDeleteProxy boxID port => fun s => hub_err (let '(s', r) := deleteProxy boxID port s in (s', match r with Ok _ => Ok () | Err e => Err e end))
  | CallListProxies boxID => fun s => (s, Ok ((fun rec => proxyInfo rec s) <$> listProxies boxID s))
  | CallPingProxy boxID port => fun s => (s, Ok (pingProxy boxID port s))
  end.

(** The calls that only read leave the hub as it is. *)
Definition reads {A} (k : call A) : bool :=
  match k with
  | CallLookupByBoxID _ | CallListBoxes | CallSpokeStatuses | CallListJoinTokens | CallProxyEnabled | CallListProxies _ | CallPingProxy _ _ => true
  | _ => false
  end.

Lemma reads_change_nothing A p (k : call A) s : reads k = true -> (apiBackend A p k s).1 = s.
Proof. by destruct k. Qed.

(** A proxy made through the API carries the principal of the request. *)
Lemma created_proxy_principal p boxID port description s s' pi :
  apiBackend _ p (CallCreateProxy boxID port description) s = (s', Ok pi) ->
  findProxy boxID port s = None ->
  exists rec, sv_proxies s' !! pi_Slug pi = Some rec /\ pr_Owner rec = p /\ pr_Port rec = port /\ pr_BoxID rec = boxID.
Proof.
  cbn [apiBackend]. unfold backend_CreateProxy, createProxy. intros Hc Hf. rewrite Hf in Hc.
  destruct (negb _); [done|]. destruct (_ || _); [done|]. destruct (lookupByBoxID boxID s) as [sess|]; [|done].
  destruct (terminated sess); [done|]. destruct (newProxySlug _) as [slug|]; [|done]. injection Hc as <- <-.
  eexists. cbn. unfold SaveProxy. rewrite lookup_insert_eq. eauto.
Qed.

(** An unknown backend is refused before a token is minted, and an enrollment
    names the backend that is stored with its token. *)
Lemma CreateSpoke_backend p name backend ttl s :
  or_docker backend ∉ ["docker"; "firecracker"] ->
  apiBackend _ p (CallCreateSpoke name backend ttl) s = (s, Err ("invalid backend " +:+ or_docker backend)).
Proof.
  intros Hn. cbn [apiBackend]. unfold backend_CreateSpoke. rewrite !elem_of_cons in Hn.
  destruct (String.eqb_spec (or_docker backend) "docker"); [naive_solver|].
  destruct (String.eqb_spec (or_docker backend) "firecracker"); [naive_solver|]. reflexivity.
Qed.
End Hub.

(** ** A wire and a hub *)

Definition sim_wire : Wire := {|
  w_encode t := match t return wval t -> option string with
    | WEmpty => fun _ => Some "{}"
    | WText => fun v => Some (String "034" v)
    | WEnabled => fun v => Some (if v then "true" else "false")
    | _ => fun _ => None
    end;
  w_decode t := match t return string -> option (wval t) with
    | WEmpty => fun b => Some ()
    | WText => fun b => match b with String "034" v => Some v | _ => None end
    | WEnabled => fun b => Some (String.eqb b "true")
    | _ => fun _ => None
    end;
  Duration_String d := if d <? 0 then "-" +:+ String.string_of_list_ascii (repeat "s"%char (Z.to_nat (- d))) else String "+" (String.string_of_list_ascii (repeat "s"%char (Z.to_nat d)));
  ParseDuration b := match b with
    | String "-" r => Some (- Z.of_nat (String.length r))
    | String _ r => Some (Z.of_nat (String.length r))
    | "" => None
    end;
|}.

Lemma length_of_list l : String.length (String.string_of_list_ascii l) = length l.
Proof. induction l as [|c l IH]; [done|]. cbn. by rewrite IH. Qed.

#[export] Program Instance sim_wire_laws : @WireLaws sim_wire := {|
  w_clean t := match t return wval t -> Prop with WEmpty | WText | WEnabled => fun _ => True | _ => fun _ => False end;
|}.
Next Obligation.
  intros t v. destruct t; try done; intros _; cbn.
  - by exists "{}"; destruct v.
  - by eexists.
  - exists (if v then "true" else "false"). by destruct v.
Qed.
Next Obligation.
  intros d. cbn. destruct (Z.ltb_spec d 0); cbn; f_equal; rewrite length_of_list, repeat_length; lia.
Qed.
Next Obligation. intros d. cbn. by destruct (d <? 0). Qed.

(** A backend that counts its calls and refuses to drop spokes. *)
Definition sim_backend : Backend nat := fun A p k =>
  match k in call A return go nat string A with
  | CallProxyEnabled => fun n => (S n, Ok true)
  | CallDropSpoke name => fun n => (S n, Err (p +:+ " may not drop " +:+ name))
  | _ => fun n => (n, Err "unsupported")
  end.

Definition sim_keys : KeyTable := {[ HashSecret "k1" := MkAPIKeyRecord "ci" 0 100 ]}.
Definition sim_client : Client := SetAPIKey "k1" (NewClient "http://hub/").

Lemma client_refines_backend_witness :
  @ClientBackend sim_wire nat (@delivered sim_wire nat None sim_keys (MkIdentityDB ∅ ∅) 50 sim_backend) sim_client _ "" (CallDropSpoke "s1") 7%nat =
  (8%nat, Err "apikey:ci may not drop s1").
Proof.
  apply (@client_refines_backend sim_wire sim_wire_laws nat None sim_keys (MkIdentityDB ∅ ∅) 50 sim_backend sim_client (MkAPIKeyRecord "ci" 0 100)).
  - split; [discriminate|reflexivity].
  - vm_compute. reflexivity.
  - exact I.
  - reflexivity.
  - split; [exact I|discriminate].
Defined.

(** With another key nothing is called. *)
Example wrong_key :
  @ClientBackend sim_wire nat (@delivered sim_wire nat None sim_keys (MkIdentityDB ∅ ∅) 50 sim_backend) (SetAPIKey "k2" sim_client) _ "" (CallDropSpoke "s1") 7%nat =
  (7%nat, Err "invalid or expired API key").
Proof. vm_compute. reflexivity. Qed.
