(* ===== verification/Terminal.v ===== *)
(** * The terminal and the sign-in page (internal/hub/terminal.go, http.go)

    The decision [handleTerminal] takes for a request before the WebSocket is
    spliced to a terminal of a box, and the sign-in page a proxy visitor is sent
    to.  The upgrade and the copying of bytes are not modelled. *)

From S2P Require Import Prelude GoStrings Sandbox Store Sha256 Enroll Auth Remote Registry Ingress.

Local Open Scope Z_scope.

(** ** Terminals *)

Definition terminalReadLimit : Z := Z.shiftl 1 20.
Definition defaultTerminalCols : Z := 80.
Definition defaultTerminalRows : Z := 24.

Definition dimOr (s : string) (fallback : Z) : Z :=
  match Atoi s with
  | Some n => if (n >? 0) && (n <=? 65535) then n else fallback
  | None => fallback
  end.

(** [None] when the request may proceed, or the status to answer. *)
Definition terminalAuthorized (auth : option Authenticator) (keys : KeyTable) (db : IdentityDB) (now : Z) (r : Auth.Request) : option Z :=
  match bearerToken r with
  | Some key => match Authenticate key now keys with Some _ => None | None => Some 401 end
  | None =>
      match auth with
      | None => None
      | Some _ =>
          match CurrentLogin (rq_Cookie r) now db with
          | None => Some 401
          | Some ls => if negb (is_CanAdmin ls) then Some 403 else None
          end
      end
  end.

(** The query values [?cols] and [?rows]. *)
Definition terminalSize (cols rows : string) : Z * Z := (dimOr cols defaultTerminalCols, dimOr rows defaultTerminalRows).

Inductive terminal :=
| TermStatus (code : Z)
| TermClosed
| TermOpen (conn : nat) (boxID : string) (cols rows : Z).

Section HandleTerminal.
Context {M : Type}.
Implicit Types (s : Server M).

(** [opens c]: whether the manager behind a connection implements [OpenPTY], and
    if so whether it opens one; [accepts]: whether the upgrade succeeds. *)
Definition handleTerminal (auth : option Authenticator) (keys : KeyTable) (db : IdentityDB) (now : Z) (opens : nat -> option bool)
    (accepts : bool) (r : Auth.Request) (boxID cols rows : string) s : terminal :=
  match terminalAuthorized auth keys db now r with
  | Some code => TermStatus code
  | None =>
      match lookupByBoxID boxID s with
      | None => TermStatus 404
      | Some sess =>
          if terminated sess then TermStatus 409
          else
            match spoke (ss_SpokeName sess) s with
            | Err _ => TermStatus 502
            | Ok c =>
                match opens c with
                | None => TermStatus 502
                | Some ok =>
                    if negb accepts then TermClosed
                    else
                      let '(w, h) := terminalSize cols rows in
                      if ok then TermOpen c boxID w h else TermClosed
                end
            end
      end
  end.

Lemma dimOr_range v f : 1 <= f <= 65535 -> 1 <= dimOr v f <= 65535.
Proof. intros Hf. unfold dimOr. destruct (Atoi v) as [n|]; [|done]. destruct (_ && _) eqn:Hb; lia. Qed.

(** C32: With sign-in configured a shell is opened only for a caller with a valid API
    key or the unexpired session of an administrator, in a live box of the
    registry, over the connection of that box's spoke, and with a size that fits
    the protocol. *)
Theorem terminal_guarded a keys db now opens accepts r boxID cols rows s c b w h :
  handleTerminal (Some a) keys db now opens accepts r boxID cols rows s = TermOpen c b w h ->
  b = boxID /\ 1 <= w <= 65535 /\ 1 <= h <= 65535 /\
  ((exists key rec, bearerToken r = Some key /\ Authenticate key now keys = Some rec) \/
   (exists v ls, rq_Cookie r = Some v /\ id_sessions db !! sha256_hex v = Some ls /\ now <= is_ExpiresAt ls /\ is_CanAdmin ls = true)) /\
  exists sess, lookupByBoxID boxID s = Some sess /\ terminated sess = false /\ spoke (ss_SpokeName sess) s = Ok c.
Proof.
  unfold handleTerminal. destruct (terminalAuthorized _ _ _ _ _) eqn:Ha; [done|].
  destruct (lookupByBoxID boxID s) as [sess|] eqn:Hl; [|done]. destruct (terminated sess) eqn:Ht; [done|].
  destruct (spoke (ss_SpokeName sess) s) as [c'|] eqn:Hs; [|done]. destruct (opens c') as [[]|]; [| |done];
    (destruct accepts; [|done]); [|done]. intros [= <- <- <- <-].
  split; [done|]. split; [apply dimOr_range; unfold defaultTerminalCols; lia|]. split; [apply dimOr_range; unfold defaultTerminalRows; lia|].
  split; [|by exists sess]. unfold terminalAuthorized in Ha. destruct (bearerToken r) as [key|] eqn:Hb.
  - left. destruct (Authenticate key now keys) as [rec|] eqn:Hk; [|done]. by exists key, rec.
  - right. destruct (CurrentLogin (rq_Cookie r) now db) as [ls|] eqn:Hc; [|done]. destruct (is_CanAdmin ls) eqn:Hadm; [|done].
    unfold CurrentLogin, GetIdentitySession in Hc. destruct (rq_Cookie r) as [v|]; [|done].
    destruct (id_sessions db !! sha256_hex v) as [ls'|] eqn:Hls; [|done]. destruct (After now (is_ExpiresAt ls')) eqn:Hx; [done|].
    injection Hc as ->. exists v, ls. unfold After in Hx. bools. done.
Qed.
End HandleTerminal.

(** Without a sign-in provider the API refuses a caller without a key, and the
    terminal lets it in. *)
Lemma terminal_open_without_provider keys db now csrf cookie :
  requireAPIAuth None keys db now (Auth.MkRequest "" csrf cookie) = Err 401 /\
  terminalAuthorized None keys db now (Auth.MkRequest "" csrf cookie) = None.
Proof. done. Qed.

(** ** The sign-in page *)

Record providerButton := MkProviderButton { bt_Label : string; bt_LoginPath : string }.
Record signInState := MkSignInState { si_SignedIn : bool; si_ReturnTo : string; si_Providers : list providerButton }.

Inductive page := PageRedirect (to : string) | PageShell (name : string).

Section SignIn.
(** [order] and [label]: the enabled providers in configuration order and their
    labels. *)
Context (url_Parse : string -> option URL) (order : list string) (label : string -> string).

Definition ReturnButtons (a : option Authenticator) (returnTo : string) : list providerButton :=
  match a with
  | None => []
  | Some _ => (fun name => MkProviderButton (label name) ("/auth/" +:+ name +:+ "/login?return=" +:+ QueryEscape returnTo)) <$> order
  end.

(** [ret] is the query value [?return]. *)
Definition handleSignIn (a : Authenticator) (db : IdentityDB) (now : Z) (cookie : option string) (ret : string) : page :=
  let returnTo := SafeReturnURL url_Parse a ret in
  if bool_decide (is_Some (CurrentLogin cookie now db)) && negb (String.eqb returnTo "") then PageRedirect returnTo else PageShell "signin.html".

Definition handleSignInState (a : Authenticator) (db : IdentityDB) (now : Z) (cookie : option string) (ret : string) : signInState :=
  let returnTo := SafeReturnURL url_Parse a ret in
  MkSignInState (bool_decide (is_Some (CurrentLogin cookie now db))) returnTo
    (if negb (String.eqb returnTo "") then ReturnButtons (Some a) returnTo else []).

(** Where a visitor may be sent: a path of this host, or a host of the cookie domain. *)
Definition own_target (a : Authenticator) (to : string) : Prop :=
  HasPrefix to "/" = true /\ HasPrefix to "//" = false /\ ContainsByte to "\" = false \/
  au_cookieDomain a <> "" /\ exists u, url_Parse to = Some u /\ u_Scheme u ∈ ["https"; "http"] /\ domainCovers (au_cookieDomain a) (u_Hostname u) = true.

Lemma SafeReturnURL_own a to : SafeReturnURL url_Parse a to <> "" -> SafeReturnURL url_Parse a to = to /\ own_target a to.
Proof.
  unfold SafeReturnURL. destruct (String.eqb_spec (safeReturnPath url_Parse to) "") as [He|Hne]; cbn [negb].
  - destruct (String.eqb_spec (au_cookieDomain a) "") as [|Hcd]; [done|]. destruct (url_Parse to) as [u|] eqn:Hu; [|done].
    destruct (_ || _) eqn:Hs; [done|]. destruct (String.eqb (ToLower (u_Hostname u)) _ || _) eqn:Hh; [|done]. intros _. split; [done|].
    right. split; [done|]. exists u. split; [done|]. apply orb_false_iff in Hs as [Hs _]. split; [|exact Hh].
    apply andb_false_iff in Hs as [Hs|Hs]; apply negb_false_iff, String.eqb_eq in Hs; rewrite Hs; set_solver.
  - intros _. unfold safeReturnPath in *. destruct (String.eqb to "" || _ || _ || _) eqn:H1; [done|].
    destruct (ContainsByte to "\") eqn:H2; [done|]. destruct (url_Parse to) as [u|]; [|done]. destruct (negb _ || negb _); [done|].
    split; [done|]. left. rewrite !orb_false_iff, negb_false_iff in H1. by destruct H1 as [[[_ ->] ->] _].
Qed.

(** The page never sends a visitor elsewhere, nor offers to. *)
Lemma sign_in_stays_home a db now cookie ret :
  (forall to, handleSignIn a db now cookie ret = PageRedirect to -> to = ret /\ own_target a to /\ is_Some (CurrentLogin cookie now db)) /\
  (si_Providers (handleSignInState a db now cookie ret) <> [] -> si_ReturnTo (handleSignInState a db now cookie ret) = ret /\ own_target a ret).
Proof.
  split.
  - intros to. unfold handleSignIn. destruct (String.eqb_spec (SafeReturnURL url_Parse a ret) "") as [|Hne]; [by rewrite andb_false_r|].
    rewrite andb_true_r. case_bool_decide as Hl; [|done]. intros [= <-]. destruct (SafeReturnURL_own a ret Hne) as [-> ?]. done.
  - unfold handleSignInState. cbn [si_Providers si_ReturnTo]. destruct (String.eqb_spec (SafeReturnURL url_Parse a ret) "") as [|Hne]; [done|].
    intros _. by apply SafeReturnURL_own.
Qed.
End SignIn.

(** ** A hub with one box *)

Definition demo_session : session :=
  MkSession "t1" "g1" 0 None "web" "" "edge" "" "" LifecycleRunning None "" "" "running".
Definition demo_server : Server () :=
  MkServer (MkHubServer emptyClusterDB ∅ (Some (MkHub {["edge" := 0%nat]} ∅))) ∅ {["t1" := demo_session]} ∅ ∅ ∅ ∅ "" None [].
Definition demo_request : Auth.Request := Auth.MkRequest "" "" (Some "cookie").

Lemma terminal_guarded_witness :
  handleTerminal (Some IngressDemo.auth) ∅ IngressDemo.db 5 (fun _ => Some true) true demo_request "WEB" "120" "x" demo_server = TermOpen 0 "WEB" 120 24 /\
  exists sess, lookupByBoxID "WEB" demo_server = Some sess /\ terminated sess = false.
Proof.
  assert (H : handleTerminal (Some IngressDemo.auth) ∅ IngressDemo.db 5 (fun _ => Some true) true demo_request "WEB" "120" "x" demo_server
    = TermOpen 0 "WEB" 120 24) by (vm_compute; reflexivity).
  split; [exact H|]. destruct (terminal_guarded _ _ _ _ _ _ _ _ _ _ _ _ _ _ _ H) as (_ & _ & _ & _ & sess & Hl & Ht & _).
  exists sess. split; [exact Hl|exact Ht].
Defined.
