(* ===== verification/Routes.v ===== *)
(** * The routes of the hub (internal/hub: http.go, admin.go, allowlist.go, dns_audit.go)

    The patterns the hub registers on its [http.ServeMux], with the mux's own
    matching (a method's patterns before those without one, [GET] also for
    [HEAD]; at each segment a literal before a wildcard before a subtree), the
    dispatch to the proxies by host, and the gate in front of the API. *)

From S2P Require Import Prelude GoStrings Store Auth Enroll Registry Ingress.
From Stdlib Require Import Ascii.

Local Open Scope Z_scope.

(** ** net/http's mux *)

(** One element of a pattern: a literal segment (["/"] is the end of a pattern
    that closes with a slash, written [{$}]), a [{name}], or the subtree of a
    pattern that ends with a slash. *)
Inductive pseg := Lit (s : string) | Wild | Subtree.

Record route (H : Type) := MkRoute { rt_Method : string; rt_Path : list pseg; rt_Handler : H }.
Arguments MkRoute {H}.
Arguments rt_Method {H}.
Arguments rt_Path {H}.
Arguments rt_Handler {H}.

Section Mux.
Context {H : Type}.
Implicit Types (rs : list (list pseg * H)).

(** The children of a node of the routing tree. *)
Definition child (ok : pseg -> bool) rs : list (list pseg * H) :=
  omap (fun p => match p.1 with s :: ps => if ok s then Some (ps, p.2) else None | [] => None end) rs.
Definition is_lit (seg : string) (s : pseg) : bool := match s with Lit l => String.eqb l seg | _ => false end.
Definition is_wild (s : pseg) : bool := match s with Wild => true | _ => false end.
Definition is_subtree (s : pseg) : bool := match s with Subtree => true | _ => false end.

(** The handler of a node. *)
Definition here rs : option H := head (omap (fun p => match p.1 with [] => Some p.2 | _ => None end) rs).

Fixpoint matchPath (rs : list (list pseg * H)) (path : list string) : option H :=
  match path with
  | [] => here rs
  | seg :: rest =>
      match matchPath (child (is_lit seg) rs) rest with
      | Some h => Some h
      | None =>
          match (if String.eqb seg "/" then None else matchPath (child is_wild rs) rest) with
          | Some h => Some h
          | None => here (child is_subtree rs)
          end
      end
  end.

Definition of_method (m : string) (l : list (route H)) : list (list pseg * H) :=
  omap (fun r => if String.eqb (rt_Method r) m then Some (rt_Path r, rt_Handler r) else None) l.

Definition matchMethodAndPath (l : list (route H)) (m : string) (path : list string) : option H :=
  match matchPath (of_method m l) path with
  | Some h => Some h
  | None =>
      match (if String.eqb m "HEAD" then matchPath (of_method "GET" l) path else None) with
      | Some h => Some h
      | None => matchPath (of_method "" l) path
      end
  end.

End Mux.

(** The segments of a path after its first slash; a closing slash is the last
    one. *)
Fixpoint close_slash (segs : list string) : list string :=
  match segs with
  | [] => []
  | [s] => if String.eqb s "" then ["/"] else [s]
  | s :: segs' => s :: close_slash segs'
  end.
Definition path_segments (path : string) : list string :=
  match Split path "/" with
  | _ :: segs => close_slash segs
  | [] => []
  end.

(** [cleanPath] leaves the path as it is. *)
Definition clean (path : string) : bool :=
  match Split path "/" with
  | s :: (_ :: _) as segs =>
      String.eqb s "" &&
      forallb (fun s => negb (String.eqb s "." || String.eqb s ".." || String.eqb s "")) (removelast (tail segs)) &&
      negb (String.eqb (List.last segs "") "." || String.eqb (List.last segs "") "..")
  | _ => false
  end.

(** ** The hub's handlers *)

(** Those behind [requireAPIAuth]. *)
Inductive gated :=
| GListAllowlistGroups | GSaveAllowlistGroup | GDeleteAllowlistGroup | GGetBoxAllowlist | GSetBoxGroups
| GExportAllowlistGroups | GImportAllowlistGroups | GListDNSAudit | GAddDomainToGroup
| GBackend.                                 (* [api.NewHandler] *)

Inductive endpoint :=
| EAssets | ESpokeConnect | ELogin | ECallback | ESignIn | ESignInState | EAdmin | EHome | EHealthz | EFavicon
| EMe | ELogout | ETerminal | EGated (g : gated).

(** What is configured: [hub], [auth] and the admin allow-list. *)
Record setup := MkSetup { su_hub : bool; su_auth : bool; su_admin : bool }.

Definition registerAssetRoutes : list (route endpoint) :=
  [MkRoute "GET" [Lit "admin"; Lit "assets"; Subtree] EAssets].

Definition registerAdminRoutes : list (route endpoint) := [MkRoute "GET" [Lit "admin"] EAdmin].

Definition registerAppRoutes (su : setup) : list (route endpoint) :=
  registerAssetRoutes ++
  (if su_hub su then [MkRoute "" [Lit "spoke"; Lit "connect"] ESpokeConnect] else []) ++
  (if su_auth su
   then [MkRoute "GET" [Lit "auth"; Wild; Lit "login"] ELogin; MkRoute "GET" [Lit "auth"; Wild; Lit "callback"] ECallback;
         MkRoute "GET" [Lit "signin"] ESignIn; MkRoute "GET" [Lit "signin"; Lit "state"] ESignInState]
   else []) ++
  (if su_admin su then registerAdminRoutes ++ [MkRoute "GET" [Lit "/"] EHome] else []) ++
  [MkRoute "GET" [Lit "healthz"] EHealthz; MkRoute "GET" [Lit "favicon.ico"] EFavicon;
   MkRoute "GET" [Lit "favicon.svg"] EFavicon].

Definition api (name : string) (g : gated) : route endpoint :=
  MkRoute "POST" [Lit "api"; Lit "v1"; Lit name] (EGated g).

Definition registerAllowlistRoutes : list (route endpoint) :=
  [api "list-allowlist-groups" GListAllowlistGroups; api "save-allowlist-group" GSaveAllowlistGroup;
   api "delete-allowlist-group" GDeleteAllowlistGroup; api "get-box-allowlist" GGetBoxAllowlist;
   api "set-box-groups" GSetBoxGroups; api "export-allowlist-groups" GExportAllowlistGroups;
   api "import-allowlist-groups" GImportAllowlistGroups].

Definition registerDNSAuditRoutes : list (route endpoint) :=
  [api "list-dns-audit" GListDNSAudit; api "add-domain-to-group" GAddDomainToGroup].

(** The mux [APIHandler] fills. *)
Definition hub_mux (su : setup) : list (route endpoint) :=
  registerAppRoutes su ++
  [MkRoute "GET" [Lit "api"; Lit "v1"; Lit "me"] EMe;
   MkRoute "POST" [Lit "api"; Lit "v1"; Lit "logout"] ELogout;
   MkRoute "GET" [Lit "api"; Lit "v1"; Lit "boxes"; Wild; Lit "terminal"] ETerminal] ++
  registerAllowlistRoutes ++ registerDNSAuditRoutes ++
  [MkRoute "" [Lit "api"; Lit "v1"; Subtree] (EGated GBackend)].

(** ** A request *)

(** What becomes of it: a gated handler runs for a principal; the gate answers
    with a status; another handler runs; the mux answers itself; a proxy serves
    it. *)
Inductive action :=
| ARun (g : gated) (principal : string)
| ARefuse (status : Z)
| AHandle (e : endpoint)
| AMux
| AProxy (o : outcome).

Definition gate (auth : option Authenticator) (keys : KeyTable) (db : IdentityDB) (now : Z) (r : Auth.Request)
    (e : endpoint) : action :=
  match e with
  | EGated g => match requireAPIAuth auth keys db now r with Ok p => ARun g p | Err status => ARefuse status end
  | _ => AHandle e
  end.

(** [ServeHTTP]; a path that is not clean is redirected (but for [CONNECT]), and
    so is a subtree without its slash; what matches nothing is refused. *)
Definition ServeHTTP (su : setup) (auth : option Authenticator) (keys : KeyTable) (db : IdentityDB) (now : Z)
    (method path : string) (r : Auth.Request) : action :=
  match matchMethodAndPath (hub_mux su) method (path_segments path) with
  | Some e => if clean path || String.eqb method "CONNECT" then gate auth keys db now r e else AMux
  | None => AMux
  end.

(** The handler [APIHandler] returns: with proxying on, a request whose Host is that
    of a proxy is the proxy's, whatever its path. *)
Definition APIHandler {M} (su : setup) (pb : Public) (auth : option Authenticator) (readable : bool) (dials : nat -> bool)
    (keys : KeyTable) (db : IdentityDB) (now : Z) (s : Server M) (pr : ProxyRequest) (r : Auth.Request) : action :=
  let mux := ServeHTTP su auth keys db now (px_Method pr) (px_Path pr) r in
  if negb (ProxyEnabled s) then mux
  else
    match proxySlugFromHost (sv_proxyBaseDomain s) (px_Host pr) with
    | Some slug => AProxy (handleProxy pb auth readable dials db now pr slug s)
    | None => mux
    end.

(** ** What is served without the gate *)

(** The requests under the API's prefix that the gate does not see. *)
Definition is_get (method : string) : bool := String.eqb method "GET" || String.eqb method "HEAD".
Definition exempt (method : string) (rest : list string) : option endpoint :=
  match rest with
  | [x] =>
      if is_get method && String.eqb x "me" then Some EMe
      else if String.eqb method "POST" && String.eqb x "logout" then Some ELogout else None
  | [x; y; z] =>
      if is_get method && String.eqb x "boxes" && negb (String.eqb y "/") && String.eqb z "terminal" then Some ETerminal else None
  | _ => None
  end.

(** The gated handler of a request under the API's prefix. *)
Definition config_endpoints : list (string * gated) :=
  [("list-allowlist-groups", GListAllowlistGroups); ("save-allowlist-group", GSaveAllowlistGroup);
   ("delete-allowlist-group", GDeleteAllowlistGroup); ("get-box-allowlist", GGetBoxAllowlist);
   ("set-box-groups", GSetBoxGroups); ("export-allowlist-groups", GExportAllowlistGroups);
   ("import-allowlist-groups", GImportAllowlistGroups); ("list-dns-audit", GListDNSAudit);
   ("add-domain-to-group", GAddDomainToGroup)].
Fixpoint assoc {A} (x : string) (l : list (string * A)) : option A :=
  match l with
  | [] => None
  | (k, v) :: l' => if String.eqb k x then Some v else assoc x l'
  end.
Definition api_endpoint (method : string) (rest : list string) : gated :=
  match rest with
  | [x] => if String.eqb method "POST" then default GBackend (assoc x config_endpoints) else GBackend
  | _ => GBackend
  end.

Lemma child_app {H} ok (l1 l2 : list (list pseg * H)) : child ok (l1 ++ l2) = child ok l1 ++ child ok l2.
Proof. apply omap_app. Qed.
Lemma of_method_app {H} m (l1 l2 : list (route H)) : of_method m (l1 ++ l2) = of_method m l1 ++ of_method m l2.
Proof. apply omap_app. Qed.

(** Routes without a child for the first segment do not matter. *)
Lemma matchPath_skip {H} (l1 l2 : list (list pseg * H)) seg path :
  child (is_lit seg) l1 = [] -> child is_wild l1 = [] -> child is_subtree l1 = [] ->
  matchPath (l1 ++ l2) (seg :: path) = matchPath l2 (seg :: path).
Proof. intros H1 H2 H3. cbn. by rewrite !child_app, H1, H2, H3. Qed.

Lemma matchPath_nil {H} path : matchPath ([] : list (list pseg * H)) path = None.
Proof. induction path as [|s path IH]; [done|]. cbn. rewrite IH. by destruct (String.eqb s "/"). Qed.

(** The routes under the API's prefix. *)
Definition api_routes : list (route endpoint) :=
  [MkRoute "GET" [Lit "api"; Lit "v1"; Lit "me"] EMe;
   MkRoute "POST" [Lit "api"; Lit "v1"; Lit "logout"] ELogout;
   MkRoute "GET" [Lit "api"; Lit "v1"; Lit "boxes"; Wild; Lit "terminal"] ETerminal] ++
  registerAllowlistRoutes ++ registerDNSAuditRoutes ++
  [MkRoute "" [Lit "api"; Lit "v1"; Subtree] (EGated GBackend)].

Definition known_method (m : string) : bool := String.eqb m "GET" || String.eqb m "POST" || String.eqb m "".

Lemma of_method_unknown {H} m (l : list (route H)) :
  known_method m = false -> Forall (fun r => known_method (rt_Method r) = true) l -> of_method m l = [].
Proof.
  intros Hm. induction 1 as [|r l Hr Hl IH]; [done|]. unfold of_method. simpl.
  destruct (String.eqb_spec (rt_Method r) m) as [<-|]; [congruence|exact IH].
Qed.

Lemma app_routes_methods su : Forall (fun r => known_method (rt_Method r) = true) (registerAppRoutes su).
Proof. destruct su as [[] [] []]; repeat constructor. Qed.

Lemma app_routes_elsewhere su m ok :
  known_method m = true -> ok = is_lit "api" \/ ok = is_wild \/ ok = is_subtree -> child ok (of_method m (registerAppRoutes su)) = [].
Proof.
  unfold known_method. intros Hm Hok. destruct (String.eqb_spec m "GET") as [->|]; [|destruct (String.eqb_spec m "POST") as [->|];
    [|destruct (String.eqb_spec m "") as [->|]; [|done]]]; destruct Hok as [->|[->| ->]]; by destruct su as [[] [] []].
Qed.

Lemma api_prefix su m path :
  matchPath (of_method m (hub_mux su)) ("api" :: path) = matchPath (of_method m api_routes) ("api" :: path).
Proof.
  unfold hub_mux. rewrite of_method_app. destruct (known_method m) eqn:Hm.
  - apply matchPath_skip; apply app_routes_elsewhere; auto.
  - by rewrite of_method_unknown by (done || apply app_routes_methods).
Qed.

Definition under {H} (s : string) (l : list (list pseg * H)) : list (list pseg * H) := (fun p => (Lit s :: p.1, p.2)) <$> l.

Lemma matchPath_under {H} s (l : list (list pseg * H)) path : matchPath (under s l) (s :: path) = matchPath l path.
Proof.
  assert (Hl : child (is_lit s) (under s l) = l).
  { unfold child, under. induction l as [|[p h] l IH]; [done|]. simpl. rewrite String.eqb_refl. by f_equal. }
  assert (Hn : forall ok, ok (Lit s) = false -> child ok (under s l) = []).
  { intros ok Hok. unfold child, under. clear Hl. induction l as [|[p h] l IH]; [done|]. simpl. by rewrite Hok. }
  cbn [matchPath]. rewrite Hl, !Hn by done. destruct (matchPath l path); [done|].
  rewrite matchPath_nil. by destruct (String.eqb s "/").
Qed.

#[local] Arguments String.eqb : simpl never.

(** Comparisons of literals, and case analysis on a segment compared with one. *)
Ltac literals :=
  repeat (cbn; match goal with
    | |- context [String.eqb ?a ?b] =>
        let v := eval vm_compute in (String.eqb a b) in
        match v with true => idtac | false => idtac end; change (String.eqb a b) with v
    end); cbn.
Ltac segments :=
  literals; rewrite ?matchPath_nil; try done;
  repeat match goal with
    | |- context [String.eqb ?a ?b] =>
        destruct (String.eqb_spec a b); try subst; literals; rewrite ?matchPath_nil; try done; try congruence
    end.

Lemma get_routes x rest :
  matchPath (of_method "GET" api_routes) ("api" :: "v1" :: x :: rest) = exempt "GET" (x :: rest).
Proof.
  change (of_method "GET" api_routes) with
    (under "api" (under "v1" [([Lit "me"], EMe); ([Lit "boxes"; Wild; Lit "terminal"], ETerminal)])).
  rewrite !matchPath_under. unfold exempt, is_get.
  destruct rest as [|y [|z [|w rest]]]; segments.
Qed.

(** Routes of one literal segment. *)
Definition singles {H} (l : list (string * H)) : list (list pseg * H) := (fun p => ([Lit p.1], p.2)) <$> l.

Lemma matchPath_ends {H} (l : list H) rest : rest <> [] -> matchPath ((fun h => ([], h)) <$> l) rest = None.
Proof.
  intros Hr. destruct rest as [|s rest]; [done|]. cbn.
  assert (Hn : forall ok, child ok ((fun h => ([] : list pseg, h)) <$> l) = []).
  { intros ok. unfold child. clear. induction l as [|h l IH]; [done|exact IH]. }
  rewrite !Hn, matchPath_nil. by destruct (String.eqb s "/").
Qed.

Lemma matchPath_singles {H} (l : list (string * H)) x rest :
  matchPath (singles l) (x :: rest) = match rest with [] => assoc x l | _ => None end.
Proof.
  assert (Hl : exists hs, child (is_lit x) (singles l) = ((fun h => ([], h)) <$> hs) /\ head hs = assoc x l).
  { unfold child, singles. induction l as [|[k h] l (hs & Hc & Hh)]; [by exists []|]. simpl.
    destruct (String.eqb_spec k x) as [->|]; [|by exists hs].
    exists (h :: hs). split; [|done]. cbn. f_equal. exact Hc. }
  assert (Hn : forall ok, (forall s, ok (Lit s) = false) -> child ok (singles l) = []).
  { intros ok Hok. unfold child, singles. clear Hl. induction l as [|[k h] l IH]; [done|]. simpl. by rewrite Hok. }
  destruct Hl as (hs & Hc & Hh). cbn [matchPath]. rewrite Hc, !Hn by done. rewrite matchPath_nil.
  destruct rest as [|s rest].
  - rewrite <- Hh. destruct hs; cbn; by destruct (String.eqb x "/").
  - rewrite matchPath_ends by done. by destruct (String.eqb x "/").
Qed.

Lemma assoc_fmap {A B} (f : A -> B) x l : assoc x ((fun p => (p.1, f p.2)) <$> l) = f <$> assoc x l.
Proof. induction l as [|[k v] l IH]; [done|]. simpl. by destruct (String.eqb k x). Qed.

Lemma post_routes x rest :
  matchPath (of_method "POST" api_routes) ("api" :: "v1" :: x :: rest) =
  match exempt "POST" (x :: rest) with
  | Some e => Some e
  | None => match rest with [] => EGated <$> assoc x config_endpoints | _ => None end
  end.
Proof.
  change (of_method "POST" api_routes) with
    (under "api" (under "v1" (singles (("logout", ELogout) :: ((fun p => (p.1, EGated p.2)) <$> config_endpoints))))).
  rewrite !matchPath_under, matchPath_singles. unfold exempt, is_get.
  destruct rest as [|y [|z [|w rest]]]; [|literals; try done..].
  cbn [assoc]. rewrite assoc_fmap. literals. destruct (String.eqb_spec "logout" x) as [<-|Hne]; [done|].
  destruct (String.eqb_spec x "logout"); [congruence|done].
Qed.

Lemma any_routes x rest :
  matchPath (of_method "" api_routes) ("api" :: "v1" :: x :: rest) = Some (EGated GBackend).
Proof.
  change (of_method "" api_routes) with (under "api" (under "v1" [([Subtree], EGated GBackend)])).
  rewrite !matchPath_under. segments.
Qed.

(** A pattern fits a path. *)
Fixpoint fits (ps : list pseg) (path : list string) : Prop :=
  match ps, path with
  | [], [] => True
  | Lit l :: ps', seg :: rest => l = seg /\ fits ps' rest
  | Wild :: ps', _ :: rest => fits ps' rest
  | Subtree :: _, _ :: _ => True
  | _, _ => False
  end.

Lemma here_in {H} (rs : list (list pseg * H)) h : here rs = Some h -> ([], h) ∈ rs.
Proof.
  unfold here. intros Hh. apply head_Some_elem_of in Hh. apply list_elem_of_omap in Hh as ([[] h'] & Hin & Hq); simplify_eq/=. done.
Qed.

Lemma child_in {H} ok (rs : list (list pseg * H)) ps h :
  (ps, h) ∈ child ok rs -> exists s, ok s = true /\ (s :: ps, h) ∈ rs.
Proof.
  unfold child. rewrite list_elem_of_omap. intros ([[|s ps'] h'] & Hin & Hq); simplify_eq/=.
  destruct (ok s) eqn:Hok; simplify_eq. eauto.
Qed.

Lemma matchPath_fits {H} (rs : list (list pseg * H)) path h :
  matchPath rs path = Some h -> exists ps, (ps, h) ∈ rs /\ fits ps path.
Proof.
  revert rs. induction path as [|seg rest IH]; intros rs Hm.
  - exists []. split; [by apply here_in|done].
  - cbn [matchPath] in Hm. destruct (matchPath (child (is_lit seg) rs) rest) as [h1|] eqn:H1; simplify_eq.
    { apply IH in H1 as (ps & Hin & Hf). apply child_in in Hin as ([l| |] & Hok & Hin); simplify_eq/=.
      apply String.eqb_eq in Hok as ->. exists (Lit seg :: ps). done. }
    destruct (if String.eqb seg "/" then None else _) as [h2|] eqn:H2; simplify_eq.
    { destruct (String.eqb seg "/"); [done|]. apply IH in H2 as (ps & Hin & Hf).
      apply child_in in Hin as ([l| |] & Hok & Hin); simplify_eq/=. by exists (Wild :: ps). }
    apply here_in, child_in in Hm as ([l| |] & Hok & Hin); simplify_eq/=. by exists [Subtree].
Qed.

(** The gated handlers are registered under the prefix. *)
Lemma gated_under_prefix su :
  Forall (fun r => match rt_Handler r with EGated _ => exists s, rt_Path r = [Lit "api"; Lit "v1"; s] | _ => True end)
    (hub_mux su).
Proof. destruct su as [[] [] []]; repeat (constructor; [cbn; eauto|]); constructor. Qed.

Lemma of_method_in {H} m (l : list (route H)) ps h : (ps, h) ∈ of_method m l -> exists r, r ∈ l /\ rt_Path r = ps /\ rt_Handler r = h.
Proof.
  unfold of_method. rewrite list_elem_of_omap. intros (r & Hin & Hq). case_match; simplify_eq. eauto.
Qed.

Lemma gated_path su m path g :
  matchPath (of_method m (hub_mux su)) path = Some (EGated g) -> exists x rest, path = "api" :: "v1" :: x :: rest.
Proof.
  intros (ps & Hin & Hf)%matchPath_fits. apply of_method_in in Hin as (r & Hr & <- & Hh).
  pose proof (gated_under_prefix su) as Hall. rewrite Forall_forall in Hall. specialize (Hall _ Hr).
  rewrite Hh in Hall. destruct Hall as [s Hs]. rewrite Hs in Hf.
  destruct path as [|a [|b [|x rest]]]; simpl in Hf; [done|by destruct Hf as [_ ?]| |].
  - destruct Hf as (_ & _ & Hf). by destruct s.
  - destruct Hf as (<- & <- & _). eauto.
Qed.

Lemma api_match su method x rest :
  matchMethodAndPath (hub_mux su) method ("api" :: "v1" :: x :: rest) =
  Some (default (EGated (api_endpoint method (x :: rest))) (exempt method (x :: rest))).
Proof.
  unfold matchMethodAndPath. rewrite !api_prefix, any_routes, get_routes.
  destruct (String.eqb_spec method "GET") as [->|H1].
  { rewrite get_routes. destruct (exempt "GET" (x :: rest)); [done|]. by destruct rest. }
  destruct (String.eqb_spec method "POST") as [->|H2].
  { rewrite post_routes. destruct (exempt "POST" (x :: rest)); [done|]. destruct rest; [|done].
    change (api_endpoint "POST" [x]) with (default GBackend (assoc x config_endpoints)). by destruct (assoc _ _). }
  destruct (String.eqb_spec method "") as [->|H3]; [rewrite any_routes; by destruct rest as [|? [|? [|]]]|].
  assert (Hb : api_endpoint method (x :: rest) = GBackend).
  { unfold api_endpoint. destruct (String.eqb_spec method "POST"); [done|]. by destruct rest. }
  rewrite of_method_unknown; [|unfold known_method; apply String.eqb_neq in H1, H2, H3; by rewrite H1, H2, H3|repeat constructor].
  rewrite matchPath_nil, Hb. destruct (String.eqb_spec method "HEAD") as [->|H4].
  { change (exempt "HEAD" (x :: rest)) with (exempt "GET" (x :: rest)). by destruct (exempt "GET" (x :: rest)). }
  unfold exempt, is_get. apply String.eqb_neq in H1, H2, H4. rewrite H1, H2, H4. by destruct rest as [|? [|? [|]]].
Qed.

Lemma mux_api su auth keys db now method path r x rest :
  path_segments path = "api" :: "v1" :: x :: rest -> clean path = true ->
  ServeHTTP su auth keys db now method path r =
  match exempt method (x :: rest) with
  | Some e => AHandle e
  | None =>
      match requireAPIAuth auth keys db now r with
      | Ok p => ARun (api_endpoint method (x :: rest)) p
      | Err status => ARefuse status
      end
  end.
Proof.
  intros Hp Hc. unfold ServeHTTP. rewrite Hp, api_match, Hc. cbn [orb].
  destruct (exempt method (x :: rest)) as [e|] eqn:He; [cbn [default]|done].
  assert (Hg : forall g, e <> EGated g); [|destruct e; [done..|by destruct (Hg g)]]. intros g ->.
  unfold exempt in He. by destruct rest as [|? [|? [|]]]; repeat case_match; simplify_eq.
Qed.

Lemma mux_runs su auth keys db now method path r g p :
  ServeHTTP su auth keys db now method path r = ARun g p ->
  requireAPIAuth auth keys db now r = Ok p /\ exists x rest, path_segments path = "api" :: "v1" :: x :: rest.
Proof.
  unfold ServeHTTP. intros Hs. destruct (matchMethodAndPath (hub_mux su) method (path_segments path)) as [e|] eqn:Hm; [|done].
  destruct (clean path || _); [|done]. unfold gate in Hs. destruct e as [| | | | | | | | | | | | |g']; try done.
  destruct (requireAPIAuth auth keys db now r) as [p'|] eqn:Ha; simplify_eq. split; [done|].
  unfold matchMethodAndPath in Hm. destruct (matchPath (of_method method _) _) eqn:H1; simplify_eq; [by eapply gated_path|].
  destruct (String.eqb method "HEAD"); [|by eapply gated_path].
  destruct (matchPath (of_method "GET" _) _) eqn:H2; simplify_eq; by eapply gated_path.
Qed.

(** C31: every request to the hub under /api/v1/ meets the gate, but for three.
    Whatever is configured: a request whose path lies under /api/v1/ (and is
    clean) and whose Host is not that of a proxy runs exactly the API handler of
    its name for the principal the gate accepted, and is refused with the gate's
    status otherwise, except for the session state, the end of the session and
    the terminal, which have checks of their own.  With proxying on, a request
    whose Host is that of a proxy is the proxy's whatever its path, and never
    runs a handler of the hub; and no request outside /api/v1/ runs an API
    handler. *)
Theorem api_requests_are_gated : forall {M} su pb auth readable dials keys db now (s : Server M) pr r,
  let served := APIHandler su pb auth readable dials keys db now s pr r in
  let slug := if ProxyEnabled s then proxySlugFromHost (sv_proxyBaseDomain s) (px_Host pr) else None in
  (forall x rest, slug = None -> path_segments (px_Path pr) = "api" :: "v1" :: x :: rest -> clean (px_Path pr) = true ->
     served =
     match exempt (px_Method pr) (x :: rest) with
     | Some e => AHandle e
     | None =>
         match requireAPIAuth auth keys db now r with
         | Ok p => ARun (api_endpoint (px_Method pr) (x :: rest)) p
         | Err status => ARefuse status
         end
     end) /\
  (forall sl, slug = Some sl -> served = AProxy (handleProxy pb auth readable dials db now pr sl s)) /\
  (forall g p, served = ARun g p ->
     slug = None /\ requireAPIAuth auth keys db now r = Ok p /\
     exists x rest, path_segments (px_Path pr) = "api" :: "v1" :: x :: rest).
Proof.
  intros M su pb auth readable dials keys db now s pr r served slug. unfold served, slug, APIHandler.
  destruct (ProxyEnabled s); cbn [negb]; [destruct (proxySlugFromHost _ _) as [sl0|]|].
  - split_and!; [done|by intros sl [= ->]|done].
  - split_and!; [intros x rest _; apply mux_api|done|]. intros g p Hs. split; [done|]. by eapply mux_runs.
  - split_and!; [intros x rest _; apply mux_api|done|]. intros g p Hs. split; [done|]. by eapply mux_runs.
Qed.

Definition plain_request : Auth.Request := Auth.MkRequest "" "" None.

(** A hub with proxying: the same path on its own host and on a proxy's. *)
Definition proxying : Server () :=
  MkServer (MkHubServer emptyClusterDB ∅ None) ∅ ∅ ∅ ∅ ∅ ∅ "proxy.example" None [].
Definition on_host (host : string) : ProxyRequest := MkProxyRequest "POST" host "/api/v1/destroy-box" "/api/v1/destroy-box" "" "" None.

Lemma api_requests_are_gated_witness :
  let serve host := APIHandler (MkSetup true true true) (MkPublic "https://hub.example" "") None true (fun _ => true) ∅
    (MkIdentityDB ∅ ∅) 0 proxying (on_host host) plain_request in
  serve "hub.example" = ARefuse 401 /\ serve "0aff.proxy.example" = AProxy (PxStatus 404).
Proof.
  intros serve. split.
  - destruct (api_requests_are_gated (MkSetup true true true) (MkPublic "https://hub.example" "") None true (fun _ => true) ∅
      (MkIdentityDB ∅ ∅) 0 proxying (on_host "hub.example") plain_request) as [H _].
    unfold serve. rewrite (H "destroy-box" []) by reflexivity. reflexivity.
  - destruct (api_requests_are_gated (MkSetup true true true) (MkPublic "https://hub.example" "") None true (fun _ => true) ∅
      (MkIdentityDB ∅ ∅) 0 proxying (on_host "0aff.proxy.example") plain_request) as (_ & H & _).
    unfold serve. rewrite (H "0aff") by reflexivity. reflexivity.
Defined.
