(* ===== verification/Startup.v ===== *)
(** * Starting the hub (internal/hub/serve.go, internal/hub/server.go)

    [Serve] makes the state directory, opens the store, builds the authenticator
    and the server, restores the registry and listens; [ReapLoop] is the
    background pass.  The file system, the opened store (whose schema is the
    subject of Migrate.v) and the listener are arguments. *)

From S2P Require Import Prelude GoStrings Sandbox Store Sha256 Enroll Auth Remote Registry Boxes Hooks Ingress Config Providers Routes.

Local Open Scope Z_scope.
Local Open Scope go_scope.

(** ** filepath.Dir *)

Definition clean_step (rooted : bool) (acc : list string) (seg : string) : list string :=
  if String.eqb seg "" || String.eqb seg "." then acc
  else if String.eqb seg ".." then
    match acc with
    | [] => if rooted then [] else [".."]
    | x :: acc' => if String.eqb x ".." then ".." :: acc else acc'
    end
  else seg :: acc.

Definition Clean (path : string) : string :=
  let rooted := HasPrefix path "/" in
  let body := Join (reverse (foldl (clean_step rooted) [] (Split path "/"))) "/" in
  if rooted then "/" +:+ body else if String.eqb body "" then "." else body.

(** The path up to its last slash, cleaned. *)
Definition Dir (path : string) : string :=
  match split_last "/" path with
  | Some (dir, _) => Clean (dir +:+ "/")
  | None => "."
  end.

Example Dir_examples :
  (Dir "llmbox-sessions.db", Dir "/var/lib/llmbox/x.db", Dir "/x.db", Dir "./x.db", Dir "a/../b//x", Dir "../x") =
  (".", "/var/lib/llmbox", "/", ".", "b", "..").
Proof. reflexivity. Qed.

(** ** The server *)

(** The tables of an opened store. *)
Record tables := MkTables {
  tb_cluster : ClusterDB; tb_settings : gmap string string; tb_boxes : BoxTable; tb_proxies : gmap string ProxyRecord;
  tb_audit : AuditTable; tb_ids : IdentityDB; tb_keys : KeyTable; tb_allowlist : AllowlistDB }.

Definition defaultProxyAuthCheckInterval : Z := 15 * Second.

(** [hooks.New]: no runner without hooks.  [Serve] hands the runner over as an
    interface, but every method of a nil runner does nothing. *)
Definition hooks_New (execs : list string) : option (list string) :=
  match execs with [] => None | _ => Some execs end.

(** The server with what it was built from. *)
Record hub (M : Type) := MkHubProcess {
  hb_srv : Server M; hb_ids : IdentityDB; hb_keys : KeyTable; hb_allowlist : AllowlistDB;
  hb_auth : option authenticator; hb_publicURL : string; hb_interval : Z }.
Arguments MkHubProcess {M}.
Arguments hb_srv {M}.
Arguments hb_ids {M}.
Arguments hb_keys {M}.
Arguments hb_allowlist {M}.
Arguments hb_auth {M}.
Arguments hb_publicURL {M}.
Arguments hb_interval {M}.

Section Server.
Context {M : Type} `{!BoxManager M}.
Implicit Types (h : hub M).

(** [hub.New]: [Bind] gives the authenticator the same store. *)
Definition New (hooks : option (list string)) (publicURL : string) (tb : tables) (auth : option authenticator) : hub M :=
  MkHubProcess
    (MkServer (MkHubServer (tb_cluster tb) (tb_settings tb) None) ∅ ∅ ∅ (tb_boxes tb) (tb_proxies tb) (tb_audit tb) "" hooks [])
    (tb_ids tb) (tb_keys tb) (tb_allowlist tb) auth (TrimRightSlash publicURL) defaultProxyAuthCheckInterval.

Definition with_srv (s : Server M) h : hub M :=
  MkHubProcess s (hb_ids h) (hb_keys h) (hb_allowlist h) (hb_auth h) (hb_publicURL h) (hb_interval h).

Definition SetProxyBaseDomain (domain : string) h : hub M :=
  let s := hb_srv h in
  with_srv (MkServer (sv_core s) (sv_remotes s) (sv_byToken s) (sv_pending s) (sv_boxes s) (sv_proxies s) (sv_audit s)
              (TrimByte "." (TrimSpace domain)) (sv_hooks s) (sv_destroyed s)) h.

Definition SetHub (c : Hub) h : hub M :=
  let s := hb_srv h in
  with_srv (MkServer (MkHubServer (hs_store (sv_core s)) (hs_settings (sv_core s)) (Some c)) (sv_remotes s) (sv_byToken s)
              (sv_pending s) (sv_boxes s) (sv_proxies s) (sv_audit s) (sv_proxyBaseDomain s) (sv_hooks s) (sv_destroyed s)) h.

Definition SetProxyAuthCheckInterval (d : Z) h : hub M :=
  MkHubProcess (hb_srv h) (hb_ids h) (hb_keys h) (hb_allowlist h) (hb_auth h) (hb_publicURL h)
    (if d <=? 0 then defaultProxyAuthCheckInterval else d).

(** What is configured, for the routes. *)
Definition setup_of h : setup :=
  MkSetup (bool_decide (is_Some (hs_hub (sv_core (hb_srv h))))) (bool_decide (is_Some (hb_auth h))) (AdminEnabled (an_auth <$> hb_auth h)).

(** ** Serve *)

Inductive effect :=
| EfMkdir (dir : string) (mode : Z) | EfOpen (path : string) | EfLog (line : string)
| EfServe (addr : string) (tls : option (string * string)) | EfClose.

Class HubEnv := {
  MkdirAll : string -> option string;
  OpenStore : string -> res string tables;
}.

Context `{HubEnv, IdentityServices}.

Definition serving (A : Type) : Type := go (list effect) string A.
Definition emit (e : effect) : serving () := fun t => (t ++ [e], Ok ()).
Definition lift {A} (r : res string A) : serving A := fun t => (t, r).
(** [defer]. *)
Definition deferred {A} (m : serving A) (e : effect) : serving A := fun t => let '(t', r) := m t in (t' ++ [e], r).

Definition make_dir (dir : string) : serving () :=
  if negb (String.eqb dir "") && negb (String.eqb dir ".") then
    let* _ := emit (EfMkdir dir 448) in
    match MkdirAll dir with Some e => go_fail e | None => go_ret () end
  else go_ret ().

Definition insecureTransportWarning : list string :=
  ["!! ==================================================================== !!";
   "!!  WARNING: serving over PLAINTEXT HTTP -- traffic is NOT encrypted.    !!";
   "!!                                                                      !!";
   "!!  API keys, login cookies, and relayed OAuth codes cross this port.   !!";
   "!!  Only run like this behind a TLS-terminating                         !!";
   "!!  reverse proxy on a trusted network. To terminate TLS in-process,    !!";
   "!!  set tls.enabled with tls.cert_file and tls.key_file in the config.  !!";
   "!! ==================================================================== !!"].

Fixpoint emit_lines (l : list string) : serving () :=
  match l with
  | [] => go_ret ()
  | x :: l' => let* _ := emit (EfLog x) in emit_lines l'
  end.

Definition tls_files (tls : TLSConfig) : option (string * string) :=
  if tl_Enabled tls then Some (tl_CertFile tls, tl_KeyFile tls) else None.

(** [listenAndServe]; [served] is how serving ended, [None] a clean shutdown. *)
Definition listenAndServe (addr : string) (tls : TLSConfig) (served : option string) : serving () :=
  let* _ := emit (EfServe addr (tls_files tls)) in
  match served with Some e => go_fail ("listening on " +:+ addr +:+ ": " +:+ e) | None => go_ret () end.

(** The server before it restores its registry, and the hub as it starts to listen. *)
Definition built (cfg : Config) (tb : tables) (auth : option authenticator) : hub M :=
  SetHub NewHub (SetProxyBaseDomain (px_BaseDomain (cf_Proxy cfg)) (New (hooks_New (cf_Hooks cfg)) (cf_PublicURL cfg) tb auth)).
Definition assemble (cfg : Config) (tb : tables) (auth : option authenticator) : hub M :=
  let srv := built cfg tb auth in with_srv (Restore (hb_srv srv)).1 srv.

Definition auth_disabled : string :=
  "auth is DISABLED: the admin UI and per-box proxies require no sign-in; configure auth.google or auth.github (plus auth.admin.emails) to require it".

Definition auth_lines (auth : option authenticator) : list string :=
  match auth with None => [auth_disabled] | Some _ => [] end.
Definition proxy_lines (base : string) : list string :=
  if negb (String.eqb base "") then ["box HTTP proxying enabled at *." +:+ base] else [].
Definition restored_lines (n : Z) (path : string) : list string :=
  if 0 <? n then ["restored " +:+ Itoa n +:+ " session(s) from " +:+ path] else [].
Definition banner (name version : string) (cfg : Config) : string :=
  let scheme := if tl_Enabled (cf_TLS cfg) then "HTTPS" else "HTTP" in
  name +:+ " " +:+ version +:+ " listening on " +:+ cf_HTTPAddr cfg +:+ " over " +:+ scheme +:+ " (public URL " +:+ cf_PublicURL cfg +:+ ")".

(** The part of [Serve] after the store is open: the hub handed to the listener. *)
Definition serve_store (name version : string) (cfg : Config) (tb : tables) (served : hub M -> option string) : serving (hub M) :=
  let* auth := lift (auth_New (cf_Auth cfg)) in
  let* _ := emit_lines (auth_lines auth) in
  let* _ := emit_lines (proxy_lines (px_BaseDomain (cf_Proxy cfg))) in
  let* _ := emit_lines ["spokes may join at " +:+ cf_PublicURL cfg +:+ "/spoke/connect"] in
  let h := assemble cfg tb auth in
  let* _ := emit_lines (restored_lines (Z.of_nat (Restore (hb_srv (built cfg tb auth))).2) (cf_StateFile cfg)) in
  let* _ := emit_lines (if tl_Enabled (cf_TLS cfg) then [] else insecureTransportWarning) in
  let* _ := emit_lines [banner name version cfg] in
  let* _ := listenAndServe (cf_HTTPAddr cfg) (cf_TLS cfg) (served h) in
  go_ret h.

(** [Serve]: the hub that served until a clean shutdown, or the error. *)
Definition Serve (name version : string) (cfg : Config) (served : hub M -> option string) : serving (hub M) :=
  let* _ := make_dir (Dir (cf_StateFile cfg)) in
  let* tb := lift (OpenStore (cf_StateFile cfg)) in
  let* _ := emit (EfOpen (cf_StateFile cfg)) in
  deferred (serve_store name version cfg tb served) EfClose.

(** ** ReapLoop *)

(** One tick: expired logins, departed spokes, the sync pass. *)
Definition reap_pass (now now' : Z) h : hub M :=
  let h1 := MkHubProcess (hb_srv h) (PurgeExpiredIdentities now (hb_ids h)) (hb_keys h) (hb_allowlist h) (hb_auth h) (hb_publicURL h) (hb_interval h) in
  with_srv (syncSpokes now' (PruneDepartedSpokes (hb_srv h1)).1) h1.

Inductive loop_event := Tick (now now' : Z) | Done.

Fixpoint ReapLoop (evs : list loop_event) h : hub M :=
  match evs with
  | [] => h
  | Done :: _ => h
  | Tick now now' :: evs' => ReapLoop evs' (reap_pass now now' h)
  end.

End Server.

(** ** What [Serve] does, in order *)

Section Starting.
Context {M : Type} `{!BoxManager M, HubEnv, IdentityServices}.
Implicit Types (h : hub M).

Lemma emit_lines_trace l t : emit_lines l t = (t ++ (EfLog <$> l), Ok ()).
Proof.
  revert t. induction l as [|x l IH]; intros t; cbn; [by rewrite app_nil_r|].
  unfold go_bind, emit. rewrite IH. by rewrite <- app_assoc.
Qed.

Lemma emit_lines_bind {A} l (k : () -> serving A) t : go_bind (emit_lines l) k t = k () (t ++ (EfLog <$> l)).
Proof. unfold go_bind. by rewrite emit_lines_trace. Qed.

(** The directory step of [Serve]: its effects and its error. *)
Definition dir_effects (cfg : Config) : list effect :=
  let dir := Dir (cf_StateFile cfg) in
  if negb (String.eqb dir "") && negb (String.eqb dir ".") then [EfMkdir dir 448] else [].
Definition dir_error (cfg : Config) : option string :=
  let dir := Dir (cf_StateFile cfg) in
  if negb (String.eqb dir "") && negb (String.eqb dir ".") then MkdirAll dir else None.

Lemma make_dir_trace cfg t :
  make_dir (Dir (cf_StateFile cfg)) t = (t ++ dir_effects cfg, match dir_error cfg with Some e => Err e | None => Ok () end).
Proof.
  unfold make_dir, dir_effects, dir_error. destruct (_ && _); [|by rewrite app_nil_r].
  unfold go_bind, emit. by destruct (MkdirAll _).
Qed.

Definition end_of_serving (cfg : Config) (served : option string) h : res string (hub M) :=
  match served with Some e => Err ("listening on " +:+ cf_HTTPAddr cfg +:+ ": " +:+ e) | None => Ok h end.

Definition warning (cfg : Config) : list string := if tl_Enabled (cf_TLS cfg) then [] else insecureTransportWarning.

Lemma serve_store_trace name version cfg tb (served : hub M -> option string) t :
  match auth_New (cf_Auth cfg) with
  | Err e => serve_store name version cfg tb served t = (t, Err e)
  | Ok auth => exists before,
      serve_store name version cfg tb served t =
      (t ++ (EfLog <$> auth_lines auth ++ before ++ warning cfg ++ [banner name version cfg]) ++
         [EfServe (cf_HTTPAddr cfg) (tls_files (cf_TLS cfg))],
       end_of_serving cfg (served (assemble cfg tb auth)) (assemble cfg tb auth))
  end.
Proof.
  destruct (auth_New (cf_Auth cfg)) as [auth|e] eqn:Ha; unfold serve_store; rewrite Ha; [|done].
  unfold go_bind at 1, lift. rewrite !emit_lines_bind. unfold listenAndServe, go_bind, emit, end_of_serving. fold (warning cfg).
  generalize (auth_lines auth), (proxy_lines (px_BaseDomain (cf_Proxy cfg))), (warning cfg), (banner name version cfg),
    (assemble (M:=M) cfg tb auth), ("spokes may join at " +:+ cf_PublicURL cfg +:+ "/spoke/connect"),
    (restored_lines (Z.of_nat (Restore (hb_srv (built (M:=M) cfg tb auth))).2) (cf_StateFile cfg)).
  intros l1 l2 l3 b h join l4. exists (l2 ++ [join] ++ l4). rewrite !fmap_app, <- !app_assoc. by destruct (served h).
Qed.

(** [Serve] listens exactly when the directory could be made, the store opened and
    the providers discovered, and then with the registry restored; every failure
    before that is returned; a store that was opened is closed last; the transport
    warning precedes the banner exactly when TLS is off. *)
Theorem Serve_spec : forall name version cfg (served : hub M -> option string),
  match dir_error cfg, OpenStore (cf_StateFile cfg), auth_New (cf_Auth cfg) with
  | Some e, _, _ | None, Err e, _ => Serve name version cfg served [] = (dir_effects cfg, Err e)
  | None, Ok tb, Err e =>
      Serve name version cfg served [] = (dir_effects cfg ++ [EfOpen (cf_StateFile cfg); EfClose], Err e)
  | None, Ok tb, Ok auth =>
      exists lines, Serve name version cfg served [] =
      (dir_effects cfg ++ [EfOpen (cf_StateFile cfg)] ++
         (EfLog <$> auth_lines auth ++ lines ++ warning cfg ++ [banner name version cfg]) ++
         [EfServe (cf_HTTPAddr cfg) (tls_files (cf_TLS cfg)); EfClose],
       end_of_serving cfg (served (assemble cfg tb auth)) (assemble cfg tb auth))
  end.
Proof.
  intros name version cfg served.
  assert (He : Serve name version cfg served [] =
    match dir_error cfg, OpenStore (cf_StateFile cfg) with
    | Some e, _ | None, Err e => (dir_effects cfg, Err e)
    | None, Ok tb => deferred (serve_store name version cfg tb served) EfClose (dir_effects cfg ++ [EfOpen (cf_StateFile cfg)])
    end).
  { unfold Serve, go_bind at 1. rewrite make_dir_trace. destruct (dir_error cfg); [done|]. unfold go_bind, lift.
    by destruct (OpenStore _). }
  rewrite He. destruct (dir_error cfg); [done|]. destruct (OpenStore _) as [tb|]; [|done]. unfold deferred.
  pose proof (serve_store_trace name version cfg tb served (dir_effects cfg ++ [EfOpen (cf_StateFile cfg)])) as Ht.
  destruct (auth_New _) as [auth|e]; [|rewrite Ht; by rewrite <- app_assoc].
  destruct Ht as [lines Ht]. exists lines. rewrite Ht. by rewrite <- !app_assoc.
Qed.

(** What a hub that served was built from. *)
Lemma Serve_ok name version cfg (served : hub M -> option string) t t' h :
  Serve name version cfg served t = (t', Ok h) ->
  exists tb auth, OpenStore (cf_StateFile cfg) = Ok tb /\ auth_New (cf_Auth cfg) = Ok auth /\ h = assemble cfg tb auth.
Proof.
  unfold Serve, go_bind at 1. rewrite make_dir_trace. destruct (dir_error cfg); [done|]. unfold go_bind, lift.
  destruct (OpenStore _) as [tb|]; [|done]. unfold emit, deferred.
  pose proof (serve_store_trace name version cfg tb served ((t ++ dir_effects cfg) ++ [EfOpen (cf_StateFile cfg)])) as Ht.
  destruct (auth_New _) as [auth|e]; [|by rewrite Ht]. destruct Ht as [lines Ht]. rewrite Ht. unfold end_of_serving.
  destruct (served _); intros [= _ <-]. eauto.
Qed.

End Starting.

(** ** The life of a hub *)

Section Life.
Context {M : Type} `{!BoxManager M}.
Implicit Types (h : hub M).

(** What the store holds. *)
Definition tables_of h : tables :=
  let s := hb_srv h in
  MkTables (hs_store (sv_core s)) (hs_settings (sv_core s)) (sv_boxes s) (sv_proxies s) (sv_audit s) (hb_ids h) (hb_keys h) (hb_allowlist h).

(** A hub over a new store, its operations and the spokes around it, the ticks of
    [ReapLoop], the handlers of the other tables, and restarts under whatever
    configuration. *)
Inductive life : hub M -> Prop :=
| LifeNew cfg tb auth : tb_boxes tb = ∅ -> tb_proxies tb = ∅ -> life (assemble cfg tb auth)
| LifeOp h o : life h -> life (with_srv (hub_step (hb_srv h) o) h)
| LifeReap h evs : life h -> life (ReapLoop evs h)
| LifeTables h ids keys allow :
    life h -> life (MkHubProcess (hb_srv h) ids keys allow (hb_auth h) (hb_publicURL h) (hb_interval h))
| LifeRestart h cfg auth : life h -> life (assemble cfg (tables_of h) auth).

(** Restoring over the stored form of a registry. *)
Lemma Restore_mirrored (s : Server M) (reg : gmap string session) c :
  sv_byToken s = ∅ -> hs_hub (sv_core s) = Some c ->
  sv_boxes s = persistLocked <$> reg -> (forall tok sess, reg !! tok = Some sess -> ss_Token sess = tok) ->
  proxies_ok (sv_proxies s) ->
  good (Restore s).1 /\ (Restore s).2 = size reg /\
  sv_byToken (Restore s).1 = filter (fun kv => resolveStored (ss_SpokeName kv.2) s ∈ knownSpokeNames s) reg.
Proof.
  intros Hb Hc Hs Hk Hp. set (s' := with_byToken reg s).
  assert (Hm : mirrored s') by (split; done).
  assert (Hreg : foldl (fun t ps => <[br_Token ps := sessionFromPersisted ps]> t) (sv_byToken s) (ListBoxes (sv_boxes s)) = reg)
    by (rewrite Hb; exact (restore_mirrored s' Hm)).
  unfold Restore. rewrite Hreg. fold s'. split_and!; [|done|by apply (PruneDepartedSpokes_byToken s' c)].
  by apply good_PruneDepartedSpokes.
Qed.

Lemma assemble_mirrored cfg tb auth (reg : gmap string session) :
  tb_boxes tb = persistLocked <$> reg -> (forall tok sess, reg !! tok = Some sess -> ss_Token sess = tok) ->
  proxies_ok (tb_proxies tb) ->
  let h : hub M := assemble cfg tb auth in
  good (hb_srv h) /\
  sv_byToken (hb_srv h) =
    filter (fun kv => resolveStored (ss_SpokeName kv.2) (hb_srv (built (M:=M) cfg tb auth)) ∈ dom (cdb_spokes (tb_cluster tb))) reg.
Proof.
  intros Hb Hk Hp h. destruct (Restore_mirrored (hb_srv (built (M:=M) cfg tb auth)) reg NewHub) as (Hg & _ & Hr); try done.
Qed.

Lemma reap_pass_good now now' h : good (hb_srv h) -> good (hb_srv (reap_pass now now' h)).
Proof. intros Hg. cbn. by apply good_syncSpokes, good_PruneDepartedSpokes. Qed.

Lemma ReapLoop_good evs : forall h, good (hb_srv h) -> good (hb_srv (ReapLoop evs h)).
Proof. induction evs as [|[now now'|] evs IH]; intros h Hg; cbn; auto using reap_pass_good. Qed.

Lemma life_good h : life h -> good (hb_srv h).
Proof.
  induction 1 as [cfg tb auth Hb Hp|h o _ IH|h evs _ IH|h ids keys allow _ IH|h cfg auth _ [[Hm Hk] Hp]].
  - apply (assemble_mirrored cfg tb auth ∅); [by rewrite fmap_empty|done|]. rewrite Hp. split; intros *; by rewrite lookup_empty.
  - exact (good_hub_run [o] _ IH).
  - by apply ReapLoop_good.
  - done.
  - by apply (assemble_mirrored cfg (tables_of h) auth (sv_byToken (hb_srv h))).
Qed.

Lemma PruneDepartedSpokes_keeps (s : Server M) c :
  hs_hub (sv_core s) = Some c ->
  sv_core (PruneDepartedSpokes s).1 = sv_core s /\ sv_pending (PruneDepartedSpokes s).1 = sv_pending s /\
  sv_proxyBaseDomain (PruneDepartedSpokes s).1 = sv_proxyBaseDomain s.
Proof.
  intros Hc. rewrite (PruneDepartedSpokes_parts s c Hc). set (test := fun sess => negb _).
  destruct (replay_all_quiet (drop_sessions test s).2 (drop_sessions test s).1) as [(_ & _ & Qp & Qc & Qd & _) _].
  unfold pruneProxiesForDepartedSpokes. set (s2 := replay_all _ _) in *.
  destruct (negb (ProxyEnabled s2)); [by rewrite Qc, Qp, Qd|].
  destruct (delete_slugs_quiet (filter (fun p => resolveStored (pr_Spoke p) s2 ∉ knownSpokeNames s) (ListProxies (sv_proxies s2))) s2) as (_ & _ & Dp & Dc & Dd & _).
  by rewrite Dc, Dp, Dd, Qc, Qp, Qd.
Qed.

(** C7: no restart loses a box, in the hub that runs its operations one after the
    other over a store that does not fail.  Whatever operations, changes of the
    spokes and restarts, under other configurations too, a hub went through since
    its store was new, each operation run to its end before the next and before
    a restart: its stored records are the stored form of its registry, record by
    record, and every box and port has at most one proxy.  (Overlapping operations
    can break this: [Boxes.sync_resurrects_destroyed].)  A hub that [Serve] then starts over that store restores the
    registry exactly, except for the boxes of spokes that are no longer enrolled;
    with proxying on it keeps exactly the proxies of enrolled spokes; and it keeps
    the spokes, logins, keys and allowlist. *)
Theorem restarts_lose_no_box : forall h, life h ->
  let s := hb_srv h in
  let enrolled n := resolveStored n s ∈ knownSpokeNames s in
  mirrored s /\ proxies_ok (sv_proxies s) /\
  forall `{HubEnv} `{IdentityServices} name version cfg (served : hub M -> option string) t t' h',
  OpenStore (cf_StateFile cfg) = Ok (tables_of h) ->
  Serve name version cfg served t = (t', Ok h') ->
  let s' := hb_srv h' in
  life h' /\
  sv_byToken s' = filter (fun kv => enrolled (ss_SpokeName kv.2)) (sv_byToken s) /\
  (ProxyEnabled s' = true -> forall slug p,
     sv_proxies s' !! slug = Some p <-> sv_proxies s !! slug = Some p /\ enrolled (pr_Spoke p)) /\
  sv_core s' = MkHubServer (hs_store (sv_core s)) (hs_settings (sv_core s)) (Some NewHub) /\ sv_pending s' = ∅ /\
  hb_ids h' = hb_ids h /\ hb_keys h' = hb_keys h /\ hb_allowlist h' = hb_allowlist h.
Proof.
  intros h Hl s enrolled. pose proof (life_good h Hl) as [Hm Hp]. split; [done|]. split; [done|].
  intros E1 E2 name version cfg served t t' h' Hopen Hserve s'.
  destruct (Serve_ok _ _ _ _ _ _ _ Hserve) as (tb & auth & Ho & _ & Hh'). assert (tb = tables_of h) as -> by congruence.
  subst h' s'. split; [by apply LifeRestart|].
  set (s0 := with_byToken (sv_byToken s) (hb_srv (built (M:=M) cfg (tables_of h) auth))).
  assert (Hm0 : mirrored s0) by exact Hm.
  assert (Hs' : hb_srv (assemble (M:=M) cfg (tables_of h) auth) = (PruneDepartedSpokes s0).1).
  { unfold assemble, Restore. cbn [hb_srv with_srv fst]. do 2 f_equal. unfold s0. f_equal. exact (restore_mirrored s0 Hm0). }
  destruct (PruneDepartedSpokes_keeps s0 NewHub eq_refl) as (Hcore & Hpend & Hdom). rewrite Hs'.
  destruct (PruneDepartedSpokes_spec s0 NewHub eq_refl Hm0 Hp) as (_ & _ & Hpx & _). split_and!; try done.
  - by rewrite (PruneDepartedSpokes_byToken s0 NewHub eq_refl).
  - unfold ProxyEnabled in *. rewrite Hdom. auto.
Qed.

End Life.

(** ** Surfaces of a hub without sign-in *)

Section Surfaces.
Context {M : Type} `{!BoxManager M}.

(** Without a provider the admin UI is not open but absent, the API takes API keys
    only, and the proxies are open to everyone. *)
Theorem no_provider_closes_the_admin_ui : forall (h : hub M) keys db now r px,
  hb_auth h = None ->
  ServeHTTP (setup_of h) None keys db now "GET" "/admin" r = AMux /\
  (bearerToken r = None -> requireAPIAuth None keys db now r = Err 401) /\
  proxyAuthorized None db now px = None.
Proof.
  intros h keys db now r px Ha. split; [|split; [by unfold requireAPIAuth; intros ->|done]].
  unfold setup_of. rewrite Ha. cbn [fmap option_fmap option_map AdminEnabled].
  by destruct (bool_decide (is_Some (hs_hub (sv_core (hb_srv h))))).
Qed.

(** A provider without admin addresses still serves its sign-in; no identity
    passes it. *)
Theorem sign_in_without_admins : forall `{IdentityServices} cfg a (h : hub M) keys db now r,
  auth_New (cf_Auth cfg) = Ok (Some a) -> lowerSet (ad_Emails (au_Admin (cf_Auth cfg))) = ∅ -> hb_auth h = Some a ->
  ServeHTTP (setup_of h) (Some (an_auth a)) keys db now "GET" "/auth/google/login" r = AHandle ELogin /\
  ServeHTTP (setup_of h) (Some (an_auth a)) keys db now "GET" "/admin" r = AMux /\
  forall email, isAdmin (an_auth a) email = false.
Proof.
  intros Hs cfg a h keys db now r Ha Hadm Hh. pose proof (auth_New_spec (cf_Auth cfg)) as Hspec. rewrite Ha in Hspec.
  destruct Hspec as (_ & _ & _ & _ & _ & He & _). unfold setup_of. rewrite Hh. cbn [fmap option_fmap option_map AdminEnabled].
  rewrite He, Hadm. split_and!; [by destruct (bool_decide (is_Some (hs_hub (sv_core (hb_srv h)))))..|].
  intros email. unfold isAdmin. rewrite He, Hadm. destruct (String.eqb email ""); [done|]. by apply bool_decide_eq_false, not_elem_of_empty.
Qed.

End Surfaces.

(** ** A hub that creates a box and is restarted *)

Module StartupDemo.

#[export] Existing Instance BoxesDemo.listed.

Definition cfg : Config := MkConfig ":8080" "http://hub" "state.db" ["hook"] (cf_Auth Default) (MkProxyConfig "proxy.example") (MkTLSConfig false "" "").
Definition tb : tables := MkTables (hs_store BoxesDemo.core) ∅ ∅ ∅ ∅ (MkIdentityDB ∅ ∅) ∅ emptyAllowlistDB.
Definition started : hub (list Box) := assemble cfg tb None.

(** "edge" connects, and a box "web" is created there. *)
Definition connected : hub (list Box) :=
  with_srv (hub_step (hb_srv started) (HoWorld BoxesDemo.core {[0%nat := []; 1%nat := []]})) started.
Definition running : hub (list Box) :=
  with_srv (hub_step (hb_srv connected)
    (HoCreate BoxesDemo.run (Some [7]) BoxesDemo.rnds 0 0 (BoxesDemo.opts "web" "edge"))) connected.

#[export] Instance env : HubEnv := {| MkdirAll _ := None; OpenStore _ := Ok (tables_of running) |}.
#[export] Existing Instance ProvidersDemo.services.

End StartupDemo.

Import StartupDemo.

Lemma restarts_lose_no_box_witness : exists (h' : hub (list Box)) t',
  Serve "llmbox" "v1" cfg (fun _ => None) [] = (t', Ok h') /\ last t' = Some EfClose /\
  ss_BoxID <$> sv_byToken (hb_srv h') !! BoxesDemo.tok = Some "web" /\
  sv_byToken (hb_srv h') !! BoxesDemo.tok = sv_byToken (hb_srv running) !! BoxesDemo.tok.
Proof.
  destruct (Serve "llmbox" "v1" cfg (fun _ : hub (list Box) => None) []) as [t' r] eqn:Hs.
  destruct r as [h'|e]; [|exfalso; apply (f_equal (fun x => is_ok x.2)) in Hs; vm_compute in Hs; discriminate].
  exists h', t'. split; [reflexivity|]. split.
  { apply (f_equal fst) in Hs. cbn [fst] in Hs. rewrite <- Hs. vm_compute. reflexivity. }
  destruct (restarts_lose_no_box running) as (_ & _ & Hrestart).
  { unfold running. apply LifeOp. unfold connected. apply LifeOp. apply LifeNew; reflexivity. }
  destruct (Hrestart env ProvidersDemo.services "llmbox" "v1" cfg (fun _ => None) [] t' h' eq_refl Hs) as (_ & Hreg & _).
  rewrite Hreg. vm_compute. split; reflexivity.
Defined.
