(* ===== verification/CommandLine.v ===== *)
(** * The spoke's command line (internal/spoke/spoke.go)

    The command tree with its flags and defaults, what a run command makes of the
    flags, the operator commands of the firecracker backend, and the enrollment
    command the hub prints.  The cobra library is an interface with the law the tree
    relies on; the number formats of pflag are arguments. *)

From S2P Require Import Prelude GoStrings Sandbox Ingress Config Microvm Firecracker Spoke Api Startup.

Local Open Scope Z_scope.

(** ** Flags *)

Inductive flagKind := FString | FStringArray | FStringSlice | FBool | FInt | FInt64 | FFloat64 | FDuration.
Record flagDef := MkFlag { fd_kind : flagKind; fd_name : string; fd_default : string }.

Definition spokeStateFileName : string := "llmbox-spoke.json".
Definition spokeStateDirName : string := ".llmbox".

(** [home] is what [os.UserHomeDir] reports. *)
Definition defaultSpokeStatePath (home : option string) : string :=
  match home with
  | None | Some "" => spokeStateFileName
  | Some h => Startup.Clean (h +:+ "/" +:+ spokeStateDirName +:+ "/" +:+ spokeStateFileName)
  end.

Definition addCommonSpokeFlags (home : option string) : list flagDef :=
  [MkFlag FString "hub" ""; MkFlag FString "token" ""; MkFlag FString "state" (defaultSpokeStatePath home);
   MkFlag FString "tls-ca" ""; MkFlag FBool "tls-insecure" "false"; MkFlag FString "namespace" "";
   MkFlag FString "init-script" ""; MkFlag FDuration "init-script-timeout" "5m0s"; MkFlag FStringArray "copy" "";
   MkFlag FStringArray "publish-port" ""; MkFlag FInt "box-memory-mb" "4096"; MkFlag FFloat64 "box-cpus" "2";
   MkFlag FInt64 "box-pids-limit" "4096"; MkFlag FInt "max-boxes" "0"; MkFlag FFloat64 "box-disk-gb" "10";
   MkFlag FFloat64 "box-max-disk-gb" "100"; MkFlag FString "box-socket-dir" ""; MkFlag FStringArray "box-peer" "";
   MkFlag FBool "network-isolation" "false"; MkFlag FString "dns-listen" "127.0.0.1:53";
   MkFlag FString "dns-upstream" "1.1.1.1:53"; MkFlag FString "registry" ""; MkFlag FString "registry-username" "";
   MkFlag FString "registry-password-file" ""].

Definition addDockerSpokeFlags : list flagDef := [MkFlag FString "image" ""; MkFlag FString "box-gpus" ""].

Definition addFirecrackerSpokeFlags : list flagDef :=
  [MkFlag FString "kernel" ""; MkFlag FString "rootfs" ""; MkFlag FString "payload" ""; MkFlag FString "state-dir" "";
   MkFlag FString "egress-mode" ""; MkFlag FBool "disable-egress" "false"; MkFlag FInt "pool-size" "0";
   MkFlag FString "jailer" ""; MkFlag FString "firecracker" ""; MkFlag FString "chroot-base" "";
   MkFlag FInt "uid-min" "0"; MkFlag FInt "uid-max" "0"; MkFlag FInt "tap-group" "0"; MkFlag FString "cgroup-version" ""].

Definition addCloudHypervisorSpokeFlags : list flagDef :=
  [MkFlag FString "kernel" ""; MkFlag FString "rootfs" ""; MkFlag FString "state-dir" "";
   MkFlag FStringSlice "gpu-passthrough" ""; MkFlag FStringSlice "vgpu-mdev" ""; MkFlag FString "cloud-hypervisor" "";
   MkFlag FString "egress-mode" ""; MkFlag FBool "disable-egress" "false"; MkFlag FInt "pool-size" "0"; MkFlag FInt "tap-group" "0"].

Definition networkPoolFlags : list flagDef := [MkFlag FInt "pool-size" "0"; MkFlag FInt "tap-group" "0"; MkFlag FString "uplink" ""].

(** ** The tree *)

Inductive command := Command (name : string) (flags : list flagDef) (subs : list command).
Definition cmd_name (c : command) : string := let '(Command n _ _) := c in n.
Definition cmd_flags (c : command) : list flagDef := let '(Command _ f _) := c in f.
Definition cmd_subs (c : command) : list command := let '(Command _ _ s) := c in s.

Definition state_dir_flag : flagDef := MkFlag FString "state-dir" "".

Definition newFirecrackerFetchCmd : command :=
  Command "fetch" [state_dir_flag; MkFlag FString "registry" ""; MkFlag FString "registry-username" ""; MkFlag FString "registry-password-file" ""] [].
Definition newFirecrackerVMListCmd : command := Command "list" [state_dir_flag] [].
Definition newFirecrackerVMDestroyCmd : command := Command "destroy" [state_dir_flag] [].
Definition newFirecrackerVMDestroyAllCmd : command := Command "destroy-all" [state_dir_flag; MkFlag FBool "yes" "false"] [].
Definition newFirecrackerVMCmd : command :=
  Command "vm" [] [newFirecrackerVMListCmd; newFirecrackerVMDestroyCmd; newFirecrackerVMDestroyAllCmd].
Definition newFirecrackerNetworkSetupCmd : command := Command "setup" networkPoolFlags [].
Definition newFirecrackerNetworkTeardownCmd : command := Command "teardown" networkPoolFlags [].
Definition newFirecrackerNetworkCmd : command :=
  Command "network" [] [newFirecrackerNetworkSetupCmd; newFirecrackerNetworkTeardownCmd].

Definition newSpokeRunCmd (home : option string) (backendName : string) (backendFlags : list flagDef) (subs : list command) : command :=
  Command backendName (addCommonSpokeFlags home ++ backendFlags) subs.

Definition NewRootCmd (home : option string) (name : string) : command :=
  Command name []
    [newSpokeRunCmd home "docker" addDockerSpokeFlags [];
     newSpokeRunCmd home "firecracker" addFirecrackerSpokeFlags [newFirecrackerFetchCmd; newFirecrackerVMCmd; newFirecrackerNetworkCmd];
     newSpokeRunCmd home "cloud-hypervisor" addCloudHypervisorSpokeFlags []].

(** ** Running a spoke *)

(** The values given to the flags on the command line, in order. *)
Definition given : Type := list (string * string).

Definition values (g : given) (name : string) : list string := (List.filter (fun fv => String.eqb (fst fv) name) g).*2.
(** A flag with one value: the last given, or its default. *)
Definition value (c : command) (g : given) (name : string) : string :=
  match last (values g name) with
  | Some v => v
  | None => match first_match (fun d => String.eqb (fd_name d) name) (cmd_flags c) with Some d => fd_default d | None => "" end
  end.

(** Where a spoke connects, where it keeps its credential, and its options. *)
Record spokeRun := MkSpokeRun {
  sr_hubURL : string; sr_statePath : string; sr_isolation : bool; sr_dnsListen : string; sr_dnsUpstream : string;
  sr_options : spokeOptions }.

Section Run.
(** How pflag reads numbers, booleans and comma-separated lists. *)
Context (to_int : string -> Z) (to_bool : string -> bool) (to_slice : list string -> list string) (to_limits : (string -> string) -> Limits).

Definition run_of (backendName : string) (c : command) (g : given) : spokeRun :=
  let v := value c g in
  let ch := String.eqb backendName "cloud-hypervisor" in
  let fc := String.eqb backendName "firecracker" in
  let only (b : bool) (s : string) : string := if b then s else "" in
  MkSpokeRun (v "hub") (v "state") (to_bool (v "network-isolation")) (v "dns-listen") (v "dns-upstream")
    (MkSpokeOptions (v "token") backendName (v "box-gpus") (v "init-script") (values g "copy") (values g "publish-port")
       (v "registry", v "registry-username", v "registry-password-file") (v "tls-ca") (to_bool (v "tls-insecure"))
       (v "image") (v "box-socket-dir") (v "namespace") (to_limits v) (values g "box-peer")
       (only ch (v "kernel")) (only ch (v "rootfs")) (only ch (v "state-dir")) (to_slice (values g "gpu-passthrough"))
       (to_slice (values g "vgpu-mdev")) (v "cloud-hypervisor") (only ch (v "egress-mode")) (ch && to_bool (v "disable-egress"))
       (if ch then to_int (v "pool-size") else 0) (if ch then to_int (v "tap-group") else 0)
       (only fc (v "kernel")) (only fc (v "rootfs")) (v "payload") (only fc (v "state-dir")) (fc && to_bool (v "disable-egress"))
       (only fc (v "egress-mode")) (if fc then to_int (v "pool-size") else 0) (v "jailer") (v "firecracker") (v "chroot-base")
       (if fc then to_int (v "uid-min") else 0) (if fc then to_int (v "uid-max") else 0) (if fc then to_int (v "tap-group") else 0) (v "cgroup-version")).

(** The [RunE] of a run command: the arguments of [runSpoke]. *)
Definition run_cmd (backendName : string) (c : command) (g : given) : res string spokeRun :=
  let r := run_of backendName c g in
  if String.eqb (sr_hubURL r) "" then Err "--hub is required (e.g. wss://hub.example.com/spoke/connect)" else Ok r.
End Run.

(** ** The operator commands *)

Definition vmStateLabel (v : VMStatus) : string := if vs_Paused v then "paused" else if vs_Running v then "running" else "stopped".
Definition dashIfEmpty (s : string) : string := if String.eqb s "" then "-" else s.

(** The table of [vm list], row by row; [rfc3339] prints an instant in seconds. *)
Definition vm_row (rfc3339 : Z -> string) (v : VMStatus) : list string :=
  [vs_Token v; dashIfEmpty (vs_BoxID v); dashIfEmpty (vs_Namespace v); vs_Phase v; vmStateLabel v; Itoa (vs_NetIndex v); rfc3339 (vs_Created v)].

Definition runFirecrackerVMList (rfc3339 : Z -> string) (d : StateDir boxMeta) (running : string -> bool) : list (list string) :=
  match ListVMs d running with
  | [] => [["no firecracker boxes on this host"]]
  | vms => ["TOKEN"; "BOX ID"; "NAMESPACE"; "PHASE"; "STATE"; "SLOT"; "CREATED"] :: (vm_row rfc3339 <$> vms)
  end.

Definition destroyed_line (v : VMStatus) : string := "destroyed firecracker box " +:+ vs_Token v.

Definition runFirecrackerVMDestroy (o : OpHost) (idOrToken : string) : go OpFiles opError (list string) := fun s =>
  match DestroyVM o idOrToken s with
  | (s', Ok v) => (s', Ok [destroyed_line v])
  | (s', Err e) => (s', Err e)
  end.

(** [vm destroy-all]: the lines printed and the errors; without [--yes] nothing is
    touched. *)
Definition runFirecrackerVMDestroyAll (o : OpHost) (s : OpFiles) : OpFiles * (list string * list opError) :=
  let '(s', (gone, errs)) := DestroyAllVMs o s in
  (s', ((destroyed_line <$> gone) ++
        (if bool_decide (errs = []) then ["destroyed " +:+ Itoa (Z.of_nat (length gone)) +:+ " firecracker box(es)"] else []), errs)).

Definition destroy_all_cmd (yes : bool) (o : OpHost) (s : OpFiles) : OpFiles * res string (list string * list opError) :=
  if negb yes then (s, Err "refusing to destroy all boxes without --yes")
  else let '(s', out) := runFirecrackerVMDestroyAll o s in (s', Ok out).

(** ** The hub's enrollment command *)

Definition flag_words (g : given) : list string := concat ((fun fv => ["--" +:+ fst fv; snd fv]) <$> g).

(** cobra: a subcommand of the root given flags in the form [--flag value] is the
    command run, with those values (the documented form for flags that take one). *)
Class Cobra := {
  Execute : command -> list string -> option (list string * given);
  Execute_run root c g : c ∈ cmd_subs root -> NoDup (cmd_name <$> cmd_subs root) ->
    Forall (fun fv => exists d, d ∈ cmd_flags c /\ fd_name d = fst fv /\ fd_kind d = FString) g ->
    Execute root (cmd_name c :: flag_words g) = Some ([cmd_name c], g);
}.

(** A word of a shell command: not empty, and without spaces. *)
Definition word (s : string) : Prop := s <> "" /\ Forall (fun c => is_space c = false) (String.list_ascii_of_string s).

Lemma fields_word s : Forall (fun c => is_space c = false) (String.list_ascii_of_string s) ->
  forall acc t, fields_acc (s +:+ String " " t) acc = if String.eqb (acc +:+ s) "" then fields_acc t "" else (acc +:+ s) :: fields_acc t "".
Proof.
  induction s as [|c s IH]; intros Hs acc t.
  - rewrite sapp_nil_l, sapp_nil_r. cbn [fields_acc]. done.
  - cbn [String.list_ascii_of_string] in Hs. apply Forall_cons in Hs as [Hc Hs]. rewrite sapp_cons. cbn [fields_acc]. rewrite Hc.
    rewrite IH by done. by rewrite sapp_assoc.
Qed.

Lemma fields_last s : Forall (fun c => is_space c = false) (String.list_ascii_of_string s) ->
  forall acc, fields_acc s acc = if String.eqb (acc +:+ s) "" then [] else [acc +:+ s].
Proof.
  induction s as [|c s IH]; intros Hs acc; [by rewrite sapp_nil_r|].
  cbn [String.list_ascii_of_string] in Hs. apply Forall_cons in Hs as [Hc Hs]. cbn [fields_acc]. rewrite Hc.
  rewrite IH by done. by rewrite sapp_assoc.
Qed.

Lemma Fields_word w t : word w -> Fields (w +:+ String " " t) = w :: Fields t.
Proof. intros [Hne Hw]. unfold Fields. rewrite fields_word by done. rewrite sapp_nil_l. by destruct (String.eqb_spec w ""). Qed.

Lemma Fields_last w : word w -> Fields w = [w].
Proof. intros [Hne Hw]. unfold Fields. rewrite fields_last by done. rewrite sapp_nil_l. by destruct (String.eqb_spec w ""). Qed.

Section Enrollment.
Context `{Cobra} (to_int : string -> Z) (to_bool : string -> bool) (to_slice : list string -> list string) (to_limits : (string -> string) -> Limits).

(** The command the hub prints for a new spoke, run on a host, starts a spoke on the
    backend the hub named, that dials the hub's own address with the token the hub
    issued, and leaves every other setting at its default. *)
Theorem generated_command_runs : forall home publicURL token backend,
  backend ∈ ["docker"; "firecracker"; "cloud-hypervisor"] -> word (spokeConnectURL publicURL) -> word token ->
  exists c g args run,
  Fields (spokeRunCommand publicURL token backend) = "llmbox-spoke" :: args /\
  c ∈ cmd_subs (NewRootCmd home "llmbox-spoke") /\ cmd_name c = backend /\
  Execute (NewRootCmd home "llmbox-spoke") args = Some ([backend], g) /\
  run_cmd to_int to_bool to_slice to_limits backend c g = Ok run /\
  sr_hubURL run = spokeConnectURL publicURL /\ o_token (sr_options run) = token /\ o_backend (sr_options run) = backend /\
  sr_statePath run = defaultSpokeStatePath home /\
  (forall f, f <> "hub" -> f <> "token" -> value c g f = value c [] f).
Proof.
  intros home publicURL token backend Hb Hu Ht.
  assert (exists c, c ∈ cmd_subs (NewRootCmd home "llmbox-spoke") /\ cmd_name c = backend /\
    exists more, cmd_flags c = addCommonSpokeFlags home ++ more) as (c & Hc & Hn & more & Hf).
  { rewrite !elem_of_cons in Hb. cbn [NewRootCmd cmd_subs].
    destruct Hb as [->|[->|[->|Hb%elem_of_nil]]]; [..|done].
    - eexists. split; [left|]. split; [reflexivity|]. by eexists.
    - eexists. split; [right; left|]. split; [reflexivity|]. by eexists.
    - eexists. split; [right; right; left|]. split; [reflexivity|]. by eexists. }
  assert (Hbw : word backend).
  { rewrite !elem_of_cons in Hb. destruct Hb as [->|[->|[->|Hb%elem_of_nil]]]; [..|done]; (split; [done|repeat constructor]). }
  set (g := [("hub", spokeConnectURL publicURL); ("token", token)]).
  assert (Hlast : last (values g "hub") = Some (spokeConnectURL publicURL) /\ last (values g "token") = Some token) by done.
  destruct Hlast as [Hh Htk].
  exists c, g, (backend :: flag_words g), (run_of to_int to_bool to_slice to_limits backend c g).
  split_and!; [|done|done| | |change (value c g "hub" = spokeConnectURL publicURL); unfold value; by rewrite Hh|change (value c g "token" = token); unfold value; by rewrite Htk|done| |].
  - unfold spokeRunCommand.
    change ("llmbox-spoke " +:+ backend +:+ " --hub " +:+ spokeConnectURL publicURL +:+ " --token " +:+ token)
      with ("llmbox-spoke" +:+ String " " (backend +:+ String " " ("--hub" +:+ String " " (spokeConnectURL publicURL +:+ String " " ("--token" +:+ String " " token))))).
    rewrite !Fields_word, Fields_last by (done || (split; [done|repeat constructor])). reflexivity.
  - rewrite <- Hn. apply Execute_run; [done|by apply (bool_decide_unpack _)|].
    rewrite Hf. repeat constructor; cbn [fst].
    + exists (MkFlag FString "hub" ""). split; [|done]. apply elem_of_app. left. left.
    + exists (MkFlag FString "token" ""). split; [|done]. apply elem_of_app. left. right. left.
  - unfold run_cmd. cbn [sr_hubURL run_of]. unfold value. rewrite Hh. destruct Hu as [Hne _]. by destruct (String.eqb_spec (spokeConnectURL publicURL) "").
  - change (value c g "state" = defaultSpokeStatePath home). unfold value. change (last (values g "state")) with (@None string). rewrite Hf. reflexivity.
  - intros f Hnh Hnt. unfold value. assert (Hv : values g f = []).
    { unfold values, g. cbn [List.filter fst]. apply String.eqb_neq in Hnh, Hnt. rewrite String.eqb_sym, Hnh, String.eqb_sym, Hnt. done. }
    rewrite Hv. done.
Qed.
End Enrollment.

(** ** A command-line parser with the law *)

Module Demo.
Fixpoint pairs (words : list string) : given :=
  match words with
  | f :: v :: t => (String.substring 2 (String.length f - 2) f, v) :: pairs t
  | _ => []
  end.

Definition execute (root : command) (args : list string) : option (list string * given) :=
  match args with
  | n :: words => if bool_decide (n ∈ cmd_name <$> cmd_subs root) then Some ([n], pairs words) else None
  | [] => None
  end.

Lemma substring_whole s : String.substring 0 (String.length s) s = s.
Proof. induction s as [|c s IH]; [done|]. cbn. by rewrite IH. Qed.

Lemma pairs_flag_words g : pairs (flag_words g) = g.
Proof.
  induction g as [|[f v] g IH]; [done|]. change (flag_words ((f, v) :: g)) with (("--" +:+ f) :: v :: flag_words g).
  cbn [pairs]. rewrite IH. change (String.substring 2 (String.length ("--" +:+ f) - 2) ("--" +:+ f)) with (String.substring 0 (String.length f - 0) f).
  by rewrite Nat.sub_0_r, substring_whole.
Qed.

#[export] Instance pairwise : Cobra.
Proof.
  refine {| Execute := execute |}. intros root c g Hc _ _. unfold execute.
  rewrite bool_decide_true by (apply list_elem_of_fmap; by exists c). by rewrite pairs_flag_words.
Defined.

(** A firecracker spoke joining a hub. *)
Lemma generated_command_example : exists c g args run,
  Fields (spokeRunCommand "https://hub.example" "tok" "firecracker") = "llmbox-spoke" :: args /\
  Execute (NewRootCmd (Some "/root/") "llmbox-spoke") args = Some (["firecracker"], g) /\
  run_cmd (fun _ => 0) (fun _ => false) (fun l => l) (fun _ => MkLimits 0 0 0 0 0 0) "firecracker" c g = Ok run /\
  sr_hubURL run = "wss://hub.example/spoke/connect" /\ sr_statePath run = "/root/.llmbox/llmbox-spoke.json".
Proof.
  destruct (generated_command_runs (fun _ => 0) (fun _ => false) (fun l => l) (fun _ => MkLimits 0 0 0 0 0 0)
    (Some "/root/") "https://hub.example" "tok" "firecracker") as (c & g & args & run & H1 & _ & _ & H2 & H3 & H4 & _ & _ & H5 & _).
  - by apply (bool_decide_unpack _).
  - split; [done|repeat constructor].
  - split; [done|repeat constructor].
  - exists c, g, args, run. split_and!; done.
Defined.
End Demo.
