(* ===== verification/OperatorCommands.v ===== *)
(** * The hub's operator commands (internal/hub/token/token.go, internal/hub/apikey/cmd.go)

    [token] and [apikey]: their flags and guards, what creating prints and what a
    listing shows.  They work on the opened state file; revoking and deleting are in
    Enroll.v and Auth.v.  The formats of [%q], durations and times, and the order in
    which [sort.Slice] leaves equal names, are arguments. *)

From S2P Require Import Prelude GoStrings Store Sha256 Enroll Auth Config CommandLine.

Local Open Scope Z_scope.

(** ** The command trees *)

Definition defaultJoinTokenTTL : Z := Hour.
Definition defaultAPIKeyTTL : Z := 365 * 24 * Hour.

Section Trees.
(** [time.Duration.String]. *)
Context (dur : Z -> string).

Definition state_file_flag : flagDef := MkFlag FString "state-file" DefaultStateFile.
Definition name_flag : flagDef := MkFlag FString "name" "".

Definition token_NewCmd : command :=
  Command "token" []
    [Command "create" [state_file_flag; name_flag; MkFlag FDuration "ttl" (dur defaultJoinTokenTTL)] [];
     Command "list" [state_file_flag] [];
     Command "revoke" [state_file_flag; MkFlag FString "id" ""; name_flag] []].

Definition apikey_NewCmd : command :=
  Command "apikey" []
    [Command "add" [state_file_flag; name_flag; MkFlag FDuration "ttl" (dur defaultAPIKeyTTL)] [];
     Command "list" [state_file_flag] [];
     Command "delete" [state_file_flag; MkFlag FString "id" ""; name_flag] []].
End Trees.

(** ** Creating *)

Definition nl : string := String "010" "".
Definition lines (l : list string) : string := Join l nl.

Section Text.
Context (quote : string -> string) (dur : Z -> string).

Definition token_text (stateFile spokeName : string) (ttl : Z) (token : string) : string :=
  lines ["Join token for spoke " +:+ quote spokeName +:+ " (valid " +:+ dur ttl +:+ ", one-time use):"; "";
         "  " +:+ token; ""; "Written to state file: " +:+ stateFile;
         "(the running hub must use this same state_file, or it will reject the token)"; "";
         "Start the spoke with:"; ""] +:+ nl +:+
  "  llmbox-spoke docker --hub wss://<hub>/spoke/connect --token" +:+ String " " (token +:+ nl).

Definition createJoinToken (rnd : option (list Z)) (stateFile spokeName : string) (ttl now : Z) (db : ClusterDB) :
    ClusterDB * res EnrollError string :=
  match CreateJoinToken rnd spokeName "docker" ttl now db with
  | (db', Ok token) => (db', Ok (token_text stateFile spokeName ttl token))
  | (db', Err e) => (db', Err e)
  end.

(** The [RunE] of [token create] and [token revoke]: the guards of the flags. *)
Inductive cmdError (E : Type) := ErrNameFlag | ErrSelector | ErrCommand (e : E).
#[global] Arguments ErrNameFlag {E}.
#[global] Arguments ErrSelector {E}.
#[global] Arguments ErrCommand {E}.

Definition commanded {S E A} (r : S * res E A) : S * res (cmdError E) A :=
  (r.1, match r.2 with Ok a => Ok a | Err e => Err (ErrCommand e) end).

Definition token_create (rnd : option (list Z)) (stateFile spokeName : string) (ttl now : Z) (db : ClusterDB) :
    ClusterDB * res (cmdError EnrollError) string :=
  if String.eqb spokeName "" then (db, Err ErrNameFlag) else commanded (createJoinToken rnd stateFile spokeName ttl now db).

Definition token_revoke (id name : string) (db : ClusterDB) : ClusterDB * res (cmdError EnrollError) () :=
  if String.eqb id "" && String.eqb name "" then (db, Err ErrSelector) else commanded (revokeJoinTokens id name db).

Definition key_text (stateFile name : string) (ttl : Z) (secret : string) : string :=
  lines ["API key " +:+ quote name +:+ " (valid " +:+ dur ttl +:+ "):"; "";
         "  " +:+ secret; ""; "Written to state file: " +:+ stateFile;
         "(the running hub must use this same state_file, or it will reject the key)"; "";
         "Pass it as a bearer token, e.g.:"; "";
         "  curl -H " +:+ String "034" "Authorization: Bearer " +:+ secret +:+ String "034" " ..."; ""].

Definition addAPIKey (rnd : option (list Z)) (stateFile name : string) (ttl now : Z) (st : KeyTable) :
    KeyTable * res APIKeyError string :=
  match Create rnd name ttl now st with
  | (st', Ok secret) => (st', Ok (key_text stateFile name ttl secret))
  | (st', Err e) => (st', Err e)
  end.

Definition apikey_add (rnd : option (list Z)) (stateFile name : string) (ttl now : Z) (st : KeyTable) :
    KeyTable * res (cmdError APIKeyError) string :=
  if String.eqb name "" then (st, Err ErrNameFlag) else commanded (addAPIKey rnd stateFile name ttl now st).

Definition apikey_delete (id name : string) (st : KeyTable) : KeyTable * res (cmdError APIKeyError) () :=
  if String.eqb id "" && String.eqb name "" then (st, Err ErrSelector) else commanded (deleteAPIKeys id name st).
End Text.

(** ** Listing *)

Definition joinTokenIDLen : nat := 12.
Definition apiKeyIDLen : nat := 12.
Definition shortID (id : string) : string :=
  if (String.length id <=? joinTokenIDLen)%nat then id else String.substring 0 joinTokenIDLen id.

Section Listing.
Context (rfc3339 day_minute : Z -> string).
Context (sort_tokens : list JoinTokenInfo -> list JoinTokenInfo) (sort_keys : list (string * APIKeyRecord) -> list (string * APIKeyRecord)).

Definition expiry (now expires : Z) : string := rfc3339 expires +:+ (if After now expires then " (expired)" else "").

Definition token_row (now : Z) (t : JoinTokenInfo) : list string := [shortID (ji_ID t); ji_Name t; expiry now (ji_ExpiresAt t)].

(** The columns of each line, before they are padded. *)
Definition listJoinTokens (now : Z) (db : ClusterDB) : option (list (list string)) :=
  toks ← ListJoinTokens db;
  Some (match toks with
        | [] => [["No outstanding join tokens."]]
        | _ => ["ID"; "SPOKE"; "EXPIRES"] :: (token_row now <$> sort_tokens toks)
        end).

Definition key_row (now : Z) (k : string * APIKeyRecord) : list string :=
  [shortID k.1; ak_Name k.2; day_minute (ak_CreatedAt k.2); expiry now (ak_ExpiresAt k.2)].

Definition listAPIKeys (now : Z) (st : KeyTable) : list (list string) :=
  match ListAPIKeys st with
  | [] => [["No API keys."]]
  | keys => ["ID"; "NAME"; "CREATED"; "EXPIRES"] :: (key_row now <$> sort_keys keys)
  end.
End Listing.

(** ** Theorems *)

Lemma fields_split sp : is_space sp = true -> forall s acc t,
  fields_acc (s +:+ String sp t) acc = fields_acc s acc ++ Fields t.
Proof.
  intros Hsp s. induction s as [|c s IH]; intros acc t.
  - rewrite sapp_nil_l. cbn [fields_acc]. rewrite Hsp. by destruct (String.eqb acc "").
  - rewrite sapp_cons. cbn [fields_acc]. destruct (is_space c); [|apply IH]. destruct (String.eqb acc ""); by rewrite IH.
Qed.

Lemma last_word s w : word w -> last (Fields (s +:+ String " " (w +:+ nl))) = Some w.
Proof.
  intros Hw. unfold Fields at 1. rewrite fields_split by done.
  change (w +:+ nl) with (w +:+ String "010" ""). unfold Fields. rewrite fields_split by done.
  change (fields_acc w "") with (Fields w). rewrite (Fields_last w Hw). by rewrite app_nil_r, last_snoc.
Qed.

Lemma hex_digit_not_space d : 0 <= d < 16 -> is_space (hex_digit d) = false.
Proof.
  intros Hd. assert (Hin : d ∈ seqZ 0 16) by (apply elem_of_seqZ; lia). clear Hd.
  revert d Hin. apply Forall_forall. vm_compute. repeat constructor.
Qed.

Lemma hex_encode_word b : b <> [] -> Forall (fun x => 0 <= x < 256) b -> word (hex_encode b).
Proof.
  intros Hb Hf. split; [by destruct b|]. clear Hb. induction Hf as [|x b Hx _ IH]; [done|].
  cbn [hex_encode String.list_ascii_of_string]. repeat constructor; [| |done]; apply hex_digit_not_space.
  - split; [apply Z.div_pos; lia|apply Z.div_lt_upper_bound; lia].
  - apply Z.mod_pos_bound. lia.
Qed.

(** [token create] prints a token that works: the last word of what it prints, given
    to a spoke before the token expires, enrolls the spoke under the name asked for.
    It fails, changing nothing, only for an empty name or a lifetime that is not
    positive. *)
Theorem printed_token_enrolls : forall quote dur b cred stateFile name ttl now later db,
  b <> [] -> Forall (fun x => 0 <= x < 256) b ->
  match token_create quote dur (Some b) stateFile name ttl now db with
  | (db', Ok text) => exists tok, last (Fields text) = Some tok /\ (later <= now + ttl -> exists db2,
      authenticateEnroll (Some cred) (MkEnrollReq tok "" "") later db' = (db2, Ok (name, hex_encode cred)))
  | (db', Err _) => db' = db /\ (name = "" \/ ttl <= 0)
  end.
Proof.
  intros quote dur b cred stateFile name ttl now later db Hb Hf. pose proof (hex_encode_word b Hb Hf) as Hw.
  unfold token_create, commanded, createJoinToken, CreateJoinToken.
  destruct (String.eqb name "") eqn:Hn; bools; [auto|]. destruct (ttl <=? 0) eqn:Ht; bools; [cbn; auto|]. cbn [newSecret fmap option_fmap option_map or_store_err fst snd PutJoinToken SQLite_ClusterStore SQLite_PutJoinToken].
  exists (hex_encode b). split.
  - unfold token_text. rewrite <- !sapp_assoc. by apply last_word.
  - intros Hl. unfold authenticateEnroll, enrollWithJoinToken. cbn [er_JoinToken]. destruct Hw as [Hne _].
    rewrite (proj2 (String.eqb_neq _ _) Hne). cbn [negb TakeJoinToken SQLite_ClusterStore SQLite_TakeJoinToken or_store_err cdb_tokens].
    rewrite lookup_insert_eq. cbn [jt_ExpiresAt]. unfold After. rewrite (proj2 (Z.ltb_ge _ _) Hl). eexists. reflexivity.
Qed.

Lemma HasPrefix_shortID id : HasPrefix id (shortID id) = true.
Proof.
  unfold shortID. destruct (String.length id <=? joinTokenIDLen)%nat.
  - apply HasPrefix_spec. exists "". by rewrite sapp_nil_r.
  - generalize joinTokenIDLen. induction id as [|c id IH]; intros [|n]; try done. cbn. by rewrite Ascii.eqb_refl, IH.
Qed.

Lemma shortID_ne id : id <> "" -> String.eqb (shortID id) "" = false.
Proof. intros Hi. apply String.eqb_neq. unfold shortID. destruct (_ <=? _)%nat; [done|]. by destruct id. Qed.

(** Selecting from a list by a test an element passes: that element alone, or
    several. *)
Lemma select_one {A} (p : A -> bool) (l : list A) (x : A) : NoDup l -> x ∈ l -> p x = true ->
  List.filter p l = [x] \/ (1 < Z.of_nat (length (List.filter p l)) /\ exists y, y ∈ l /\ y <> x /\ p y = true).
Proof.
  intros Hnd Hx Hp. assert (Hin : forall y, y ∈ List.filter p l <-> y ∈ l /\ p y = true).
  { intros y. by rewrite list_elem_of_In, filter_In, <- list_elem_of_In. }
  assert (Hnd' : NoDup (List.filter p l)) by (apply NoDup_ListNoDup, List.NoDup_filter, NoDup_ListNoDup; done).
  assert (Hxf : x ∈ List.filter p l) by by apply Hin.
  destruct (List.filter p l) as [|a [|b r]] eqn:Hf.
  - by apply elem_of_nil in Hxf.
  - left. apply list_elem_of_singleton in Hxf. by subst.
  - right. split; [cbn; lia|]. apply NoDup_cons in Hnd' as [Hab _].
    assert (a ∈ l /\ p a = true) as [Ha Hpa] by (apply Hin; left).
    assert (b ∈ l /\ p b = true) as [Hbl Hpb] by (apply Hin; right; left).
    destruct (proj1 (elem_of_cons _ _ _) Hxf) as [->|Hxr].
    + exists b. split_and!; [done| |done]. intros ->. apply Hab. left.
    + exists a. split_and!; [done| |done]. intros ->. by apply Hab.
Qed.

#[export] Instance info_of_inj : Inj (=) (=) info_of.
Proof. intros [h1 [n1 b1 e1]] [h2 [n2 b2 e2]] [= -> -> -> ->]. done. Qed.

(** The listing and [token revoke] agree: every token is listed, and the id shown for
    it, given to [token revoke --id], revokes that token and nothing else, unless
    another token's id starts the same way: then the command says so and revokes
    nothing. *)
Theorem listed_id_revokes : forall rfc3339 (sort_tokens : list JoinTokenInfo -> list JoinTokenInfo) now db id rec,
  (forall l, sort_tokens l ≡ₚ l) -> id <> "" -> cdb_tokens db !! id = Some rec ->
  (exists rows, listJoinTokens rfc3339 sort_tokens now db = Some rows /\ token_row rfc3339 now (info_of (id, rec)) ∈ rows) /\
  match token_revoke (shortID id) "" db with
  | (db', Ok _) => db' = MkClusterDB (delete id (cdb_tokens db)) (cdb_spokes db)
  | (db', Err e) => db' = db /\ e = ErrCommand ErrAmbiguous /\
      exists id' rec', cdb_tokens db !! id' = Some rec' /\ id' <> id /\ HasPrefix id' (shortID id) = true
  end.
Proof.
  intros rfc3339 sort_tokens now db id rec Hperm Hid Hrec.
  set (toks := info_of <$> map_to_list (cdb_tokens db)).
  assert (Hin : info_of (id, rec) ∈ toks).
  { apply list_elem_of_fmap. exists (id, rec). split; [done|]. by apply elem_of_map_to_list. }
  split.
  - unfold listJoinTokens. change (ListJoinTokens db) with (Some toks). cbn [mbind option_bind].
    eexists. split; [reflexivity|]. destruct toks as [|t ts] eqn:Ht; [by apply elem_of_nil in Hin|]. right.
    apply list_elem_of_fmap. exists (info_of (id, rec)). split; [done|]. by rewrite Hperm.
  - unfold token_revoke, commanded. rewrite (shortID_ne id Hid). cbn [andb]. unfold revokeJoinTokens.
    change (ListJoinTokens db) with (Some toks). cbn [or_store_err].
    assert (Hnd : NoDup toks) by (apply (NoDup_fmap_2 info_of), NoDup_map_to_list).
    assert (Hm : revoke_matches (shortID id) "" (info_of (id, rec)) = true).
    { unfold revoke_matches. cbn [ji_ID info_of fst]. by rewrite (shortID_ne id Hid), HasPrefix_shortID. }
    destruct (select_one (revoke_matches (shortID id) "") toks (info_of (id, rec)) Hnd Hin Hm) as [->|[Hlen (y & Hy & Hne & Hp)]].
    + rewrite andb_false_r. reflexivity.
    + destruct (List.filter _ toks) as [|a r] eqn:Hf; [cbn in Hlen; lia|].
      rewrite (shortID_ne id Hid), (proj2 (Z.ltb_lt _ _) Hlen). cbn. split_and!; [done|done|].
      apply list_elem_of_fmap in Hy as ([h' rec'] & -> & Hy%elem_of_map_to_list). exists h', rec'. split; [done|].
      split; [intros ->; apply Hne; by simplify_eq|].
      unfold revoke_matches in Hp. cbn [ji_ID info_of fst] in Hp. rewrite (shortID_ne id Hid), orb_false_r in Hp. by apply andb_true_iff in Hp as [_ Hp].
Qed.

(** The same for the keys of the API. *)
Theorem listed_id_deletes_key : forall rfc3339 day_minute (sort_keys : list (string * APIKeyRecord) -> list (string * APIKeyRecord)) now st id rec,
  (forall l, sort_keys l ≡ₚ l) -> id <> "" -> st !! id = Some rec ->
  key_row rfc3339 day_minute now (id, rec) ∈ listAPIKeys rfc3339 day_minute sort_keys now st /\
  match apikey_delete (shortID id) "" st with
  | (st', Ok _) => st' = delete id st
  | (st', Err e) => st' = st /\ e = ErrCommand ErrKeyAmbiguous /\
      exists id' rec', st !! id' = Some rec' /\ id' <> id /\ HasPrefix id' (shortID id) = true
  end.
Proof.
  intros rfc3339 day_minute sort_keys now st id rec Hperm Hid Hrec.
  assert (Hin : (id, rec) ∈ map_to_list st) by by apply elem_of_map_to_list.
  split.
  - unfold listAPIKeys, ListAPIKeys. destruct (map_to_list st) as [|k ks] eqn:Hk; [by apply elem_of_nil in Hin|]. right.
    apply list_elem_of_fmap. exists (id, rec). split; [done|]. by rewrite Hperm.
  - unfold apikey_delete, commanded. rewrite (shortID_ne id Hid). cbn [andb]. unfold deleteAPIKeys, ListAPIKeys.
    assert (Hm : key_matches (shortID id) "" (id, rec) = true).
    { unfold key_matches. cbn [fst]. by rewrite (shortID_ne id Hid), HasPrefix_shortID. }
    destruct (select_one (key_matches (shortID id) "") (map_to_list st) (id, rec) (NoDup_map_to_list st) Hin Hm) as [->|[Hlen ([h' rec'] & Hy%elem_of_map_to_list & Hne & Hp)]].
    + rewrite andb_false_r. reflexivity.
    + destruct (List.filter _ (map_to_list st)) as [|a r] eqn:Hf; [cbn in Hlen; lia|].
      rewrite (shortID_ne id Hid), (proj2 (Z.ltb_lt _ _) Hlen). cbn. split_and!; [done|done|]. exists h', rec'. split; [done|].
      split; [intros ->; apply Hne; by simplify_eq|].
      unfold key_matches in Hp. cbn [fst] in Hp. rewrite (shortID_ne id Hid), orb_false_r in Hp. by apply andb_true_iff in Hp as [_ Hp].
Qed.

(** What a listing marks as expired is what the hub refuses as expired at that
    moment: tokens and keys. *)
Theorem listed_expiry_is_enforced : forall rfc3339 now db tok rec st secret krec cred,
  cdb_tokens db !! hashSecret tok = Some rec -> tok <> "" ->
  st !! HashSecret secret = Some krec -> secret <> "" ->
  (expiry rfc3339 now (jt_ExpiresAt rec) = rfc3339 (jt_ExpiresAt rec) +:+ " (expired)" <->
   (authenticateEnroll (Some cred) (MkEnrollReq tok "" "") now db).2 = Err ErrTokenExpired) /\
  (expiry rfc3339 now (ak_ExpiresAt krec) = rfc3339 (ak_ExpiresAt krec) +:+ " (expired)" <-> Authenticate secret now st = None).
Proof.
  intros rfc3339 now db tok rec st secret krec cred Hr Hne Hk Hnk. apply String.eqb_neq in Hne, Hnk.
  assert (Happ : forall s, s +:+ "" <> s +:+ " (expired)") by (intros s Hs; apply sapp_inj_l in Hs; done).
  unfold authenticateEnroll, enrollWithJoinToken, Authenticate, GetAPIKey, expiry. cbn [er_JoinToken]. rewrite Hne, Hnk, Hk.
  cbn [negb TakeJoinToken SQLite_ClusterStore SQLite_TakeJoinToken or_store_err]. rewrite Hr.
  split.
  - destruct (After now (jt_ExpiresAt rec)); cbn; [done|]. split; [intros Hs; by apply Happ in Hs|done].
  - destruct (After now (ak_ExpiresAt krec)); [done|]. split; [intros Hs; by apply Happ in Hs|done].
Qed.

(** ** A small cluster *)

Module Demo_operator.
Definition rfc (t : Z) : string := Itoa t.
Definition ids : ClusterDB := MkClusterDB (list_to_map [("aaaaaaaaaaaa01", MkJoinToken "edge" "docker" 10); ("aaaaaaaaaaaa02", MkJoinToken "lab" "docker" 99); ("bbbbbbbbbbbb03", MkJoinToken "west" "docker" 99)]) ∅.

(** Two tokens share the twelve characters shown: neither can be revoked by them. *)
Lemma listed_ids_example :
  token_revoke (shortID "aaaaaaaaaaaa01") "" ids = (ids, Err (ErrCommand ErrAmbiguous)) /\
  (exists db', token_revoke (shortID "bbbbbbbbbbbb03") "" ids = (db', Ok ()) /\ cdb_tokens db' = delete "bbbbbbbbbbbb03" (cdb_tokens ids)) /\
  token_row rfc 50 (MkJoinTokenInfo "aaaaaaaaaaaa01" "edge" "docker" 10) = ["aaaaaaaaaaaa"; "edge"; "10 (expired)"].
Proof. split_and!; [vm_compute; reflexivity| |reflexivity]. eexists. split; vm_compute; reflexivity. Qed.
End Demo_operator.
