(* ===== verification/Listeners.v ===== *)
(** * Unix sockets and accept loops (internal/guest/guest.go, internal/guest/bridge.go,
      internal/spoke/boxapi/server.go)

    How the guest's control socket, the bridge's socket and the host's box-port
    socket are made, who may connect to each, and the accept loops that serve them.
    The file system holds modes; which calls fail is an argument. *)

From S2P Require Import Prelude GoStrings Startup.

Local Open Scope Z_scope.
Local Open Scope go_scope.

(** ** Files *)

Inductive fkind := KDir | KSocket | KFile.
Record Node := MkNode { n_kind : fkind; n_mode : Z }.
Inductive fsCall := CMkdir | CChmod | CRemove | CListen.
Record Files := MkFiles { f_nodes : gmap string Node; f_umask : Z; f_fails : fsCall -> string -> bool }.

Definition with_nodes (m : gmap string Node) (f : Files) : Files := MkFiles m (f_umask f) (f_fails f).

Inductive listenError := ErrSocketDir | ErrDirMode | ErrStale | ErrListening | ErrSocketMode | ErrAccept.

(** A call on a path that may fail, and else does [k]. *)
Definition call_on (c : fsCall) (path : string) (e : listenError) (k : go Files listenError ()) : go Files listenError () :=
  fun f => if f_fails f c path then (f, Err e) else k f.

Definition created (f : Files) (mode : Z) : Z := Z.ldiff mode (f_umask f).

(** [os.MkdirAll]: a directory that is there keeps its mode. *)
Definition os_MkdirAll (dir : string) (mode : Z) : go Files listenError () :=
  call_on CMkdir dir ErrSocketDir (fun f =>
    match f_nodes f !! dir with
    | None => (with_nodes (<[dir := MkNode KDir (created f mode)]> (f_nodes f)) f, Ok ())
    | Some (MkNode KDir _) => (f, Ok ())
    | Some _ => (f, Err ErrSocketDir)
    end).

Definition os_Chmod (path : string) (mode : Z) (e : listenError) : go Files listenError () :=
  call_on CChmod path e (fun f =>
    match f_nodes f !! path with
    | None => (f, Err e)
    | Some n => (with_nodes (<[path := MkNode (n_kind n) mode]> (f_nodes f)) f, Ok ())
    end).

(** [os.Remove] with [os.ErrNotExist] ignored. *)
Definition remove_stale (path : string) : go Files listenError () :=
  call_on CRemove path ErrStale (fun f => (with_nodes (delete path (f_nodes f)) f, Ok ())).

(** [net.Listen("unix", path)]: the path must be free. *)
Definition net_Listen (path : string) : go Files listenError () :=
  call_on CListen path ErrListening (fun f =>
    match f_nodes f !! path with
    | Some _ => (f, Err ErrListening)
    | None => (with_nodes (<[path := MkNode KSocket (created f 511)]> (f_nodes f)) f, Ok ())
    end).

(** [ln.Close] removes the socket's file. *)
Definition ln_Close (path : string) (f : Files) : Files := with_nodes (delete path (f_nodes f)) f.

(** ** Accept loops *)

(** What the loop sees: a connection, the context done (its goroutine then closes
    the listener), [Accept] failing. *)
Inductive accept (C : Type) := Accepted (c : C) | CtxDone | AcceptFails.
#[global] Arguments Accepted {C}.
#[global] Arguments CtxDone {C}.
#[global] Arguments AcceptFails {C}.

Inductive loopState := Accepting | Stopped | Broken.

Section Loop.
Context {C A : Type} (handle : C -> A).

(** The connections handed to their goroutines, and how the loop stands. *)
Fixpoint accept_loop (done : bool) (evs : list (accept C)) : list A * loopState :=
  match evs with
  | [] => ([], Accepting)
  | Accepted c :: evs' => let '(l, st) := accept_loop done evs' in (handle c :: l, st)
  | CtxDone :: evs' => accept_loop true evs'
  | AcceptFails :: _ => ([], if done then Stopped else Broken)
  end.
End Loop.

(** What becomes of a listener that was set up. *)
Definition serving {C A} (handle : C -> A) (path : string) (evs : list (accept C)) : Files -> Files * res listenError (list A * loopState) :=
  fun f =>
    match accept_loop handle false evs with
    | (l, Accepting) => (f, Ok (l, Accepting))
    | (l, Stopped) => (ln_Close path f, Ok (l, Stopped))
    | (_, Broken) => (ln_Close path f, Err ErrAccept)
    end.

(** ** The listeners *)

(** 0o711, 0o700, 0o666. *)
Definition mode_711 : Z := 457.
Definition mode_700 : Z := 448.
Definition mode_666 : Z := 438.

(** [defer ln.Close()] over what follows the listen. *)
Definition opened_socket (path : string) : go Files listenError () :=
  let* _ := remove_stale path in
  let* _ := net_Listen path in
  fun f => match os_Chmod path mode_666 ErrSocketMode f with
           | (f', Ok _) => (f', Ok ())
           | (f', Err e) => (ln_Close path f', Err e)
           end.

(** [ServeUnix] up to its serving goroutine; [Server.Close]. *)
Definition ServeUnix (path : string) : go Files listenError () := opened_socket path.
Definition Server_Close (path : string) : Files -> Files := ln_Close path.

(** [Guest.ListenAndServe] up to [serve], and whole. *)
Definition listen_control (path : string) : go Files listenError () :=
  let* _ := os_MkdirAll (Dir path) mode_700 in opened_socket path.

Definition ListenAndServe {C A} (handleConn : C -> A) (path : string) (evs : list (accept C)) : go Files listenError (list A * loopState) :=
  let* _ := listen_control path in serving handleConn path evs.

(** [RunBoxAPIBridge]: an accepted connection is spliced to the host it dials, or
    closed. *)
Inductive bridged := Spliced | Closed.
Definition bridge_conn (dialled : bool) : bridged := if dialled then Spliced else Closed.

Definition listen_bridge (path : string) : go Files listenError () :=
  let* _ := os_MkdirAll (Dir path) mode_711 in
  let* _ := os_Chmod (Dir path) mode_711 ErrDirMode in
  opened_socket path.

Definition RunBoxAPIBridge (path : string) (evs : list (accept bool)) : go Files listenError (list bridged * loopState) :=
  let* _ := listen_bridge path in serving bridge_conn path evs.

(** ** Who may connect *)

(** A process that is neither the owner nor in the group: it may pass the directory
    and write to the socket. *)
Definition others_connect (path : string) (f : Files) : bool :=
  match f_nodes f !! Dir path, f_nodes f !! path with
  | Some (MkNode KDir d), Some (MkNode KSocket s) => Z.testbit d 0 && Z.testbit s 1
  | _, _ => false
  end.

Section Sockets.
Context (path : string).
Hypothesis Hdir : Dir path <> path.
Implicit Types f : Files.

Lemma opened_socket_ok f f' : opened_socket path f = (f', Ok ()) ->
  f_nodes f' !! path = Some (MkNode KSocket mode_666) /\ forall p, p <> path -> f_nodes f' !! p = f_nodes f !! p.
Proof.
  unfold opened_socket, go_bind, remove_stale, net_Listen, os_Chmod, call_on. intros Ho.
  destruct (f_fails f CRemove path); [done|]. cbn [with_nodes f_nodes f_fails] in Ho. rewrite lookup_delete_eq in Ho.
  destruct (f_fails f CListen path); [done|]. cbn [with_nodes f_nodes f_fails] in Ho. rewrite lookup_insert_eq in Ho.
  destruct (f_fails f CChmod path); [done|]. simplify_eq. cbn [with_nodes f_nodes n_kind]. split; [by rewrite lookup_insert_eq|].
  intros p Hp. by rewrite !lookup_insert_ne, lookup_delete_ne by done.
Qed.

(** A failure leaves no socket behind, unless the stale one could not be removed. *)
Theorem failed_listen_leaves_no_socket : forall f f' e, opened_socket path f = (f', Err e) ->
  (e = ErrStale /\ f' = f) \/ f_nodes f' !! path = None.
Proof.
  intros f f' e. unfold opened_socket, go_bind, remove_stale, net_Listen, os_Chmod, call_on. intros Ho.
  destruct (f_fails f CRemove path); [left; by simplify_eq|right]. cbn [with_nodes f_nodes f_fails] in Ho. rewrite lookup_delete_eq in Ho.
  destruct (f_fails f CListen path); [simplify_eq; cbn; by rewrite lookup_delete_eq|]. cbn [with_nodes f_nodes f_fails] in Ho. rewrite lookup_insert_eq in Ho.
  destruct (f_fails f CChmod path); [|done]. simplify_eq. cbn. by rewrite lookup_delete_eq.
Qed.

(** With no failing call, a socket is made whatever was at the path. *)
Lemma opened_socket_total f : (forall c p, f_fails f c p = false) -> exists f', opened_socket path f = (f', Ok ()).
Proof.
  intros Hno. unfold opened_socket, go_bind, remove_stale, net_Listen, os_Chmod, call_on.
  repeat (rewrite ?Hno; cbn [with_nodes f_nodes f_fails]; rewrite ?lookup_delete_eq, ?lookup_insert_eq). by eexists.
Qed.

Lemma MkdirAll_ok mode f f' : os_MkdirAll (Dir path) mode f = (f', Ok ()) ->
  f_nodes f' !! Dir path = Some (default (MkNode KDir (created f mode)) (f_nodes f !! Dir path)) /\
  (exists d, f_nodes f' !! Dir path = Some (MkNode KDir d)) /\ f_fails f' = f_fails f.
Proof using Type.
  unfold os_MkdirAll, call_on. destruct (f_fails f CMkdir _); [done|].
  destruct (f_nodes f !! Dir path) as [[[] m]|] eqn:Hn; intros [= <-]; cbn [with_nodes f_nodes f_fails]; rewrite ?Hn, ?lookup_insert_eq; eauto.
Qed.

(** The bridge's socket is open to the box's user, whatever the mode of the directory
    was, whatever was at the path, and whatever the umask. *)
Theorem bridge_admits_box_user : forall f f', listen_bridge path f = (f', Ok ()) -> others_connect path f' = true.
Proof.
  intros f f'. unfold listen_bridge, go_bind at 1. destruct (os_MkdirAll (Dir path) mode_711 f) as [f1 [[]|e]] eqn:Hm; [|done].
  apply MkdirAll_ok in Hm as (_ & (d & Hd) & _). unfold go_bind, os_Chmod, call_on.
  destruct (f_fails f1 CChmod (Dir path)); [done|]. rewrite Hd. cbn [n_kind]. intros Ho%opened_socket_ok.
  destruct Ho as [Hs Ho]. unfold others_connect. rewrite Hs, Ho by done. cbn [with_nodes f_nodes]. by rewrite lookup_insert_eq.
Qed.

(** The control socket's gate is its directory: a new one keeps others out; one that
    was there keeps the mode it had, and lets others in when it did. *)
Theorem control_socket_gate : forall f f', listen_control path f = (f', Ok ()) ->
  others_connect path f' = match f_nodes f !! Dir path with Some n => Z.testbit (n_mode n) 0 | None => false end.
Proof.
  intros f f'. unfold listen_control, go_bind. destruct (os_MkdirAll (Dir path) mode_700 f) as [f1 [[]|e]] eqn:Hm; [|done].
  apply MkdirAll_ok in Hm as (Hd & (d & Hk) & _). intros [Hs Ho]%opened_socket_ok.
  unfold others_connect. rewrite Hs, Ho by done. rewrite Hk. rewrite Hk in Hd. change (Z.testbit mode_666 1) with true. rewrite andb_true_r.
  destruct (f_nodes f !! Dir path) as [n|]; cbn [default from_option id] in Hd.
  { assert (n = MkNode KDir d) as -> by congruence. done. }
  assert (d = created f mode_700) as -> by congruence.
  unfold created. rewrite Z.ldiff_spec. reflexivity.
Qed.
End Sockets.

(** ** The loops *)

Definition conn_of {C} (ev : accept C) : option C := match ev with Accepted c => Some c | _ => None end.
Definition is_failure {C} (ev : accept C) : bool := match ev with AcceptFails => true | _ => false end.
Definition is_done {C} (ev : accept C) : bool := match ev with CtxDone => true | _ => false end.

(** Up to the first failing [Accept]. *)
Fixpoint before_failure {C} (evs : list (accept C)) : list (accept C) :=
  match evs with [] => [] | AcceptFails :: _ => [] | ev :: evs' => ev :: before_failure evs' end.

Lemma accept_loop_spec {C A} (handle : C -> A) done evs :
  accept_loop handle done evs =
  (handle <$> omap conn_of (before_failure evs),
   if existsb is_failure evs then (if done || existsb is_done (before_failure evs) then Stopped else Broken) else Accepting).
Proof.
  revert done. induction evs as [|[c| |] evs IH]; intros dn; [done| | |].
  - cbn. by rewrite IH.
  - cbn. rewrite IH. by rewrite orb_true_r.
  - cbn. by rewrite orb_false_r.
Qed.

(** The bridge answers every connection it accepts, by a splice when the host could
    be dialled and by closing it otherwise; it ends without an error exactly when the
    context was done before [Accept] failed, and whenever it ends its socket is gone. *)
Theorem bridge_serves : forall path evs f, (forall c p, f_fails f c p = false) ->
  (forall n, f_nodes f !! Dir path = Some n -> n_kind n = KDir) -> Dir path <> path ->
  let pre := before_failure evs in
  let '(f', r) := RunBoxAPIBridge path evs f in
  if existsb is_failure evs then
    f_nodes f' !! path = None /\
    r = if existsb is_done pre then Ok (bridge_conn <$> omap conn_of pre, Stopped) else Err ErrAccept
  else r = Ok (bridge_conn <$> omap conn_of evs, Accepting) /\ others_connect path f' = true.
Proof.
  intros path evs f Hno Hd Hne pre. unfold RunBoxAPIBridge, go_bind.
  assert (exists f1, listen_bridge path f = (f1, Ok ())) as [f1 Hl].
  { unfold listen_bridge, go_bind, os_MkdirAll, os_Chmod, call_on. rewrite Hno.
    destruct (f_nodes f !! Dir path) as [n|] eqn:Hn.
    - specialize (Hd n eq_refl). destruct n as [k m]. cbn in Hd. subst k. rewrite Hno, Hn. by apply opened_socket_total.
    - cbn [with_nodes f_nodes f_fails]. rewrite Hno, lookup_insert_eq. by apply opened_socket_total. }
  rewrite Hl. unfold serving. rewrite accept_loop_spec. fold pre. cbn [orb].
  destruct (existsb is_failure evs) eqn:Hf.
  - destruct (existsb is_done pre); cbn [ln_Close with_nodes f_nodes]; (split; [apply lookup_delete_eq|done]).
  - split; [|by apply (bridge_admits_box_user path Hne f)]. unfold pre. clear -Hf. f_equal. f_equal. f_equal.
    f_equal. induction evs as [|[c| |] evs IH]; [done|..]; cbn in *; [by rewrite IH|by rewrite IH|done].
Qed.

(** A restart: the directory is there and private, and so is the old socket. *)
Example bridge_after_restart :
  let path := "/run/llmbox/boxapi.sock" in
  let f := MkFiles (list_to_map [("/run/llmbox", MkNode KDir mode_700); (path, MkNode KSocket mode_666)]) 18 (fun _ _ => false) in
  let '(f', r) := RunBoxAPIBridge path [Accepted true; Accepted false] f in
  (r, others_connect path f, others_connect path f') = (Ok ([Spliced; Closed], Accepting), false, true) /\
  (let '(f2, r2) := RunBoxAPIBridge path [Accepted true; CtxDone; AcceptFails] f in
   r2 = Ok ([Spliced], Stopped) /\ f_nodes f2 !! path = None).
Proof. vm_compute. done. Qed.
