(* ===== verification/Backends.v ===== *)
(** * The registry of box backends (internal/spoke/box/backend/backend.go)

    The packages of the backends register themselves when the program starts; a
    spoke picks one by name.  What a backend's factory builds is an argument (the
    factories are in Docker.v, Firecracker.v and CloudHypervisor.v).  The pull
    credentials every backend is given are here too (internal/shared/boxconfig). *)

From S2P Require Import Prelude GoStrings Microvm Spoke CommandLine.

Section Registry.
Context {P E : Type}.
Abbreviation Factory := (Options -> res E P).
Abbreviation registry := (gmap string Factory).

Definition DefaultName : string := "docker".

(** [Register]; [None] is its panic. *)
Definition Register (name : string) (f : Factory) (r : registry) : option registry :=
  match r !! name with Some _ => None | None => Some (<[name := f]> r) end.

Definition Names (r : registry) : list string := sort_strings (map_to_list r).*1.

Inductive backendError := ErrUnknownBackend (name : string) (available : list string) | ErrFactory (e : E).

Definition New (name : string) (opts : Options) (r : registry) : res backendError P :=
  let name := if String.eqb name "" then DefaultName else name in
  match r !! name with
  | None => Err (ErrUnknownBackend name (Names r))
  | Some f => match f opts with Ok p => Ok p | Err e => Err (ErrFactory e) end
  end.

(** The [init] functions, in the order the packages are initialised. *)
Fixpoint register_all (l : list (string * Factory)) (r : registry) : option registry :=
  match l with
  | [] => Some r
  | (name, f) :: l' => r' ← Register name f r; register_all l' r'
  end.

Lemma register_all_spec l : forall r, NoDup l.*1 -> (forall n, n ∈ l.*1 -> r !! n = None) ->
  register_all l r = Some (list_to_map l ∪ r).
Proof.
  induction l as [|[n f] l IH]; intros r Hnd Hr; [cbn; by rewrite (left_id_L ∅ (∪))|].
  apply NoDup_cons in Hnd as [Hn Hnd]. cbn [register_all]. unfold Register. rewrite Hr by left. cbn [mbind option_bind].
  rewrite IH; [|done|].
  - f_equal. transitivity (<[n := f]> (list_to_map l ∪ r) : registry); [|by apply insert_union_l].
    symmetry. apply insert_union_r. by apply not_elem_of_list_to_map_1.
  - intros m Hm. rewrite lookup_insert_ne by (intros ->; by apply Hn). apply Hr. by right.
Qed.

(** The order of initialisation does not matter, and a name used twice stops the
    program. *)
Theorem registration_order : forall l l', l ≡ₚ l' -> register_all l ∅ = register_all l' ∅.
Proof.
  intros l l' Hp. destruct (decide (NoDup l.*1)) as [Hnd|Hd].
  - rewrite !register_all_spec by (done || (rewrite <- Hp; done)). f_equal. f_equal. by apply list_to_map_proper.
  - assert (Hdup : forall k r, ~ NoDup k.*1 \/ (exists n, n ∈ k.*1 /\ r !! n <> None) -> register_all k r = None).
    { clear. induction k as [|[n f] k IH]; intros r Hk.
      - destruct Hk as [Hk|(n & Hn & _)]; [exfalso; apply Hk; constructor|by apply elem_of_nil in Hn].
      - cbn [register_all]. unfold Register. destruct (r !! n) eqn:Hrn; [done|]. cbn [mbind option_bind]. apply IH.
        destruct (decide (n ∈ k.*1)) as [Hin|Hni]; [right; exists n; split; [done|by rewrite lookup_insert_eq]|].
        destruct Hk as [Hk|(m & Hm & Hrm)]; [left; intros Hnd; apply Hk; by constructor|right].
        apply elem_of_cons in Hm as [->|Hm]; [done|]. exists m. split; [done|].
        rewrite lookup_insert_ne; [done|]. intros ->. done. }
    rewrite !Hdup; [done| |by left]. left. intros Hnd. apply Hd. by rewrite Hp.
Qed.

(** ** The program's backends *)

Context (docker firecracker cloudhypervisor : Factory).
Definition inits : list (string * Factory) :=
  [("docker", docker); ("firecracker", firecracker); ("cloud-hypervisor", cloudhypervisor)].
Definition registered : registry := list_to_map inits.

(** The spoke's three commands name the three backends, each gets its own, and no
    other name is known; a configuration that names none runs on Docker. *)
Theorem commands_select_backends : forall home name opts,
  register_all inits ∅ = Some registered /\
  cmd_name <$> cmd_subs (NewRootCmd home name) = inits.*1 /\
  (forall n f, (n, f) ∈ inits -> New n opts registered = match f opts with Ok p => Ok p | Err e => Err (ErrFactory e) end) /\
  New "" opts registered = New "docker" opts registered /\
  (forall n, n <> "" -> n ∉ inits.*1 ->
     New n opts registered = Err (ErrUnknownBackend n ["cloud-hypervisor"; "docker"; "firecracker"])).
Proof.
  intros home name opts.
  assert (Hnames : Names registered = ["cloud-hypervisor"; "docker"; "firecracker"]).
  { unfold Names. transitivity (sort_strings ["docker"; "firecracker"; "cloud-hypervisor"]); [|reflexivity].
    apply sort_strings_perm_eq. change ["docker"; "firecracker"; "cloud-hypervisor"] with inits.*1. f_equiv.
    apply map_to_list_to_map. by apply (bool_decide_unpack _). }
  assert (Hnd : NoDup inits.*1) by (apply (bool_decide_unpack _); vm_compute; done).
  assert (Hlook : forall n f, (n, f) ∈ inits -> registered !! n = Some f) by (intros n f; apply elem_of_list_to_map_1, Hnd).
  split_and!.
  - rewrite register_all_spec; [by rewrite (right_id_L ∅ (∪))|exact Hnd|done].
  - reflexivity.
  - intros n f Hin. assert (Hne : String.eqb n "" = false).
    { apply (list_elem_of_fmap_2 fst) in Hin as Hn. cbn [fst] in Hn. revert n f Hin Hn. clear.
      intros n f _ Hn. apply String.eqb_neq. intros ->. revert Hn. apply (bool_decide_unpack _). vm_compute. done. }
    unfold New. rewrite Hne. cbv zeta.
    rewrite (Hlook n f Hin). done.
  - reflexivity.
  - intros n Hne Hni. unfold New. rewrite (proj2 (String.eqb_neq _ _) Hne).
    rewrite (not_elem_of_list_to_map_1 inits n Hni : registered !! n = None). by rewrite Hnames.
Qed.
End Registry.

(** ** RegistryAuths *)

Record authConfig := MkAuth { ac_Username : string; ac_Password : string; ac_ServerAddress : string }.

(** The credentials by host, [None] for none; of two for a host, the last. *)
Definition RegistryAuths (regs : list (string * string * string)) : option (gmap string authConfig) :=
  match regs with
  | [] => None
  | _ => Some (foldl (fun auths '(host, user, password) => <[host := MkAuth user password host]> auths) ∅ regs)
  end.

(** The credential the spoke's flags name is the one pulls from that registry use,
    with the password's surrounding space gone; no other registry gets it. *)
Theorem pulls_use_the_flags : forall read host user pwfile regs,
  registries read host user pwfile = Ok regs ->
  (host = "" /\ RegistryAuths regs = None) \/
  (exists data auths, read pwfile = Some data /\ RegistryAuths regs = Some auths /\
    forall h, auths !! h = if decide (h = host) then Some (MkAuth user (TrimSpace data) host) else None).
Proof.
  intros read host user pwfile regs. unfold registries. destruct (String.eqb host "") eqn:Hh; bools; [intros [= <-]; by left|].
  destruct (String.eqb pwfile ""); [done|]. destruct (read pwfile) as [data|]; [|done]. intros [= <-]. right.
  exists data. eexists. split_and!; [done|reflexivity|]. intros h. cbn [foldl]. case_decide; [subst; by rewrite lookup_insert_eq|].
  by rewrite lookup_insert_ne, lookup_empty by done.
Qed.
